(* ===== verification/_CoqProject ===== *)
-Q . S2P
Prelude.v
Bytes.v
Types.v
Checksum.v
Layout.v
RustStr.v
RustPath.v
RustSort.v
RustText.v
RustNet.v
Protocol.v
MonitorValidate.v
MonitorChecks.v
Monitor.v
MonitorFacts.v
MonitorTrust.v
MonitorSpec.v
Errors.v
Disk.v
Tables.v
Dir.v
FileTree.v
Extent.v
Xattr.v
Geometry.v
Formatter.v
Payload.v
FormatterTree.v
BuilderInv.v
Flex.v
Close.v
CloseBitmaps.v
CloseWrites.v
CloseSkips.v
ClosePrimary.v
ClosePlan.v
CloseImage.v
CloseOrder.v
CloseDirs.v
FileCreate.v
ImageReader.v
ReaderFacts.v
ReaderSample.v
CloseReads.v
ReaderTree.v
ReaderQueries.v
CloseTree.v
CloseSpec.v
Canonical.v
Resizer.v
ResizerFacts.v
ResizerSample.v
ResizerPlan.v
ResizerCrash.v
ResizerReopen.v
Transitions.v
Reconcile.v
