(* ===== verification/Prelude.v ===== *)
(** * A verification of the silo image builder, machine lifecycle and monitor state

    silo runs Linux machines in micro-VMs.  This library models five of its
    parts in Rocq and proves them correct:

    - the ext4 image builder, the crate [common/disk-image], which writes the
      disk of a machine from scratch in one pass: a tree of files is collected
      in memory, file contents go to the image as they arrive, and the metadata
      of the file system follows at the end;
    - the reader of the same crate, which opens such a disk and answers queries
      about its paths and files;
    - the offline resizer of the same crate, which grows such a disk in place;
    - the machine lifecycle of the runtime, [runtime/libvm]: the reducer that
      decides which event may change the stored state of a machine, and the
      reconciliation that compares the stored state with the processes found on
      the host;
    - the state a monitor keeps of its running machine, [virt/vmm]: the reports
      of the guest agent, their validation, the verification of the guest's SSH
      listener and the readiness that follows from them.

    Definitions are translated from the source and run: integers keep their
    width (a [u32] expression is a [Z] wrapped by [u32]), an index out of range
    is the outcome [Panic], an early return is [Err], a loop that is not
    structural has fuel.  Every such loop has a theorem that its fuel is enough.

    ** Files

    - [Prelude]: machine integers, the result monad with [Ok], [Err] and
      [Panic], loops that can fail, the shared tactics.
    - [Bytes]: byte buffers, little-endian accessors, records as lists of
      fields at offsets, and the classes [DiskRecord] and [DiskRecordLaws]: what
      a record serialised by [write_to] and [read_from] promises to its users.
    - [Types] ([types.rs], [constants.rs]): superblock, group descriptor, inode,
      extent, directory and attribute records, byte for byte; instances of the
      classes above.
    - [Checksum] ([checksum.rs]): CRC-16 and the descriptor checksum.
    - [Layout] ([layout.rs], [journal.rs]): block groups, sparse superblock
      copies, the journal size ladder and the journal superblock.
    - [RustStr], [RustPath], [RustSort]: the parts of the Rust library the
      builder uses on strings, Unix paths and sorting.
    - [Errors] ([error.rs]): the error enumerations.
    - [Disk]: the image file with its position, for [std::fs::File].
    - [Tables]: sequences of records in a buffer, shared by the writers.
    - [Dir] ([dir.rs]): directory blocks, written and parsed.
    - [FileTree] ([file_tree.rs]): the in-memory tree.
    - [Extent] ([extent.rs]): extent trees of depth 0 and 1, written and parsed.
    - [Xattr] ([xattr.rs]): extended attributes in the inode and in a block.
    - [Geometry] (pure parts of [formatter.rs]): block counts, descriptor areas,
      the placement of the shared metadata run, free ranges, bitmaps, the choice
      of inodes per group, path helpers.
    - [Formatter] ([formatter.rs], [with_options] to [remove_inner]): the builder
      as state-passing programs over the image file, tree and inodes.
    - [Payload]: what the payload writers of [Formatter] put on the disk.
    - [FormatterTree]: what its tree operations do on errors, and sample runs.
    - [BuilderInv]: the invariant of the builder and the effect of every
      operation on the reachable paths, with a weakest-precondition calculus
      for the builder's programs.
    - [Flex] ([flex_metadata_layout]): the placement of the shared metadata run,
      with its fixed point.
    - [Close] ([close] and the helpers only it calls): the finalisation, one
      definition for each step, [commit_directories] then [write_image].
    - [CloseBitmaps]: the bits the bitmaps have and their numbers.
      [CloseWrites], [ClosePrimary]: where every step writes.  [CloseSkips]: how
      far payload moves the position.  [ClosePlan]: the layout decided on.
      [CloseImage]: [write_image] as a whole, [image_made].
    - [CloseOrder]: the walk over the tree and the bytes of one directory.
      [CloseDirs]: [commit_directories] as a whole, [dirs_done].  [FileCreate]:
      [create] of a regular file, with its bytes.
    - [CloseReads], [CloseTree]: the finished image through the reader.
      [CloseSpec]: the properties of [close].
    - [ImageReader] ([reader.rs], [reader_io.rs], [probe] of [mod.rs]): the reader
      as programs over its open file, caches, tree and hard links.
    - [ReaderFacts]: what those programs answer, as a function of the image
      ([disk_inode], [disk_entries]); the predicate [answers] and its rules; loops
      with a measure.  [ReaderSample]: a small image with links.
    - [ReaderTree]: opening an image; [ReaderQueries]: its queries.
    - [Canonical]: every superblock and inode image is the image of what it is
      read as, so a record read and written back changes no byte.
    - [Resizer] ([resizer.rs]): validation of an image, the plan of a growth and
      its writes.  [apply_plan] and [grow_image] return the list of disk
      operations they issue, barriers included, so that a crash between any two
      of them, or inside one, can be described.
    - [ResizerFacts], [ResizerSample]: what a validated image satisfies, and one
      such image of 32668 blocks.
    - [ResizerPlan]: the plan; [ResizerCrash]: its execution under crashes;
      [ResizerReopen]: validation of the grown image.
    - [Transitions] ([runtime/transitions.rs], [store/models/machine.rs]): the
      lifecycle reducer, and the abstract machine [Life] it implements: the five
      phases of a machine's life with their facts, the steps between them
      ([lives]) and what is refused ([refused]).
    - [Reconcile] ([runtime/core.rs], [supervisor/]): observation of a machine,
      write-back, completion of a stop.  Processes, pid files and exit records
      are fields of a [Host] the definitions take as an argument.
    - [RustText], [RustNet]: Rust text as its bytes, numbers in text, and the IP
      addresses of the standard library, parsed and printed.
    - [Protocol] ([specs/protocol]): the messages and enumerations of the monitor
      protocol, its limits, the kernel argument for the guest port.  An enum field
      is a 32-bit number on the wire; the class [ProtoEnum] states what the
      generated conversions promise.
    - [MonitorValidate] ([virt/vmm/src/state.rs], [validate_*] and what they
      call): the checks on a report, in the order of the code, with their errors.
      The class [Externals] has the functions of other crates: UUIDs, OpenSSH
      keys, protocol timestamps.
    - [Monitor] ([state.rs], [InstanceStore]): the state and its operations.  The
      part of an operation under the lock ([mutate_locked], [metrics_locked]) and
      what follows when the lock is dropped ([publish]) are separate definitions.
      Every reading of a clock takes the next element of a stream.
    - [MonitorChecks]: what the validators accept, without the order of checks.
      [MonitorFacts]: the tasks of the monitor as a step relation, in which a task
      prepares a report, holds the lock, and publishes, with others in between;
      its invariants.  [MonitorTrust]: two stores that differ in the flags the
      guest reports.  [MonitorSpec]: the properties of the store.

    ** What the theorems show

    - Everything the builder serialises is read back: all on-disk records, for
      all field values in range; directory blocks, with no entry across a block
      boundary; extent trees, with exactly the blocks of the file; attributes,
      inline and in a block, sorted as ext4 requires.
    - The checksum of a descriptor validates and detects every corruption of
      neighbouring bytes.
    - The tree stays a tree with distinct sibling names; lookups after an
      insertion or removal change at the affected path only; [node_path] and
      [lookup] are inverse.
    - The bytes of a file land at the addresses its block ranges give them, in
      blocks that hold no superblock copy and no group descriptors.  The shared
      metadata run is put at the first place clear of static metadata; the blocks
      left free before it are reported exactly; the number of groups is minimal.
    - The builder keeps its invariant through every sequence of operations on
      canonical paths, failed ones included, but for hard links and creations of
      anything else than a directory at the root path; a removal ends and takes away exactly the paths at
      and below its entry; a creation adds its path and the directories on the
      way, and its recursion ends for every path; a hard link leads to the
      target's inode, and a failed one leaves the builder unchanged.
    - Opening an image ends without a panic for any bytes, and the tree it
      builds mirrors the directories on the disk; the answers to queries depend
      on the image alone, not on what was cached; a read returns exactly the
      bytes of the file; paths found in the tree resolve to their nodes.
    - Closing a closable builder ends with the image, or with an error exactly
      when the finished image needs a larger descriptor area than the builder's
      size at the call; never with a panic.  On the image every
      path of the builder's tree resolves to its inode, every directory has
      exactly its entries, and a file that was created reads back with its bytes.
      Bitmaps mark exactly the blocks and inodes in use, given by the descriptors
      on the image, the end of the data and the deleted blocks; the free counts
      of descriptors and superblock agree with them.
    - The resizer never panics on an image of bytes, whatever they are; the size
      it chooses is the requested one, less a last group with room for at most
      one block of data; its bitmaps, descriptors and free
      counts describe the blocks of the new groups.  Whenever the machine stops
      during a growth, the image on disk is either the old file system, or
      marked as damaged and refused by the resizer, or the completed new one;
      no byte of the old file system outside the metadata it rewrites changes;
      and the grown image passes its own validation, so it can grow again.
    - The reducer simulates the abstract life of a machine, refuses exactly what
      that refuses, and answers every event; its states stay consistent;
      no machine is started twice; events of an old run are rejected.
    - Reconciliation is total and settles; a machine reported running has a live
      monitor; a dead monitor is noticed; exit records of other runs have no
      effect; completing a stop acts on its own run only.
    - The monitor answers that a machine with an SSH listener is ready only when
      the host itself has verified that very listener, at the current identity,
      within the last 65 seconds, whatever the interleaving of its tasks; a
      verification that was superseded has no effect, even when the same listener
      is back; what the guest says about the key exchange changes no answer, log
      entry or publication of any sequence of calls and queries.
      Validation accepts exactly the reports the protocol describes.  The stored
      state keeps its invariant; no call panics, and a call that fails publishes
      nothing and changes nothing but expired evidence, unless the 64-bit epochs
      are used up, or it has metrics of another agent, which reset what is known.

    Further theorems record where the code departs from its intent: a
    reused pid adopted as a monitor, hard links that act on the root directory,
    hard links below regular files, removed directories that keep their inode, links at the root
    path that replace the whole tree, a nameless entry created by a path of slashes, an unchecked link count, an
    image that outgrows its descriptor area unnoticed; and in the reader, paths
    through symbolic links with [stat_no_follow], links used twice, images with
    1 KiB blocks, and a division by zero; and in the monitor, publications that
    overtake each other once the lock is dropped.

    ** Bounds

    The traversal of an image runs under a bound of 2^33 directories, above the
    number of inode numbers; the fuel is a binary number.

    The builder accepts 4096-byte blocks only, so the geometry theorems fix that
    size.  Payload theorems assume the position stays below block 2^32 - 1,
    where the code itself gives up, and files of at most 128 GiB.  Host failures of reads and writes are not
    produced by [Disk]; the operations have no such failures to recover from.

    The theorems on [close] are about builders that are [closable]: the data ends
    below two TiB, there are at most 4,000,000 nodes, names are those [create]
    accepts, and the directories leave the size of the descriptor area as it is.
    A created file has at least one byte and at most 16 GiB, which keeps its extents in one
    leaf block.  The walk over the tree has the number of nodes as fuel; the
    placement of the metadata run has a binary bound of 2^32 turns, and every
    turn moves the run or adds a group, both of which are bounded.

    A crash loses any subset of the 512-byte sectors written since the last
    [sync_all], which is the unit a disk writes atomically.  The theorems on
    crashes and reopening assume what a file system satisfies and the validator
    does not check: the blocks the plan writes are not the superblock and do not
    lie in the blocks of the journal or of each other ([placed], [separate]).
    The accounting of a growth assumes at most 65,535 inodes per group, as the
    counters of a descriptor have 16 bits.

    The theorems on the monitor have no bound: clocks may read anything, the
    interleaving is any finite one.  Its mutex is never poisoned, since no update
    panics ([calls_fail_safely]).

    ** Not modelled

    Host failures of the image file: reads and writes on it succeed, as [Disk]
    says.  Asynchronous orchestration, network, database, hypervisor and guest
    code outside the state store, the Go daemons and the command line are input and output around these
    parts: what they do is decided by services whose state is outside the
    program.  The policy language ([common/policy]) is pure and open. *)

From Stdlib Require Export ZArith Lia.
From stdpp Require Export base tactics numbers list option.

#[global] Open Scope Z_scope.

(** ** Machine integers

    A Rust unsigned integer of width [w] is a [Z] in [0, 2^w).  The functions
    [u8] .. [u64] are both the [as] casts and the wrap-around of arithmetic in
    the release profile: an expression [a + b] that the source computes at
    [u32] is written [u32 (a + b)].  [usize] is 64 bits wide. *)

Definition u8 (z : Z) : Z := z mod 256.
Definition u16 (z : Z) : Z := z mod 65536.
Definition u32 (z : Z) : Z := z mod 4294967296.
Definition u64 (z : Z) : Z := z mod 18446744073709551616.

Definition is_u8 (z : Z) : Prop := 0 <= z < 256.
Definition is_u16 (z : Z) : Prop := 0 <= z < 65536.
Definition is_u32 (z : Z) : Prop := 0 <= z < 4294967296.
Definition is_u64 (z : Z) : Prop := 0 <= z < 18446744073709551616.

(** [u32::MAX]. *)
Definition u32_max : Z := 4294967295.

(** [saturating_sub] on an unsigned type. *)
Definition saturating_sub (a b : Z) : Z := Z.max 0 (a - b).

(** [div_ceil] on an unsigned type, for a non-zero divisor. *)
Definition div_ceil (a b : Z) : Z := (a + b - 1) / b.

Create HintDb silo.

Section MachineIntegers.
Implicit Types z : Z.

Lemma u8_small z : is_u8 z -> u8 z = z.
Proof. apply Z.mod_small. Qed.
Lemma u16_small z : is_u16 z -> u16 z = z.
Proof. apply Z.mod_small. Qed.
Lemma u32_small z : is_u32 z -> u32 z = z.
Proof. apply Z.mod_small. Qed.
Lemma u64_small z : is_u64 z -> u64 z = z.
Proof. apply Z.mod_small. Qed.

Lemma u8_range z : is_u8 (u8 z).
Proof. unfold is_u8, u8. apply Z.mod_pos_bound; lia. Qed.
Lemma u16_range z : is_u16 (u16 z).
Proof. unfold is_u16, u16. apply Z.mod_pos_bound; lia. Qed.
Lemma u32_range z : is_u32 (u32 z).
Proof. unfold is_u32, u32. apply Z.mod_pos_bound; lia. Qed.
Lemma u64_range z : is_u64 (u64 z).
Proof. unfold is_u64, u64. apply Z.mod_pos_bound; lia. Qed.

Lemma div_ceil_spec a b : 0 < b -> b * div_ceil a b - b < a <= b * div_ceil a b.
Proof.
  intros Hb. unfold div_ceil.
  pose proof (Z.div_mod (a + b - 1) b ltac:(lia)).
  pose proof (Z.mod_pos_bound (a + b - 1) b Hb). lia.
Qed.

Lemma div_ceil_nonneg a b : 0 <= a -> 0 < b -> 0 <= div_ceil a b.
Proof. intros. unfold div_ceil. apply Z.div_pos; lia. Qed.

(** An integer is below [2 ^ k] when its bits from [k] on are clear. *)
Lemma bits_below k a :
  0 <= k -> 0 <= a < 2 ^ k <-> 0 <= a /\ forall n, k <= n -> Z.testbit a n = false.
Proof.
  intros Hk. split.
  - intros [H0 Ha]. split; [done|]. intros n Hn.
    destruct (decide (a = 0)) as [->|]; [apply Z.bits_0|]. apply Z.bits_above_log2; [done|].
    apply Z.log2_lt_pow2; [lia|]. apply Z.lt_le_trans with (2 ^ k); [done|].
    apply Z.pow_le_mono_r; lia.
  - intros [H0 Hb]. split; [done|]. destruct (decide (a = 0)) as [->|]; [by apply Z.pow_pos_nonneg|].
    apply Z.log2_lt_pow2; [lia|]. destruct (Z_lt_le_dec (Z.log2 a) k) as [|Hl]; [done|].
    specialize (Hb _ Hl). rewrite Z.bit_log2 in Hb by lia. discriminate.
Qed.

Lemma lxor_below k a b :
  0 <= k -> 0 <= a < 2 ^ k -> 0 <= b < 2 ^ k -> 0 <= Z.lxor a b < 2 ^ k.
Proof.
  intros Hk. rewrite !bits_below by done. intros [? Ha] [? Hb]. split; [apply Z.lxor_nonneg; lia|].
  intros n Hn. by rewrite Z.lxor_spec, Ha, Hb.
Qed.

Lemma lor_below k a b :
  0 <= k -> 0 <= a < 2 ^ k -> 0 <= b < 2 ^ k -> 0 <= Z.lor a b < 2 ^ k.
Proof.
  intros Hk. rewrite !bits_below by done. intros [? Ha] [? Hb]. split; [by apply Z.lor_nonneg|].
  intros n Hn. by rewrite Z.lor_spec, Ha, Hb.
Qed.

Lemma shiftr_below k a n : 0 <= k -> 0 <= n -> 0 <= a < 2 ^ k -> 0 <= Z.shiftr a n < 2 ^ k.
Proof.
  intros Hk Hn. rewrite !bits_below by done. intros [? Ha]. split; [by apply Z.shiftr_nonneg|].
  intros m Hm. rewrite Z.shiftr_spec by lia. apply Ha. lia.
Qed.
End MachineIntegers.

#[export] Hint Resolve u8_range u16_range u32_range u64_range : silo.

(** [wrap_small] removes the wrap-around of every expression that [lia] shows
    to be in range. *)
Ltac unfold_ranges := unfold is_u8, is_u16, is_u32, is_u64, u32_max in *.
Ltac wrap_small :=
  repeat match goal with
  | |- context [u8 ?x] => rewrite (u8_small x) by (unfold_ranges; lia)
  | |- context [u16 ?x] => rewrite (u16_small x) by (unfold_ranges; lia)
  | |- context [u32 ?x] => rewrite (u32_small x) by (unfold_ranges; lia)
  | |- context [u64 ?x] => rewrite (u64_small x) by (unfold_ranges; lia)
  end.

(** [zbool] decides the integer comparisons of a boolean goal. *)
Ltac zbool :=
  repeat match goal with
  | |- context [?a <=? ?b] => destruct (Z.leb_spec a b)
  | |- context [?a <? ?b] => destruct (Z.ltb_spec a b)
  | |- context [?a =? ?b] => destruct (Z.eqb_spec a b)
  end; rewrite ?andb_true_r, ?andb_false_r; simpl; solve [reflexivity | lia | exfalso; lia].

(** ** Results

    A Rust function returns [Ok], returns an error, or panics (an index out of
    range, a failed assertion).  The monad is stdpp's [x ← m; k]. *)

Inductive res (E A : Type) : Type :=
| Ok (a : A)
| Err (e : E)
| Panic.
Arguments Ok {E A} a.
Arguments Err {E A} e.
Arguments Panic {E A}.

#[global] Instance res_ret E : MRet (res E) := fun A a => Ok a.
#[global] Instance res_bind E : MBind (res E) := fun A B f m =>
  match m with Ok a => f a | Err e => Err e | Panic => Panic end.

#[global] Instance res_eq_dec {E A} `{EqDecision E, EqDecision A} : EqDecision (res E A).
Proof. solve_decision. Defined.

Definition is_ok {E A} (r : res E A) : bool :=
  match r with Ok _ => true | _ => false end.

(** The [?] operator on an [Option] turned into an error by [ok_or]. *)
Definition ok_or {E A} (o : option A) (e : E) : res E A :=
  match o with Some a => Ok a | None => Err e end.

(** Indexing: [None] (out of range) panics. *)
Definition or_panic {E A} (o : option A) : res E A :=
  match o with Some a => Ok a | None => Panic end.

(** [map_err]. *)
Definition map_err {E F A} (f : E -> F) (r : res E A) : res F A :=
  match r with Ok a => Ok a | Err e => Err (f e) | Panic => Panic end.

(** A [for] loop whose body may return early with an error. *)
Fixpoint foldM {E S A} (f : S -> A -> res E S) (s : S) (l : list A) : res E S :=
  match l with
  | [] => Ok s
  | a :: l => s' ← f s a; foldM f s' l
  end.

Section Results.
Context {E A B : Type}.

Lemma res_bind_ok (m : res E A) (f : A -> res E B) b :
  m ≫= f = Ok b <-> exists a, m = Ok a /\ f a = Ok b.
Proof.
  split.
  - destruct m; simpl; try discriminate. eauto.
  - intros (a & -> & H). exact H.
Qed.

Lemma foldM_app (f : B -> A -> res E B) s l1 l2 :
  foldM f s (l1 ++ l2) = s' ← foldM f s l1; foldM f s' l2.
Proof.
  revert s. induction l1 as [|a l1 IH]; intros s; simpl; [reflexivity|].
  destruct (f s a); simpl; auto.
Qed.

(** Loop rule: an invariant kept by every successful step of the body. *)
Lemma foldM_ind (f : B -> A -> res E B) (P : list A -> B -> Prop) s l s' :
  P [] s ->
  (forall done a s1 s2, P done s1 -> f s1 a = Ok s2 -> P (done ++ [a]) s2) ->
  foldM f s l = Ok s' -> P l s'.
Proof.
  intros H0 Hstep.
  assert (forall l s done, P done s -> foldM f s l = Ok s' -> P (done ++ l) s') as H.
  { clear s l H0. intros l. induction l as [|a l IH]; simpl; intros s done HP Hf.
    - inversion Hf; subst. by rewrite app_nil_r.
    - destruct (f s a) eqn:Hfs; try discriminate.
      rewrite cons_middle, app_assoc. eauto. }
  intros Hf. by apply (H l s []).
Qed.
End Results.

(** ** No panics *)

Lemma np_bind {E A B} (m : res E A) (k : A -> res E B) :
  m <> Panic -> (forall a, m = Ok a -> k a <> Panic) -> (m ≫= k) <> Panic.
Proof. destruct m as [a| |]; simpl; auto. Qed.

Section NoPanic.
Context {E A B : Type}.

Lemma np_ok_or (o : option A) (e : E) : ok_or o e <> Panic.
Proof. by destruct o. Qed.

Lemma np_foldM (P : B -> Prop) (f : B -> A -> res E B) l : forall s,
  P s -> (forall s a, P s -> a ∈ l -> f s a <> Panic /\ forall s', f s a = Ok s' -> P s') ->
  foldM f s l <> Panic.
Proof.
  induction l as [|a l IH]; intros s HP Hf; simpl; [done|]. apply np_bind.
  - apply Hf; [done|left].
  - intros s' Hs. apply IH; [by eapply Hf; [exact HP|left|]|]. intros. apply Hf; [done|by right].
Qed.
End NoPanic.

Tactic Notation "inv_ok" hyp(H) :=
  repeat match type of H with
  | (_ ≫= _) = Ok _ =>
      let a := fresh "a" in let Ha := fresh "Ha" in
      apply res_bind_ok in H as (a & Ha & H)
  end.

(** ** Sums and ranges *)

Definition zsum (l : list Z) : Z := fold_right Z.add 0 l.

Lemma zsum_app l1 l2 : zsum (l1 ++ l2) = zsum l1 + zsum l2.
Proof. induction l1 as [|x l1 IH]; simpl; lia. Qed.

Lemma seqZ_one n : seqZ n 1 = [n].
Proof. rewrite seqZ_cons by lia. by rewrite (seqZ_nil _ (Z.pred 1)) by lia. Qed.
