(* ===== verification/Bytes.v ===== *)
(** Byte buffers: slices, little- and big-endian integers, and record layouts.

    A Rust [&[u8]] / [Vec<u8>] is a [list Z] of bytes; offsets are [Z].  The
    accessors model the helpers at the head of
    [common/disk-image/src/ext4/types.rs].  A struct codec of that file is a
    list of [field]s written one after the other; [layout_ok] is the (decidable)
    condition under which every field reads back, so that each round-trip
    theorem is a computation on the static offsets. *)

From S2P Require Import Prelude.

Definition zlen {A} (l : list A) : Z := Z.of_nat (length l).

(** [vec![0u8; n]]. *)
Definition zeros (n : Z) : list Z := replicate (Z.to_nat n) 0.

(** [buf[off..off + n]], for a range inside the buffer. *)
Definition sub_bytes (buf : list Z) (off n : Z) : list Z :=
  take (Z.to_nat n) (drop (Z.to_nat off) buf).

(** [buf[off..off + src.len()].copy_from_slice(src)]. *)
Definition put_bytes (buf : list Z) (off : Z) (src : list Z) : list Z :=
  list_inserts (Z.to_nat off) src buf.

Definition get_u8 (buf : list Z) (off : Z) : Z := nth (Z.to_nat off) buf 0.

(** [to_le_bytes] / [from_le_bytes] at [n] bytes. *)
Fixpoint le_bytes (n : nat) (v : Z) : list Z :=
  match n with
  | O => []
  | S n => (v mod 256) :: le_bytes n (v / 256)
  end.

Fixpoint le_val (bs : list Z) : Z :=
  match bs with
  | [] => 0
  | b :: bs => b + 256 * le_val bs
  end.

(** [to_be_bytes] / [from_be_bytes]. *)
Definition be_bytes (n : nat) (v : Z) : list Z := rev (le_bytes n v).
Definition be_val (bs : list Z) : Z := le_val (rev bs).

Definition get_u16 (buf : list Z) (off : Z) : Z := le_val (sub_bytes buf off 2).
Definition get_u32 (buf : list Z) (off : Z) : Z := le_val (sub_bytes buf off 4).
Definition get_u64 (buf : list Z) (off : Z) : Z := le_val (sub_bytes buf off 8).
Definition get_bytes (n : Z) (buf : list Z) (off : Z) : list Z := sub_bytes buf off n.

Definition put_u8 (buf : list Z) (off v : Z) : list Z := put_bytes buf off [v].
Definition put_u16 (buf : list Z) (off v : Z) : list Z := put_bytes buf off (le_bytes 2 v).
Definition put_u32 (buf : list Z) (off v : Z) : list Z := put_bytes buf off (le_bytes 4 v).
Definition put_u64 (buf : list Z) (off v : Z) : list Z := put_bytes buf off (le_bytes 8 v).

(** A [[u8; n]] and a [[u32; n]]. *)
Definition is_bytes (n : Z) (bs : list Z) : Prop := zlen bs = n /\ Forall is_u8 bs.
Definition is_words (n : Z) (ws : list Z) : Prop := zlen ws = n /\ Forall is_u32 ws.

(** ** Slices and updates *)

Section Slices.
Implicit Types buf src : list Z.

Lemma zlen_nonneg {A} (l : list A) : 0 <= zlen l.
Proof. unfold zlen. lia. Qed.

Lemma zlen_app {A} (l1 l2 : list A) : zlen (l1 ++ l2) = zlen l1 + zlen l2.
Proof. unfold zlen. rewrite length_app. lia. Qed.

Lemma zlen_cons {A} (a : A) l : zlen (a :: l) = 1 + zlen l.
Proof. unfold zlen. simpl. lia. Qed.

Lemma zlen_nil {A} : zlen (@nil A) = 0.
Proof. reflexivity. Qed.

Lemma zlen_zeros n : 0 <= n -> zlen (zeros n) = n.
Proof. intros. unfold zlen, zeros. rewrite length_replicate. lia. Qed.

Lemma zlen_put buf off src : zlen (put_bytes buf off src) = zlen buf.
Proof. unfold zlen, put_bytes. by rewrite length_inserts. Qed.

Lemma zlen_le_bytes n v : zlen (le_bytes n v) = Z.of_nat n.
Proof.
  unfold zlen. f_equal. revert v.
  induction n as [|n IH]; intros v; simpl; [reflexivity|]. by rewrite IH.
Qed.

Lemma zlen_sub buf off n :
  0 <= off -> 0 <= n -> off + n <= zlen buf -> zlen (sub_bytes buf off n) = n.
Proof. unfold zlen, sub_bytes. intros. rewrite length_take, length_drop. lia. Qed.

Lemma lookup_put buf off src i :
  0 <= off -> off + zlen src <= zlen buf ->
  put_bytes buf off src !! i =
    if decide (off <= Z.of_nat i < off + zlen src)
    then src !! (i - Z.to_nat off)%nat else buf !! i.
Proof.
  unfold zlen, put_bytes. intros. case_decide.
  - apply list_lookup_inserts; lia.
  - destruct (decide (Z.of_nat i < off)).
    + apply list_lookup_inserts_lt; lia.
    + apply list_lookup_inserts_ge; lia.
Qed.

Lemma lookup_sub buf off n i :
  0 <= off -> 0 <= n ->
  sub_bytes buf off n !! i =
    if decide (Z.of_nat i < n) then buf !! (Z.to_nat off + i)%nat else None.
Proof.
  unfold sub_bytes. intros. case_decide.
  - rewrite lookup_take_lt by lia. by rewrite lookup_drop.
  - apply lookup_take_ge. lia.
Qed.

(** Reading back what was written. *)
Lemma sub_put_eq buf off src :
  0 <= off -> off + zlen src <= zlen buf ->
  sub_bytes (put_bytes buf off src) off (zlen src) = src.
Proof.
  intros H1 H2. apply list_eq. intros i.
  rewrite lookup_sub by (unfold zlen; lia). case_decide as Hi.
  - rewrite lookup_put by lia. rewrite decide_True by lia. f_equal. lia.
  - symmetry. apply lookup_ge_None. unfold zlen in Hi. lia.
Qed.

(** A disjoint write is not seen. *)
Lemma sub_put_ne buf off src a n :
  0 <= off -> 0 <= a -> 0 <= n -> off + zlen src <= zlen buf ->
  a + n <= off \/ off + zlen src <= a ->
  sub_bytes (put_bytes buf off src) a n = sub_bytes buf a n.
Proof.
  intros Ho Ha Hn Hlen Hd. apply list_eq. intros i.
  rewrite !lookup_sub by lia. case_decide; [|reflexivity].
  rewrite lookup_put by lia. rewrite decide_False by lia. reflexivity.
Qed.

Lemma sub_sub buf a n b m :
  0 <= a -> 0 <= b -> 0 <= m -> b + m <= n ->
  sub_bytes (sub_bytes buf a n) b m = sub_bytes buf (a + b) m.
Proof.
  intros. apply list_eq. intros i. rewrite !lookup_sub by lia.
  case_decide; [|reflexivity]. rewrite decide_True by lia. f_equal. lia.
Qed.

Lemma sub_all buf : sub_bytes buf 0 (zlen buf) = buf.
Proof. unfold sub_bytes, zlen. rewrite drop_0. apply take_ge. lia. Qed.

Lemma sub_app_l (l1 l2 : list Z) off n :
  0 <= off -> 0 <= n -> off + n <= zlen l1 ->
  sub_bytes (l1 ++ l2) off n = sub_bytes l1 off n.
Proof.
  intros. apply list_eq. intros i. rewrite !lookup_sub by lia.
  case_decide; [|reflexivity]. apply lookup_app_l. unfold zlen in *. lia.
Qed.

Lemma sub_app_r (l1 l2 : list Z) off n :
  0 <= n -> zlen l1 <= off ->
  sub_bytes (l1 ++ l2) off n = sub_bytes l2 (off - zlen l1) n.
Proof.
  intros. unfold zlen in *. apply list_eq. intros i. rewrite !lookup_sub by lia.
  case_decide; [|reflexivity]. rewrite lookup_app_r by lia. f_equal. lia.
Qed.

Lemma sub_app_split buf a n m :
  0 <= a -> 0 <= n -> 0 <= m -> a + n <= zlen buf ->
  sub_bytes buf a (n + m) = sub_bytes buf a n ++ sub_bytes buf (a + n) m.
Proof.
  intros. apply list_eq. intros i. rewrite lookup_sub by lia.
  assert (length (sub_bytes buf a n) = Z.to_nat n) as Hl.
  { pose proof (zlen_sub buf a n). unfold zlen in *. lia. }
  destruct (decide (i < Z.to_nat n)%nat).
  - rewrite lookup_app_l by lia. rewrite lookup_sub by lia.
    by rewrite !decide_True by lia.
  - rewrite lookup_app_r by lia. rewrite lookup_sub by lia. rewrite Hl.
    repeat case_decide; try lia; [|reflexivity]. f_equal. lia.
Qed.
End Slices.

(** ** Endianness *)

Section Endian.
Lemma le_val_bytes n v : le_val (le_bytes n v) = v mod 256 ^ Z.of_nat n.
Proof.
  revert v. induction n as [|n IH]; intros v.
  - simpl. by rewrite Z.mod_1_r.
  - cbn [le_bytes le_val]. rewrite IH, Nat2Z.inj_succ, Z.pow_succ_r by lia.
    rewrite Z.rem_mul_r by (try apply Z.pow_pos_nonneg; lia). lia.
Qed.

Lemma le_val_u16 v : is_u16 v -> le_val (le_bytes 2 v) = v.
Proof. intros H. rewrite le_val_bytes, Z.mod_small; [done|exact H]. Qed.
Lemma le_val_u32 v : is_u32 v -> le_val (le_bytes 4 v) = v.
Proof. intros H. rewrite le_val_bytes, Z.mod_small; [done|exact H]. Qed.
Lemma le_val_u64 v : is_u64 v -> le_val (le_bytes 8 v) = v.
Proof. intros H. rewrite le_val_bytes, Z.mod_small; [done|exact H]. Qed.

Lemma be_val_bytes n v : be_val (be_bytes n v) = v mod 256 ^ Z.of_nat n.
Proof. unfold be_val, be_bytes. rewrite rev_involutive. apply le_val_bytes. Qed.

Lemma le_bytes_range n v : Forall is_u8 (le_bytes n v).
Proof.
  revert v. induction n as [|n IH]; intros v; simpl; constructor; auto.
  apply Z.mod_pos_bound. lia.
Qed.

Lemma le_val_range bs : Forall is_u8 bs -> 0 <= le_val bs < 256 ^ zlen bs.
Proof.
  induction 1 as [|b bs Hb _ IH]; cbn [le_val]; [change (zlen []) with 0; lia|].
  rewrite zlen_cons, Z.pow_add_r, Z.pow_1_r by (try apply zlen_nonneg; lia).
  unfold is_u8 in Hb. lia.
Qed.
End Endian.

Create Rewrite HintDb zlen.
#[export] Hint Rewrite @zlen_app @zlen_cons @zlen_nil zlen_put zlen_le_bytes : zlen.

(** ** Record layouts *)

(** One [put_*] call of a serializer.  [Raw] carries the static size of the
    [[u8; N]] array it copies. *)
Inductive field : Type :=
| U8 (off v : Z)
| U16 (off v : Z)
| U32 (off v : Z)
| U64 (off v : Z)
| Raw (off n : Z) (bs : list Z).

Definition field_off (f : field) : Z :=
  match f with U8 o _ | U16 o _ | U32 o _ | U64 o _ | Raw o _ _ => o end.

Definition field_len (f : field) : Z :=
  match f with U8 _ _ => 1 | U16 _ _ => 2 | U32 _ _ => 4 | U64 _ _ => 8 | Raw _ n _ => n end.

Definition put_field (buf : list Z) (f : field) : list Z :=
  match f with
  | U8 o v => put_u8 buf o v
  | U16 o v => put_u16 buf o v
  | U32 o v => put_u32 buf o v
  | U64 o v => put_u64 buf o v
  | Raw o _ bs => put_bytes buf o bs
  end.

Definition put_fields (fs : list field) (buf : list Z) : list Z :=
  fold_left put_field fs buf.

(** [for i in 0..n { put_u32(buf, off + i * 4, vs[i]); }]. *)
Definition u32_array (off n : Z) (vs : list Z) : list field :=
  map (fun i => U32 (off + i * 4) (nth (Z.to_nat i) vs 0)) (seqZ 0 n).

(** [for i in 0..n { vs[i] = get_u32(buf, off + i * 4); }]. *)
Definition get_u32_array (n : Z) (buf : list Z) (off : Z) : list Z :=
  map (fun i => get_u32 buf (off + i * 4)) (seqZ 0 n).

(** The bytes a field leaves in the buffer. *)
Definition field_bytes (f : field) : list Z :=
  match f with
  | U8 _ v => [v]
  | U16 _ v => le_bytes 2 v
  | U32 _ v => le_bytes 4 v
  | U64 _ v => le_bytes 8 v
  | Raw _ _ bs => bs
  end.

Definition field_sized (f : field) : Prop :=
  match f with Raw _ n bs => zlen bs = n | _ => True end.

Definition span_disjoint (f g : field) : bool :=
  (field_off f + field_len f <=? field_off g) || (field_off g + field_len g <=? field_off f).

Definition span_inside (size : Z) (f : field) : bool :=
  (0 <=? field_off f) && (0 <=? field_len f) && (field_off f + field_len f <=? size).

Fixpoint spans_disjoint (fs : list field) : bool :=
  match fs with
  | [] => true
  | f :: fs => forallb (span_disjoint f) fs && spans_disjoint fs
  end.

(** Every field lies in the first [size] bytes and no two overlap. *)
Definition layout_ok (size : Z) (fs : list field) : bool :=
  forallb (span_inside size) fs && spans_disjoint fs.

Definition find_field (off : Z) (fs : list field) : option field :=
  List.find (fun f => field_off f =? off) fs.

Section Layouts.
Implicit Types (fs : list field) (buf : list Z).

Lemma put_field_eq buf f : put_field buf f = put_bytes buf (field_off f) (field_bytes f).
Proof. by destruct f. Qed.

Lemma field_bytes_len f : field_sized f -> zlen (field_bytes f) = field_len f.
Proof. destruct f; simpl; intros; try reflexivity; auto. Qed.

Lemma put_fields_snoc fs f buf : put_fields (fs ++ [f]) buf = put_field (put_fields fs buf) f.
Proof. unfold put_fields. by rewrite fold_left_app. Qed.

Lemma zlen_put_fields fs buf : zlen (put_fields fs buf) = zlen buf.
Proof.
  revert buf. induction fs as [|f fs IH]; intros buf; simpl; [reflexivity|].
  unfold put_fields in IH. rewrite IH, put_field_eq. apply zlen_put.
Qed.

Lemma span_inside_spec size f :
  span_inside size f = true <->
  0 <= field_off f /\ 0 <= field_len f /\ field_off f + field_len f <= size.
Proof. unfold span_inside. rewrite !andb_true_iff, !Z.leb_le. tauto. Qed.

(** A slice disjoint from every field is not changed. *)
Lemma sub_put_fields_ne fs buf size a n :
  forallb (span_inside size) fs = true -> Forall field_sized fs -> size <= zlen buf ->
  0 <= a -> 0 <= n ->
  (forall f, In f fs -> a + n <= field_off f \/ field_off f + field_len f <= a) ->
  sub_bytes (put_fields fs buf) a n = sub_bytes buf a n.
Proof.
  intros Hin Hsz Hlen Ha Hn. revert buf Hlen.
  induction fs as [|f fs IH]; intros buf Hlen Hd; simpl; [reflexivity|].
  simpl in Hin. apply andb_true_iff in Hin as [Hf Hin].
  inversion Hsz; subst. apply span_inside_spec in Hf as (? & ? & ?).
  unfold put_fields in IH. rewrite IH; auto.
  - rewrite put_field_eq. apply sub_put_ne; rewrite ?field_bytes_len by done; try lia.
    specialize (Hd f ltac:(by left)). lia.
  - rewrite put_field_eq, zlen_put. done.
  - intros g Hg. apply Hd. by right.
Qed.

(** Every field of a good layout reads back. *)
Lemma sub_put_fields_eq fs buf size f :
  layout_ok size fs = true -> Forall field_sized fs -> size <= zlen buf -> In f fs ->
  sub_bytes (put_fields fs buf) (field_off f) (field_len f) = field_bytes f.
Proof.
  unfold layout_ok. rewrite andb_true_iff. intros [Hin Hd] Hsz Hlen Hf. revert buf Hlen.
  induction fs as [|g fs IH]; intros buf Hlen; [destruct Hf|].
  simpl in Hin, Hd. apply andb_true_iff in Hin as [Hg Hin], Hd as [Hgd Hd].
  inversion Hsz; subst. pose proof Hg as Hg'. apply span_inside_spec in Hg as (? & ? & ?).
  simpl. destruct Hf as [->|Hf].
  - change (fold_left put_field fs (put_field buf f)) with (put_fields fs (put_field buf f)).
    rewrite sub_put_fields_ne with (size := size); auto.
    + rewrite put_field_eq, <- field_bytes_len by done. apply sub_put_eq; [done|].
      rewrite field_bytes_len by done. lia.
    + rewrite put_field_eq, zlen_put. done.
    + intros h Hh. rewrite forallb_forall in Hgd. specialize (Hgd h Hh).
      unfold span_disjoint in Hgd. rewrite orb_true_iff, !Z.leb_le in Hgd. lia.
  - apply IH; auto. rewrite put_field_eq, zlen_put. done.
Qed.

Lemma find_field_In off fs f : find_field off fs = Some f -> In f fs /\ field_off f = off.
Proof.
  unfold find_field. intros H. apply find_some in H as [? H].
  split; [done|]. by apply Z.eqb_eq.
Qed.

Context (fs : list field) (size : Z) (buf : list Z).
Hypothesis (Hok : layout_ok size fs = true) (Hsz : Forall field_sized fs)
  (Hlen : size <= zlen buf).

Lemma get_u8_field off v :
  find_field off fs = Some (U8 off v) -> get_u8 (put_fields fs buf) off = v.
Proof.
  intros H. apply find_field_In in H as [H _].
  pose proof (sub_put_fields_eq _ _ _ _ Hok Hsz Hlen H) as E.
  unfold layout_ok in Hok. apply andb_true_iff in Hok as [Hin _].
  rewrite forallb_forall in Hin. specialize (Hin _ H).
  apply span_inside_spec in Hin. simpl in E, Hin. unfold get_u8.
  apply (f_equal (fun l => l !! 0%nat)) in E. rewrite lookup_sub in E by lia.
  rewrite decide_True in E by lia. rewrite Nat.add_0_r in E.
  by erewrite nth_lookup_Some by exact E.
Qed.

Lemma get_u16_field off v :
  find_field off fs = Some (U16 off v) -> is_u16 v -> get_u16 (put_fields fs buf) off = v.
Proof.
  intros H Hv. apply find_field_In in H as [H _]. unfold get_u16.
  pose proof (sub_put_fields_eq _ _ _ _ Hok Hsz Hlen H) as E. simpl in E.
  rewrite E. by apply le_val_u16.
Qed.

Lemma get_u32_field off v :
  find_field off fs = Some (U32 off v) -> is_u32 v -> get_u32 (put_fields fs buf) off = v.
Proof.
  intros H Hv. apply find_field_In in H as [H _]. unfold get_u32.
  pose proof (sub_put_fields_eq _ _ _ _ Hok Hsz Hlen H) as E. simpl in E.
  rewrite E. by apply le_val_u32.
Qed.

Lemma get_u64_field off v :
  find_field off fs = Some (U64 off v) -> is_u64 v -> get_u64 (put_fields fs buf) off = v.
Proof.
  intros H Hv. apply find_field_In in H as [H _]. unfold get_u64.
  pose proof (sub_put_fields_eq _ _ _ _ Hok Hsz Hlen H) as E. simpl in E.
  rewrite E. by apply le_val_u64.
Qed.

Lemma get_bytes_field off n bs :
  find_field off fs = Some (Raw off n bs) -> get_bytes n (put_fields fs buf) off = bs.
Proof.
  intros H. apply find_field_In in H as [H _].
  exact (sub_put_fields_eq _ _ _ _ Hok Hsz Hlen H).
Qed.

(** An array of words reads back element by element. *)
Lemma get_u32_array_field off n vs :
  Forall (fun i => find_field (off + i * 4) fs =
            Some (U32 (off + i * 4) (nth (Z.to_nat i) vs 0))) (seqZ 0 n) ->
  is_words n vs -> get_u32_array n (put_fields fs buf) off = vs.
Proof.
  intros Hf [Hn Hr]. unfold get_u32_array. apply list_eq. intros i.
  rewrite list_lookup_fmap. unfold zlen in Hn.
  destruct (decide (i < length vs)%nat) as [Hi|Hi].
  - rewrite (lookup_seqZ_lt 0 n i) by lia. cbn [fmap option_fmap option_map].
    rewrite Forall_forall in Hf.
    destruct (lookup_lt_is_Some_2 vs i Hi) as [v Hv].
    erewrite get_u32_field.
    + rewrite Hv. f_equal.
    + rewrite Hf.
      * repeat f_equal. rewrite Z.add_0_l, Nat2Z.id. by apply nth_lookup_Some.
      * apply list_elem_of_In, elem_of_seqZ. lia.
    + rewrite Forall_forall in Hr. apply Hr, list_elem_of_In. by eapply list_elem_of_lookup_2.
  - rewrite (lookup_seqZ_ge 0 n i) by lia. symmetry. apply lookup_ge_None. lia.
Qed.
End Layouts.

(** ** On-disk records

    The interface every struct of [types.rs] offers to the code that stores it
    in a buffer: [read_from], [write_to] and a fixed [SIZE]. *)

Class DiskRecord (A : Type) : Type := {
  rec_size : Z;
  rec_wf : A -> Prop;
  read_from : list Z -> A;
  write_to : A -> list Z -> list Z
}.
Arguments rec_size A {_} : rename.

Class DiskRecordLaws (A : Type) `{DiskRecord A} : Prop := {
  rec_size_pos : 0 < rec_size A;
  (** [write_to] works in place. *)
  zlen_write_to (a : A) buf : zlen (write_to a buf) = zlen buf;
  (** What was written reads back. *)
  read_write (a : A) buf :
    rec_wf a -> rec_size A <= zlen buf -> read_from (write_to a buf) = a;
  (** Bytes past [SIZE] are left alone. *)
  write_to_frame (a : A) buf off n :
    rec_wf a -> rec_size A <= zlen buf -> rec_size A <= off -> 0 <= n ->
    sub_bytes (write_to a buf) off n = sub_bytes buf off n;
  (** [read_from] looks at the first [SIZE] bytes only. *)
  read_from_local buf :
    rec_size A <= zlen buf -> read_from buf = read_from (sub_bytes buf 0 (rec_size A)) :> A;
  (** Any bytes decode to a value in range. *)
  read_from_wf buf :
    Forall is_u8 buf -> rec_size A <= zlen buf -> rec_wf (read_from buf : A)
}.

(** Facts a [DiskRecord] instance is built from. *)
Section RecordFacts.
Implicit Types buf : list Z.

Lemma nth_sub buf n o :
  0 <= o < n -> n <= zlen buf -> nth (Z.to_nat o) (sub_bytes buf 0 n) 0 = nth (Z.to_nat o) buf 0.
Proof.
  intros Ho Hn. unfold zlen in Hn.
  destruct (lookup_lt_is_Some_2 buf (Z.to_nat o)) as [v Hv]; [lia|].
  rewrite (nth_lookup_Some buf _ 0 v Hv). apply nth_lookup_Some.
  rewrite lookup_sub by lia. rewrite decide_True by lia. exact Hv.
Qed.

Lemma get_u8_local buf n o :
  0 <= o -> o + 1 <= n -> n <= zlen buf -> get_u8 (sub_bytes buf 0 n) o = get_u8 buf o.
Proof. intros. apply nth_sub; lia. Qed.

Lemma sub_local buf n o k :
  0 <= o -> 0 <= k -> o + k <= n -> sub_bytes (sub_bytes buf 0 n) o k = sub_bytes buf o k.
Proof. intros. by rewrite sub_sub by lia. Qed.

Lemma get_u32_array_local buf n o k :
  0 <= o -> 0 <= k -> o + 4 * k <= n ->
  get_u32_array k (sub_bytes buf 0 n) o = get_u32_array k buf o.
Proof.
  intros. unfold get_u32_array. apply list_fmap_ext. intros i x Hx.
  apply lookup_seqZ in Hx. unfold get_u32. by rewrite sub_local by lia.
Qed.

Lemma Forall_sub (P : Z -> Prop) buf o n : Forall P buf -> Forall P (sub_bytes buf o n).
Proof. intros. unfold sub_bytes. by apply Forall_take, Forall_drop. Qed.

Lemma get_u8_range buf o : Forall is_u8 buf -> 0 <= o -> o + 1 <= zlen buf -> is_u8 (get_u8 buf o).
Proof.
  intros Hb H0 Ho. unfold get_u8, zlen in *.
  destruct (lookup_lt_is_Some_2 buf (Z.to_nat o)) as [v Hv]; [lia|].
  rewrite (nth_lookup_Some _ _ _ _ Hv). by apply (Forall_lookup_1 _ _ _ _ Hb Hv).
Qed.

Lemma le_val_sub_range buf o n :
  Forall is_u8 buf -> 0 <= o -> 0 <= n -> o + n <= zlen buf ->
  0 <= le_val (sub_bytes buf o n) < 256 ^ n.
Proof.
  intros Hb H0 Hn Ho. pose proof (le_val_range _ (Forall_sub _ _ o n Hb)) as H.
  by rewrite zlen_sub in H by lia.
Qed.

Lemma get_u16_range buf o : Forall is_u8 buf -> 0 <= o -> o + 2 <= zlen buf -> is_u16 (get_u16 buf o).
Proof. intros. apply (le_val_sub_range buf o 2); auto; lia. Qed.
Lemma get_u32_range buf o : Forall is_u8 buf -> 0 <= o -> o + 4 <= zlen buf -> is_u32 (get_u32 buf o).
Proof. intros. apply (le_val_sub_range buf o 4); auto; lia. Qed.
Lemma get_u64_range buf o : Forall is_u8 buf -> 0 <= o -> o + 8 <= zlen buf -> is_u64 (get_u64 buf o).
Proof. intros. apply (le_val_sub_range buf o 8); auto; lia. Qed.

Lemma get_bytes_range n buf o :
  Forall is_u8 buf -> 0 <= o -> 0 <= n -> o + n <= zlen buf -> is_bytes n (get_bytes n buf o).
Proof. split; [by apply zlen_sub|by apply Forall_sub]. Qed.

Lemma get_u32_array_range n buf o :
  Forall is_u8 buf -> 0 <= o -> 0 <= n -> o + 4 * n <= zlen buf ->
  is_words n (get_u32_array n buf o).
Proof.
  intros Hb Ho Hn Hl. split.
  - unfold zlen, get_u32_array. rewrite length_fmap, length_seqZ. lia.
  - apply Forall_fmap, Forall_forall. intros i Hi.
    apply list_elem_of_In, elem_of_seqZ in Hi. simpl. apply get_u32_range; auto; lia.
Qed.
End RecordFacts.

(** [buf[..SIZE].fill(0)]. *)
Definition zero_fill (size : Z) (buf : list Z) : list Z := put_bytes buf 0 (zeros size).

Section LayoutLaws.
Context {A : Type} `{R : DiskRecord A}.
Context (fields : A -> list field) (base : list Z -> list Z).
Hypothesis (Hbase : base = id \/ base = zero_fill (rec_size A)).
Hypothesis (Hsize : 0 < rec_size A).
Hypothesis (Hwrite : forall (a : A) buf, write_to a buf = put_fields (fields a) (base buf)).
Hypothesis (Hok : forall a, layout_ok (rec_size A) (fields a) = true).
Hypothesis (Hsz : forall a, rec_wf a -> Forall field_sized (fields a)).
Hypothesis (Hread : forall (a : A) buf, rec_wf a -> rec_size A <= zlen buf ->
  read_from (put_fields (fields a) buf) = a).
Hypothesis (Hlocal : forall buf, rec_size A <= zlen buf ->
  read_from buf = read_from (sub_bytes buf 0 (rec_size A)) :> A).
Hypothesis (Hrange : forall buf, Forall is_u8 buf -> rec_size A <= zlen buf ->
  rec_wf (read_from buf : A)).

Lemma zlen_base buf : zlen (base buf) = zlen buf.
Proof. destruct Hbase as [-> | ->]; [reflexivity|]. apply zlen_put. Qed.

(** A record whose [write_to] is a good layout, written over the old bytes or
    over zeroes, satisfies the record laws. *)
Lemma layout_laws : DiskRecordLaws A.
Proof.
  constructor; auto.
  - intros a buf. rewrite Hwrite, zlen_put_fields. apply zlen_base.
  - intros a buf Hwf Hl. rewrite Hwrite. apply Hread; [done|]. by rewrite zlen_base.
  - intros a buf off n Hwf Hl Ho Hn. rewrite Hwrite.
    pose proof (Hok a) as Hin. unfold layout_ok in Hin. apply andb_true_iff in Hin as [Hin _].
    rewrite sub_put_fields_ne with (size := rec_size A); auto; [| |lia|].
    + destruct Hbase as [-> | ->]; [reflexivity|]. unfold zero_fill.
      apply sub_put_ne; rewrite ?zlen_zeros; lia.
    + by rewrite zlen_base.
    + intros f Hf. rewrite forallb_forall in Hin. specialize (Hin f Hf).
      apply span_inside_spec in Hin. lia.
Qed.
End LayoutLaws.

(** The premises of [layout_laws] are computations on the static offsets. *)
Ltac solve_field :=
  lazymatch goal with
  | |- get_u8 _ _ = _ => eapply get_u8_field
  | |- get_u16 _ _ = _ => eapply get_u16_field
  | |- get_u32 _ _ = _ => eapply get_u32_field
  | |- get_u64 _ _ = _ => eapply get_u64_field
  | |- get_bytes _ _ _ = _ => eapply get_bytes_field
  | |- get_u32_array _ _ _ = _ => eapply get_u32_array_field
  end.

Ltac solve_local :=
  symmetry;
  first [ apply get_u8_local; lia | apply get_u32_array_local; lia
        | unfold get_u16, get_u32, get_u64, get_bytes; rewrite sub_local by lia; reflexivity ].

Create HintDb ranges.
#[export] Hint Resolve get_u8_range get_u16_range get_u32_range get_u64_range
  get_bytes_range get_u32_array_range : ranges.

Section RecordUse.
Context {A : Type} `{DiskRecordLaws A}.

(** A record serialised into a fresh buffer reads back whatever follows it. *)
Lemma read_write_app (a : A) tail :
  rec_wf a -> read_from (write_to a (zeros (rec_size A)) ++ tail) = a.
Proof.
  intros Hwf. pose proof (rec_size_pos (A := A)).
  assert (zlen (write_to a (zeros (rec_size A))) = rec_size A) as Hlen.
  { rewrite zlen_write_to. apply zlen_zeros. lia. }
  rewrite read_from_local by (rewrite zlen_app, Hlen; pose proof (zlen_nonneg tail); lia).
  rewrite sub_app_l by lia.
  replace (sub_bytes (write_to a (zeros (rec_size A))) 0 (rec_size A))
    with (write_to a (zeros (rec_size A))) by (rewrite <- Hlen at 3; by rewrite sub_all).
  apply read_write; [done|]. rewrite zlen_zeros; lia.
Qed.
End RecordUse.

(** A word put into a buffer. *)
Lemma put_u32_spec buf o v :
  0 <= o -> o + 4 <= zlen buf -> is_u32 v ->
  zlen (put_u32 buf o v) = zlen buf /\ get_u32 (put_u32 buf o v) o = v /\
  forall o', 0 <= o' -> o' + 4 <= o \/ o + 4 <= o' -> get_u32 (put_u32 buf o v) o' = get_u32 buf o'.
Proof.
  intros Ho Hl Hv. unfold put_u32, get_u32. split; [apply zlen_put|]. split.
  - pose proof (sub_put_eq buf o (le_bytes 4 v) Ho) as Hs. rewrite zlen_le_bytes in Hs. change (Z.of_nat 4) with 4 in Hs.
    rewrite Hs by lia. by apply le_val_u32.
  - intros o' Ho' Hd. by rewrite sub_put_ne by (rewrite ?zlen_le_bytes; lia).
Qed.

Lemma Forall_zeros (P : Z -> Prop) n : P 0 -> Forall P (zeros n).
Proof. intros. by apply Forall_replicate. Qed.

Lemma Forall_put (P : Z -> Prop) buf off src :
  Forall P buf -> Forall P src -> Forall P (put_bytes buf off src).
Proof. apply Forall_inserts. Qed.

Definition field_in_range (f : field) : Prop := Forall is_u8 (field_bytes f).

Lemma u8_field_in_range o v : is_u8 v -> field_in_range (U8 o v).
Proof. intros. by apply Forall_cons; [|apply Forall_nil]. Qed.
Lemma u16_field_in_range o v : field_in_range (U16 o v).
Proof. apply le_bytes_range. Qed.
Lemma u32_field_in_range o v : field_in_range (U32 o v).
Proof. apply le_bytes_range. Qed.
Lemma u64_field_in_range o v : field_in_range (U64 o v).
Proof. apply le_bytes_range. Qed.
Lemma raw_field_in_range o n bs : is_bytes n bs -> field_in_range (Raw o n bs).
Proof. by intros [_ H]. Qed.
#[export] Hint Resolve u8_field_in_range u16_field_in_range u32_field_in_range
  u64_field_in_range raw_field_in_range : ranges.

(** Serialised records are bytes. *)
Lemma put_fields_range fs buf :
  Forall is_u8 buf -> Forall field_in_range fs -> Forall is_u8 (put_fields fs buf).
Proof.
  intros Hb Hf. revert buf Hb. induction Hf as [|f fs Hf _ IH]; intros buf Hb; simpl; [done|].
  apply IH. rewrite put_field_eq. by apply Forall_put.
Qed.
