(* ===== verification/Types.v ===== *)
(** The on-disk structures of [common/disk-image/src/ext4/types.rs] and the
    constants of [constants.rs].

    Each Rust struct is a [Record] with the same fields (prefixed), its
    [read_from] is the record of [get_*] calls and its [write_to] the sequence
    of [put_*] calls at the source's offsets ([_fields]).  Callers hand both a
    buffer of at least [SIZE] bytes, which the source asserts; taking a shorter
    slice is a panic of the caller and is modelled where the slice is taken.
    The instances of [DiskRecordLaws] give every structure its round trip, its
    frame and the range of what it decodes. *)

From S2P Require Import Prelude Bytes.

(** ** Constants *)

Definition SUPERBLOCK_MAGIC : Z := 0xEF53.
Definition EXTENT_HEADER_MAGIC : Z := 0xF30A.
Definition XATTR_HEADER_MAGIC : Z := 0xEA020000.

Definition ROOT_INODE : Z := 2.
Definition FIRST_INODE : Z := 11.
Definition LOST_AND_FOUND_INODE : Z := 11.

Definition INODE_ACTUAL_SIZE : Z := 160.
Definition INODE_EXTRA_SIZE : Z := 96.
Definition INODE_SIZE : Z := 256.
Definition EXTRA_ISIZE : Z := u16 (INODE_ACTUAL_SIZE - 128).
Definition XATTR_INODE_HEADER_SIZE : Z := 4.
Definition XATTR_BLOCK_HEADER_SIZE : Z := 32.

Definition MAX_LINKS : Z := 65000.
Definition EXT4_NAME_LEN : Z := 255.
Definition MAX_BLOCKS_PER_EXTENT : Z := 0x8000.
Definition MAX_FILE_SIZE : Z := 128 * 1024 * 1024 * 1024.
Definition SUPERBLOCK_OFFSET : Z := 1024.
Definition INODE_BLOCK_SIZE : Z := 60.

Definition compat_HAS_JOURNAL : Z := 0x4.
Definition compat_EXT_ATTR : Z := 0x8.
Definition compat_RESIZE_INODE : Z := 0x10.
Definition incompat_FILETYPE : Z := 0x2.
Definition incompat_RECOVER : Z := 0x4.
Definition incompat_EXTENTS : Z := 0x40.
Definition incompat_BIT64 : Z := 0x80.
Definition incompat_FLEX_BG : Z := 0x200.
Definition ro_compat_SPARSE_SUPER : Z := 0x1.
Definition ro_compat_LARGE_FILE : Z := 0x2.
Definition ro_compat_HUGE_FILE : Z := 0x8.
Definition ro_compat_GDT_CSUM : Z := 0x10.
Definition ro_compat_EXTRA_ISIZE : Z := 0x40.
Definition bg_INODE_UNINIT : Z := 0x1.
Definition bg_BLOCK_UNINIT : Z := 0x2.
Definition inode_flag_HUGE_FILE : Z := 0x40000.
Definition inode_flag_EXTENTS : Z := 0x80000.

Definition S_IFIFO : Z := 0x1000.
Definition S_IFCHR : Z := 0x2000.
Definition S_IFDIR : Z := 0x4000.
Definition S_IFBLK : Z := 0x6000.
Definition S_IFREG : Z := 0x8000.
Definition S_IFLNK : Z := 0xA000.
Definition S_IFSOCK : Z := 0xC000.
Definition TYPE_MASK : Z := 0xF000.

(** Directory-entry file types, with their [repr(u8)] codes. *)
Inductive FileType : Type :=
| Unknown | Regular | Directory | Character | BlockDev | Fifo | Socket | SymbolicLink.

Definition FileType_code (t : FileType) : Z :=
  match t with
  | Unknown => 0 | Regular => 1 | Directory => 2 | Character => 3
  | BlockDev => 4 | Fifo => 5 | Socket => 6 | SymbolicLink => 7
  end.

Definition FileType_from_mode (mode : Z) : FileType :=
  let t := Z.land mode TYPE_MASK in
  if t =? S_IFREG then Regular
  else if t =? S_IFDIR then Directory
  else if t =? S_IFCHR then Character
  else if t =? S_IFBLK then BlockDev
  else if t =? S_IFIFO then Fifo
  else if t =? S_IFSOCK then Socket
  else if t =? S_IFLNK then SymbolicLink
  else Unknown.

Definition make_mode (file_type perm : Z) : Z := Z.lor file_type perm.
Definition is_dir (mode : Z) : bool := Z.land mode TYPE_MASK =? S_IFDIR.
Definition is_reg (mode : Z) : bool := Z.land mode TYPE_MASK =? S_IFREG.
Definition is_link (mode : Z) : bool := Z.land mode TYPE_MASK =? S_IFLNK.

(** ** The superblock (1024 bytes) *)

Record SuperBlock : Type := mkSuperBlock {
  sb_inodes_count : Z; sb_blocks_count_lo : Z; sb_r_blocks_count_lo : Z;
  sb_free_blocks_count_lo : Z; sb_free_inodes_count : Z; sb_first_data_block : Z;
  sb_log_block_size : Z; sb_log_cluster_size : Z; sb_blocks_per_group : Z;
  sb_clusters_per_group : Z; sb_inodes_per_group : Z; sb_mtime : Z; sb_wtime : Z;
  sb_mount_count : Z; sb_max_mount_count : Z; sb_magic : Z; sb_state : Z; sb_errors : Z;
  sb_minor_rev_level : Z; sb_lastcheck : Z; sb_check_interval : Z; sb_creator_os : Z;
  sb_rev_level : Z; sb_def_resuid : Z; sb_def_resgid : Z; sb_first_ino : Z;
  sb_inode_size : Z; sb_block_group_nr : Z; sb_feature_compat : Z; sb_feature_incompat : Z;
  sb_feature_ro_compat : Z; sb_uuid : list Z; sb_volume_name : list Z;
  sb_last_mounted : list Z; sb_algorithm_usage_bitmap : Z; sb_prealloc_blocks : Z;
  sb_prealloc_dir_blocks : Z; sb_reserved_gdt_blocks : Z; sb_journal_uuid : list Z;
  sb_journal_inum : Z; sb_journal_dev : Z; sb_last_orphan : Z; sb_hash_seed : list Z;
  sb_def_hash_version : Z; sb_journal_backup_type : Z; sb_desc_size : Z;
  sb_default_mount_opts : Z; sb_first_meta_bg : Z; sb_mkfs_time : Z;
  sb_journal_blocks : list Z; sb_blocks_count_hi : Z; sb_r_blocks_count_hi : Z;
  sb_free_blocks_count_hi : Z; sb_min_extra_isize : Z; sb_want_extra_isize : Z;
  sb_flags : Z; sb_raid_stride : Z; sb_mmp_interval : Z; sb_mmp_block : Z;
  sb_raid_stripe_width : Z; sb_log_groups_per_flex : Z; sb_checksum_type : Z;
  sb_reserved_pad : Z; sb_kbytes_written : Z; sb_snapshot_inum : Z; sb_snapshot_id : Z;
  sb_snapshot_r_blocks_count : Z; sb_snapshot_list : Z; sb_error_count : Z;
  sb_first_error_time : Z; sb_first_error_ino : Z; sb_first_error_block : Z;
  sb_first_error_func : list Z; sb_first_error_line : Z; sb_last_error_time : Z;
  sb_last_error_ino : Z; sb_last_error_line : Z; sb_last_error_block : Z;
  sb_last_error_func : list Z; sb_mount_opts : list Z; sb_usr_quota_inum : Z;
  sb_grp_quota_inum : Z; sb_overhead_blocks : Z; sb_backup_bgs : list Z;
  sb_encrypt_algos : list Z; sb_encrypt_pw_salt : list Z; sb_lpf_ino : Z;
  sb_prj_quota_inum : Z; sb_checksum_seed : Z; sb_wtime_hi : Z; sb_mtime_hi : Z;
  sb_mkfs_time_hi : Z; sb_lastcheck_hi : Z; sb_first_error_time_hi : Z;
  sb_last_error_time_hi : Z; sb_pad : list Z; sb_reserved : list Z; sb_checksum : Z
}.

Definition SuperBlock_wf (s : SuperBlock) : Prop :=
  is_u32 (sb_inodes_count s) /\ is_u32 (sb_blocks_count_lo s) /\
  is_u32 (sb_r_blocks_count_lo s) /\ is_u32 (sb_free_blocks_count_lo s) /\
  is_u32 (sb_free_inodes_count s) /\ is_u32 (sb_first_data_block s) /\
  is_u32 (sb_log_block_size s) /\ is_u32 (sb_log_cluster_size s) /\
  is_u32 (sb_blocks_per_group s) /\ is_u32 (sb_clusters_per_group s) /\
  is_u32 (sb_inodes_per_group s) /\ is_u32 (sb_mtime s) /\ is_u32 (sb_wtime s) /\
  is_u16 (sb_mount_count s) /\ is_u16 (sb_max_mount_count s) /\ is_u16 (sb_magic s) /\
  is_u16 (sb_state s) /\ is_u16 (sb_errors s) /\ is_u16 (sb_minor_rev_level s) /\
  is_u32 (sb_lastcheck s) /\ is_u32 (sb_check_interval s) /\ is_u32 (sb_creator_os s) /\
  is_u32 (sb_rev_level s) /\ is_u16 (sb_def_resuid s) /\ is_u16 (sb_def_resgid s) /\
  is_u32 (sb_first_ino s) /\ is_u16 (sb_inode_size s) /\ is_u16 (sb_block_group_nr s) /\
  is_u32 (sb_feature_compat s) /\ is_u32 (sb_feature_incompat s) /\
  is_u32 (sb_feature_ro_compat s) /\ is_bytes 16 (sb_uuid s) /\
  is_bytes 16 (sb_volume_name s) /\ is_bytes 64 (sb_last_mounted s) /\
  is_u32 (sb_algorithm_usage_bitmap s) /\ is_u8 (sb_prealloc_blocks s) /\
  is_u8 (sb_prealloc_dir_blocks s) /\ is_u16 (sb_reserved_gdt_blocks s) /\
  is_bytes 16 (sb_journal_uuid s) /\ is_u32 (sb_journal_inum s) /\
  is_u32 (sb_journal_dev s) /\ is_u32 (sb_last_orphan s) /\ is_words 4 (sb_hash_seed s) /\
  is_u8 (sb_def_hash_version s) /\ is_u8 (sb_journal_backup_type s) /\
  is_u16 (sb_desc_size s) /\ is_u32 (sb_default_mount_opts s) /\
  is_u32 (sb_first_meta_bg s) /\ is_u32 (sb_mkfs_time s) /\
  is_words 17 (sb_journal_blocks s) /\ is_u32 (sb_blocks_count_hi s) /\
  is_u32 (sb_r_blocks_count_hi s) /\ is_u32 (sb_free_blocks_count_hi s) /\
  is_u16 (sb_min_extra_isize s) /\ is_u16 (sb_want_extra_isize s) /\ is_u32 (sb_flags s) /\
  is_u16 (sb_raid_stride s) /\ is_u16 (sb_mmp_interval s) /\ is_u64 (sb_mmp_block s) /\
  is_u32 (sb_raid_stripe_width s) /\ is_u8 (sb_log_groups_per_flex s) /\
  is_u8 (sb_checksum_type s) /\ is_u16 (sb_reserved_pad s) /\
  is_u64 (sb_kbytes_written s) /\ is_u32 (sb_snapshot_inum s) /\
  is_u32 (sb_snapshot_id s) /\ is_u64 (sb_snapshot_r_blocks_count s) /\
  is_u32 (sb_snapshot_list s) /\ is_u32 (sb_error_count s) /\
  is_u32 (sb_first_error_time s) /\ is_u32 (sb_first_error_ino s) /\
  is_u64 (sb_first_error_block s) /\ is_bytes 32 (sb_first_error_func s) /\
  is_u32 (sb_first_error_line s) /\ is_u32 (sb_last_error_time s) /\
  is_u32 (sb_last_error_ino s) /\ is_u32 (sb_last_error_line s) /\
  is_u64 (sb_last_error_block s) /\ is_bytes 32 (sb_last_error_func s) /\
  is_bytes 64 (sb_mount_opts s) /\ is_u32 (sb_usr_quota_inum s) /\
  is_u32 (sb_grp_quota_inum s) /\ is_u32 (sb_overhead_blocks s) /\
  is_words 2 (sb_backup_bgs s) /\ is_bytes 4 (sb_encrypt_algos s) /\
  is_bytes 16 (sb_encrypt_pw_salt s) /\ is_u32 (sb_lpf_ino s) /\
  is_u32 (sb_prj_quota_inum s) /\ is_u32 (sb_checksum_seed s) /\ is_u8 (sb_wtime_hi s) /\
  is_u8 (sb_mtime_hi s) /\ is_u8 (sb_mkfs_time_hi s) /\ is_u8 (sb_lastcheck_hi s) /\
  is_u8 (sb_first_error_time_hi s) /\ is_u8 (sb_last_error_time_hi s) /\
  is_bytes 2 (sb_pad s) /\ is_words 96 (sb_reserved s) /\ is_u32 (sb_checksum s).

Definition SuperBlock_read_from (buf : list Z) : SuperBlock :=
  {|
    sb_inodes_count := get_u32 buf 0x00;
    sb_blocks_count_lo := get_u32 buf 0x04;
    sb_r_blocks_count_lo := get_u32 buf 0x08;
    sb_free_blocks_count_lo := get_u32 buf 0x0C;
    sb_free_inodes_count := get_u32 buf 0x10;
    sb_first_data_block := get_u32 buf 0x14;
    sb_log_block_size := get_u32 buf 0x18;
    sb_log_cluster_size := get_u32 buf 0x1C;
    sb_blocks_per_group := get_u32 buf 0x20;
    sb_clusters_per_group := get_u32 buf 0x24;
    sb_inodes_per_group := get_u32 buf 0x28;
    sb_mtime := get_u32 buf 0x2C;
    sb_wtime := get_u32 buf 0x30;
    sb_mount_count := get_u16 buf 0x34;
    sb_max_mount_count := get_u16 buf 0x36;
    sb_magic := get_u16 buf 0x38;
    sb_state := get_u16 buf 0x3A;
    sb_errors := get_u16 buf 0x3C;
    sb_minor_rev_level := get_u16 buf 0x3E;
    sb_lastcheck := get_u32 buf 0x40;
    sb_check_interval := get_u32 buf 0x44;
    sb_creator_os := get_u32 buf 0x48;
    sb_rev_level := get_u32 buf 0x4C;
    sb_def_resuid := get_u16 buf 0x50;
    sb_def_resgid := get_u16 buf 0x52;
    sb_first_ino := get_u32 buf 0x54;
    sb_inode_size := get_u16 buf 0x58;
    sb_block_group_nr := get_u16 buf 0x5A;
    sb_feature_compat := get_u32 buf 0x5C;
    sb_feature_incompat := get_u32 buf 0x60;
    sb_feature_ro_compat := get_u32 buf 0x64;
    sb_uuid := get_bytes 16 buf 0x68;
    sb_volume_name := get_bytes 16 buf 0x78;
    sb_last_mounted := get_bytes 64 buf 0x88;
    sb_algorithm_usage_bitmap := get_u32 buf 0xC8;
    sb_prealloc_blocks := get_u8 buf 0xCC;
    sb_prealloc_dir_blocks := get_u8 buf 0xCD;
    sb_reserved_gdt_blocks := get_u16 buf 0xCE;
    sb_journal_uuid := get_bytes 16 buf 0xD0;
    sb_journal_inum := get_u32 buf 0xE0;
    sb_journal_dev := get_u32 buf 0xE4;
    sb_last_orphan := get_u32 buf 0xE8;
    sb_hash_seed := get_u32_array 4 buf 0xEC;
    sb_def_hash_version := get_u8 buf 0xFC;
    sb_journal_backup_type := get_u8 buf 0xFD;
    sb_desc_size := get_u16 buf 0xFE;
    sb_default_mount_opts := get_u32 buf 0x100;
    sb_first_meta_bg := get_u32 buf 0x104;
    sb_mkfs_time := get_u32 buf 0x108;
    sb_journal_blocks := get_u32_array 17 buf 0x10C;
    sb_blocks_count_hi := get_u32 buf 0x150;
    sb_r_blocks_count_hi := get_u32 buf 0x154;
    sb_free_blocks_count_hi := get_u32 buf 0x158;
    sb_min_extra_isize := get_u16 buf 0x15C;
    sb_want_extra_isize := get_u16 buf 0x15E;
    sb_flags := get_u32 buf 0x160;
    sb_raid_stride := get_u16 buf 0x164;
    sb_mmp_interval := get_u16 buf 0x166;
    sb_mmp_block := get_u64 buf 0x168;
    sb_raid_stripe_width := get_u32 buf 0x170;
    sb_log_groups_per_flex := get_u8 buf 0x174;
    sb_checksum_type := get_u8 buf 0x175;
    sb_reserved_pad := get_u16 buf 0x176;
    sb_kbytes_written := get_u64 buf 0x178;
    sb_snapshot_inum := get_u32 buf 0x180;
    sb_snapshot_id := get_u32 buf 0x184;
    sb_snapshot_r_blocks_count := get_u64 buf 0x188;
    sb_snapshot_list := get_u32 buf 0x190;
    sb_error_count := get_u32 buf 0x194;
    sb_first_error_time := get_u32 buf 0x198;
    sb_first_error_ino := get_u32 buf 0x19C;
    sb_first_error_block := get_u64 buf 0x1A0;
    sb_first_error_func := get_bytes 32 buf 0x1A8;
    sb_first_error_line := get_u32 buf 0x1C8;
    sb_last_error_time := get_u32 buf 0x1CC;
    sb_last_error_ino := get_u32 buf 0x1D0;
    sb_last_error_line := get_u32 buf 0x1D4;
    sb_last_error_block := get_u64 buf 0x1D8;
    sb_last_error_func := get_bytes 32 buf 0x1E0;
    sb_mount_opts := get_bytes 64 buf 0x200;
    sb_usr_quota_inum := get_u32 buf 0x240;
    sb_grp_quota_inum := get_u32 buf 0x244;
    sb_overhead_blocks := get_u32 buf 0x248;
    sb_backup_bgs := get_u32_array 2 buf 0x24C;
    sb_encrypt_algos := get_bytes 4 buf 0x254;
    sb_encrypt_pw_salt := get_bytes 16 buf 0x258;
    sb_lpf_ino := get_u32 buf 0x268;
    sb_prj_quota_inum := get_u32 buf 0x26C;
    sb_checksum_seed := get_u32 buf 0x270;
    sb_wtime_hi := get_u8 buf 0x274;
    sb_mtime_hi := get_u8 buf 0x275;
    sb_mkfs_time_hi := get_u8 buf 0x276;
    sb_lastcheck_hi := get_u8 buf 0x277;
    sb_first_error_time_hi := get_u8 buf 0x278;
    sb_last_error_time_hi := get_u8 buf 0x279;
    sb_pad := get_bytes 2 buf 0x27A;
    sb_reserved := get_u32_array 96 buf 0x27C;
    sb_checksum := get_u32 buf 0x3FC
  |}.

Definition SuperBlock_fields (s : SuperBlock) : list field :=
  [U32 0x00 (sb_inodes_count s);
   U32 0x04 (sb_blocks_count_lo s);
   U32 0x08 (sb_r_blocks_count_lo s);
   U32 0x0C (sb_free_blocks_count_lo s);
   U32 0x10 (sb_free_inodes_count s);
   U32 0x14 (sb_first_data_block s);
   U32 0x18 (sb_log_block_size s);
   U32 0x1C (sb_log_cluster_size s);
   U32 0x20 (sb_blocks_per_group s);
   U32 0x24 (sb_clusters_per_group s);
   U32 0x28 (sb_inodes_per_group s);
   U32 0x2C (sb_mtime s);
   U32 0x30 (sb_wtime s);
   U16 0x34 (sb_mount_count s);
   U16 0x36 (sb_max_mount_count s);
   U16 0x38 (sb_magic s);
   U16 0x3A (sb_state s);
   U16 0x3C (sb_errors s);
   U16 0x3E (sb_minor_rev_level s);
   U32 0x40 (sb_lastcheck s);
   U32 0x44 (sb_check_interval s);
   U32 0x48 (sb_creator_os s);
   U32 0x4C (sb_rev_level s);
   U16 0x50 (sb_def_resuid s);
   U16 0x52 (sb_def_resgid s);
   U32 0x54 (sb_first_ino s);
   U16 0x58 (sb_inode_size s);
   U16 0x5A (sb_block_group_nr s);
   U32 0x5C (sb_feature_compat s);
   U32 0x60 (sb_feature_incompat s);
   U32 0x64 (sb_feature_ro_compat s);
   Raw 0x68 16 (sb_uuid s);
   Raw 0x78 16 (sb_volume_name s);
   Raw 0x88 64 (sb_last_mounted s);
   U32 0xC8 (sb_algorithm_usage_bitmap s);
   U8 0xCC (sb_prealloc_blocks s);
   U8 0xCD (sb_prealloc_dir_blocks s);
   U16 0xCE (sb_reserved_gdt_blocks s);
   Raw 0xD0 16 (sb_journal_uuid s);
   U32 0xE0 (sb_journal_inum s);
   U32 0xE4 (sb_journal_dev s);
   U32 0xE8 (sb_last_orphan s)] ++
  u32_array 0xEC 4 (sb_hash_seed s) ++
  [U8 0xFC (sb_def_hash_version s);
   U8 0xFD (sb_journal_backup_type s);
   U16 0xFE (sb_desc_size s);
   U32 0x100 (sb_default_mount_opts s);
   U32 0x104 (sb_first_meta_bg s);
   U32 0x108 (sb_mkfs_time s)] ++
  u32_array 0x10C 17 (sb_journal_blocks s) ++
  [U32 0x150 (sb_blocks_count_hi s);
   U32 0x154 (sb_r_blocks_count_hi s);
   U32 0x158 (sb_free_blocks_count_hi s);
   U16 0x15C (sb_min_extra_isize s);
   U16 0x15E (sb_want_extra_isize s);
   U32 0x160 (sb_flags s);
   U16 0x164 (sb_raid_stride s);
   U16 0x166 (sb_mmp_interval s);
   U64 0x168 (sb_mmp_block s);
   U32 0x170 (sb_raid_stripe_width s);
   U8 0x174 (sb_log_groups_per_flex s);
   U8 0x175 (sb_checksum_type s);
   U16 0x176 (sb_reserved_pad s);
   U64 0x178 (sb_kbytes_written s);
   U32 0x180 (sb_snapshot_inum s);
   U32 0x184 (sb_snapshot_id s);
   U64 0x188 (sb_snapshot_r_blocks_count s);
   U32 0x190 (sb_snapshot_list s);
   U32 0x194 (sb_error_count s);
   U32 0x198 (sb_first_error_time s);
   U32 0x19C (sb_first_error_ino s);
   U64 0x1A0 (sb_first_error_block s);
   Raw 0x1A8 32 (sb_first_error_func s);
   U32 0x1C8 (sb_first_error_line s);
   U32 0x1CC (sb_last_error_time s);
   U32 0x1D0 (sb_last_error_ino s);
   U32 0x1D4 (sb_last_error_line s);
   U64 0x1D8 (sb_last_error_block s);
   Raw 0x1E0 32 (sb_last_error_func s);
   Raw 0x200 64 (sb_mount_opts s);
   U32 0x240 (sb_usr_quota_inum s);
   U32 0x244 (sb_grp_quota_inum s);
   U32 0x248 (sb_overhead_blocks s);
   U32 0x24C (nth 0 (sb_backup_bgs s) 0);
   U32 0x250 (nth 1 (sb_backup_bgs s) 0);
   Raw 0x254 4 (sb_encrypt_algos s);
   Raw 0x258 16 (sb_encrypt_pw_salt s);
   U32 0x268 (sb_lpf_ino s);
   U32 0x26C (sb_prj_quota_inum s);
   U32 0x270 (sb_checksum_seed s);
   U8 0x274 (sb_wtime_hi s);
   U8 0x275 (sb_mtime_hi s);
   U8 0x276 (sb_mkfs_time_hi s);
   U8 0x277 (sb_lastcheck_hi s);
   U8 0x278 (sb_first_error_time_hi s);
   U8 0x279 (sb_last_error_time_hi s);
   Raw 0x27A 2 (sb_pad s)] ++
  u32_array 0x27C 96 (sb_reserved s) ++
  [U32 0x3FC (sb_checksum s)].

Definition SuperBlock_write_to (s : SuperBlock) (buf : list Z) : list Z :=
  put_fields (SuperBlock_fields s) (put_bytes buf 0 (zeros 1024)).

#[global] Instance SuperBlock_record : DiskRecord SuperBlock := {|
  rec_size := 1024; rec_wf := SuperBlock_wf;
  read_from := SuperBlock_read_from; write_to := SuperBlock_write_to
|}.

(** ** Block group descriptor (32 bytes) *)

Record GroupDescriptor : Type := mkGroupDescriptor {
  gd_block_bitmap_lo : Z; gd_inode_bitmap_lo : Z; gd_inode_table_lo : Z;
  gd_free_blocks_count_lo : Z; gd_free_inodes_count_lo : Z; gd_used_dirs_count_lo : Z;
  gd_flags : Z; gd_exclude_bitmap_lo : Z; gd_block_bitmap_csum_lo : Z;
  gd_inode_bitmap_csum_lo : Z; gd_itable_unused_lo : Z; gd_checksum : Z
}.

Definition GroupDescriptor_wf (s : GroupDescriptor) : Prop :=
  is_u32 (gd_block_bitmap_lo s) /\ is_u32 (gd_inode_bitmap_lo s) /\
  is_u32 (gd_inode_table_lo s) /\ is_u16 (gd_free_blocks_count_lo s) /\
  is_u16 (gd_free_inodes_count_lo s) /\ is_u16 (gd_used_dirs_count_lo s) /\
  is_u16 (gd_flags s) /\ is_u32 (gd_exclude_bitmap_lo s) /\
  is_u16 (gd_block_bitmap_csum_lo s) /\ is_u16 (gd_inode_bitmap_csum_lo s) /\
  is_u16 (gd_itable_unused_lo s) /\ is_u16 (gd_checksum s).

Definition GroupDescriptor_read_from (buf : list Z) : GroupDescriptor :=
  {|
    gd_block_bitmap_lo := get_u32 buf 0x00;
    gd_inode_bitmap_lo := get_u32 buf 0x04;
    gd_inode_table_lo := get_u32 buf 0x08;
    gd_free_blocks_count_lo := get_u16 buf 0x0C;
    gd_free_inodes_count_lo := get_u16 buf 0x0E;
    gd_used_dirs_count_lo := get_u16 buf 0x10;
    gd_flags := get_u16 buf 0x12;
    gd_exclude_bitmap_lo := get_u32 buf 0x14;
    gd_block_bitmap_csum_lo := get_u16 buf 0x18;
    gd_inode_bitmap_csum_lo := get_u16 buf 0x1A;
    gd_itable_unused_lo := get_u16 buf 0x1C;
    gd_checksum := get_u16 buf 0x1E
  |}.

Definition GroupDescriptor_fields (s : GroupDescriptor) : list field :=
  [U32 0x00 (gd_block_bitmap_lo s);
   U32 0x04 (gd_inode_bitmap_lo s);
   U32 0x08 (gd_inode_table_lo s);
   U16 0x0C (gd_free_blocks_count_lo s);
   U16 0x0E (gd_free_inodes_count_lo s);
   U16 0x10 (gd_used_dirs_count_lo s);
   U16 0x12 (gd_flags s);
   U32 0x14 (gd_exclude_bitmap_lo s);
   U16 0x18 (gd_block_bitmap_csum_lo s);
   U16 0x1A (gd_inode_bitmap_csum_lo s);
   U16 0x1C (gd_itable_unused_lo s);
   U16 0x1E (gd_checksum s)].

Definition GroupDescriptor_write_to (s : GroupDescriptor) (buf : list Z) : list Z :=
  put_fields (GroupDescriptor_fields s) (put_bytes buf 0 (zeros 32)).

#[global] Instance GroupDescriptor_record : DiskRecord GroupDescriptor := {|
  rec_size := 32; rec_wf := GroupDescriptor_wf;
  read_from := GroupDescriptor_read_from; write_to := GroupDescriptor_write_to
|}.

(** ** Inode (160 bytes of metadata and 96 of inline attributes) *)

Record Inode : Type := mkInode {
  i_mode : Z; i_uid : Z; i_size_lo : Z; i_atime : Z; i_ctime : Z; i_mtime : Z; i_dtime : Z;
  i_gid : Z; i_links_count : Z; i_blocks_lo : Z; i_flags : Z; i_version : Z;
  i_block : list Z; i_generation : Z; i_xattr_block_lo : Z; i_size_hi : Z;
  i_obsolete_fragment_addr : Z; i_blocks_hi : Z; i_xattr_block_hi : Z; i_uid_hi : Z;
  i_gid_hi : Z; i_checksum_lo : Z; i_reserved : Z; i_extra_isize : Z; i_checksum_hi : Z;
  i_ctime_extra : Z; i_mtime_extra : Z; i_atime_extra : Z; i_crtime : Z;
  i_crtime_extra : Z; i_version_hi : Z; i_projid : Z; i_inline_xattrs : list Z
}.

Definition Inode_wf (s : Inode) : Prop :=
  is_u16 (i_mode s) /\ is_u16 (i_uid s) /\ is_u32 (i_size_lo s) /\ is_u32 (i_atime s) /\
  is_u32 (i_ctime s) /\ is_u32 (i_mtime s) /\ is_u32 (i_dtime s) /\ is_u16 (i_gid s) /\
  is_u16 (i_links_count s) /\ is_u32 (i_blocks_lo s) /\ is_u32 (i_flags s) /\
  is_u32 (i_version s) /\ is_bytes 60 (i_block s) /\ is_u32 (i_generation s) /\
  is_u32 (i_xattr_block_lo s) /\ is_u32 (i_size_hi s) /\
  is_u32 (i_obsolete_fragment_addr s) /\ is_u16 (i_blocks_hi s) /\
  is_u16 (i_xattr_block_hi s) /\ is_u16 (i_uid_hi s) /\ is_u16 (i_gid_hi s) /\
  is_u16 (i_checksum_lo s) /\ is_u16 (i_reserved s) /\ is_u16 (i_extra_isize s) /\
  is_u16 (i_checksum_hi s) /\ is_u32 (i_ctime_extra s) /\ is_u32 (i_mtime_extra s) /\
  is_u32 (i_atime_extra s) /\ is_u32 (i_crtime s) /\ is_u32 (i_crtime_extra s) /\
  is_u32 (i_version_hi s) /\ is_u32 (i_projid s) /\ is_bytes 96 (i_inline_xattrs s).

Definition Inode_read_from (buf : list Z) : Inode :=
  {|
    i_mode := get_u16 buf 0x00;
    i_uid := get_u16 buf 0x02;
    i_size_lo := get_u32 buf 0x04;
    i_atime := get_u32 buf 0x08;
    i_ctime := get_u32 buf 0x0C;
    i_mtime := get_u32 buf 0x10;
    i_dtime := get_u32 buf 0x14;
    i_gid := get_u16 buf 0x18;
    i_links_count := get_u16 buf 0x1A;
    i_blocks_lo := get_u32 buf 0x1C;
    i_flags := get_u32 buf 0x20;
    i_version := get_u32 buf 0x24;
    i_block := get_bytes 60 buf 0x28;
    i_generation := get_u32 buf 0x64;
    i_xattr_block_lo := get_u32 buf 0x68;
    i_size_hi := get_u32 buf 0x6C;
    i_obsolete_fragment_addr := get_u32 buf 0x70;
    i_blocks_hi := get_u16 buf 0x74;
    i_xattr_block_hi := get_u16 buf 0x76;
    i_uid_hi := get_u16 buf 0x78;
    i_gid_hi := get_u16 buf 0x7A;
    i_checksum_lo := get_u16 buf 0x7C;
    i_reserved := get_u16 buf 0x7E;
    i_extra_isize := get_u16 buf 0x80;
    i_checksum_hi := get_u16 buf 0x82;
    i_ctime_extra := get_u32 buf 0x84;
    i_mtime_extra := get_u32 buf 0x88;
    i_atime_extra := get_u32 buf 0x8C;
    i_crtime := get_u32 buf 0x90;
    i_crtime_extra := get_u32 buf 0x94;
    i_version_hi := get_u32 buf 0x98;
    i_projid := get_u32 buf 0x9C;
    i_inline_xattrs := get_bytes 96 buf 160
  |}.

Definition Inode_fields (s : Inode) : list field :=
  [U16 0x00 (i_mode s);
   U16 0x02 (i_uid s);
   U32 0x04 (i_size_lo s);
   U32 0x08 (i_atime s);
   U32 0x0C (i_ctime s);
   U32 0x10 (i_mtime s);
   U32 0x14 (i_dtime s);
   U16 0x18 (i_gid s);
   U16 0x1A (i_links_count s);
   U32 0x1C (i_blocks_lo s);
   U32 0x20 (i_flags s);
   U32 0x24 (i_version s);
   Raw 0x28 60 (i_block s);
   U32 0x64 (i_generation s);
   U32 0x68 (i_xattr_block_lo s);
   U32 0x6C (i_size_hi s);
   U32 0x70 (i_obsolete_fragment_addr s);
   U16 0x74 (i_blocks_hi s);
   U16 0x76 (i_xattr_block_hi s);
   U16 0x78 (i_uid_hi s);
   U16 0x7A (i_gid_hi s);
   U16 0x7C (i_checksum_lo s);
   U16 0x7E (i_reserved s);
   U16 0x80 (i_extra_isize s);
   U16 0x82 (i_checksum_hi s);
   U32 0x84 (i_ctime_extra s);
   U32 0x88 (i_mtime_extra s);
   U32 0x8C (i_atime_extra s);
   U32 0x90 (i_crtime s);
   U32 0x94 (i_crtime_extra s);
   U32 0x98 (i_version_hi s);
   U32 0x9C (i_projid s);
   Raw 160 96 (i_inline_xattrs s)].

Definition Inode_write_to (s : Inode) (buf : list Z) : list Z :=
  put_fields (Inode_fields s) (put_bytes buf 0 (zeros 256)).

#[global] Instance Inode_record : DiskRecord Inode := {|
  rec_size := 256; rec_wf := Inode_wf;
  read_from := Inode_read_from; write_to := Inode_write_to
|}.

(** ** Extent tree node header *)

Record ExtentHeader : Type := mkExtentHeader {
  eh_magic : Z; eh_entries : Z; eh_max : Z; eh_depth : Z; eh_generation : Z
}.

Definition ExtentHeader_wf (s : ExtentHeader) : Prop :=
  is_u16 (eh_magic s) /\ is_u16 (eh_entries s) /\ is_u16 (eh_max s) /\
  is_u16 (eh_depth s) /\ is_u32 (eh_generation s).

Definition ExtentHeader_read_from (buf : list Z) : ExtentHeader :=
  {|
    eh_magic := get_u16 buf 0;
    eh_entries := get_u16 buf 2;
    eh_max := get_u16 buf 4;
    eh_depth := get_u16 buf 6;
    eh_generation := get_u32 buf 8
  |}.

Definition ExtentHeader_fields (s : ExtentHeader) : list field :=
  [U16 0 (eh_magic s);
   U16 2 (eh_entries s);
   U16 4 (eh_max s);
   U16 6 (eh_depth s);
   U32 8 (eh_generation s)].

Definition ExtentHeader_write_to (s : ExtentHeader) (buf : list Z) : list Z :=
  put_fields (ExtentHeader_fields s) buf.

#[global] Instance ExtentHeader_record : DiskRecord ExtentHeader := {|
  rec_size := 12; rec_wf := ExtentHeader_wf;
  read_from := ExtentHeader_read_from; write_to := ExtentHeader_write_to
|}.

(** ** Extent tree leaf entry *)

Record ExtentLeaf : Type := mkExtentLeaf {
  el_block : Z; el_len : Z; el_start_hi : Z; el_start_lo : Z
}.

Definition ExtentLeaf_wf (s : ExtentLeaf) : Prop :=
  is_u32 (el_block s) /\ is_u16 (el_len s) /\ is_u16 (el_start_hi s) /\
  is_u32 (el_start_lo s).

Definition ExtentLeaf_read_from (buf : list Z) : ExtentLeaf :=
  {|
    el_block := get_u32 buf 0;
    el_len := get_u16 buf 4;
    el_start_hi := get_u16 buf 6;
    el_start_lo := get_u32 buf 8
  |}.

Definition ExtentLeaf_fields (s : ExtentLeaf) : list field :=
  [U32 0 (el_block s);
   U16 4 (el_len s);
   U16 6 (el_start_hi s);
   U32 8 (el_start_lo s)].

Definition ExtentLeaf_write_to (s : ExtentLeaf) (buf : list Z) : list Z :=
  put_fields (ExtentLeaf_fields s) buf.

#[global] Instance ExtentLeaf_record : DiskRecord ExtentLeaf := {|
  rec_size := 12; rec_wf := ExtentLeaf_wf;
  read_from := ExtentLeaf_read_from; write_to := ExtentLeaf_write_to
|}.

(** ** Extent tree index entry *)

Record ExtentIndex : Type := mkExtentIndex {
  ei_block : Z; ei_leaf_lo : Z; ei_leaf_hi : Z; ei_unused : Z
}.

Definition ExtentIndex_wf (s : ExtentIndex) : Prop :=
  is_u32 (ei_block s) /\ is_u32 (ei_leaf_lo s) /\ is_u16 (ei_leaf_hi s) /\
  is_u16 (ei_unused s).

Definition ExtentIndex_read_from (buf : list Z) : ExtentIndex :=
  {|
    ei_block := get_u32 buf 0;
    ei_leaf_lo := get_u32 buf 4;
    ei_leaf_hi := get_u16 buf 8;
    ei_unused := get_u16 buf 10
  |}.

Definition ExtentIndex_fields (s : ExtentIndex) : list field :=
  [U32 0 (ei_block s);
   U32 4 (ei_leaf_lo s);
   U16 8 (ei_leaf_hi s);
   U16 10 (ei_unused s)].

Definition ExtentIndex_write_to (s : ExtentIndex) (buf : list Z) : list Z :=
  put_fields (ExtentIndex_fields s) buf.

#[global] Instance ExtentIndex_record : DiskRecord ExtentIndex := {|
  rec_size := 12; rec_wf := ExtentIndex_wf;
  read_from := ExtentIndex_read_from; write_to := ExtentIndex_write_to
|}.

(** ** Extent block tail *)

Record ExtentTail : Type := mkExtentTail {
  et_checksum : Z
}.

Definition ExtentTail_wf (s : ExtentTail) : Prop :=
  is_u32 (et_checksum s).

Definition ExtentTail_read_from (buf : list Z) : ExtentTail :=
  {|
    et_checksum := get_u32 buf 0
  |}.

Definition ExtentTail_fields (s : ExtentTail) : list field :=
  [U32 0 (et_checksum s)].

Definition ExtentTail_write_to (s : ExtentTail) (buf : list Z) : list Z :=
  put_fields (ExtentTail_fields s) buf.

#[global] Instance ExtentTail_record : DiskRecord ExtentTail := {|
  rec_size := 4; rec_wf := ExtentTail_wf;
  read_from := ExtentTail_read_from; write_to := ExtentTail_write_to
|}.

(** ** Directory entry header *)

Record DirectoryEntry : Type := mkDirectoryEntry {
  de_inode : Z; de_rec_len : Z; de_name_len : Z; de_file_type : Z
}.

Definition DirectoryEntry_wf (s : DirectoryEntry) : Prop :=
  is_u32 (de_inode s) /\ is_u16 (de_rec_len s) /\ is_u8 (de_name_len s) /\
  is_u8 (de_file_type s).

Definition DirectoryEntry_read_from (buf : list Z) : DirectoryEntry :=
  {|
    de_inode := get_u32 buf 0;
    de_rec_len := get_u16 buf 4;
    de_name_len := get_u8 buf 6;
    de_file_type := get_u8 buf 7
  |}.

Definition DirectoryEntry_fields (s : DirectoryEntry) : list field :=
  [U32 0 (de_inode s);
   U16 4 (de_rec_len s);
   U8 6 (de_name_len s);
   U8 7 (de_file_type s)].

Definition DirectoryEntry_write_to (s : DirectoryEntry) (buf : list Z) : list Z :=
  put_fields (DirectoryEntry_fields s) buf.

#[global] Instance DirectoryEntry_record : DiskRecord DirectoryEntry := {|
  rec_size := 8; rec_wf := DirectoryEntry_wf;
  read_from := DirectoryEntry_read_from; write_to := DirectoryEntry_write_to
|}.

(** ** Extended-attribute entry header *)

Record XAttrEntry : Type := mkXAttrEntry {
  xe_name_len : Z; xe_name_index : Z; xe_value_offset : Z; xe_value_inum : Z;
  xe_value_size : Z; xe_hash : Z
}.

Definition XAttrEntry_wf (s : XAttrEntry) : Prop :=
  is_u8 (xe_name_len s) /\ is_u8 (xe_name_index s) /\ is_u16 (xe_value_offset s) /\
  is_u32 (xe_value_inum s) /\ is_u32 (xe_value_size s) /\ is_u32 (xe_hash s).

Definition XAttrEntry_read_from (buf : list Z) : XAttrEntry :=
  {|
    xe_name_len := get_u8 buf 0;
    xe_name_index := get_u8 buf 1;
    xe_value_offset := get_u16 buf 2;
    xe_value_inum := get_u32 buf 4;
    xe_value_size := get_u32 buf 8;
    xe_hash := get_u32 buf 12
  |}.

Definition XAttrEntry_fields (s : XAttrEntry) : list field :=
  [U8 0 (xe_name_len s);
   U8 1 (xe_name_index s);
   U16 2 (xe_value_offset s);
   U32 4 (xe_value_inum s);
   U32 8 (xe_value_size s);
   U32 12 (xe_hash s)].

Definition XAttrEntry_write_to (s : XAttrEntry) (buf : list Z) : list Z :=
  put_fields (XAttrEntry_fields s) buf.

#[global] Instance XAttrEntry_record : DiskRecord XAttrEntry := {|
  rec_size := 16; rec_wf := XAttrEntry_wf;
  read_from := XAttrEntry_read_from; write_to := XAttrEntry_write_to
|}.

(** ** Default values *)

Definition SuperBlock_default : SuperBlock :=
  {|
    sb_inodes_count := 0; sb_blocks_count_lo := 0; sb_r_blocks_count_lo := 0;
    sb_free_blocks_count_lo := 0; sb_free_inodes_count := 0; sb_first_data_block := 0;
    sb_log_block_size := 0; sb_log_cluster_size := 0; sb_blocks_per_group := 0;
    sb_clusters_per_group := 0; sb_inodes_per_group := 0; sb_mtime := 0; sb_wtime := 0;
    sb_mount_count := 0; sb_max_mount_count := 0; sb_magic := 0; sb_state := 0;
    sb_errors := 0; sb_minor_rev_level := 0; sb_lastcheck := 0; sb_check_interval := 0;
    sb_creator_os := 0; sb_rev_level := 0; sb_def_resuid := 0; sb_def_resgid := 0;
    sb_first_ino := 0; sb_inode_size := 0; sb_block_group_nr := 0; sb_feature_compat := 0;
    sb_feature_incompat := 0; sb_feature_ro_compat := 0; sb_uuid := zeros 16;
    sb_volume_name := zeros 16; sb_last_mounted := zeros 64;
    sb_algorithm_usage_bitmap := 0; sb_prealloc_blocks := 0; sb_prealloc_dir_blocks := 0;
    sb_reserved_gdt_blocks := 0; sb_journal_uuid := zeros 16; sb_journal_inum := 0;
    sb_journal_dev := 0; sb_last_orphan := 0; sb_hash_seed := zeros 4;
    sb_def_hash_version := 0; sb_journal_backup_type := 0; sb_desc_size := 0;
    sb_default_mount_opts := 0; sb_first_meta_bg := 0; sb_mkfs_time := 0;
    sb_journal_blocks := zeros 17; sb_blocks_count_hi := 0; sb_r_blocks_count_hi := 0;
    sb_free_blocks_count_hi := 0; sb_min_extra_isize := 0; sb_want_extra_isize := 0;
    sb_flags := 0; sb_raid_stride := 0; sb_mmp_interval := 0; sb_mmp_block := 0;
    sb_raid_stripe_width := 0; sb_log_groups_per_flex := 0; sb_checksum_type := 0;
    sb_reserved_pad := 0; sb_kbytes_written := 0; sb_snapshot_inum := 0;
    sb_snapshot_id := 0; sb_snapshot_r_blocks_count := 0; sb_snapshot_list := 0;
    sb_error_count := 0; sb_first_error_time := 0; sb_first_error_ino := 0;
    sb_first_error_block := 0; sb_first_error_func := zeros 32; sb_first_error_line := 0;
    sb_last_error_time := 0; sb_last_error_ino := 0; sb_last_error_line := 0;
    sb_last_error_block := 0; sb_last_error_func := zeros 32; sb_mount_opts := zeros 64;
    sb_usr_quota_inum := 0; sb_grp_quota_inum := 0; sb_overhead_blocks := 0;
    sb_backup_bgs := zeros 2; sb_encrypt_algos := zeros 4; sb_encrypt_pw_salt := zeros 16;
    sb_lpf_ino := 0; sb_prj_quota_inum := 0; sb_checksum_seed := 0; sb_wtime_hi := 0;
    sb_mtime_hi := 0; sb_mkfs_time_hi := 0; sb_lastcheck_hi := 0;
    sb_first_error_time_hi := 0; sb_last_error_time_hi := 0; sb_pad := zeros 2;
    sb_reserved := zeros 96; sb_checksum := 0
  |}.

(** A superblock with the fields the resizer and the builder reassign replaced. *)
Definition sb_put (inodes blocks free_blocks free_inodes state group_nr reserved_gdt : Z)
    (s : SuperBlock) : SuperBlock :=
  {|
    sb_inodes_count := inodes; sb_blocks_count_lo := blocks;
    sb_r_blocks_count_lo := sb_r_blocks_count_lo s; sb_free_blocks_count_lo := free_blocks;
    sb_free_inodes_count := free_inodes; sb_first_data_block := sb_first_data_block s;
    sb_log_block_size := sb_log_block_size s; sb_log_cluster_size := sb_log_cluster_size s;
    sb_blocks_per_group := sb_blocks_per_group s;
    sb_clusters_per_group := sb_clusters_per_group s;
    sb_inodes_per_group := sb_inodes_per_group s; sb_mtime := sb_mtime s; sb_wtime := sb_wtime s;
    sb_mount_count := sb_mount_count s; sb_max_mount_count := sb_max_mount_count s;
    sb_magic := sb_magic s; sb_state := state; sb_errors := sb_errors s;
    sb_minor_rev_level := sb_minor_rev_level s; sb_lastcheck := sb_lastcheck s;
    sb_check_interval := sb_check_interval s; sb_creator_os := sb_creator_os s;
    sb_rev_level := sb_rev_level s; sb_def_resuid := sb_def_resuid s;
    sb_def_resgid := sb_def_resgid s; sb_first_ino := sb_first_ino s;
    sb_inode_size := sb_inode_size s; sb_block_group_nr := group_nr;
    sb_feature_compat := sb_feature_compat s; sb_feature_incompat := sb_feature_incompat s;
    sb_feature_ro_compat := sb_feature_ro_compat s; sb_uuid := sb_uuid s;
    sb_volume_name := sb_volume_name s; sb_last_mounted := sb_last_mounted s;
    sb_algorithm_usage_bitmap := sb_algorithm_usage_bitmap s;
    sb_prealloc_blocks := sb_prealloc_blocks s;
    sb_prealloc_dir_blocks := sb_prealloc_dir_blocks s; sb_reserved_gdt_blocks := reserved_gdt;
    sb_journal_uuid := sb_journal_uuid s; sb_journal_inum := sb_journal_inum s;
    sb_journal_dev := sb_journal_dev s; sb_last_orphan := sb_last_orphan s;
    sb_hash_seed := sb_hash_seed s; sb_def_hash_version := sb_def_hash_version s;
    sb_journal_backup_type := sb_journal_backup_type s; sb_desc_size := sb_desc_size s;
    sb_default_mount_opts := sb_default_mount_opts s; sb_first_meta_bg := sb_first_meta_bg s;
    sb_mkfs_time := sb_mkfs_time s; sb_journal_blocks := sb_journal_blocks s;
    sb_blocks_count_hi := sb_blocks_count_hi s; sb_r_blocks_count_hi := sb_r_blocks_count_hi s;
    sb_free_blocks_count_hi := sb_free_blocks_count_hi s;
    sb_min_extra_isize := sb_min_extra_isize s; sb_want_extra_isize := sb_want_extra_isize s;
    sb_flags := sb_flags s; sb_raid_stride := sb_raid_stride s;
    sb_mmp_interval := sb_mmp_interval s; sb_mmp_block := sb_mmp_block s;
    sb_raid_stripe_width := sb_raid_stripe_width s;
    sb_log_groups_per_flex := sb_log_groups_per_flex s; sb_checksum_type := sb_checksum_type s;
    sb_reserved_pad := sb_reserved_pad s; sb_kbytes_written := sb_kbytes_written s;
    sb_snapshot_inum := sb_snapshot_inum s; sb_snapshot_id := sb_snapshot_id s;
    sb_snapshot_r_blocks_count := sb_snapshot_r_blocks_count s;
    sb_snapshot_list := sb_snapshot_list s; sb_error_count := sb_error_count s;
    sb_first_error_time := sb_first_error_time s; sb_first_error_ino := sb_first_error_ino s;
    sb_first_error_block := sb_first_error_block s; sb_first_error_func := sb_first_error_func s;
    sb_first_error_line := sb_first_error_line s; sb_last_error_time := sb_last_error_time s;
    sb_last_error_ino := sb_last_error_ino s; sb_last_error_line := sb_last_error_line s;
    sb_last_error_block := sb_last_error_block s; sb_last_error_func := sb_last_error_func s;
    sb_mount_opts := sb_mount_opts s; sb_usr_quota_inum := sb_usr_quota_inum s;
    sb_grp_quota_inum := sb_grp_quota_inum s; sb_overhead_blocks := sb_overhead_blocks s;
    sb_backup_bgs := sb_backup_bgs s; sb_encrypt_algos := sb_encrypt_algos s;
    sb_encrypt_pw_salt := sb_encrypt_pw_salt s; sb_lpf_ino := sb_lpf_ino s;
    sb_prj_quota_inum := sb_prj_quota_inum s; sb_checksum_seed := sb_checksum_seed s;
    sb_wtime_hi := sb_wtime_hi s; sb_mtime_hi := sb_mtime_hi s;
    sb_mkfs_time_hi := sb_mkfs_time_hi s; sb_lastcheck_hi := sb_lastcheck_hi s;
    sb_first_error_time_hi := sb_first_error_time_hi s;
    sb_last_error_time_hi := sb_last_error_time_hi s; sb_pad := sb_pad s;
    sb_reserved := sb_reserved s; sb_checksum := sb_checksum s
  |}.

Definition set_sb_state (v : Z) (s : SuperBlock) : SuperBlock :=
  sb_put (sb_inodes_count s) (sb_blocks_count_lo s) (sb_free_blocks_count_lo s)
    (sb_free_inodes_count s) v (sb_block_group_nr s) (sb_reserved_gdt_blocks s) s.

Definition set_sb_block_group_nr (v : Z) (s : SuperBlock) : SuperBlock :=
  sb_put (sb_inodes_count s) (sb_blocks_count_lo s) (sb_free_blocks_count_lo s)
    (sb_free_inodes_count s) (sb_state s) v (sb_reserved_gdt_blocks s) s.

Lemma sb_put_wf ic bl fb fi st gn rg sb :
  is_u32 ic -> is_u32 bl -> is_u32 fb -> is_u32 fi -> is_u16 st -> is_u16 gn -> is_u16 rg ->
  SuperBlock_wf sb -> SuperBlock_wf (sb_put ic bl fb fi st gn rg sb).
Proof.
  intros ? ? ? ? ? ? ? Hwf. unfold SuperBlock_wf in *. destruct_and! Hwf. unfold sb_put. split_and!; done.
Qed.

Definition Inode_default : Inode :=
  {|
    i_mode := 0; i_uid := 0; i_size_lo := 0; i_atime := 0; i_ctime := 0; i_mtime := 0;
    i_dtime := 0; i_gid := 0; i_links_count := 0; i_blocks_lo := 0; i_flags := 0;
    i_version := 0; i_block := zeros 60; i_generation := 0; i_xattr_block_lo := 0;
    i_size_hi := 0; i_obsolete_fragment_addr := 0; i_blocks_hi := 0; i_xattr_block_hi := 0;
    i_uid_hi := 0; i_gid_hi := 0; i_checksum_lo := 0; i_reserved := 0; i_extra_isize := 0;
    i_checksum_hi := 0; i_ctime_extra := 0; i_mtime_extra := 0; i_atime_extra := 0;
    i_crtime := 0; i_crtime_extra := 0; i_version_hi := 0; i_projid := 0;
    i_inline_xattrs := zeros 96
  |}.

(** ** Timestamps *)

(** [timestamp_now]: the clock reading (seconds and nanoseconds since the
    epoch) is the argument. *)
Definition timestamp_now (secs nanos : Z) : Z * Z :=
  let lo := u32 secs in
  let epoch_bits := u32 (Z.land (Z.shiftr secs 32) 0x3) in
  let extra := Z.lor epoch_bits (u32 (Z.shiftl nanos 2)) in
  (lo, extra).

(** ** Inode helpers *)

(** Assignments [inode.f = v]. *)
Definition set_i_mode (v : Z) (s : Inode) : Inode :=
  let 'mkInode _ u sl at_ ct mt dt g lc bl fl ve bk ge xl sh oa bh xh uh
    gh cl re ei ch ce me ae cr cre vh pj ix := s in
  mkInode v u sl at_ ct mt dt g lc bl fl ve bk ge xl sh oa bh xh uh
    gh cl re ei ch ce me ae cr cre vh pj ix.
Definition set_i_uid (v : Z) (s : Inode) : Inode :=
  let 'mkInode m _ sl at_ ct mt dt g lc bl fl ve bk ge xl sh oa bh xh uh
    gh cl re ei ch ce me ae cr cre vh pj ix := s in
  mkInode m v sl at_ ct mt dt g lc bl fl ve bk ge xl sh oa bh xh uh
    gh cl re ei ch ce me ae cr cre vh pj ix.
Definition set_i_size_lo (v : Z) (s : Inode) : Inode :=
  let 'mkInode m u _ at_ ct mt dt g lc bl fl ve bk ge xl sh oa bh xh uh
    gh cl re ei ch ce me ae cr cre vh pj ix := s in
  mkInode m u v at_ ct mt dt g lc bl fl ve bk ge xl sh oa bh xh uh
    gh cl re ei ch ce me ae cr cre vh pj ix.
Definition set_i_atime (v : Z) (s : Inode) : Inode :=
  let 'mkInode m u sl _ ct mt dt g lc bl fl ve bk ge xl sh oa bh xh uh
    gh cl re ei ch ce me ae cr cre vh pj ix := s in
  mkInode m u sl v ct mt dt g lc bl fl ve bk ge xl sh oa bh xh uh
    gh cl re ei ch ce me ae cr cre vh pj ix.
Definition set_i_ctime (v : Z) (s : Inode) : Inode :=
  let 'mkInode m u sl at_ _ mt dt g lc bl fl ve bk ge xl sh oa bh xh uh
    gh cl re ei ch ce me ae cr cre vh pj ix := s in
  mkInode m u sl at_ v mt dt g lc bl fl ve bk ge xl sh oa bh xh uh
    gh cl re ei ch ce me ae cr cre vh pj ix.
Definition set_i_mtime (v : Z) (s : Inode) : Inode :=
  let 'mkInode m u sl at_ ct _ dt g lc bl fl ve bk ge xl sh oa bh xh uh
    gh cl re ei ch ce me ae cr cre vh pj ix := s in
  mkInode m u sl at_ ct v dt g lc bl fl ve bk ge xl sh oa bh xh uh
    gh cl re ei ch ce me ae cr cre vh pj ix.
Definition set_i_dtime (v : Z) (s : Inode) : Inode :=
  let 'mkInode m u sl at_ ct mt _ g lc bl fl ve bk ge xl sh oa bh xh uh
    gh cl re ei ch ce me ae cr cre vh pj ix := s in
  mkInode m u sl at_ ct mt v g lc bl fl ve bk ge xl sh oa bh xh uh
    gh cl re ei ch ce me ae cr cre vh pj ix.
Definition set_i_gid (v : Z) (s : Inode) : Inode :=
  let 'mkInode m u sl at_ ct mt dt _ lc bl fl ve bk ge xl sh oa bh xh uh
    gh cl re ei ch ce me ae cr cre vh pj ix := s in
  mkInode m u sl at_ ct mt dt v lc bl fl ve bk ge xl sh oa bh xh uh
    gh cl re ei ch ce me ae cr cre vh pj ix.
Definition set_i_links_count (v : Z) (s : Inode) : Inode :=
  let 'mkInode m u sl at_ ct mt dt g _ bl fl ve bk ge xl sh oa bh xh uh
    gh cl re ei ch ce me ae cr cre vh pj ix := s in
  mkInode m u sl at_ ct mt dt g v bl fl ve bk ge xl sh oa bh xh uh
    gh cl re ei ch ce me ae cr cre vh pj ix.
Definition set_i_blocks_lo (v : Z) (s : Inode) : Inode :=
  let 'mkInode m u sl at_ ct mt dt g lc _ fl ve bk ge xl sh oa bh xh uh
    gh cl re ei ch ce me ae cr cre vh pj ix := s in
  mkInode m u sl at_ ct mt dt g lc v fl ve bk ge xl sh oa bh xh uh
    gh cl re ei ch ce me ae cr cre vh pj ix.
Definition set_i_flags (v : Z) (s : Inode) : Inode :=
  let 'mkInode m u sl at_ ct mt dt g lc bl _ ve bk ge xl sh oa bh xh uh
    gh cl re ei ch ce me ae cr cre vh pj ix := s in
  mkInode m u sl at_ ct mt dt g lc bl v ve bk ge xl sh oa bh xh uh
    gh cl re ei ch ce me ae cr cre vh pj ix.
Definition set_i_block (v : list Z) (s : Inode) : Inode :=
  let 'mkInode m u sl at_ ct mt dt g lc bl fl ve _ ge xl sh oa bh xh uh
    gh cl re ei ch ce me ae cr cre vh pj ix := s in
  mkInode m u sl at_ ct mt dt g lc bl fl ve v ge xl sh oa bh xh uh
    gh cl re ei ch ce me ae cr cre vh pj ix.
Definition set_i_xattr_block_lo (v : Z) (s : Inode) : Inode :=
  let 'mkInode m u sl at_ ct mt dt g lc bl fl ve bk ge _ sh oa bh xh uh
    gh cl re ei ch ce me ae cr cre vh pj ix := s in
  mkInode m u sl at_ ct mt dt g lc bl fl ve bk ge v sh oa bh xh uh
    gh cl re ei ch ce me ae cr cre vh pj ix.
Definition set_i_size_hi (v : Z) (s : Inode) : Inode :=
  let 'mkInode m u sl at_ ct mt dt g lc bl fl ve bk ge xl _ oa bh xh uh
    gh cl re ei ch ce me ae cr cre vh pj ix := s in
  mkInode m u sl at_ ct mt dt g lc bl fl ve bk ge xl v oa bh xh uh
    gh cl re ei ch ce me ae cr cre vh pj ix.
Definition set_i_uid_hi (v : Z) (s : Inode) : Inode :=
  let 'mkInode m u sl at_ ct mt dt g lc bl fl ve bk ge xl sh oa bh xh _
    gh cl re ei ch ce me ae cr cre vh pj ix := s in
  mkInode m u sl at_ ct mt dt g lc bl fl ve bk ge xl sh oa bh xh v
    gh cl re ei ch ce me ae cr cre vh pj ix.
Definition set_i_gid_hi (v : Z) (s : Inode) : Inode :=
  let 'mkInode m u sl at_ ct mt dt g lc bl fl ve bk ge xl sh oa bh xh uh
    _ cl re ei ch ce me ae cr cre vh pj ix := s in
  mkInode m u sl at_ ct mt dt g lc bl fl ve bk ge xl sh oa bh xh uh
    v cl re ei ch ce me ae cr cre vh pj ix.
Definition set_i_extra_isize (v : Z) (s : Inode) : Inode :=
  let 'mkInode m u sl at_ ct mt dt g lc bl fl ve bk ge xl sh oa bh xh uh
    gh cl re _ ch ce me ae cr cre vh pj ix := s in
  mkInode m u sl at_ ct mt dt g lc bl fl ve bk ge xl sh oa bh xh uh
    gh cl re v ch ce me ae cr cre vh pj ix.
Definition set_i_ctime_extra (v : Z) (s : Inode) : Inode :=
  let 'mkInode m u sl at_ ct mt dt g lc bl fl ve bk ge xl sh oa bh xh uh
    gh cl re ei ch _ me ae cr cre vh pj ix := s in
  mkInode m u sl at_ ct mt dt g lc bl fl ve bk ge xl sh oa bh xh uh
    gh cl re ei ch v me ae cr cre vh pj ix.
Definition set_i_mtime_extra (v : Z) (s : Inode) : Inode :=
  let 'mkInode m u sl at_ ct mt dt g lc bl fl ve bk ge xl sh oa bh xh uh
    gh cl re ei ch ce _ ae cr cre vh pj ix := s in
  mkInode m u sl at_ ct mt dt g lc bl fl ve bk ge xl sh oa bh xh uh
    gh cl re ei ch ce v ae cr cre vh pj ix.
Definition set_i_atime_extra (v : Z) (s : Inode) : Inode :=
  let 'mkInode m u sl at_ ct mt dt g lc bl fl ve bk ge xl sh oa bh xh uh
    gh cl re ei ch ce me _ cr cre vh pj ix := s in
  mkInode m u sl at_ ct mt dt g lc bl fl ve bk ge xl sh oa bh xh uh
    gh cl re ei ch ce me v cr cre vh pj ix.
Definition set_i_crtime (v : Z) (s : Inode) : Inode :=
  let 'mkInode m u sl at_ ct mt dt g lc bl fl ve bk ge xl sh oa bh xh uh
    gh cl re ei ch ce me ae _ cre vh pj ix := s in
  mkInode m u sl at_ ct mt dt g lc bl fl ve bk ge xl sh oa bh xh uh
    gh cl re ei ch ce me ae v cre vh pj ix.
Definition set_i_crtime_extra (v : Z) (s : Inode) : Inode :=
  let 'mkInode m u sl at_ ct mt dt g lc bl fl ve bk ge xl sh oa bh xh uh
    gh cl re ei ch ce me ae cr _ vh pj ix := s in
  mkInode m u sl at_ ct mt dt g lc bl fl ve bk ge xl sh oa bh xh uh
    gh cl re ei ch ce me ae cr v vh pj ix.
Definition set_i_inline_xattrs (v : list Z) (s : Inode) : Inode :=
  let 'mkInode m u sl at_ ct mt dt g lc bl fl ve bk ge xl sh oa bh xh uh
    gh cl re ei ch ce me ae cr cre vh pj _ := s in
  mkInode m u sl at_ ct mt dt g lc bl fl ve bk ge xl sh oa bh xh uh
    gh cl re ei ch ce me ae cr cre vh pj v.

Definition set_file_size (size : Z) (s : Inode) : Inode :=
  set_i_size_hi (u32 (Z.shiftr size 32)) (set_i_size_lo (u32 size) s).

Definition file_size (s : Inode) : Z :=
  Z.lor (i_size_lo s) (u64 (Z.shiftl (i_size_hi s) 32)).

Definition uid_full (s : Inode) : Z :=
  Z.lor (i_uid s) (u32 (Z.shiftl (i_uid_hi s) 16)).

Definition gid_full (s : Inode) : Z :=
  Z.lor (i_gid s) (u32 (Z.shiftl (i_gid_hi s) 16)).

Definition set_uid (uid : Z) (s : Inode) : Inode :=
  set_i_uid_hi (u16 (Z.shiftr uid 16)) (set_i_uid (u16 uid) s).

Definition set_gid (gid : Z) (s : Inode) : Inode :=
  set_i_gid_hi (u16 (Z.shiftr gid 16)) (set_i_gid (u16 gid) s).

(** The clock fields every constructor sets to one instant. *)
Definition set_times (lo extra : Z) (s : Inode) : Inode :=
  set_i_crtime_extra extra (set_i_mtime_extra extra (set_i_ctime_extra extra
    (set_i_atime_extra extra (set_i_crtime lo (set_i_mtime lo (set_i_ctime lo
      (set_i_atime lo s))))))).

Definition root_inode (secs nanos : Z) : Inode :=
  let '(time_lo, time_extra) := timestamp_now secs nanos in
  set_times time_lo time_extra (set_i_extra_isize EXTRA_ISIZE
    (set_i_flags inode_flag_HUGE_FILE (set_i_links_count 2
      (set_i_mode (Z.lor S_IFDIR 0x1ED (* 0o755 *)) Inode_default)))).

Definition ExtentLeaf_start (s : ExtentLeaf) : Z :=
  Z.lor (el_start_lo s) (Z.shiftl (el_start_hi s) 32).

Definition ExtentIndex_leaf (s : ExtentIndex) : Z :=
  Z.lor (ei_leaf_lo s) (Z.shiftl (ei_leaf_hi s) 32).

Lemma u32_array_sized off n vs : Forall field_sized (u32_array off n vs).
Proof. unfold u32_array. apply Forall_fmap, Forall_true. done. Qed.

(** The record laws of a struct, from its layout. *)
Ltac sized_fields :=
  repeat (apply Forall_app; split);
  first [ apply u32_array_sized
        | repeat (apply Forall_cons; [hnf; first [exact I | by eapply proj1]|]); apply Forall_nil ].

Ltac read_back Hlay :=
  lazymatch goal with
  | |- get_u32_array _ _ _ = _ =>
      eapply get_u32_array_field;
      [ apply Hlay | assumption | assumption | repeat constructor | assumption ]
  | |- _ =>
      solve_field; [ apply Hlay | assumption | assumption | reflexivity | .. ]; assumption
  end.

Ltac in_range :=
  first [ apply get_u8_range | apply get_u16_range | apply get_u32_range | apply get_u64_range
        | apply get_bytes_range | apply get_u32_array_range ]; solve [assumption | lia].

Ltac record_laws A fields base read wf :=
  let size := eval vm_compute in (rec_size A) in
  let Hlay := fresh "Hlay" in let Hsz := fresh "Hsz" in let Hwf := fresh "Hwf" in
  assert (forall a, layout_ok size (fields a) = true) as Hlay
    by (intros a; vm_compute; reflexivity);
  assert (forall a, wf a -> Forall field_sized (fields a)) as Hsz
    by (intros a Hwf; unfold wf in Hwf; destruct_and? Hwf; unfold fields; sized_fields);
  apply (layout_laws fields base);
  [ first [left; reflexivity | right; reflexivity]
  | reflexivity
  | reflexivity
  | exact Hlay
  | exact Hsz
  | intros a buf Hwf Hl; change (wf a) in Hwf; change (size <= zlen buf) in Hl;
    pose proof (Hsz a Hwf); specialize (Hlay a); change (read (put_fields (fields a) buf) = a);
    destruct a; unfold wf in Hwf; destruct_and? Hwf; unfold read; f_equal; read_back Hlay
  | intros buf Hl; change (size <= zlen buf) in Hl;
    change (read buf = read (sub_bytes buf 0 size)); unfold read; f_equal; solve_local
  | intros buf Hb Hl; change (size <= zlen buf) in Hl; change (wf (read buf));
    unfold wf, read; split_and?; in_range ].

(** ** Record laws *)

#[global] Instance SuperBlock_laws : DiskRecordLaws SuperBlock.
Proof.
  record_laws SuperBlock SuperBlock_fields (zero_fill 1024) SuperBlock_read_from SuperBlock_wf.
Qed.

#[global] Instance GroupDescriptor_laws : DiskRecordLaws GroupDescriptor.
Proof.
  record_laws GroupDescriptor GroupDescriptor_fields (zero_fill 32) GroupDescriptor_read_from GroupDescriptor_wf.
Qed.

#[global] Instance Inode_laws : DiskRecordLaws Inode.
Proof.
  record_laws Inode Inode_fields (zero_fill 256) Inode_read_from Inode_wf.
Qed.

#[global] Instance ExtentHeader_laws : DiskRecordLaws ExtentHeader.
Proof.
  record_laws ExtentHeader ExtentHeader_fields (@id (list Z)) ExtentHeader_read_from ExtentHeader_wf.
Qed.

#[global] Instance ExtentLeaf_laws : DiskRecordLaws ExtentLeaf.
Proof.
  record_laws ExtentLeaf ExtentLeaf_fields (@id (list Z)) ExtentLeaf_read_from ExtentLeaf_wf.
Qed.

#[global] Instance ExtentIndex_laws : DiskRecordLaws ExtentIndex.
Proof.
  record_laws ExtentIndex ExtentIndex_fields (@id (list Z)) ExtentIndex_read_from ExtentIndex_wf.
Qed.

#[global] Instance ExtentTail_laws : DiskRecordLaws ExtentTail.
Proof.
  record_laws ExtentTail ExtentTail_fields (@id (list Z)) ExtentTail_read_from ExtentTail_wf.
Qed.

#[global] Instance DirectoryEntry_laws : DiskRecordLaws DirectoryEntry.
Proof.
  record_laws DirectoryEntry DirectoryEntry_fields (@id (list Z)) DirectoryEntry_read_from DirectoryEntry_wf.
Qed.

#[global] Instance XAttrEntry_laws : DiskRecordLaws XAttrEntry.
Proof.
  record_laws XAttrEntry XAttrEntry_fields (@id (list Z)) XAttrEntry_read_from XAttrEntry_wf.
Qed.

#[global] Arguments SuperBlock_read_from : simpl never.
#[global] Arguments SuperBlock_write_to : simpl never.
#[global] Arguments GroupDescriptor_read_from : simpl never.
#[global] Arguments GroupDescriptor_write_to : simpl never.
#[global] Arguments Inode_read_from : simpl never.
#[global] Arguments Inode_write_to : simpl never.
#[global] Arguments ExtentHeader_read_from : simpl never.
#[global] Arguments ExtentHeader_write_to : simpl never.
#[global] Arguments ExtentLeaf_read_from : simpl never.
#[global] Arguments ExtentLeaf_write_to : simpl never.
#[global] Arguments ExtentIndex_read_from : simpl never.
#[global] Arguments ExtentIndex_write_to : simpl never.
#[global] Arguments ExtentTail_read_from : simpl never.
#[global] Arguments ExtentTail_write_to : simpl never.
#[global] Arguments DirectoryEntry_read_from : simpl never.
#[global] Arguments DirectoryEntry_write_to : simpl never.
#[global] Arguments XAttrEntry_read_from : simpl never.
#[global] Arguments XAttrEntry_write_to : simpl never.

(** ** Superblocks through a buffer *)

Lemma SuperBlock_read_write s buf : SuperBlock_wf s -> 1024 <= zlen buf -> SuperBlock_read_from (SuperBlock_write_to s buf) = s.
Proof. intros Hwf Hl. change (read_from (write_to s buf) = s). by apply read_write. Qed.

Lemma zlen_SuperBlock_write s buf : zlen (SuperBlock_write_to s buf) = zlen buf.
Proof. change (zlen (write_to s buf) = zlen buf). apply zlen_write_to. Qed.

(** ** Theorems *)

Section SplitWords.
(** A value split into a low and a high part is put together again. *)
Lemma lor_split w v :
  0 <= w -> 0 <= v -> Z.lor (v mod 2 ^ w) (Z.shiftl (Z.shiftr v w) w) = v.
Proof.
  intros Hw Hv. apply Z.bits_inj'. intros n Hn.
  rewrite Z.lor_spec, Z.shiftl_spec by lia.
  destruct (Z.ltb_spec n w).
  - rewrite Z.mod_pow2_bits_low by lia.
    rewrite (Z.testbit_neg_r _ (n - w)) by lia. apply orb_false_r.
  - rewrite Z.mod_pow2_bits_high, Z.shiftr_spec by lia. simpl. f_equal. lia.
Qed.

Lemma shiftr_range w k v : 0 <= w -> 0 <= k -> 0 <= v < 2 ^ (w + k) -> 0 <= Z.shiftr v w < 2 ^ k.
Proof.
  intros. rewrite Z.shiftr_div_pow2 by lia. rewrite Z.pow_add_r in * by lia.
  split; [apply Z.div_pos|apply Z.div_lt_upper_bound]; lia.
Qed.

Lemma shiftl_shiftr_range w k v :
  0 <= w -> 0 <= k -> 0 <= v < 2 ^ (w + k) -> 0 <= Z.shiftl (Z.shiftr v w) w < 2 ^ (w + k).
Proof.
  intros Hw Hk Hv. pose proof (shiftr_range w k v Hw Hk Hv).
  rewrite Z.shiftl_mul_pow2 by lia. rewrite Z.pow_add_r by lia. nia.
Qed.
End SplitWords.

Lemma file_size_set n s : is_u64 n -> file_size (set_file_size n s) = n.
Proof.
  intros Hn. destruct s. unfold file_size, set_file_size. simpl.
  pose proof (shiftr_range 32 32 n ltac:(lia) ltac:(lia) Hn).
  rewrite (u32_small (Z.shiftr n 32)) by done.
  rewrite u64_small by (apply (shiftl_shiftr_range 32 32); done).
  apply (lor_split 32); unfold is_u64 in Hn; lia.
Qed.

Lemma split_u32 v : is_u32 v ->
  Z.lor (u16 v) (u32 (Z.shiftl (u16 (Z.shiftr v 16)) 16)) = v.
Proof.
  intros Hv. pose proof (shiftr_range 16 16 v ltac:(lia) ltac:(lia) Hv).
  rewrite (u16_small (Z.shiftr v 16)) by done.
  rewrite u32_small by (apply (shiftl_shiftr_range 16 16); done).
  apply (lor_split 16); unfold is_u32 in Hv; lia.
Qed.

Lemma uid_full_set n s : is_u32 n -> uid_full (set_uid n s) = n.
Proof. destruct s. apply split_u32. Qed.

Lemma gid_full_set n s : is_u32 n -> gid_full (set_gid n s) = n.
Proof. destruct s. apply split_u32. Qed.

(** ** Properties *)

(** What a round trip through the disk means for a struct: a value in range
    reads back from any buffer it was written to, the write touches no byte
    past the struct, and any bytes whatever decode to a value in range. *)
Definition disk_roundtrip (A : Type) `{DiskRecord A} : Prop :=
  (forall (a : A) buf, rec_wf a -> rec_size A <= zlen buf ->
     read_from (write_to a buf) = a /\
     forall off n, rec_size A <= off -> 0 <= n -> sub_bytes (write_to a buf) off n = sub_bytes buf off n) /\
  (forall buf, Forall is_u8 buf -> rec_size A <= zlen buf -> rec_wf (read_from buf : A)).

Lemma disk_roundtrip_laws (A : Type) `{DiskRecordLaws A} : disk_roundtrip A.
Proof.
  split; [|apply read_from_wf]. intros a buf Hwf Hl. split; [by apply read_write|].
  intros off n Ho Hn. by apply write_to_frame.
Qed.

(** C40: [SuperBlock::write_to] and [SuperBlock::read_from] are inverse on every
    superblock whose fields are in range: all 1024 bytes of layout agree. *)
Theorem superblock_roundtrip : disk_roundtrip SuperBlock.
Proof. apply disk_roundtrip_laws, SuperBlock_laws. Qed.

(** Group descriptors and inodes survive the trip to disk and back, field by
    field, whatever the buffer held before. *)
Theorem inode_and_descriptor_roundtrip : disk_roundtrip GroupDescriptor /\ disk_roundtrip Inode.
Proof. split; [apply disk_roundtrip_laws, GroupDescriptor_laws|apply disk_roundtrip_laws, Inode_laws]. Qed.

(** Extent tree records, directory entry headers and attribute entry
    headers survive the trip to disk and back; [read_from] and [write_to] agree
    on every offset. *)
Theorem small_records_roundtrip :
  disk_roundtrip ExtentHeader /\ disk_roundtrip ExtentLeaf /\ disk_roundtrip ExtentIndex /\
  disk_roundtrip ExtentTail /\ disk_roundtrip DirectoryEntry /\ disk_roundtrip XAttrEntry.
Proof.
  split_and!; [apply disk_roundtrip_laws, ExtentHeader_laws|apply disk_roundtrip_laws, ExtentLeaf_laws
    |apply disk_roundtrip_laws, ExtentIndex_laws|apply disk_roundtrip_laws, ExtentTail_laws
    |apply disk_roundtrip_laws, DirectoryEntry_laws|apply disk_roundtrip_laws, XAttrEntry_laws].
Qed.

(** The split fields of an inode are consistent: a 64-bit size and 32-bit
    owner and group ids set through the helpers are read back in full, and
    setting one of them leaves the others alone. *)
Theorem inode_split_fields (s : Inode) (size uid gid : Z)
    (Hs : is_u64 size) (Hu : is_u32 uid) (Hg : is_u32 gid) :
  let s' := set_gid gid (set_uid uid (set_file_size size s)) in
  file_size s' = size /\ uid_full s' = uid /\ gid_full s' = gid.
Proof.
  cbv zeta. split_and!.
  - rewrite <- (file_size_set size s) at 2 by done. by destruct s.
  - rewrite <- (uid_full_set uid (set_file_size size s)) at 2 by done. by destruct s.
  - by apply gid_full_set.
Qed.

