(* ===== verification/Checksum.v ===== *)
(** CRC-16 and the group descriptor checksum of
    [common/disk-image/src/ext4/checksum.rs].

    The register is a 16-bit [Z].  The section on linearity shows that one bit
    step is a linear bijection of the register, from which the checksum detects
    every change confined to two adjacent bytes. *)

From S2P Require Import Prelude Bytes Types.

(** One turn of the inner loop. *)
Definition crc16_bit (crc : Z) : Z :=
  if negb (Z.land crc 1 =? 0) then Z.lxor (Z.shiftr crc 1) 0xA001 else Z.shiftr crc 1.

(** One byte: [crc ^= b], then eight bit steps. *)
Definition crc16_byte (crc b : Z) : Z := Nat.iter 8 crc16_bit (Z.lxor crc b).

Definition crc16 (crc : Z) (buf : list Z) : Z := fold_left crc16_byte buf crc.

(** [checksum::group_descriptor]. *)
Definition group_descriptor (uuid : list Z) (group_nr : Z) (gd : GroupDescriptor) : Z :=
  let tmp := GroupDescriptor_write_to gd (zeros 32) in
  let crc := crc16 0xFFFF uuid in
  let crc := crc16 crc (le_bytes 4 group_nr) in
  crc16 crc (sub_bytes tmp 0 0x1E).

Definition set_gd_checksum (c : Z) (gd : GroupDescriptor) : GroupDescriptor :=
  let 'mkGroupDescriptor bb ib it fb fi ud fl eb bc ic iu _ := gd in
  mkGroupDescriptor bb ib it fb fi ud fl eb bc ic iu c.

(** The published check vector of CRC-16/ARC. *)
Example crc16_check_vector : crc16 0 [0x31; 0x32; 0x33; 0x34; 0x35; 0x36; 0x37; 0x38; 0x39] = 0xBB3D.
Proof. vm_compute. reflexivity. Qed.

(** ** The bit step is a linear bijection *)

Section BitStep.
Implicit Types a b : Z.

Lemma land_1_testbit a : negb (Z.land a 1 =? 0) = Z.testbit a 0.
Proof.
  change 1 with (Z.ones 1). rewrite Z.land_ones by lia. change (2 ^ 1) with 2.
  rewrite Zmod_odd, Z.bit0_odd. by destruct (Z.odd a).
Qed.

Lemma crc16_bit_lxor a b : crc16_bit (Z.lxor a b) = Z.lxor (crc16_bit a) (crc16_bit b).
Proof.
  unfold crc16_bit. rewrite !land_1_testbit, Z.lxor_spec, Z.shiftr_lxor.
  destruct (Z.testbit a 0), (Z.testbit b 0); simpl; apply Z.bits_inj'; intros n _;
    rewrite ?Z.lxor_spec; repeat (destruct (Z.testbit _ n)); reflexivity.
Qed.

Lemma is_u16_bits a : is_u16 a <-> 0 <= a /\ forall n, 16 <= n -> Z.testbit a n = false.
Proof. by apply (bits_below 16). Qed.

Lemma lxor_u16 a b : is_u16 a -> is_u16 b -> is_u16 (Z.lxor a b).
Proof. by apply (lxor_below 16). Qed.

Lemma shiftr_u16 a n : is_u16 a -> 0 <= n -> is_u16 (Z.shiftr a n).
Proof. intros Ha Hn. by apply (shiftr_below 16). Qed.

Lemma crc16_bit_range a : is_u16 a -> is_u16 (crc16_bit a).
Proof.
  intros. unfold crc16_bit. case_match; [|by apply shiftr_u16].
  apply lxor_u16; [by apply shiftr_u16|]. by vm_compute.
Qed.

(** Bit 15 of the result tells which branch was taken, so only 0 maps to 0. *)
Lemma crc16_bit_zero a : is_u16 a -> crc16_bit a = 0 -> a = 0.
Proof.
  rewrite is_u16_bits. intros [H0 Ha] E.
  assert (forall n, Z.testbit (crc16_bit a) n = false) as Eb by (intros; rewrite E; apply Z.bits_0).
  unfold crc16_bit in Eb. rewrite land_1_testbit in Eb.
  destruct (Z.testbit a 0) eqn:B0.
  - specialize (Eb 15). rewrite Z.lxor_spec, Z.shiftr_spec in Eb by lia.
    simpl (15 + 1) in Eb. rewrite Ha in Eb by lia. discriminate.
  - apply Z.bits_inj'. intros n Hn. rewrite Z.bits_0.
    destruct (decide (n = 0)) as [->|]; [done|].
    specialize (Eb (n - 1)). rewrite Z.shiftr_spec in Eb by lia.
    by replace (n - 1 + 1) with n in Eb by lia.
Qed.

Lemma crc16_bits_lxor k a b :
  Nat.iter k crc16_bit (Z.lxor a b) = Z.lxor (Nat.iter k crc16_bit a) (Nat.iter k crc16_bit b).
Proof. induction k; simpl; [done|]. by rewrite IHk, crc16_bit_lxor. Qed.

Lemma crc16_bits_range k a : is_u16 a -> is_u16 (Nat.iter k crc16_bit a).
Proof. intros. induction k; simpl; [done|]. by apply crc16_bit_range. Qed.

Lemma crc16_bits_zero k a : is_u16 a -> Nat.iter k crc16_bit a = 0 -> a = 0.
Proof.
  intros Ha. induction k; simpl; [done|]. intros E.
  apply IHk, crc16_bit_zero; [by apply crc16_bits_range|done].
Qed.

Lemma crc16_bits_inj k a b :
  is_u16 a -> is_u16 b -> Nat.iter k crc16_bit a = Nat.iter k crc16_bit b -> a = b.
Proof.
  intros Ha Hb E. apply Z.lxor_eq. apply (crc16_bits_zero k); [by apply lxor_u16|].
  by rewrite crc16_bits_lxor, E, Z.lxor_nilpotent.
Qed.
End BitStep.

(** ** Messages *)

Section Messages.
Implicit Types (c b : Z) (buf : list Z).

Lemma is_u8_u16 b : is_u8 b -> is_u16 b.
Proof. unfold is_u8, is_u16. lia. Qed.

Lemma crc16_byte_range c b : is_u16 c -> is_u8 b -> is_u16 (crc16_byte c b).
Proof. intros. apply crc16_bits_range, lxor_u16; [done|by apply is_u8_u16]. Qed.

Lemma crc16_range c buf : is_u16 c -> Forall is_u8 buf -> is_u16 (crc16 c buf).
Proof.
  intros Hc Hb. revert c Hc. induction Hb as [|b buf Hb _ IH]; intros c Hc; simpl; [done|].
  apply IH. by apply crc16_byte_range.
Qed.

Lemma crc16_app c buf1 buf2 : crc16 c (buf1 ++ buf2) = crc16 (crc16 c buf1) buf2.
Proof. apply fold_left_app. Qed.

(** Different registers stay different over the same bytes. *)
Lemma crc16_register_inj c c' buf :
  is_u16 c -> is_u16 c' -> Forall is_u8 buf -> crc16 c buf = crc16 c' buf -> c = c'.
Proof.
  intros Hc Hc' Hb. revert c c' Hc Hc'.
  induction Hb as [|b buf Hb _ IH]; intros c c' Hc Hc'; simpl; [done|]. intros E.
  apply IH in E; [|by apply crc16_byte_range..].
  apply crc16_bits_inj in E; [|apply lxor_u16; auto using is_u8_u16..].
  apply (f_equal (fun x => Z.lxor x b)) in E.
  by rewrite !Z.lxor_assoc, !Z.lxor_nilpotent, !Z.lxor_0_r in E.
Qed.

(** Eight steps shift a register with an empty low byte down. *)
Lemma crc16_bit_shiftl b k : 0 <= k -> crc16_bit (Z.shiftl b (k + 1)) = Z.shiftl b k.
Proof.
  intros Hk. unfold crc16_bit. rewrite land_1_testbit, Z.shiftl_spec_low by lia. simpl.
  rewrite Z.shiftr_shiftl_l by lia. f_equal. lia.
Qed.

Lemma crc16_bits_shiftl b k : Nat.iter k crc16_bit (Z.shiftl b (Z.of_nat k)) = b.
Proof.
  revert b. induction k as [|k IH]; intros b; [apply Z.shiftl_0_r|].
  rewrite Nat.iter_succ_r. replace (Z.of_nat (S k)) with (Z.of_nat k + 1) by lia.
  rewrite crc16_bit_shiftl by lia. apply IH.
Qed.

(** Two bytes are sixteen steps of the register xored with the 16-bit word. *)
Lemma crc16_two_bytes c b0 b1 :
  crc16 c [b0; b1] = Nat.iter 16 crc16_bit (Z.lxor c (Z.lxor b0 (Z.shiftl b1 8))).
Proof.
  unfold crc16, fold_left, crc16_byte. rewrite <- (crc16_bits_shiftl b1 8) at 1.
  rewrite <- crc16_bits_lxor, <- Nat.iter_add. by rewrite Z.lxor_assoc.
Qed.

Lemma shiftl8_u16 b : is_u8 b -> is_u16 (Z.shiftl b 8).
Proof. unfold is_u8, is_u16. rewrite Z.shiftl_mul_pow2 by lia. lia. Qed.

Lemma word_inj b0 b1 b0' b1' :
  is_u8 b0 -> is_u8 b1 -> is_u8 b0' -> is_u8 b1' ->
  Z.lxor b0 (Z.shiftl b1 8) = Z.lxor b0' (Z.shiftl b1' 8) -> b0 = b0' /\ b1 = b1'.
Proof.
  assert (forall b k, is_u8 b -> 8 <= k -> Z.testbit b k = false) as Hhigh.
  { intros b k Hb Hk. rewrite <- (Z.mod_small b (2 ^ 8)) by exact Hb.
    by apply Z.mod_pow2_bits_high. }
  intros H0 H1 H0' H1' E.
  assert (forall k, Z.testbit (Z.lxor b0 (Z.shiftl b1 8)) k
                    = Z.testbit (Z.lxor b0' (Z.shiftl b1' 8)) k) as Eb by (by rewrite E).
  split; apply Z.bits_inj'; intros k Hk.
  - specialize (Eb k). rewrite !Z.lxor_spec in Eb. destruct (Z_lt_le_dec k 8).
    + by rewrite !(Z.shiftl_spec_low _ 8), !xorb_false_r in Eb by lia.
    + by rewrite !Hhigh by done.
  - specialize (Eb (k + 8)). rewrite !Z.lxor_spec, !Z.shiftl_spec in Eb by lia.
    by rewrite (Hhigh b0), (Hhigh b0'), !xorb_false_l, !Z.add_simpl_r in Eb by (done || lia).
Qed.

(** Two messages that differ inside one pair of adjacent bytes have different
    checksums. *)
Lemma crc16_burst c pre post b0 b1 b0' b1' :
  is_u16 c -> Forall is_u8 (pre ++ [b0; b1] ++ post) -> Forall is_u8 [b0'; b1'] ->
  crc16 c (pre ++ [b0; b1] ++ post) = crc16 c (pre ++ [b0'; b1'] ++ post) ->
  b0 = b0' /\ b1 = b1'.
Proof.
  intros Hc Hm Hb' E. apply Forall_app in Hm as [Hpre Hm]. apply Forall_app in Hm as [Hb Hpost].
  apply Forall_cons_1 in Hb as [H0 H1], Hb' as [H0' H1'].
  apply Forall_cons_1 in H1 as [H1 _], H1' as [H1' _].
  rewrite !crc16_app in E. set (r := crc16 c pre) in *.
  assert (is_u16 r) by (by apply crc16_range).
  apply crc16_register_inj in E; [|apply crc16_range; auto..|done].
  rewrite !crc16_two_bytes in E.
  apply crc16_bits_inj in E; [|auto 6 using lxor_u16, is_u8_u16, shiftl8_u16..].
  apply word_inj; try done.
  apply (f_equal (Z.lxor r)) in E.
  by rewrite <- !(Z.lxor_assoc r r), Z.lxor_nilpotent, !Z.lxor_0_l in E.
Qed.
End Messages.

(** ** Group descriptors *)

(** The thirty bytes the checksum covers. *)
Definition gd_body (gd : GroupDescriptor) : list Z :=
  sub_bytes (GroupDescriptor_write_to gd (zeros 32)) 0 0x1E.

Section Descriptors.
Context (uuid : list Z) (nr : Z).
Implicit Types gd : GroupDescriptor.

Lemma gd_body_eq gd :
  gd_body gd = sub_bytes (put_fields (take 11 (GroupDescriptor_fields gd)) (zero_fill 32 (zeros 32))) 0 0x1E.
Proof.
  unfold gd_body, GroupDescriptor_write_to.
  replace (GroupDescriptor_fields gd)
    with (take 11 (GroupDescriptor_fields gd) ++ [U16 0x1E (gd_checksum gd)]) at 1 by reflexivity.
  rewrite put_fields_snoc. cbn [put_field]. unfold put_u16.
  rewrite sub_put_ne; [reflexivity|lia..| |left; lia].
  rewrite zlen_put_fields, zlen_put, zlen_le_bytes. by vm_compute.
Qed.

Lemma gd_body_checksum c gd : gd_body (set_gd_checksum c gd) = gd_body gd.
Proof. rewrite !gd_body_eq. by destruct gd. Qed.

Lemma group_descriptor_body gd :
  group_descriptor uuid nr gd = crc16 (crc16 (crc16 0xFFFF uuid) (le_bytes 4 nr)) (gd_body gd).
Proof. reflexivity. Qed.

(** The stored checksum does not take part in its own computation. *)
Lemma group_descriptor_set_checksum c gd :
  group_descriptor uuid nr (set_gd_checksum c gd) = group_descriptor uuid nr gd.
Proof. by rewrite !group_descriptor_body, gd_body_checksum. Qed.

Lemma group_descriptor_range gd :
  Forall is_u8 uuid -> GroupDescriptor_wf gd -> is_u16 (group_descriptor uuid nr gd).
Proof.
  intros Hu Hwf. apply crc16_range; [apply crc16_range; [apply crc16_range|]|].
  - by vm_compute.
  - done.
  - apply le_bytes_range.
  - apply Forall_sub. unfold GroupDescriptor_write_to, put_fields, put_bytes. unfold GroupDescriptor_wf in Hwf.
    cbn [fold_left GroupDescriptor_fields put_field].
    unfold put_u8, put_u16, put_u32, put_bytes.
    repeat (apply Forall_inserts; [|apply le_bytes_range]).
    apply Forall_inserts; apply Forall_replicate; by vm_compute.
Qed.
End Descriptors.

Lemma gd_checksum_set c gd : gd_checksum (set_gd_checksum c gd) = c.
Proof. by destruct gd. Qed.

Lemma set_gd_checksum_wf c gd :
  is_u16 c -> GroupDescriptor_wf gd -> GroupDescriptor_wf (set_gd_checksum c gd).
Proof. destruct gd. unfold GroupDescriptor_wf. simpl. intros Hc Hwf. destruct_and! Hwf. by split_and?. Qed.

(** ** Properties *)

(** A descriptor stamped with its checksum validates: recomputing the
    checksum over the stamped descriptor gives the stored value, which is a
    [u16], so the stored checksum never takes part in its own computation. *)
Theorem stamped_descriptor_validates (uuid : list Z) (group_nr : Z) (gd : GroupDescriptor)
    (Hu : Forall is_u8 uuid) (Hwf : GroupDescriptor_wf gd) :
  let gd' := set_gd_checksum (group_descriptor uuid group_nr gd) gd in
  group_descriptor uuid group_nr gd' = gd_checksum gd' /\ GroupDescriptor_wf gd'.
Proof.
  cbv zeta. pose proof (group_descriptor_range uuid group_nr gd Hu Hwf) as Hr.
  rewrite group_descriptor_set_checksum. split; [symmetry; apply gd_checksum_set|].
  by apply set_gd_checksum_wf.
Qed.

Definition sample_gd : GroupDescriptor := GroupDescriptor_read_from (zeros 32).

(** C39: Corruption of any two adjacent bytes of a descriptor (or of one byte)
    changes its checksum: two descriptors of the same group whose serialised
    bodies differ only inside one pair of neighbouring bytes have different
    checksums. *)
Theorem descriptor_burst_detected (uuid : list Z) (group_nr : Z) (gd gd' : GroupDescriptor)
    (pre post : list Z) (b0 b1 b0' b1' : Z)
    (Hu : Forall is_u8 uuid)
    (Hb : gd_body gd = pre ++ [b0; b1] ++ post) (Hb' : gd_body gd' = pre ++ [b0'; b1'] ++ post)
    (Hr : Forall is_u8 (gd_body gd)) (Hr' : Forall is_u8 (gd_body gd'))
    (Hdiff : gd_body gd <> gd_body gd') :
  group_descriptor uuid group_nr gd <> group_descriptor uuid group_nr gd'.
Proof.
  intros E. apply Hdiff. rewrite !group_descriptor_body, Hb, Hb' in E. rewrite Hb in Hr. rewrite Hb' in Hr'.
  apply Forall_app in Hr' as [_ Hr']. apply Forall_app in Hr' as [Hr' _].
  destruct (crc16_burst (crc16 (crc16 0xFFFF uuid) (le_bytes 4 group_nr)) pre post b0 b1 b0' b1') as [-> ->];
    [|done..|by rewrite Hb, Hb'].
  apply crc16_range; [|apply le_bytes_range]. by apply crc16_range.
Qed.

Lemma descriptor_burst_detected_witness :
  group_descriptor (zeros 16) 0 sample_gd <>
  group_descriptor (zeros 16) 0 (GroupDescriptor_read_from (5 :: zeros 31)).
Proof.
  refine (descriptor_burst_detected (zeros 16) 0 sample_gd _ [] (zeros 28) 0 0 5 0 _ _ _ _ _ _).
  - by apply Forall_zeros.
  - reflexivity.
  - reflexivity.
  - by apply (Forall_zeros is_u8 30).
  - apply (Forall_cons is_u8 5); [done|]. by apply (Forall_zeros is_u8 29).
  - intros E. discriminate E.
Defined.
