(* ===== verification/Layout.v ===== *)
(** Block-group geometry ([common/disk-image/src/ext4/layout.rs]) and the
    journal superblock ([journal.rs]).

    The [while] loop of [is_power_of] divides a [u32] by a base of at least two,
    so 32 turns are enough; [is_power_of_spec] shows the loop finds exactly the
    powers, fuel included. *)

From S2P Require Import Prelude Bytes Types.

(** ** layout.rs *)

Definition group_count (blocks first_data_block blocks_per_group : Z) : Z :=
  let data_blocks := saturating_sub blocks first_data_block in
  u32 (div_ceil data_blocks blocks_per_group).

Definition descriptor_blocks (groups block_size descriptor_size : Z) : Z :=
  let descriptors_per_block := block_size / descriptor_size in
  div_ceil groups descriptors_per_block.

(** [while value % base == 0 { value /= base; }]. *)
Fixpoint strip_factor (fuel : nat) (value base : Z) : Z :=
  match fuel with
  | O => value
  | S fuel => if value mod base =? 0 then strip_factor fuel (value / base) base else value
  end.

Definition is_power_of (value base : Z) : bool :=
  if value <? base then false
  else strip_factor 32 value base =? 1.

Definition has_sparse_super (group : Z) : bool :=
  (group =? 0) || (group =? 1) || is_power_of group 3 || is_power_of group 5 || is_power_of group 7.

(** ** journal.rs *)

Definition JOURNAL_INODE_NUMBER : Z := 8.
Definition JOURNAL_BACKUP_BLOCKS : Z := 1.
Definition JBD2_MAGIC_NUMBER : Z := 0xC03B3998.
Definition JBD2_SUPERBLOCK_V2 : Z := 4.
Definition JBD2_MIN_JOURNAL_BLOCKS : Z := 1024.

Definition default_journal_blocks (filesystem_blocks : Z) : Z :=
  if filesystem_blocks <? 32768 then JBD2_MIN_JOURNAL_BLOCKS
  else if filesystem_blocks <? 256 * 1024 then 4096
  else if filesystem_blocks <? 512 * 1024 then 8192
  else if filesystem_blocks <? 4096 * 1024 then 16384
  else if filesystem_blocks <? 8192 * 1024 then 32768
  else if filesystem_blocks <? 16384 * 1024 then 65536
  else if filesystem_blocks <? 32768 * 1024 then 131072
  else 262144.

Definition put_be32 (buf : list Z) (offset value : Z) : list Z :=
  put_bytes buf offset (be_bytes 4 value).

(** [journal::superblock]: one block, for a block of at least 68 bytes. *)
Definition journal_superblock (block_size journal_blocks : Z) (uuid : list Z) : list Z :=
  let block := zeros block_size in
  let block := put_be32 block 0x00 JBD2_MAGIC_NUMBER in
  let block := put_be32 block 0x04 JBD2_SUPERBLOCK_V2 in
  let block := put_be32 block 0x0C block_size in
  let block := put_be32 block 0x10 journal_blocks in
  let block := put_be32 block 0x14 1 in
  let block := put_be32 block 0x18 1 in
  let block := put_bytes block 0x30 uuid in
  put_be32 block 0x40 1.

(** ** Powers *)

Section Powers.
Context (base : Z).
Hypothesis (Hbase : 2 <= base).

Lemma strip_factor_pow fuel k :
  0 <= k <= Z.of_nat fuel -> strip_factor fuel (base ^ k) base = 1.
Proof.
  revert k. induction fuel as [|fuel IH]; intros k Hk.
  - replace k with 0 by lia. reflexivity.
  - simpl. destruct (decide (k = 0)) as [->|].
    + rewrite Z.pow_0_r, Z.mod_small by lia. reflexivity.
    + replace k with (Z.succ (k - 1)) by lia. rewrite Z.pow_succ_r by lia.
      rewrite Z.mul_comm, Z.mod_mul, Z.div_mul by lia. simpl. apply IH. lia.
Qed.

Lemma strip_factor_one fuel v :
  strip_factor fuel v base = 1 -> exists k, 0 <= k /\ v = base ^ k.
Proof.
  revert v. induction fuel as [|fuel IH]; intros v; simpl.
  - intros ->. exists 0. split; [lia|reflexivity].
  - destruct (Z.eqb_spec (v mod base) 0) as [E|E].
    + intros H. apply IH in H as (k & Hk & H). exists (k + 1). split; [lia|].
      rewrite Z.pow_add_r, Z.pow_1_r by lia. rewrite <- H.
      rewrite (Z.div_mod v base) at 1 by lia. lia.
    + intros ->. exists 0. split; [lia|reflexivity].
Qed.

Lemma is_power_of_spec v :
  is_u32 v -> is_power_of v base = true <-> exists k, 1 <= k /\ v = base ^ k.
Proof.
  intros Hv. unfold is_power_of. destruct (Z.ltb_spec v base) as [Hlt|Hge].
  - split; [discriminate|]. intros (k & Hk & ->).
    pose proof (Z.pow_le_mono_r base 1 k ltac:(lia) Hk). rewrite Z.pow_1_r in *. lia.
  - rewrite Z.eqb_eq. split.
    + intros H. apply strip_factor_one in H as (k & Hk & ->). exists k. split; [|done].
      destruct (decide (k = 0)) as [->|]; [rewrite Z.pow_0_r in Hge; lia|lia].
    + intros (k & Hk & ->). apply strip_factor_pow. split; [lia|].
      change (Z.of_nat 32) with 32. unfold is_u32 in Hv.
      destruct (Z_le_gt_dec k 32) as [|Hgt]; [done|].
      pose proof (Z.pow_le_mono_l 2 base k ltac:(lia)).
      pose proof (Z.pow_le_mono_r 2 32 k ltac:(lia) ltac:(lia)). lia.
Qed.
End Powers.

(** The groups with a superblock backup are 0 and the powers of 3, 5 and 7. *)
Lemma has_sparse_super_pow g :
  is_u32 g ->
  has_sparse_super g = true <->
  g = 0 \/ exists k, 0 <= k /\ (g = 3 ^ k \/ g = 5 ^ k \/ g = 7 ^ k).
Proof.
  intros Hg. unfold has_sparse_super. rewrite !orb_true_iff, !Z.eqb_eq.
  rewrite !is_power_of_spec by (done || lia). split.
  - intros [[[[->| ->]|(k & Hk & ->)]|(k & Hk & ->)]|(k & Hk & ->)]; [by left|right..].
    + exists 0. split; [lia|]. left. reflexivity.
    + exists k. split; [lia|]. auto.
    + exists k. split; [lia|]. auto.
    + exists k. split; [lia|]. auto.
  - intros [->|(k & Hk & Hg')]; [by left; left; left; left|].
    destruct (decide (k = 0)) as [->|].
    + left; left; left; right. by destruct Hg' as [-> | [-> | ->]].
    + destruct Hg' as [-> | [-> | ->]].
      * left; left; right. exists k. split; [lia|done].
      * left; right. exists k. split; [lia|done].
      * right. exists k. split; [lia|done].
Qed.

(** Of the groups that 32-bit block numbers address, few hold copies. *)
Lemma sparse_groups_few (l : list Z) :
  NoDup l -> (forall g, g ∈ l -> 0 <= g <= 131072 /\ has_sparse_super g = true) -> zlen l <= 61.
Proof.
  intros Hnd Hl. set (powers b := (fun k => b ^ Z.of_nat k) <$> seq 0 20).
  assert (forall b x k, 3 <= b -> x <= 131072 -> 0 <= k -> x = b ^ k -> x ∈ powers b) as Hin.
  { intros b x k Hb Hx Hk ->. apply list_elem_of_fmap. exists (Z.to_nat k). split; [f_equal; lia|].
    apply elem_of_seq. destruct (Z_lt_le_dec k 20); [lia|]. exfalso.
    assert (3 ^ 20 <= b ^ k) as H; [|apply (Z.le_trans _ _ _ H) in Hx; by vm_compute in Hx].
    transitivity (3 ^ k); [apply Z.pow_le_mono_r; lia|apply Z.pow_le_mono_l; lia]. }
  set (all := 0 :: powers 3 ++ powers 5 ++ powers 7).
  assert (length l <= length all)%nat as Hlen.
  { apply submseteq_length, NoDup_submseteq; [done|]. intros x [Hx Hs]%Hl.
    rewrite has_sparse_super_pow in Hs by (unfold is_u32; lia). unfold all. rewrite elem_of_cons, !elem_of_app.
    destruct Hs as [->|(k & Hk & [H|[H|H]])]; [by left|right..];
      [left|right; left|right; right]; (eapply Hin; [| |exact Hk|exact H]; lia). }
  change (length all) with 61%nat in Hlen. unfold zlen. lia.
Qed.

(** ** Geometry *)

Lemma group_count_spec blocks fdb bpg :
  is_u64 blocks -> 0 <= fdb -> 0 < bpg -> fdb < blocks -> blocks - fdb <= bpg * u32_max ->
  (group_count blocks fdb bpg - 1) * bpg < blocks - fdb <= group_count blocks fdb bpg * bpg.
Proof.
  unfold group_count, saturating_sub. intros. rewrite Z.max_r by lia.
  pose proof (div_ceil_spec (blocks - fdb) bpg ltac:(lia)).
  assert (0 <= div_ceil (blocks - fdb) bpg <= u32_max).
  { split; [apply div_ceil_nonneg; lia|]. unfold div_ceil.
    apply Z.lt_succ_r, Z.div_lt_upper_bound; lia. }
  wrap_small. lia.
Qed.

(** ** Journal *)

Lemma default_journal_blocks_bounds n :
  JBD2_MIN_JOURNAL_BLOCKS <= default_journal_blocks n <= 262144.
Proof. unfold default_journal_blocks, JBD2_MIN_JOURNAL_BLOCKS. repeat case_match; lia. Qed.

(** From 32768 blocks on, the journal takes at most an eighth of the disk. *)
Lemma default_journal_blocks_share n : 32768 <= n -> 8 * default_journal_blocks n <= n.
Proof. unfold default_journal_blocks, JBD2_MIN_JOURNAL_BLOCKS. intros. repeat case_match; lia. Qed.

Lemma default_journal_blocks_mono n m : n <= m -> default_journal_blocks n <= default_journal_blocks m.
Proof. unfold default_journal_blocks, JBD2_MIN_JOURNAL_BLOCKS. intros. repeat case_match; lia. Qed.

(** ** Properties *)

(** [has_sparse_super] selects exactly group 0 and the groups that are a
    power of 3, 5 or 7 (1 included), for every 32-bit group number; the repeated
    division always ends within 32 steps. *)
Theorem sparse_super_groups (group : Z) (Hg : is_u32 group) :
  has_sparse_super group = true <->
  group = 0 \/ exists k, 0 <= k /\ (group = 3 ^ k \/ group = 5 ^ k \/ group = 7 ^ k).
Proof. by apply has_sparse_super_pow. Qed.

Lemma sparse_super_groups_witness :
  has_sparse_super 2187 = true <->
  2187 = 0 \/ exists k, 0 <= k /\ (2187 = 3 ^ k \/ 2187 = 5 ^ k \/ 2187 = 7 ^ k).
Proof. apply (sparse_super_groups 2187). unfold is_u32. lia. Defined.
