(* ===== verification/RustStr.v ===== *)
(** Rust strings as byte lists.

    A [&str] / [String] is the [list Z] of its UTF-8 bytes.  [from_utf8_lossy]
    is the standard library's [String::from_utf8_lossy]: it copies well-formed
    characters and replaces every maximal ill-formed subsequence by U+FFFD.  The
    path helpers split on ['/'], an ASCII byte that never occurs inside a
    multi-byte character. *)

From S2P Require Import Prelude Bytes.

Definition in_range (lo hi b : Z) : bool := (lo <=? b) && (b <=? hi).

(** [safe_get]: 0 past the end. *)
Definition byte_at (bs : list Z) (i : nat) : Z := nth i bs 0.

Definition is_cont (b : Z) : bool := in_range 0x80 0xBF b.

(** The first character of a non-empty byte string: whether it is well formed,
    and how many bytes were looked at. *)
Definition utf8_char (bs : list Z) : bool * nat :=
  let b0 := byte_at bs 0 in
  let b1 := byte_at bs 1 in
  if b0 <? 0x80 then (true, 1%nat)
  else if in_range 0xC2 0xDF b0 then
    if is_cont b1 then (true, 2%nat) else (false, 1%nat)
  else if in_range 0xE0 0xEF b0 then
    let ok := if b0 =? 0xE0 then in_range 0xA0 0xBF b1
              else if b0 =? 0xED then in_range 0x80 0x9F b1
              else is_cont b1 in
    if negb ok then (false, 1%nat)
    else if is_cont (byte_at bs 2) then (true, 3%nat) else (false, 2%nat)
  else if in_range 0xF0 0xF4 b0 then
    let ok := if b0 =? 0xF0 then in_range 0x90 0xBF b1
              else if b0 =? 0xF4 then in_range 0x80 0x8F b1
              else is_cont b1 in
    if negb ok then (false, 1%nat)
    else if negb (is_cont (byte_at bs 2)) then (false, 2%nat)
    else if is_cont (byte_at bs 3) then (true, 4%nat) else (false, 3%nat)
  else (false, 1%nat).

Definition REPLACEMENT : list Z := [0xEF; 0xBF; 0xBD].

Fixpoint lossy (fuel : nat) (bs : list Z) : list Z :=
  match fuel, bs with
  | O, _ | _, [] => []
  | S fuel, _ =>
      let '(ok, n) := utf8_char bs in
      (if ok then take n bs else REPLACEMENT) ++ lossy fuel (drop n bs)
  end.

(** Every character takes at least one byte, so [length bs] turns are enough. *)
Definition from_utf8_lossy (bs : list Z) : list Z := lossy (length bs) bs.

(** The invariant of [str]. *)
Inductive utf8 : list Z -> Prop :=
| utf8_nil : utf8 []
| utf8_cons bs n :
    bs <> [] -> utf8_char bs = (true, n) -> utf8 (drop n bs) -> utf8 bs.

(** The same, as a check. *)
Fixpoint utf8b (fuel : nat) (bs : list Z) : bool :=
  match bs, fuel with
  | [], _ => true
  | _, O => false
  | _, S fuel => let '(ok, n) := utf8_char bs in ok && utf8b fuel (drop n bs)
  end.

Section Utf8.
Implicit Types bs : list Z.

Lemma utf8_char_pos bs : (1 <= (utf8_char bs).2)%nat.
Proof. unfold utf8_char. repeat case_match; simpl; lia. Qed.

Lemma lossy_utf8 bs : utf8 bs -> forall fuel, (length bs <= fuel)%nat -> lossy fuel bs = bs.
Proof.
  induction 1 as [|bs n Hne Hc _ IH]; intros fuel Hf; [by destruct fuel|].
  destruct fuel as [|fuel]; [by destruct bs; simpl in *; [|lia]|].
  pose proof (utf8_char_pos bs) as Hpos. simpl. rewrite Hc in *. simpl in Hpos.
  destruct bs as [|b bs]; [done|]. rewrite IH.
  - apply take_drop.
  - rewrite length_drop. simpl in *. lia.
Qed.

(** Well-formed strings are returned unchanged. *)
Lemma from_utf8_lossy_id bs : utf8 bs -> from_utf8_lossy bs = bs.
Proof. intros. by apply lossy_utf8. Qed.

Lemma utf8b_sound fuel bs : utf8b fuel bs = true -> utf8 bs.
Proof.
  revert bs. induction fuel as [|fuel IH]; intros bs; simpl.
  - destruct bs; [constructor|discriminate].
  - destruct bs as [|b bs]; [constructor|].
    destruct (utf8_char (b :: bs)) as [ok n] eqn:E. rewrite andb_true_iff.
    intros [-> H]. eapply utf8_cons; eauto.
Qed.

(** ASCII strings are well formed. *)
Lemma utf8_ascii bs : Forall (fun b => 0 <= b < 128) bs -> utf8 bs.
Proof.
  induction 1 as [|b bs Hb _ IH]; [constructor|].
  apply utf8_cons with 1%nat; [done| |exact IH].
  unfold utf8_char, byte_at. simpl. by replace (b <? 128) with true by lia.
Qed.
End Utf8.
