(* ===== verification/RustPath.v ===== *)
(** The parts of [std::path] the image builder uses, on Unix, over byte lists:
    [Path::components], [PathBuf::push], and the string operations
    [trim_end_matches], [rfind] on the separator.

    Components are the byte strings [Component::as_os_str] returns: [/] for the
    root, otherwise a part of the path between separators.  Empty parts are
    dropped, and so is [.] except at the head of a relative path. *)

From S2P Require Import Prelude Bytes.

Definition SLASH : Z := 47.
Definition DOT : list Z := [46].
Definition DOTDOT : list Z := [46; 46].
Definition ROOT : list Z := [SLASH].

Fixpoint split_slash (p : list Z) : list (list Z) :=
  match p with
  | [] => [[]]
  | c :: p =>
      if c =? SLASH then [] :: split_slash p
      else match split_slash p with
           | part :: parts => (c :: part) :: parts
           | [] => [[c]]
           end
  end.

Definition is_absolute (p : list Z) : bool :=
  match p with c :: _ => c =? SLASH | [] => false end.

(** A part that is a component wherever it stands. *)
Definition keep_part (part : list Z) : bool :=
  negb (bool_decide (part = [])) && negb (bool_decide (part = DOT)).

Definition kept (parts : list (list Z)) : list (list Z) := List.filter keep_part parts.

Definition components (p : list Z) : list (list Z) :=
  if is_absolute p then ROOT :: kept (split_slash p)
  else match split_slash p with
       | first :: rest => (if bool_decide (first = DOT) then [DOT] else kept [first]) ++ kept rest
       | [] => []
       end.

Definition path_push (p part : list Z) : list Z :=
  if is_absolute part then part
  else match list.last p with
       | None => part
       | Some c => if c =? SLASH then p ++ part else p ++ SLASH :: part
       end.

(** [str::trim_end_matches] and [str::rfind] for the separator. *)
Fixpoint trim_start_slash (p : list Z) : list Z :=
  match p with
  | c :: q => if c =? SLASH then trim_start_slash q else p
  | [] => []
  end.

Definition trim_end_slash (p : list Z) : list Z := reverse (trim_start_slash (reverse p)).

Definition rfind_slash (p : list Z) : option nat :=
  match list_find (fun c => c = SLASH) (reverse p) with
  | Some (i, _) => Some (length p - 1 - i)%nat
  | None => None
  end.

(** ** Lemmas *)

(** A name that can be a directory entry: no separator, not empty, not [.]. *)
Definition part_ok (part : list Z) : Prop :=
  (SLASH ∉ part) /\ part <> [] /\ part <> DOT.

#[global] Instance part_ok_dec part : Decision (part_ok part).
Proof. unfold part_ok. apply _. Defined.

(** The absolute path with the given components. *)
Definition abs_path (parts : list (list Z)) : list Z :=
  match parts with
  | [] => ROOT
  | _ => concat (map (cons SLASH) parts)
  end.

Section Paths.
Implicit Types p part : list Z.
Implicit Types parts : list (list Z).

Lemma split_slash_part part q :
  SLASH ∉ part ->
  split_slash (part ++ SLASH :: q) = part :: split_slash q /\ split_slash part = [part].
Proof.
  induction part as [|c part IH]; intros Hn; simpl; [done|].
  rewrite not_elem_of_cons in Hn. destruct Hn as [Hc Hn].
  destruct (IH Hn) as [-> ->]. by destruct (Z.eqb_spec c SLASH); [congruence|].
Qed.

Lemma split_slash_concat parts :
  Forall (fun part => SLASH ∉ part) parts ->
  split_slash (concat (map (cons SLASH) parts)) = [] :: parts.
Proof.
  induction 1 as [|part parts Hp Hps IH]; simpl; [done|]. f_equal.
  destruct parts as [|part' parts]; simpl in *.
  - rewrite app_nil_r. by apply split_slash_part.
  - rewrite (proj1 (split_slash_part part _ Hp)). f_equal. by injection IH.
Qed.

Lemma keep_part_spec part : keep_part part = true <-> part <> [] /\ part <> DOT.
Proof.
  unfold keep_part. rewrite andb_true_iff, !negb_true_iff, !bool_decide_eq_false. done.
Qed.

Lemma kept_all parts : Forall part_ok parts -> kept parts = parts.
Proof.
  induction 1 as [|part parts (_ & Hp) _ IH]; [done|].
  unfold kept in *. simpl. apply keep_part_spec in Hp as ->. by rewrite IH.
Qed.

(** The components of an absolute path are its parts. *)
Lemma components_abs_path parts :
  Forall part_ok parts -> components (abs_path parts) = ROOT :: parts.
Proof.
  intros Hok. destruct parts as [|part parts]; [done|].
  unfold components, abs_path. change (is_absolute _) with true. cbv iota. f_equal.
  rewrite split_slash_concat.
  - apply (kept_all (part :: parts) Hok).
  - eapply list.Forall_impl; [exact Hok|]. by intros x (? & _).
Qed.

Lemma last_no_slash part : part_ok part -> exists c, list.last part = Some c /\ c <> SLASH.
Proof.
  intros (Hn & Hne & _). destruct (list.last part) as [c|] eqn:Hl.
  - exists c. split; [done|]. intros ->. by apply Hn, last_Some_elem_of.
  - by apply last_None in Hl.
Qed.

Lemma is_absolute_part part : part_ok part -> is_absolute part = false.
Proof.
  intros (Hn & _). destruct part as [|c part]; [done|]. simpl.
  apply Z.eqb_neq. intros ->. apply Hn. by left.
Qed.

(** Pushing a component extends the absolute path by it. *)
Lemma path_push_abs parts part :
  Forall part_ok parts -> part_ok part ->
  path_push (abs_path parts) part = abs_path (parts ++ [part]).
Proof.
  intros Hps Hp. unfold path_push. rewrite is_absolute_part by done.
  destruct parts as [|part0 parts0] using rev_ind; [simpl; by rewrite app_nil_r|].
  clear IHparts0. apply Forall_app in Hps as [_ Hlast]. apply Forall_cons_1 in Hlast as [Hlast _].
  assert (forall l, abs_path (l ++ [part0]) = concat (map (cons SLASH) l) ++ SLASH :: part0) as Habs.
  { intros l. unfold abs_path. destruct (l ++ [part0]) eqn:E0; [by destruct l|].
    rewrite <- E0, map_app, concat_app. simpl. by rewrite app_nil_r. }
  rewrite Habs. destruct (last_no_slash part0 Hlast) as (c & Hc & Hcs).
  replace (list.last (concat (map (cons SLASH) parts0) ++ SLASH :: part0)) with (Some c).
  2:{ rewrite last_app_cons, last_cons. by rewrite Hc. }
  apply Z.eqb_neq in Hcs as ->. unfold abs_path.
  destruct ((parts0 ++ [part0]) ++ [part]) eqn:E0; [by destruct parts0|].
  rewrite <- E0, !map_app, !concat_app. simpl. by rewrite !app_nil_r, <- !app_assoc.
Qed.

Lemma path_push_root part : part_ok part -> path_push ROOT part = abs_path [part].
Proof. intros Hp. apply (path_push_abs []); auto. Qed.
End Paths.
