(* ===== verification/RustSort.v ===== *)
(** [slice::sort_by] and the byte order of [str].

    [sort_by] is stable, which determines its result: the model is the stable
    insertion sort. *)

From stdpp Require Import sorting.
From S2P Require Import Prelude.

(** [Ord for str]: lexicographic on bytes. *)
Fixpoint bytes_cmp (a b : list Z) : comparison :=
  match a, b with
  | [], [] => Eq
  | [], _ :: _ => Lt
  | _ :: _, [] => Gt
  | x :: a, y :: b => match x ?= y with Eq => bytes_cmp a b | c => c end
  end.

(** [Ordering::then_with]. *)
Definition then_with (c d : comparison) : comparison := match c with Eq => d | c => c end.

Section SortBy.
Context {A : Type} (cmp : A -> A -> comparison).

(** [a] may stand before [b]. *)
Definition cmp_le (a b : A) : bool := match cmp a b with Gt => false | _ => true end.

Fixpoint insert_by (a : A) (l : list A) : list A :=
  match l with
  | [] => [a]
  | b :: l => if cmp_le a b then a :: b :: l else b :: insert_by a l
  end.

Definition sort_by (l : list A) : list A := fold_right insert_by [] l.

Lemma insert_by_perm a l : insert_by a l ≡ₚ a :: l.
Proof.
  induction l as [|b l IH]; simpl; [done|]. destruct (cmp_le a b); [done|].
  rewrite IH. apply Permutation_swap.
Qed.

Lemma sort_by_perm l : sort_by l ≡ₚ l.
Proof. induction l as [|a l IH]; simpl; [done|]. by rewrite insert_by_perm, IH. Qed.

Hypothesis (cmp_total : forall a b, cmp_le a b = false -> cmp_le b a = true).

Lemma insert_by_sorted a l :
  Sorted (fun a b => cmp_le a b = true) l -> Sorted (fun a b => cmp_le a b = true) (insert_by a l).
Proof.
  induction l as [|b l IH]; intros Hs; simpl; [by repeat constructor|].
  destruct (cmp_le a b) eqn:Hab; [by constructor; [|constructor]|].
  inversion Hs as [|? ? Hl Hh]; subst. constructor; [by apply IH|].
  destruct l as [|c l]; simpl; [by constructor; apply cmp_total|].
  destruct (cmp_le a c); constructor; [by apply cmp_total|by inversion Hh].
Qed.

Lemma sort_by_sorted l : Sorted (fun a b => cmp_le a b = true) (sort_by l).
Proof. induction l; simpl; [constructor|by apply insert_by_sorted]. Qed.
End SortBy.

Lemma bytes_cmp_antisym a b : bytes_cmp b a = CompOpp (bytes_cmp a b).
Proof.
  revert b. induction a as [|x a IH]; intros [|y b]; simpl; try done.
  rewrite (Z.compare_antisym x y). destruct (x ?= y); simpl; auto.
Qed.

Lemma bytes_cmp_eq a b : bytes_cmp a b = Eq <-> a = b.
Proof.
  revert b. induction a as [|x a IH]; intros [|y b]; simpl; try done.
  destruct (Z.compare_spec x y) as [->|?|?]; [rewrite IH; split; [by intros ->|by intros [= ->]]|..];
    split; try done; intros [= -> ->]; lia.
Qed.

Lemma then_with_antisym c c' d d' :
  c' = CompOpp c -> d' = CompOpp d -> then_with c' d' = CompOpp (then_with c d).
Proof. intros -> ->. by destruct c. Qed.

(** An antisymmetric comparison is total. *)
Lemma cmp_le_total {A} (cmp : A -> A -> comparison) a b :
  (forall a b, cmp b a = CompOpp (cmp a b)) -> cmp_le cmp a b = false -> cmp_le cmp b a = true.
Proof. intros Ha. unfold cmp_le. rewrite (Ha a b). by destruct (cmp a b). Qed.
