(* ===== verification/RustText.v ===== *)
(** The parts of the Rust library that work on text and numbers in text:
    prefixes, splitting, ASCII classes, [FromStr] and [Display] of unsigned
    integers, character boundaries.

    A [str] is the list of its bytes; [lit] turns a literal of the source into
    one. *)

From Stdlib Require Import Ascii.
From stdpp Require Import strings.
From S2P Require Import Prelude RustStr.

Definition text : Type := list Z.

Definition byte_of (c : ascii) : Z := Z.of_N (N_of_ascii c).
Definition lit (s : string) : text := map byte_of (String.list_ascii_of_string s).
Arguments lit s%_string : simpl never.

(** ** ASCII classes *)

Definition is_ascii_digit (b : Z) : bool := in_range 48 57 b.
Definition is_ascii_lower (b : Z) : bool := in_range 97 122 b.
Definition is_ascii_upper (b : Z) : bool := in_range 65 90 b.
Definition is_ascii_alphanumeric (b : Z) : bool := is_ascii_digit b || is_ascii_lower b || is_ascii_upper b.

Definition to_ascii_lowercase (b : Z) : Z := if is_ascii_upper b then b + 32 else b.

(** [char::to_digit]. *)
Definition to_digit (radix b : Z) : option Z :=
  let d := if is_ascii_digit b then b - 48
           else if is_ascii_lower b then b - 87
           else if is_ascii_upper b then b - 55
           else radix in
  if d <? radix then Some d else None.

(** ** Prefixes and splitting *)

Fixpoint strip_prefix (p s : text) : option text :=
  match p, s with
  | [], _ => Some s
  | _ :: _, [] => None
  | a :: p, b :: s => if a =? b then strip_prefix p s else None
  end.

Definition starts_with (p s : text) : bool := bool_decide (is_Some (strip_prefix p s)).

(** [str::split] on an ASCII character: never empty. *)
Fixpoint split_on (sep : Z) (s : text) : list text :=
  match s with
  | [] => [[]]
  | b :: s =>
      if b =? sep then [] :: split_on sep s
      else match split_on sep s with
           | part :: parts => (b :: part) :: parts
           | [] => [[b]]
           end
  end.

(** [str::find] of a pattern of bytes: the offset of the first occurrence. *)
Fixpoint find_text (p s : text) : option nat :=
  if starts_with p s then Some 0%nat
  else match s with
       | [] => None
       | _ :: s => S <$> find_text p s
       end.

Definition contains_text (p s : text) : bool := bool_decide (is_Some (find_text p s)).

(** ** Numbers *)

(** The digits of [from_str_radix], with its overflow check. *)
Fixpoint parse_digits (radix limit acc : Z) (s : text) : option Z :=
  match s with
  | [] => Some acc
  | b :: s =>
      d ← to_digit radix b;
      let acc := acc * radix + d in
      if acc <=? limit then parse_digits radix limit acc s else None
  end.

(** [FromStr] of an unsigned type whose largest value is [limit]. *)
Definition parse_uint (limit : Z) (s : text) : option Z :=
  match s with
  | [] => None
  | [43] => None
  | 43 :: s => parse_digits 10 limit 0 s
  | s => parse_digits 10 limit 0 s
  end.

Definition digit_byte (d : Z) : Z := if d <? 10 then 48 + d else 87 + d.

Fixpoint digits_of (fuel : nat) (radix n : Z) (acc : text) : text :=
  match fuel with
  | O => acc
  | S fuel =>
      let acc := digit_byte (n mod radix) :: acc in
      if n <? radix then acc else digits_of fuel radix (n / radix) acc
  end.

Definition show_radix (radix n : Z) : text := digits_of (S (Z.to_nat (Z.log2 n))) radix n [].

(** [Display] of an unsigned integer. *)
Definition show_uint (n : Z) : text := show_radix 10 n.

(** ** Character boundaries *)

Definition is_char_boundary (s : text) (i : nat) : bool :=
  match i with
  | O => true
  | _ => match s !! i with
         | Some b => negb (is_cont b)
         | None => (i =? length s)%nat
         end
  end.

(** [while !s.is_char_boundary(end) { end -= 1 }]. *)
Fixpoint boundary_below (s : text) (i : nat) : nat :=
  if is_char_boundary s i then i
  else match i with
       | O => O
       | S i => boundary_below s i
       end.
