(* ===== verification/RustNet.v ===== *)
(** [std::net::IpAddr]: its [FromStr] and [Display].

    The parser is the one of [core::net::parser]: a cursor over the bytes that
    is put back when a reader fails. *)

From stdpp Require Import strings.
From S2P Require Import Prelude RustStr RustText.

Inductive IpAddr : Type :=
| V4 (octets : list Z)
| V6 (segments : list Z).

#[global] Instance IpAddr_eq_dec : EqDecision IpAddr.
Proof. solve_decision. Defined.

(** ** Parsing *)

(** A reader returns its value and the rest of the input. *)
Definition reader (A : Type) : Type := text -> option (A * text).

Definition read_given_char (c : Z) : reader unit := fun s =>
  match s with
  | b :: s => if b =? c then Some (tt, s) else None
  | [] => None
  end.

Fixpoint read_digits (radix limit max_digits acc count : Z) (s : text) : option (Z * Z * text) :=
  match s with
  | [] => Some (acc, count, [])
  | b :: rest =>
      match to_digit radix b with
      | None => Some (acc, count, s)
      | Some d =>
          let acc := acc * radix + d in
          if negb (acc <=? limit) || (max_digits <? count + 1) then None
          else read_digits radix limit max_digits acc (count + 1) rest
      end
  end.

Definition read_number (radix limit max_digits : Z) (allow_zero_prefix : bool) : reader Z := fun s =>
  let has_leading_zero := bool_decide (head s = Some 48) in
  '(result, digit_count, rest) ← read_digits radix limit max_digits 0 0 s;
  if digit_count =? 0 then None
  else if negb allow_zero_prefix && has_leading_zero && (1 <? digit_count) then None
  else Some (result, rest).

(** [read_separator]: the separator stands before every item but the first. *)
Definition read_separator {A} (sep : Z) (index : nat) (inner : reader A) : reader A := fun s =>
  match index with
  | O => inner s
  | S _ => '(_, s) ← read_given_char sep s; inner s
  end.

Fixpoint read_octets (index : nat) (missing : nat) (acc : list Z) : reader (list Z) := fun s =>
  match missing with
  | O => Some (acc, s)
  | S missing =>
      '(octet, s) ← read_separator 46 index (read_number 10 255 3 false) s;
      read_octets (S index) missing (acc ++ [octet]) s
  end.

Definition read_ipv4_addr : reader (list Z) := read_octets 0 4 [].

(** [read_groups]: the groups read, and whether the last two are an embedded
    IPv4 address. *)
Fixpoint read_groups (index missing : nat) (acc : list Z) (s : text) : list Z * bool * text :=
  match missing with
  | O => (acc, false, s)
  | S rest_groups =>
      match (if (1 <? missing)%nat then read_separator 58 index read_ipv4_addr s else None) with
      | Some ([a; b; c; d], s) => (acc ++ [a * 256 + b; c * 256 + d], true, s)
      | _ =>
          match read_separator 58 index (read_number 16 65535 4 true) s with
          | Some (group, s) => read_groups (S index) rest_groups (acc ++ [group]) s
          | None => (acc, false, s)
          end
      end
  end.

Definition read_ipv6_addr : reader (list Z) := fun s =>
  let '(front, front_ipv4, s) := read_groups 0 8 [] s in
  if (length front =? 8)%nat then Some (front, s)
  else if front_ipv4 : bool then None
  else
    '(_, s) ← read_given_char 58 s;
    '(_, s) ← read_given_char 58 s;
    let '(back, _, s) := read_groups 0 (7 - length front) [] s in
    Some (front ++ replicate (8 - length front - length back) 0 ++ back, s).

(** [address.parse::<IpAddr>()]. *)
Definition parse_ip (s : text) : option IpAddr :=
  let result :=
    match read_ipv4_addr s with
    | Some (octets, s) => Some (V4 octets, s)
    | None => '(segments, s) ← read_ipv6_addr s; Some (V6 segments, s)
    end in
  '(address, rest) ← result;
  match rest with [] => Some address | _ => None end.

(** ** Printing *)

Definition join (sep : text) (parts : list text) : text :=
  match parts with
  | [] => []
  | p :: parts => p ++ concat (map (fun q => sep ++ q) parts)
  end.

Definition show_ipv4 (octets : list Z) : text := join [46] (map show_uint octets).

Definition show_segments (segments : list Z) : text := join [58] (map (show_radix 16) segments).

(** The first of the longest runs of zeros, as start and length. *)
Fixpoint longest_zeros (i : nat) (segments : list Z) (current longest : nat * nat) : nat * nat :=
  match segments with
  | [] => longest
  | x :: segments =>
      if x =? 0 then
        let current := if (current.2 =? 0)%nat then (i, 1%nat) else (current.1, S current.2) in
        longest_zeros (S i) segments current (if (longest.2 <? current.2)%nat then current else longest)
      else longest_zeros (S i) segments (0%nat, 0%nat) longest
  end.

(** [to_ipv4_mapped]. *)
Definition ipv4_mapped (segments : list Z) : option (list Z) :=
  match segments with
  | [0; 0; 0; 0; 0; 65535; a; b] => Some [a / 256; a mod 256; b / 256; b mod 256]
  | _ => None
  end.

Definition show_ipv6 (segments : list Z) : text :=
  match ipv4_mapped segments with
  | Some octets => lit "::ffff:" ++ show_ipv4 octets
  | None =>
      let '(start, len) := longest_zeros 0 segments (0%nat, 0%nat) (0%nat, 0%nat) in
      if (1 <? len)%nat then
        show_segments (take start segments) ++ lit "::" ++ show_segments (drop (start + len) segments)
      else show_segments segments
  end.

(** [to_string]. *)
Definition show_ip (a : IpAddr) : text :=
  match a with
  | V4 octets => show_ipv4 octets
  | V6 segments => show_ipv6 segments
  end.

(** Addresses in the form [Display] gives them, and others. *)
Lemma ip_samples :
  map (fun s => show_ip <$> parse_ip (lit s))
    ["10.0.2.15"; "::1"; "fe80::1:0:0:2"; "1:0:0:2::3"; "::ffff:1.2.3.4"; "FE80::A"; "01.2.3.4"; "1.2.3"; "::ffff:1.2.3.4.5"; "1:2:3:4:5:6:7::"]%string =
  map (fun s => lit <$> s)
    [Some "10.0.2.15"; Some "::1"; Some "fe80::1:0:0:2"; Some "1:0:0:2::3"; Some "::ffff:1.2.3.4"; Some "fe80::a"; None; None; None; Some "1:2:3:4:5:6:7:0"]%string.
Proof. vm_compute. reflexivity. Qed.
