(* ===== verification/Protocol.v ===== *)
(** The messages between guest agent and monitor, and between monitor and its
    clients: [specs/protocol/proto/common.proto], [vm_monitor.proto], and the
    helpers of [specs/protocol/src/lib.rs].

    An [optional] field and a field of message type is an [option]; an
    enumeration travels as its number, so a field of enumeration type is an
    [option Z].  A [double] is the 64 bits of its representation. *)

From stdpp Require Import strings.
From S2P Require Import Prelude RustStr RustText.

(** ** Limits *)

Definition MAX_PATH_BYTES : Z := 4095.
Definition MAX_INFO_BYTES : Z := 1024.
Definition MAX_CODE_BYTES : Z := 128.
Definition MAX_DIAGNOSTIC_BYTES : Z := 4096.
Definition MAX_AGENT_IP_ADDRESSES : Z := 256.
Definition MAX_PROBED_INIT_PATHS : Z := 64.
Definition MAX_PROVISIONING_STEPS : Z := 256.
Definition MAX_METRIC_ARRAY_ENTRIES : Z := 1024.

(** ** Enumerations *)

(** What the generated code offers for an enumeration: [as i32] and
    [TryFrom<i32>], which knows the declared numbers only. *)
Class ProtoEnum (T : Type) := {
  declared : list T;
  as_i32 : T -> Z;
  as_i32_at : forall i x, declared !! i = Some x -> as_i32 x = Z.of_nat i;
  declared_all : forall x, x ∈ declared
}.

Definition try_from {T} `{ProtoEnum T} (n : Z) : option T :=
  if n <? 0 then None else declared !! Z.to_nat n.

Lemma try_from_as_i32 {T} `{ProtoEnum T} (x : T) : try_from (as_i32 x) = Some x.
Proof.
  destruct (list_elem_of_lookup_1 _ _ (declared_all x)) as [i Hi]. unfold try_from.
  rewrite (as_i32_at _ _ Hi). destruct (Z.ltb_spec (Z.of_nat i) 0); [lia|]. by rewrite Nat2Z.id.
Qed.

Lemma try_from_inv {T} `{ProtoEnum T} n (x : T) : try_from n = Some x -> n = as_i32 x.
Proof. unfold try_from. destruct (Z.ltb_spec n 0); [done|]. intros Hi%as_i32_at. lia. Qed.

Lemma as_i32_inj {T} `{ProtoEnum T} (x y : T) : as_i32 x = as_i32 y -> x = y.
Proof. intros E. pose proof (try_from_as_i32 x) as Hx. rewrite E, try_from_as_i32 in Hx. congruence. Qed.

(** The declared values in the order of their numbers, from 0 on. *)
Ltac solve_enum :=
  first [ intros i x Hi; repeat (destruct i as [|i]; [injection Hi as <-; reflexivity|]); discriminate
        | intros []; repeat constructor ].

Inductive AgentStatusState : Type := AgentUnspecified | AgentStarting | AgentReady | AgentFailed.
Inductive GuestBootMode : Type := BootUnspecified | BootStandard | BootAgentPid1 | BootInitChild.
Inductive ProvisionOverallStatus : Type :=
| OverallUnspecified | OverallSucceeded | OverallDegraded | OverallSkipped | OverallFailedBoot.
Inductive ProvisionStepStatus : Type := StepUnspecified | StepSucceeded | StepFailed | StepSkipped | StepUnsupported.
Inductive ProvisionFailurePolicy : Type := PolicyUnspecified | PolicyBestEffort | PolicyFailBoot.
Inductive VmState : Type := VmUnspecified | VmStarting | VmRunning | VmStopping | VmStopped | VmFailed.
Inductive ReadinessReason : Type :=
| ReasonUnspecified | ReasonVmStarting | ReasonVmStopping | ReasonVmStopped | ReasonVmFailed
| ReasonAgentNotRequired | ReasonAgentUnavailable | ReasonAgentStatusStale | ReasonGuestStarting
| ReasonGuestFailed | ReasonGuestReportedReady.
Inductive AgentConnectionState : Type :=
| ConnectionUnspecified | ConnectionConnecting | ConnectionResponsive | ConnectionUnresponsive.
Inductive Freshness : Type := FreshnessUnspecified | Fresh | Stale.
Inductive StaleReason : Type := StaleUnspecified | ReceiptAge | MonitorStopping.

#[global] Instance AgentStatusState_eq_dec : EqDecision AgentStatusState.
Proof. solve_decision. Defined.
#[global] Instance GuestBootMode_eq_dec : EqDecision GuestBootMode.
Proof. solve_decision. Defined.
#[global] Instance ProvisionOverallStatus_eq_dec : EqDecision ProvisionOverallStatus.
Proof. solve_decision. Defined.
#[global] Instance ProvisionStepStatus_eq_dec : EqDecision ProvisionStepStatus.
Proof. solve_decision. Defined.
#[global] Instance ProvisionFailurePolicy_eq_dec : EqDecision ProvisionFailurePolicy.
Proof. solve_decision. Defined.
#[global] Instance VmState_eq_dec : EqDecision VmState.
Proof. solve_decision. Defined.
#[global] Instance ReadinessReason_eq_dec : EqDecision ReadinessReason.
Proof. solve_decision. Defined.
#[global] Instance AgentConnectionState_eq_dec : EqDecision AgentConnectionState.
Proof. solve_decision. Defined.
#[global] Instance Freshness_eq_dec : EqDecision Freshness.
Proof. solve_decision. Defined.
#[global] Instance StaleReason_eq_dec : EqDecision StaleReason.
Proof. solve_decision. Defined.

#[global] Program Instance AgentStatusState_enum : ProtoEnum AgentStatusState := {
  declared := [AgentUnspecified; AgentStarting; AgentReady; AgentFailed];
  as_i32 x := match x with AgentUnspecified => 0 | AgentStarting => 1 | AgentReady => 2 | AgentFailed => 3 end
}.
Solve Obligations with solve_enum.
#[global] Program Instance GuestBootMode_enum : ProtoEnum GuestBootMode := {
  declared := [BootUnspecified; BootStandard; BootAgentPid1; BootInitChild];
  as_i32 x := match x with BootUnspecified => 0 | BootStandard => 1 | BootAgentPid1 => 2 | BootInitChild => 3 end
}.
Solve Obligations with solve_enum.
#[global] Program Instance ProvisionOverallStatus_enum : ProtoEnum ProvisionOverallStatus := {
  declared := [OverallUnspecified; OverallSucceeded; OverallDegraded; OverallSkipped; OverallFailedBoot];
  as_i32 x := match x with OverallUnspecified => 0 | OverallSucceeded => 1 | OverallDegraded => 2 | OverallSkipped => 3 | OverallFailedBoot => 4 end
}.
Solve Obligations with solve_enum.
#[global] Program Instance ProvisionStepStatus_enum : ProtoEnum ProvisionStepStatus := {
  declared := [StepUnspecified; StepSucceeded; StepFailed; StepSkipped; StepUnsupported];
  as_i32 x := match x with StepUnspecified => 0 | StepSucceeded => 1 | StepFailed => 2 | StepSkipped => 3 | StepUnsupported => 4 end
}.
Solve Obligations with solve_enum.
#[global] Program Instance ProvisionFailurePolicy_enum : ProtoEnum ProvisionFailurePolicy := {
  declared := [PolicyUnspecified; PolicyBestEffort; PolicyFailBoot];
  as_i32 x := match x with PolicyUnspecified => 0 | PolicyBestEffort => 1 | PolicyFailBoot => 2 end
}.
Solve Obligations with solve_enum.
#[global] Program Instance VmState_enum : ProtoEnum VmState := {
  declared := [VmUnspecified; VmStarting; VmRunning; VmStopping; VmStopped; VmFailed];
  as_i32 x := match x with VmUnspecified => 0 | VmStarting => 1 | VmRunning => 2 | VmStopping => 3 | VmStopped => 4 | VmFailed => 5 end
}.
Solve Obligations with solve_enum.
#[global] Program Instance ReadinessReason_enum : ProtoEnum ReadinessReason := {
  declared := [ReasonUnspecified; ReasonVmStarting; ReasonVmStopping; ReasonVmStopped; ReasonVmFailed; ReasonAgentNotRequired; ReasonAgentUnavailable; ReasonAgentStatusStale; ReasonGuestStarting; ReasonGuestFailed; ReasonGuestReportedReady];
  as_i32 x := match x with ReasonUnspecified => 0 | ReasonVmStarting => 1 | ReasonVmStopping => 2 | ReasonVmStopped => 3 | ReasonVmFailed => 4 | ReasonAgentNotRequired => 5 | ReasonAgentUnavailable => 6 | ReasonAgentStatusStale => 7 | ReasonGuestStarting => 8 | ReasonGuestFailed => 9 | ReasonGuestReportedReady => 10 end
}.
Solve Obligations with solve_enum.
#[global] Program Instance AgentConnectionState_enum : ProtoEnum AgentConnectionState := {
  declared := [ConnectionUnspecified; ConnectionConnecting; ConnectionResponsive; ConnectionUnresponsive];
  as_i32 x := match x with ConnectionUnspecified => 0 | ConnectionConnecting => 1 | ConnectionResponsive => 2 | ConnectionUnresponsive => 3 end
}.
Solve Obligations with solve_enum.
#[global] Program Instance Freshness_enum : ProtoEnum Freshness := {
  declared := [FreshnessUnspecified; Fresh; Stale];
  as_i32 x := match x with FreshnessUnspecified => 0 | Fresh => 1 | Stale => 2 end
}.
Solve Obligations with solve_enum.
#[global] Program Instance StaleReason_enum : ProtoEnum StaleReason := {
  declared := [StaleUnspecified; ReceiptAge; MonitorStopping];
  as_i32 x := match x with StaleUnspecified => 0 | ReceiptAge => 1 | MonitorStopping => 2 end
}.
Solve Obligations with solve_enum.

(** ** Messages *)

Record Timestamp : Type := mkTimestamp { ts_seconds : Z; ts_nanos : Z }.
Record Duration : Type := mkDuration { du_seconds : Z; du_nanos : Z }.

Record AgentIdentity : Type := mkAgentIdentity {
  ai_instance_id : option text; ai_version : option text; ai_boot_id : option text
}.

Record SshListenerReport : Type := mkSshListenerReport {
  sl_backend : text; sl_port : Z; sl_host_public_key : text; sl_config_verified : bool; sl_kex_verified : bool
}.

Record SystemInfo : Type := mkSystemInfo {
  si_kernel_version : option text; si_os_name : option text; si_os_version : option text;
  si_architecture : option text; si_hostname : option text; si_ip_addresses : list text
}.

Record GuestBootReport : Type := mkGuestBootReport {
  gb_mode : option Z; gb_requested_init : option text; gb_handoff_init_path : option text;
  gb_probed_init_paths : list text; gb_agent_path : option text; gb_agent_pid : option Z;
  gb_agent_is_pid1 : option bool; gb_message : option text
}.

Record ProvisionStepReport : Type := mkProvisionStepReport {
  ps_id : option text; ps_status : option Z; ps_failure_policy : option Z; ps_changed : option bool;
  ps_backend : option text; ps_message : option text; ps_error_chain : option text; ps_duration : option Duration
}.

Record ProvisionReport : Type := mkProvisionReport {
  pr_status : option Z; pr_started_at : option Timestamp; pr_finished_at : option Timestamp;
  pr_duration : option Duration; pr_message : option text; pr_steps : list ProvisionStepReport
}.

Record AgentStatusReport : Type := mkAgentStatusReport {
  sr_observed_at : option Timestamp; sr_state : option Z; sr_code : option text; sr_message : option text;
  sr_system : option SystemInfo; sr_boot : option GuestBootReport; sr_provisioning : option ProvisionReport;
  sr_ssh : option SshListenerReport
}.

Record AgentStatus : Type := mkAgentStatus {
  as_identity : option AgentIdentity; as_report : option AgentStatusReport
}.

Record MemoryReclaimReport : Type := mkMemoryReclaimReport {
  rc_finished_at : option Timestamp; rc_mode : option text; rc_outcome : option text;
  rc_requested_bytes : option Z; rc_cached_before_bytes : option Z; rc_cached_after_bytes : option Z;
  rc_compacted : option bool; rc_runs : option Z
}.

Record MemoryMetrics : Type := mkMemoryMetrics {
  mm_total_bytes : option Z; mm_available_bytes : option Z; mm_free_bytes : option Z; mm_cached_bytes : option Z
}.

Record CpuMetrics : Type := mkCpuMetrics {
  cm_logical_cpu_count : option Z; cm_user_seconds : option Z; cm_nice_seconds : option Z;
  cm_system_seconds : option Z; cm_idle_seconds : option Z; cm_iowait_seconds : option Z;
  cm_irq_seconds : option Z; cm_softirq_seconds : option Z; cm_steal_seconds : option Z
}.

Record LoadAverageMetrics : Type := mkLoadAverageMetrics {
  lm_one_minute : option Z; lm_five_minutes : option Z; lm_fifteen_minutes : option Z
}.

Record FilesystemMetrics : Type := mkFilesystemMetrics {
  fs_mount_point : option text; fs_filesystem_type : option text; fs_total_bytes : option Z;
  fs_used_bytes : option Z; fs_available_bytes : option Z
}.

Record NetworkInterfaceMetrics : Type := mkNetworkInterfaceMetrics {
  ni_name : option text; ni_mac : option text; ni_receive_bytes : option Z; ni_transmit_bytes : option Z
}.

Record BlockDeviceMetrics : Type := mkBlockDeviceMetrics {
  bd_name : option text; bd_read_bytes : option Z; bd_read_operations : option Z; bd_write_bytes : option Z;
  bd_write_operations : option Z; bd_in_flight_operations : option Z
}.

Record MetricSnapshot : Type := mkMetricSnapshot {
  ms_memory : option MemoryMetrics; ms_cpu : option CpuMetrics; ms_load_average : option LoadAverageMetrics;
  ms_uptime_seconds : option Z; ms_filesystems : list FilesystemMetrics;
  ms_network_interfaces : list NetworkInterfaceMetrics; ms_block_devices : list BlockDeviceMetrics;
  ms_memory_reclaim : option MemoryReclaimReport
}.

Record AgentMetricReport : Type := mkAgentMetricReport {
  mr_observed_at : option Timestamp; mr_snapshot : option MetricSnapshot
}.

Record AgentMetrics : Type := mkAgentMetrics {
  am_agent_instance_id : option text; am_report : option AgentMetricReport
}.

(** ** What the monitor answers *)

Record MonitorSnapshot : Type := mkMonitorSnapshot { mo_instance_id : option text; mo_observed_at : option Timestamp }.

Record VmSnapshot : Type := mkVmSnapshot {
  vs_state : option Z; vs_state_changed_at : option Timestamp; vs_running_since : option Timestamp;
  vs_code : option text; vs_message : option text
}.

Record Readiness : Type := mkReadiness { rd_ready : option bool; rd_reason : option Z }.

Record AgentConnection : Type := mkAgentConnection {
  ac_state : option Z; ac_last_success_at : option Timestamp; ac_last_failure_at : option Timestamp;
  ac_code : option text; ac_message : option text
}.

Record AgentStatusObservation : Type := mkAgentStatusObservation {
  ao_received_at : option Timestamp; ao_stale_at : option Timestamp; ao_freshness : option Z;
  ao_stale_reason : option Z; ao_report : option AgentStatusReport
}.

(** [DisabledAgent] has no fields; [EnabledAgent] is the other mode. *)
Inductive HostAgent : Type :=
| DisabledAgent
| EnabledAgent (connection : option AgentConnection) (identity : option AgentIdentity)
    (status : option AgentStatusObservation) (services : list text).

Record HostStatus : Type := mkHostStatus {
  hs_machine_id : option text; hs_name : option text; hs_monitor : option MonitorSnapshot;
  hs_vm : option VmSnapshot; hs_readiness : option Readiness; hs_agent : option HostAgent; hs_run_id : option text
}.

Record AgentMetricsObservation : Type := mkAgentMetricsObservation {
  mt_agent_instance_id : option text; mt_received_at : option Timestamp; mt_stale_at : option Timestamp;
  mt_freshness : option Z; mt_stale_reason : option Z; mt_report : option AgentMetricReport
}.

Record HostMemoryReclaim : Type := mkHostMemoryReclaim {
  hr_requested : option bool; hr_qualification : option text; hr_effective : option bool;
  hr_released_bytes : option Z; hr_released_extents : option Z; hr_retried_faults : option Z;
  hr_skipped_reports : option Z; hr_failed_operations : option Z; hr_observed_at : option Timestamp
}.

Record HostMetrics : Type := mkHostMetrics {
  hm_machine_id : option text; hm_name : option text; hm_monitor : option MonitorSnapshot;
  hm_metrics : option AgentMetricsObservation; hm_actual_backend : option text;
  hm_host_memory_reclaim : option HostMemoryReclaim
}.

(** ** Kernel parameter of the guest port *)

Definition DEFAULT_GUEST_CONTROL_PORT : Z := 1027.
Definition KERNEL_PARAM_GUEST_PORT : text := lit "silo.guest.port".

Definition guest_port_arg (port : Z) : text := KERNEL_PARAM_GUEST_PORT ++ lit "=" ++ show_uint port.

(** The loop over the arguments: the first usable port. *)
Fixpoint parse_guest_port_args (args : list text) : Z :=
  match args with
  | [] => DEFAULT_GUEST_CONTROL_PORT
  | arg :: args =>
      match strip_prefix (KERNEL_PARAM_GUEST_PORT ++ lit "=") arg with
      | None => parse_guest_port_args args
      | Some raw_port =>
          match parse_uint u32_max raw_port with
          | None => parse_guest_port_args args
          | Some port => if (1 <=? port) && (port <=? 65535) then port else parse_guest_port_args args
          end
      end
  end.

Definition truncate_utf8 (value : text) (maximum : nat) : text :=
  take (boundary_below value (Nat.min (length value) maximum)) value.
