(* ===== verification/MonitorValidate.v ===== *)
(** Validation of what a guest agent reports: the [validate_*] functions of
    [virt/vmm/src/state.rs].

    The guest is not trusted: a report enters the monitor's state only when
    every field is present where it must be, within its length, and in
    canonical form. *)

From stdpp Require Import strings gmap.
From S2P Require Import Prelude Bytes RustStr RustSort RustText RustNet Protocol.

Inductive StoreError : Type :=
| Poisoned
| Validation (message : text)
| ProtocolError (message : text)
| IdentityMismatch
| Clock
| SshEpochExhausted.

(** The crates the monitor calls: [uuid], [russh::keys] and the conversion of
    [prost_types].  A [SystemTime] is its number of nanoseconds. *)
Class Externals := {
  Uuid : Type;
  Uuid_eq_dec :: EqDecision Uuid;
  (** [Uuid::parse_str] *)
  parse_uuid : text -> option Uuid;
  (** [uuid.hyphenated().to_string()] *)
  hyphenated : Uuid -> text;
  (** [PublicKey::from_openssh(..).is_ok()] *)
  valid_public_key : text -> bool;
  (** [From<SystemTime> for Timestamp] *)
  timestamp : Z -> Timestamp
}.

Definition invalid (message : text) : StoreError := Validation message.

(** A [for] loop over checks. *)
Definition each {A} (check : A -> res StoreError unit) (l : list A) : res StoreError unit :=
  foldM (fun _ => check) tt l.

(** ** Fields *)

(** [text]. *)
Definition check_text (field value : text) (maximum : Z) (nonempty : bool) : res StoreError unit :=
  if (nonempty && bool_decide (value = [])) || (maximum <? zlen value)
  then Err (invalid (field ++ lit " has an invalid length"))
  else Ok tt.

Definition required (field : text) (value : option text) (maximum : Z) : res StoreError text :=
  v ← ok_or value (invalid (field ++ lit " is required"));
  _ ← check_text field v maximum true;
  Ok v.

Definition optional (field : text) (value : option text) (maximum : Z) : res StoreError unit :=
  match value with
  | Some v => check_text field v maximum false
  | None => Ok tt
  end.

Definition required_enum {T} `{ProtoEnum T} (field : text) (value : option Z) : res StoreError T :=
  v ← ok_or value (invalid (field ++ lit " is required"));
  ok_or (try_from v) (invalid (field ++ lit " is invalid")).

Definition TIMESTAMP_MIN_SECONDS : Z := -62135596800.
Definition TIMESTAMP_MAX_SECONDS : Z := 253402300799.

Definition validate_timestamp (field : text) (value : option Timestamp) : res StoreError Z :=
  v ← ok_or value (invalid (field ++ lit " is required"));
  if negb ((TIMESTAMP_MIN_SECONDS <=? ts_seconds v) && (ts_seconds v <=? TIMESTAMP_MAX_SECONDS))
     || negb ((0 <=? ts_nanos v) && (ts_nanos v <? 1000000000))
  then Err (invalid (field ++ lit " is invalid"))
  else Ok (ts_seconds v * 1000000000 + ts_nanos v).

Definition validate_duration (field : text) (value : option Duration) : res StoreError unit :=
  v ← ok_or value (invalid (field ++ lit " is required"));
  if (du_seconds v <? 0) || negb ((0 <=? du_nanos v) && (du_nanos v <? 1000000000))
  then Err (invalid (field ++ lit " is invalid"))
  else Ok tt.

(** [f64::is_finite] and [value < 0.0], on the bits. *)
Definition f64_is_finite (bits : Z) : bool := negb (Z.land (Z.shiftr bits 52) 0x7FF =? 0x7FF).
Definition f64_is_negative (bits : Z) : bool := Z.testbit bits 63 && negb (bits =? 2 ^ 63).

Definition finite_nonnegative (field : text) (value : option Z) : res StoreError unit :=
  v ← ok_or value (invalid (field ++ lit " is required"));
  if negb (f64_is_finite v) || f64_is_negative v
  then Err (invalid (field ++ lit " must be finite and nonnegative"))
  else Ok tt.

(** [checked_add] on [u64]. *)
Definition checked_add (a b : Z) : option Z := if a + b <? 2 ^ 64 then Some (a + b) else None.

Definition totals (field : text) (total used available : option Z) : res StoreError unit :=
  total ← ok_or total (invalid (field ++ lit ".total_bytes is required"));
  used ← ok_or used (invalid (field ++ lit ".used_bytes is required"));
  available ← ok_or available (invalid (field ++ lit ".available_bytes is required"));
  if match checked_add used available with Some sum => total <? sum | None => true end
  then Err (invalid (field ++ lit " used_bytes plus available_bytes exceeds total_bytes"))
  else Ok tt.

Definition is_mac_digit (b : Z) : bool := is_ascii_digit b || in_range 97 102 b.

(** The loop [for _ in 0..6] over the parts, and the check for a seventh. *)
Fixpoint mac_parts (n : nat) (parts : list text) : res StoreError unit :=
  match n, parts with
  | O, [] => Ok tt
  | O, _ :: _ => Err (invalid (lit "metrics.network_interfaces.mac is invalid"))
  | S _, [] => Err (invalid (lit "metrics.network_interfaces.mac is invalid"))
  | S n, part :: parts =>
      if negb (zlen part =? 2) || negb (forallb is_mac_digit part)
      then Err (invalid (lit "metrics.network_interfaces.mac must be canonical lowercase hexadecimal"))
      else mac_parts n parts
  end.

Definition validate_mac (value : text) : res StoreError unit := mac_parts 6 (split_on 58 value).

Section Validation.
Context `{Externals}.

(** ** Status *)

(** The body of the loop over the two identifiers. *)
Definition validate_uuid (entry : text * option text) : res StoreError unit :=
  let '(field, value) := entry in
  value ← required field value 36;
  parsed ← ok_or (parse_uuid value) (invalid (field ++ lit " must be a UUID"));
  if negb (bool_decide (hyphenated parsed = value))
  then Err (invalid (field ++ lit " must be a canonical lowercase UUID"))
  else Ok tt.

Definition validate_identity (identity : AgentIdentity) : res StoreError unit :=
  _ ← each validate_uuid [(lit "instance_id", ai_instance_id identity); (lit "boot_id", ai_boot_id identity)];
  _ ← required (lit "version") (ai_version identity) MAX_INFO_BYTES;
  Ok tt.

Definition validate_ssh (ssh : SshListenerReport) : res StoreError unit :=
  if negb (bool_decide (sl_backend ssh ∈ [lit "native"; lit "openssh"; lit "systemd-openssh"]))
     || negb (sl_port ssh =? 22) || negb (sl_config_verified ssh)
     || negb (valid_public_key (sl_host_public_key ssh))
  then Err (invalid (lit "invalid SSH listener descriptor"))
  else Ok tt.

(** The [match state]: which of code and message a state has. *)
Definition validate_state (state : AgentStatusState) (code message : option text) : res StoreError unit :=
  match state with
  | AgentStarting =>
      match code, message with
      | None, None => Ok tt
      | Some _, Some _ =>
          _ ← required (lit "status.code") code MAX_CODE_BYTES;
          _ ← required (lit "status.message") message MAX_DIAGNOSTIC_BYTES;
          Ok tt
      | _, _ => Err (invalid (lit "starting status code and message must both be present or both be absent"))
      end
  | AgentReady =>
      if bool_decide (is_Some code) || bool_decide (is_Some message)
      then Err (invalid (lit "ready status must not contain code or message"))
      else Ok tt
  | AgentFailed =>
      _ ← required (lit "status.code") code MAX_CODE_BYTES;
      _ ← required (lit "status.message") message MAX_DIAGNOSTIC_BYTES;
      Ok tt
  | AgentUnspecified => Err (invalid (lit "status.state must be specified"))
  end.

Definition optional_fields (maximum : Z) (fields : list (text * option text)) : res StoreError unit :=
  each (fun '(field, value) => optional field value maximum) fields.

(** The body of the loop over the addresses. *)
Definition validate_address (address : text) : res StoreError unit :=
  _ ← check_text (lit "system.ip_addresses") address MAX_INFO_BYTES true;
  parsed ← ok_or (parse_ip address) (invalid (lit "system.ip_addresses contains an invalid IP address"));
  if negb (bool_decide (show_ip parsed = address))
  then Err (invalid (lit "system.ip_addresses must use canonical textual representation"))
  else Ok tt.

Definition validate_system (system : SystemInfo) : res StoreError unit :=
  _ ← optional_fields MAX_INFO_BYTES
        [(lit "system.kernel_version", si_kernel_version system); (lit "system.os_name", si_os_name system);
         (lit "system.os_version", si_os_version system); (lit "system.architecture", si_architecture system);
         (lit "system.hostname", si_hostname system)];
  if MAX_AGENT_IP_ADDRESSES <? zlen (si_ip_addresses system)
  then Err (invalid (lit "system.ip_addresses exceeds the maximum cardinality"))
  else each validate_address (si_ip_addresses system).

Definition validate_boot (boot : GuestBootReport) : res StoreError unit :=
  mode ← required_enum (lit "boot.mode") (gb_mode boot);
  if bool_decide (mode = BootUnspecified) then Err (invalid (lit "boot.mode must be specified"))
  else
    _ ← optional_fields MAX_INFO_BYTES
          [(lit "boot.requested_init", gb_requested_init boot);
           (lit "boot.handoff_init_path", gb_handoff_init_path boot);
           (lit "boot.agent_path", gb_agent_path boot); (lit "boot.message", gb_message boot)];
    if MAX_PROBED_INIT_PATHS <? zlen (gb_probed_init_paths boot)
    then Err (invalid (lit "boot.probed_init_paths exceeds the maximum cardinality"))
    else each (fun path => check_text (lit "boot.probed_init_paths") path MAX_PATH_BYTES true)
           (gb_probed_init_paths boot).

(** One turn of the loop over the steps; the set holds the ids so far. *)
Definition validate_step (ids : gset text) (step : ProvisionStepReport) : res StoreError (gset text) :=
  id ← required (lit "provisioning.steps.id") (ps_id step) MAX_INFO_BYTES;
  if bool_decide (id ∈ ids) then Err (invalid (lit "provisioning step IDs must be unique"))
  else
    state ← required_enum (lit "provisioning.steps.status") (ps_status step);
    policy ← required_enum (lit "provisioning.steps.failure_policy") (ps_failure_policy step);
    if bool_decide (state = StepUnspecified) || bool_decide (policy = PolicyUnspecified)
    then Err (invalid (lit "provisioning step enums must be specified"))
    else
      _ ← optional_fields MAX_DIAGNOSTIC_BYTES
            [(lit "provisioning.steps.backend", ps_backend step);
             (lit "provisioning.steps.message", ps_message step);
             (lit "provisioning.steps.error_chain", ps_error_chain step)];
      _ ← validate_duration (lit "provisioning.steps.duration") (ps_duration step);
      Ok ({[id]} ∪ ids).

Definition validate_provisioning (provisioning : ProvisionReport) : res StoreError unit :=
  overall ← required_enum (lit "provisioning.status") (pr_status provisioning);
  if bool_decide (overall = OverallUnspecified) then Err (invalid (lit "provisioning.status must be specified"))
  else
    started ← validate_timestamp (lit "provisioning.started_at") (pr_started_at provisioning);
    finished ← validate_timestamp (lit "provisioning.finished_at") (pr_finished_at provisioning);
    if finished <? started
    then Err (invalid (lit "provisioning.finished_at precedes provisioning.started_at"))
    else
      _ ← validate_duration (lit "provisioning.duration") (pr_duration provisioning);
      _ ← optional (lit "provisioning.message") (pr_message provisioning) MAX_DIAGNOSTIC_BYTES;
      if MAX_PROVISIONING_STEPS <? zlen (pr_steps provisioning)
      then Err (invalid (lit "provisioning.steps exceeds the maximum cardinality"))
      else
        _ ← foldM validate_step ∅ (pr_steps provisioning);
        Ok tt.

(** [if let Some(..) = ..]. *)
Definition if_some {A} (o : option A) (check : A -> res StoreError unit) : res StoreError unit :=
  match o with Some a => check a | None => Ok tt end.

Definition validate_status_report (report : AgentStatusReport) : res StoreError unit :=
  _ ← if_some (sr_ssh report) validate_ssh;
  _ ← validate_timestamp (lit "status.observed_at") (sr_observed_at report);
  state ← required_enum (lit "status.state") (sr_state report);
  _ ← optional (lit "status.code") (sr_code report) MAX_CODE_BYTES;
  _ ← optional (lit "status.message") (sr_message report) MAX_DIAGNOSTIC_BYTES;
  _ ← validate_state state (sr_code report) (sr_message report);
  _ ← if_some (sr_system report) validate_system;
  _ ← if_some (sr_boot report) validate_boot;
  if_some (sr_provisioning report) validate_provisioning.

Definition validate_status (status : AgentStatus) : res StoreError unit :=
  identity ← ok_or (as_identity status) (invalid (lit "identity is required"));
  _ ← validate_identity identity;
  report ← ok_or (as_report status) (invalid (lit "report is required"));
  validate_status_report report.

(** ** Metrics *)

(** One turn of the loop: the names so far and the one before. *)
Definition named_turn {T} (kind : text) (name : T -> option text) (validate : T -> res StoreError unit)
    (st : gset text * option text) (value : T) : res StoreError (gset text * option text) :=
  let '(names, previous) := st in
  name ← ok_or (name value) (invalid (lit "metrics." ++ kind ++ lit ".name is required"));
  _ ← check_text (lit "metrics." ++ kind ++ lit ".name") name MAX_INFO_BYTES true;
  if bool_decide (name ∈ names) then Err (invalid (lit "metrics." ++ kind ++ lit " names must be unique"))
  else if match previous with
          | Some previous => bool_decide (bytes_cmp previous name <> Lt)
          | None => false
          end
  then Err (invalid (lit "metrics." ++ kind ++ lit " must be sorted by name"))
  else
    _ ← validate value;
    Ok ({[name]} ∪ names, Some name).

Definition validate_named_metrics {T} (kind : text) (values : list T) (name : T -> option text)
    (validate : T -> res StoreError unit) : res StoreError unit :=
  if MAX_METRIC_ARRAY_ENTRIES <? zlen values
  then Err (invalid (lit "metrics." ++ kind ++ lit " exceeds the maximum cardinality"))
  else
    _ ← foldM (named_turn kind name validate) (∅, None) values;
    Ok tt.

Definition validate_memory (memory : MemoryMetrics) : res StoreError unit :=
  total ← ok_or (mm_total_bytes memory) (invalid (lit "metrics.memory.total_bytes is required"));
  available ← ok_or (mm_available_bytes memory) (invalid (lit "metrics.memory.available_bytes is required"));
  if total <? available then Err (invalid (lit "metrics.memory.available_bytes exceeds total_bytes"))
  else Ok tt.

Definition finite_fields (prefix : text) (fields : list (text * option Z)) : res StoreError unit :=
  each (fun '(field, value) => finite_nonnegative (prefix ++ field) value) fields.

Definition validate_cpu (cpu : CpuMetrics) : res StoreError unit :=
  if default 0 (cm_logical_cpu_count cpu) =? 0
  then Err (invalid (lit "metrics.cpu.logical_cpu_count must be positive"))
  else
    finite_fields (lit "metrics.cpu.")
      [(lit "user_seconds", cm_user_seconds cpu); (lit "nice_seconds", cm_nice_seconds cpu);
       (lit "system_seconds", cm_system_seconds cpu); (lit "idle_seconds", cm_idle_seconds cpu);
       (lit "iowait_seconds", cm_iowait_seconds cpu); (lit "irq_seconds", cm_irq_seconds cpu);
       (lit "softirq_seconds", cm_softirq_seconds cpu); (lit "steal_seconds", cm_steal_seconds cpu)].

Definition validate_load (load : LoadAverageMetrics) : res StoreError unit :=
  finite_fields (lit "metrics.load_average.")
    [(lit "one_minute", lm_one_minute load); (lit "five_minutes", lm_five_minutes load);
     (lit "fifteen_minutes", lm_fifteen_minutes load)].

Definition validate_filesystem (metric : FilesystemMetrics) : res StoreError unit :=
  _ ← optional (lit "metrics.filesystems.filesystem_type") (fs_filesystem_type metric) MAX_INFO_BYTES;
  totals (lit "metrics.filesystems") (fs_total_bytes metric) (fs_used_bytes metric) (fs_available_bytes metric).

Definition validate_interface (metric : NetworkInterfaceMetrics) : res StoreError unit :=
  _ ← optional (lit "metrics.network_interfaces.mac") (ni_mac metric) MAX_INFO_BYTES;
  _ ← if_some (ni_mac metric) validate_mac;
  if bool_decide (ni_receive_bytes metric = None) || bool_decide (ni_transmit_bytes metric = None)
  then Err (invalid (lit "metrics.network_interfaces byte counters are required"))
  else Ok tt.

Definition validate_block_device (metric : BlockDeviceMetrics) : res StoreError unit :=
  each (fun '(field, value) =>
          if bool_decide (value = None)
          then Err (invalid (lit "metrics.block_devices." ++ field ++ lit " is required"))
          else Ok tt)
    [(lit "read_bytes", bd_read_bytes metric); (lit "read_operations", bd_read_operations metric);
     (lit "write_bytes", bd_write_bytes metric); (lit "write_operations", bd_write_operations metric);
     (lit "in_flight_operations", bd_in_flight_operations metric)].

Definition validate_snapshot (snapshot : MetricSnapshot) : res StoreError unit :=
  _ ← if_some (ms_memory snapshot) validate_memory;
  _ ← if_some (ms_cpu snapshot) validate_cpu;
  _ ← if_some (ms_load_average snapshot) validate_load;
  _ ← (if bool_decide (is_Some (ms_uptime_seconds snapshot))
       then finite_nonnegative (lit "metrics.uptime_seconds") (ms_uptime_seconds snapshot) else Ok tt);
  _ ← validate_named_metrics (lit "filesystems") (ms_filesystems snapshot) fs_mount_point validate_filesystem;
  _ ← validate_named_metrics (lit "network_interfaces") (ms_network_interfaces snapshot) ni_name validate_interface;
  validate_named_metrics (lit "block_devices") (ms_block_devices snapshot) bd_name validate_block_device.

Definition validate_metrics (metrics : AgentMetrics) : res StoreError unit :=
  value ← required (lit "agent_instance_id") (am_agent_instance_id metrics) 36;
  _ ← ok_or (parse_uuid value) (invalid (lit "agent_instance_id must be a UUID"));
  report ← ok_or (am_report metrics) (invalid (lit "report is required"));
  _ ← validate_timestamp (lit "metrics.observed_at") (mr_observed_at report);
  snapshot ← ok_or (mr_snapshot report) (invalid (lit "metrics.snapshot is required"));
  validate_snapshot snapshot.
End Validation.
