(* ===== verification/MonitorChecks.v ===== *)
(** What validation accepts: the declarative form of every check of
    [MonitorValidate], and that the checks decide it. *)

From stdpp Require Import strings gmap sorting.
From S2P Require Import Prelude Bytes RustStr RustSort RustText RustNet Protocol MonitorValidate.

(** ** Programs of checks *)

Lemma then_ok {A B} (m : res StoreError A) (k : A -> res StoreError B) b :
  m ≫= k = Ok b <-> exists a, m = Ok a /\ k a = Ok b.
Proof. apply res_bind_ok. Qed.

Lemma seq_ok {B} (m : res StoreError unit) (k : res StoreError B) b : (_ ← m; k) = Ok b <-> m = Ok tt /\ k = Ok b.
Proof. rewrite then_ok. split; [intros ([] & ? & ?); done|intros [? ?]; by exists tt]. Qed.

Lemma each_ok {A} (check : A -> res StoreError unit) l : each check l = Ok tt <-> Forall (fun a => check a = Ok tt) l.
Proof.
  unfold each. induction l as [|a l IH]; simpl; [split; [by constructor|done]|]. rewrite Forall_cons_iff.
  destruct (check a) as [[]| |]; cbn; [rewrite IH; tauto|split; [done|by intros []]..].
Qed.

Lemma if_some_ok {A} (o : option A) (check : A -> res StoreError unit) :
  if_some o check = Ok tt <-> forall a, o = Some a -> check a = Ok tt.
Proof. destruct o; simpl; split; try done; [by intros ? ? [= <-]|intros H; by apply H]. Qed.

Lemma ok_or_given {A} (o : option A) (e : StoreError) a : ok_or o e = Ok a <-> o = Some a.
Proof. by destruct o; simpl; split; intros [= <-]. Qed.

Lemma guard_ok {B} (c : bool) e (k : res StoreError B) b : (if c then Err e else k) = Ok b <-> c = false /\ k = Ok b.
Proof. destruct c; split; try done; [by intros [? _]|by intros [_ ?]]. Qed.

(** ** Fields *)

Definition within (maximum : Z) (t : text) : Prop := 1 <= zlen t <= maximum.
Definition opt_within (maximum : Z) (o : option text) : Prop := forall t, o = Some t -> zlen t <= maximum.

Lemma check_text_ok field value maximum nonempty : check_text field value maximum nonempty = Ok tt <->
  (nonempty = true -> 1 <= zlen value) /\ zlen value <= maximum.
Proof.
  unfold check_text. rewrite guard_ok, orb_false_iff, Z.ltb_ge. destruct nonempty; cbn [andb].
  - rewrite bool_decide_eq_false. assert (value <> [] <-> 1 <= zlen value) as -> by (unfold zlen; destruct value; simpl; split; try done; lia).
    tauto.
  - split; [intros [[_ ?] _]; by split|intros [_ ?]]. by repeat split.
Qed.

Lemma check_nonempty_ok field value maximum : check_text field value maximum true = Ok tt <-> within maximum value.
Proof.
  rewrite check_text_ok. unfold within. split; [intros [H1 H2]; specialize (H1 eq_refl); lia|]. intros [? ?]. by split.
Qed.

Lemma required_ok field value maximum v : required field value maximum = Ok v <-> value = Some v /\ within maximum v.
Proof.
  unfold required, within. rewrite then_ok. setoid_rewrite ok_or_given. setoid_rewrite seq_ok. setoid_rewrite check_text_ok. split.
  - intros (a & -> & [H1 H2] & [= <-]). specialize (H1 eq_refl). split; [done|lia].
  - intros [-> [H1 H2]]. exists v. split; [done|]. split; [split; [done|lia]|done].
Qed.

Lemma optional_ok field value maximum : optional field value maximum = Ok tt <-> opt_within maximum value.
Proof.
  unfold optional, opt_within. destruct value as [v|]; [|split; [done|done]]. rewrite check_text_ok. split.
  - by intros [_ ?] t [= <-].
  - intros Hv. split; [done|]. by apply Hv.
Qed.

Lemma optional_fields_ok maximum fields : optional_fields maximum fields = Ok tt <-> Forall (fun e => opt_within maximum e.2) fields.
Proof. unfold optional_fields. rewrite each_ok. apply Forall_iff. intros [field value]. apply optional_ok. Qed.

Definition declares {T} `{ProtoEnum T} (o : option Z) (x : T) : Prop := o = Some (as_i32 x).

Lemma required_enum_ok {T} `{ProtoEnum T} field value (x : T) : required_enum field value = Ok x <-> declares value x.
Proof.
  unfold required_enum, declares. rewrite then_ok. setoid_rewrite ok_or_given. split.
  - intros (n & -> & Hn%try_from_inv). by subst.
  - intros ->. exists (as_i32 x). split; [done|]. apply try_from_as_i32.
Qed.

Definition timestamp_ok (o : option Timestamp) (t : Z) : Prop :=
  exists v, o = Some v /\ TIMESTAMP_MIN_SECONDS <= ts_seconds v <= TIMESTAMP_MAX_SECONDS /\ 0 <= ts_nanos v < 1000000000 /\
    t = ts_seconds v * 1000000000 + ts_nanos v.

Lemma validate_timestamp_ok field value t : validate_timestamp field value = Ok t <-> timestamp_ok value t.
Proof.
  unfold validate_timestamp, timestamp_ok. rewrite then_ok. setoid_rewrite ok_or_given. apply exist_proper. intros v.
  rewrite guard_ok, orb_false_iff, !negb_false_iff, !andb_true_iff, !Z.leb_le, Z.ltb_lt.
  split; [intros (-> & ? & [= <-])|intros (-> & ? & ? & ->)]; tauto.
Qed.

Definition duration_ok (o : option Duration) : Prop :=
  exists v, o = Some v /\ 0 <= du_seconds v /\ 0 <= du_nanos v < 1000000000.

Lemma validate_duration_ok field value : validate_duration field value = Ok tt <-> duration_ok value.
Proof.
  unfold validate_duration, duration_ok. rewrite then_ok. setoid_rewrite ok_or_given. setoid_rewrite guard_ok.
  apply exist_proper. intros v. rewrite orb_false_iff, Z.ltb_ge, negb_false_iff, andb_true_iff, Z.leb_le, Z.ltb_lt. tauto.
Qed.

(** ** Status reports *)

Section Reports.
Context `{EXT : Externals}.

Definition canonical_uuid (o : option text) : Prop :=
  exists v u, o = Some v /\ within 36 v /\ parse_uuid v = Some u /\ hyphenated u = v.

Definition identity_ok (i : AgentIdentity) : Prop :=
  canonical_uuid (ai_instance_id i) /\ canonical_uuid (ai_boot_id i) /\
  exists v, ai_version i = Some v /\ within MAX_INFO_BYTES v.

Lemma validate_uuid_ok field o : validate_uuid (field, o) = Ok tt <-> canonical_uuid o.
Proof.
  unfold validate_uuid, canonical_uuid. rewrite then_ok. setoid_rewrite required_ok. apply exist_proper. intros v.
  rewrite then_ok. setoid_rewrite ok_or_given. setoid_rewrite guard_ok. setoid_rewrite negb_false_iff. setoid_rewrite bool_decide_eq_true.
  split; [intros [[-> Hw] (u & Hu & Hh & _)]; by exists u|intros (u & -> & Hw & Hu & Hh)]. split; [done|]. by exists u.
Qed.

Lemma validate_identity_ok i : validate_identity i = Ok tt <-> identity_ok i.
Proof.
  unfold validate_identity, identity_ok. rewrite seq_ok, each_ok, !Forall_cons_iff, !validate_uuid_ok, then_ok. setoid_rewrite required_ok.
  split; [intros [(H1 & H2 & _) (v & Hv & _)]; by eauto|intros (H1 & H2 & v & Hv)]. split; [by repeat split; try apply Forall_nil|by exists v].
Qed.

Definition ssh_ok (ssh : SshListenerReport) : Prop :=
  sl_backend ssh ∈ [lit "native"; lit "openssh"; lit "systemd-openssh"] /\ sl_port ssh = 22 /\
  sl_config_verified ssh = true /\ valid_public_key (sl_host_public_key ssh) = true.

Lemma validate_ssh_ok ssh : validate_ssh ssh = Ok tt <-> ssh_ok ssh.
Proof.
  unfold validate_ssh, ssh_ok. rewrite guard_ok, !orb_false_iff, !negb_false_iff, bool_decide_eq_true, Z.eqb_eq. tauto.
Qed.

(** Which of code and message a state has. *)
Inductive state_ok : option Z -> option text -> option text -> Prop :=
| starting_plain : state_ok (Some (as_i32 AgentStarting)) None None
| starting_because code message : within MAX_CODE_BYTES code -> within MAX_DIAGNOSTIC_BYTES message ->
    state_ok (Some (as_i32 AgentStarting)) (Some code) (Some message)
| ready_plain : state_ok (Some (as_i32 AgentReady)) None None
| failed_because code message : within MAX_CODE_BYTES code -> within MAX_DIAGNOSTIC_BYTES message ->
    state_ok (Some (as_i32 AgentFailed)) (Some code) (Some message).

Lemma explained_ok code message :
  (_ ← required (lit "status.code") code MAX_CODE_BYTES; _ ← required (lit "status.message") message MAX_DIAGNOSTIC_BYTES; Ok tt) = Ok tt <->
  exists c m, code = Some c /\ message = Some m /\ within MAX_CODE_BYTES c /\ within MAX_DIAGNOSTIC_BYTES m.
Proof.
  rewrite then_ok. setoid_rewrite required_ok. setoid_rewrite then_ok. setoid_rewrite required_ok.
  split; [intros (c & [-> Hc] & m & [-> Hm] & _); by exists c, m|intros (c & m & -> & -> & Hc & Hm)]. exists c. split; [done|]. by exists m.
Qed.

Lemma validate_state_ok state code message :
  validate_state state code message = Ok tt <-> state_ok (Some (as_i32 state)) code message.
Proof.
  assert (forall x y : AgentStatusState, Some (as_i32 x) = Some (as_i32 y) -> x = y) as Hinj by (intros x y [= E]; by apply as_i32_inj).
  split.
  - destruct state; simpl; [done| | |].
    + destruct code as [c|], message as [m|]; try done; [|intros _; constructor]. intros (c' & m' & [= <-] & [= <-] & Hc & Hm)%explained_ok. by constructor.
    + rewrite guard_ok, orb_false_iff, !bool_decide_eq_false, <- !eq_None_not_Some. intros [[-> ->] _]. constructor.
    + intros (c & m & -> & -> & Hc & Hm)%explained_ok. by constructor.
  - intros Hs. remember (Some (as_i32 state)) as n eqn:En. destruct Hs; apply Hinj in En as <-; simpl; try done.
    + apply explained_ok. by exists code, message.
    + apply explained_ok. by exists code, message.
Qed.

Definition canonical_address (a : text) : Prop :=
  within MAX_INFO_BYTES a /\ exists ip, parse_ip a = Some ip /\ show_ip ip = a.

Lemma validate_address_ok a : validate_address a = Ok tt <-> canonical_address a.
Proof.
  unfold validate_address, canonical_address, within. rewrite seq_ok, check_text_ok, then_ok. setoid_rewrite ok_or_given. setoid_rewrite guard_ok.
  setoid_rewrite negb_false_iff. setoid_rewrite bool_decide_eq_true.
  split; [intros [[H1 H2] (ip & Hp & Hs & _)]; specialize (H1 eq_refl); split; [lia|by exists ip]|].
  intros [[H1 H2] (ip & Hp & Hs)]. split; [by split|]. by exists ip.
Qed.

Definition system_ok (s : SystemInfo) : Prop :=
  Forall (opt_within MAX_INFO_BYTES)
    [si_kernel_version s; si_os_name s; si_os_version s; si_architecture s; si_hostname s] /\
  zlen (si_ip_addresses s) <= MAX_AGENT_IP_ADDRESSES /\ Forall canonical_address (si_ip_addresses s).

Lemma validate_system_ok s : validate_system s = Ok tt <-> system_ok s.
Proof.
  unfold validate_system, system_ok. rewrite seq_ok, optional_fields_ok, guard_ok, Z.ltb_ge, each_ok, !Forall_cons_iff. cbn [snd].
  rewrite (Forall_iff _ _ _ validate_address_ok). split; intros H; decompose [and] H; repeat split; try done; apply Forall_nil.
Qed.

Definition boot_ok (r : GuestBootReport) : Prop :=
  (exists mode : GuestBootMode, declares (gb_mode r) mode /\ mode <> BootUnspecified) /\
  Forall (opt_within MAX_INFO_BYTES)
    [gb_requested_init r; gb_handoff_init_path r; gb_agent_path r; gb_message r] /\
  zlen (gb_probed_init_paths r) <= MAX_PROBED_INIT_PATHS /\ Forall (within MAX_PATH_BYTES) (gb_probed_init_paths r).

Lemma validate_boot_ok r : validate_boot r = Ok tt <-> boot_ok r.
Proof.
  unfold validate_boot, boot_ok. rewrite then_ok. setoid_rewrite required_enum_ok. setoid_rewrite guard_ok. setoid_rewrite seq_ok.
  setoid_rewrite optional_fields_ok. setoid_rewrite guard_ok. setoid_rewrite Z.ltb_ge. setoid_rewrite each_ok.
  setoid_rewrite bool_decide_eq_false. repeat setoid_rewrite Forall_cons_iff.
  pose proof (Forall_iff _ (gb_probed_init_paths r) _ (fun p => check_nonempty_ok (lit "boot.probed_init_paths") p MAX_PATH_BYTES)) as Hp.
  setoid_rewrite Hp. cbn [snd]. split.
  - intros (mode & Hd & Hn & (H1 & H2 & H3 & H4 & _) & H5 & H6). split; [by exists mode|]. by repeat split; try apply Forall_nil.
  - intros ((mode & Hd & Hn) & (H1 & H2 & H3 & H4 & _) & H5 & H6). exists mode. by repeat split; try apply Forall_nil.
Qed.

Definition step_ok (s : ProvisionStepReport) : Prop :=
  (exists id, ps_id s = Some id /\ within MAX_INFO_BYTES id) /\
  (exists state : ProvisionStepStatus, declares (ps_status s) state /\ state <> StepUnspecified) /\
  (exists policy : ProvisionFailurePolicy, declares (ps_failure_policy s) policy /\ policy <> PolicyUnspecified) /\
  Forall (opt_within MAX_DIAGNOSTIC_BYTES) [ps_backend s; ps_message s; ps_error_chain s] /\
  duration_ok (ps_duration s).

Lemma validate_step_ok ids s ids' : validate_step ids s = Ok ids' <->
  step_ok s /\ exists id, ps_id s = Some id /\ (id ∉ ids) /\ ids' = {[id]} ∪ ids.
Proof.
  unfold validate_step, step_ok. rewrite then_ok. setoid_rewrite required_ok. setoid_rewrite guard_ok. setoid_rewrite then_ok.
  setoid_rewrite required_enum_ok. setoid_rewrite then_ok. setoid_rewrite required_enum_ok. setoid_rewrite guard_ok. setoid_rewrite orb_false_iff.
  setoid_rewrite seq_ok. setoid_rewrite optional_fields_ok. setoid_rewrite seq_ok. setoid_rewrite validate_duration_ok.
  setoid_rewrite bool_decide_eq_false. repeat setoid_rewrite Forall_cons_iff. cbn [snd]. split.
  - intros (id & [Hid Hw] & Hn & state & Hs & policy & Hp & [Hs' Hp'] & Hf & Hd & [= <-]). split; [|by exists id].
    split; [by exists id|]. split; [by exists state|]. split; [by exists policy|]. destruct Hf as (? & ? & ? & _). by repeat split; try apply Forall_nil.
  - intros (((id0 & Hid0 & Hw) & (state & Hs & Hs') & (policy & Hp & Hp') & Hf & Hd) & id & Hid & Hn & ->). rewrite Hid in Hid0. injection Hid0 as <-.
    destruct Hf as (? & ? & ? & _). exists id. split; [done|]. split; [done|]. exists state. split; [done|]. exists policy. by repeat split; try apply Forall_nil.
Qed.

(** The ids of the steps are distinct. *)
Lemma validate_steps_ok steps : forall ids, (exists ids', foldM validate_step ids steps = Ok ids') <->
  Forall step_ok steps /\ NoDup (ps_id <$> steps) /\ (forall id, Some id ∈ ps_id <$> steps -> (id ∉ ids)).
Proof.
  induction steps as [|s steps IH]; intros ids; [simpl; split; [intros _; repeat split; [constructor|constructor|by intros ? ?%elem_of_nil]|by exists ids]|].
  cbn [foldM fmap list_fmap]. setoid_rewrite then_ok. setoid_rewrite validate_step_ok. rewrite Forall_cons_iff, list.NoDup_cons. setoid_rewrite elem_of_cons.
  split.
  - intros (ids' & ids1 & (Hs & id & Hid & Hn & ->) & Hrun). destruct (proj1 (IH ({[id]} ∪ ids)) (ex_intro _ ids' Hrun)) as (H1 & H2 & H3).
    split; [by split|]. split; [split; [|done]|].
    + rewrite Hid. intros Hin. by apply (H3 id Hin), elem_of_union_l, elem_of_singleton_2.
    + intros i [Hi|Hi]; [rewrite Hid in Hi; by injection Hi as ->|]. intros Hin. by apply (H3 i Hi), elem_of_union_r.
  - intros ([Hs Hrest] & [Hnew Hnd] & Hall). destruct Hs as [(id & Hid & Hw) Hs']. assert (step_ok s) as Hs by (split; [by exists id|done]).
    destruct (proj2 (IH ({[id]} ∪ ids))) as [ids' Hrun].
    { split; [done|]. split; [done|]. intros i Hi. specialize (Hall i (or_intror Hi)). rewrite Hid in Hnew. intros [->%elem_of_singleton|]%elem_of_union; done. }
    exists ids', ({[id]} ∪ ids). split; [|done]. split; [done|]. exists id. split; [done|]. split; [|done]. apply Hall. by left.
Qed.

Definition provisioning_ok (p : ProvisionReport) : Prop :=
  (exists overall : ProvisionOverallStatus, declares (pr_status p) overall /\ overall <> OverallUnspecified) /\
  (exists started finished, timestamp_ok (pr_started_at p) started /\ timestamp_ok (pr_finished_at p) finished /\ started <= finished) /\
  duration_ok (pr_duration p) /\ opt_within MAX_DIAGNOSTIC_BYTES (pr_message p) /\
  zlen (pr_steps p) <= MAX_PROVISIONING_STEPS /\ Forall step_ok (pr_steps p) /\ NoDup (ps_id <$> pr_steps p).

Lemma validate_provisioning_ok p : validate_provisioning p = Ok tt <-> provisioning_ok p.
Proof.
  unfold validate_provisioning, provisioning_ok. rewrite then_ok. setoid_rewrite required_enum_ok. setoid_rewrite guard_ok. setoid_rewrite bool_decide_eq_false.
  setoid_rewrite then_ok. setoid_rewrite validate_timestamp_ok. setoid_rewrite then_ok. setoid_rewrite validate_timestamp_ok. setoid_rewrite guard_ok.
  setoid_rewrite Z.ltb_ge. setoid_rewrite seq_ok. setoid_rewrite validate_duration_ok. setoid_rewrite seq_ok. setoid_rewrite optional_ok. setoid_rewrite guard_ok.
  setoid_rewrite Z.ltb_ge. setoid_rewrite then_ok. pose proof (validate_steps_ok (pr_steps p) ∅) as Hsteps. split.
  - intros (overall & Ho & Hn & started & Hs & finished & Hf & Hle & Hd & Hm & Hlen & ids & Hrun & _).
    destruct (proj1 Hsteps (ex_intro _ ids Hrun)) as (H1 & H2 & _). split; [by exists overall|]. split; [by exists started, finished|]. done.
  - intros ((overall & Ho & Hn) & (started & finished & Hs & Hf & Hle) & Hd & Hm & Hlen & H1 & H2).
    destruct (proj2 Hsteps) as [ids Hrun]; [split; [done|]; split; [done|]; intros id _ []%elem_of_empty|].
    exists overall. split; [done|]. split; [done|]. exists started. split; [done|]. exists finished. split; [done|]. repeat split; try done. by exists ids.
Qed.

Record report_ok (r : AgentStatusReport) : Prop := {
  ro_observed : exists t, timestamp_ok (sr_observed_at r) t;
  ro_state : state_ok (sr_state r) (sr_code r) (sr_message r);
  ro_ssh : forall ssh, sr_ssh r = Some ssh -> ssh_ok ssh;
  ro_system : forall s, sr_system r = Some s -> system_ok s;
  ro_boot : forall s, sr_boot r = Some s -> boot_ok s;
  ro_provisioning : forall p, sr_provisioning r = Some p -> provisioning_ok p
}.

Definition status_ok (s : AgentStatus) : Prop :=
  exists i r, as_identity s = Some i /\ as_report s = Some r /\ identity_ok i /\ report_ok r.

Lemma state_ok_within state code message : state_ok state code message ->
  opt_within MAX_CODE_BYTES code /\ opt_within MAX_DIAGNOSTIC_BYTES message.
Proof. destruct 1 as [|c m [_ Hc] [_ Hm]| |c m [_ Hc] [_ Hm]]; split; by intros ? [= <-]. Qed.

Lemma state_ok_declares state code message : state_ok state code message -> exists x : AgentStatusState, declares state x.
Proof. unfold declares. destruct 1; eauto. Qed.

Lemma validate_report_ok r : validate_status_report r = Ok tt <-> report_ok r.
Proof.
  unfold validate_status_report. rewrite seq_ok, if_some_ok, then_ok. setoid_rewrite validate_timestamp_ok. setoid_rewrite then_ok. setoid_rewrite required_enum_ok.
  repeat setoid_rewrite seq_ok. repeat setoid_rewrite optional_ok. repeat setoid_rewrite if_some_ok. setoid_rewrite validate_state_ok.
  setoid_rewrite validate_ssh_ok. setoid_rewrite validate_system_ok. setoid_rewrite validate_boot_ok. setoid_rewrite validate_provisioning_ok.
  unfold declares. split.
  - intros (H1 & t & Ht & x & Hx & Hc & Hm & Hs & H2 & H3 & H4). constructor; try done; [by exists t|]. by rewrite Hx.
  - intros [[t Ht] Hs H1 H2 H3 H4]. split; [done|]. exists t. split; [done|]. destruct (state_ok_declares _ _ _ Hs) as [x Hx]. exists x.
    destruct (state_ok_within _ _ _ Hs) as [Hc Hm]. unfold declares in Hx. rewrite Hx in Hs. done.
Qed.

Lemma validate_status_ok s : validate_status s = Ok tt <-> status_ok s.
Proof.
  unfold validate_status, status_ok. rewrite then_ok. setoid_rewrite ok_or_given. setoid_rewrite seq_ok. setoid_rewrite validate_identity_ok.
  setoid_rewrite then_ok. setoid_rewrite ok_or_given. setoid_rewrite validate_report_ok. split.
  - intros (i & Hi & Hok & r & Hr & Hrok). by exists i, r.
  - intros (i & r & Hi & Hr & Hok & Hrok). exists i. split; [done|]. split; [done|]. by exists r.
Qed.

(** ** Metrics *)

Definition name_before (a b : text) : Prop := bytes_cmp a b = Lt.

#[global] Instance name_before_trans : Transitive name_before.
Proof.
  unfold name_before. intros a b c. revert b c. induction a as [|x a IH]; intros [|y b] [|z c]; simpl; try done.
  destruct (Z.compare_spec x y) as [->|Hxy|]; [|intros _|done].
  - destruct (y ?= z); try done. apply IH.
  - destruct (Z.compare_spec y z) as [->|Hyz|]; intros Hz; try done; by rewrite (proj2 (Z.compare_lt_iff x z)) by lia.
Qed.

(** An array of metrics: named, in strictly ascending order of names, and each
    one valid. *)
Definition named_ok {T} (name : T -> option text) (valid : T -> Prop) (values : list T) : Prop :=
  zlen values <= MAX_METRIC_ARRAY_ENTRIES /\ Forall valid values /\
  exists names, map name values = map Some names /\ Forall (within MAX_INFO_BYTES) names /\ StronglySorted name_before names.

Section Named.
Context {T : Type} (kind : text) (name : T -> option text) (validate : T -> res StoreError unit).

Lemma named_turn_ok names previous v st' : named_turn kind name validate (names, previous) v = Ok st' <->
  exists n, name v = Some n /\ within MAX_INFO_BYTES n /\ (n ∉ names) /\ (forall p, previous = Some p -> name_before p n) /\
    validate v = Ok tt /\ st' = ({[n]} ∪ names, Some n).
Proof.
  unfold named_turn, name_before. rewrite then_ok. setoid_rewrite ok_or_given. setoid_rewrite seq_ok. setoid_rewrite check_nonempty_ok.
  setoid_rewrite guard_ok. setoid_rewrite guard_ok. setoid_rewrite seq_ok. setoid_rewrite bool_decide_eq_false. apply exist_proper. intros n.
  assert ((match previous with Some p => bool_decide (bytes_cmp p n <> Lt) | None => false end) = false <->
    forall p, previous = Some p -> bytes_cmp p n = Lt) as ->.
  { destruct previous as [p|]; [|done]. rewrite bool_decide_eq_false. split; [intros Hn ? [= <-]; by apply dec_stable|intros Hn Hneq; apply Hneq; by apply Hn]. }
  split; [intros (? & ? & ? & ? & ? & [= <-])|intros (? & ? & ? & ? & ? & ->)]; done.
Qed.

(** A name behind the last one is behind all of them, so it is new. *)
Lemma behind_last seen n : StronglySorted name_before seen -> (forall p, list.last seen = Some p -> name_before p n) ->
  Forall (fun m => name_before m n) seen.
Proof.
  intros Hs Hl. destruct (list.last seen) as [p|] eqn:E; [|apply last_None in E as ->; apply Forall_nil]. apply last_Some in E as [l ->].
  specialize (Hl p eq_refl). apply Forall_app. split; [|by apply Forall_cons; [|apply Forall_nil]].
  apply list.Forall_forall. intros m Hm. transitivity p; [|done]. apply (StronglySorted_app_1_elem_of _ _ _ _ _ Hs Hm). by left.
Qed.

Lemma before_irreflexive n : ~ name_before n n.
Proof. unfold name_before. by rewrite (proj2 (bytes_cmp_eq n n)). Qed.

Lemma named_loop_ok values : forall seen, StronglySorted name_before seen ->
  (exists st', foldM (named_turn kind name validate) (list_to_set seen, list.last seen) values = Ok st') <->
  Forall (fun v => validate v = Ok tt) values /\
  exists names, map name values = map Some names /\ Forall (within MAX_INFO_BYTES) names /\ StronglySorted name_before (seen ++ names).
Proof.
  induction values as [|v values IH]; intros seen Hseen.
  { split; [intros _|intros _; by eexists]. split; [apply Forall_nil|]. exists []. rewrite app_nil_r. split; [done|]. by split; [apply Forall_nil|]. }
  cbn [foldM]. setoid_rewrite then_ok. setoid_rewrite named_turn_ok. rewrite Forall_cons_iff.
  assert (forall n, list.last (seen ++ [n]) = Some n) as Hlast by (intros n; apply last_snoc).
  assert (forall n, (list_to_set (seen ++ [n]) : gset text) = {[n]} ∪ list_to_set seen) as Hset 
    by (intros n; rewrite list_to_set_app_L, list_to_set_singleton_L; apply (union_comm_L _ _)).
  split.
  - intros (st' & st1 & (n & Hn & Hw & _ & Hp & Hv & ->) & Hrun). pose proof (behind_last seen n Hseen Hp) as Hall.
    assert (StronglySorted name_before (seen ++ [n])) as Hs1.
    { apply StronglySorted_app_2; [|done|repeat constructor]. intros a b Ha ->%list_elem_of_singleton. by apply (proj1 (list.Forall_forall _ _) Hall). }
    rewrite <- Hset, <- (Hlast n) in Hrun. destruct (proj1 (IH _ Hs1) (ex_intro _ st' Hrun)) as (Hvs & names & Hm & Hws & Hsort).
    split; [done|]. exists (n :: names). rewrite <- app_assoc in Hsort. split; [cbn; by rewrite Hn, Hm|]. split; [by apply Forall_cons|done].
  - intros ([Hv Hvs] & names & Hm & Hws & Hsort). destruct names as [|n names]; [done|]. injection Hm as Hn Hm.
    apply Forall_cons_iff in Hws as [Hw Hws].
    assert (forall m, m ∈ seen -> name_before m n) as Hbefore by (intros m Hin; apply (StronglySorted_app_1_elem_of _ _ _ _ _ Hsort Hin); by left).
    rewrite cons_middle, app_assoc in Hsort. pose proof (StronglySorted_app_1_l _ _ _ Hsort) as Hs1.
    destruct (proj2 (IH _ Hs1)) as [st' Hrun]; [split; [done|by exists names]|]. rewrite Hset, Hlast in Hrun.
    eexists st', _. split; [|exact Hrun]. exists n. split; [done|]. split; [done|]. split; [|split; [|done]].
    + intros Hin%elem_of_list_to_set. by apply (before_irreflexive n), Hbefore.
    + intros p Hp. apply Hbefore. apply last_Some in Hp as [l ->]. apply elem_of_app. right. by left.
Qed.

Lemma validate_named_ok values : validate_named_metrics kind values name validate = Ok tt <->
  named_ok name (fun v => validate v = Ok tt) values.
Proof.
  unfold validate_named_metrics, named_ok. rewrite guard_ok, Z.ltb_ge, then_ok.
  pose proof (named_loop_ok values [] (SSorted_nil _)) as Hl. cbn [list_to_set list.last app] in Hl. rewrite <- Hl.
  split; [intros (Hn & st & Hrun & _)|intros (Hn & st & Hrun)]; (split; [done|]); by exists st.
Qed.
End Named.

Definition number_ok (o : option Z) : Prop :=
  exists v, o = Some v /\ f64_is_finite v = true /\ f64_is_negative v = false.

Lemma finite_ok field o : finite_nonnegative field o = Ok tt <-> number_ok o.
Proof.
  unfold finite_nonnegative, number_ok. rewrite then_ok. setoid_rewrite ok_or_given. setoid_rewrite guard_ok. setoid_rewrite orb_false_iff.
  setoid_rewrite negb_false_iff. apply exist_proper. intros v. tauto.
Qed.

Lemma finite_fields_ok prefix fields : finite_fields prefix fields = Ok tt <-> Forall number_ok (map snd fields).
Proof.
  unfold finite_fields. rewrite each_ok, Forall_map. apply Forall_iff. intros [field value]. apply finite_ok.
Qed.

Definition memory_ok (m : MemoryMetrics) : Prop :=
  exists total available, mm_total_bytes m = Some total /\ mm_available_bytes m = Some available /\ available <= total.

Lemma validate_memory_ok m : validate_memory m = Ok tt <-> memory_ok m.
Proof.
  unfold validate_memory, memory_ok. rewrite then_ok. setoid_rewrite ok_or_given. setoid_rewrite then_ok. setoid_rewrite ok_or_given.
  setoid_rewrite guard_ok. setoid_rewrite Z.ltb_ge. split; [intros (t & Ht & a & Ha & Hle & _)|intros (t & a & Ht & Ha & Hle)]; [by exists t, a|].
  exists t. split; [done|]. by exists a.
Qed.

Definition cpu_ok (c : CpuMetrics) : Prop :=
  default 0 (cm_logical_cpu_count c) <> 0 /\
  Forall number_ok [cm_user_seconds c; cm_nice_seconds c; cm_system_seconds c; cm_idle_seconds c; cm_iowait_seconds c;
                    cm_irq_seconds c; cm_softirq_seconds c; cm_steal_seconds c].

Lemma validate_cpu_ok c : validate_cpu c = Ok tt <-> cpu_ok c.
Proof. unfold validate_cpu, cpu_ok. by rewrite guard_ok, Z.eqb_neq, finite_fields_ok. Qed.

Definition load_ok (l : LoadAverageMetrics) : Prop :=
  Forall number_ok [lm_one_minute l; lm_five_minutes l; lm_fifteen_minutes l].

Lemma validate_load_ok l : validate_load l = Ok tt <-> load_ok l.
Proof. unfold validate_load, load_ok. by rewrite finite_fields_ok. Qed.

Definition filesystem_ok (m : FilesystemMetrics) : Prop :=
  opt_within MAX_INFO_BYTES (fs_filesystem_type m) /\
  exists total used available, fs_total_bytes m = Some total /\ fs_used_bytes m = Some used /\
    fs_available_bytes m = Some available /\ used + available < 2 ^ 64 /\ used + available <= total.

Lemma validate_filesystem_ok m : validate_filesystem m = Ok tt <-> filesystem_ok m.
Proof.
  unfold validate_filesystem, filesystem_ok, totals. rewrite seq_ok, optional_ok, then_ok. setoid_rewrite ok_or_given. setoid_rewrite then_ok.
  setoid_rewrite ok_or_given. setoid_rewrite then_ok. setoid_rewrite ok_or_given. setoid_rewrite guard_ok. unfold checked_add. split.
  - intros [Ho (t & Ht & u & Hu & a & Ha & Hc & _)]. split; [done|]. exists t, u, a. destruct (Z.ltb_spec (u + a) (2 ^ 64)); [|done].
    apply Z.ltb_ge in Hc. done.
  - intros [Ho (t & u & a & Ht & Hu & Ha & H1 & H2)]. split; [done|]. exists t. split; [done|]. exists u. split; [done|]. exists a. split; [done|].
    split; [|done]. rewrite (proj2 (Z.ltb_lt _ _) H1). by apply Z.ltb_ge.
Qed.

(** Six pairs of lowercase hexadecimal digits between colons. *)
Definition mac_ok (m : text) : Prop :=
  exists parts, split_on 58 m = parts /\ length parts = 6%nat /\ Forall (fun p => zlen p = 2 /\ Forall (fun b => is_mac_digit b = true) p) parts.

Lemma mac_parts_ok n parts : mac_parts n parts = Ok tt <->
  length parts = n /\ Forall (fun p => zlen p = 2 /\ Forall (fun b => is_mac_digit b = true) p) parts.
Proof.
  revert parts. induction n as [|n IH]; intros [|part parts]; simpl; split; try done; try (by intros [? _]); try (intros _; split; [done|apply Forall_nil]).
  - rewrite guard_ok, orb_false_iff, !negb_false_iff, Z.eqb_eq, forallb_forall. intros [[Hl Hd] [Hn Hp]%IH]. split; [by rewrite Hn|].
    apply Forall_cons; [|done]. split; [done|]. apply list.Forall_forall. intros b Hb. by apply Hd, list_elem_of_In.
  - intros [[= Hn] [[Hl Hd] Hp]%Forall_cons_iff]. apply guard_ok. rewrite orb_false_iff, !negb_false_iff, Z.eqb_eq, forallb_forall.
    split; [split; [done|]|by apply IH]. intros b Hb%list_elem_of_In. by apply (proj1 (list.Forall_forall _ _) Hd).
Qed.

Definition interface_ok (m : NetworkInterfaceMetrics) : Prop :=
  opt_within MAX_INFO_BYTES (ni_mac m) /\ (forall mac, ni_mac m = Some mac -> mac_ok mac) /\
  is_Some (ni_receive_bytes m) /\ is_Some (ni_transmit_bytes m).

Lemma validate_interface_ok m : validate_interface m = Ok tt <-> interface_ok m.
Proof.
  unfold validate_interface, interface_ok, mac_ok. rewrite seq_ok, optional_ok, seq_ok, if_some_ok, guard_ok, orb_false_iff, !bool_decide_eq_false.
  unfold validate_mac. setoid_rewrite mac_parts_ok. rewrite <- !not_eq_None_Some. split.
  - intros (H1 & H2 & [H3 H4] & _). repeat split; try done. intros mac Hm. destruct (H2 mac Hm) as [? ?]. by eexists.
  - intros (H1 & H2 & H3 & H4). repeat split; try done; destruct (H2 _ H) as (parts & <- & ? & ?); done.
Qed.

Definition block_device_ok (m : BlockDeviceMetrics) : Prop :=
  Forall is_Some [bd_read_bytes m; bd_read_operations m; bd_write_bytes m; bd_write_operations m; bd_in_flight_operations m].

Lemma validate_block_device_ok m : validate_block_device m = Ok tt <-> block_device_ok m.
Proof.
  unfold validate_block_device, block_device_ok. rewrite each_ok, !Forall_cons_iff. rewrite !guard_ok, !bool_decide_eq_false, <- !not_eq_None_Some.
  split; intros H; decompose [and] H; repeat split; try done; apply Forall_nil.
Qed.

Record snapshot_ok (s : MetricSnapshot) : Prop := {
  so_memory : forall m, ms_memory s = Some m -> memory_ok m;
  so_cpu : forall c, ms_cpu s = Some c -> cpu_ok c;
  so_load : forall l, ms_load_average s = Some l -> load_ok l;
  so_uptime : forall v, ms_uptime_seconds s = Some v -> number_ok (Some v);
  so_filesystems : named_ok fs_mount_point filesystem_ok (ms_filesystems s);
  so_interfaces : named_ok ni_name interface_ok (ms_network_interfaces s);
  so_devices : named_ok bd_name block_device_ok (ms_block_devices s)
}.

Definition metrics_ok (m : AgentMetrics) : Prop :=
  (exists v u, am_agent_instance_id m = Some v /\ within 36 v /\ parse_uuid v = Some u) /\
  exists r s t, am_report m = Some r /\ timestamp_ok (mr_observed_at r) t /\ mr_snapshot r = Some s /\ snapshot_ok s.

Lemma named_ok_iff {T} (name : T -> option text) (P Q : T -> Prop) values :
  (forall v, P v <-> Q v) -> named_ok name P values <-> named_ok name Q values.
Proof. intros HPQ. unfold named_ok. by rewrite (Forall_iff _ _ _ HPQ). Qed.

Lemma validate_snapshot_ok s : validate_snapshot s = Ok tt <-> snapshot_ok s.
Proof.
  unfold validate_snapshot. rewrite !seq_ok, !if_some_ok, !validate_named_ok. setoid_rewrite validate_memory_ok. setoid_rewrite validate_cpu_ok.
  setoid_rewrite validate_load_ok. rewrite (named_ok_iff _ _ _ _ validate_filesystem_ok), (named_ok_iff _ _ _ _ validate_interface_ok), (named_ok_iff _ _ _ _ validate_block_device_ok).
  assert ((if bool_decide (is_Some (ms_uptime_seconds s)) then finite_nonnegative (lit "metrics.uptime_seconds") (ms_uptime_seconds s) else Ok tt) = Ok tt <->
    forall v, ms_uptime_seconds s = Some v -> number_ok (Some v)) as ->.
  { destruct (ms_uptime_seconds s) as [v|]; [|split; [by intros _ ?|done]]. rewrite bool_decide_true by eauto. rewrite finite_ok.
    split; [by intros Hv ? [= <-]|intros Hv; by apply Hv]. }
  split; [intros (? & ? & ? & ? & ? & ? & ?); by constructor|by intros []].
Qed.

Lemma validate_metrics_ok m : validate_metrics m = Ok tt <-> metrics_ok m.
Proof.
  unfold validate_metrics, metrics_ok. rewrite then_ok. setoid_rewrite required_ok. setoid_rewrite then_ok. setoid_rewrite ok_or_given.
  setoid_rewrite then_ok. setoid_rewrite ok_or_given. setoid_rewrite then_ok. setoid_rewrite validate_timestamp_ok. setoid_rewrite then_ok.
  setoid_rewrite ok_or_given. setoid_rewrite validate_snapshot_ok. split.
  - intros (v & [Hv Hw] & u & Hu & r & Hr & t & Ht & s & Hs & Hok). split; [by exists v, u|]. by exists r, s, t.
  - intros ((v & u & Hv & Hw & Hu) & r & s & t & Hr & Ht & Hs & Hok). exists v. split; [done|]. exists u. split; [done|]. exists r. split; [done|].
    exists t. split; [done|]. by exists s.
Qed.
(** ** No check panics *)

Lemma each_np {A} (check : A -> res StoreError unit) l : (forall a, check a <> Panic) -> each check l <> Panic.
Proof. intros Hc. apply (np_foldM (fun _ => True)); [done|]. intros s a _ _. split; [apply Hc|done]. Qed.

Lemma loop_np {A B} (f : B -> A -> res StoreError B) b l : (forall b a, f b a <> Panic) -> foldM f b l <> Panic.
Proof. intros Hf. apply (np_foldM (fun _ => True)); [done|]. intros s a _ _. split; [apply Hf|done]. Qed.

Ltac no_panic :=
  repeat first [done | apply np_ok_or | apply np_bind; [|intros ? _] | apply each_np; intros ? | apply loop_np; intros ? ? | case_match].

Lemma required_np field value maximum : required field value maximum <> Panic.
Proof. unfold required, check_text. no_panic. Qed.
Lemma optional_np field value maximum : optional field value maximum <> Panic.
Proof. unfold optional, check_text. no_panic. Qed.
Lemma validate_timestamp_np field value : validate_timestamp field value <> Panic.
Proof. unfold validate_timestamp. no_panic. Qed.
Lemma finite_np field value : finite_nonnegative field value <> Panic.
Proof. unfold finite_nonnegative. no_panic. Qed.
Lemma mac_parts_np n parts : mac_parts n parts <> Panic.
Proof. revert parts. induction n as [|n IH]; intros [|p parts]; simpl; try done. case_match; [done|apply IH]. Qed.

Lemma named_np {T} kind (values : list T) name validate : (forall v, validate v <> Panic) ->
  validate_named_metrics kind values name validate <> Panic.
Proof.
  intros Hv. unfold validate_named_metrics. case_match; [done|]. apply np_bind; [|done]. apply loop_np. intros [names previous] v.
  unfold named_turn, check_text. apply np_bind; [apply np_ok_or|intros n _]. apply np_bind; [by case_match|intros _ _].
  case_match; [done|]. case_match; [done|]. apply np_bind; [apply Hv|done].
Qed.

Lemma validate_identity_np i : validate_identity i <> Panic.
Proof.
  unfold validate_identity. apply np_bind; [|intros _ _; apply np_bind; [apply required_np|done]]. apply each_np. intros [field o].
  unfold validate_uuid. apply np_bind; [apply required_np|intros ? _]. no_panic.
Qed.

Lemma validate_provisioning_np p : validate_provisioning p <> Panic.
Proof.
  unfold validate_provisioning, required_enum, validate_duration. apply np_bind; [no_panic|intros o _]. case_match; [done|].
  apply np_bind; [apply validate_timestamp_np|intros ? _]. apply np_bind; [apply validate_timestamp_np|intros ? _]. case_match; [done|].
  apply np_bind; [no_panic|intros _ _]. apply np_bind; [apply optional_np|intros _ _]. case_match; [done|]. apply np_bind; [|done].
  apply loop_np. intros ids st. unfold validate_step, required_enum, optional_fields, validate_duration. apply np_bind; [apply required_np|intros id _].
  case_match; [done|]. apply np_bind; [no_panic|intros ? _]. apply np_bind; [no_panic|intros ? _]. case_match; [done|].
  apply np_bind; [apply each_np; intros [? ?]; apply optional_np|intros _ _]. no_panic.
Qed.

Lemma validate_report_np r : validate_status_report r <> Panic.
Proof.
  unfold validate_status_report, if_some, required_enum. apply np_bind; [unfold validate_ssh; no_panic|intros _ _].
  apply np_bind; [apply validate_timestamp_np|intros ? _]. apply np_bind; [no_panic|intros st _].
  apply np_bind; [apply optional_np|intros _ _]. apply np_bind; [apply optional_np|intros _ _].
  apply np_bind.
  { destruct st; simpl; try done; [|by case_match|]; repeat (case_match; try done); (apply np_bind; [apply required_np|intros ? _]; apply np_bind; [apply required_np|done]). }
  intros _ _. apply np_bind; [|intros _ _; apply np_bind; [|intros _ _; case_match; [apply validate_provisioning_np|done]]].
  - case_match; [|done]. unfold validate_system, optional_fields. apply np_bind; [apply each_np; intros [? ?]; apply optional_np|intros _ _].
    case_match; [done|]. apply each_np. intros ?. unfold validate_address, check_text. no_panic.
  - case_match; [|done]. unfold validate_boot, optional_fields, required_enum. apply np_bind; [no_panic|intros ? _]. case_match; [done|].
    apply np_bind; [apply each_np; intros [? ?]; apply optional_np|intros _ _]. case_match; [done|]. apply each_np. intros ?. unfold check_text. no_panic.
Qed.

Lemma validate_status_np s : validate_status s <> Panic.
Proof.
  unfold validate_status. apply np_bind; [apply np_ok_or|intros i _]. apply np_bind; [apply validate_identity_np|intros _ _].
  apply np_bind; [apply np_ok_or|intros r _]. apply validate_report_np.
Qed.

Lemma validate_metrics_np m : validate_metrics m <> Panic.
Proof.
  unfold validate_metrics. apply np_bind; [apply required_np|intros v _]. apply np_bind; [apply np_ok_or|intros u _].
  apply np_bind; [apply np_ok_or|intros r _]. apply np_bind; [apply validate_timestamp_np|intros ? _]. apply np_bind; [apply np_ok_or|intros s _].
  unfold validate_snapshot, if_some. apply np_bind; [unfold validate_memory; no_panic|intros _ _].
  apply np_bind; [unfold validate_cpu, finite_fields; repeat (case_match; try done); apply each_np; intros [? ?]; apply finite_np|intros _ _].
  apply np_bind; [unfold validate_load, finite_fields; case_match; [|done]; apply each_np; intros [? ?]; apply finite_np|intros _ _].
  apply np_bind; [case_match; [apply finite_np|done]|intros _ _].
  apply np_bind; [apply named_np; intros x; unfold validate_filesystem, totals; apply np_bind; [apply optional_np|intros _ _]; no_panic|intros _ _].
  apply np_bind; [apply named_np; intros x; unfold validate_interface, if_some; apply np_bind; [apply optional_np|intros _ _]; apply np_bind;
    [case_match; [apply mac_parts_np|done]|intros _ _; by case_match]|intros _ _].
  apply named_np. intros x. apply each_np. intros [? ?]. by case_match.
Qed.
End Reports.
