(* ===== verification/Monitor.v ===== *)
(** The state of a running machine as its monitor knows it: [InstanceStore] of
    [virt/vmm/src/state.rs].

    The store is shared by the tasks of the monitor.  An operation takes the
    lock, updates the state, and drops the lock; only then it publishes what
    changed on the watch channels.  [mutate_locked] is the part under the lock,
    [publish] the part behind it, and every operation is their composition.
    The clocks are streams of readings, one taken at each [Instant::now] and
    [SystemTime::now]; times are in nanoseconds. *)

From stdpp Require Import strings gmap.
From S2P Require Import Prelude Bytes RustStr RustText Protocol MonitorValidate.

Definition SSH_VERIFICATION_VALIDITY : Z := 65 * 1000000000.
Definition SSH_VERIFICATION_PENDING : text := lit "SSH listener verification pending".

Inductive WaitOutcome : Type := WaitReady | WaitTerminal | WaitTimedOut.

Record Observation (T : Type) : Type := mkObservation {
  ob_received_at : Z; ob_stale_at : Z; ob_deadline : Z; ob_value : T
}.
Arguments mkObservation {T}.
Arguments ob_received_at {T}.
Arguments ob_stale_at {T}.
Arguments ob_deadline {T}.
Arguments ob_value {T}.

(** [checked_add] of a [Duration] to an [Instant] or [SystemTime], whose
    seconds are an [i64]. *)
Definition time_add (t d : Z) : option Z := if t + d <? 2 ^ 63 * 1000000000 then Some (t + d) else None.

(** [checked_add] of one to the [u64] epoch. *)
Definition next_epoch (epoch : Z) : res StoreError Z := ok_or (checked_add epoch 1) SshEpochExhausted.

Definition truncate (value : text) (maximum : Z) : text :=
  if zlen value <=? maximum then value else take (boundary_below value (Z.to_nat maximum)) value.

Definition known_agent_services : list text :=
  [lit "silo.v1.GuestAgentService"; lit "silo.v1.GuestFilesystemService"; lit "silo.v1.GuestProcessService"].

Section Monitor.
Context `{EXT : Externals}.

Record ReadyAgentIdentity : Type := mkReadyAgentIdentity { ra_instance_id : Uuid; ra_boot_id : Uuid }.

#[global] Instance ReadyAgentIdentity_eq_dec : EqDecision ReadyAgentIdentity.
Proof. solve_decision. Defined.

Record SshVerificationTarget : Type := mkSshVerificationTarget {
  vt_epoch : Z; vt_identity : ReadyAgentIdentity; vt_backend : text; vt_port : Z; vt_host_public_key : text
}.

#[global] Instance SshVerificationTarget_eq_dec : EqDecision SshVerificationTarget.
Proof. solve_decision. Defined.

Inductive SshVerificationOutcome : Type :=
| VerificationPending
| Verified (deadline : Z)
| VerificationFailed (message : text).

Record SshVerification : Type := mkSshVerification {
  sv_target : SshVerificationTarget; sv_outcome : SshVerificationOutcome
}.

Record StateLogSnapshot : Type := mkStateLogSnapshot {
  lg_machine_id : text; lg_name : text; lg_vm_state : VmState; lg_vm_message : option text;
  lg_connection_state : option AgentConnectionState; lg_connection_message : option text;
  lg_agent_instance_id : option text; lg_agent_version : option text; lg_agent_boot_id : option text;
  lg_agent_status : option AgentStatusState; lg_agent_code : option text; lg_agent_message : option text;
  lg_ready : bool; lg_readiness_reason : ReadinessReason
}.

Record State : Type := mkState {
  s_machine_id : text; s_name : text; s_actual_backend : text; s_monitor_id : text;
  s_vm_state : VmState; s_vm_changed_at : Z; s_running_since : option Z;
  s_vm_code : option text; s_vm_message : option text;
  s_agent_enabled : bool; s_connection : AgentConnection; s_identity : option AgentIdentity;
  s_status : option (Observation AgentStatusReport);
  s_metrics : option (Observation (text * AgentMetricReport));
  s_host_memory_reclaim : option HostMemoryReclaim; s_agent_services : list text; s_stopping : bool;
  s_last_log_snapshot : option StateLogSnapshot; s_ssh_epoch : Z; s_ssh_verification : option SshVerification
}.

(** The store: the state behind the lock, and the values of the three watch
    channels. *)
Record InstanceStore : Type := mkInstanceStore {
  is_state : State; is_generation : Z; is_identity_reset : Z; is_ready_agent_identity : option ReadyAgentIdentity
}.

(** Assignments to the fields of the state. *)
Definition set_s_vm_state (x : VmState) (s : State) : State :=
  mkState (s_machine_id s) (s_name s) (s_actual_backend s) (s_monitor_id s) x (s_vm_changed_at s)
    (s_running_since s) (s_vm_code s) (s_vm_message s) (s_agent_enabled s) (s_connection s) (s_identity s)
    (s_status s) (s_metrics s) (s_host_memory_reclaim s) (s_agent_services s) (s_stopping s)
    (s_last_log_snapshot s) (s_ssh_epoch s) (s_ssh_verification s).
Definition set_s_vm_changed_at (x : Z) (s : State) : State :=
  mkState (s_machine_id s) (s_name s) (s_actual_backend s) (s_monitor_id s) (s_vm_state s) x (s_running_since s)
    (s_vm_code s) (s_vm_message s) (s_agent_enabled s) (s_connection s) (s_identity s) (s_status s) (s_metrics
    s) (s_host_memory_reclaim s) (s_agent_services s) (s_stopping s) (s_last_log_snapshot s) (s_ssh_epoch s)
    (s_ssh_verification s).
Definition set_s_running_since (x : option Z) (s : State) : State :=
  mkState (s_machine_id s) (s_name s) (s_actual_backend s) (s_monitor_id s) (s_vm_state s) (s_vm_changed_at s) x
    (s_vm_code s) (s_vm_message s) (s_agent_enabled s) (s_connection s) (s_identity s) (s_status s) (s_metrics
    s) (s_host_memory_reclaim s) (s_agent_services s) (s_stopping s) (s_last_log_snapshot s) (s_ssh_epoch s)
    (s_ssh_verification s).
Definition set_s_vm_message (x : option text) (s : State) : State :=
  mkState (s_machine_id s) (s_name s) (s_actual_backend s) (s_monitor_id s) (s_vm_state s) (s_vm_changed_at s)
    (s_running_since s) (s_vm_code s) x (s_agent_enabled s) (s_connection s) (s_identity s) (s_status s)
    (s_metrics s) (s_host_memory_reclaim s) (s_agent_services s) (s_stopping s) (s_last_log_snapshot s)
    (s_ssh_epoch s) (s_ssh_verification s).
Definition set_s_connection (x : AgentConnection) (s : State) : State :=
  mkState (s_machine_id s) (s_name s) (s_actual_backend s) (s_monitor_id s) (s_vm_state s) (s_vm_changed_at s)
    (s_running_since s) (s_vm_code s) (s_vm_message s) (s_agent_enabled s) x (s_identity s) (s_status s)
    (s_metrics s) (s_host_memory_reclaim s) (s_agent_services s) (s_stopping s) (s_last_log_snapshot s)
    (s_ssh_epoch s) (s_ssh_verification s).
Definition set_s_identity (x : option AgentIdentity) (s : State) : State :=
  mkState (s_machine_id s) (s_name s) (s_actual_backend s) (s_monitor_id s) (s_vm_state s) (s_vm_changed_at s)
    (s_running_since s) (s_vm_code s) (s_vm_message s) (s_agent_enabled s) (s_connection s) x (s_status s)
    (s_metrics s) (s_host_memory_reclaim s) (s_agent_services s) (s_stopping s) (s_last_log_snapshot s)
    (s_ssh_epoch s) (s_ssh_verification s).
Definition set_s_status (x : option (Observation AgentStatusReport)) (s : State) : State :=
  mkState (s_machine_id s) (s_name s) (s_actual_backend s) (s_monitor_id s) (s_vm_state s) (s_vm_changed_at s)
    (s_running_since s) (s_vm_code s) (s_vm_message s) (s_agent_enabled s) (s_connection s) (s_identity s) x
    (s_metrics s) (s_host_memory_reclaim s) (s_agent_services s) (s_stopping s) (s_last_log_snapshot s)
    (s_ssh_epoch s) (s_ssh_verification s).
Definition set_s_metrics (x : option (Observation (text * AgentMetricReport))) (s : State) : State :=
  mkState (s_machine_id s) (s_name s) (s_actual_backend s) (s_monitor_id s) (s_vm_state s) (s_vm_changed_at s)
    (s_running_since s) (s_vm_code s) (s_vm_message s) (s_agent_enabled s) (s_connection s) (s_identity s)
    (s_status s) x (s_host_memory_reclaim s) (s_agent_services s) (s_stopping s) (s_last_log_snapshot s)
    (s_ssh_epoch s) (s_ssh_verification s).
Definition set_s_host_memory_reclaim (x : option HostMemoryReclaim) (s : State) : State :=
  mkState (s_machine_id s) (s_name s) (s_actual_backend s) (s_monitor_id s) (s_vm_state s) (s_vm_changed_at s)
    (s_running_since s) (s_vm_code s) (s_vm_message s) (s_agent_enabled s) (s_connection s) (s_identity s)
    (s_status s) (s_metrics s) x (s_agent_services s) (s_stopping s) (s_last_log_snapshot s) (s_ssh_epoch s)
    (s_ssh_verification s).
Definition set_s_agent_services (x : list text) (s : State) : State :=
  mkState (s_machine_id s) (s_name s) (s_actual_backend s) (s_monitor_id s) (s_vm_state s) (s_vm_changed_at s)
    (s_running_since s) (s_vm_code s) (s_vm_message s) (s_agent_enabled s) (s_connection s) (s_identity s)
    (s_status s) (s_metrics s) (s_host_memory_reclaim s) x (s_stopping s) (s_last_log_snapshot s) (s_ssh_epoch
    s) (s_ssh_verification s).
Definition set_s_stopping (x : bool) (s : State) : State :=
  mkState (s_machine_id s) (s_name s) (s_actual_backend s) (s_monitor_id s) (s_vm_state s) (s_vm_changed_at s)
    (s_running_since s) (s_vm_code s) (s_vm_message s) (s_agent_enabled s) (s_connection s) (s_identity s)
    (s_status s) (s_metrics s) (s_host_memory_reclaim s) (s_agent_services s) x (s_last_log_snapshot s)
    (s_ssh_epoch s) (s_ssh_verification s).
Definition set_s_last_log_snapshot (x : option StateLogSnapshot) (s : State) : State :=
  mkState (s_machine_id s) (s_name s) (s_actual_backend s) (s_monitor_id s) (s_vm_state s) (s_vm_changed_at s)
    (s_running_since s) (s_vm_code s) (s_vm_message s) (s_agent_enabled s) (s_connection s) (s_identity s)
    (s_status s) (s_metrics s) (s_host_memory_reclaim s) (s_agent_services s) (s_stopping s) x (s_ssh_epoch s)
    (s_ssh_verification s).
Definition set_s_ssh_epoch (x : Z) (s : State) : State :=
  mkState (s_machine_id s) (s_name s) (s_actual_backend s) (s_monitor_id s) (s_vm_state s) (s_vm_changed_at s)
    (s_running_since s) (s_vm_code s) (s_vm_message s) (s_agent_enabled s) (s_connection s) (s_identity s)
    (s_status s) (s_metrics s) (s_host_memory_reclaim s) (s_agent_services s) (s_stopping s)
    (s_last_log_snapshot s) x (s_ssh_verification s).
Definition set_s_ssh_verification (x : option SshVerification) (s : State) : State :=
  mkState (s_machine_id s) (s_name s) (s_actual_backend s) (s_monitor_id s) (s_vm_state s) (s_vm_changed_at s)
    (s_running_since s) (s_vm_code s) (s_vm_message s) (s_agent_enabled s) (s_connection s) (s_identity s)
    (s_status s) (s_metrics s) (s_host_memory_reclaim s) (s_agent_services s) (s_stopping s)
    (s_last_log_snapshot s) (s_ssh_epoch s) x.

Definition set_connection_state (x : AgentConnectionState) (s : State) : State :=
  let c := s_connection s in
  set_s_connection (mkAgentConnection (Some (as_i32 x)) (ac_last_success_at c) (ac_last_failure_at c)
                      (ac_code c) (ac_message c)) s.

(** ** What the state says *)

Definition identity_from_state (state : State) : option ReadyAgentIdentity :=
  identity ← s_identity state;
  instance_id ← ai_instance_id identity ≫= parse_uuid;
  boot_id ← ai_boot_id identity ≫= parse_uuid;
  Some {| ra_instance_id := instance_id; ra_boot_id := boot_id |}.

Definition eligible_ssh (state : State) (now : Z) : option SshListenerReport :=
  if negb (s_agent_enabled state) || negb (bool_decide (s_vm_state state = VmRunning)) || s_stopping state
     || negb (bool_decide (ac_state (s_connection state) = Some (as_i32 ConnectionResponsive)))
  then None
  else
    status ← s_status state;
    if (ob_deadline status <=? now) || negb (bool_decide (sr_state (ob_value status) = Some (as_i32 AgentReady)))
    then None
    else
      ssh ← sr_ssh (ob_value status);
      if sl_config_verified ssh then Some ssh else None.

Definition ssh_target_matches (state : State) (target : SshVerificationTarget) (now : Z) : bool :=
  (s_ssh_epoch state =? vt_epoch target)
  && bool_decide (identity_from_state state = Some (vt_identity target))
  && match eligible_ssh state now with
     | Some ssh => bool_decide (sl_backend ssh = vt_backend target) && (sl_port ssh =? vt_port target)
                   && bool_decide (sl_host_public_key ssh = vt_host_public_key target)
     | None => false
     end.

(** [self.ssh_verification.as_ref().filter(..)]. *)
Definition current_verification (state : State) (now : Z) : option SshVerification :=
  verification ← s_ssh_verification state;
  if ssh_target_matches state (sv_target verification) now then Some verification else None.

Record EffectiveStatus : Type := mkEffectiveStatus {
  es_state : option Z; es_code : option text; es_message : option text; es_kex_verified : bool
}.

Definition effective_status (state : State) (report : AgentStatusReport) (now : Z) : EffectiveStatus :=
  let verification := current_verification state now in
  let kex_verified :=
    match verification with
    | Some {| sv_outcome := Verified deadline |} => now <? deadline
    | _ => false
    end in
  if bool_decide (sr_state report = Some (as_i32 AgentReady)) && bool_decide (is_Some (sr_ssh report))
     && negb kex_verified
  then
    {| es_state := Some (as_i32 AgentStarting); es_code := Some (lit "SSH_NOT_READY");
       es_message := Some match verification with
                          | Some {| sv_outcome := VerificationFailed message |} => message
                          | _ => SSH_VERIFICATION_PENDING
                          end;
       es_kex_verified := kex_verified |}
  else
    {| es_state := sr_state report; es_code := sr_code report; es_message := sr_message report;
       es_kex_verified := kex_verified |}.

Definition readiness_detail (state : State) (now : Z) : bool * ReadinessReason :=
  match s_vm_state state with
  | VmStarting | VmUnspecified => (false, ReasonVmStarting)
  | VmStopping => (false, ReasonVmStopping)
  | VmStopped => (false, ReasonVmStopped)
  | VmFailed => (false, ReasonVmFailed)
  | VmRunning =>
      if negb (s_agent_enabled state) then (true, ReasonAgentNotRequired)
      else
        match s_status state with
        | Some status =>
            if s_stopping state || (ob_deadline status <=? now) then (false, ReasonAgentStatusStale)
            else
              match es_state (effective_status state (ob_value status) now) ≫= try_from with
              | Some AgentStarting => (false, ReasonGuestStarting)
              | Some AgentFailed => (false, ReasonGuestFailed)
              | Some AgentReady => (true, ReasonGuestReportedReady)
              | _ => (false, ReasonAgentUnavailable)
              end
        | None => (false, ReasonAgentUnavailable)
        end
  end.

Definition readiness (state : State) (now : Z) : WaitOutcome :=
  match s_vm_state state with
  | VmStopped | VmFailed => WaitTerminal
  | _ => if (readiness_detail state now).1 then WaitReady else WaitTimedOut
  end.

Definition ready_agent_identity (state : State) (now : Z) : option ReadyAgentIdentity :=
  if (readiness_detail state now).1 then identity_from_state state else None.

Definition state_log_snapshot (state : State) (now : Z) : StateLogSnapshot :=
  let '(ready, readiness_reason) := readiness_detail state now in
  let identity := s_identity state in
  let report : option EffectiveStatus :=
    (fun status => effective_status state (ob_value status) now) <$> s_status state in
  {| lg_machine_id := s_machine_id state; lg_name := s_name state; lg_vm_state := s_vm_state state;
     lg_vm_message := s_vm_message state;
     lg_connection_state := ac_state (s_connection state) ≫= try_from;
     lg_connection_message := ac_message (s_connection state);
     lg_agent_instance_id := identity ≫= ai_instance_id; lg_agent_version := identity ≫= ai_version;
     lg_agent_boot_id := identity ≫= ai_boot_id;
     lg_agent_status := (report ≫= es_state) ≫= try_from; lg_agent_code := report ≫= es_code;
     lg_agent_message := report ≫= es_message; lg_ready := ready; lg_readiness_reason := readiness_reason |}.

Definition ready_agent_identity_from_snapshot (snapshot : StateLogSnapshot) : option ReadyAgentIdentity :=
  if negb (lg_ready snapshot) then None
  else
    instance_id ← lg_agent_instance_id snapshot;
    boot_id ← lg_agent_boot_id snapshot;
    instance ← parse_uuid instance_id;
    boot ← parse_uuid boot_id;
    Some {| ra_instance_id := instance; ra_boot_id := boot |}.

(** What [tracing] records of a mutation. *)
Inductive LogEvent : Type :=
| VmStateChanged | AgentBecameResponsive | AgentConnectionLost | AgentConnectionChanged
| AgentIdentityChanged | AgentStatusChanged | ReadinessChanged.

Definition log_state_changes (before after : StateLogSnapshot) : list LogEvent :=
  let differ {A} `{EqDecision A} (f : StateLogSnapshot -> A) := negb (bool_decide (f before = f after)) in
  (if differ lg_vm_state || differ lg_vm_message then [VmStateChanged] else []) ++
  (if differ lg_connection_state then
     match lg_connection_state before, lg_connection_state after with
     | _, Some ConnectionResponsive => [AgentBecameResponsive]
     | Some ConnectionResponsive, _ => [AgentConnectionLost]
     | _, _ => [AgentConnectionChanged]
     end else []) ++
  (if bool_decide (is_Some (lg_agent_instance_id before))
      && (differ lg_agent_instance_id || differ lg_agent_version || differ lg_agent_boot_id)
   then [AgentIdentityChanged] else []) ++
  (if differ lg_agent_status || differ lg_agent_code || differ lg_agent_message then [AgentStatusChanged] else []) ++
  (if differ lg_ready || differ lg_readiness_reason then [ReadinessChanged] else []).

(** ** Programs over the store *)

Record World : Type := mkWorld {
  w_store : InstanceStore; w_instant : nat -> Z; w_system : nat -> Z; w_tick : nat; w_log : list LogEvent
}.

Definition Mon (A : Type) : Type := World -> res StoreError A * World.

#[global] Instance Mon_ret : MRet Mon := fun A a w => (Ok a, w).
#[global] Instance Mon_bind : MBind Mon := fun A B f m w =>
  match m w with
  | (Ok a, w) => f a w
  | (Err e, w) => (Err e, w)
  | (Panic, w) => (Panic, w)
  end.

Definition fail {A} (e : StoreError) : Mon A := fun w => (Err e, w).
Definition pure {A} (r : res StoreError A) : Mon A := fun w => (r, w).

Definition set_store (f : InstanceStore -> InstanceStore) (w : World) : World :=
  mkWorld (f (w_store w)) (w_instant w) (w_system w) (w_tick w) (w_log w).
Definition on_state (f : State -> State) (w : World) : World :=
  set_store (fun st => mkInstanceStore (f (is_state st)) (is_generation st) (is_identity_reset st)
                         (is_ready_agent_identity st)) w.
Definition state_of (w : World) : State := is_state (w_store w).

Definition get_state : Mon State := fun w => (Ok (state_of w), w).
Definition put_state (f : State -> State) : Mon unit := fun w => (Ok tt, on_state f w).

Definition next_tick (w : World) : World :=
  mkWorld (w_store w) (w_instant w) (w_system w) (S (w_tick w)) (w_log w).

(** [Instant::now()] and [SystemTime::now()]. *)
Definition instant_now : Mon Z := fun w => (Ok (w_instant w (w_tick w)), next_tick w).
Definition system_now : Mon Z := fun w => (Ok (w_system w (w_tick w)), next_tick w).

(** A change of the state that may fail in the middle. *)
Definition change (f : State -> res StoreError unit * State) : Mon unit := fun w =>
  let '(r, s) := f (state_of w) in (r, on_state (fun _ => s) w).

Definition invalidate_ssh_verification (state : State) : res StoreError unit * State :=
  match s_ssh_verification state with
  | Some _ =>
      match next_epoch (s_ssh_epoch state) with
      | Ok epoch => (Ok tt, set_s_ssh_verification None (set_s_ssh_epoch epoch state))
      | Err e => (Err e, state)
      | Panic => (Panic, state)
      end
  | None => (Ok tt, state)
  end.

Definition refresh_ssh_verification (state : State) (now : Z) : res StoreError unit * State :=
  if bool_decide (is_Some (current_verification state now)) then (Ok tt, state)
  else
    match invalidate_ssh_verification state with
    | (Ok _, state) =>
        match eligible_ssh state now, identity_from_state state with
        | Some ssh, Some owner =>
            match next_epoch (s_ssh_epoch state) with
            | Ok epoch =>
                let target := {| vt_epoch := epoch; vt_identity := owner; vt_backend := sl_backend ssh;
                                 vt_port := sl_port ssh; vt_host_public_key := sl_host_public_key ssh |} in
                (Ok tt, set_s_ssh_verification
                          (Some {| sv_target := target; sv_outcome := VerificationPending |})
                          (set_s_ssh_epoch epoch state))
            | Err e => (Err e, state)
            | Panic => (Panic, state)
            end
        | _, _ => (Ok tt, state)
        end
    | failed => failed
    end.

(** ** Mutations *)

(** What an operation does once it has dropped the lock. *)
Inductive Publication : Type :=
| PublishMutation (before after : StateLogSnapshot)
| PublishReset (before after : StateLogSnapshot)
| PublishLog (before after : StateLogSnapshot).

(** [let before = state.last_log_snapshot.clone().unwrap_or_else(..)]. *)
Definition before_snapshot : Mon StateLogSnapshot :=
  state ← get_state;
  match s_last_log_snapshot state with
  | Some snapshot => mret snapshot
  | None => now ← instant_now; mret (state_log_snapshot state now)
  end.

(** [let after = state_log_snapshot(..); state.last_log_snapshot = Some(..)]. *)
Definition after_snapshot : Mon StateLogSnapshot :=
  state ← get_state;
  now ← instant_now;
  let after := state_log_snapshot state now in
  _ ← put_state (set_s_last_log_snapshot (Some after));
  mret after.

(** The locked part of [mutate_if]. *)
Definition mutate_locked (update : Mon bool) : Mon (option Publication) :=
  before ← before_snapshot;
  changed ← update;
  if negb changed then mret None
  else
    now ← instant_now;
    _ ← change (fun state => refresh_ssh_verification state now);
    after ← after_snapshot;
    mret (Some (PublishMutation before after)).

Definition bump (generation : Z) : Z := u64 (generation + 1).

Definition publish_ready (after : StateLogSnapshot) (st : InstanceStore) : InstanceStore :=
  mkInstanceStore (is_state st) (bump (is_generation st)) (is_identity_reset st)
    (ready_agent_identity_from_snapshot after).
Definition publish_reset (st : InstanceStore) : InstanceStore :=
  mkInstanceStore (is_state st) (is_generation st) (bump (is_identity_reset st)) (is_ready_agent_identity st).

(** The sends on the channels, and the log. *)
Definition publish (p : Publication) : Mon unit := fun w =>
  let log before after (w : World) :=
    mkWorld (w_store w) (w_instant w) (w_system w) (w_tick w) (w_log w ++ log_state_changes before after) in
  (Ok tt,
   match p with
   | PublishMutation before after => log before after (set_store (publish_ready after) w)
   | PublishReset before after => log before after (set_store (fun st => publish_reset (publish_ready after st)) w)
   | PublishLog before after => log before after w
   end).

Definition mutate_if (update : Mon bool) : Mon unit :=
  published ← mutate_locked update;
  match published with
  | Some p => publish p
  | None => mret tt
  end.

Definition always (update : Mon unit) : Mon bool := _ ← update; mret true.

Definition mutate (update : Mon unit) : Mon unit := mutate_if (always update).

(** ** Operations

    The closure each operation passes to [mutate], and the operation. *)

Definition is_stopping_state (vm_state : VmState) : bool :=
  match vm_state with VmStopping | VmStopped | VmFailed => true | _ => false end.

Definition vm_state_update (vm_state : VmState) (message : text) : Mon unit :=
  now ← system_now;
  put_state (fun s =>
    let s := set_s_vm_message (Some (truncate message MAX_DIAGNOSTIC_BYTES))
               (set_s_vm_changed_at now (set_s_vm_state vm_state s)) in
    let s := if bool_decide (vm_state = VmRunning) && bool_decide (s_running_since s = None)
             then set_s_running_since (Some now) s else s in
    set_s_stopping (is_stopping_state vm_state) s).

Definition set_vm_state (vm_state : VmState) (message : text) : Mon unit :=
  mutate (vm_state_update vm_state message).

Definition memory_reclaim_update (report : HostMemoryReclaim) : Mon unit :=
  put_state (set_s_host_memory_reclaim (Some report)).

Definition set_host_memory_reclaim (report : HostMemoryReclaim) : Mon unit :=
  mutate (memory_reclaim_update report).

Definition connecting_update : Mon unit :=
  put_state (fun s => if s_agent_enabled s then set_connection_state ConnectionConnecting s else s).

Definition agent_connecting : Mon unit := mutate connecting_update.

Definition failure_update (message : text) : Mon unit :=
  state ← get_state;
  if s_agent_enabled state then
    now ← system_now;
    put_state (fun s =>
      let c := s_connection s in
      set_s_connection
        (mkAgentConnection (Some (as_i32 ConnectionUnresponsive)) (ac_last_success_at c) (Some (timestamp now))
           (ac_code c) (Some (truncate message MAX_DIAGNOSTIC_BYTES))) s)
  else mret tt.

Definition agent_failure (message : text) : Mon unit := mutate (failure_update message).

Definition observation {T} (value : T) (freshness : Z) : Mon (Observation T) :=
  received_at ← system_now;
  stale_at ← pure (ok_or (time_add received_at freshness) Clock);
  now ← instant_now;
  deadline ← pure (ok_or (time_add now freshness) Clock);
  mret {| ob_received_at := received_at; ob_stale_at := stale_at; ob_deadline := deadline; ob_value := value |}.

(** [current.instance_id != identity.instance_id || current.boot_id != identity.boot_id]. *)
Definition replaced (current new : AgentIdentity) : bool :=
  negb (bool_decide (ai_instance_id current = ai_instance_id new))
  || negb (bool_decide (ai_boot_id current = ai_boot_id new)).

Definition forget_observations (s : State) : State :=
  set_s_agent_services known_agent_services (set_s_metrics None (set_s_status None s)).

Definition accept_status (new : AgentIdentity) (obs : Observation AgentStatusReport) (s : State) : State :=
  let s := if bool_decide (s_identity s = None) then set_s_agent_services known_agent_services s else s in
  let c := s_connection s in
  set_s_status (Some obs)
    (set_s_connection
       (mkAgentConnection (Some (as_i32 ConnectionResponsive)) (Some (timestamp (ob_received_at obs)))
          (ac_last_failure_at c) None None)
       (set_s_identity (Some new) s)).

Definition status_update (new : AgentIdentity) (obs : Observation AgentStatusReport) : Mon unit :=
  state ← get_state;
  _ ← match s_status state with
      | Some status =>
          now ← instant_now;
          if ob_deadline status <=? now then change invalidate_ssh_verification else mret tt
      | None => mret tt
      end;
  _ ← match s_identity state with
      | Some current =>
          if replaced current new then put_state forget_observations
          else if negb (bool_decide (ai_version current = ai_version new))
          then fail (ProtocolError (lit "agent version changed without an instance replacement"))
          else mret tt
      | None => mret tt
      end;
  put_state (accept_status new obs).

(** The part of [observe_status] before the lock. *)
Definition prepare_status (status : AgentStatus) (freshness : Z) :
    Mon (AgentIdentity * Observation AgentStatusReport) :=
  _ ← pure (validate_status status);
  new ← pure (ok_or (as_identity status) (Validation (lit "identity is required")));
  report ← pure (ok_or (as_report status) (Validation (lit "report is required")));
  obs ← observation report freshness;
  mret (new, obs).

Definition observe_status (status : AgentStatus) (freshness : Z) : Mon unit :=
  prepared ← prepare_status status freshness;
  mutate (status_update prepared.1 prepared.2).

Definition prepare_metrics (metrics : AgentMetrics) (freshness : Z) : Mon (Observation (text * AgentMetricReport)) :=
  _ ← pure (validate_metrics metrics);
  instance_id ← pure (ok_or (am_agent_instance_id metrics) (Validation (lit "agent_instance_id is required")));
  report ← pure (ok_or (am_report metrics) (Validation (lit "report is required")));
  observation (instance_id, report) freshness.

Definition forget_identity (s : State) : State :=
  set_s_agent_services [] (set_s_metrics None (set_s_status None (set_s_identity None s))).

(** The locked part of [observe_metrics]: its result, and what to publish. *)
Definition metrics_locked (obs : Observation (text * AgentMetricReport)) : Mon (res StoreError unit * Publication) :=
  before ← before_snapshot;
  state ← get_state;
  current ← pure (ok_or (s_identity state)
                    (ProtocolError (lit "metrics arrived before a current status identity")));
  if negb (bool_decide (ai_instance_id current = Some (ob_value obs).1)) then
    _ ← put_state forget_identity;
    _ ← change invalidate_ssh_verification;
    after ← after_snapshot;
    mret (Err IdentityMismatch, PublishReset before after)
  else
    _ ← put_state (set_s_metrics (Some obs));
    after ← after_snapshot;
    mret (Ok tt, PublishLog before after).

Definition observe_metrics (metrics : AgentMetrics) (freshness : Z) : Mon unit :=
  obs ← prepare_metrics metrics freshness;
  out ← metrics_locked obs;
  _ ← publish out.2;
  pure out.1.

Definition completion_update (target : SshVerificationTarget) (result : text + unit) : Mon bool :=
  now ← instant_now;
  state ← get_state;
  match s_ssh_verification state with
  | Some verification =>
      if bool_decide (sv_target verification = target) && ssh_target_matches state target now then
        outcome ← match result with
                  | inr _ => deadline ← pure (ok_or (time_add now SSH_VERIFICATION_VALIDITY) Clock);
                             mret (Verified deadline)
                  | inl message => mret (VerificationFailed (truncate message MAX_DIAGNOSTIC_BYTES))
                  end;
        _ ← put_state (set_s_ssh_verification
                         (Some {| sv_target := sv_target verification; sv_outcome := outcome |}));
        mret true
      else mret false
  | None => mret false
  end.

Definition complete_ssh_verification (target : SshVerificationTarget) (result : text + unit) : Mon unit :=
  mutate_if (completion_update target result).

Definition forward_service_update (expected : ReadyAgentIdentity) (serving : bool) : Mon unit :=
  put_state (fun s =>
    match s_identity s with
    | None => s
    | Some current =>
        if negb (bool_decide (ai_instance_id current ≫= parse_uuid = Some (ra_instance_id expected)))
           || negb (bool_decide (ai_boot_id current ≫= parse_uuid = Some (ra_boot_id expected)))
        then s
        else set_s_agent_services
               (known_agent_services ++ if serving then [lit "silo.v1.GuestForwardService"] else []) s
    end).

Definition set_forward_service (expected : ReadyAgentIdentity) (serving : bool) : Mon unit :=
  mutate (forward_service_update expected serving).

(** ** Queries *)

Definition query {A} (f : State -> Z -> A) : Mon A :=
  state ← get_state;
  now ← instant_now;
  mret (f state now).

Definition store_readiness : Mon WaitOutcome := query readiness.

Definition store_ready_agent_identity : Mon ReadyAgentIdentity :=
  found ← query ready_agent_identity;
  pure (ok_or found (ProtocolError (lit "a ready guest agent identity is required"))).

Definition ssh_verification_target : Mon (option SshVerificationTarget) :=
  state ← get_state;
  match s_ssh_verification state with
  | Some verification =>
      now ← instant_now;
      mret (if ssh_target_matches state (sv_target verification) now then Some (sv_target verification) else None)
  | None => mret None
  end.

Definition is_stopping : Mon bool := state ← get_state; mret (s_stopping state).
Definition has_identity : Mon bool := state ← get_state; mret (bool_decide (is_Some (s_identity state))).
Definition agent_instance_id : Mon (option text) := state ← get_state; mret (s_identity state ≫= ai_instance_id).

(** ** Projections *)

Definition freshness (state : State) (deadline now : Z) : Freshness :=
  if negb (s_stopping state) && (now <? deadline) then Fresh else Stale.

Definition stale_reason (state : State) (deadline now : Z) : option StaleReason :=
  if negb (bool_decide (freshness state deadline now = Fresh))
  then Some (if s_stopping state then MonitorStopping else ReceiptAge)
  else None.

Definition set_kex_verified (kex_verified : bool) (ssh : SshListenerReport) : SshListenerReport :=
  mkSshListenerReport (sl_backend ssh) (sl_port ssh) (sl_host_public_key ssh) (sl_config_verified ssh) kex_verified.

Definition status_observation (state : State) (status : Observation AgentStatusReport) (now : Z) :
    AgentStatusObservation :=
  let effective := effective_status state (ob_value status) now in
  let report := ob_value status in
  {| ao_received_at := Some (timestamp (ob_received_at status)); ao_stale_at := Some (timestamp (ob_stale_at status));
     ao_freshness := Some (as_i32 (freshness state (ob_deadline status) now));
     ao_stale_reason := as_i32 <$> stale_reason state (ob_deadline status) now;
     ao_report := Some
       {| sr_observed_at := sr_observed_at report; sr_state := es_state effective; sr_code := es_code effective;
          sr_message := es_message effective; sr_system := sr_system report; sr_boot := sr_boot report;
          sr_provisioning := sr_provisioning report;
          sr_ssh := set_kex_verified (es_kex_verified effective) <$> sr_ssh report |} |}.

Definition project_status (state : State) (now observed_at : Z) : HostStatus :=
  let '(ready, reason) := readiness_detail state now in
  let agent :=
    if s_agent_enabled state then
      EnabledAgent (Some (s_connection state)) (s_identity state)
        ((fun status => status_observation state status now) <$> s_status state) (s_agent_services state)
    else DisabledAgent in
  {| hs_run_id := None; hs_machine_id := Some (s_machine_id state); hs_name := Some (s_name state);
     hs_monitor := Some {| mo_instance_id := Some (s_monitor_id state);
                           mo_observed_at := Some (timestamp observed_at) |};
     hs_vm := Some {| vs_state := Some (as_i32 (s_vm_state state));
                      vs_state_changed_at := Some (timestamp (s_vm_changed_at state));
                      vs_running_since := timestamp <$> s_running_since state; vs_code := s_vm_code state;
                      vs_message := s_vm_message state |};
     hs_readiness := Some {| rd_ready := Some ready; rd_reason := Some (as_i32 reason) |};
     hs_agent := Some agent |}.

Definition project_metrics (state : State) (now observed_at : Z) : HostMetrics :=
  {| hm_machine_id := Some (s_machine_id state); hm_name := Some (s_name state);
     hm_monitor := Some {| mo_instance_id := Some (s_monitor_id state);
                           mo_observed_at := Some (timestamp observed_at) |};
     hm_metrics :=
       (fun metrics : Observation (text * AgentMetricReport) =>
          {| mt_agent_instance_id := Some (ob_value metrics).1;
             mt_received_at := Some (timestamp (ob_received_at metrics));
             mt_stale_at := Some (timestamp (ob_stale_at metrics));
             mt_freshness := Some (as_i32 (freshness state (ob_deadline metrics) now));
             mt_stale_reason := as_i32 <$> stale_reason state (ob_deadline metrics) now;
             mt_report := Some (ob_value metrics).2 |}) <$> s_metrics state;
     hm_actual_backend := Some (s_actual_backend state); hm_host_memory_reclaim := s_host_memory_reclaim state |}.

Definition status : Mon HostStatus :=
  state ← get_state;
  now ← instant_now;
  observed_at ← system_now;
  mret (project_status state now observed_at).

Definition metrics : Mon HostMetrics :=
  state ← get_state;
  now ← instant_now;
  observed_at ← system_now;
  mret (project_metrics state now observed_at).

(** ** A new store *)

(** The random [monitor_id] and the readings of the clocks are arguments. *)
Definition InstanceStore_new (machine_id name : text) (agent_enabled : bool) (actual_backend monitor_id : text)
    (now instant : Z) : InstanceStore :=
  let state := {|
    s_machine_id := machine_id; s_name := name; s_actual_backend := actual_backend; s_monitor_id := monitor_id;
    s_vm_state := VmStarting; s_vm_changed_at := now; s_running_since := None; s_vm_code := None;
    s_vm_message := Some (lit "vm starting"); s_agent_enabled := agent_enabled;
    s_connection := {| ac_state := Some (as_i32 ConnectionConnecting); ac_last_success_at := None;
                       ac_last_failure_at := None; ac_code := None; ac_message := None |};
    s_identity := None; s_status := None; s_metrics := None; s_host_memory_reclaim := None;
    s_agent_services := []; s_stopping := false; s_last_log_snapshot := None; s_ssh_epoch := 0;
    s_ssh_verification := None |} in
  {| is_state := set_s_last_log_snapshot (Some (state_log_snapshot state instant)) state;
     is_generation := 0; is_identity_reset := 0; is_ready_agent_identity := None |}.
End Monitor.
