(* ===== verification/MonitorFacts.v ===== *)
(** The monitor's store under all its tasks: the operations as steps that can
    interleave, and what every step does to the evidence for the SSH listener. *)

From stdpp Require Import strings gmap.
From S2P Require Import Prelude Bytes RustStr RustText Protocol MonitorValidate Monitor.

Section Facts.
Context `{EXT : Externals}.

(** ** Steps *)

(** What a task that waits for the lock will do under it. *)
Inductive Update : Type :=
| UpdVmState (vm_state : VmState) (message : text)
| UpdMemoryReclaim (report : HostMemoryReclaim)
| UpdConnecting
| UpdFailure (message : text)
| UpdStatus (new : AgentIdentity) (obs : Observation AgentStatusReport)
| UpdMetrics (obs : Observation (text * AgentMetricReport))
| UpdComplete (target : SshVerificationTarget) (result : text + unit)
| UpdForward (expected : ReadyAgentIdentity) (serving : bool).

Definition closure (u : Update) : Mon bool :=
  match u with
  | UpdVmState vm_state message => always (vm_state_update vm_state message)
  | UpdMemoryReclaim report => always (memory_reclaim_update report)
  | UpdConnecting => always connecting_update
  | UpdFailure message => always (failure_update message)
  | UpdStatus new obs => always (status_update new obs)
  | UpdMetrics _ => mret false
  | UpdComplete target result => completion_update target result
  | UpdForward expected serving => always (forward_service_update expected serving)
  end.

(** The section under the lock, with what is left to publish. *)
Definition locked (u : Update) : Mon (option Publication) :=
  match u with
  | UpdMetrics obs => out ← metrics_locked obs; mret (Some out.2)
  | _ => mutate_locked (closure u)
  end.

(** The store with the tasks that wait for the lock and those that have dropped
    it and not yet published. *)
Record System : Type := mkSystem {
  y_world : World; y_waiting : list Update; y_unpublished : list Publication
}.

Inductive Label : Type :=
| Reads
| Arrives (u : Update)
| Locked (u : Update) (first last : nat)
| Publishes (p : Publication).

Definition left_to_publish (r : res StoreError (option Publication)) : list Publication :=
  match r with Ok (Some p) => [p] | _ => [] end.

(** A task arrives with an update it has prepared. *)
Inductive prepared : World -> Update -> World -> Prop :=
| prepared_vm w vm_state message : prepared w (UpdVmState vm_state message) w
| prepared_reclaim w report : prepared w (UpdMemoryReclaim report) w
| prepared_connecting w : prepared w UpdConnecting w
| prepared_failure w message : prepared w (UpdFailure message) w
| prepared_status w w' report age new obs :
    prepare_status report age w = (Ok (new, obs), w') -> prepared w (UpdStatus new obs) w'
| prepared_metrics w w' report age obs :
    prepare_metrics report age w = (Ok obs, w') -> prepared w (UpdMetrics obs) w'
| prepared_complete w target result : prepared w (UpdComplete target result) w
| prepared_forward w expected serving : prepared w (UpdForward expected serving) w.

Inductive step : System -> Label -> System -> Prop :=
| step_reads w q p : step (mkSystem w q p) Reads (mkSystem (next_tick w) q p)
| step_arrives w w' u q p :
    prepared w u w' -> step (mkSystem w q p) (Arrives u) (mkSystem w' (u :: q) p)
| step_locked w w' r u q1 q2 p :
    locked u w = (r, w') ->
    step (mkSystem w (q1 ++ u :: q2) p) (Locked u (w_tick w) (w_tick w'))
      (mkSystem w' (q1 ++ q2) (p ++ left_to_publish r))
| step_publishes w w' m q p1 p2 :
    publish m w = (Ok tt, w') ->
    step (mkSystem w q (p1 ++ m :: p2)) (Publishes m) (mkSystem w' q (p1 ++ p2)).

(** The trace lists the labels, the latest first. *)
Inductive steps (y : System) : list Label -> System -> Prop :=
| steps_refl : steps y [] y
| steps_step y1 y2 l ls : steps y ls y1 -> step y1 l y2 -> steps y (l :: ls) y2.

Lemma steps_trans y ls1 y1 ls2 y2 : steps y ls1 y1 -> steps y1 ls2 y2 -> steps y (ls2 ++ ls1) y2.
Proof. intros H1 H2. induction H2; [done|]. simpl. econstructor; eauto. Qed.

Definition current (w : World) : option SshVerificationTarget := sv_target <$> s_ssh_verification (state_of w).

(** A fresh system around a new store. *)
Definition fresh_system (w : World) : Prop :=
  exists machine_id name agent_enabled backend monitor_id now instant,
    w_store w = InstanceStore_new machine_id name agent_enabled backend monitor_id now instant.

Definition reachable (ls : list Label) (y : System) : Prop :=
  exists w, fresh_system w /\ steps (mkSystem w [] []) ls y.

(** ** Programs *)

Lemma bind_eq {A B} (m : Mon A) (f : A -> Mon B) w :
  (m ≫= f) w = match m w with
               | (Ok a, w') => f a w'
               | (Err e, w') => (Err e, w')
               | (Panic, w') => (Panic, w')
               end.
Proof. reflexivity. Qed.

Lemma get_bind {B} (f : State -> Mon B) w : (get_state ≫= f) w = f (state_of w) w.
Proof. reflexivity. Qed.
Lemma put_bind {B} g (f : unit -> Mon B) w : (put_state g ≫= f) w = f tt (on_state g w).
Proof. reflexivity. Qed.
Lemma instant_bind {B} (f : Z -> Mon B) w : (instant_now ≫= f) w = f (w_instant w (w_tick w)) (next_tick w).
Proof. reflexivity. Qed.
Lemma ok_bind {A B} (a : A) (f : A -> Mon B) w : (pure (Ok a) ≫= f) w = f a w.
Proof. reflexivity. Qed.

(** [m] relates the worlds before and after it, however it ends. *)
Definition always_rel {A} (R : World -> World -> Prop) (m : Mon A) : Prop := forall w, R w (m w).2.

Section Rel.
Context (R : World -> World -> Prop) `{!PreOrder R}.

Lemma rel_ret {A} (a : A) : always_rel R (mret a).
Proof. intros w. reflexivity. Qed.
Lemma rel_pure {A} (r : res StoreError A) : always_rel R (pure r).
Proof. intros w. reflexivity. Qed.
Lemma rel_fail {A} e : always_rel R (fail (A := A) e).
Proof. intros w. reflexivity. Qed.
Lemma rel_get : always_rel R get_state.
Proof. intros w. reflexivity. Qed.

Lemma rel_bind {A B} (m : Mon A) (f : A -> Mon B) :
  always_rel R m -> (forall a, always_rel R (f a)) -> always_rel R (m ≫= f).
Proof.
  intros Hm Hf w. specialize (Hm w). rewrite bind_eq. destruct (m w) as [[a|e|] w'] eqn:E; simpl in *; try done.
  transitivity w'; [done|]. apply Hf.
Qed.

(** The state is read and handed on. *)
Lemma rel_get_bind {B} (f : State -> Mon B) :
  (forall w, R w (f (state_of w) w).2) -> always_rel R (get_state ≫= f).
Proof. intros Hf w. rewrite bind_eq. apply Hf. Qed.
End Rel.

(** The clocks go on, the readings stay. *)
Record ticks (w w' : World) : Prop := {
  ti_instant : w_instant w' = w_instant w;
  ti_system : w_system w' = w_system w;
  ti_tick : (w_tick w <= w_tick w')%nat
}.

#[global] Instance ticks_preorder : PreOrder ticks.
Proof.
  split.
  - by constructor.
  - intros a b c [A1 A2 A3] [B1 B2 B3]. constructor; [congruence|congruence|lia].
Qed.

(** ** The evidence for the listener *)

Definition evidence (s : State) : option SshVerification * Z := (s_ssh_verification s, s_ssh_epoch s).

(** Evidence that has just been asked for, or none. *)
Definition unproved (s : State) : Prop :=
  forall v, s_ssh_verification s = Some v -> sv_outcome v = VerificationPending /\ vt_epoch (sv_target v) = s_ssh_epoch s.

(** The evidence stays, or it is dropped for good: the epoch goes on. *)
Definition evolves (w w' : World) : Prop :=
  ticks w w' /\
  (evidence (state_of w') = evidence (state_of w) \/
   (s_ssh_epoch (state_of w) < s_ssh_epoch (state_of w') /\ unproved (state_of w'))).

#[global] Instance evolves_preorder : PreOrder evolves.
Proof.
  split.
  - intros w. split; [done|by left].
  - intros a b c [T1 E1] [T2 E2]. split; [by transitivity b|]. unfold evidence in *.
    destruct E1 as [E1|[L1 U1]], E2 as [E2|[L2 U2]].
    + left. congruence.
    + right. injection E1 as _ E1. split; [lia|done].
    + right. injection E2 as Ev Ee. split; [lia|]. intros v Hv. rewrite Ev in Hv. rewrite Ee. by apply U1.
    + right. split; [lia|done].
Qed.

Lemma rel_put_kept f : (forall s, evidence (f s) = evidence s) -> always_rel evolves (put_state f).
Proof. intros Hf w. split; [by constructor|]. left. apply Hf. Qed.

Lemma rel_instant : always_rel evolves instant_now.
Proof. intros w. split; [constructor; simpl; try done; lia|by left]. Qed.
Lemma rel_system : always_rel evolves system_now.
Proof. intros w. split; [constructor; simpl; try done; lia|by left]. Qed.

Lemma next_epoch_ok e e' : next_epoch e = Ok e' -> e' = e + 1.
Proof. unfold next_epoch, checked_add. by case_match; intros [= <-]. Qed.
Lemma next_epoch_np e : next_epoch e <> Panic.
Proof. unfold next_epoch, checked_add. by case_match. Qed.

(** The cases of the two functions on the evidence. *)
Lemma invalidate_cases s r s' :
  invalidate_ssh_verification s = (r, s') ->
  (r <> Ok tt /\ s' = s) \/
  (r = Ok tt /\ s' = s /\ s_ssh_verification s = None) \/
  (r = Ok tt /\ s' = set_s_ssh_verification None (set_s_ssh_epoch (s_ssh_epoch s + 1) s)).
Proof.
  unfold invalidate_ssh_verification. destruct (s_ssh_verification s) eqn:Ev.
  - destruct (next_epoch (s_ssh_epoch s)) as [e| |] eqn:En; intros [= <- <-].
    + apply next_epoch_ok in En as ->. by right; right.
    + by left.
    + by left.
  - intros [= <- <-]. by right; left.
Qed.

Definition pending_target (s : State) (owner : ReadyAgentIdentity) (ssh : SshListenerReport) : SshVerificationTarget :=
  {| vt_epoch := s_ssh_epoch s + 1; vt_identity := owner; vt_backend := sl_backend ssh;
     vt_port := sl_port ssh; vt_host_public_key := sl_host_public_key ssh |}.

Definition asked (s : State) (owner : ReadyAgentIdentity) (ssh : SshListenerReport) : State :=
  set_s_ssh_verification
    (Some {| sv_target := pending_target s owner ssh; sv_outcome := VerificationPending |})
    (set_s_ssh_epoch (s_ssh_epoch s + 1) s).

Lemma refresh_cases s now r s' :
  refresh_ssh_verification s now = (r, s') ->
  (s' = s /\ ((r = Ok tt /\ is_Some (current_verification s now)) \/ r <> Ok tt)) \/
  exists s0, invalidate_ssh_verification s = (Ok tt, s0) /\ current_verification s now = None /\
    (s' = s0 \/ exists owner ssh, r = Ok tt /\ eligible_ssh s0 now = Some ssh /\ identity_from_state s0 = Some owner /\
                  s' = asked s0 owner ssh).
Proof.
  unfold refresh_ssh_verification. case_bool_decide as Hc; [intros [= <- <-]; left; auto|].
  rewrite <- eq_None_not_Some in Hc. destruct (invalidate_ssh_verification s) as [r0 s0] eqn:Ei.
  pose proof (invalidate_cases _ _ _ Ei) as [[Hr ->]|Hcase].
  { destruct r0 as [[]| |]; [done| |]; intros [= <- <-]; left; auto. }
  assert (r0 = Ok tt) as -> by (destruct Hcase as [[? _]|[? _]]; done).
  destruct (eligible_ssh s0 now) as [ssh|] eqn:El; [|intros [= <- <-]; right; eauto 10].
  destruct (identity_from_state s0) as [owner|] eqn:Eo; [|intros [= <- <-]; right; eauto 10].
  destruct (next_epoch (s_ssh_epoch s0)) as [e| |] eqn:En; [|intros [= <- <-]; right; eauto 10..].
  apply next_epoch_ok in En as ->. intros [= <- <-]. right. exists s0. split; [done|]. split; [done|]. right. by exists owner, ssh.
Qed.

Lemma change_state f w : state_of (change f w).2 = (f (state_of w)).2 /\ ticks w (change f w).2.
Proof. unfold change. destruct (f (state_of w)) as [r s]. split; [done|by constructor]. Qed.

Lemma invalidate_evolves s r s' : invalidate_ssh_verification s = (r, s') ->
  evidence s' = evidence s \/ (s_ssh_epoch s < s_ssh_epoch s' /\ s_ssh_verification s' = None).
Proof.
  intros [[_ ->]|[(_ & -> & _)|[_ ->]]]%invalidate_cases; [by left..|]. right. simpl. split; [lia|done].
Qed.

Lemma rel_invalidate : always_rel evolves (change invalidate_ssh_verification).
Proof.
  intros w. destruct (change_state invalidate_ssh_verification w) as [Es Ht]. split; [done|]. rewrite Es.
  destruct (invalidate_ssh_verification (state_of w)) as [r s'] eqn:E. simpl.
  destruct (invalidate_evolves _ _ _ E) as [?|[? Hn]]; [by left|right]. split; [done|]. intros v Hv. congruence.
Qed.

Lemma rel_refresh now : always_rel evolves (change (fun s => refresh_ssh_verification s now)).
Proof.
  intros w. destruct (change_state (fun s => refresh_ssh_verification s now) w) as [Es Ht]. split; [done|]. rewrite Es.
  destruct (refresh_ssh_verification (state_of w) now) as [r s'] eqn:E. simpl.
  apply refresh_cases in E as [[-> _]|(s0 & Ei & _ & [->|(owner & ssh & _ & _ & _ & ->)])]; [by left| |].
  - destruct (invalidate_evolves _ _ _ Ei) as [?|[? Hn]]; [by left|right]. split; [done|]. intros v Hv. congruence.
  - right. split.
    + destruct (invalidate_evolves _ _ _ Ei) as [Ee|[? _]]; [unfold evidence in Ee; injection Ee as _ Ee|]; simpl; lia.
    + intros v [= <-]. done.
Qed.

(** [evolve] follows a program through its binds and branches. *)
Ltac kept := apply rel_put_kept; intros ?; unfold accept_status; repeat (case_match; try reflexivity); reflexivity.
Ltac evolve :=
  repeat first
    [ apply rel_ret; [typeclasses eauto] | apply rel_pure; [typeclasses eauto] | apply rel_fail; [typeclasses eauto]
    | apply rel_get; [typeclasses eauto] | apply rel_instant | apply rel_system | apply rel_invalidate | apply rel_refresh
    | kept
    | apply rel_bind; [typeclasses eauto| |intros ?]
    | case_match ].

Lemma rel_before : always_rel evolves before_snapshot.
Proof. unfold before_snapshot. evolve. Qed.
Lemma rel_after : always_rel evolves after_snapshot.
Proof. unfold after_snapshot. evolve. Qed.

Lemma rel_mutate_locked m : always_rel evolves m -> always_rel evolves (mutate_locked m).
Proof.
  intros Hm. unfold mutate_locked. apply rel_bind; [typeclasses eauto|apply rel_before|intros ?].
  apply rel_bind; [typeclasses eauto|done|intros changed]. destruct changed; simpl; [|evolve].
  evolve.
Qed.

Lemma rel_metrics_locked obs : always_rel evolves (metrics_locked obs).
Proof.
  unfold metrics_locked. apply rel_bind; [typeclasses eauto|apply rel_before|intros ?]. evolve.
Qed.

Lemma rel_closure u : (forall target result, u <> UpdComplete target result) -> always_rel evolves (closure u).
Proof.
  intros Hu. destruct u; simpl; unfold always, vm_state_update, memory_reclaim_update, connecting_update, failure_update,
    status_update, forward_service_update; try (by evolve). by destruct (Hu target result).
Qed.

(** A completion: nothing, or the outcome for the target it names. *)
Lemma completion_cases target result w :
  let w' := (completion_update target result w).2 in
  ticks w w' /\
  (((completion_update target result w).1 <> Ok true /\ state_of w' = state_of w) \/
   exists v o, s_ssh_verification (state_of w) = Some v /\ sv_target v = target /\
     state_of w' = set_s_ssh_verification (Some {| sv_target := target; sv_outcome := o |}) (state_of w) /\
     (w_tick w < w_tick w')%nat /\
     match result with
     | inr _ => o = Verified (w_instant w (w_tick w) + SSH_VERIFICATION_VALIDITY)
     | inl message => o = VerificationFailed (truncate message MAX_DIAGNOSTIC_BYTES)
     end).
Proof.
  assert (ticks w (next_tick w)) as Ht by (constructor; simpl; try done; lia).
  unfold completion_update. rewrite bind_eq. cbn -[time_add SSH_VERIFICATION_VALIDITY]. rewrite bind_eq. cbn -[time_add SSH_VERIFICATION_VALIDITY].
  change (state_of (next_tick w)) with (state_of w). destruct (s_ssh_verification (state_of w)) as [v|] eqn:Ev; [|by split; [|left]].
  case_bool_decide as Et; [|by split; [|left]]. simpl. destruct (ssh_target_matches _ _ _); [|by split; [|left]].
  destruct result as [message|[]].
  - cbn. split; [by constructor; simpl; try lia|]. right. exists v, (VerificationFailed (truncate message MAX_DIAGNOSTIC_BYTES)).
    rewrite Et. repeat split. simpl. lia.
  - unfold pure. rewrite !bind_eq. destruct (time_add (w_instant w (w_tick w)) SSH_VERIFICATION_VALIDITY) as [d|] eqn:Ea; [|by split; [|left]].
    unfold time_add in Ea. case_match; [|done]. injection Ea as <-. cbn -[SSH_VERIFICATION_VALIDITY].
    split; [by constructor; simpl; try lia|]. right. eexists v, _. rewrite Et. repeat split. simpl. lia.
Qed.

(** Taking the snapshot before an update leaves the state alone. *)
Lemma before_snapshot_ok w : exists before w1, before_snapshot w = (Ok before, w1) /\ ticks w w1 /\
  w_store w1 = w_store w /\ w_log w1 = w_log w.
Proof.
  unfold before_snapshot. rewrite bind_eq. cbn. destruct (s_last_log_snapshot (state_of w)).
  - eexists _, w. done.
  - eexists _, (next_tick w). split; [reflexivity|]. split; [constructor; simpl; try done; lia|done].
Qed.

(** What a section under the lock does to the evidence. *)
Definition completes (u : Update) (w w' : World) : Prop :=
  exists target result v o k, u = UpdComplete target result /\ s_ssh_verification (state_of w) = Some v /\
    sv_target v = target /\ evidence (state_of w') = (Some {| sv_target := target; sv_outcome := o |}, s_ssh_epoch (state_of w)) /\
    (w_tick w <= k < w_tick w')%nat /\
    match result with
    | inr _ => o = Verified (w_instant w k + SSH_VERIFICATION_VALIDITY)
    | inl message => o = VerificationFailed (truncate message MAX_DIAGNOSTIC_BYTES)
    end.

(** What follows the closure in [mutate_locked]. *)
Definition conclude (before : StateLogSnapshot) (changed : bool) : Mon (option Publication) :=
  if negb changed then mret None
  else
    now ← instant_now;
    _ ← change (fun state => refresh_ssh_verification state now);
    after ← after_snapshot;
    mret (Some (PublishMutation before after)).

Lemma rel_conclude before changed : always_rel evolves (conclude before changed).
Proof. unfold conclude. destruct changed; simpl; evolve. Qed.

Lemma mutate_locked_eq update w : exists before w1, before_snapshot w = (Ok before, w1) /\ ticks w w1 /\ w_store w1 = w_store w /\
  mutate_locked update w = (changed ← update; conclude before changed) w1.
Proof.
  destruct (before_snapshot_ok w) as (before & w1 & Hb & T1 & S1 & _). exists before, w1. split; [done|]. split; [done|].
  split; [done|]. unfold mutate_locked. by rewrite bind_eq, Hb.
Qed.

Lemma completes_then target result w w1 w2 w3 o v :
  ticks w w1 -> ticks w1 w2 -> state_of w1 = state_of w -> s_ssh_verification (state_of w1) = Some v -> sv_target v = target ->
  state_of w2 = set_s_ssh_verification (Some {| sv_target := target; sv_outcome := o |}) (state_of w1) ->
  (w_tick w1 < w_tick w2)%nat ->
  match result with
  | inr _ => o = Verified (w_instant w1 (w_tick w1) + SSH_VERIFICATION_VALIDITY)
  | inl message => o = VerificationFailed (truncate message MAX_DIAGNOSTIC_BYTES)
  end ->
  evolves w2 w3 -> evolves w w3 \/ (ticks w w3 /\ completes (UpdComplete target result) w w3).
Proof.
  intros T1 T2 Es Hv Ht Hs Hk Ho [T3 E3]. assert (ticks w w3) as T by (transitivity w2; [by transitivity w1|done]).
  rewrite Es in Hv. unfold evidence in E3. destruct E3 as [E3|[L3 U3]].
  - right. split; [done|]. exists target, result, v, o, (w_tick w1). rewrite Hs, Es in E3. cbn in E3.
    pose proof (ti_tick _ _ T1). pose proof (ti_tick _ _ T3). rewrite (ti_instant _ _ T1) in Ho.
    repeat split; try done; lia.
  - left. split; [done|]. right. split; [|done]. rewrite Hs, Es in L3. done.
Qed.

Lemma completion_effect target result w w' r : locked (UpdComplete target result) w = (r, w') ->
  evolves w w' \/ (ticks w w' /\ completes (UpdComplete target result) w w').
Proof.
  destruct (mutate_locked_eq (completion_update target result) w) as (before & w1 & _ & T1 & S1 & Eq).
  simpl. rewrite Eq, bind_eq. assert (state_of w1 = state_of w) as Es by (unfold state_of; by rewrite S1).
  pose proof (completion_cases target result w1) as [T2 Hc]. destruct (completion_update target result w1) as [r2 w2]. simpl in T2, Hc.
  destruct Hc as [[Hr Hs]|(v & o & Hv & Ht & Hs & Hk & Ho)].
  - intros Hrun. left. split; [|left]; destruct r2 as [[]| |]; try done; injection Hrun as <- <-; try (by transitivity w1); by rewrite Hs, Es.
  - intros Hrun. apply (completes_then target result w w1 w2 w' o v); try done.
    destruct r2 as [changed| |]; [|by injection Hrun as <- <-..].
    pose proof (rel_conclude before changed w2) as Hc. by rewrite Hrun in Hc.
Qed.

Lemma locked_effect u w w' r : locked u w = (r, w') -> evolves w w' \/ (ticks w w' /\ completes u w w').
Proof.
  assert (forall m, always_rel evolves m -> m w = (r, w') -> evolves w w') as Hm.
  { intros m Hm E. specialize (Hm w). by rewrite E in Hm. }
  destruct u; try (intros E; left; revert E; apply Hm; apply rel_mutate_locked, rel_closure; done).
  - intros E. left. revert E. apply Hm. simpl. apply rel_bind; [typeclasses eauto|apply rel_metrics_locked|intros ?]. evolve.
  - apply completion_effect.
Qed.

(** ** Steps and the evidence *)

(** Only the clocks go on. *)
Definition quiet (w w' : World) : Prop := ticks w w' /\ w_store w' = w_store w /\ w_log w' = w_log w.

#[global] Instance quiet_preorder : PreOrder quiet.
Proof. split; [done|]. intros a b c (T1 & S1 & L1) (T2 & S2 & L2). split; [by transitivity b|]. split; congruence. Qed.

Lemma quiet_instant : always_rel quiet instant_now.
Proof. intros w. split; [constructor; simpl; try done; lia|done]. Qed.
Lemma quiet_system : always_rel quiet system_now.
Proof. intros w. split; [constructor; simpl; try done; lia|done]. Qed.

Lemma quiet_observation {T} (value : T) age : always_rel quiet (observation value age).
Proof.
  unfold observation. repeat first [apply rel_bind; [typeclasses eauto| |intros ?] | apply quiet_instant | apply quiet_system
    | apply rel_pure; typeclasses eauto | apply rel_ret; typeclasses eauto].
Qed.

Ltac stay_quiet :=
  repeat first [apply quiet_observation | apply rel_pure; typeclasses eauto
    | apply rel_ret; typeclasses eauto | apply rel_bind; [typeclasses eauto| |intros ?]].

Lemma quiet_prepare_status report age : always_rel quiet (prepare_status report age).
Proof. unfold prepare_status. stay_quiet. Qed.
Lemma quiet_prepare_metrics report age : always_rel quiet (prepare_metrics report age).
Proof. unfold prepare_metrics. stay_quiet. Qed.

Lemma prepared_quiet w u w' : prepared w u w' -> quiet w w'.
Proof.
  destruct 1 as [| | | |w w' report age new obs E|w w' report age obs E| |]; try done.
  - pose proof (quiet_prepare_status report age w) as Hq. by rewrite E in Hq.
  - pose proof (quiet_prepare_metrics report age w) as Hq. by rewrite E in Hq.
Qed.

Lemma publish_effect p w : let w' := (publish p w).2 in ticks w w' /\ state_of w' = state_of w.
Proof. destruct p; (split; [by constructor|done]). Qed.

Lemma step_effect y l y' :
  step y l y' ->
  let w := y_world y in let w' := y_world y' in
  ticks w w' /\
  (state_of w' = state_of w \/
   exists u, l = Locked u (w_tick w) (w_tick w') /\ (evolves w w' \/ completes u w w')).
Proof.
  destruct 1 as [w q p|w w' u q p Hp|w w' r u q1 q2 p Hl|w w' m q p1 p2 Hm]; simpl.
  - split; [constructor; simpl; try done; lia|by left].
  - destruct (prepared_quiet _ _ _ Hp) as (Ht & Hs & _). split; [done|]. left. unfold state_of. by rewrite Hs.
  - destruct (locked_effect _ _ _ _ Hl) as [He|[Ht Hc]].
    + split; [apply He|]. right. eauto.
    + split; [done|]. right. eauto.
  - destruct (publish_effect m w) as [Ht Hs]. rewrite Hm in Ht, Hs. split; [done|by left].
Qed.

Definition epoch_inv (s : State) : Prop := forall v, s_ssh_verification s = Some v -> vt_epoch (sv_target v) = s_ssh_epoch s.

(** Every verified listener has been completed in the trace. *)
Definition proved_in (ls : list Label) (w : World) : Prop :=
  forall target deadline, s_ssh_verification (state_of w) = Some {| sv_target := target; sv_outcome := Verified deadline |} ->
    exists first last k, Locked (UpdComplete target (inr tt)) first last ∈ ls /\ (first <= k < last)%nat /\ (last <= w_tick w)%nat /\
      deadline = w_instant w k + SSH_VERIFICATION_VALIDITY.

Lemma step_epoch y l y' : step y l y' -> epoch_inv (state_of (y_world y)) ->
  epoch_inv (state_of (y_world y')) /\ s_ssh_epoch (state_of (y_world y)) <= s_ssh_epoch (state_of (y_world y')) /\
  (s_ssh_epoch (state_of (y_world y')) = s_ssh_epoch (state_of (y_world y)) -> current (y_world y') = current (y_world y)).
Proof.
  intros [_ Hs]%step_effect Hi. unfold current. destruct Hs as [Hs|(u & _ & [[_ [He|[Hlt Hu]]]|Hc])].
  - rewrite Hs. split; [done|]. split; [lia|done].
  - unfold evidence in He. injection He as Hv He. unfold epoch_inv. rewrite Hv, He. split; [done|]. split; [lia|done].
  - split; [intros v Hv; by apply Hu|]. split; [lia|]. intros. lia.
  - destruct Hc as (target & result & v & o & k & _ & Hv & Ht & He & _). unfold evidence in He. injection He as Hv' He.
    unfold epoch_inv. rewrite Hv', He, Hv. split; [|split; [lia|by rewrite <- Ht]]. intros v' [= <-]. simpl. rewrite <- Ht. by apply Hi.
Qed.

Lemma steps_epoch y ls y' : steps y ls y' -> epoch_inv (state_of (y_world y)) ->
  epoch_inv (state_of (y_world y')) /\ s_ssh_epoch (state_of (y_world y)) <= s_ssh_epoch (state_of (y_world y')) /\
  (s_ssh_epoch (state_of (y_world y')) = s_ssh_epoch (state_of (y_world y)) -> current (y_world y') = current (y_world y)).
Proof.
  induction 1 as [|y1 y2 l ls Hs IH Hstep]; intros Hi; [split; [done|split; [lia|done]]|].
  destruct (IH Hi) as (I1 & L1 & C1). destruct (step_epoch _ _ _ Hstep I1) as (I2 & L2 & C2). split; [done|]. split; [lia|].
  intros E. rewrite C2 by lia. apply C1. lia.
Qed.

Lemma proved_mono ls w w' l : ticks w w' -> s_ssh_verification (state_of w') = s_ssh_verification (state_of w) ->
  proved_in ls w -> proved_in (l :: ls) w'.
Proof.
  intros Ht Hv Hp target deadline Hd. rewrite Hv in Hd. destruct (Hp _ _ Hd) as (a & b & k & Hin & Hk & Hb & ->).
  exists a, b, k. split; [by right|]. pose proof (ti_tick _ _ Ht). split; [lia|]. split; [lia|]. by rewrite (ti_instant _ _ Ht).
Qed.

Lemma step_proved y l y' ls : step y l y' -> proved_in ls (y_world y) -> proved_in (l :: ls) (y_world y').
Proof.
  intros [Ht Hs]%step_effect Hp. destruct Hs as [Hs|(u & -> & [[_ [He|[Hlt Hu]]]|Hc])].
  - apply (proved_mono ls (y_world y)); [done|by rewrite Hs|done].
  - apply (proved_mono ls (y_world y)); [done|by injection He|done].
  - intros target deadline Hd. by destruct (Hu _ Hd) as [? _].
  - destruct Hc as (target & result & v & o & k & -> & Hv & Et & He & Hk & Ho). unfold evidence in He. injection He as Hv' _.
    intros target' deadline Hd. rewrite Hv' in Hd. injection Hd as <- ->. destruct result as [message|[]]; [done|].
    injection Ho as ->. exists (w_tick (y_world y)), (w_tick (y_world y')), k. split; [by left|]. split; [lia|]. split; [lia|].
    by rewrite (ti_instant _ _ Ht).
Qed.

Lemma reachable_facts ls y : reachable ls y -> epoch_inv (state_of (y_world y)) /\ proved_in ls (y_world y).
Proof.
  intros (w & Hw & Hs). assert (s_ssh_verification (state_of w) = None) as Hn.
  { destruct Hw as (? & ? & ? & ? & ? & ? & ? & Hw). unfold state_of. by rewrite Hw. }
  split.
  - apply (steps_epoch _ _ _ Hs). intros v. simpl. congruence.
  - clear Hw. induction Hs as [|y1 y2 l ls Hs IH Hstep]; [intros ?? E; simpl in E; congruence|]. by apply (step_proved y1).
Qed.

(** ** The invariant of the store *)

Definition short (message : option text) : Prop := forall m, message = Some m -> zlen m <= MAX_DIAGNOSTIC_BYTES.

Definition forward_services : list text := known_agent_services ++ [lit "silo.v1.GuestForwardService"].

Record store_inv (s : State) : Prop := {
  si_identity : forall i, s_identity s = Some i -> validate_identity i = Ok tt;
  si_status : forall o, s_status s = Some o -> is_Some (s_identity s) /\ validate_status_report (ob_value o) = Ok tt;
  si_metrics : forall o, s_metrics s = Some o ->
    (exists i, s_identity s = Some i /\ ai_instance_id i = Some (ob_value o).1) /\
    validate_metrics {| am_agent_instance_id := Some (ob_value o).1; am_report := Some (ob_value o).2 |} = Ok tt;
  si_services : s_agent_services s =
    match s_identity s with Some _ => known_agent_services | None => [] end \/
    (is_Some (s_identity s) /\ s_agent_services s = forward_services);
  si_stopping : s_stopping s = is_stopping_state (s_vm_state s);
  si_running : s_vm_state s = VmRunning -> is_Some (s_running_since s);
  si_vm_message : short (s_vm_message s);
  si_connection : short (ac_message (s_connection s));
  si_epoch : epoch_inv s /\ 0 <= s_ssh_epoch s < 2 ^ 64
}.

(** The fields of the invariant but the evidence. *)
Definition same_but_evidence (s s' : State) : Prop :=
  s_identity s' = s_identity s /\ s_status s' = s_status s /\ s_metrics s' = s_metrics s /\
  s_agent_services s' = s_agent_services s /\ s_stopping s' = s_stopping s /\ s_vm_state s' = s_vm_state s /\
  s_running_since s' = s_running_since s /\ s_vm_message s' = s_vm_message s /\ s_connection s' = s_connection s.

Lemma store_inv_evidence s s' : same_but_evidence s s' -> epoch_inv s' /\ 0 <= s_ssh_epoch s' < 2 ^ 64 ->
  store_inv s -> store_inv s'.
Proof.
  intros (E1 & E2 & E3 & E4 & E5 & E6 & E7 & E8 & E9) He [I1 I2 I3 I4 I5 I6 I7 I8 _].
  constructor; rewrite ?E1, ?E2, ?E3, ?E4, ?E5, ?E6, ?E7, ?E8, ?E9; done.
Qed.

Lemma boundary_below_le s i : (boundary_below s i <= i)%nat.
Proof. induction i as [|i IH]; simpl; [done|]. case_match; lia. Qed.

Lemma truncate_short m maximum : 0 <= maximum -> zlen (truncate m maximum) <= maximum.
Proof.
  intros H0. unfold truncate. destruct (Z.leb_spec (zlen m) maximum); [done|]. unfold zlen in *. rewrite length_take.
  pose proof (boundary_below_le m (Z.to_nat maximum)). lia.
Qed.

Lemma short_truncate m : short (Some (truncate m MAX_DIAGNOSTIC_BYTES)).
Proof. intros ? [= <-]. apply truncate_short. done. Qed.

Definition keeps (w w' : World) : Prop := store_inv (state_of w) -> store_inv (state_of w').

#[global] Instance keeps_preorder : PreOrder keeps.
Proof. split; unfold keeps; [by intros ?|]. intros a b c Hab Hbc Ha. by apply Hbc, Hab. Qed.

Lemma keeps_put f : (forall s, store_inv s -> store_inv (f s)) -> always_rel keeps (put_state f).
Proof. intros Hf w Hi. by apply Hf. Qed.
Lemma keeps_instant : always_rel keeps instant_now.
Proof. intros w Hi. exact Hi. Qed.
Lemma keeps_system : always_rel keeps system_now.
Proof. intros w Hi. exact Hi. Qed.

Lemma next_epoch_range e e' : next_epoch e = Ok e' -> 0 <= e -> 0 <= e' < 2 ^ 64.
Proof. unfold next_epoch, checked_add. destruct (Z.ltb_spec (e + 1) (2 ^ 64)); intros [= <-]; lia. Qed.

Lemma invalidate_inv s r s' : invalidate_ssh_verification s = (r, s') -> store_inv s -> store_inv s'.
Proof.
  intros E Hi. pose proof (si_epoch _ Hi) as [_ [H0 _]]. unfold invalidate_ssh_verification in E.
  destruct (s_ssh_verification s) eqn:Ev; [|by injection E as <- <-].
  destruct (next_epoch (s_ssh_epoch s)) as [e| |] eqn:En; injection E as <- <-; [|done|done].
  apply (store_inv_evidence s); [by repeat split| |done]. split; [by intros v|]. simpl. by apply (next_epoch_range (s_ssh_epoch s)).
Qed.

Lemma refresh_inv s now r s' : refresh_ssh_verification s now = (r, s') -> store_inv s -> store_inv s'.
Proof.
  unfold refresh_ssh_verification. case_bool_decide; [by intros [= <- <-]|].
  destruct (invalidate_ssh_verification s) as [r0 s0] eqn:Ei. intros E Hi. pose proof (invalidate_inv _ _ _ Ei Hi) as Hi0.
  destruct r0 as [[]| |]; [|by injection E as <- <-..].
  repeat (case_match; simplify_eq; try done). pose proof (si_epoch _ Hi0) as [_ [Hpos _]].
  apply (store_inv_evidence s0); [by repeat split| |done]. split; [by intros v [= <-]|]. simpl. by apply (next_epoch_range (s_ssh_epoch s0)).
Qed.

Lemma keeps_change f : (forall s, store_inv s -> store_inv (f s).2) -> always_rel keeps (change f).
Proof. intros Hf w Hi. destruct (change_state f w) as [-> _]. by apply Hf. Qed.

Lemma keeps_invalidate : always_rel keeps (change invalidate_ssh_verification).
Proof. apply keeps_change. intros s Hi. destruct (invalidate_ssh_verification s) eqn:E. by apply (invalidate_inv s _ _ E). Qed.
Lemma keeps_refresh now : always_rel keeps (change (fun s => refresh_ssh_verification s now)).
Proof. apply keeps_change. intros s Hi. destruct (refresh_ssh_verification s now) eqn:E. by apply (refresh_inv s now _ _ E). Qed.

Lemma keeps_snapshot after : always_rel keeps (put_state (set_s_last_log_snapshot (Some after))).
Proof. apply keeps_put. intros s Hi. apply (store_inv_evidence s); [by repeat split| |done]. apply (si_epoch _ Hi). Qed.

Ltac keep :=
  repeat first
    [ apply keeps_instant | apply keeps_system | apply keeps_invalidate | apply keeps_refresh | apply keeps_snapshot
    | apply rel_pure; typeclasses eauto | apply rel_ret; typeclasses eauto | apply rel_fail; typeclasses eauto
    | apply rel_get; typeclasses eauto
    | apply rel_bind; [typeclasses eauto| |intros ?] ].

Lemma keeps_before : always_rel keeps before_snapshot.
Proof. unfold before_snapshot. apply rel_bind; [typeclasses eauto|keep|intros s]. destruct (s_last_log_snapshot s); keep. Qed.
Lemma keeps_after : always_rel keeps after_snapshot.
Proof. unfold after_snapshot. keep. Qed.

Lemma keeps_mutate_locked m : always_rel keeps m -> always_rel keeps (mutate_locked m).
Proof.
  intros Hm. unfold mutate_locked. apply rel_bind; [typeclasses eauto|apply keeps_before|intros ?].
  apply rel_bind; [typeclasses eauto|done|intros []]; simpl; [|keep]. keep.
Qed.

Lemma vm_state_inv vm_state message now s :
  store_inv s ->
  store_inv (let s := set_s_vm_message (Some (truncate message MAX_DIAGNOSTIC_BYTES))
                        (set_s_vm_changed_at now (set_s_vm_state vm_state s)) in
    let s := if bool_decide (vm_state = VmRunning) && bool_decide (s_running_since s = None)
             then set_s_running_since (Some now) s else s in
    set_s_stopping (is_stopping_state vm_state) s).
Proof.
  intros [I1 I2 I3 I4 I5 I6 I7 I8 I9]. cbv zeta. pose proof (short_truncate message).
  destruct (bool_decide_reflect (vm_state = VmRunning)) as [Hv|Hv], (bool_decide_reflect (s_running_since s = None)) as [Hr|Hr]; cbn in Hr |- *;
    rewrite ?(bool_decide_true _ Hr), ?(bool_decide_false _ Hr); constructor; cbn; try done.
  intros _. destruct (s_running_since s); [eauto|done].
Qed.

Lemma connection_inv c s : short (ac_message c) -> store_inv s -> store_inv (set_s_connection c s).
Proof. intros Hc [I1 I2 I3 I4 I5 I6 I7 I8 I9]. by constructor. Qed.

Lemma forward_inv serving s i :
  s_identity s = Some i -> store_inv s ->
  store_inv (set_s_agent_services
    (known_agent_services ++ if serving : bool then [lit "silo.v1.GuestForwardService"] else []) s).
Proof.
  intros Hid [I1 I2 I3 I4 I5 I6 I7 I8 I9]. constructor; cbn; try done. rewrite Hid.
  destruct serving; [right; by split|by left].
Qed.

Lemma forget_inv s i : s_identity s = Some i -> store_inv s -> store_inv (forget_observations s).
Proof. intros Hid [I1 I2 I3 I4 I5 I6 I7 I8 I9]. constructor; cbn; try done. rewrite Hid. by left. Qed.

Lemma forget_identity_inv s : store_inv s -> store_inv (forget_identity s).
Proof. intros [I1 I2 I3 I4 I5 I6 I7 I8 I9]. constructor; cbn; try done. by left. Qed.

(** An accepted report: it is of the agent the metrics are of. *)
Lemma accept_inv new obs s :
  validate_identity new = Ok tt -> validate_status_report (ob_value obs) = Ok tt ->
  (forall c, s_identity s = Some c -> s_metrics s = None \/ ai_instance_id c = ai_instance_id new) ->
  store_inv s -> store_inv (accept_status new obs s).
Proof.
  intros Hn Ho Hm [I1 I2 I3 I4 I5 I6 I7 I8 I9]. unfold accept_status.
  destruct (s_identity s) as [c|] eqn:Eid; [rewrite bool_decide_false by done|rewrite bool_decide_true by done];
    constructor; cbn; try done; try (by intros ? [= <-]); try (by left).
  - intros o Hs. destruct (I3 o Hs) as [(i & [= <-] & Ei) Hv]. split; [|done]. destruct (Hm c eq_refl) as [Hn'|Hn']; [congruence|].
    exists new. split; [done|]. congruence.
  - destruct I4 as [->|[_ ->]]; [by left|right; by split].
  - intros o Hs. by destruct (I3 o Hs) as [(i & ? & _) _].
Qed.

Definition update_ok (u : Update) : Prop :=
  match u with
  | UpdStatus new obs => validate_identity new = Ok tt /\ validate_status_report (ob_value obs) = Ok tt
  | UpdMetrics obs =>
      validate_metrics {| am_agent_instance_id := Some (ob_value obs).1; am_report := Some (ob_value obs).2 |} = Ok tt
  | _ => True
  end.

(** The evidence is dropped or kept; the rest of the state stays. *)
Lemma invalidate_same s : same_but_evidence s (invalidate_ssh_verification s).2.
Proof.
  destruct (invalidate_ssh_verification s) as [r s'] eqn:E.
  apply invalidate_cases in E as [[_ ->]|[(_ & -> & _)|[_ ->]]]; by repeat split.
Qed.

(** The first part of [status_update]: evidence whose receipt has expired. *)
Definition expire (state : State) : Mon unit :=
  match s_status state with
  | Some status =>
      now ← instant_now;
      if ob_deadline status <=? now then change invalidate_ssh_verification else mret tt
  | None => mret tt
  end.

Lemma expire_effect w : let out := expire (state_of w) w in
  same_but_evidence (state_of w) (state_of out.2) /\ ticks w out.2 /\ evolves w out.2 /\ keeps w out.2.
Proof.
  assert (forall w, same_but_evidence (state_of w) (state_of w)) as Hsame by (by repeat split).
  assert (ticks w (next_tick w)) as Ht by (constructor; simpl; try done; lia).
  unfold expire. cbv zeta. destruct (s_status (state_of w)) as [o|]; [|split; [apply Hsame|split; [done|split; reflexivity]]].
  unfold instant_now. rewrite bind_eq. cbn beta iota. destruct (ob_deadline o <=? w_instant w (w_tick w)); [|split; [apply (Hsame w)|split; [done|split; [apply (rel_instant w)|apply (keeps_instant w)]]]].
  destruct (change_state invalidate_ssh_verification (next_tick w)) as [Es T2]. split; [|split; [|split]].
  - rewrite Es. apply (invalidate_same (state_of w)).
  - by transitivity (next_tick w).
  - transitivity (next_tick w); [apply (rel_instant w)|apply (rel_invalidate (next_tick w))].
  - apply (keeps_invalidate (next_tick w)).
Qed.

Lemma status_update_keeps new obs : update_ok (UpdStatus new obs) -> always_rel keeps (status_update new obs).
Proof.
  intros [Hn Ho] w Hi. unfold status_update. rewrite get_bind. fold (expire (state_of w)). rewrite bind_eq.
  destruct (expire_effect w) as (Hs & _ & _ & Hk). specialize (Hk Hi). destruct (expire (state_of w) w) as [[[]| |] w1] eqn:E; try done.
  cbn [snd] in *. destruct Hs as (E1 & _ & E3 & _). rewrite bind_eq. destruct (s_identity (state_of w)) as [c|] eqn:Eid.
  - destruct (replaced c new) eqn:Er.
    + cbn. apply accept_inv; try done; [|by apply (forget_inv _ c)]. intros c' _. by left.
    + unfold replaced in Er. apply orb_false_iff in Er as [Ei%negb_false_iff%bool_decide_eq_true _].
      case_bool_decide; [|done]. apply (accept_inv new obs (state_of w1)); try done. rewrite E1. intros ? [= <-]. by right.
  - apply (accept_inv new obs (state_of w1)); try done. by rewrite E1.
Qed.

Lemma metrics_locked_keeps obs : update_ok (UpdMetrics obs) -> always_rel keeps (metrics_locked obs).
Proof.
  intros Hu. unfold metrics_locked. apply rel_bind; [typeclasses eauto|apply keeps_before|intros before].
  apply rel_get_bind. intros w Hi. destruct (s_identity (state_of w)) as [c|] eqn:Eid; [|done]. simpl ok_or. rewrite ok_bind.
  case_bool_decide as Hid.
  - assert (store_inv (state_of (on_state (set_s_metrics (Some obs)) w))) as Hi1.
    { destruct Hi as [I1 I2 I3 I4 I5 I6 I7 I8 I9]. constructor; cbn; try done. intros o [= <-]. split; [by exists c|done]. }
    cbn [negb]. rewrite put_bind.
    assert (always_rel keeps (after ← after_snapshot; mret (Ok tt, PublishLog before after) : Mon (res StoreError unit * Publication))) as Hk by keep.
    exact (Hk _ Hi1).
  - cbn [negb]. rewrite put_bind.
    assert (always_rel keeps (_ ← change invalidate_ssh_verification; after ← after_snapshot;
      mret (Err IdentityMismatch, PublishReset before after) : Mon (res StoreError unit * Publication))) as Hk by keep.
    exact (Hk (on_state forget_identity w) (forget_identity_inv _ Hi)).
Qed.

Lemma completion_keeps target result : always_rel keeps (completion_update target result).
Proof.
  intros w Hi. pose proof (completion_cases target result w) as [_ Hc]. destruct (completion_update target result w) as [r w'].
  cbn [snd] in *. destruct Hc as [[_ ->]|(v & o & Hv & Ht & -> & _)]; [done|]. apply (store_inv_evidence (state_of w)); [by repeat split| |done].
  destruct (si_epoch _ Hi) as [He Hr]. split; [|done]. intros v' [= <-]. cbn. rewrite <- Ht. by apply He.
Qed.

Lemma closure_keeps u : update_ok u -> always_rel keeps (closure u).
Proof.
  intros Hu. destruct u; cbn [closure]; try apply completion_keeps; unfold always;
    try (apply rel_bind; [typeclasses eauto| |intros ?; keep]).
  - unfold vm_state_update. apply rel_bind; [typeclasses eauto|keep|intros now]. apply keeps_put. intros s. apply vm_state_inv.
  - apply keeps_put. intros s Hi. apply (store_inv_evidence s); [by repeat split|apply (si_epoch _ Hi)|done].
  - apply keeps_put. intros s Hi. destruct (s_agent_enabled s); [|done]. apply connection_inv; [apply (si_connection _ Hi)|done].
  - unfold failure_update. apply rel_bind; [typeclasses eauto|keep|intros s]. destruct (s_agent_enabled s); [|keep].
    apply rel_bind; [typeclasses eauto|keep|intros now]. apply keeps_put. intros s'. apply connection_inv, short_truncate.
  - by apply status_update_keeps.
  - keep.
  - apply keeps_put. intros s Hi. destruct (s_identity s) as [c|] eqn:Eid; [|done]. case_match; [done|]. by apply (forward_inv _ _ c).
Qed.

Lemma locked_keeps u : update_ok u -> always_rel keeps (locked u).
Proof.
  intros Hu. destruct u; try (by apply keeps_mutate_locked, closure_keeps).
  cbn. apply rel_bind; [typeclasses eauto|by apply metrics_locked_keeps|intros ?; keep].
Qed.

Lemma observation_value {T} (value : T) age w obs w' : observation value age w = (Ok obs, w') -> ob_value obs = value.
Proof.
  unfold observation, mbind, Mon_bind, mret, Mon_ret, system_now, instant_now, pure, ok_or.
  repeat (case_match; simplify_eq; try done). by intros [= <- _].
Qed.

Lemma prepare_status_inv report age w new obs w' :
  prepare_status report age w = (Ok (new, obs), w') ->
  validate_status report = Ok tt /\ as_identity report = Some new /\ as_report report = Some (ob_value obs).
Proof.
  unfold prepare_status. destruct (validate_status report) as [[]| |]; [|done|done]. rewrite ok_bind.
  destruct (as_identity report) as [i|]; [|done]. simpl ok_or. rewrite ok_bind. destruct (as_report report) as [v|]; [|done].
  simpl ok_or. rewrite ok_bind, bind_eq. destruct (observation v age w) as [[o| |] w1] eqn:E; [|done|done]. intros [= <- <- _].
  by rewrite (observation_value _ _ _ _ _ E).
Qed.

Lemma prepare_metrics_inv report age w obs w' :
  prepare_metrics report age w = (Ok obs, w') ->
  validate_metrics report = Ok tt /\ am_agent_instance_id report = Some (ob_value obs).1 /\ am_report report = Some (ob_value obs).2.
Proof.
  unfold prepare_metrics. destruct (validate_metrics report) as [[]| |]; [|done|done]. rewrite ok_bind.
  destruct (am_agent_instance_id report) as [i|]; [|done]. simpl ok_or. rewrite ok_bind. destruct (am_report report) as [v|]; [|done].
  simpl ok_or. rewrite ok_bind. intros E. by rewrite (observation_value _ _ _ _ _ E).
Qed.

Lemma prepared_ok w u w' : prepared w u w' -> update_ok u.
Proof.
  destruct 1 as [| | | |w w' report age new obs E|w w' report age obs E| |]; try done.
  - apply prepare_status_inv in E as (Hv & Hi & Hr). unfold validate_status in Hv. rewrite Hi, Hr in Hv. simpl ok_or in Hv. simpl mbind in Hv.
    destruct (validate_identity new) as [[]| |] eqn:Ev; [by split|done|done].
  - apply prepare_metrics_inv in E as (Hv & Hi & Hr). destruct report as [i r]. cbn in Hi, Hr. by subst.
Qed.

Definition system_inv (y : System) : Prop := store_inv (state_of (y_world y)) /\ Forall update_ok (y_waiting y).

Lemma step_inv y l y' : step y l y' -> system_inv y -> system_inv y'.
Proof.
  unfold system_inv. destruct 1 as [w q p|w w' u q p Hp|w w' r u q1 q2 p Hl|w w' m q p1 p2 Hm]; simpl; intros [Hi Hq].
  - done.
  - destruct (prepared_quiet _ _ _ Hp) as (_ & Hs & _). unfold state_of. rewrite Hs. split; [done|]. apply Forall_cons; [by apply (prepared_ok w u w')|done].
  - apply Forall_app in Hq as [Hq1 Hq2]. inversion Hq2 as [|? ? Hu Hq3]; subst. split; [|by apply Forall_app].
    pose proof (locked_keeps u Hu w Hi) as Hk. by rewrite Hl in Hk.
  - destruct (publish_effect m w) as [_ Hs]. rewrite Hm in Hs. simpl in Hs. by rewrite Hs.
Qed.

Lemma fresh_inv w : fresh_system w -> store_inv (state_of w).
Proof.
  intros (? & ? & ? & ? & ? & ? & ? & Hw). unfold state_of. rewrite Hw. constructor; cbn; try done.
  - by left.
  - intros m [= <-]. done.
Qed.

Lemma steps_keep y ls y' : steps y ls y' -> system_inv y -> system_inv y'.
Proof. induction 1 as [|y1 y2 l ls Hs IH Hstep]; [done|]. intros Hi. by apply (step_inv _ _ _ Hstep), IH. Qed.

Lemma reachable_inv ls y : reachable ls y -> system_inv y.
Proof. intros (w & Hw & Hs). apply (steps_keep _ _ _ Hs). split; [by apply fresh_inv|by apply Forall_nil]. Qed.

(** ** Operations as steps *)

(** A call on the store: the operations that change it. *)
Inductive Call : Type :=
| SetVmState (vm_state : VmState) (message : text)
| SetHostMemoryReclaim (report : HostMemoryReclaim)
| AgentConnecting
| AgentFailure (message : text)
| ObserveStatus (report : AgentStatus) (age : Z)
| ObserveMetrics (report : AgentMetrics) (age : Z)
| CompleteSshVerification (target : SshVerificationTarget) (result : text + unit)
| SetForwardService (expected : ReadyAgentIdentity) (serving : bool).

Definition call (c : Call) : Mon unit :=
  match c with
  | SetVmState vm_state message => set_vm_state vm_state message
  | SetHostMemoryReclaim report => set_host_memory_reclaim report
  | AgentConnecting => agent_connecting
  | AgentFailure message => agent_failure message
  | ObserveStatus report age => observe_status report age
  | ObserveMetrics report age => observe_metrics report age
  | CompleteSshVerification target result => complete_ssh_verification target result
  | SetForwardService expected serving => set_forward_service expected serving
  end.

Lemma quiet_reads w w' q p : quiet w w' -> exists ls, steps (mkSystem w q p) ls (mkSystem w' q p).
Proof.
  destruct w as [st i y t l], w' as [st' i' y' t' l']. intros ([Ei Ey Et] & Es & El). simpl in *. subst.
  induction t' as [|t' IH].
  - assert (t = 0%nat) as -> by lia. exists []. constructor.
  - destruct (decide (t = S t')) as [->|]; [exists []; constructor|]. destruct IH as [ls Hls]; [lia|].
    exists (Reads :: ls). econstructor; [exact Hls|]. apply (step_reads (mkWorld st i y t' l)).
Qed.

(** A task that runs alone from its arrival to its publication. *)
Lemma run_alone w u w0 w1 r :
  prepared w u w0 -> locked u w0 = (r, w1) ->
  exists ls, steps (mkSystem w [] []) ls
    (mkSystem match r with Ok (Some p) => (publish p w1).2 | _ => w1 end [] []).
Proof.
  intros Hp Hl. assert (steps (mkSystem w [] []) [Locked u (w_tick w0) (w_tick w1); Arrives u] (mkSystem w1 [] (left_to_publish r))) as Hs.
  { econstructor; [econstructor; [constructor|by apply step_arrives]|]. by apply (step_locked w0 w1 r u [] [] []). }
  destruct r as [[p|]| |]; [|by eexists..]. eexists. econstructor; [exact Hs|]. apply (step_publishes w1 _ p [] [] []). by destruct p.
Qed.

Lemma mutate_if_run m w : (mutate_if m w).2 = match mutate_locked m w with
  | (Ok (Some p), w1) => (publish p w1).2
  | (_, w1) => w1
  end.
Proof. unfold mutate_if. rewrite bind_eq. by destruct (mutate_locked m w) as [[[p|]| |] w1]. Qed.

(** Every call is such a run. *)
Lemma call_steps c w : exists ls, steps (mkSystem w [] []) ls (mkSystem (call c w).2 [] []).
Proof.
  assert (forall u w, locked u = mutate_locked (closure u) -> prepared w u w ->
    exists ls, steps (mkSystem w [] []) ls (mkSystem (mutate_if (closure u) w).2 [] [])) as Hmut.
  { intros u w0 Hl Hp. destruct (locked u w0) as [r w1] eqn:E. destruct (run_alone w0 u w0 w1 r Hp E) as [ls Hs].
    rewrite Hl in E. exists ls. rewrite mutate_if_run, E. by destruct r as [[p|]| |]. }
  destruct c; simpl.
  - apply (Hmut (UpdVmState vm_state message)); [done|constructor].
  - apply (Hmut (UpdMemoryReclaim report)); [done|constructor].
  - apply (Hmut UpdConnecting); [done|constructor].
  - apply (Hmut (UpdFailure message)); [done|constructor].
  - unfold observe_status. rewrite bind_eq. destruct (prepare_status report age w) as [r w0] eqn:E.
    pose proof (quiet_prepare_status report age w) as Hq. rewrite E in Hq. destruct r as [[new obs]| |]; [|by apply quiet_reads..].
    destruct (locked (UpdStatus new obs) w0) as [r w1] eqn:El.
    destruct (run_alone w _ w0 w1 r (prepared_status _ _ _ _ _ _ E) El) as [ls Hs]. exists ls. unfold mutate. rewrite mutate_if_run.
    simpl in El |- *. rewrite El. by destruct r as [[p|]| |].
  - unfold observe_metrics. rewrite bind_eq. destruct (prepare_metrics report age w) as [r w0] eqn:E.
    pose proof (quiet_prepare_metrics report age w) as Hq. rewrite E in Hq. destruct r as [obs| |]; [|by apply quiet_reads..].
    destruct (locked (UpdMetrics obs) w0) as [r w1] eqn:El.
    destruct (run_alone w _ w0 w1 r (prepared_metrics _ _ _ _ _ E) El) as [ls Hs]. exists ls.
    cbn [locked] in El. rewrite bind_eq in El. rewrite bind_eq. destruct (metrics_locked obs w0) as [[[o p]| |] w2]; [|by injection El as <- <-..].
    injection El as <- <-. rewrite bind_eq. simpl. done.
  - apply (Hmut (UpdComplete target result)); [done|constructor].
  - apply (Hmut (UpdForward expected serving)); [done|constructor].
Qed.
End Facts.
