(* ===== verification/MonitorTrust.v ===== *)
(** The guest's own word on the key exchange has no effect.

    [testify b] changes the flag [kex_verified] in what a guest reports; the
    lemmas show that the store with and without the change behave alike. *)

From stdpp Require Import strings gmap.
From S2P Require Import Prelude Bytes RustStr RustText Protocol MonitorValidate Monitor MonitorFacts.

Section Trust.
Context `{EXT : Externals} (b : bool).

Definition mask_report (r : AgentStatusReport) : AgentStatusReport :=
  mkAgentStatusReport (sr_observed_at r) (sr_state r) (sr_code r) (sr_message r) (sr_system r) (sr_boot r)
    (sr_provisioning r) (set_kex_verified b <$> sr_ssh r).
Definition mask_observation (o : Observation AgentStatusReport) : Observation AgentStatusReport :=
  mkObservation (ob_received_at o) (ob_stale_at o) (ob_deadline o) (mask_report (ob_value o)).
Definition mask_status (s : AgentStatus) : AgentStatus := mkAgentStatus (as_identity s) (mask_report <$> as_report s).
Definition mask (s : State) : State := set_s_status (mask_observation <$> s_status s) s.

Definition testify (c : Call) : Call :=
  match c with
  | ObserveStatus report age => ObserveStatus (mask_status report) age
  | c => c
  end.

(** ** What the state says is the same *)

Lemma eligible_mask s now : eligible_ssh (mask s) now = set_kex_verified b <$> eligible_ssh s now.
Proof.
  unfold eligible_ssh, mask. cbn. case_match; [done|]. destruct (s_status s) as [o|]; cbn; [|done]. case_match; [done|].
  destruct (sr_ssh (ob_value o)) as [l|]; cbn; [|done]. by destruct (sl_config_verified l).
Qed.

Lemma target_mask s target now : ssh_target_matches (mask s) target now = ssh_target_matches s target now.
Proof. unfold ssh_target_matches. rewrite eligible_mask. cbn. by destruct (eligible_ssh s now). Qed.

Lemma current_mask s now : current_verification (mask s) now = current_verification s now.
Proof.
  unfold current_verification. cbn. destruct (s_ssh_verification s) as [v|]; [|done]. cbn. by rewrite target_mask.
Qed.

Lemma effective_mask s r now : effective_status (mask s) (mask_report r) now = effective_status s r now.
Proof.
  unfold effective_status. rewrite current_mask. cbn. by destruct (sr_ssh r).
Qed.

Lemma detail_mask s now : readiness_detail (mask s) now = readiness_detail s now.
Proof.
  unfold readiness_detail. cbn. destruct (s_vm_state s); try done. destruct (s_status s) as [o|] eqn:E; cbn; [|done].
  by rewrite (effective_mask s (ob_value o) now).
Qed.

Lemma snapshot_mask s now : state_log_snapshot (mask s) now = state_log_snapshot s now.
Proof.
  unfold state_log_snapshot. rewrite detail_mask. destruct (readiness_detail s now). cbn.
  destruct (s_status s) as [o|]; cbn; [|done]. by rewrite effective_mask.
Qed.

Lemma project_mask s now observed_at : project_status (mask s) now observed_at = project_status s now observed_at.
Proof.
  unfold project_status. rewrite detail_mask. destruct (readiness_detail s now). cbn. destruct (s_agent_enabled s); [|done].
  destruct (s_status s) as [o|]; cbn; [|done]. unfold status_observation. cbn. rewrite (effective_mask s (ob_value o) now).
  by destruct (sr_ssh (ob_value o)).
Qed.

(** ** Programs that behave alike *)

Definition mask_world (w : World) : World := on_state mask w.

Definition alike {A} (m m' : Mon A) : Prop := forall w, m' (mask_world w) = ((m w).1, mask_world (m w).2).

Lemma alike_ret {A} (a : A) : alike (mret a) (mret a).
Proof. done. Qed.
Lemma alike_pure {A} (r : res StoreError A) : alike (pure r) (pure r).
Proof. done. Qed.
Lemma alike_fail {A} e : alike (fail (A := A) e) (fail e).
Proof. done. Qed.
Lemma alike_instant : alike instant_now instant_now.
Proof. done. Qed.
Lemma alike_system : alike system_now system_now.
Proof. done. Qed.

Lemma alike_bind {A B} (m m' : Mon A) (f f' : A -> Mon B) :
  alike m m' -> (forall a, alike (f a) (f' a)) -> alike (m ≫= f) (m' ≫= f').
Proof.
  intros Hm Hf w. rewrite !bind_eq, Hm. destruct (m w) as [[a| |] w']; cbn; [apply Hf|done|done].
Qed.

Lemma alike_get {B} (f f' : State -> Mon B) :
  (forall s, alike (f s) (f' (mask s))) -> alike (get_state ≫= f) (get_state ≫= f').
Proof. intros Hf w. rewrite !get_bind. apply Hf. Qed.

Lemma alike_put f f' : (forall s, f' (mask s) = mask (f s)) -> alike (put_state f) (put_state f').
Proof. intros Hf w. unfold put_state, mask_world, on_state, set_store. cbn. f_equal. f_equal. f_equal. apply Hf. Qed.

Lemma alike_change f f' : (forall s, f' (mask s) = ((f s).1, mask (f s).2)) -> alike (change f) (change f').
Proof.
  intros Hf w. unfold change. change (state_of (mask_world w)) with (mask (state_of w)). rewrite Hf.
  by destruct (f (state_of w)) as [r s].
Qed.

Lemma alike_before : alike before_snapshot before_snapshot.
Proof.
  apply alike_get. intros s. cbn. destruct (s_last_log_snapshot s); [apply alike_ret|].
  apply alike_bind; [apply alike_instant|]. intros now. rewrite snapshot_mask. apply alike_ret.
Qed.

Lemma alike_after : alike after_snapshot after_snapshot.
Proof.
  apply alike_get. intros s. apply alike_bind; [apply alike_instant|]. intros now. rewrite snapshot_mask.
  apply alike_bind; [by apply alike_put|]. intros []. apply alike_ret.
Qed.

Lemma invalidate_mask s :
  invalidate_ssh_verification (mask s) = ((invalidate_ssh_verification s).1, mask (invalidate_ssh_verification s).2).
Proof.
  unfold invalidate_ssh_verification. cbn. destruct (s_ssh_verification s); [|done]. by destruct (next_epoch (s_ssh_epoch s)).
Qed.

Lemma refresh_mask s now :
  refresh_ssh_verification (mask s) now = ((refresh_ssh_verification s now).1, mask (refresh_ssh_verification s now).2).
Proof.
  unfold refresh_ssh_verification. rewrite current_mask, invalidate_mask. case_bool_decide; [done|].
  destruct (invalidate_ssh_verification s) as [[[]| |] s0]; cbn [fst snd]; [|done|done]. rewrite eligible_mask.
  change (identity_from_state (mask s0)) with (identity_from_state s0).
  destruct (eligible_ssh s0 now) as [l|]; cbn [fmap option_fmap option_map]; [|done]. destruct (identity_from_state s0); [|done].
  cbn. by destruct (next_epoch (s_ssh_epoch s0)).
Qed.

Lemma alike_invalidate : alike (change invalidate_ssh_verification) (change invalidate_ssh_verification).
Proof. apply alike_change. intros s. apply invalidate_mask. Qed.
Lemma alike_refresh now : alike (change (fun s => refresh_ssh_verification s now)) (change (fun s => refresh_ssh_verification s now)).
Proof. apply alike_change. intros s. apply refresh_mask. Qed.

Lemma alike_publish p : alike (publish p) (publish p).
Proof. by destruct p. Qed.

Lemma alike_mutate_if m m' : alike m m' -> alike (mutate_if m) (mutate_if m').
Proof.
  intros Hm. apply alike_bind; [|intros [p|]; [apply alike_publish|apply alike_ret]].
  apply alike_bind; [apply alike_before|intros before]. apply alike_bind; [done|intros changed].
  destruct changed; [|apply alike_ret]. apply alike_bind; [apply alike_instant|intros now].
  apply alike_bind; [apply alike_refresh|intros _]. apply alike_bind; [apply alike_after|intros after]. apply alike_ret.
Qed.

Lemma alike_mutate m m' : alike m m' -> alike (mutate m) (mutate m').
Proof. intros Hm. apply alike_mutate_if, alike_bind; [done|intros _; apply alike_ret]. Qed.

Lemma alike_status_update new obs : alike (status_update new obs) (status_update new (mask_observation obs)).
Proof.
  apply alike_get. intros s. cbn. apply alike_bind.
  { destruct (s_status s) as [o|]; cbn; [|apply alike_ret]. apply alike_bind; [apply alike_instant|intros now].
    destruct (ob_deadline o <=? now); [apply alike_invalidate|apply alike_ret]. }
  intros _. apply alike_bind.
  { destruct (s_identity s) as [c|]; [|apply alike_ret]. destruct (replaced c new); [by apply alike_put|].
    case_match; [apply alike_fail|apply alike_ret]. }
  intros _. apply alike_put. intros s'. unfold accept_status. cbn. by case_match.
Qed.

(** Validation does not look at the flag. *)
Lemma validate_report_mask r : validate_status_report (mask_report r) = validate_status_report r.
Proof. unfold validate_status_report, mask_report. cbn [sr_ssh sr_observed_at sr_state sr_code sr_message sr_system sr_boot sr_provisioning]. by destruct (sr_ssh r). Qed.

Lemma validate_mask report : validate_status (mask_status report) = validate_status report.
Proof.
  destruct report as [[i|] [r|]]; try reflexivity. unfold validate_status, mask_status. cbn [as_identity as_report].
  simpl fmap. simpl ok_or. simpl mbind. by rewrite validate_report_mask.
Qed.

Lemma alike_observation r age w :
  observation (mask_report r) age (mask_world w) =
  (match (observation r age w).1 with Ok o => Ok (mask_observation o) | Err e => Err e | Panic => Panic end,
   mask_world (observation r age w).2).
Proof.
  unfold observation, mbind, Mon_bind, mret, Mon_ret, system_now, instant_now, pure, ok_or. cbn -[time_add].
  by repeat (case_match; simplify_eq; try done).
Qed.

Lemma alike_prepare report age w :
  prepare_status (mask_status report) age (mask_world w) =
  (match (prepare_status report age w).1 with Ok (i, o) => Ok (i, mask_observation o) | Err e => Err e | Panic => Panic end,
   mask_world (prepare_status report age w).2).
Proof.
  unfold prepare_status. rewrite validate_mask. destruct (validate_status report) as [[]| |]; [|done|done]. rewrite !ok_bind.
  destruct report as [[i|] [r|]]; try done. cbn [as_identity as_report mask_status]. simpl fmap. simpl ok_or.
  rewrite !ok_bind, !bind_eq, alike_observation. by destruct (observation r age w) as [[o| |] w1].
Qed.

Lemma alike_observe_status report age : alike (observe_status report age) (observe_status (mask_status report) age).
Proof.
  intros w. unfold observe_status. rewrite !bind_eq, alike_prepare. destruct (prepare_status report age w) as [[[i o]| |] w1]; cbn [fst snd]; [|done|done].
  apply alike_mutate, alike_status_update.
Qed.

Lemma alike_metrics obs : alike (metrics_locked obs) (metrics_locked obs).
Proof.
  apply alike_bind; [apply alike_before|intros before]. apply alike_get. intros s. cbn [s_identity mask set_s_status].
  apply alike_bind; [apply alike_pure|intros c]. case_match.
  - apply alike_bind; [by apply alike_put|intros _]. apply alike_bind; [apply alike_invalidate|intros _].
    apply alike_bind; [apply alike_after|intros after]. apply alike_ret.
  - apply alike_bind; [by apply alike_put|intros _]. apply alike_bind; [apply alike_after|intros after]. apply alike_ret.
Qed.

Lemma alike_prepare_metrics report age : alike (prepare_metrics report age) (prepare_metrics report age).
Proof.
  unfold prepare_metrics, observation.
  repeat first [apply alike_instant | apply alike_system | apply alike_pure | apply alike_ret | apply alike_bind; [|intros ?]].
Qed.

Lemma alike_completion target result : alike (completion_update target result) (completion_update target result).
Proof.
  apply alike_bind; [apply alike_instant|intros now]. apply alike_get. intros s. cbn [s_ssh_verification mask set_s_status].
  destruct (s_ssh_verification s) as [v|]; [|apply alike_ret]. rewrite target_mask. case_match; [|apply alike_ret].
  apply alike_bind; [|intros o; apply alike_bind; [by apply alike_put|intros _; apply alike_ret]].
  destruct result; [apply alike_ret|]. apply alike_bind; [apply alike_pure|intros d; apply alike_ret].
Qed.

(** Every call behaves alike with the changed testimony. *)
Lemma alike_call c : alike (call c) (call (testify c)).
Proof.
  destruct c; cbn [call testify].
  - apply alike_mutate, alike_bind; [apply alike_system|intros now]. apply alike_put. intros s. cbn. by repeat case_match.
  - by apply alike_mutate, alike_put.
  - apply alike_mutate, alike_put. intros s. cbn. by destruct (s_agent_enabled s).
  - apply alike_mutate, alike_get. intros s. cbn. destruct (s_agent_enabled s); [|apply alike_ret].
    apply alike_bind; [apply alike_system|intros now]. by apply alike_put.
  - apply alike_observe_status.
  - apply alike_bind; [apply alike_prepare_metrics|intros obs]. apply alike_bind; [apply alike_metrics|intros out].
    apply alike_bind; [apply alike_publish|intros _]. apply alike_pure.
  - apply alike_mutate_if, alike_completion.
  - apply alike_mutate, alike_put. intros s. cbn. destruct (s_identity s); [|done]. by case_match.
Qed.
End Trust.
