(* ===== verification/MonitorSpec.v ===== *)
(** What the monitor's store promises to its clients. *)

From stdpp Require Import strings gmap sorting.
From S2P Require Import Prelude Bytes RustStr RustSort RustText RustNet Protocol MonitorValidate MonitorChecks Monitor MonitorFacts MonitorTrust.

Section Spec.
Context `{EXT : Externals}.

(** ** Readiness *)

(** The machine is ready through its agent only when the effective state is. *)
Lemma ready_effective s now status :
  s_agent_enabled s = true -> s_status s = Some status -> (readiness_detail s now).1 = true ->
  s_vm_state s = VmRunning /\ s_stopping s = false /\ now < ob_deadline status /\
  es_state (effective_status s (ob_value status) now) = Some (as_i32 AgentReady).
Proof.
  intros He Hs. unfold readiness_detail. rewrite He, Hs. cbn [negb]. destruct (s_vm_state s); try done.
  destruct (s_stopping s); [done|]. cbn [orb]. destruct (Z.leb_spec (ob_deadline status) now); [done|].
  destruct (es_state (effective_status s (ob_value status) now)) as [n|]; [|done]. cbn.
  destruct (try_from n) as [[]|] eqn:E; try done. intros _. by apply try_from_inv in E as ->.
Qed.

(** A report with a listener is effective only with current evidence. *)
Lemma ready_evidence s now status ssh :
  s_agent_enabled s = true -> s_status s = Some status -> sr_ssh (ob_value status) = Some ssh ->
  (readiness_detail s now).1 = true ->
  exists v deadline, current_verification s now = Some v /\ sv_outcome v = Verified deadline /\ now < deadline.
Proof.
  intros He Hs Hssh (_ & _ & _ & Hready)%(ready_effective s now status He Hs). unfold effective_status in Hready. rewrite Hssh in Hready.
  rewrite (bool_decide_true (is_Some (Some ssh))), andb_true_r in Hready by eauto.
  case_bool_decide as Hr; [|done]. cbn [andb] in Hready.
  destruct (current_verification s now) as [[target [|d|m]]|]; cbn [negb] in Hready; try done.
  destruct (Z.ltb_spec now d); [|done]. by exists {| sv_target := target; sv_outcome := Verified d |}, d.
Qed.

Lemma current_matches s now v : current_verification s now = Some v ->
  s_ssh_verification s = Some v /\ ssh_target_matches s (sv_target v) now = true.
Proof.
  unfold current_verification. destruct (s_ssh_verification s) as [v'|]; simpl; [|done]. by case_match; intros [= <-].
Qed.

Lemma target_matches s target now : ssh_target_matches s target now = true ->
  s_ssh_epoch s = vt_epoch target /\ identity_from_state s = Some (vt_identity target) /\
  exists ssh, eligible_ssh s now = Some ssh /\ sl_backend ssh = vt_backend target /\ sl_port ssh = vt_port target /\
    sl_host_public_key ssh = vt_host_public_key target.
Proof.
  unfold ssh_target_matches. rewrite !andb_true_iff. intros [[He%Z.eqb_eq Hi%bool_decide_eq_true] Hs]. split; [done|]. split; [done|].
  destruct (eligible_ssh s now) as [ssh|]; [|done]. exists ssh. split; [done|].
  apply andb_true_iff in Hs as [[Hb%bool_decide_eq_true Hp%Z.eqb_eq]%andb_true_iff Hk%bool_decide_eq_true]. done.
Qed.

Lemma eligible_reported s now ssh : eligible_ssh s now = Some ssh ->
  exists status, s_status s = Some status /\ sr_ssh (ob_value status) = Some ssh /\ now < ob_deadline status /\
    s_vm_state s = VmRunning /\ s_stopping s = false /\ sl_config_verified ssh = true.
Proof.
  unfold eligible_ssh. destruct (s_agent_enabled s); [|done]. cbn [negb orb]. case_bool_decide as Hv; [|done]. cbn [negb orb].
  destruct (s_stopping s) eqn:Est; [done|]. cbn [orb]. case_bool_decide; [|done]. cbn [negb].
  destruct (s_status s) as [status|]; simpl; [|done]. destruct (Z.leb_spec (ob_deadline status) now); [done|]. cbn [orb].
  case_bool_decide; [|done]. cbn [negb]. destruct (sr_ssh (ob_value status)) as [l|] eqn:El; simpl; [|done].
  destruct (sl_config_verified l) eqn:Ec; [|done]. intros [= <-]. by exists status.
Qed.

(** C5: A machine whose agent reports an SSH listener is ready only with the
    host's own proof of that listener.  In every interleaving of the monitor's
    tasks from a new store on: when readiness is answered with yes, the host has
    completed, less than 65 seconds before, a verification of exactly this
    listener: its backend, port and host key, at the identity the agent has now,
    in the current epoch. *)
Theorem ssh_ready_is_verified (ls : list Label) (y : System) (n : nat) (status : Observation AgentStatusReport)
    (ssh : SshListenerReport) (Hr : reachable ls y) (Hn : (w_tick (y_world y) <= n)%nat)
    (He : s_agent_enabled (state_of (y_world y)) = true)
    (Hs : s_status (state_of (y_world y)) = Some status) (Hssh : sr_ssh (ob_value status) = Some ssh)
    (Hready : (readiness_detail (state_of (y_world y)) (w_instant (y_world y) n)).1 = true) :
  exists target first last k,
    Locked (UpdComplete target (inr tt)) first last ∈ ls /\ (first <= k < last)%nat /\ (last <= n)%nat /\
    w_instant (y_world y) n < w_instant (y_world y) k + SSH_VERIFICATION_VALIDITY /\
    vt_backend target = sl_backend ssh /\ vt_port target = sl_port ssh /\
    vt_host_public_key target = sl_host_public_key ssh /\
    identity_from_state (state_of (y_world y)) = Some (vt_identity target) /\
    vt_epoch target = s_ssh_epoch (state_of (y_world y)).
Proof.
  destruct (ready_evidence _ _ _ _ He Hs Hssh Hready) as (v & d & Hc & Ho & Hd).
  apply current_matches in Hc as [Hv Hm]. destruct (target_matches _ _ _ Hm) as (Hep & Hid & ssh' & Hel & Hb & Hp & Hk).
  destruct (eligible_reported _ _ _ Hel) as (status' & Hs' & Hssh' & _). rewrite Hs in Hs'. injection Hs' as <-. rewrite Hssh in Hssh'. injection Hssh' as <-.
  destruct (reachable_facts _ _ Hr) as [_ Hpr]. destruct v as [target o]. cbn in *. subst o.
  destruct (Hpr _ _ Hv) as (a & b & k & Hin & Hkb & Hb' & ->). exists target, a, b, k. repeat split; try done; lia.
Qed.

(** C6: A verification that has been superseded stays without effect (no A-B-A).
    Once the store has replaced or dropped the listener a task was asked to
    verify, the task's result is discarded, in every later state, even when a
    listener with the same identity, backend, port and key is back: the call
    succeeds and changes neither the state nor the channels. *)
Theorem superseded_completion_ignored (ls0 ls1 ls2 : list Label) (y0 y1 y2 : System) (target : SshVerificationTarget)
    (result : text + unit) (Hr : reachable ls0 y0) (H1 : steps y0 ls1 y1) (H2 : steps y1 ls2 y2)
    (Hasked : current (y_world y0) = Some target) (Hlost : current (y_world y1) <> Some target) :
  let out := complete_ssh_verification target result (y_world y2) in
  out.1 = Ok tt /\ w_store out.2 = w_store (y_world y2) /\ w_log out.2 = w_log (y_world y2).
Proof.
  destruct (reachable_facts _ _ Hr) as [He0 _]. destruct (steps_epoch _ _ _ H1 He0) as (He1 & L1 & C1).
  destruct (steps_epoch _ _ _ H2 He1) as (He2 & L2 & _).
  assert (vt_epoch target = s_ssh_epoch (state_of (y_world y0))) as Ht.
  { unfold current in Hasked. destruct (s_ssh_verification _) as [v|] eqn:Ev; [|done]. injection Hasked as <-. by apply He0. }
  assert (s_ssh_epoch (state_of (y_world y0)) < s_ssh_epoch (state_of (y_world y2))) as Hlt.
  { destruct (decide (s_ssh_epoch (state_of (y_world y1)) = s_ssh_epoch (state_of (y_world y0)))) as [E|]; [|lia].
    rewrite (C1 E) in Hlost. by destruct Hlost. }
  cbv zeta. unfold complete_ssh_verification, mutate_if. rewrite bind_eq.
  destruct (mutate_locked_eq (completion_update target result) (y_world y2)) as (before & w1 & Hb & _ & S1 & ->).
  destruct (before_snapshot_ok (y_world y2)) as (before' & w1' & Hb' & _ & _ & Hlog). rewrite Hb in Hb'. injection Hb' as <- <-.
  rewrite bind_eq. unfold completion_update. rewrite instant_bind, get_bind. change (state_of (next_tick w1)) with (is_state (w_store w1)). rewrite S1.
  change (is_state (w_store (y_world y2))) with (state_of (y_world y2)).
  destruct (s_ssh_verification (state_of (y_world y2))) as [v|] eqn:Ev; [|cbn; by rewrite S1, Hlog].
  rewrite bool_decide_false; [cbn; by rewrite S1, Hlog|]. intros E. specialize (He2 v Ev). rewrite E in He2. lia.
Qed.

(** C23: The store keeps its invariant in every interleaving, and through every
    call: identities and reports in it have passed validation; metrics belong to
    the agent the identity names; without an identity there are no observations
    and no services; the stopping flag agrees with the machine state, a running
    machine has a start time, messages are within their bound, and the evidence
    for the listener carries the current epoch, a 64-bit number. *)
Theorem store_invariant (ls : list Label) (y : System) (Hr : reachable ls y) :
  store_inv (state_of (y_world y)) /\ forall c, store_inv (state_of (call c (y_world y)).2).
Proof.
  destruct (reachable_inv _ _ Hr) as [Hi _]. split; [done|]. intros c. destruct (call_steps c (y_world y)) as [ls' Hs].
  apply (steps_keep _ _ _ Hs). split; [done|by apply Forall_nil].
Qed.

(** C12: Validation decides the protocol's rules.  A status is accepted exactly
    when identity and report are present, its identifiers are canonical UUIDs,
    code and message fit the state, enumerations have a specified value, texts
    are within their limits, the SSH descriptor is verified and has a known
    backend, port 22 and a valid host key,
    addresses are in canonical form, times are in range and in order, and
    provisioning steps have distinct ids; metrics exactly when the agent is named
    by a UUID, the time is in range, numbers are finite and not negative, sums do
    not exceed totals, the CPU count is not zero, hardware addresses are six
    pairs of digits, and the entries of every array are in strictly ascending
    order of their names. *)
Theorem validation_exact (status : AgentStatus) (metrics : AgentMetrics) :
  (validate_status status = Ok tt <-> status_ok status) /\ (validate_metrics metrics = Ok tt <-> metrics_ok metrics).
Proof. split; [apply validate_status_ok|apply validate_metrics_ok]. Qed.

(** ** Sequences of calls and queries *)

Inductive Query : Type :=
| AskStatus | AskMetrics | AskReadiness | AskReadyIdentity | AskSshTarget | AskStopping | AskHasIdentity | AskInstanceId.

Inductive Answer : Type :=
| TheStatus (status : HostStatus)
| TheMetrics (metrics : HostMetrics)
| TheReadiness (outcome : WaitOutcome)
| TheReadyIdentity (identity : ReadyAgentIdentity)
| TheSshTarget (target : option SshVerificationTarget)
| IsStopping (stopping : bool)
| HasIdentity (known : bool)
| TheInstanceId (instance_id : option text).

Definition ask (q : Query) : Mon Answer :=
  match q with
  | AskStatus => a ← status; mret (TheStatus a)
  | AskMetrics => a ← metrics; mret (TheMetrics a)
  | AskReadiness => a ← store_readiness; mret (TheReadiness a)
  | AskReadyIdentity => a ← store_ready_agent_identity; mret (TheReadyIdentity a)
  | AskSshTarget => a ← ssh_verification_target; mret (TheSshTarget a)
  | AskStopping => a ← is_stopping; mret (IsStopping a)
  | AskHasIdentity => a ← has_identity; mret (HasIdentity a)
  | AskInstanceId => a ← agent_instance_id; mret (TheInstanceId a)
  end.

Inductive Action : Type := Do (c : Call) | Ask (q : Query).

(** What the caller gets back. *)
Definition act (a : Action) : World -> (res StoreError unit + res StoreError Answer) * World := fun w =>
  match a with
  | Do c => let out := call c w in (inl out.1, out.2)
  | Ask q => let out := ask q w in (inr out.1, out.2)
  end.

Fixpoint run (acts : list Action) (w : World) : list (res StoreError unit + res StoreError Answer) * World :=
  match acts with
  | [] => ([], w)
  | a :: acts => let out := act a w in let rest := run acts out.2 in (out.1 :: rest.1, rest.2)
  end.

(** The same actions with [flag] for what the guest says in a report. *)
Definition retold (flag : bool) (a : Action) : Action :=
  match a with Do c => Do (testify flag c) | Ask q => Ask q end.

Lemma alike_query {A} b (f : State -> Z -> A) : (forall s now, f (mask b s) now = f s now) -> alike b (query f) (query f).
Proof. intros Hf. apply alike_get. intros s. apply alike_bind; [apply alike_instant|]. intros now. rewrite Hf. apply alike_ret. Qed.

Lemma alike_ask b q : alike b (ask q) (ask q).
Proof.
  destruct q; cbn [ask]; (apply alike_bind; [|intros ?; apply alike_ret]).
  - apply alike_get. intros s. apply alike_bind; [apply alike_instant|intros now]. apply alike_bind; [apply alike_system|intros at_].
    rewrite project_mask. apply alike_ret.
  - apply alike_get. intros s. apply alike_bind; [apply alike_instant|intros now]. apply alike_bind; [apply alike_system|intros at_]. apply alike_ret.
  - apply alike_query. intros s now. unfold readiness. by rewrite detail_mask.
  - apply alike_bind; [|intros found; apply alike_pure]. apply alike_query. intros s now. unfold ready_agent_identity. by rewrite detail_mask.
  - apply alike_get. intros s. cbn [s_ssh_verification mask set_s_status]. destruct (s_ssh_verification s); [|apply alike_ret].
    apply alike_bind; [apply alike_instant|intros now]. rewrite target_mask. apply alike_ret.
  - apply alike_get. intros s. apply alike_ret.
  - apply alike_get. intros s. apply alike_ret.
  - apply alike_get. intros s. apply alike_ret.
Qed.

Lemma act_mask b a w : act (retold b a) (mask_world b w) = ((act a w).1, mask_world b (act a w).2).
Proof. destruct a; cbn [act retold]; [by rewrite (alike_call b c w)|by rewrite (alike_ask b q w)]. Qed.

Lemma run_mask b acts w : run (map (retold b) acts) (mask_world b w) = ((run acts w).1, mask_world b (run acts w).2).
Proof.
  revert w. induction acts as [|a acts IH]; intros w; [done|]. cbn [run map]. rewrite act_mask. cbn [fst snd]. by rewrite IH.
Qed.

Lemma mask_report_twice b c r : mask_report b (mask_report c r) = mask_report b r.
Proof. unfold mask_report. cbn. by destruct (sr_ssh r). Qed.

Lemma retold_twice b c a : retold b (retold c a) = retold b a.
Proof.
  destruct a as [[| | | |[identity [r|]] age| | |]|]; try done. unfold retold, testify, mask_status. cbn. by rewrite mask_report_twice.
Qed.

(** C13: The guest's own word on the key exchange counts for nothing.  Take any
    sequence of calls and queries, and the same sequence with any other values of
    the flag [kex_verified] in its reports, report by report.  Every call has the
    same result and every query the same answer; the three channels and the log
    end up with the same contents, and so does the state but for those flags. *)
Theorem guest_testimony_ignored (flags : nat -> bool) (acts : list Action) (w : World) :
  let out := run acts w in let out' := run (imap (fun i => retold (flags i)) acts) w in
  out'.1 = out.1 /\ w_log out'.2 = w_log out.2 /\
  is_generation (w_store out'.2) = is_generation (w_store out.2) /\
  is_identity_reset (w_store out'.2) = is_identity_reset (w_store out.2) /\
  is_ready_agent_identity (w_store out'.2) = is_ready_agent_identity (w_store out.2) /\
  forall b, mask b (state_of out'.2) = mask b (state_of out.2).
Proof.
  cbv zeta. set (out := run acts w). set (out' := run (imap (fun i => retold (flags i)) acts) w).
  assert (forall b, out'.1 = out.1 /\ mask_world b out'.2 = mask_world b out.2) as H.
  { intros b. pose proof (run_mask b acts w) as H1. pose proof (run_mask b (imap (fun i => retold (flags i)) acts) w) as H2.
    assert (map (retold b) (imap (fun i => retold (flags i)) acts) = map (retold b) acts) as E.
    { change (map (retold b)) with (fmap (M := list) (retold b)). rewrite fmap_imap. rewrite <- (imap_const (retold b) acts). apply imap_ext. intros i a _. apply retold_twice. }
    rewrite E, H1 in H2. split; [exact (eq_sym (f_equal fst H2))|exact (eq_sym (f_equal snd H2))]. }
  destruct (H true) as [H1 H2]. split; [done|]. split; [apply (f_equal w_log H2)|].
  split; [apply (f_equal (fun w => is_generation (w_store w)) H2)|]. split; [apply (f_equal (fun w => is_identity_reset (w_store w)) H2)|].
  split; [apply (f_equal (fun w => is_ready_agent_identity (w_store w)) H2)|]. intros b. apply (f_equal state_of (proj2 (H b))).
Qed.

(** ** Errors *)

(** The channels and the log are left alone. *)
Definition unpublished (w w' : World) : Prop :=
  is_generation (w_store w') = is_generation (w_store w) /\ is_identity_reset (w_store w') = is_identity_reset (w_store w) /\
  is_ready_agent_identity (w_store w') = is_ready_agent_identity (w_store w) /\ w_log w' = w_log w.

(** The state without its evidence, one epoch on; everything else is as it was. *)
Definition without_evidence (s : State) : State :=
  mkState (s_machine_id s) (s_name s) (s_actual_backend s) (s_monitor_id s) (s_vm_state s) (s_vm_changed_at s)
    (s_running_since s) (s_vm_code s) (s_vm_message s) (s_agent_enabled s) (s_connection s) (s_identity s)
    (s_status s) (s_metrics s) (s_host_memory_reclaim s) (s_agent_services s) (s_stopping s)
    (s_last_log_snapshot s) (s_ssh_epoch s + 1) None.

(** Evidence has been dropped, because the report it rests on was out of date at
    a moment during the call. *)
Definition evidence_expired (w w' : World) : Prop :=
  exists status k, s_status (state_of w) = Some status /\ (w_tick w <= k < w_tick w')%nat /\
    ob_deadline status <= w_instant w k /\ is_Some (s_ssh_verification (state_of w)) /\
    state_of w' = without_evidence (state_of w).

Definition exhausted (s : State) : Prop := 2 ^ 64 - 1 <= s_ssh_epoch s.

#[global] Instance unpublished_preorder : PreOrder unpublished.
Proof.
  split; [done|]. intros a b c (A1 & A2 & A3 & A4) (B1 & B2 & B3 & B4). unfold unpublished. repeat split; congruence.
Qed.

Lemma unpublished_change f : always_rel unpublished (change f).
Proof. intros w. unfold change. by destruct (f (state_of w)). Qed.

Ltac unpublish :=
  repeat first
    [ apply unpublished_change | apply rel_pure; typeclasses eauto | apply rel_ret; typeclasses eauto
    | apply rel_fail; typeclasses eauto | apply rel_get; typeclasses eauto
    | (intros ?; by repeat split)
    | apply rel_bind; [typeclasses eauto| |intros ?] | case_match ].

Lemma unpublished_closure u : always_rel unpublished (closure u).
Proof.
  destruct u; cbn [closure]; unfold always, vm_state_update, memory_reclaim_update, connecting_update, failure_update,
    status_update, forward_service_update, completion_update; unpublish.
Qed.

Lemma unpublished_conclude before changed : always_rel unpublished (conclude before changed).
Proof. unfold conclude, after_snapshot. unpublish. Qed.

Lemma next_epoch_error epoch e : next_epoch epoch = Err e -> e = SshEpochExhausted /\ 2 ^ 64 - 1 <= epoch.
Proof. unfold next_epoch, checked_add. case_match; [done|]. intros [= <-]. split; [done|]. lia. Qed.

Lemma invalidate_error s e s' : invalidate_ssh_verification s = (Err e, s') -> e = SshEpochExhausted /\ s' = s /\ exhausted s'.
Proof.
  unfold invalidate_ssh_verification. destruct (s_ssh_verification s); [|done].
  destruct (next_epoch (s_ssh_epoch s)) as [|e'|] eqn:E; intros [= <- <-]. by apply next_epoch_error in E as [-> ?].
Qed.

Lemma invalidate_ends s :
  invalidate_ssh_verification s = (Ok tt, match s_ssh_verification s with Some _ => without_evidence s | None => s end) \/
  (invalidate_ssh_verification s = (Err SshEpochExhausted, s) /\ exhausted s).
Proof.
  unfold invalidate_ssh_verification. destruct (s_ssh_verification s) as [v|]; [|by left].
  pose proof (next_epoch_np (s_ssh_epoch s)). destruct (next_epoch (s_ssh_epoch s)) as [epoch|e|] eqn:E; [| |done].
  - apply next_epoch_ok in E as ->. by left.
  - apply next_epoch_error in E as [-> ?]. by right.
Qed.

Lemma refresh_error s now e s' : refresh_ssh_verification s now = (Err e, s') -> e = SshEpochExhausted /\ exhausted s'.
Proof.
  unfold refresh_ssh_verification. case_bool_decide; [done|]. destruct (invalidate_ssh_verification s) as [[[]|e0|] s0] eqn:E; [| |done].
  - destruct (eligible_ssh s0 now) as [ssh|]; [|done]. destruct (identity_from_state s0) as [owner|]; [|done].
    destruct (next_epoch (s_ssh_epoch s0)) as [|e'|] eqn:En; intros [= <- <-]. by apply next_epoch_error in En as [-> ?].
  - intros [= <- <-]. apply invalidate_error in E as (-> & _ & ?). done.
Qed.

(** The ways [conclude] ends. *)
Lemma conclude_ends before changed w : let out := conclude before changed w in
  match out.1 with
  | Ok _ => True
  | Err e => e = SshEpochExhausted /\ exhausted (state_of out.2)
  | Panic => False
  end.
Proof.
  unfold conclude. destruct changed; [|done]. cbn [negb]. rewrite instant_bind, bind_eq. unfold change.
  destruct (refresh_ssh_verification (state_of (next_tick w)) (w_instant w (w_tick w))) as [r s'] eqn:E.
  destruct r as [[]|e|]; [done|by apply refresh_error in E|]. exfalso.
  unfold refresh_ssh_verification, invalidate_ssh_verification, next_epoch, checked_add, ok_or in E. repeat (case_match; simplify_eq; try done).
Qed.

(** The first part of [status_update]. *)
Lemma expire_ends w : let out := expire (state_of w) w in
  (out.1 = Ok tt /\ (state_of out.2 = state_of w \/ evidence_expired w out.2)) \/
  (out.1 = Err SshEpochExhausted /\ exhausted (state_of out.2)).
Proof.
  cbv zeta. unfold expire. destruct (s_status (state_of w)) as [o|] eqn:Eo; [|left; split; [done|by left]]. rewrite instant_bind.
  destruct (Z.leb_spec (ob_deadline o) (w_instant w (w_tick w))) as [Hd|]; [|left; split; [done|by left]]. unfold change.
  change (state_of (next_tick w)) with (state_of w). destruct (invalidate_ends (state_of w)) as [->|[-> Hx]]; [left|right; by split].
  split; [done|]. destruct (s_ssh_verification (state_of w)) eqn:Ev; [|by left]. right. exists o, (w_tick w). split; [done|]. split; [cbn; lia|]. split; [done|]. by rewrite Ev.
Qed.

Lemma completion_ends target result w :
  match completion_update target result w with
  | (Ok _, _) => True
  | (Err _, w') => state_of w' = state_of w
  | (Panic, _) => False
  end.
Proof.
  unfold completion_update. rewrite instant_bind, get_bind. destruct (s_ssh_verification (state_of (next_tick w))) as [v|]; [|done].
  destruct (bool_decide (sv_target v = target) && _); [|done]. destruct result as [message|[]]; rewrite !bind_eq; [done|]. unfold pure.
  by destruct (time_add (w_instant w (w_tick w)) SSH_VERIFICATION_VALIDITY).
Qed.

(** The ways a closure ends: an error leaves the state as it was, or without
    evidence that had expired. *)
Lemma closure_ends u w : let out := closure u w in
  match out.1 with
  | Ok _ => True
  | Err e => state_of out.2 = state_of w \/ evidence_expired w out.2 \/ (e = SshEpochExhausted /\ exhausted (state_of out.2))
  | Panic => False
  end.
Proof.
  destruct u; cbn [closure]; try done.
  - cbv zeta. unfold always, failure_update. rewrite !bind_eq. cbn. by destruct (s_agent_enabled (state_of w)).
  - unfold always, status_update. rewrite bind_eq, get_bind. fold (expire (state_of w)). cbv zeta. rewrite bind_eq.
    pose proof (expire_ends w) as He. cbv zeta in He. destruct (expire (state_of w) w) as [r w1]. cbn [fst snd] in He.
    destruct He as [[-> Hs]|[-> Hx]]; [|cbn; by auto].
    rewrite bind_eq. destruct (s_identity (state_of w)) as [c|]; [|exact I]. destruct (replaced c new); [exact I|].
    destruct (negb (bool_decide (ai_version c = ai_version new))); [|exact I]. cbn. destruct Hs; auto.
  - cbv zeta. pose proof (completion_ends target result w) as He. destruct (completion_update target result w) as [[x|e|] w']; [done|by left|done].
Qed.

(** A call that fails without harm. *)
Definition harmless (w : World) (out : res StoreError unit * World) : Prop :=
  match out.1 with
  | Ok _ => True
  | Err e => unpublished w out.2 /\
      (state_of out.2 = state_of w \/ evidence_expired w out.2 \/ (e = SshEpochExhausted /\ exhausted (state_of out.2)))
  | Panic => False
  end.

Lemma evidence_expired_later w w1 w2 :
  ticks w w1 -> state_of w1 = state_of w -> evidence_expired w1 w2 -> evidence_expired w w2.
Proof.
  intros [Ei _ Et] Es (o & k & H1 & H2 & H3 & H4 & H5). rewrite Es, Ei in *. exists o, k. repeat split; try done; lia.
Qed.

Lemma quiet_harmless w w' e : quiet w w' -> harmless w (Err e, w').
Proof. intros (_ & Hs & Hl). cbn. unfold unpublished, state_of. rewrite Hs, Hl. split; [done|]. by left. Qed.

(** The failure of a later part is one of the whole. *)
Lemma harmless_later w w1 out : quiet w w1 -> harmless w1 out -> harmless w out.
Proof.
  intros (T & S1 & L1). unfold harmless. destruct out as [[|e|] w2]; try done. cbn [fst snd]. intros [U Hs].
  assert (state_of w1 = state_of w) as Es by (unfold state_of; by rewrite S1).
  split; [unfold unpublished in *; by rewrite S1, L1 in U|]. rewrite Es in Hs.
  destruct Hs as [?|[?|?]]; [by left| |by auto]. right; left. by apply (evidence_expired_later w w1).
Qed.

Lemma mutate_if_harmless u w : harmless w (mutate_if (closure u) w).
Proof.
  unfold mutate_if. rewrite bind_eq. destruct (mutate_locked_eq (closure u) w) as (before & w1 & Hb & T1 & S1 & ->).
  destruct (before_snapshot_ok w) as (before' & w1' & Hb' & _ & _ & Hlog). rewrite Hb in Hb'. injection Hb' as <- <-.
  apply (harmless_later w w1); [done|]. rewrite bind_eq.
  pose proof (unpublished_closure u w1) as U2. pose proof (closure_ends u w1) as Hends. cbv zeta in Hends.
  destruct (closure u w1) as [[changed|e|] w2]; cbn [fst snd] in *; [|by split|done].
  pose proof (unpublished_conclude before changed w2) as U3. pose proof (conclude_ends before changed w2) as Hend. cbv zeta in Hend.
  destruct (conclude before changed w2) as [[[p|]|e|] w3]; cbn [fst snd] in *; try done.
  split; [by transitivity w2|]. auto.
Qed.

(** The agent has been replaced behind the monitor's back.  All that was known of
    it is forgotten, its evidence included; the machine's own facts are kept. *)
Definition forgotten (s : State) (snapshot : StateLogSnapshot) : State :=
  mkState (s_machine_id s) (s_name s) (s_actual_backend s) (s_monitor_id s) (s_vm_state s) (s_vm_changed_at s)
    (s_running_since s) (s_vm_code s) (s_vm_message s) (s_agent_enabled s) (s_connection s) None None None
    (s_host_memory_reclaim s) [] (s_stopping s) (Some snapshot)
    (match s_ssh_verification s with Some _ => s_ssh_epoch s + 1 | None => s_ssh_epoch s end) None.

Definition reset (w w' : World) : Prop :=
  (exists snapshot, state_of w' = forgotten (state_of w) snapshot) /\
  is_generation (w_store w') = bump (is_generation (w_store w)) /\
  is_identity_reset (w_store w') = bump (is_identity_reset (w_store w)) /\
  is_ready_agent_identity (w_store w') = None.

(** Metrics from an instance of the agent that is not the known one. *)
Definition foreign_metrics (c : Call) (s : State) : Prop :=
  exists report age known, c = ObserveMetrics report age /\ s_identity s = Some known /\
    am_agent_instance_id report <> ai_instance_id known.

Lemma forget_ends w : let out := (_ ← put_state forget_identity; change invalidate_ssh_verification) w in
  unpublished w out.2 /\
  ((out.1 = Ok tt /\ forall snapshot, set_s_last_log_snapshot (Some snapshot) (state_of out.2) = forgotten (state_of w) snapshot) \/
   (out.1 = Err SshEpochExhausted /\ exhausted (state_of out.2))).
Proof.
  cbv zeta. rewrite put_bind. unfold change. change (state_of (on_state forget_identity w)) with (forget_identity (state_of w)).
  destruct (invalidate_ends (forget_identity (state_of w))) as [->|[-> Hx]]; (split; [done|]); [left|right; by split].
  split; [done|]. intros snapshot. unfold forgotten. cbn [s_ssh_verification forget_identity set_s_agent_services set_s_metrics set_s_status set_s_identity].
  destruct (s_ssh_verification (state_of w)) eqn:E; [reflexivity|]. unfold set_s_last_log_snapshot. cbn. by rewrite E.
Qed.

Lemma observation_np {T} (value : T) age w : (observation value age w).1 <> Panic.
Proof.
  unfold observation, mbind, Mon_bind, mret, Mon_ret, system_now, instant_now, pure, ok_or. by repeat (case_match; simplify_eq).
Qed.

(** The identity of a snapshot is that of the state. *)
Lemma snapshot_ready s now : ready_agent_identity_from_snapshot (state_log_snapshot s now) = ready_agent_identity s now.
Proof.
  unfold ready_agent_identity_from_snapshot, ready_agent_identity, state_log_snapshot, identity_from_state.
  destruct (readiness_detail s now) as [ready reason]. cbn. destruct ready; [|done]. cbn.
  destruct (s_identity s) as [i|]; cbn; [|done]. destruct (ai_instance_id i) as [a|]; cbn; [|done].
  destruct (ai_boot_id i) as [c|]; cbn; [done|]. by destruct (parse_uuid a).
Qed.

Lemma metrics_locked_ends obs w0 : exists r w', metrics_locked obs w0 = (r, w') /\
  match r with
  | Ok (Ok tt, PublishLog _ _) => True
  | Ok (Err IdentityMismatch, PublishReset _ after) =>
      unpublished w0 w' /\ state_of w' = forgotten (state_of w0) after /\ ready_agent_identity_from_snapshot after = None /\
      exists known, s_identity (state_of w0) = Some known /\ Some (ob_value obs).1 <> ai_instance_id known
  | Err e => unpublished w0 w' /\ (state_of w' = state_of w0 \/ (e = SshEpochExhausted /\ exhausted (state_of w')))
  | _ => False
  end.
Proof.
  destruct (before_snapshot_ok w0) as (before & w1 & Hb & _ & S1 & L1).
  assert (unpublished w0 w1) as U1 by (unfold unpublished; by rewrite S1, L1).
  assert (state_of w1 = state_of w0) as Es by (unfold state_of; by rewrite S1).
  unfold metrics_locked. rewrite bind_eq, Hb, get_bind, Es. destruct (s_identity (state_of w0)) as [c|]; simpl ok_or.
  2: { eexists _, _. split; [reflexivity|]. split; [done|]. by left. }
  rewrite ok_bind. case_bool_decide as Hi; cbn [negb].
  { eexists _, _. split; [reflexivity|]. done. }
  destruct (forget_ends w1) as (U2 & Hr). rewrite put_bind in U2, Hr. rewrite put_bind, bind_eq.
  destruct (change invalidate_ssh_verification (on_state forget_identity w1)) as [r w2]. cbn [fst snd] in *. rewrite Es in Hr.
  destruct Hr as [[-> Hs]|[-> Hx]]; eexists _, _; (split; [reflexivity|]).
  - split; [transitivity w1; [done|exact U2]|]. split; [apply Hs|]. split; [|exists c; split; [done|congruence]].
    rewrite snapshot_ready. unfold ready_agent_identity, identity_from_state.
    pose proof (f_equal s_identity (Hs (state_log_snapshot (state_of w2) 0))) as Hn. cbn in Hn.
    change (state_of (next_tick w2)) with (state_of w2). rewrite Hn. by case_match.
  - split; [transitivity w1; [done|exact U2]|by right].
Qed.

Lemma observe_metrics_ends report age w : let out := observe_metrics report age w in
  harmless w out \/ (out.1 = Err IdentityMismatch /\ foreign_metrics (ObserveMetrics report age) (state_of w) /\ reset w out.2).
Proof.
  cbv zeta. unfold observe_metrics. rewrite bind_eq. pose proof (quiet_prepare_metrics report age w) as Hq.
  assert ((prepare_metrics report age w).1 <> Panic) as Hnp.
  { unfold prepare_metrics. pose proof (validate_metrics_np report). destruct (validate_metrics report) as [[]| |]; [|done|done]. rewrite ok_bind.
    destruct (am_agent_instance_id report); [|done]. simpl ok_or. rewrite ok_bind. destruct (am_report report); [|done]. simpl ok_or. rewrite ok_bind.
    apply observation_np. }
  destruct (prepare_metrics report age w) as [[obs|e|] w0] eqn:Ep; cbn [fst snd] in *; [|left; by apply quiet_harmless|done].
  apply prepare_metrics_inv in Ep as (_ & Hid & _). rewrite bind_eq.
  destruct (metrics_locked_ends obs w0) as (r & w1 & -> & Hr). destruct r as [[r p]|e|]; [|left|done].
  - rewrite bind_eq. destruct r as [[]|[]|], p; try done; [by left|]. right. destruct Hr as ((U1 & U2 & U3 & U4) & Hs & Hready & known & Hk & Hne).
    destruct Hq as (_ & S0 & L0). unfold state_of in Hk, Hs. rewrite S0 in Hk, Hs, U1, U2. split; [done|]. split; [exists report, age, known; by rewrite Hid|].
    unfold reset. cbn. rewrite U1, U2. split; [exists after; exact Hs|]. done.
  - destruct Hr as [U1 Hr]. apply (harmless_later w w0); [done|]. unfold harmless. cbn [fst snd]. split; [done|]. destruct Hr; auto.
Qed.

Lemma prepare_status_np report age w : (prepare_status report age w).1 <> Panic.
Proof.
  unfold prepare_status. pose proof (validate_status_np report). destruct (validate_status report) as [[]| |]; [|done|done]. rewrite ok_bind.
  destruct (as_identity report) as [i|]; [|done]. simpl ok_or. rewrite ok_bind. destruct (as_report report) as [r|]; [|done].
  simpl ok_or. rewrite ok_bind, bind_eq. pose proof (observation_np r age w). by destruct (observation r age w) as [[o| |] w'].
Qed.

(** C25: No call panics, and a call that fails publishes nothing: the three
    channels and the log are as before.  The state is exactly as before too, or it
    has lost the evidence for the listener, with the next epoch, because the report
    it rested on had expired by then.  Two errors are different.  When the 64-bit
    epoch is exhausted, nothing is said of the state but that.  When metrics arrive
    from an instance of the agent other than the known one, identity, report,
    metrics, services and evidence are gone, all else is kept, and the subscribers
    are told: both counters go up, and no agent is ready. *)
Theorem calls_fail_safely (c : Call) (w : World) :
  harmless w (call c w) \/
  ((call c w).1 = Err IdentityMismatch /\ foreign_metrics c (state_of w) /\ reset w (call c w).2).
Proof.
  destruct c; cbn [call].
  - left. apply (mutate_if_harmless (UpdVmState vm_state message)).
  - left. apply (mutate_if_harmless (UpdMemoryReclaim report)).
  - left. apply (mutate_if_harmless UpdConnecting).
  - left. apply (mutate_if_harmless (UpdFailure message)).
  - left. unfold observe_status. rewrite bind_eq. pose proof (quiet_prepare_status report age w) as Hq. pose proof (prepare_status_np report age w) as Hnp.
    destruct (prepare_status report age w) as [[[new obs]|e|] w0]; cbn [fst snd] in *; [|by apply quiet_harmless|done].
    apply (harmless_later w w0); [done|]. apply (mutate_if_harmless (UpdStatus new obs)).
  - apply observe_metrics_ends.
  - left. apply (mutate_if_harmless (UpdComplete target result)).
  - left. apply (mutate_if_harmless (UpdForward expected serving)).
Qed.

(** ** Effects *)

Lemma refresh_same s now : same_but_evidence s (refresh_ssh_verification s now).2.
Proof.
  destruct (refresh_ssh_verification s now) as [r s'] eqn:E.
  apply refresh_cases in E as [[-> _]|(s0 & Ei & _ & Hs)]; [by repeat split|]. pose proof (invalidate_same s) as Hi. rewrite Ei in Hi. cbn in Hi.
  destruct Hs as [->|(owner & ssh & _ & _ & _ & ->)]; [done|]. exact Hi.
Qed.


Lemma conclude_succeeds before w p w' :
  conclude before true w = (Ok p, w') ->
  exists n after, p = Some (PublishMutation before after) /\ after = state_log_snapshot (state_of w') (w_instant w' n) /\
    (w_tick w <= n < w_tick w')%nat /\ same_but_evidence (state_of w) (state_of w') /\ unpublished w w'.
Proof.
  intros E. pose proof (unpublished_conclude before true w) as U. rewrite E in U. cbn [snd] in U. revert E.
  unfold conclude. cbn [negb]. rewrite instant_bind, bind_eq. unfold change. change (state_of (next_tick w)) with (state_of w).
  pose proof (refresh_same (state_of w) (w_instant w (w_tick w))) as Hs.
  destruct (refresh_ssh_verification (state_of w) (w_instant w (w_tick w))) as [[[]| |] s3]; [|done|done]. cbn [snd] in Hs.
  unfold after_snapshot. rewrite bind_eq, get_bind, instant_bind, put_bind. intros [= <- <-]. eexists (S (w_tick w)), _. split; [reflexivity|].
  split; [reflexivity|]. split; [cbn; lia|]. by split.
Qed.

(** A mutation that succeeds: the closure's state but for the evidence, one more
    generation, and the identity that the state makes ready. *)
Lemma mutate_succeeds m w w' :
  mutate m w = (Ok tt, w') ->
  exists w1 w2 n, quiet w w1 /\ m w1 = (Ok tt, w2) /\ same_but_evidence (state_of w2) (state_of w') /\
    is_generation (w_store w') = bump (is_generation (w_store w2)) /\
    is_ready_agent_identity (w_store w') = ready_agent_identity (state_of w') (w_instant w' n) /\
    (w_tick w2 <= n < w_tick w')%nat.
Proof.
  unfold mutate, mutate_if. rewrite bind_eq. destruct (mutate_locked_eq (always m) w) as (before & w1 & Hb & T1 & S1 & ->).
  destruct (before_snapshot_ok w) as (before' & w1' & Hb' & _ & _ & L1). rewrite Hb in Hb'. injection Hb' as <- <-.
  unfold always. rewrite !bind_eq. destruct (m w1) as [[[]| |] w2] eqn:Em; [|done|done]. cbn [mret Mon_ret].
  destruct (conclude before true w2) as [[p| |] w3] eqn:Ec; [|done|done]. intros Hp.
  apply conclude_succeeds in Ec as (n & after & -> & -> & Hn & Hs & (U1 & U2 & U3 & U4)). cbn in Hp. injection Hp as <-.
  exists w1, w2, n. split; [done|]. split; [done|]. split; [exact Hs|]. split; [cbn; by rewrite U1|]. split; [|exact Hn].
  cbn. apply snapshot_ready.
Qed.

Lemma observation_deadline {T} (value : T) age w obs w' : observation value age w = (Ok obs, w') ->
  ob_deadline obs = w_instant w (S (w_tick w)) + age /\ w_tick w' = S (S (w_tick w)).
Proof.
  unfold observation, mbind, Mon_bind, mret, Mon_ret, system_now, instant_now, pure, ok_or, time_add.
  repeat (case_match; simplify_eq; try done). intros [= <- <-]. done.
Qed.

Lemma prepare_deadline report age w new obs w' : prepare_status report age w = (Ok (new, obs), w') ->
  ob_deadline obs = w_instant w (S (w_tick w)) + age /\ w_tick w' = S (S (w_tick w)).
Proof.
  unfold prepare_status. destruct (validate_status report) as [[]| |]; [|done|done]. rewrite ok_bind.
  destruct (as_identity report) as [i|]; [|done]. simpl ok_or. rewrite ok_bind. destruct (as_report report) as [r|]; [|done].
  simpl ok_or. rewrite ok_bind, bind_eq. destruct (observation r age w) as [[o| |] w1] eqn:E; [|done|done]. intros [= <- <- <-].
  by apply observation_deadline in E.
Qed.

(** What becomes of the observations when [new] reports after [old]. *)
Definition after_report (s : State) (new : AgentIdentity) (s' : State) : Prop :=
  match s_identity s with
  | None => s_metrics s' = s_metrics s /\ s_agent_services s' = known_agent_services
  | Some old =>
      ((ai_instance_id old <> ai_instance_id new \/ ai_boot_id old <> ai_boot_id new) ->
        s_metrics s' = None /\ s_agent_services s' = known_agent_services) /\
      (ai_instance_id old = ai_instance_id new -> ai_boot_id old = ai_boot_id new ->
        ai_version old = ai_version new /\ s_metrics s' = s_metrics s /\ s_agent_services s' = s_agent_services s)
  end.

Lemma replaced_iff old new : replaced old new = true <-> ai_instance_id old <> ai_instance_id new \/ ai_boot_id old <> ai_boot_id new.
Proof. unfold replaced. rewrite orb_true_iff, !negb_true_iff, !bool_decide_eq_false. done. Qed.

Lemma status_update_succeeds new obs w w' : status_update new obs w = (Ok tt, w') ->
  let s := state_of w' in
  s_identity s = Some new /\ s_status s = Some obs /\ ac_state (s_connection s) = Some (as_i32 ConnectionResponsive) /\
  after_report (state_of w) new s.
Proof.
  unfold status_update. rewrite get_bind. fold (expire (state_of w)). rewrite bind_eq.
  destruct (expire_effect w) as ((E1 & E2 & E3 & E4 & _) & _). destruct (expire (state_of w) w) as [[[]| |] w1]; [|done|done]. cbn [snd] in *.
  rewrite bind_eq. unfold after_report. destruct (s_identity (state_of w)) as [old|] eqn:Eid.
  - destruct (replaced old new) eqn:Er.
    + pose proof (proj1 (replaced_iff old new) Er) as Hr. intros [= <-]. cbn. unfold accept_status. cbn.
      repeat split; try tauto; by case_match.
    + assert (~ (ai_instance_id old <> ai_instance_id new \/ ai_boot_id old <> ai_boot_id new)) as Hr by (by rewrite <- replaced_iff, Er).
      destruct (bool_decide (ai_version old = ai_version new)) eqn:Ev; [|done]. apply bool_decide_eq_true in Ev. intros [= <-]. cbn.
      unfold accept_status, state_of in *. cbn. rewrite E1. cbn. repeat split; tauto.
  - intros [= <-]. cbn. unfold accept_status, state_of in *. cbn. by rewrite E1.
Qed.

(** C24: What a successful report does.  The agent is connected and its identity
    and report are the ones sent; the report expires [age] after a moment during
    the call.  When the instance id or the boot id is another than before, the
    metrics of the old agent are gone and the services are the initial ones; when
    both are the same, so are version, metrics and services.  Subscribers see one
    more generation, and the identity published to them is the one the new state
    makes ready. *)
Theorem observe_status_effect (report : AgentStatus) (age : Z) (w w' : World)
    (Hok : observe_status report age w = (Ok tt, w')) :
  exists new obs n,
    as_identity report = Some new /\ as_report report = Some (ob_value obs) /\
    s_identity (state_of w') = Some new /\ s_status (state_of w') = Some obs /\
    (exists k, (w_tick w <= k < w_tick w')%nat /\ ob_deadline obs = w_instant w k + age) /\
    ac_state (s_connection (state_of w')) = Some (as_i32 ConnectionResponsive) /\
    after_report (state_of w) new (state_of w') /\
    is_generation (w_store w') = bump (is_generation (w_store w)) /\
    is_ready_agent_identity (w_store w') = ready_agent_identity (state_of w') (w_instant w' n) /\ (n < w_tick w')%nat.
Proof.
  unfold observe_status in Hok. rewrite bind_eq in Hok. destruct (prepare_status report age w) as [[[new obs]| |] w0] eqn:Ep; [|done|done].
  destruct (prepare_status_inv _ _ _ _ _ _ Ep) as (_ & Hi & Hr). cbn [fst snd] in Hok.
  destruct (prepare_deadline _ _ _ _ _ _ Ep) as [Hd Ht0]. pose proof (quiet_prepare_status report age w) as (T0 & S0 & _). rewrite Ep in T0, S0. cbn [snd] in T0, S0.
  destruct (mutate_succeeds _ _ _ Hok) as (w1 & w2 & n & (T1 & S1 & _) & Hu & Hs & Hg & Hready & Hn).
  assert (state_of w1 = state_of w) as Es by (unfold state_of; by rewrite S1, S0).
  pose proof (unpublished_closure (UpdStatus new obs) w1) as (G1 & _). cbn [closure] in G1. unfold always in G1. rewrite bind_eq, Hu in G1. cbn [snd mret Mon_ret] in G1.
  pose proof (rel_closure (UpdStatus new obs) ltac:(done) w1) as [T2 _]. cbn [closure] in T2. unfold always in T2. rewrite bind_eq, Hu in T2. cbn [snd mret Mon_ret] in T2.
  apply status_update_succeeds in Hu as (H1 & H2 & H3 & H4). destruct Hs as (E1 & E2 & E3 & E4 & _ & _ & _ & _ & E9). rewrite Es in H4.
  pose proof (ti_tick _ _ T1). pose proof (ti_tick _ _ T2).
  exists new, obs, n. rewrite E1, E2, E9. repeat split; try done; [| | |lia].
  - exists (S (w_tick w)). split; [lia|done].
  - unfold after_report in *. by rewrite E3, E4.
  - by rewrite Hg, G1, S1, S0.
Qed.

(** Two tasks that publish in the other order than they held the lock. *)
Lemma crossed_steps w u1 u2 w0 w1 w2 p1 p2 :
  prepared w u1 w0 -> locked u1 w0 = (Ok (Some p1), w1) -> prepared w1 u2 w1 -> locked u2 w1 = (Ok (Some p2), w2) ->
  exists ls, steps (mkSystem w [] []) ls (mkSystem (publish p1 (publish p2 w2).2).2 [] []).
Proof.
  intros H1 L1 H2 L2. eexists.
  econstructor; [econstructor; [econstructor; [econstructor; [econstructor; [econstructor; [constructor|]|]|]|]|]|].
  - by apply step_arrives.
  - by apply (step_locked w0 w1 (Ok (Some p1)) u1 [] [] []).
  - by apply step_arrives.
  - by apply (step_locked w1 w2 (Ok (Some p2)) u2 [] [] [p1]).
  - apply (step_publishes w2 (publish p2 w2).2 p2 [] [p1] []). by destruct p2.
  - apply (step_publishes (publish p2 w2).2 (publish p1 (publish p2 w2).2).2 p1 [] [] []). by destruct p1.
Qed.

(** A status report and a change of the machine's state, publishing crosswise. *)
Definition crossed (report : AgentStatus) (age : Z) (vm_state : VmState) (message : text) (w : World) : option World :=
  match prepare_status report age w with
  | (Ok (new, obs), w0) =>
      match locked (UpdStatus new obs) w0 with
      | (Ok (Some p1), w1) =>
          match locked (UpdVmState vm_state message) w1 with
          | (Ok (Some p2), w2) => Some (publish p1 (publish p2 w2).2).2
          | _ => None
          end
      | _ => None
      end
  | _ => None
  end.

Lemma crossed_reached report age vm_state message w w' :
  crossed report age vm_state message w = Some w' -> exists ls, steps (mkSystem w [] []) ls (mkSystem w' [] []).
Proof.
  unfold crossed. destruct (prepare_status report age w) as [[[new obs]| |] w0] eqn:E0; try done.
  destruct (locked (UpdStatus new obs) w0) as [[[p1|]| |] w1] eqn:E1; try done.
  destruct (locked (UpdVmState vm_state message) w1) as [[[p2|]| |] w2] eqn:E2; try done. intros [= <-].
  apply (crossed_steps _ _ _ _ _ _ _ _ (prepared_status _ _ _ _ _ _ E0) E1 (prepared_vm _ _ _) E2).
Qed.

Definition seen_by_subscribers (w : World) : VmState * bool * bool :=
  (s_vm_state (state_of w), (readiness_detail (state_of w) (w_instant w (w_tick w))).1,
   bool_decide (is_Some (is_ready_agent_identity (w_store w)))).
End Spec.

(** ** A sample machine *)

Definition uuid_groups : list nat := [8; 4; 4; 4; 12]%nat.

Fixpoint regroup (groups : list nat) (digits : list Z) : list text :=
  match groups with
  | [] => []
  | n :: groups => map digit_byte (take n digits) :: regroup groups (drop n digits)
  end.

(** UUIDs as their 32 hexadecimal digits. *)
#[local] Instance sample_externals : Externals := {|
  Uuid := list Z;
  parse_uuid s :=
    let parts := split_on 45 s in
    if bool_decide (map length parts = uuid_groups) then mapM (to_digit 16) (concat parts) else None;
  hyphenated u := join [45] (regroup uuid_groups u);
  valid_public_key key := negb (bool_decide (key = []));
  timestamp t := {| ts_seconds := t / 1000000000; ts_nanos := t mod 1000000000 |}
|}.

Definition sample_world : World := {|
  w_store := InstanceStore_new (lit "machine") (lit "vm") true (lit "krun") (lit "monitor") 0 0;
  w_instant n := Z.of_nat n * 1000000; w_system n := Z.of_nat n * 1000000; w_tick := 0; w_log := []
|}.

Definition sample_identity : AgentIdentity := {|
  ai_instance_id := Some (lit "0a1b2c3d-0000-4000-8000-000000000001"); ai_version := Some (lit "1.0");
  ai_boot_id := Some (lit "0a1b2c3d-0000-4000-8000-00000000000b")
|}.

Definition sample_listener : SshListenerReport := {|
  sl_backend := lit "native"; sl_port := 22; sl_host_public_key := lit "ssh-ed25519 AAAA";
  sl_config_verified := true; sl_kex_verified := false
|}.

Definition sample_status (ssh : option SshListenerReport) : AgentStatus := {|
  as_identity := Some sample_identity;
  as_report := Some {| sr_observed_at := Some {| ts_seconds := 0; ts_nanos := 0 |};
    sr_state := Some (as_i32 AgentReady); sr_code := None; sr_message := None;
    sr_system := Some (mkSystemInfo None None None None None [lit "10.0.2.15"; lit "fe80::1"]);
    sr_boot := None; sr_provisioning := None; sr_ssh := ssh |}
|}.

Definition sample_age : Z := 10 * 1000000000.

(** The machine runs; its agent reports a listener; the host verifies it. *)
Definition running_world : World := (call (SetVmState VmRunning (lit "running")) sample_world).2.
Definition reported_world : World := (call (ObserveStatus (sample_status (Some sample_listener)) sample_age) running_world).2.
Definition sample_target : SshVerificationTarget := {|
  vt_epoch := 1; vt_identity := {| ra_instance_id := default [] (parse_uuid (lit "0a1b2c3d-0000-4000-8000-000000000001"));
                                   ra_boot_id := default [] (parse_uuid (lit "0a1b2c3d-0000-4000-8000-00000000000b")) |};
  vt_backend := lit "native"; vt_port := 22; vt_host_public_key := lit "ssh-ed25519 AAAA"
|}.
Definition verified_world : World := (call (CompleteSshVerification sample_target (inr tt)) reported_world).2.
Definition stopped_world : World := (call (SetVmState VmStopped (lit "stopped")) reported_world).2.

Lemma sample_runs :
  map (fun w => (vt_epoch <$> current w, (readiness_detail (state_of w) (w_instant w (w_tick w))).2))
    [sample_world; running_world; reported_world; verified_world; stopped_world] =
  [(None, ReasonVmStarting); (None, ReasonAgentUnavailable); (Some 1, ReasonGuestStarting);
   (Some 1, ReasonGuestReportedReady); (None, ReasonVmStopped)].
Proof. vm_compute. reflexivity. Qed.

Lemma sample_asked : current reported_world = Some sample_target.
Proof. reflexivity. Qed.

Lemma calls_reachable w c ls : reachable ls (mkSystem w [] []) -> exists ls', reachable ls' (mkSystem (call c w).2 [] []).
Proof. intros (w0 & Hf & Hs). destruct (call_steps c w) as [ls' Hs']. exists (ls' ++ ls), w0. split; [done|]. by apply (steps_trans _ _ _ _ _ Hs). Qed.

Lemma sample_reachable : exists ls, reachable ls (mkSystem reported_world [] []).
Proof.
  destruct (calls_reachable sample_world (SetVmState VmRunning (lit "running")) []) as [ls Hr].
  { exists sample_world. split; [by repeat eexists|constructor]. }
  exact (calls_reachable running_world _ ls Hr).
Qed.

Lemma sample_verified : exists ls, reachable ls (mkSystem verified_world [] []).
Proof. destruct sample_reachable as [ls Hr]. exact (calls_reachable reported_world (CompleteSshVerification sample_target (inr tt)) ls Hr). Qed.

Lemma sample_known : exists status, s_status (state_of verified_world) = Some status /\ sr_ssh (ob_value status) = Some sample_listener.
Proof. eexists. split; reflexivity. Qed.

Lemma sample_ready : s_agent_enabled (state_of verified_world) = true /\
  (readiness_detail (state_of verified_world) (w_instant verified_world (w_tick verified_world))).1 = true.
Proof. split; vm_compute; reflexivity. Qed.

Lemma sample_lost : current stopped_world <> Some sample_target.
Proof. assert (current stopped_world = None) as -> by reflexivity. discriminate. Qed.

Lemma sample_stops : exists ls, steps (mkSystem reported_world [] []) ls (mkSystem stopped_world [] []).
Proof. exact (call_steps (SetVmState VmStopped (lit "stopped")) reported_world). Qed.

Definition unlinked_world : World := (observe_status (sample_status None) sample_age running_world).2.

Lemma sample_accepted : (observe_status (sample_status None) sample_age running_world).1 = Ok tt.
Proof. reflexivity. Qed.

Lemma sample_observed : observe_status (sample_status None) sample_age running_world = (Ok tt, unlinked_world).
Proof. rewrite <- sample_accepted. unfold unlinked_world. apply surjective_pairing. Qed.

Lemma sample_unobserved : s_metrics (state_of running_world) = None /\ s_identity (state_of running_world) = None.
Proof. split; reflexivity. Qed.

Lemma sample_running : exists ls, reachable ls (mkSystem running_world [] []).
Proof.
  apply (calls_reachable sample_world (SetVmState VmRunning (lit "running")) []).
  exists sample_world. split; [by repeat eexists|constructor].
Qed.

Lemma sample_crossed :
  seen_by_subscribers <$> crossed (sample_status None) sample_age VmStopped (lit "stopped") running_world = Some (VmStopped, false, true).
Proof. vm_compute. reflexivity. Qed.

#[local] Opaque sample_world running_world reported_world verified_world stopped_world unlinked_world.

Lemma ssh_ready_is_verified_witness :
  exists ls target first last k, reachable ls (mkSystem verified_world [] []) /\
    Locked (UpdComplete target (inr tt)) first last ∈ ls /\ (first <= k < last)%nat /\ vt_port target = 22.
Proof.
  destruct sample_verified as [ls Hr]. destruct sample_known as (status & Es & Essh). destruct sample_ready as [He Hready].
  destruct (ssh_ready_is_verified ls (mkSystem verified_world [] []) (w_tick verified_world) status sample_listener Hr (le_n _) He Es Essh Hready)
    as (target & first & last & k & Hin & Hk & _ & _ & _ & Hp & _).
  exists ls, target, first, last, k. split; [exact Hr|]. split; [exact Hin|]. split; [exact Hk|]. exact Hp.
Defined.

Lemma superseded_completion_ignored_witness :
  exists ls0 ls1, reachable ls0 (mkSystem reported_world [] []) /\
    steps (mkSystem reported_world [] []) ls1 (mkSystem stopped_world [] []) /\
    let out := complete_ssh_verification sample_target (inr tt) stopped_world in
    out.1 = Ok tt /\ w_store out.2 = w_store stopped_world.
Proof.
  destruct sample_reachable as [ls0 Hr0]. destruct sample_stops as [ls1 Hs1]. exists ls0, ls1. split; [exact Hr0|]. split; [exact Hs1|].
  destruct (superseded_completion_ignored ls0 ls1 [] (mkSystem reported_world [] []) (mkSystem stopped_world [] []) (mkSystem stopped_world [] [])
    sample_target (inr tt) Hr0 Hs1 (steps_refl _) sample_asked sample_lost) as (H1 & H2 & _). split; [exact H1|exact H2].
Defined.

Lemma store_invariant_witness : exists ls, reachable ls (mkSystem reported_world [] []) /\ store_inv (state_of reported_world).
Proof.
  destruct sample_reachable as [ls Hr]. exists ls. split; [exact Hr|].
  apply (proj1 (store_invariant ls (mkSystem reported_world [] []) Hr)).
Defined.

Lemma observe_status_effect_witness :
  s_identity (state_of unlinked_world) = Some sample_identity /\ s_metrics (state_of unlinked_world) = None.
Proof.
  destruct sample_unobserved as [Hm0 Hi0].
  destruct (observe_status_effect _ _ _ _ sample_observed) as (new & obs & n & Hi & _ & Hid & _ & _ & _ & Hm & _).
  unfold after_report in Hm. rewrite Hi0, Hm0 in Hm. injection Hi as <-. split; [exact Hid|exact (proj1 Hm)].
Defined.

(** The order of publication is not that of the lock: a task that has marked the
    machine ready can publish after one that has stopped it, and subscribers are
    left with a ready agent of a stopped machine. *)
Theorem publications_can_cross :
  exists ls w, reachable ls (mkSystem w [] []) /\ seen_by_subscribers w = (VmStopped, false, true).
Proof.
  destruct sample_running as [ls (w0 & Hf & Hs)]. destruct (proj1 (fmap_Some _ _ _) sample_crossed) as (w & E & Hc).
  destruct (crossed_reached _ _ _ _ _ _ E) as [ls' Hs']. exists (ls' ++ ls), w.
  split; [exists w0; split; [exact Hf|exact (steps_trans _ _ _ _ _ Hs Hs')]|exact (eq_sym Hc)].
Qed.
