(* ===== verification/Errors.v ===== *)
(** The error types of the image builder: [common/disk-image/src/ext4/error.rs].

    Paths and run-time strings are byte lists, message literals are [string]s.
    Of [std::io::Error] the model keeps the kinds the crate itself produces or
    can meet on a regular file: a read past the end, an input the operation
    refuses, and any other failure of the host. *)

From S2P Require Import Prelude.
From stdpp Require Import strings.

Abbreviation path := (list Z) (only parsing).

Inductive IoError : Type :=
| UnexpectedEof
| InvalidInput
| OtherIo.

Inductive ReadError : Type :=
| ReadNotFound (p : path)
| CouldNotReadSuperBlock (p : path) (offset size : Z)
| InvalidSuperBlock
| DeepExtentsUnsupported
| InvalidExtents
| InvalidXattrEntry
| CouldNotReadBlock (b : Z)
| CouldNotReadInode (i : Z)
| CouldNotReadGroup (g : Z)
| PathNotFound (p : path)
| NotAFile (p : path)
| IsDirectory (p : path)
| NotADirectory (p : path)
| SymlinkLoop (p : path)
| InvalidPath (p : path)
| ReadIo (e : IoError).

Inductive FormatError : Type :=
| NotDirectory (p : path)
| NotFile (p : path)
| NotFound (p : path)
| AlreadyExists (p : path)
| UnsupportedFiletype
| MaximumLinksExceeded (p : path)
| FileTooBig (size : Z)
| InvalidLink (p : path)
| InvalidName (name : path)
| NoSpaceForTrailingDirEntry
| InsufficientSpaceForGroupDescriptorBlocks
| CannotHardlinkDirectory (p : path)
| UnsupportedBlockSize (n : Z)
| InvalidSize (size : Z) (reason : string)
| InvalidLabel (label : path)
| CannotTruncateFile (p : path)
| CannotCreateSparseFile (p : path)
| CannotResizeFs (size : Z)
| XattrInsufficientSpace (inode : Z)
| MalformedXattrBuffer
| InvalidAsciiString (s : path)
| InvalidPathEncoding (p : path)
| FormatIo (e : IoError).

Inductive ResizeError : Type :=
| RequiresRecovery
| Unsupported (what : string)
| Corrupt (what : string)
| UnalignedSize (size : Z)
| ShrinkUnsupported (current_blocks requested_blocks : Z)
| GdtCapacityExceeded (required_descriptor_blocks available_descriptor_blocks : Z)
| TooLarge (requested_blocks maximum_blocks : Z)
| TooManyInodes
| ResizeIo (e : IoError).

#[global] Instance IoError_eq_dec : EqDecision IoError.
Proof. solve_decision. Defined.

#[global] Instance ReadError_eq_dec : EqDecision ReadError.
Proof. solve_decision. Defined.

#[global] Instance ResizeError_eq_dec : EqDecision ResizeError.
Proof. solve_decision. Defined.

(** Whether the image is unchanged and the mounted kernel resize path may
    handle the case instead. *)
Definition can_fallback_online (e : ResizeError) : bool :=
  match e with
  | RequiresRecovery | Unsupported _ | GdtCapacityExceeded _ _ => true
  | _ => false
  end.
