(* ===== verification/Disk.v ===== *)
(** The image file the crate reads and writes through [std::fs::File].

    A file is its length, its bytes as a function of the offset (zero past the
    end and in holes, as the file system returns them) and the seek position.
    [write_all] extends the file, [read_exact] past the end is
    [UnexpectedEof].  Failures of the host (a full disk, a device error) are
    not produced by these operations; where the code's behaviour on such a
    failure matters the model interrupts the sequence of writes instead. *)

From S2P Require Import Prelude Bytes Errors.

Record File : Type := mkFile { f_len : Z; f_data : Z -> Z; f_pos : Z }.

Definition empty_file : File := {| f_len := 0; f_data := fun _ => 0; f_pos := 0 |}.

(** The [n] bytes from [off]. *)
Fixpoint bytes_from (data : Z -> Z) (off : Z) (n : nat) : list Z :=
  match n with
  | O => []
  | S n => data off :: bytes_from data (off + 1) n
  end.

Definition bytes_at (f : File) (off n : Z) : list Z := bytes_from (f_data f) off (Z.to_nat n).

Definition write_at (f : File) (off : Z) (bs : list Z) : File :=
  let n := zlen bs in
  {| f_len := if n =? 0 then f_len f else Z.max (f_len f) (off + n);
     f_data := fun x =>
       if (off <=? x) && (x <? off + n) then nth (Z.to_nat (x - off)) bs 0
       else f_data f x;
     f_pos := f_pos f |}.

(** [Seek::seek (SeekFrom::Start n)], [Write::write_all], [Read::read_exact],
    [File::set_len], [Metadata::len]. *)
Definition seek (f : File) (n : Z) : File :=
  {| f_len := f_len f; f_data := f_data f; f_pos := n |}.

(** A position beyond [i64::MAX] is refused by the system call; so is a vector
    of more bytes by the allocator, with a panic. *)
Definition i64_max : Z := 9223372036854775807.

Definition seek_start (f : File) (n : Z) : res IoError File :=
  if n <=? i64_max then Ok (seek f n) else Err InvalidInput.

Definition vec_capacity {E} (n : Z) : res E unit := if n <=? i64_max then Ok tt else Panic.

Definition write_all (f : File) (bs : list Z) : File :=
  seek (write_at f (f_pos f) bs) (f_pos f + zlen bs).

Definition read_exact (f : File) (n : Z) : res IoError (list Z * File) :=
  if f_pos f + n <=? f_len f then Ok (bytes_at f (f_pos f) n, seek f (f_pos f + n))
  else Err UnexpectedEof.

(** [Read::read] on a regular file: all that is left, up to the buffer. *)
Definition read_some (f : File) (n : Z) : list Z * File :=
  let k := Z.max 0 (Z.min n (f_len f - f_pos f)) in
  (bytes_at f (f_pos f) k, seek f (f_pos f + k)).

Definition set_len (f : File) (n : Z) : File :=
  {| f_len := n; f_data := fun x => if x <? n then f_data f x else 0; f_pos := f_pos f |}.

(** ** Laws *)

Section Laws.
Implicit Types f : File.

Lemma bytes_at_eq f off n :
  bytes_at f off n = map (fun i => f_data f (off + Z.of_nat i)) (seq 0 (Z.to_nat n)).
Proof.
  unfold bytes_at. generalize (Z.to_nat n) as k. intros k. revert off. induction k as [|k IH]; intros off; [done|].
  cbn [bytes_from seq map]. rewrite Z.add_0_r, IH, <- seq_shift, map_map. f_equal. apply map_ext. intros i. f_equal. lia.
Qed.

Lemma zlen_bytes_at f off n : 0 <= n -> zlen (bytes_at f off n) = n.
Proof. intros. unfold zlen. rewrite bytes_at_eq, length_map, length_seq. lia. Qed.

Lemma lookup_bytes_at f off n (i : nat) :
  Z.of_nat i < n -> bytes_at f off n !! i = Some (f_data f (off + Z.of_nat i)).
Proof.
  intros Hi. rewrite bytes_at_eq, list_lookup_fmap.
  by rewrite lookup_seq_lt by lia.
Qed.

Lemma bytes_at_ext f g off n :
  (forall x, off <= x < off + n -> f_data f x = f_data g x) -> bytes_at f off n = bytes_at g off n.
Proof.
  intros H. rewrite !bytes_at_eq. apply map_ext_in. intros i Hi. apply in_seq in Hi. apply H. lia.
Qed.

(** Two reads of parts are the part of one read. *)
Lemma sub_bytes_at f off n o m :
  0 <= o -> 0 <= m -> o + m <= n -> sub_bytes (bytes_at f off n) o m = bytes_at f (off + o) m.
Proof.
  intros Ho Hm Hn. apply list_eq. intros i. rewrite lookup_sub by lia.
  destruct (decide (Z.of_nat i < m)) as [Hi|Hi].
  - rewrite !lookup_bytes_at by lia. do 2 f_equal. lia.
  - rewrite lookup_ge_None_2; [done|].
    pose proof (zlen_bytes_at f (off + o) m Hm). unfold zlen in *. lia.
Qed.

Lemma bytes_at_app f off a b :
  0 <= a -> 0 <= b -> bytes_at f off (a + b) = bytes_at f off a ++ bytes_at f (off + a) b.
Proof.
  intros Ha Hb. rewrite !bytes_at_eq, Z2Nat.inj_add, seq_app, map_app by lia. f_equal. simpl.
  rewrite <- (Nat.add_0_r (Z.to_nat a)), <- fmap_add_seq. unfold fmap. rewrite map_map.
  apply map_ext. intros i. f_equal. lia.
Qed.

Lemma bytes_at_write f off bs : bytes_at (write_at f off bs) off (zlen bs) = bs.
Proof.
  apply list_eq. intros i. pose proof (zlen_nonneg bs).
  destruct (decide (Z.of_nat i < zlen bs)) as [Hi|Hi].
  - rewrite lookup_bytes_at by lia. simpl.
    replace ((off <=? off + Z.of_nat i) && (off + Z.of_nat i <? off + zlen bs)) with true by lia.
    replace (Z.to_nat (off + Z.of_nat i - off)) with i by lia.
    unfold zlen in *. destruct (nth_lookup_or_length bs i 0) as [->|]; [done|lia].
  - rewrite !lookup_ge_None_2; [done| |]; unfold zlen in *;
      rewrite ?bytes_at_eq, ?length_map, ?length_seq; lia.
Qed.

Lemma bytes_at_write_in f off bs o n :
  off <= o -> 0 <= n -> o + n <= off + zlen bs ->
  bytes_at (write_at f off bs) o n = sub_bytes bs (o - off) n.
Proof.
  intros Ho Hn Hl. rewrite <- (bytes_at_write f off bs) at 2.
  rewrite sub_bytes_at by lia. f_equal. lia.
Qed.

Lemma bytes_at_write_ne f off bs o n :
  o + n <= off \/ off + zlen bs <= o -> bytes_at (write_at f off bs) o n = bytes_at f o n.
Proof.
  intros Hd. apply bytes_at_ext. intros x Hx. simpl.
  by replace ((off <=? x) && (x <? off + zlen bs)) with false by lia.
Qed.

Lemma read_exact_seek f o n :
  o + n <= f_len f -> read_exact (seek f o) n = Ok (bytes_at f o n, seek f (o + n)).
Proof.
  intros Hl. unfold read_exact. cbn [f_pos f_len seek]. by replace (o + n <=? f_len f) with true by lia.
Qed.

Lemma seek_start_small f n : n <= i64_max -> seek_start f n = Ok (seek f n).
Proof. intros. unfold seek_start. by replace (n <=? i64_max) with true by lia. Qed.

Lemma vec_capacity_small {E} n : n <= i64_max -> vec_capacity (E := E) n = Ok tt.
Proof. intros. unfold vec_capacity. by replace (n <=? i64_max) with true by lia. Qed.

Lemma f_len_write f off bs : f_len f <= f_len (write_at f off bs).
Proof. simpl. case_match; lia. Qed.

Lemma f_len_write_end f off bs : 0 < zlen bs -> off + zlen bs <= f_len (write_at f off bs).
Proof. simpl. intros. case_match; lia. Qed.
End Laws.

#[global] Arguments bytes_at : simpl never.
#[global] Arguments write_at : simpl never.
#[global] Arguments read_exact : simpl never.

(** ** Images of bytes *)

Definition byte_file (f : File) : Prop := forall x, is_u8 (f_data f x).

Lemma byte_file_at f off n : byte_file f -> Forall is_u8 (bytes_at f off n).
Proof. intros Hf. rewrite bytes_at_eq. apply Forall_fmap, list.Forall_forall. intros i _. apply Hf. Qed.

(** An image given by the blocks of 4096 bytes that are not empty.  A block is
    kept as rows of 64 bytes, which makes a byte quick to find. *)
Fixpoint rows (n : nat) (b : list Z) : list (list Z) :=
  match n with
  | O => []
  | S n => take 64 b :: rows n (drop 64 b)
  end.

Fixpoint find_block (bs : list (Z * list (list Z))) (k : Z) : list (list Z) :=
  match bs with
  | [] => []
  | (k', b) :: bs => if k =? k' then b else find_block bs k
  end.

Definition image_byte (table : list (Z * list (list Z))) (x : Z) : Z :=
  let i := x mod 4096 in
  nth (Z.to_nat (i mod 64)) (nth (Z.to_nat (i / 64)) (find_block table (x / 4096)) []) 0.

Definition block_image (len : Z) (bs : list (Z * list Z)) : File :=
  let table := map (fun kb : Z * list Z => (kb.1, rows 64 kb.2)) bs in
  {| f_len := len; f_data := image_byte table; f_pos := 0 |}.

Definition bytes_ok (bs : list (Z * list Z)) : bool :=
  forallb (fun kb : Z * list Z => forallb (fun b => (0 <=? b) && (b <? 256)) kb.2) bs.

Lemma rows_ok n : forall b, Forall is_u8 b -> Forall (Forall is_u8) (rows n b).
Proof.
  induction n as [|n IH]; intros b Hb; simpl; constructor; [by apply Forall_take|]. by apply IH, Forall_drop.
Qed.

Lemma block_image_bytes len bs : bytes_ok bs = true -> byte_file (block_image len bs).
Proof.
  intros H x. unfold block_image, image_byte. cbn [f_data]. rewrite !nth_lookup.
  assert (Forall (Forall is_u8) (find_block (map (fun kb : Z * list Z => (kb.1, rows 64 kb.2)) bs) (x / 4096))) as Hb.
  { unfold bytes_ok in H. rewrite forallb_forall in H. induction bs as [|[k b] bs IH]; cbn [map find_block fst snd]; [done|].
    case_match; [|apply IH; intros kb Hkb; apply H; by right]. apply rows_ok, list.Forall_forall. intros v Hv.
    specialize (H (k, b) (or_introl eq_refl)). cbn [snd] in H. rewrite forallb_forall in H.
    apply list_elem_of_In, H in Hv. unfold is_u8. lia. }
  destruct (find_block _ _ !! _) as [row|] eqn:Hrow; cbn; [|unfold is_u8; rewrite lookup_nil; cbn; lia].
  apply (Forall_lookup_1 _ _ _ _ Hb) in Hrow. destruct (row !! _) as [v|] eqn:Hv; cbn; [|unfold is_u8; lia].
  by apply (Forall_lookup_1 _ _ _ _ Hrow) in Hv.
Qed.
