(* ===== verification/Tables.v ===== *)
(** Records inside a buffer: [r.write_to(&mut buf[off..off + SIZE])] and
    [R::read_from(&buf[off..])], and arrays of records written by a loop over
    [iter().enumerate()].  A slice out of range panics. *)

From S2P Require Import Prelude Bytes.

Section Defs.
Context {E A : Type} `{DiskRecord A}.

Definition put_record (a : A) (off : Z) (buf : list Z) : res E (list Z) :=
  if off + rec_size A <=? zlen buf
  then Ok (put_bytes buf off (write_to a (sub_bytes buf off (rec_size A))))
  else Panic.

Fixpoint put_table (off : Z) (l : list A) (buf : list Z) : res E (list Z) :=
  match l with
  | [] => Ok buf
  | a :: l => buf ← put_record a off buf; put_table (off + rec_size A) l buf
  end.

Definition read_at (off : Z) (buf : list Z) : A := read_from (drop (Z.to_nat off) buf).
End Defs.

Section Laws.
Context {E A : Type} `{DiskRecordLaws A}.
Implicit Types (a : A) (buf : list Z).

Lemma read_at_sub off buf :
  0 <= off -> off + rec_size A <= zlen buf ->
  read_at off buf = read_from (sub_bytes buf off (rec_size A)) :> A.
Proof.
  intros Ho Hl. unfold read_at. pose proof (rec_size_pos (A := A)).
  rewrite read_from_local; [|unfold zlen in *; rewrite length_drop; lia].
  unfold sub_bytes. by rewrite drop_0.
Qed.

Lemma put_record_spec a off buf :
  rec_wf a -> 0 <= off -> off + rec_size A <= zlen buf ->
  exists buf', put_record (E := E) a off buf = Ok buf' /\ zlen buf' = zlen buf /\
    read_at off buf' = a /\
    forall o n, 0 <= o -> 0 <= n -> o + n <= off \/ off + rec_size A <= o ->
      sub_bytes buf' o n = sub_bytes buf o n.
Proof.
  intros Hwf Ho Hl. unfold put_record. replace (off + rec_size A <=? zlen buf) with true by lia.
  pose proof (rec_size_pos (A := A)). eexists. split; [done|].
  assert (zlen (write_to a (sub_bytes buf off (rec_size A))) = rec_size A) as Hw.
  { rewrite zlen_write_to. apply zlen_sub; lia. }
  split; [by rewrite zlen_put|]. split.
  - rewrite read_at_sub by (rewrite ?zlen_put; lia).
    pose proof (sub_put_eq buf off _ Ho ltac:(rewrite Hw; exact Hl)) as Hs. rewrite Hw in Hs. rewrite Hs.
    apply read_write; [done|]. rewrite zlen_sub; lia.
  - intros o n Ho' Hn Hd. apply sub_put_ne; rewrite ?Hw; lia.
Qed.

(** A record survives writes elsewhere in the buffer. *)
Lemma read_at_frame off buf buf' :
  0 <= off -> off + rec_size A <= zlen buf -> zlen buf' = zlen buf ->
  sub_bytes buf' off (rec_size A) = sub_bytes buf off (rec_size A) ->
  read_at off buf' = read_at off buf :> A.
Proof. intros. rewrite !read_at_sub by lia. congruence. Qed.

Lemma put_table_spec (l : list A) : forall off buf,
  Forall rec_wf l -> 0 <= off -> off + rec_size A * Z.of_nat (length l) <= zlen buf ->
  exists buf', put_table (E := E) off l buf = Ok buf' /\ zlen buf' = zlen buf /\
    (forall i a, l !! i = Some a -> read_at (off + rec_size A * Z.of_nat i) buf' = a) /\
    forall o n, 0 <= o -> 0 <= n -> o + n <= off \/ off + rec_size A * Z.of_nat (length l) <= o ->
      sub_bytes buf' o n = sub_bytes buf o n.
Proof.
  pose proof (rec_size_pos (A := A)) as Hpos.
  induction l as [|a l IH]; intros off buf Hwf Ho Hl; simpl.
  - exists buf. by repeat split.
  - apply Forall_cons_1 in Hwf as [Ha Hwf]. cbn [length] in Hl.
    destruct (put_record_spec a off buf Ha Ho ltac:(nia)) as (b1 & -> & Hz1 & Hr1 & Hf1). simpl.
    destruct (IH (off + rec_size A) b1 Hwf) as (b2 & E2 & Hz2 & Hr2 & Hf2); [nia..|].
    exists b2. split; [done|]. split; [lia|]. split.
    + intros [|i] x Hx; simpl in Hx.
      * injection Hx as <-. rewrite Z.mul_0_r, Z.add_0_r. rewrite (read_at_frame off b1); [done|lia..|].
        apply Hf2; lia.
      * rewrite <- (Hr2 i x Hx). f_equal. lia.
    + intros o n Ho' Hn Hd. rewrite Hf2, Hf1 by nia. done.
Qed.
End Laws.

(** Records whose fields are all serialised as bytes. *)
Class WritesBytes (A : Type) `{DiskRecord A} : Prop :=
  writes_bytes (a : A) buf : Forall is_u8 buf -> Forall is_u8 (write_to a buf).

Section Ranges.
Context {E A : Type} `{WritesBytes A}.

Lemma put_record_range (a : A) off buf buf' :
  put_record (E := E) a off buf = Ok buf' -> Forall is_u8 buf -> Forall is_u8 buf'.
Proof.
  unfold put_record. destruct (_ <=? _); [|done]. intros [= <-] Hb. apply Forall_put; [done|].
  by apply writes_bytes, Forall_sub.
Qed.

Lemma put_table_range (l : list A) : forall off buf buf',
  put_table (E := E) off l buf = Ok buf' -> Forall is_u8 buf -> Forall is_u8 buf'.
Proof.
  induction l as [|a l IH]; intros off buf buf' Hp Hb; [by injection Hp as <-|]. cbn [put_table] in Hp.
  apply res_bind_ok in Hp as (b & Hb1 & Hp). eapply IH; [exact Hp|]. by eapply put_record_range.
Qed.
End Ranges.

(** A table that does not fit its buffer panics. *)
Lemma put_table_overflow {E A} `{DiskRecordLaws A} (l : list A) : forall off buf,
  zlen buf < off + rec_size A * Z.of_nat (length l) -> l <> [] -> put_table (E := E) off l buf = Panic.
Proof.
  pose proof (rec_size_pos (A := A)) as Hpos.
  induction l as [|a l IH]; intros off buf Hl Hne; [done|]. cbn [put_table length] in *. unfold put_record.
  destruct (Z.leb_spec (off + rec_size A) (zlen buf)); [|done]. cbn [mbind res_bind].
  destruct l as [|a' l]; [cbn [length] in Hl; lia|].
  apply IH; [|done]. rewrite zlen_put. cbn [length] in *. lia.
Qed.
