(* ===== verification/Dir.v ===== *)
(** Directory blocks: [common/disk-image/src/ext4/dir.rs].

    The writer appends to a [Vec<u8>], so its state is the bytes written so far
    and [left], the room in the current block.  [parse_dir_entries] is the
    reader's loop over one block; its fuel is the block length, and
    [parse_fuel_mono] shows that more never changes the result. *)

From S2P Require Import Prelude Bytes Types RustStr.

(** ** Definitions *)

Definition align_up (n align : Z) : Z := Z.land (n + align - 1) (Z.lnot (align - 1)).

Definition dir_file_type (mode : Z) : Z := FileType_code (FileType_from_mode mode).

Section Writer.
Context {E : Type}.

(** [finish_dir_entry_block]: the terminator needs its eight-byte header. *)
Definition finish_dir_entry_block (block_size : Z) (st : list Z * Z) : res E (list Z * Z) :=
  let '(out, left_) := st in
  if left_ <=? 0 then Ok (out, block_size)
  else
    let remaining := left_ in
    let term := {| de_inode := 0; de_rec_len := u16 remaining; de_name_len := 0;
                   de_file_type := 0 |} in
    let header := DirectoryEntry_write_to term (zeros 8) in
    if remaining <? 8 then Panic
    else Ok (out ++ header ++ zeros (remaining - 8), block_size).

Definition write_dir_entry (name : list Z) (inode mode : Z)
    (link_inode link_mode : option Z) (block_size : Z) (st : list Z * Z) :
    res E (list Z * Z) :=
  let entry_size := align_up (8 + zlen name) 4 in
  let min_trailing := 12 in
  st ← (if u64 st.2 <? entry_size + min_trailing
        then finish_dir_entry_block block_size st else Ok st);
  let '(out, left_) := (st : list Z * Z) in
  let actual_inode := default inode link_inode in
  let actual_mode := default mode link_mode in
  let entry := {| de_inode := actual_inode; de_rec_len := u16 entry_size;
                  de_name_len := u8 (zlen name); de_file_type := dir_file_type actual_mode |} in
  let header := DirectoryEntry_write_to entry (zeros 8) in
  let padding := entry_size - 8 - zlen name in
  Ok (out ++ header ++ name ++ zeros padding, left_ - entry_size).
End Writer.

(** The loop of [parse_dir_entries] from [offset]. *)
Fixpoint parse_dir_entries_from (fuel : nat) (data : list Z) (offset : Z) : list (list Z * Z) :=
  match fuel with
  | O => []
  | S fuel =>
      if offset + 8 <=? zlen data then
        let entry := DirectoryEntry_read_from (drop (Z.to_nat offset) data) in
        if de_rec_len entry =? 0 then []
        else
          let rest := parse_dir_entries_from fuel data (offset + de_rec_len entry) in
          if negb (de_inode entry =? 0) && (0 <? de_name_len entry) then
            let name_start := offset + 8 in
            let name_end := name_start + de_name_len entry in
            if name_end <=? zlen data then
              (from_utf8_lossy (sub_bytes data name_start (name_end - name_start)), de_inode entry)
                :: rest
            else rest
          else rest
      else []
  end.

Definition parse_dir_entries (data : list Z) : list (list Z * Z) :=
  parse_dir_entries_from (length data) data 0.

(** ** Alignment *)

Lemma align_up_4 n : 0 <= n -> align_up n 4 = 4 * ((n + 3) / 4).
Proof.
  intros Hn. unfold align_up. replace (n + 4 - 1) with (n + 3) by lia.
  change (Z.lnot (4 - 1)) with (Z.lnot (Z.ones 2)).
  rewrite <- Z.ldiff_land, Z.ldiff_ones_r by lia.
  rewrite Z.shiftl_mul_pow2, Z.shiftr_div_pow2 by lia. change (2 ^ 2) with 4. lia.
Qed.

Lemma align_up_4_spec n : 0 <= n -> n <= align_up n 4 < n + 4 /\ align_up n 4 mod 4 = 0.
Proof.
  intros Hn. rewrite align_up_4 by lia.
  pose proof (Z.div_mod (n + 3) 4 ltac:(lia)). pose proof (Z.mod_pos_bound (n + 3) 4 ltac:(lia)).
  split; [lia|]. rewrite Z.mul_comm. apply Z.mod_mul. lia.
Qed.

(** ** Reading one entry *)

(** The bytes of an entry: header, name, zero padding up to [rec_len]. *)
Definition entry_bytes (name : list Z) (inode file_type rec_len : Z) : list Z :=
  DirectoryEntry_write_to
    {| de_inode := inode; de_rec_len := rec_len; de_name_len := zlen name;
       de_file_type := file_type |} (zeros 8)
  ++ name ++ zeros (rec_len - 8 - zlen name).

Section ReadEntry.
Implicit Types data pre : list Z.

Lemma entry_read_range data :
  Forall is_u8 data -> 8 <= zlen data -> DirectoryEntry_wf (DirectoryEntry_read_from data).
Proof. intros Hb Hl. exact (read_from_wf (A := DirectoryEntry) data Hb Hl). Qed.

(** The loop only looks forward: parsing [pre ++ data] past [pre] is parsing [data]. *)
Lemma parse_shift fuel pre data k :
  0 <= k -> Forall is_u8 data ->
  parse_dir_entries_from fuel (pre ++ data) (zlen pre + k) = parse_dir_entries_from fuel data k.
Proof.
  intros Hk Hb. revert k Hk. induction fuel as [|fuel IH]; intros k Hk; cbn [parse_dir_entries_from]; [done|].
  rewrite zlen_app. replace (zlen pre + k + 8 <=? zlen pre + zlen data) with (k + 8 <=? zlen data) by lia.
  destruct (Z.leb_spec (k + 8) (zlen data)) as [Hle|]; [|done].
  replace (drop (Z.to_nat (zlen pre + k)) (pre ++ data)) with (drop (Z.to_nat k) data).
  2:{ unfold zlen. replace (Z.to_nat (Z.of_nat (length pre) + k)) with (length pre + Z.to_nat k)%nat by lia.
      symmetry. apply drop_app_add. }
  assert (DirectoryEntry_wf (DirectoryEntry_read_from (drop (Z.to_nat k) data))) as Hwf.
  { apply entry_read_range; [by apply Forall_drop|]. unfold zlen in *. rewrite length_drop. lia. }
  set (e := DirectoryEntry_read_from _) in *. destruct Hwf as (_ & Hrec & Hname & _).
  unfold is_u16, is_u8 in *. rewrite <- !Z.add_assoc.
  rewrite (IH (k + de_rec_len e)) by lia.
  replace (zlen pre + (k + (8 + de_name_len e)) <=? zlen pre + zlen data)
    with (k + (8 + de_name_len e) <=? zlen data) by lia.
  rewrite sub_app_r by lia.
  by replace (zlen pre + (k + 8) - zlen pre) with (k + 8) by lia;
     replace (zlen pre + (k + (8 + de_name_len e)) - (zlen pre + (k + 8)))
       with (k + (8 + de_name_len e) - (k + 8)) by lia.
Qed.

(** Fuel beyond the number of bytes left changes nothing. *)
Lemma parse_fuel_mono data k f1 f2 :
  Forall is_u8 data -> 0 <= k ->
  zlen data - k <= Z.of_nat f1 -> zlen data - k <= Z.of_nat f2 ->
  parse_dir_entries_from f1 data k = parse_dir_entries_from f2 data k.
Proof.
  intros Hb. revert k f2. induction f1 as [|f1 IH]; intros k f2 Hk H1 H2.
  - destruct f2; cbn [parse_dir_entries_from]; [done|]. by replace (k + 8 <=? zlen data) with false by lia.
  - destruct f2 as [|f2]; cbn [parse_dir_entries_from].
    + by replace (k + 8 <=? zlen data) with false by lia.
    + destruct (Z.leb_spec (k + 8) (zlen data)) as [Hle|]; [|done].
      assert (DirectoryEntry_wf (DirectoryEntry_read_from (drop (Z.to_nat k) data))) as Hwf.
      { apply entry_read_range; [by apply Forall_drop|]. unfold zlen in *. rewrite length_drop. lia. }
      set (e := DirectoryEntry_read_from _) in *. destruct Hwf as (_ & Hrec & _).
      unfold is_u16 in Hrec. destruct (Z.eqb_spec (de_rec_len e) 0); [done|].
      by rewrite (IH _ f2) by lia.
Qed.
End ReadEntry.

(** ** One entry *)

Section OneEntry.
Implicit Types name rest : list Z.

Lemma header_read e rest :
  DirectoryEntry_wf e ->
  DirectoryEntry_read_from (DirectoryEntry_write_to e (zeros 8) ++ rest) = e.
Proof. intros Hwf. exact (read_write_app (A := DirectoryEntry) e rest Hwf). Qed.

Lemma zlen_header e : zlen (DirectoryEntry_write_to e (zeros 8)) = 8.
Proof. exact (zlen_write_to (A := DirectoryEntry) e (zeros 8)). Qed.

Lemma zlen_entry name inode ft rec :
  8 + zlen name <= rec -> zlen (entry_bytes name inode ft rec) = rec.
Proof.
  intros. unfold entry_bytes. rewrite !zlen_app, zlen_header, zlen_zeros; lia.
Qed.

Lemma header_range e : DirectoryEntry_wf e -> Forall is_u8 (DirectoryEntry_write_to e (zeros 8)).
Proof.
  intros (? & ? & ? & ?). apply put_fields_range; [by apply Forall_zeros|].
  unfold DirectoryEntry_fields.
  repeat (apply Forall_cons; [by eauto with ranges|]). apply Forall_nil.
Qed.

Lemma entry_range name inode ft rec :
  Forall is_u8 name -> is_u32 inode -> is_u8 ft -> is_u16 rec -> zlen name <= 255 ->
  Forall is_u8 (entry_bytes name inode ft rec).
Proof.
  intros. unfold entry_bytes. repeat (apply Forall_app; split); auto.
  - apply header_range. unfold DirectoryEntry_wf. simpl.
    pose proof (zlen_nonneg name). unfold is_u8. repeat split; try apply H0; try apply H1;
      try apply H2; lia.
  - by apply Forall_zeros.
Qed.

(** A live entry is returned and parsing goes on right after it. *)
Lemma parse_entry fuel name inode ft rec rest :
  Forall is_u8 name -> Forall is_u8 rest -> utf8 name -> 1 <= zlen name <= 255 ->
  is_u32 inode -> inode <> 0 -> is_u8 ft -> is_u16 rec -> 8 + zlen name <= rec ->
  parse_dir_entries_from (S fuel) (entry_bytes name inode ft rec ++ rest) 0
  = (name, inode) :: parse_dir_entries_from fuel rest 0.
Proof.
  intros Hn Hr Hu Hl Hi Hi0 Hft Hrec Hle. cbn [parse_dir_entries_from].
  rewrite drop_0, zlen_app, zlen_entry by lia. pose proof (zlen_nonneg rest).
  replace (0 + 8 <=? rec + zlen rest) with true by lia.
  set (e := {| de_inode := inode; de_rec_len := rec; de_name_len := zlen name; de_file_type := ft |}).
  assert (DirectoryEntry_wf e) as Hwf by (unfold is_u8, e in *; repeat split; simpl; try apply Hi; try apply Hrec; lia).
  replace (DirectoryEntry_read_from (entry_bytes name inode ft rec ++ rest)) with e.
  2:{ unfold entry_bytes. rewrite <- app_assoc. symmetry. by apply header_read. }
  unfold e. cbn [de_inode de_rec_len de_name_len]. rewrite !Z.add_0_l. unfold is_u16 in Hrec.
  replace (rec =? 0) with false by lia. replace (inode =? 0) with false by lia.
  replace (0 <? zlen name) with true by lia. cbn [negb andb].
  replace (8 + zlen name <=? rec + zlen rest) with true by lia.
  f_equal; [f_equal|].
  - replace (8 + zlen name - 8) with (zlen name) by lia.
    rewrite sub_app_l by (rewrite ?zlen_entry; lia). unfold entry_bytes.
    rewrite sub_app_r by (rewrite ?zlen_header; lia).
    rewrite zlen_header, Z.sub_diag, sub_app_l, sub_all by lia.
    by apply from_utf8_lossy_id.
  - rewrite <- (zlen_entry name inode ft rec) at 2 by lia.
    rewrite <- (Z.add_0_r (zlen (entry_bytes _ _ _ _))). by apply parse_shift.
Qed.

(** The terminator yields nothing and ends the block. *)
Lemma parse_terminator fuel rec : 8 <= rec < 65536 ->
  parse_dir_entries_from fuel (entry_bytes [] 0 0 rec) 0 = [].
Proof.
  intros Hr. destruct fuel as [|fuel]; [done|]. cbn [parse_dir_entries_from].
  rewrite drop_0. rewrite zlen_entry by (rewrite ?zlen_nil; lia).
  replace (0 + 8 <=? rec) with true by lia.
  set (e := {| de_inode := 0; de_rec_len := rec; de_name_len := 0; de_file_type := 0 |}).
  assert (DirectoryEntry_wf e) by (repeat split; simpl; lia).
  replace (DirectoryEntry_read_from (entry_bytes [] 0 0 rec)) with e
    by (symmetry; by apply header_read).
  unfold e. cbn [de_inode de_rec_len de_name_len]. rewrite !Z.add_0_l.
  replace (rec =? 0) with false by lia. destruct fuel; cbn [parse_dir_entries_from]; [done|].
  rewrite zlen_entry by (rewrite ?zlen_nil; lia). by replace (rec + 8 <=? rec) with false by lia.
Qed.
End OneEntry.

(** ** Whole directories *)

(** The arguments of one [write_dir_entry] call. *)
Record dirent : Type := mkDirent {
  d_name : list Z; d_inode : Z; d_mode : Z; d_link_inode : option Z; d_link_mode : option Z
}.

Definition dirent_ino (e : dirent) : Z := default (d_inode e) (d_link_inode e).
Definition dirent_mode (e : dirent) : Z := default (d_mode e) (d_link_mode e).

(** What the reader returns for an entry. *)
Definition dirent_view (e : dirent) : list Z * Z := (d_name e, dirent_ino e).

(** A name the formatter accepts, for a live inode. *)
Definition dirent_ok (e : dirent) : Prop :=
  Forall is_u8 (d_name e) /\ utf8 (d_name e) /\ 1 <= zlen (d_name e) <= EXT4_NAME_LEN /\
  is_u32 (dirent_ino e) /\ dirent_ino e <> 0.

Definition dirent_okb (e : dirent) : bool :=
  forallb (in_range 0 255) (d_name e) && utf8b (length (d_name e)) (d_name e) &&
  in_range 1 EXT4_NAME_LEN (zlen (d_name e)) &&
  in_range 0 u32_max (dirent_ino e) && negb (dirent_ino e =? 0).

Lemma in_range_spec lo hi b : in_range lo hi b = true -> lo <= b <= hi.
Proof. unfold in_range. lia. Qed.

Lemma dirent_okb_sound e : dirent_okb e = true -> dirent_ok e.
Proof.
  unfold dirent_okb. rewrite !andb_true_iff. intros ((((Hb & Hu) & Hl) & Hi) & H0).
  apply in_range_spec in Hl, Hi. unfold u32_max in *. split_and!; [|by eapply utf8b_sound|lia|lia| |lia].
  - apply list.Forall_forall. intros b Hin. rewrite forallb_forall in Hb.
    specialize (Hb b (proj1 (list_elem_of_In _ _) Hin)). apply in_range_spec in Hb. unfold is_u8. lia.
  - unfold is_u32. lia.
Qed.

Definition dirent_size (e : dirent) : Z := align_up (8 + zlen (d_name e)) 4.

(** Successive calls of [write_dir_entry], as [commit_directories] makes them. *)
Definition write_dir_entries {E} (block_size : Z) (es : list dirent) (st : list Z * Z) :
    res E (list Z * Z) :=
  foldM (fun st e => write_dir_entry (d_name e) (d_inode e) (d_mode e) (d_link_inode e)
                       (d_link_mode e) block_size st) st es.

Definition dirent_bytes (e : dirent) : list Z :=
  entry_bytes (d_name e) (dirent_ino e) (dir_file_type (dirent_mode e)) (dirent_size e).

Section Directories.
Context {E : Type} (block_size : Z).
Hypothesis (Hbs : 276 <= block_size < 65536).

Lemma dirent_size_bounds e :
  dirent_ok e -> 8 + zlen (d_name e) <= dirent_size e <= 264.
Proof.
  intros (_ & _ & Hn & _). unfold dirent_size, EXT4_NAME_LEN in *.
  rewrite align_up_4 by lia.
  pose proof (Z.div_mod (8 + zlen (d_name e) + 3) 4 ltac:(lia)).
  pose proof (Z.mod_pos_bound (8 + zlen (d_name e) + 3) 4 ltac:(lia)). lia.
Qed.

Lemma dir_file_type_range mode : is_u8 (dir_file_type mode).
Proof.
  unfold dir_file_type, FileType_from_mode, is_u8. repeat case_match; simpl; lia.
Qed.

Lemma zlen_dirent e : dirent_ok e -> zlen (dirent_bytes e) = dirent_size e.
Proof. intros Hok. apply zlen_entry. by apply dirent_size_bounds. Qed.

Lemma dirent_range e : dirent_ok e -> Forall is_u8 (dirent_bytes e).
Proof.
  intros Hok. pose proof (dirent_size_bounds e Hok). pose proof (zlen_nonneg (d_name e)).
  destruct Hok as (? & _ & ? & ? & _). unfold EXT4_NAME_LEN in *.
  apply entry_range; auto using dir_file_type_range; unfold is_u16; lia.
Qed.

Definition block_bytes (es : list dirent) (tail : list Z) : list Z :=
  concat (map dirent_bytes es) ++ tail.

Lemma block_bytes_range es tail :
  Forall dirent_ok es -> Forall is_u8 tail -> Forall is_u8 (block_bytes es tail).
Proof.
  intros He Ht. apply Forall_app. split; [|done].
  induction He; cbn [map concat]; [by apply Forall_nil|]. apply Forall_app. by split; [apply dirent_range|].
Qed.

Lemma block_bytes_snoc es e : block_bytes (es ++ [e]) [] = block_bytes es [] ++ dirent_bytes e.
Proof. unfold block_bytes. rewrite map_app, concat_app, !app_nil_r. cbn [map concat]. by rewrite app_nil_r. Qed.

(** A block of entries closed by a terminator parses back to its entries. *)
Lemma parse_block es n fuel :
  Forall dirent_ok es -> 8 <= n < 65536 ->
  (length es < fuel)%nat ->
  parse_dir_entries_from fuel (block_bytes es (entry_bytes [] 0 0 n)) 0 = map dirent_view es.
Proof.
  intros He Hn. revert fuel. induction He as [|e es He Hes IH]; intros fuel Hf.
  - by apply parse_terminator.
  - destruct fuel as [|fuel]; [simpl in Hf; lia|]. unfold block_bytes in *. cbn [map concat].
    rewrite <- app_assoc. pose proof (dirent_size_bounds e He).
    pose proof He as (H1 & H2 & H3 & H4 & H5). unfold dirent_bytes at 1.
    rewrite parse_entry; auto using dir_file_type_range.
    + rewrite IH by (simpl in Hf; lia). reflexivity.
    + apply (block_bytes_range es); [done|]. apply entry_range; try done; try apply Forall_nil;
      rewrite ?zlen_nil; unfold is_u16, is_u32; lia.
    + unfold is_u16. lia.
    + lia.
Qed.

Lemma dirents_count es : Forall dirent_ok es ->
  Z.of_nat (length es) <= zlen (block_bytes es []).
Proof.
  unfold block_bytes. rewrite app_nil_r. induction 1 as [|e es He _ IH]; cbn [map concat length]; [done|].
  rewrite zlen_app, zlen_dirent by done. pose proof (dirent_size_bounds e He).
  pose proof (zlen_nonneg (d_name e)). lia.
Qed.
End Directories.

(** Invariant of the writer: complete blocks that parse to the entries already
    sealed, then the entries of the current block, [left] bytes short of a full one. *)
Definition dir_inv (block_size : Z) (written : list dirent) (st : list Z * Z) : Prop :=
  exists blocks cur,
    st.1 = concat blocks ++ block_bytes cur [] /\
    Forall (fun b => zlen b = block_size) blocks /\
    concat (map parse_dir_entries blocks) ++ map dirent_view cur = map dirent_view written /\
    Forall dirent_ok cur /\
    zlen (block_bytes cur []) + st.2 = block_size /\
    12 <= st.2 /\
    (length blocks + (if (st.2 <? block_size)%Z then 1 else 0) <= length written)%nat.

Section DirWriter.
Context {E : Type} (block_size : Z).
Hypothesis (Hbs : 276 <= block_size < 65536).

Lemma dir_inv_init : dir_inv block_size [] ([], block_size).
Proof.
  exists [], []. simpl. rewrite Z.ltb_irrefl. repeat split; auto using Forall_nil; unfold zlen; simpl; lia.
Qed.

(** Closing the current block seals its entries. *)
Lemma finish_inv written st :
  dir_inv block_size written st ->
  exists blocks, finish_dir_entry_block (E := E) block_size st = Ok (concat blocks, block_size) /\
    Forall (fun b => zlen b = block_size) blocks /\
    concat (map parse_dir_entries blocks) = map dirent_view written /\
    (1 <= length blocks <= length written + (if (st.2 <? block_size)%Z then 0 else 1))%nat.
Proof.
  destruct st as [out left_]. intros (blocks & cur & Hout & Hbl & Hv & Hcur & Hlen & Hleft & Hfew).
  simpl in *. subst out. pose proof (zlen_nonneg (block_bytes cur [])).
  exists (blocks ++ [block_bytes cur (entry_bytes [] 0 0 left_)]).
  replace (left_ <=? 0) with false by lia. replace (left_ <? 8) with false by lia.
  wrap_small. unfold block_bytes in *. rewrite app_nil_r in *.
  assert (zlen (concat (map dirent_bytes cur) ++ entry_bytes [] 0 0 left_) = block_size) as Hb.
  { rewrite zlen_app, zlen_entry; rewrite ?zlen_nil; lia. }
  split_and!.
  - rewrite concat_app. cbn [concat]. rewrite app_nil_r, <- !app_assoc. unfold entry_bytes.
    change (zlen []) with 0. by rewrite Z.sub_0_r.
  - apply Forall_app. split; [done|]. by apply Forall_cons; [|apply Forall_nil].
  - rewrite map_app, concat_app, <- Hv. f_equal. cbn [map concat]. rewrite app_nil_r.
    apply parse_block; [done|lia|].
    pose proof (dirents_count cur Hcur) as Hc. unfold block_bytes in Hc. rewrite app_nil_r in Hc.
    unfold zlen in *. lia.
  - rewrite length_app. cbn [length]. lia.
  - rewrite length_app. cbn [length]. destruct (left_ <? block_size); lia.
Qed.

Lemma write_entry_inv written st e :
  dir_inv block_size written st -> dirent_ok e ->
  exists st',
    write_dir_entry (E := E) (d_name e) (d_inode e) (d_mode e) (d_link_inode e) (d_link_mode e)
      block_size st = Ok st' /\ dir_inv block_size (written ++ [e]) st'.
Proof.
  intros Hinv He. pose proof (dirent_size_bounds e He) as Hsz.
  pose proof (zlen_nonneg (d_name e)).
  assert (exists st1, (if u64 st.2 <? dirent_size e + 12
             then finish_dir_entry_block (E := E) block_size st else Ok st) = Ok st1 /\
           dir_inv block_size written st1 /\ dirent_size e + 12 <= st1.2) as (st1 & E1 & Hinv1 & Hroom).
  { pose proof Hinv as (blocks & cur & _ & _ & _ & _ & Hlen & Hleft & _).
    pose proof (zlen_nonneg (block_bytes cur [])). wrap_small.
    destruct (Z.ltb_spec st.2 (dirent_size e + 12)) as [Hlt|Hge].
    - destruct (finish_inv written st Hinv) as (bl & -> & Hbl & Hv & Hfew).
      eexists. split; [reflexivity|]. split; [|simpl; lia].
      exists bl, []. simpl. rewrite !app_nil_r, Z.ltb_irrefl. replace (st.2 <? block_size) with true in Hfew by lia.
      repeat split; auto using Forall_nil; unfold zlen; simpl; lia.
    - exists st. done. }
  unfold write_dir_entry. fold (dirent_size e). rewrite E1. destruct st1 as [out left_].
  destruct Hinv1 as (blocks & cur & Hout & Hbl & Hv & Hcur & Hlen & Hleft & Hfew). simpl in *.
  eexists. split; [reflexivity|]. exists blocks, (cur ++ [e]). simpl.
  pose proof He as (_ & _ & Hn & _). unfold EXT4_NAME_LEN in Hn. wrap_small.
  rewrite block_bytes_snoc, zlen_app, zlen_dirent by done. split_and!; [|done| | |lia|lia|].
  - rewrite Hout, <- app_assoc. f_equal.
  - rewrite !map_app, app_assoc. by rewrite Hv.
  - apply Forall_app. split; [done|]. by apply Forall_cons; [|apply Forall_nil].
  - rewrite length_app. cbn [length]. destruct (left_ <? block_size), (_ <? block_size); lia.
Qed.

Lemma write_entries_inv es : forall written st,
  dir_inv block_size written st -> Forall dirent_ok es ->
  exists st', write_dir_entries (E := E) block_size es st = Ok st' /\
    dir_inv block_size (written ++ es) st'.
Proof.
  induction es as [|e es IH]; intros written st Hinv Hes.
  - exists st. by rewrite app_nil_r.
  - apply Forall_cons_1 in Hes as [He Hes].
    destruct (write_entry_inv written st e Hinv He) as (st1 & E1 & Hinv1).
    destruct (IH _ st1 Hinv1 Hes) as (st2 & E2 & Hinv2).
    exists st2. unfold write_dir_entries in *. cbn [foldM]. rewrite E1.
    split; [exact E2|]. by rewrite cons_middle, app_assoc.
Qed.
End DirWriter.

(** ** Properties *)

(** C15: For every block size the writer supports and every list of entries with
    valid names and live inodes, [write_dir_entry] on each entry followed by
    [finish_dir_entry_block] succeeds; the output is a sequence of blocks of
    exactly [block_size] bytes, so no entry straddles a block boundary; and
    [parse_dir_entries] over those blocks returns every entry once, in order,
    with the inode of its link target where it has one. *)
Theorem dir_roundtrip {E} (block_size : Z) (es : list dirent)
    (Hbs : 276 <= block_size < 65536) (Hes : Forall dirent_ok es) :
  exists blocks,
    (st ← write_dir_entries (E := E) block_size es ([], block_size);
     finish_dir_entry_block block_size st) = Ok (concat blocks, block_size) /\
    Forall (fun b => zlen b = block_size) blocks /\
    concat (map parse_dir_entries blocks) = map dirent_view es.
Proof.
  destruct (write_entries_inv (E := E) block_size Hbs es [] _ (dir_inv_init block_size Hbs) Hes)
    as (st & -> & Hinv).
  destruct (finish_inv (E := E) block_size Hbs es st Hinv) as (blocks & Hrun & Hb & Hv & _). by exists blocks.
Qed.

Definition sample_dirents : list dirent :=
  [ {| d_name := [46]; d_inode := 2; d_mode := 0x41ED; d_link_inode := None; d_link_mode := None |};
    {| d_name := [46; 46]; d_inode := 2; d_mode := 0x41ED; d_link_inode := None;
       d_link_mode := None |};
    {| d_name := [195; 169; 46; 99]; d_inode := 0; d_mode := 0x81A4; d_link_inode := Some 12;
       d_link_mode := Some 0xA1FF |} ].

Lemma dir_roundtrip_witness :
  exists blocks,
    (st ← write_dir_entries (E := unit) 4096 sample_dirents ([], 4096);
     finish_dir_entry_block 4096 st) = Ok (concat blocks, 4096) /\
    Forall (fun b => zlen b = 4096) blocks /\
    concat (map parse_dir_entries blocks) = [([46], 2); ([46; 46], 2); ([195; 169; 46; 99], 12)].
Proof.
  apply (dir_roundtrip 4096 sample_dirents); [lia|].
  apply list.Forall_forall. intros e He. apply dirent_okb_sound.
  by apply (proj1 (forallb_forall dirent_okb sample_dirents) eq_refl), list_elem_of_In.
Defined.
