(* ===== verification/FileTree.v ===== *)
(** The in-memory tree of the formatter: [common/disk-image/src/ext4/file_tree.rs].

    Nodes live in a vector and refer to each other by index, as in the code;
    an index out of range panics.  [tree_wf] is the shape every operation
    keeps: a parent has a smaller index than its children, which makes the
    walk of [node_path] end. *)

From S2P Require Import Prelude Bytes RustPath.

(** ** Data *)

Record BlockRange : Type := mkBlockRange { br_start : Z; br_end : Z }.

Record FileTreeNode : Type := mkFileTreeNode {
  n_inode : Z;
  n_name : list Z;
  n_children : list nat;
  n_parent : option nat;
  n_blocks : option BlockRange;
  n_additional_blocks : list BlockRange;
  n_link : option Z
}.

Record FileTree : Type := mkFileTree { nodes : list FileTreeNode; root : nat }.

Definition set_n_children (n : FileTreeNode) (c : list nat) : FileTreeNode :=
  {| n_inode := n_inode n; n_name := n_name n; n_children := c; n_parent := n_parent n;
     n_blocks := n_blocks n; n_additional_blocks := n_additional_blocks n; n_link := n_link n |}.

Definition set_n_parent (n : FileTreeNode) (p : option nat) : FileTreeNode :=
  {| n_inode := n_inode n; n_name := n_name n; n_children := n_children n; n_parent := p;
     n_blocks := n_blocks n; n_additional_blocks := n_additional_blocks n; n_link := n_link n |}.

(** ** Operations *)

Definition FileTree_new (root_inode : Z) (name : list Z) : FileTree :=
  {| nodes := [ {| n_inode := root_inode; n_name := name; n_children := []; n_parent := None;
                   n_blocks := None; n_additional_blocks := []; n_link := None |} ];
     root := 0 |}.

Definition node {E} (t : FileTree) (i : nat) : res E FileTreeNode := or_panic (nodes t !! i).

(** [children.iter().find(..)] by name. *)
Fixpoint find_child {E} (t : FileTree) (name : list Z) (children : list nat) : res E (option nat) :=
  match children with
  | [] => Ok None
  | c :: cs =>
      n ← node t c;
      if bool_decide (n_name n = name) then Ok (Some c) else find_child t name cs
  end.

Fixpoint lookup_from {E} (t : FileTree) (current : nat) (comps : list (list Z)) :
    res E (option nat) :=
  match comps with
  | [] => Ok (Some current)
  | name :: comps =>
      if bool_decide (name = ROOT) || bool_decide (name = []) then lookup_from t current comps
      else
        n ← node t current;
        found ← find_child t name (n_children n);
        match found with
        | Some c => lookup_from t c comps
        | None => Ok None
        end
  end.

Definition lookup {E} (t : FileTree) (path : list Z) : res E (option nat) :=
  lookup_from t (root t) (components path).

Definition add_child {E} (t : FileTree) (parent : nat) (n : FileTreeNode) : res E (FileTree * nat) :=
  let idx := length (nodes t) in
  let ns := nodes t ++ [set_n_parent n (Some parent)] in
  p ← or_panic (ns !! parent);
  Ok ({| nodes := <[parent := set_n_children p (n_children p ++ [idx])]> ns; root := root t |}, idx).

(** [children.iter().position(..)] by name. *)
Fixpoint position_child {E} (t : FileTree) (name : list Z) (children : list nat) :
    res E (option nat) :=
  match children with
  | [] => Ok None
  | c :: cs =>
      n ← node t c;
      if bool_decide (n_name n = name) then Ok (Some 0%nat)
      else pos ← position_child t name cs; Ok (option_map S pos)
  end.

Definition remove_child {E} (t : FileTree) (parent : nat) (name : list Z) : res E FileTree :=
  p ← node t parent;
  pos ← position_child t name (n_children p);
  match pos with
  | Some pos =>
      Ok {| nodes := <[parent := set_n_children p (delete pos (n_children p))]> (nodes t);
            root := root t |}
  | None => Ok t
  end.

(** The loop of [node_path] over the parent chain; the parts come out in the
    order the code reverses them into. *)
Fixpoint node_parts {E} (fuel : nat) (t : FileTree) (idx : nat) (parts : list (list Z)) :
    res E (list (list Z)) :=
  match fuel with
  | O => Panic
  | S fuel =>
      n ← node t idx;
      match n_parent n with
      | Some p => node_parts fuel t p (n_name n :: parts)
      | None => Ok (n_name n :: parts)
      end
  end.

Definition node_path {E} (t : FileTree) (idx : nat) : res E (list Z) :=
  parts ← node_parts (S (length (nodes t))) t idx [];
  Ok (fold_left path_push parts []).

(** ** Invariant *)

Definition child_of (t : FileTree) (p c : nat) : Prop :=
  exists n, nodes t !! p = Some n /\ c ∈ n_children n.

Record tree_wf (t : FileTree) : Prop := {
  wf_root : root t = 0%nat /\ exists n, nodes t !! 0%nat = Some n /\ n_parent n = None;
  wf_parent : forall i n, nodes t !! i = Some n -> i <> 0%nat ->
    exists p, n_parent n = Some p /\ (p < i)%nat;
  wf_child : forall p c, child_of t p c ->
    exists n, nodes t !! c = Some n /\ n_parent n = Some p /\ (p < c)%nat;
  wf_nodup : forall i n, nodes t !! i = Some n -> NoDup (n_children n)
}.

(** No two children of a node share a name. *)
Definition names_unique (t : FileTree) : Prop :=
  forall p c1 c2 n1 n2, child_of t p c1 -> child_of t p c2 ->
    nodes t !! c1 = Some n1 -> nodes t !! c2 = Some n2 -> n_name n1 = n_name n2 -> c1 = c2.

(** Reachable from the root through child lists. *)
Inductive attached (t : FileTree) : nat -> Prop :=
| attached_root : attached t (root t)
| attached_child p c : attached t p -> child_of t p c -> attached t c.

Section Wf.
Context {E : Type}.
Implicit Types t : FileTree.

Lemma FileTree_new_node ino name i n :
  nodes (FileTree_new ino name) !! i = Some n ->
  i = 0%nat /\ n_children n = [] /\ n_parent n = None.
Proof. destruct i as [|[|i]]; [|done..]. by intros [= <-]. Qed.

Lemma FileTree_new_wf ino name : tree_wf (FileTree_new ino name).
Proof.
  split.
  - split; [done|]. by eexists.
  - intros i n Hn Hi. by apply FileTree_new_node in Hn as (? & _).
  - intros p c (n & Hn & Hc). apply FileTree_new_node in Hn as (_ & Hn & _).
    rewrite Hn in Hc. by apply elem_of_nil in Hc.
  - intros i n Hn. apply FileTree_new_node in Hn as (_ & -> & _). apply NoDup_nil_2.
Qed.

Lemma new_names_unique ino name : names_unique (FileTree_new ino name).
Proof.
  intros p c1 c2 n1 n2 (n & Hn & Hc). apply FileTree_new_node in Hn as (_ & Hn & _).
  rewrite Hn in Hc. by apply elem_of_nil in Hc.
Qed.

(** The nodes of the tree after [add_child]. *)
Lemma add_child_ok t p n np :
  nodes t !! p = Some np ->
  add_child (E := E) t p n =
    Ok ({| nodes := <[p := set_n_children np (n_children np ++ [length (nodes t)])]> (nodes t)
                    ++ [set_n_parent n (Some p)]; root := root t |}, length (nodes t)).
Proof.
  intros Hp. unfold add_child. rewrite lookup_app_l by (by eapply lookup_lt_Some).
  rewrite Hp. simpl. rewrite insert_app_l by (by eapply lookup_lt_Some). done.
Qed.

Lemma lookup_added (ns : list FileTreeNode) p np' n i x :
  (p < length ns)%nat ->
  (<[p := np']> ns ++ [n]) !! i = Some x <->
  (i = p /\ x = np') \/ (i = length ns /\ x = n) \/ (i <> p /\ (i < length ns)%nat /\ ns !! i = Some x).
Proof.
  intros Hp. destruct (decide (i < length ns)%nat) as [Hi|Hi].
  - rewrite lookup_app_l by (by rewrite length_insert). destruct (decide (i = p)) as [->|Hne].
    + rewrite list_lookup_insert_eq by done. split; [intros [= <-]; by left|].
      by intros [(_ & ->)|[(-> & _)|(? & _)]]; [|lia|].
    + rewrite list_lookup_insert_ne by done. split; [by right; right|].
      by intros [(-> & _)|[(-> & _)|(_ & _ & ?)]]; [|lia|].
  - rewrite lookup_app_r by (rewrite length_insert; lia). rewrite length_insert.
    destruct (decide (i = length ns)) as [->|Hne].
    + rewrite Nat.sub_diag. simpl. split; [intros [= <-]; by right; left|].
      by intros [(? & _)|[(_ & ->)|(_ & ? & _)]]; [lia| |lia].
    + rewrite lookup_ge_None_2 by (simpl; lia). split; [done|].
      intros [(? & _)|[(? & _)|(_ & ? & _)]]; lia.
Qed.

Lemma child_of_lt t p c : tree_wf t -> child_of t p c -> (p < c < length (nodes t))%nat.
Proof.
  intros Hwf Hc. destruct (wf_child t Hwf p c Hc) as (n & Hn & _ & Hlt).
  apply lookup_lt_Some in Hn. lia.
Qed.

(** The tree after a child was added under [p]. *)
Definition added t p np n : FileTree :=
  {| nodes := <[p := set_n_children np (n_children np ++ [length (nodes t)])]> (nodes t)
              ++ [set_n_parent n (Some p)]; root := root t |}.

Section Added.
Context (t : FileTree) (p : nat) (np n : FileTreeNode).
Hypotheses (Hwf : tree_wf t) (Hp : nodes t !! p = Some np) (Hn : n_children n = []).

Lemma p_lt : (p < length (nodes t))%nat.
Proof. by eapply lookup_lt_Some. Qed.

Lemma child_of_added q c :
  child_of (added t p np n) q c <-> (q = p /\ c = length (nodes t)) \/ child_of t q c.
Proof.
  pose proof p_lt. split.
  - intros (x & Hx & Hc). apply lookup_added in Hx as [(-> & ->)|[(-> & ->)|(Hne & Hq & Hx)]]; [..|done].
    + simpl in Hc. apply elem_of_app in Hc as [Hc|Hc]; [right; by exists np|].
      apply list_elem_of_singleton in Hc as ->. by left.
    + simpl in Hc. rewrite Hn in Hc. by apply elem_of_nil in Hc.
    + right. by exists x.
  - assert (child_of (added t p np n) p (length (nodes t))) as Hnew.
    { eexists. split; [apply lookup_added; [done|by left]|]. simpl. apply elem_of_app. right.
      by apply list_elem_of_singleton. }
    intros [(-> & ->)|(x & Hx & Hc)]; [done|]. destruct (decide (q = p)) as [->|Hne].
    + eexists. split; [apply lookup_added; [done|by left]|]. simpl. apply elem_of_app. left. congruence.
    + exists x. split; [|done]. apply lookup_added; [done|]. right. right.
      split; [done|]. split; [|done]. by eapply lookup_lt_Some.
Qed.

(** Every old node keeps its fields, children apart; the new one is last. *)
Lemma added_old i x :
  nodes t !! i = Some x ->
  exists y, nodes (added t p np n) !! i = Some y /\ n_name y = n_name x /\ n_parent y = n_parent x /\
    n_inode y = n_inode x /\ n_link y = n_link x /\
    n_children y = if decide (i = p) then n_children x ++ [length (nodes t)] else n_children x.
Proof.
  intros Hx. pose proof p_lt. destruct (decide (i = p)) as [->|Hne].
  - eexists. split; [apply lookup_added; [done|by left]|]. simpl. by simplify_eq.
  - exists x. split; [|done]. apply lookup_added; [done|]. right. right.
    split; [done|]. split; [by eapply lookup_lt_Some|done].
Qed.

Lemma added_new : nodes (added t p np n) !! length (nodes t) = Some (set_n_parent n (Some p)).
Proof. pose proof p_lt. apply lookup_added; [done|]. by right; left. Qed.

Lemma added_wf : tree_wf (added t p np n).
Proof.
  pose proof p_lt as Hlt. split.
  - destruct (wf_root t Hwf) as (Hr & n0 & H0 & Hpar). split; [done|].
    destruct (added_old 0 n0 H0) as (y & Hy & _ & Hpy & _). exists y. by rewrite Hpy.
  - intros i x Hx Hi. apply lookup_added in Hx as [(-> & ->)|[(-> & ->)|(Hne & Hq & Hx)]]; [..|done].
    + exact (wf_parent t Hwf p np Hp Hi).
    + by exists p.
    + exact (wf_parent t Hwf i x Hx Hi).
  - intros q c Hc. apply child_of_added in Hc as [(-> & ->)|Hc].
    + exists (set_n_parent n (Some p)). by split; [apply added_new|].
    + destruct (wf_child t Hwf q c Hc) as (x & Hx & Hpx & Hqc).
      destruct (added_old c x Hx) as (y & Hy & _ & Hpy & _). exists y. by rewrite Hpy.
  - intros i x Hx. apply lookup_added in Hx as [(-> & ->)|[(-> & ->)|(Hne & Hq & Hx)]]; [..|done]; simpl.
    + apply list.NoDup_app. split; [exact (wf_nodup t Hwf p np Hp)|]. split; [|apply NoDup_singleton].
      intros c Hc Hc'. apply list_elem_of_singleton in Hc' as ->.
      pose proof (child_of_lt t p (length (nodes t)) Hwf ltac:(by exists np)). lia.
    + rewrite Hn. apply NoDup_nil_2.
    + exact (wf_nodup t Hwf i x Hx).
Qed.

Lemma added_names_unique :
  names_unique t ->
  (forall c x, child_of t p c -> nodes t !! c = Some x -> n_name x <> n_name n) ->
  names_unique (added t p np n).
Proof.
  intros Hu Hfresh q c1 c2 y1 y2 H1 H2 Hy1 Hy2 Heq.
  assert (forall q c y, child_of t q c -> nodes (added t p np n) !! c = Some y ->
            exists x, nodes t !! c = Some x /\ n_name x = n_name y) as Hold.
  { intros q' c y Hc Hy. destruct (wf_child t Hwf q' c Hc) as (x & Hx & _).
    destruct (added_old c x Hx) as (y' & Hy' & Hn' & _). exists x. split; [done|congruence]. }
  apply child_of_added in H1 as [(-> & ->)|H1]; apply child_of_added in H2 as [(? & ->)|H2]; [done|..].
  - destruct (Hold _ _ _ H2 Hy2) as (x & Hx & Hxn). rewrite added_new in Hy1. simplify_eq.
    exfalso. apply (Hfresh c2 x); [done..|]. simpl in *. congruence.
  - destruct (Hold _ _ _ H1 Hy1) as (x & Hx & Hxn). rewrite added_new in Hy2. simplify_eq.
    exfalso. apply (Hfresh c1 x); [done..|]. simpl in *. congruence.
  - destruct (Hold _ _ _ H1 Hy1) as (x1 & ? & ?). destruct (Hold _ _ _ H2 Hy2) as (x2 & ? & ?).
    eapply (Hu q c1 c2); eauto. congruence.
Qed.
End Added.
End Wf.

(** ** Lookup

    [walk t i names j] is the relation the loop of [lookup] computes: following
    [names] from node [i] through child lists ends in [j]. *)

Inductive walk (t : FileTree) : nat -> list (list Z) -> nat -> Prop :=
| walk_nil i : walk t i [] i
| walk_cons i c n rest j :
    child_of t i c -> nodes t !! c = Some n -> walk t c rest j -> walk t i (n_name n :: rest) j.

(** The components [lookup] does not skip. *)
Definition named (comps : list (list Z)) : list (list Z) :=
  List.filter (fun c => negb (bool_decide (c = ROOT) || bool_decide (c = []))) comps.

Section Lookup.
Context {E : Type} (t : FileTree).
Hypotheses (Hwf : tree_wf t).

Lemma child_node p c : child_of t p c -> exists n, nodes t !! c = Some n.
Proof. intros Hc. destruct (wf_child t Hwf p c Hc) as (n & Hn & _). eauto. Qed.

(** The search through a child list finds the first child of that name. *)
Lemma find_child_spec name cs :
  (forall c, c ∈ cs -> exists n, nodes t !! c = Some n) ->
  (exists c n, find_child (E := E) t name cs = Ok (Some c) /\ c ∈ cs /\
     nodes t !! c = Some n /\ n_name n = name) \/
  (find_child (E := E) t name cs = Ok None /\
     forall c n, c ∈ cs -> nodes t !! c = Some n -> n_name n <> name).
Proof.
  induction cs as [|c cs IH]; intros Hcs; simpl.
  - right. split; [done|]. intros c n Hc. by apply elem_of_nil in Hc.
  - destruct (Hcs c ltac:(by left)) as (n & Hn). unfold node. rewrite Hn. simpl.
    case_bool_decide as Hname; [left; exists c, n; repeat split; [by left|done|done]|].
    destruct IH as [(c' & n' & Hf & Hin & Hn')|(Hf & Hno)]; [by intros; apply Hcs; right| |].
    + left. exists c', n'. split; [done|]. split; [by right|done].
    + right. split; [done|]. intros c' n' Hc'. apply elem_of_cons in Hc' as [->|Hc']; [congruence|].
      by apply Hno.
Qed.

Lemma walk_valid i names j :
  walk t i names j -> (exists n, nodes t !! i = Some n) -> exists n, nodes t !! j = Some n.
Proof. induction 1; eauto. Qed.

(** Under unique sibling names [lookup_from] decides [walk]; it never panics. *)
Lemma lookup_from_spec (Hu : names_unique t) comps : forall i,
  (exists n, nodes t !! i = Some n) ->
  exists o, lookup_from (E := E) t i comps = Ok o /\
    forall j, o = Some j <-> walk t i (named comps) j.
Proof.
  induction comps as [|name comps IH]; intros i Hi; simpl.
  - exists (Some i). split; [done|]. intros j. split; [intros [= <-]; constructor|].
    by inversion 1.
  - destruct (bool_decide (name = ROOT) || bool_decide (name = [])); simpl; [by apply IH|].
    destruct Hi as (n & Hn). unfold node. rewrite Hn. simpl.
    assert (forall c, c ∈ n_children n -> child_of t i c) as Hch by (intros c Hc; by exists n).
    destruct (find_child_spec name (n_children n)) as [(c & nc & Hf & Hc & Hnc & Hname)|(Hf & Hno)].
    { intros c Hc. by apply (child_node i), Hch. }
    all: rewrite Hf; simpl.
    + destruct (IH c) as (o & Ho & Hj); [eauto|]. exists o. split; [done|]. intros j. rewrite Hj.
      split; [intros Hw; subst name; econstructor; eauto|]. inversion 1 as [|? c' n' ? ? Hc' Hn' Hw]; subst.
      by rewrite (Hu i c c' nc n') by eauto.
    + exists None. split; [done|]. intros j. split; [done|].
      inversion 1 as [|? c' n' ? ? Hc' Hn' Hw]; subst. destruct Hc' as (n0 & Hn0 & Hc').
      exfalso. apply (Hno c' n'); congruence.
Qed.

Lemma root_valid : exists n, nodes t !! root t = Some n.
Proof. destruct (wf_root t Hwf) as (-> & n & Hn & _). eauto. Qed.

Lemma lookup_spec (Hu : names_unique t) path :
  exists o, lookup (E := E) t path = Ok o /\
    forall j, o = Some j <-> walk t (root t) (named (components path)) j.
Proof. apply lookup_from_spec; [done|apply root_valid]. Qed.

Lemma walk_snoc i names p c n :
  walk t i names p -> child_of t p c -> nodes t !! c = Some n -> walk t i (names ++ [n_name n]) c.
Proof.
  induction 1; intros Hc Hn; simpl; econstructor; eauto. constructor.
Qed.

Lemma walk_functional (Hu : names_unique t) i names j1 : walk t i names j1 -> forall j2, walk t i names j2 -> j1 = j2.
Proof.
  induction 1 as [|i c n rest j1 Hc Hn Hw IH]; intros j2 H2; [by inversion H2|].
  inversion H2 as [|? c' n' ? ? Hc' Hn' Hw' Heq]; subst. apply IH.
  by rewrite (Hu i c c' n n').
Qed.
End Lookup.

(** Walks in the tree after an insertion: the old ones, and those that end in
    the new node. *)
Lemma walk_added t p np n (Hwf : tree_wf t) (Hp : nodes t !! p = Some np) (Hn : n_children n = []) i names j :
  i <> length (nodes t) ->
  walk (added t p np n) i names j <->
  walk t i names j \/
  (j = length (nodes t) /\ exists pre, names = pre ++ [n_name n] /\ walk t i pre p).
Proof.
  revert i. induction names as [|name names IH]; intros i Hi.
  - split; [inversion 1; left; constructor|]. intros [Hw|(_ & [|] & ? & _)]; [|done..].
    inversion Hw. constructor.
  - split.
    + inversion 1 as [|? c x ? ? Hc Hx Hw]; subst.
      apply (child_of_added t p np n Hp Hn) in Hc as [(-> & ->)|Hc].
      * rewrite (added_new t p np n Hp) in Hx. injection Hx as <-. right.
        inversion Hw as [|? c' ? ? ? Hc']; subst; [|].
        -- split; [done|]. exists []. split; [done|constructor].
        -- apply (child_of_added t p np n Hp Hn) in Hc' as [(He & _)|Hc'].
           ++ pose proof (p_lt t p np Hp). lia.
           ++ pose proof (child_of_lt t _ _ Hwf Hc'). lia.
      * pose proof (child_of_lt t _ _ Hwf Hc). destruct (wf_child t Hwf i c Hc) as (y & Hy & _).
        destruct (added_old t p np n Hp c y Hy) as (x' & Hx' & Hname & _). simplify_eq.
        apply IH in Hw as [Hw|(-> & pre & -> & Hw)]; [|rewrite Hname..|lia].
        -- left. rewrite Hname. econstructor; eauto.
        -- right. split; [done|]. exists (n_name y :: pre). split; [done|]. econstructor; eauto.
    + intros Hcase.
      assert (forall c x rest, child_of t i c -> nodes t !! c = Some x ->
                walk (added t p np n) c rest j -> walk (added t p np n) i (n_name x :: rest) j) as Hstep.
      { intros c x rest Hc Hx Hw. destruct (added_old t p np n Hp c x Hx) as (y & Hy & Hname & _).
        rewrite <- Hname. econstructor; [|exact Hy|exact Hw]. apply child_of_added; auto. }
      destruct Hcase as [Hw|(-> & pre & Heq & Hw)].
      * inversion Hw as [|? c x ? ? Hc Hx Hw']; subst. eapply Hstep; eauto.
        apply IH; [|by left]. pose proof (child_of_lt t _ _ Hwf Hc). lia.
      * destruct pre as [|name0 pre]; injection Heq as -> ->.
        -- inversion Hw; subst. rewrite <- (eq_refl : n_name (set_n_parent n (Some p)) = n_name n).
           econstructor; [|by apply added_new|constructor]. apply child_of_added; auto.
        -- inversion Hw as [|? c x ? ? Hc Hx Hw']; subst. eapply Hstep; eauto.
           apply IH; [|right; eauto]. pose proof (child_of_lt t _ _ Hwf Hc). lia.
Qed.

(** ** Removal *)

Section Removal.
Context {E : Type} (t : FileTree).
Hypotheses (Hwf : tree_wf t) (Hu : names_unique t).

Lemma position_child_spec name cs :
  (forall c, c ∈ cs -> exists n, nodes t !! c = Some n) ->
  (exists k c n, position_child (E := E) t name cs = Ok (Some k) /\ cs !! k = Some c /\
     nodes t !! c = Some n /\ n_name n = name) \/
  (position_child (E := E) t name cs = Ok None /\
     forall c n, c ∈ cs -> nodes t !! c = Some n -> n_name n <> name).
Proof.
  induction cs as [|c cs IH]; intros Hcs; simpl.
  - right. split; [done|]. intros c n Hc. by apply elem_of_nil in Hc.
  - destruct (Hcs c ltac:(by left)) as (n & Hn). unfold node. rewrite Hn. simpl.
    case_bool_decide as Hname; [left; by exists 0%nat, c, n|].
    destruct IH as [(k & c' & n' & Hf & Hin & Hn')|(Hf & Hno)]; [by intros; apply Hcs; right| |].
    + left. exists (S k), c', n'. by rewrite Hf.
    + right. rewrite Hf. split; [done|]. intros c' n' Hc'.
      apply elem_of_cons in Hc' as [->|Hc']; [congruence|]. by apply Hno.
Qed.

Lemma NoDup_delete (cs : list nat) k c d :
  NoDup cs -> cs !! k = Some c -> NoDup (delete k cs) /\ (d ∈ delete k cs <-> d ∈ cs /\ d <> c).
Proof.
  intros Hnd Hk. pose proof (delete_Permutation cs k c Hk) as Hp.
  rewrite Hp in Hnd. apply list.NoDup_cons in Hnd as [Hni Hnd]. split; [done|].
  assert (d ∈ cs <-> d = c \/ d ∈ delete k cs) as -> by (rewrite <- elem_of_cons; by rewrite <- Hp).
  split; [intros Hd; split; [by right|congruence]|].
  by intros [[->|Hd] Hne].
Qed.

(** What [remove_child] leaves: the same nodes, the edge to [name] cut. *)
Lemma remove_child_spec p np name :
  nodes t !! p = Some np ->
  exists t', remove_child (E := E) t p name = Ok t' /\ root t' = root t /\
    length (nodes t') = length (nodes t) /\
    (forall i x, nodes t !! i = Some x -> exists y, nodes t' !! i = Some y /\ n_name y = n_name x /\
       n_parent y = n_parent x /\ NoDup (n_children y)) /\
    (forall q c, child_of t' q c <->
       child_of t q c /\ ~ (q = p /\ exists x, nodes t !! c = Some x /\ n_name x = name)).
Proof.
  intros Hp. unfold remove_child, node. rewrite Hp. simpl.
  assert (forall c, c ∈ n_children np -> child_of t p c) as Hch by (intros c Hc; by exists np).
  destruct (position_child_spec name (n_children np)) as [(k & c & nc & Hf & Hk & Hnc & Hname)|(Hf & Hno)].
  { intros c Hc. by apply (child_node t Hwf p), Hch. }
  all: rewrite Hf; simpl; eexists; (split; [done|]); simpl.
  - pose proof (wf_nodup t Hwf p np Hp) as Hnd. split; [done|]. split; [by rewrite length_insert|]. split.
    + intros i x Hx. destruct (decide (i = p)) as [->|Hne].
      * eexists. rewrite list_lookup_insert_eq by (by eapply lookup_lt_Some). split; [done|].
        simplify_eq. simpl. repeat split. by apply (NoDup_delete _ k c 0%nat).
      * exists x. rewrite list_lookup_insert_ne by done. split; [done|]. repeat split.
        exact (wf_nodup t Hwf i x Hx).
    + intros q d. destruct (decide (q = p)) as [->|Hne].
      * assert (forall x, nodes t !! d = Some x -> child_of t p d -> n_name x = name -> d = c) as Hd.
        { intros x Hx Hd <-. eapply (Hu p d c); eauto using list_elem_of_lookup_2. }
        split.
        -- intros (y & Hy & Hdc). simpl in Hy.
           rewrite list_lookup_insert_eq in Hy by (by eapply lookup_lt_Some). injection Hy as <-.
           apply (NoDup_delete _ k c d Hnd Hk) in Hdc as [Hdc Hne]. split; [by apply Hch|].
           intros (_ & x & Hx & Hxn). eauto.
        -- intros ((y & Hy & Hdc) & Hno). simplify_eq. eexists. simpl.
           rewrite list_lookup_insert_eq by (by eapply lookup_lt_Some). split; [done|]. simpl.
           apply (NoDup_delete _ k c d Hnd Hk). split; [done|]. intros ->. apply Hno. eauto.
      * unfold child_of. simpl. rewrite list_lookup_insert_ne by done. split.
        -- intros Hc. split; [done|]. by intros (? & _).
        -- by intros [? _].
  - split; [done|]. split; [done|]. split.
    + intros i x Hx. exists x. repeat split; [done|]. exact (wf_nodup t Hwf i x Hx).
    + intros q d. split; [|by intros [? _]]. intros Hc. split; [done|].
      intros (-> & x & Hx & Hxn). destruct Hc as (y & Hy & Hd). simplify_eq. by apply (Hno d x).
Qed.

(** After [remove_child] a path resolves as before unless it runs through the
    removed edge; then it does not resolve at all. *)
Lemma walk_removed p np name t' i names j :
  nodes t !! p = Some np -> remove_child (E := E) t p name = Ok t' ->
  walk t' i names j <->
  walk t i names j /\ ~ exists pre post, names = pre ++ name :: post /\ walk t i pre p.
Proof.
  intros Hp Hrm. destruct (remove_child_spec p np name Hp) as (t0 & Ht0 & _ & _ & Hnodes & Hchild).
  rewrite Hrm in Ht0. injection Ht0 as <-.
  assert (forall c y q, child_of t q c -> nodes t' !! c = Some y ->
            exists x, nodes t !! c = Some x /\ n_name x = n_name y) as Hback.
  { intros c y q Hc Hy. destruct (child_node t Hwf q c Hc) as (x & Hx).
    destruct (Hnodes c x Hx) as (y' & Hy' & Hn & _). exists x. split; [done|congruence]. }
  revert i. induction names as [|m names IH]; intros i.
  - split.
    + inversion 1; subst. split; [constructor|]. by intros ([] & post & ? & _).
    + intros [Hw _]. inversion Hw. constructor.
  - split.
    + inversion 1 as [|? c y ? ? Hc Hy Hw]; subst. apply Hchild in Hc as [Hc Hcut].
      destruct (Hback c y i Hc Hy) as (x & Hx & Hxy). apply IH in Hw as [Hw Hno].
      rewrite <- Hxy. split; [econstructor; eauto|]. intros (pre & post & Heq & Hpre).
      destruct pre as [|m' pre]; injection Heq as Hm ->.
      * inversion Hpre; subst. apply Hcut. eauto.
      * inversion Hpre as [|? c' x' ? ? Hc' Hx' Hw' Heq']; subst. apply Hno. exists pre, post.
        split; [done|]. by rewrite (Hu i c c' x x') by (eauto; congruence).
    + intros [Hw Hno]. inversion Hw as [|? c x ? ? Hc Hx Hw']; subst.
      destruct (Hnodes c x Hx) as (y & Hy & Hyx & _). rewrite <- Hyx. econstructor; [|exact Hy|].
      * apply Hchild. split; [done|]. intros (-> & x' & Hx' & Hxn). apply Hno.
        exists [], names. simplify_eq. split; [done|constructor].
      * apply IH. split; [done|]. intros (pre & post & -> & Hpre). apply Hno.
        exists (n_name x :: pre), post. split; [done|]. econstructor; eauto.
Qed.

Lemma remove_child_wf p np name t' :
  nodes t !! p = Some np -> remove_child (E := E) t p name = Ok t' -> tree_wf t' /\ names_unique t'.
Proof.
  intros Hp Hrm. destruct (remove_child_spec p np name Hp) as (t0 & Ht0 & Hr & Hlen & Hnodes & Hchild).
  rewrite Hrm in Ht0. injection Ht0 as <-.
  assert (forall i y, nodes t' !! i = Some y -> exists x, nodes t !! i = Some x /\
            n_name y = n_name x /\ n_parent y = n_parent x /\ NoDup (n_children y)) as Hback.
  { intros i y Hy. destruct (lookup_lt_is_Some_2 (nodes t) i) as (x & Hx).
    { rewrite <- Hlen. by eapply lookup_lt_Some. }
    destruct (Hnodes i x Hx) as (y' & Hy' & ?). exists x. by simplify_eq. }
  split; [split|].
  - rewrite Hr. destruct (wf_root t Hwf) as (-> & n & Hn & Hpar). split; [done|].
    destruct (Hnodes _ _ Hn) as (y & Hy & _ & Hpy & _). exists y. by rewrite Hpy.
  - intros i y Hy Hi. destruct (Hback i y Hy) as (x & Hx & _ & -> & _). by apply (wf_parent t Hwf i).
  - intros q c Hc. apply Hchild in Hc as [Hc _]. destruct (wf_child t Hwf q c Hc) as (x & Hx & Hpar & Hlt).
    destruct (Hnodes _ _ Hx) as (y & Hy & _ & Hpy & _). exists y. by rewrite Hpy.
  - intros i y Hy. by destruct (Hback i y Hy) as (x & _ & _ & _ & ?).
  - intros q c1 c2 y1 y2 H1 H2 Hy1 Hy2 Heq. apply Hchild in H1 as [H1 _]. apply Hchild in H2 as [H2 _].
    destruct (Hback c1 y1 Hy1) as (x1 & Hx1 & ? & _). destruct (Hback c2 y2 Hy2) as (x2 & Hx2 & ? & _).
    apply (Hu q c1 c2 x1 x2); auto. congruence.
Qed.
End Removal.

(** ** Paths of nodes *)

(** The names from the root to an attached node, without the root's own. *)
Lemma attached_walk t (Hwf : tree_wf t) i :
  attached t i -> exists names, walk t (root t) names i.
Proof.
  induction 1 as [|p c _ (names & Hw) Hc]; [exists []; constructor|].
  destruct (child_node t Hwf p c Hc) as (n & Hn). eauto using walk_snoc.
Qed.

Section NodePath.
Context {E : Type} (t : FileTree).
Hypotheses (Hwf : tree_wf t).

Definition root_name : list Z := match nodes t !! root t with Some n => n_name n | None => [] end.

(** The walk down to a node and the walk up its parent chain read the same names. *)
Lemma node_parts_walk names : forall i fuel acc,
  walk t (root t) names i -> (i < fuel)%nat ->
  node_parts (E := E) fuel t i acc = Ok (root_name :: names ++ acc).
Proof.
  destruct (wf_root t Hwf) as (Hr & n0 & Hn0 & Hp0).
  induction names as [|m names IH] using rev_ind; intros i fuel acc Hw Hf.
  - inversion Hw; subst. destruct fuel as [|fuel]; [lia|]. simpl. unfold node, root_name.
    rewrite Hr, Hn0. simpl. by rewrite Hp0.
  - assert (exists p n, walk t (root t) names p /\ child_of t p i /\ nodes t !! i = Some n /\ n_name n = m)
      as (p & n & Hwp & Hc & Hn & <-).
    { clear -Hw. revert Hw. generalize (root t) as r. induction names as [|x names IH]; intros r Hw; simpl in Hw.
      - inversion Hw as [|? c n ? ? Hc Hn Hw']; subst. inversion Hw'; subst. exists r, n.
        split; [constructor|done].
      - inversion Hw as [|? c n ? ? Hc Hn Hw']; subst. destruct (IH c Hw') as (p & n' & ? & ?).
        exists p, n'. split; [econstructor; eauto|done]. }
    destruct (wf_child t Hwf p i Hc) as (n' & Hn' & Hpar & Hlt). simplify_eq.
    destruct fuel as [|fuel]; [lia|]. simpl. unfold node. rewrite Hn. simpl. rewrite Hpar.
    rewrite (IH p fuel (n_name n :: acc)) by (done || lia). by rewrite <- app_assoc.
Qed.

Lemma fold_path_push names : forall pre,
  Forall part_ok pre -> Forall part_ok names ->
  fold_left path_push names (abs_path pre) = abs_path (pre ++ names).
Proof.
  induction names as [|m names IH]; intros pre Hpre Hn; simpl; [by rewrite app_nil_r|].
  apply Forall_cons_1 in Hn as [Hm Hn]. rewrite path_push_abs, IH, <- app_assoc; auto.
  apply Forall_app. auto.
Qed.

Lemma walk_names_ok i names j :
  (forall p c n, child_of t p c -> nodes t !! c = Some n -> part_ok (n_name n)) ->
  walk t i names j -> Forall part_ok names.
Proof. intros Hok. induction 1; auto. apply Forall_cons; eauto. Qed.

Lemma named_parts names : Forall part_ok names -> named (ROOT :: names) = names.
Proof.
  intros Hn. unfold named. simpl. induction Hn as [|m names (Hs & Hne & _) _ IH]; [done|]. simpl.
  rewrite bool_decide_eq_false_2, bool_decide_eq_false_2; [simpl; by rewrite IH|done|].
  intros ->. apply Hs. by left.
Qed.

Lemma node_path_walk names i :
  root_name = ROOT -> Forall part_ok names -> walk t (root t) names i ->
  node_path (E := E) t i = Ok (abs_path names).
Proof.
  intros Hr Hok Hw. unfold node_path.
  destruct (walk_valid t _ _ _ Hw (root_valid t Hwf)) as (n & Hn). apply lookup_lt_Some in Hn.
  rewrite (node_parts_walk names) by (done || lia). rewrite app_nil_r, Hr. simpl.
  change (path_push [] ROOT) with (abs_path []). by rewrite (fold_path_push names []).
Qed.
End NodePath.

(** ** Properties *)

(** The tree operations keep the invariant that makes the tree a tree: a
    fresh tree has it, adding a childless node under an existing parent whose
    children do not have its name keeps it and sibling names distinct, and so
    does removing a child by name; none of them panics. *)
Theorem file_tree_invariant {E} :
  (forall ino name, tree_wf (FileTree_new ino name) /\ names_unique (FileTree_new ino name)) /\
  (forall t p np n, tree_wf t -> names_unique t -> nodes t !! p = Some np -> n_children n = [] ->
     (forall c x, child_of t p c -> nodes t !! c = Some x -> n_name x <> n_name n) ->
     exists t', add_child (E := E) t p n = Ok (t', length (nodes t)) /\ tree_wf t' /\ names_unique t') /\
  (forall t p np name, tree_wf t -> names_unique t -> nodes t !! p = Some np ->
     exists t', remove_child (E := E) t p name = Ok t' /\ tree_wf t' /\ names_unique t').
Proof.
  split_and!.
  - auto using FileTree_new_wf, new_names_unique.
  - intros t p np n Hwf Hu Hp Hn Hfresh. exists (added t p np n).
    rewrite (add_child_ok t p n np Hp). auto using added_wf, added_names_unique.
  - intros t p np name Hwf Hu Hp. destruct (remove_child_spec (E := E) t Hwf Hu p np name Hp) as (t' & Ht' & _).
    exists t'. split; [done|]. by eapply remove_child_wf.
Qed.

(** After [add_child] of a childless node with a fresh name, [lookup] of any
    path answers exactly what it answered before, except that the path of the
    parent extended by the new name now resolves to the new node. *)
Theorem lookup_after_add {E} t p np n path
    (Hwf : tree_wf t) (Hu : names_unique t) (Hp : nodes t !! p = Some np) (Hn : n_children n = [])
    (Hfresh : forall c x, child_of t p c -> nodes t !! c = Some x -> n_name x <> n_name n) :
  exists t' o o', add_child (E := E) t p n = Ok (t', length (nodes t)) /\
    lookup (E := E) t path = Ok o /\ lookup (E := E) t' path = Ok o' /\
    forall j, o' = Some j <->
      o = Some j \/ (j = length (nodes t) /\
        exists pre, named (components path) = pre ++ [n_name n] /\ walk t (root t) pre p).
Proof.
  destruct (lookup_spec (E := E) t Hwf Hu path) as (o & Ho & Hj).
  destruct (lookup_spec (E := E) (added t p np n) (added_wf t p np n Hwf Hp Hn)
              (added_names_unique t p np n Hwf Hp Hn Hu Hfresh) path) as (o' & Ho' & Hj').
  exists (added t p np n), o, o'. split; [by apply add_child_ok|]. split; [done|]. split; [done|].
  intros j. rewrite Hj, Hj'. apply walk_added; auto.
  destruct (root_valid t Hwf) as (r & Hr). apply lookup_lt_Some in Hr. simpl. lia.
Qed.

(** After [remove_child] of a name, [lookup] of any path answers what it
    answered before if the path does not run through the removed entry, and
    finds nothing if it does; so a removed subtree is unreachable and nothing
    else is affected. *)
Theorem lookup_after_remove {E} t p np name path
    (Hwf : tree_wf t) (Hu : names_unique t) (Hp : nodes t !! p = Some np) :
  exists t' o o', remove_child (E := E) t p name = Ok t' /\
    lookup (E := E) t path = Ok o /\ lookup (E := E) t' path = Ok o' /\
    forall j, o' = Some j <->
      o = Some j /\ ~ exists pre post,
        named (components path) = pre ++ name :: post /\ walk t (root t) pre p.
Proof.
  destruct (remove_child_spec (E := E) t Hwf Hu p np name Hp) as (t' & Ht' & Hr & _).
  destruct (remove_child_wf t Hwf Hu p np name t' Hp Ht') as (Hwf' & Hu').
  destruct (lookup_spec (E := E) t Hwf Hu path) as (o & Ho & Hj).
  destruct (lookup_spec (E := E) t' Hwf' Hu' path) as (o' & Ho' & Hj').
  exists t', o, o'. split; [done|]. split; [done|]. split; [done|].
  intros j. rewrite Hj, Hj', Hr. by eapply walk_removed.
Qed.

(** For every node that is still attached to the tree, the walk of
    [node_path] up the parent chain ends, and looking its result up again finds
    that very node. *)
Theorem node_path_lookup {E} t i
    (Hwf : tree_wf t) (Hu : names_unique t) (Hroot : root_name t = ROOT)
    (Hnames : forall p c n, child_of t p c -> nodes t !! c = Some n -> part_ok (n_name n))
    (Hi : attached t i) :
  exists path, node_path (E := E) t i = Ok path /\ lookup (E := E) t path = Ok (Some i).
Proof.
  destruct (attached_walk t Hwf i Hi) as (names & Hw).
  pose proof (walk_names_ok t _ _ _ Hnames Hw) as Hok.
  exists (abs_path names). split; [by apply node_path_walk|].
  destruct (lookup_spec (E := E) t Hwf Hu (abs_path names)) as (o & -> & Hj).
  f_equal. apply Hj. by rewrite components_abs_path, named_parts.
Qed.

(** A tree with [/etc] and a node to add under it. *)
Definition sample_node (ino : Z) (name : list Z) : FileTreeNode :=
  {| n_inode := ino; n_name := name; n_children := []; n_parent := None;
     n_blocks := None; n_additional_blocks := []; n_link := None |}.
Definition etc : list Z := [101; 116; 99].
Definition sample_tree : FileTree :=
  added (FileTree_new 2 ROOT) 0 (sample_node 2 ROOT) (sample_node 11 etc).

Lemma sample_tree_child p c : child_of sample_tree p c -> p = 0%nat /\ c = 1%nat.
Proof.
  intros Hc. apply (child_of_added (FileTree_new 2 ROOT) 0 (sample_node 2 ROOT)) in Hc as [Hc|Hc];
    [done| |done..].
  destruct Hc as (n & Hn & Hc). apply FileTree_new_node in Hn as (_ & Hn & _).
  rewrite Hn in Hc. by apply elem_of_nil in Hc.
Qed.

Lemma sample_tree_wf : tree_wf sample_tree /\ names_unique sample_tree.
Proof.
  pose proof (FileTree_new_wf 2 ROOT). pose proof (new_names_unique 2 ROOT) as Hu. split.
  - by apply added_wf.
  - apply added_names_unique; try done. intros c x (n & Hn & Hc).
    apply FileTree_new_node in Hn as (_ & Hn & _). rewrite Hn in Hc. by apply elem_of_nil in Hc.
Qed.

Lemma lookup_after_add_witness :
  exists t' o o', add_child (E := unit) sample_tree 1 (sample_node 12 [97]) = Ok (t', 2%nat) /\
    lookup (E := unit) sample_tree [47; 101; 116; 99; 47; 97] = Ok o /\
    lookup (E := unit) t' [47; 101; 116; 99; 47; 97] = Ok o' /\
    forall j, o' = Some j <-> o = Some j \/ (j = 2%nat /\
      exists pre, named (components [47; 101; 116; 99; 47; 97]) = pre ++ [[97]] /\
                  walk sample_tree (root sample_tree) pre 1).
Proof.
  apply (lookup_after_add sample_tree 1 (set_n_parent (sample_node 11 etc) (Some 0%nat))
           (sample_node 12 [97])); try apply sample_tree_wf; try reflexivity.
  intros c x Hc. by apply sample_tree_child in Hc as (? & _).
Defined.

Lemma node_path_lookup_witness :
  exists path, node_path (E := unit) sample_tree 1 = Ok path /\
    lookup (E := unit) sample_tree path = Ok (Some 1%nat).
Proof.
  apply (node_path_lookup sample_tree 1); try apply sample_tree_wf; try reflexivity.
  - intros p c n Hc Hn. apply sample_tree_child in Hc as (-> & ->). injection Hn as <-.
    split_and!; [|done..]. by apply (bool_decide_unpack _).
  - apply (attached_child _ 0 1); [apply attached_root|].
    exists (set_n_children (sample_node 2 ROOT) [1%nat]). split; [reflexivity|]. by left.
Defined.
