(* ===== verification/Extent.v ===== *)
(** Extent trees: [common/disk-image/src/ext4/extent.rs].

    The writer lays the leaves of an inode inline or in leaf blocks of the
    image, the reader parses them back.  Block numbers are [u32] and wrap as in
    a release build.  The specification is the list of physical blocks a tree
    maps the logical blocks [0, 1, ...] to. *)

From S2P Require Import Prelude Bytes Types Errors Disk FileTree Tables.

(** ** Write path *)

Definition range_len (r : BlockRange) : Z := u32 (br_end r - br_start r).

(** The [while remaining > 0] loop over one range; the fuel is the number of
    extents the code reserves space for. *)
Fixpoint range_leaves (fuel : nat) (remaining phys logical : Z) : list ExtentLeaf * Z :=
  match fuel with
  | O => ([], logical)
  | S fuel =>
      if 0 <? remaining then
        let len := Z.min remaining MAX_BLOCKS_PER_EXTENT in
        let leaf := {| el_block := logical; el_len := u16 len; el_start_hi := 0;
                       el_start_lo := phys |} in
        let '(leaves, logical') :=
          range_leaves fuel (remaining - len) (u32 (phys + len)) (u32 (logical + len)) in
        (leaf :: leaves, logical')
      else ([], logical)
  end.

Fixpoint fill_leaves (logical : Z) (blocks : list BlockRange) : list ExtentLeaf :=
  match blocks with
  | [] => []
  | range :: blocks =>
      let remaining := range_len range in
      let '(leaves, logical') :=
        range_leaves (Z.to_nat (div_ceil remaining MAX_BLOCKS_PER_EXTENT)) remaining
          (br_start range) logical in
      leaves ++ fill_leaves logical' blocks
  end.

Definition fill_extent_leaves_from_ranges (blocks : list BlockRange) : list ExtentLeaf :=
  fill_leaves 0 blocks.

Definition add_inode_blocks (inode : Inode) (filesystem_blocks block_size : Z) : Inode :=
  let blocks :=
    if negb (Z.land (i_flags inode) inode_flag_HUGE_FILE =? 0) then filesystem_blocks
    else u32 (filesystem_blocks * (block_size / 512)) in
  set_i_blocks_lo (u32 (i_blocks_lo inode + blocks)) inode.

Definition set_extents_flag (inode : Inode) : Inode :=
  set_i_flags (Z.lor (i_flags inode) inode_flag_EXTENTS) inode.

Section Writers.
Context {E : Type}.

Definition write_inline_extents (inode : Inode) (data_blocks : Z) (leaves : list ExtentLeaf)
    (block_size : Z) : res E Inode :=
  let header := {| eh_magic := EXTENT_HEADER_MAGIC; eh_entries := u16 (zlen leaves); eh_max := 4;
                   eh_depth := 0; eh_generation := 0 |} in
  buf ← put_record header 0 (zeros INODE_BLOCK_SIZE);
  buf ← put_table 12 leaves buf;
  Ok (set_extents_flag (add_inode_blocks (set_i_block buf inode) data_blocks block_size)).

(** One leaf block of a depth-1 tree. *)
Definition leaf_block (block_size leaves_per_block : Z) (block_leaves : list ExtentLeaf) :
    res E (list Z) :=
  let leaf_header := {| eh_magic := EXTENT_HEADER_MAGIC; eh_entries := u16 (zlen block_leaves);
                        eh_max := u16 leaves_per_block; eh_depth := 0; eh_generation := 0 |} in
  buf ← put_record leaf_header 0 (zeros block_size);
  buf ← put_table 12 block_leaves buf;
  put_record {| et_checksum := 0 |} (block_size - 4) buf.

(** [all_leaves[leaf_start..leaf_end]] for the [i]-th leaf block. *)
Definition leaf_chunk (leaves_per_block : Z) (all_leaves : list ExtentLeaf) (i : nat) :
    list ExtentLeaf :=
  take (Z.to_nat leaves_per_block) (drop (i * Z.to_nat leaves_per_block) all_leaves).

Definition write_leaf_blocks (block_size leaves_per_block : Z) (all_leaves : list ExtentLeaf)
    (num_index_blocks : Z) (writer : File) (current_block : Z) : res E (File * Z) :=
  foldM (fun (st : File * Z) i =>
    let '(writer, current_block) := st in
    block_buf ← leaf_block block_size leaves_per_block (leaf_chunk leaves_per_block all_leaves i);
    let byte_offset := current_block * block_size in
    Ok (write_all (seek writer byte_offset) block_buf, u32 (current_block + 1)))
    (writer, current_block) (seq 0 (Z.to_nat num_index_blocks)).

Definition index_entries (all_leaves : list ExtentLeaf) (leaves_per_block num_index_blocks
    index_block_start : Z) : res E (list ExtentIndex) :=
  foldM (fun indices i =>
    first ← or_panic (all_leaves !! (i * Z.to_nat leaves_per_block)%nat);
    Ok (indices ++ [ {| ei_block := el_block first; ei_leaf_lo := u32 (index_block_start + Z.of_nat i);
                        ei_leaf_hi := 0; ei_unused := 0 |} ]))
    [] (seq 0 (Z.to_nat num_index_blocks)).

Definition leaves_per_block (block_size : Z) : Z := u64 (block_size - 12 - 4) / 12.

Definition write_indexed_extents (inode : Inode) (data_blocks : Z) (all_leaves : list ExtentLeaf)
    (block_size : Z) (writer : File) (current_block : Z) : res E (Inode * File * Z) :=
  let lpb := leaves_per_block block_size in
  if u32 lpb =? 0 then Panic
  else
    let num_index_blocks := div_ceil (u32 (zlen all_leaves)) (u32 lpb) in
    indices ← index_entries all_leaves lpb num_index_blocks current_block;
    let header := {| eh_magic := EXTENT_HEADER_MAGIC; eh_entries := u16 num_index_blocks; eh_max := 4;
                     eh_depth := 1; eh_generation := 0 |} in
    buf ← put_record header 0 (zeros INODE_BLOCK_SIZE);
    buf ← put_table 12 indices buf;
    let inode := set_i_block buf inode in
    out ← write_leaf_blocks block_size lpb all_leaves num_index_blocks writer current_block;
    let '(writer, current_block) := (out : File * Z) in
    let total_blocks := u32 (data_blocks + num_index_blocks) in
    Ok (set_extents_flag (add_inode_blocks inode total_blocks block_size), writer, current_block).

Definition write_extents (inode : Inode) (blocks : list BlockRange) (block_size : Z)
    (writer : File) (current_block : Z) : res E (Inode * File * Z) :=
  let data_blocks := u32 (fold_left (fun n r => n + range_len r) blocks 0) in
  if data_blocks =? 0 then Ok (inode, writer, current_block)
  else
    let leaves := fill_extent_leaves_from_ranges blocks in
    let num_extents := u32 (zlen leaves) in
    if num_extents <=? 4 then
      inode ← write_inline_extents inode data_blocks leaves block_size;
      Ok (inode, writer, current_block)
    else write_indexed_extents inode data_blocks leaves block_size writer current_block.
End Writers.

(** ** Read path *)

(** The loop over the leaf entries of a node held in [buf]. *)
Fixpoint parse_leaves (n : nat) (off : Z) (buf : list Z) : res ReadError (list (Z * Z)) :=
  match n with
  | O => Ok []
  | S n =>
      if zlen buf <? off + 12 then Err InvalidExtents
      else
        let leaf : ExtentLeaf := read_at off buf in
        let phys_start := el_start_lo leaf in
        let phys_end := u32 (phys_start + el_len leaf) in
        ranges ← parse_leaves n (off + 12) buf;
        Ok ((phys_start, phys_end) :: ranges)
  end.

Definition parse_depth0 (block_field : list Z) (header : ExtentHeader) :
    res ReadError (list (Z * Z)) :=
  parse_leaves (Z.to_nat (eh_entries header)) 12 block_field.

(** One iteration of [parse_depth1]: read the leaf block an index points at. *)
Definition parse_leaf_block (index : ExtentIndex) (block_size : Z) (reader : File) :
    res ReadError (list (Z * Z)) :=
  let phys_block := ExtentIndex_leaf index in
  let byte_offset := u64 (phys_block * block_size) in
  reader ← map_err (fun _ => CouldNotReadBlock (u32 phys_block)) (seek_start reader byte_offset);
  _ ← vec_capacity block_size;
  out ← map_err (fun _ => CouldNotReadBlock (u32 phys_block)) (read_exact reader block_size);
  let '(leaf_buf, _) := (out : list Z * File) in
  let leaf_header : ExtentHeader := read_at 0 leaf_buf in
  if zlen leaf_buf <? 12 then Panic
  else if negb (eh_magic leaf_header =? EXTENT_HEADER_MAGIC) || negb (eh_depth leaf_header =? 0)
  then Err InvalidExtents
  else parse_leaves (Z.to_nat (eh_entries leaf_header)) 12 leaf_buf.

Fixpoint parse_indices (n : nat) (off : Z) (block_field : list Z) (block_size : Z) (reader : File) :
    res ReadError (list (Z * Z)) :=
  match n with
  | O => Ok []
  | S n =>
      if zlen block_field <? off + 12 then Err InvalidExtents
      else
        here ← parse_leaf_block (read_at off block_field) block_size reader;
        rest ← parse_indices n (off + 12) block_field block_size reader;
        Ok (here ++ rest)
  end.

Definition parse_depth1 (block_field : list Z) (header : ExtentHeader) (block_size : Z)
    (reader : File) : res ReadError (list (Z * Z)) :=
  parse_indices (Z.to_nat (eh_entries header)) 12 block_field block_size reader.

Definition parse_extents (inode : Inode) (block_size : Z) (reader : File) :
    res ReadError (list (Z * Z)) :=
  let header : ExtentHeader := read_at 0 (i_block inode) in
  if negb (eh_magic header =? EXTENT_HEADER_MAGIC) then Ok []
  else if eh_depth header =? 0 then parse_depth0 (i_block inode) header
  else if eh_depth header =? 1 then parse_depth1 (i_block inode) header block_size reader
  else Err DeepExtentsUnsupported.

(** ** Totality *)

Lemma np_leaves n : forall off buf, parse_leaves n off buf <> Panic.
Proof.
  induction n as [|n IH]; intros off buf; simpl; [done|]. case_match; [done|].
  apply np_bind; [apply IH|done].
Qed.

Lemma np_leaf_block index bs f : 12 <= bs <= i64_max -> parse_leaf_block index bs f <> Panic.
Proof.
  intros Hbs. unfold parse_leaf_block. apply np_bind; [unfold seek_start; by case_match|]. intros f' _.
  rewrite vec_capacity_small by lia. cbn [mbind res_bind]. apply np_bind; [unfold read_exact; by case_match|].
  intros [buf f''] Hr. replace (zlen buf <? 12) with false; [case_match; [done|apply np_leaves]|].
  unfold read_exact in Hr. case_match; [|done]. injection Hr as <- _. rewrite zlen_bytes_at; lia.
Qed.

(** A block size that holds a header is enough for [parse_extents] not to panic. *)
Lemma np_parse_extents inode bs f : 12 <= bs <= i64_max -> parse_extents inode bs f <> Panic.
Proof.
  intros Hbs. unfold parse_extents. repeat case_match; try done; [apply np_leaves|]. unfold parse_depth1.
  generalize 12 as off. induction (Z.to_nat _) as [|n IH]; intros off; simpl; [done|]. case_match; [done|].
  apply np_bind; [by apply np_leaf_block|]. intros here _. apply np_bind; [apply IH|done].
Qed.

(** ** Specification *)

(** The blocks of a range, and of a list of ranges in file order. *)
Definition range_blocks (r : BlockRange) : list Z := seqZ (br_start r) (br_end r - br_start r).
Definition file_blocks (rs : list BlockRange) : list Z := concat (map range_blocks rs).

(** The blocks of the [(start, end)] pairs the reader returns. *)
Definition pair_blocks (rs : list (Z * Z)) : list Z :=
  concat (map (fun r => seqZ r.1 (r.2 - r.1)) rs).

(** The logical-to-physical map of a list of leaves. *)
Definition leaf_map (l : ExtentLeaf) : list (Z * Z) :=
  zip (seqZ (el_block l) (el_len l)) (seqZ (el_start_lo l) (el_len l)).
Definition extent_map (ls : list ExtentLeaf) : list (Z * Z) := concat (map leaf_map ls).

Definition range_ok (r : BlockRange) : Prop := 0 <= br_start r <= br_end r /\ br_end r <= u32_max.

Definition leaf_ok (l : ExtentLeaf) : Prop :=
  ExtentLeaf_wf l /\ 1 <= el_len l <= MAX_BLOCKS_PER_EXTENT /\ el_start_hi l = 0 /\
  el_start_lo l + el_len l <= u32_max.

(** ** Leaves *)

Section Leaves.
Implicit Types ls : list ExtentLeaf.

Lemma seqZ_split m a b : 0 <= a -> 0 <= b -> seqZ m (a + b) = seqZ m a ++ seqZ (m + a) b.
Proof. intros. by rewrite seqZ_app by lia. Qed.

Lemma extent_map_app ls1 ls2 : extent_map (ls1 ++ ls2) = extent_map ls1 ++ extent_map ls2.
Proof. unfold extent_map. by rewrite map_app, concat_app. Qed.

Lemma zip_seqZ_split m a b (k1 k2 : list Z) :
  length k1 = Z.to_nat a -> 0 <= a -> 0 <= b ->
  zip (seqZ m (a + b)) (k1 ++ k2) = zip (seqZ m a) k1 ++ zip (seqZ (m + a) b) k2.
Proof.
  intros Hl Ha Hb. rewrite seqZ_split by lia. apply zip_with_app. by rewrite length_seqZ, Hl.
Qed.

(** The loop over one range maps it block by block and stops exactly at its end. *)
Lemma range_leaves_spec fuel : forall remaining phys logical,
  0 <= remaining <= Z.of_nat fuel * MAX_BLOCKS_PER_EXTENT ->
  0 <= phys -> phys + remaining <= u32_max -> 0 <= logical -> logical + remaining <= u32_max ->
  let '(ls, logical') := range_leaves fuel remaining phys logical in
  extent_map ls = zip (seqZ logical remaining) (seqZ phys remaining) /\
  logical' = logical + remaining /\ Forall leaf_ok ls /\
  Z.of_nat (length ls) = div_ceil remaining MAX_BLOCKS_PER_EXTENT.
Proof.
  unfold u32_max. induction fuel as [|fuel IH]; intros rem phys logical Hr Hp Hpr Hl Hlr.
  { replace rem with 0 by (unfold MAX_BLOCKS_PER_EXTENT in *; lia). simpl.
    split; [done|]. split; [lia|]. by split; [apply Forall_nil|]. }
  cbn [range_leaves]. destruct (Z.ltb_spec 0 rem) as [Hpos|].
  2:{ replace rem with 0 by lia. split; [done|]. split; [lia|]. by split; [apply Forall_nil|]. }
  set (len := Z.min rem MAX_BLOCKS_PER_EXTENT).
  assert (1 <= len <= rem /\ len <= 32768 /\ (len = 32768 \/ len = rem)) as Hlen
    by (subst len; unfold MAX_BLOCKS_PER_EXTENT; lia).
  wrap_small. specialize (IH (rem - len) (phys + len) (logical + len)).
  destruct (range_leaves fuel _ _ _) as [ls logical'].
  destruct IH as (Hmap & -> & Hok & Hcnt); [unfold MAX_BLOCKS_PER_EXTENT in *; lia..|].
  split_and!.
  - unfold extent_map in *. cbn [map concat]. rewrite Hmap.
    replace rem with (len + (rem - len)) at 3 4 by lia.
    rewrite (seqZ_split phys), zip_seqZ_split by (rewrite ?length_seqZ; lia). reflexivity.
  - lia.
  - apply Forall_cons; [|done]. unfold leaf_ok, ExtentLeaf_wf, MAX_BLOCKS_PER_EXTENT. simpl.
    unfold_ranges. lia.
  - cbn [length]. unfold div_ceil, MAX_BLOCKS_PER_EXTENT in *.
    rewrite Nat2Z.inj_succ, Hcnt. destruct Hlen as (? & ? & [->| ->]).
    + replace (rem + 32768 - 1) with ((rem - 32768 + 32768 - 1) + 1 * 32768) by lia.
      rewrite Z.div_add by lia. lia.
    + rewrite Z.sub_diag. change ((0 + 32768 - 1) / 32768) with 0.
      apply Z.div_unique with (r := rem - 1); lia.
Qed.

Definition total_blocks (rs : list BlockRange) : Z :=
  fold_right (fun r n => (br_end r - br_start r) + n) 0 rs.

Lemma range_len_ok r : range_ok r -> range_len r = br_end r - br_start r.
Proof. intros [??]. unfold range_len. by wrap_small. Qed.

Lemma total_blocks_nonneg rs : Forall range_ok rs -> 0 <= total_blocks rs.
Proof. induction 1 as [|r rs [??] _ IH]; simpl; lia. Qed.

Lemma length_file_blocks rs : Forall range_ok rs -> Z.of_nat (length (file_blocks rs)) = total_blocks rs.
Proof.
  induction 1 as [|r rs [??] _ IH]; [done|]. unfold file_blocks in *. simpl.
  rewrite length_app. unfold range_blocks at 1. rewrite length_seqZ. lia.
Qed.

Lemma fill_leaves_spec rs : forall logical,
  Forall range_ok rs -> 0 <= logical -> logical + total_blocks rs <= u32_max ->
  extent_map (fill_leaves logical rs) = zip (seqZ logical (total_blocks rs)) (file_blocks rs) /\
  Forall leaf_ok (fill_leaves logical rs) /\
  Z.of_nat (length (fill_leaves logical rs)) =
    fold_right (fun r n => div_ceil (br_end r - br_start r) MAX_BLOCKS_PER_EXTENT + n) 0 rs.
Proof.
  induction rs as [|r rs IH]; intros logical Hok Hl Ht; cbn [fill_leaves];
    [by split; [|split; [apply Forall_nil|]]|].
  apply Forall_cons_1 in Hok as [Hr Hrs]. rewrite range_len_ok by done. destruct Hr as [Hr1 Hr2].
  pose proof (total_blocks_nonneg rs Hrs) as Htn. cbn [fold_right].
  change (total_blocks (r :: rs)) with ((br_end r - br_start r) + total_blocks rs) in *.
  remember (br_end r - br_start r) as n eqn:En. unfold MAX_BLOCKS_PER_EXTENT in *.
  pose proof (div_ceil_spec n 0x8000 ltac:(done)) as Hc.
  pose proof (div_ceil_nonneg n 0x8000 ltac:(lia) ltac:(done)) as Hc0.
  pose proof (range_leaves_spec (Z.to_nat (div_ceil n 0x8000)) n (br_start r) logical) as Hs.
  destruct (range_leaves _ _ _ _) as [ls logical'].
  destruct Hs as (Hmap & -> & Hlok & Hcnt); [unfold MAX_BLOCKS_PER_EXTENT; lia..|].
  destruct (IH (logical + n) Hrs) as (Hmap' & Hlok' & Hcnt'); [lia..|].
  split_and!.
  - rewrite extent_map_app, Hmap, Hmap'. unfold file_blocks. cbn [map concat].
    rewrite zip_seqZ_split by (unfold range_blocks; rewrite ?length_seqZ; lia).
    by rewrite En.
  - by apply Forall_app.
  - rewrite length_app. unfold MAX_BLOCKS_PER_EXTENT in *. lia.
Qed.

(** The physical side alone, as the reader returns it. *)
Definition leaf_range (l : ExtentLeaf) : Z * Z := (el_start_lo l, u32 (el_start_lo l + el_len l)).

Lemma leaf_ranges_blocks ls :
  Forall leaf_ok ls -> pair_blocks (map leaf_range ls) = (extent_map ls).*2.
Proof.
  unfold pair_blocks, extent_map. induction 1 as [|l ls Hl _ IH]; [done|]. cbn [map concat].
  rewrite fmap_app, IH. f_equal. unfold leaf_range, leaf_map. simpl.
  destruct Hl as (Hwf & Hlen & _ & Hs). destruct Hwf as (_ & _ & _ & Hw). unfold_ranges.
  rewrite u32_small by (unfold_ranges; lia). rewrite snd_zip by (rewrite !length_seqZ; lia).
  f_equal. lia.
Qed.

Lemma fill_leaves_blocks rs :
  Forall range_ok rs -> total_blocks rs <= u32_max ->
  pair_blocks (map leaf_range (fill_extent_leaves_from_ranges rs)) = file_blocks rs.
Proof.
  intros Hok Ht. destruct (fill_leaves_spec rs 0 Hok ltac:(lia) Ht) as (Hmap & Hlok & _).
  unfold fill_extent_leaves_from_ranges. rewrite leaf_ranges_blocks, Hmap by done.
  apply snd_zip. rewrite length_seqZ. pose proof (length_file_blocks rs Hok). lia.
Qed.
End Leaves.

(** ** Nodes in buffers *)

(** [buf] holds the records of [l] from [off] on. *)
Definition holds {A} `{DiskRecord A} (buf : list Z) (off : Z) (l : list A) : Prop :=
  forall i a, l !! i = Some a -> read_at (off + rec_size A * Z.of_nat i) buf = a.

Section Nodes.
Context {E : Type}.
Implicit Types (ls : list ExtentLeaf) (buf : list Z).

Lemma holds_tail {A} `{DiskRecord A} buf off (a : A) l :
  holds buf off (a :: l) -> read_at off buf = a /\ holds buf (off + rec_size A) l.
Proof.
  intros Hh. split.
  - rewrite <- (Hh 0%nat a eq_refl). f_equal. lia.
  - intros i x Hx. rewrite <- (Hh (S i) x Hx). f_equal. lia.
Qed.

#[global] Instance ExtentHeader_bytes : WritesBytes ExtentHeader.
Proof. intros a buf Hb. apply put_fields_range; [done|]. unfold ExtentHeader_fields. repeat (apply Forall_cons; [auto with ranges|]); done. Qed.
#[global] Instance ExtentLeaf_bytes : WritesBytes ExtentLeaf.
Proof. intros a buf Hb. apply put_fields_range; [done|]. unfold ExtentLeaf_fields. repeat (apply Forall_cons; [auto with ranges|]); done. Qed.
#[global] Instance ExtentIndex_bytes : WritesBytes ExtentIndex.
Proof. intros a buf Hb. apply put_fields_range; [done|]. unfold ExtentIndex_fields. repeat (apply Forall_cons; [auto with ranges|]); done. Qed.

(** A header and entries written into a zeroed buffer read back. *)
Lemma put_node_spec {A} `{DiskRecordLaws A} `{!WritesBytes A} (h : ExtentHeader) (l : list A) n :
  rec_wf h -> Forall rec_wf l -> 12 + rec_size A * Z.of_nat (length l) <= n ->
  exists buf, (b ← put_record (E := E) h 0 (zeros n); put_table 12 l b) = Ok buf /\
    is_bytes n buf /\ read_at 0 buf = h /\ holds buf 12 l.
Proof.
  intros Hh Hl Hn. pose proof (rec_size_pos (A := A)).
  destruct (put_record_spec (E := E) h 0 (zeros n) Hh) as (b1 & E1 & Hz1 & Hr1 & _);
    [lia|rewrite zlen_zeros; simpl; nia|].
  rewrite E1. rewrite zlen_zeros in Hz1 by nia.
  destruct (put_table_spec (E := E) l 12 b1 Hl) as (b2 & E2 & Hz2 & Hr2 & Hf2); [lia..|].
  exists b2. split; [exact E2|]. split.
  { split; [lia|]. eapply put_table_range; [exact E2|]. apply (put_record_range (A := ExtentHeader) _ _ _ _ E1). by apply Forall_zeros. }
  split; [|done]. rewrite (read_at_frame 0 b1); [done|simpl; nia..|]. apply Hf2; simpl; lia.
Qed.

Lemma parse_leaves_spec ls : forall off buf,
  holds buf off ls -> off + 12 * Z.of_nat (length ls) <= zlen buf ->
  parse_leaves (length ls) off buf = Ok (map leaf_range ls).
Proof.
  induction ls as [|l ls IH]; intros off buf Hh Hl; [done|]. cbn [length parse_leaves map] in *.
  replace (zlen buf <? off + 12) with false by lia.
  apply holds_tail in Hh as [Ha Hh]. rewrite Ha, (IH (off + 12) buf Hh) by lia. reflexivity.
Qed.

Lemma leaf_ok_wf ls : Forall leaf_ok ls -> Forall rec_wf ls.
Proof. intros Hl. eapply list.Forall_impl; [exact Hl|]. by intros l (? & _). Qed.

Definition node_header (n mx depth : Z) : ExtentHeader :=
  {| eh_magic := EXTENT_HEADER_MAGIC; eh_entries := u16 n; eh_max := mx;
     eh_depth := depth; eh_generation := 0 |}.

Lemma node_header_wf n mx depth : is_u16 mx -> is_u16 depth -> rec_wf (node_header n mx depth).
Proof. intros. refine (conj _ (conj _ (conj _ (conj _ _)))); simpl; auto using u16_range; done. Qed.

Lemma extents_block buf inode data bs :
  i_block (set_extents_flag (add_inode_blocks (set_i_block buf inode) data bs)) = buf.
Proof. by destruct inode. Qed.

(** Depth 0: what [write_inline_extents] leaves in the inode parses back. *)
Lemma inline_spec inode data bs ls :
  Forall leaf_ok ls -> Z.of_nat (length ls) <= 4 ->
  exists buf, write_inline_extents (E := E) inode data ls bs =
      Ok (set_extents_flag (add_inode_blocks (set_i_block buf inode) data bs)) /\ is_bytes 60 buf /\
    forall f, parse_extents (set_extents_flag (add_inode_blocks (set_i_block buf inode) data bs)) bs f =
      Ok (map leaf_range ls).
Proof.
  intros Hl Hn.
  destruct (put_node_spec (node_header (zlen ls) 4 0) ls 60) as (buf & Hb & Hz & Hh & Ht);
    [by apply node_header_wf|by apply leaf_ok_wf|simpl; lia|].
  exists buf. unfold write_inline_extents, INODE_BLOCK_SIZE, node_header in *. split; [|split; [done|]].
  - destruct (put_record _ 0 (zeros 60)) as [b| |]; try discriminate Hb. simpl in *. by rewrite Hb.
  - intros f. unfold parse_extents. rewrite extents_block, Hh. simpl. unfold parse_depth0. simpl. destruct Hz as [Hz _].
    unfold zlen in *. rewrite u16_small by (unfold is_u16; lia). rewrite Nat2Z.id. apply parse_leaves_spec; [done|unfold zlen; lia].
Qed.
End Nodes.

(** ** Depth-1 trees *)

Section Indexed.
Context {E : Type} (bs : Z).
Hypothesis (Hbs : 28 <= bs < 65536).
Abbreviation lpb := (leaves_per_block bs).

Lemma lpb_bounds : 1 <= lpb <= 5460 /\ 12 + 12 * lpb + 4 <= bs.
Proof.
  unfold leaves_per_block. wrap_small.
  pose proof (Z.div_mod (bs - 12 - 4) 12 ltac:(lia)).
  pose proof (Z.mod_pos_bound (bs - 12 - 4) 12 ltac:(lia)). lia.
Qed.

Lemma leaf_chunk_length ls i : (length (leaf_chunk lpb ls i) <= Z.to_nat lpb)%nat.
Proof. unfold leaf_chunk. rewrite length_take. lia. Qed.

Lemma leaf_chunk_ok ls i : Forall leaf_ok ls -> Forall leaf_ok (leaf_chunk lpb ls i).
Proof. intros. by apply Forall_take, Forall_drop. Qed.

(** The chunks are a partition of the leaves. *)
Lemma leaf_chunks_concat ls n : forall k,
  (length ls <= (k + n) * Z.to_nat lpb)%nat ->
  concat (map (leaf_chunk lpb ls) (seq k n)) = drop (k * Z.to_nat lpb) ls.
Proof.
  induction n as [|n IH]; intros k Hk; simpl.
  - rewrite drop_ge; [done|]. lia.
  - rewrite IH by lia. unfold leaf_chunk at 1.
    replace (S k * Z.to_nat lpb)%nat with (k * Z.to_nat lpb + Z.to_nat lpb)%nat by lia.
    rewrite <- drop_drop. apply take_drop.
Qed.

(** A leaf block parses back to its leaves. *)
Lemma leaf_block_spec ls i :
  Forall leaf_ok ls ->
  exists block, leaf_block (E := E) bs lpb (leaf_chunk lpb ls i) = Ok block /\ zlen block = bs /\
    forall idx f, ExtentIndex_leaf idx * bs + bs <= f_len f -> 0 <= ExtentIndex_leaf idx <= u32_max ->
      bytes_at f (ExtentIndex_leaf idx * bs) bs = block ->
      parse_leaf_block idx bs f = Ok (map leaf_range (leaf_chunk lpb ls i)).
Proof.
  intros Hok. pose proof lpb_bounds as [Hl Hfit]. pose proof (leaf_chunk_length ls i) as Hcl.
  pose proof (leaf_chunk_ok ls i Hok) as Hcok. remember (leaf_chunk lpb ls i) as c eqn:Ec. clear Ec.
  destruct (put_node_spec (E := E) (node_header (zlen c) lpb 0) c bs) as (b1 & Hb1 & [Hz1 _] & Hh1 & Ht1);
    [apply node_header_wf; unfold is_u16; lia|by apply leaf_ok_wf|simpl; lia|].
  destruct (put_record_spec (E := E) {| et_checksum := 0 |} (bs - 4) b1) as (b2 & Hb2 & Hz2 & _ & Hf2);
    [done|lia|simpl; lia|]. simpl in Hf2.
  exists b2. split.
  - unfold leaf_block, node_header in *. rewrite (u16_small lpb) by (unfold is_u16; lia).
    destruct (put_record _ 0 (zeros bs)) as [b| |]; try discriminate Hb1. simpl in *. by rewrite Hb1.
  - split; [lia|]. intros idx f Hlen Hr Hbytes. unfold parse_leaf_block. unfold_ranges.
    rewrite u64_small by (unfold is_u64; nia). rewrite seek_start_small, vec_capacity_small by (unfold i64_max; nia).
    cbn [map_err mbind res_bind]. rewrite read_exact_seek by lia.
    cbn [map_err mbind res_bind]. rewrite Hbytes, (read_at_frame 0 b1), Hh1; [|lia|simpl; lia|done|apply Hf2; simpl; lia].
    replace (zlen b2 <? 12) with false by lia.
    simpl. unfold zlen in *. rewrite u16_small by (unfold is_u16; lia). rewrite Nat2Z.id.
    apply parse_leaves_spec; [|unfold zlen; lia]. intros k a Ha. rewrite <- (Ht1 k a Ha).
    pose proof (lookup_lt_Some _ _ _ Ha). apply read_at_frame; [unfold zlen; simpl; lia..|]. apply Hf2; simpl; lia.
Qed.

(** The loop that writes the leaf blocks: [n] blocks from [cur] on, nothing else. *)
Lemma write_leaf_blocks_loop ls n : forall k f cur,
  Forall leaf_ok ls -> 0 <= cur -> cur + Z.of_nat n <= u32_max ->
  exists f', foldM (fun (st : File * Z) i =>
      let '(writer, current_block) := st in
      block_buf ← leaf_block (E := E) bs lpb (leaf_chunk lpb ls i);
      let byte_offset := current_block * bs in
      Ok (write_all (seek writer byte_offset) block_buf, u32 (current_block + 1)))
      (f, cur) (seq k n) = Ok (f', cur + Z.of_nat n) /\
    f_len f <= f_len f' <= Z.max (f_len f) ((cur + Z.of_nat n) * bs) /\
    f_pos f' = (if (n =? 0)%nat then f_pos f else (cur + Z.of_nat n) * bs) /\
    (forall i, (i < n)%nat -> (cur + Z.of_nat i) * bs + bs <= f_len f' /\
       leaf_block (E := E) bs lpb (leaf_chunk lpb ls (k + i)) =
         Ok (bytes_at f' ((cur + Z.of_nat i) * bs) bs)) /\
    (forall o m, o + m <= cur * bs \/ (cur + Z.of_nat n) * bs <= o -> bytes_at f' o m = bytes_at f o m).
Proof.
  induction n as [|n IH]; intros k f cur Hok Hc Hcn; cbn [seq foldM].
  - exists f. split; [by rewrite Z.add_0_r|]. split; [lia|]. split; [done|]. split; [lia|done].
  - destruct (leaf_block_spec ls k Hok) as (b & Hb & Hz & _). rewrite Hb. cbn [mbind res_bind].
    unfold_ranges. wrap_small.
    set (f1 := write_all (seek f (cur * bs)) b).
    assert (forall o m, o + m <= cur * bs \/ (cur + 1) * bs <= o -> bytes_at f1 o m = bytes_at f o m) as Hf1.
    { intros o m Hd. apply (bytes_at_write_ne (seek f (cur * bs))). simpl. lia. }
    assert (bytes_at f1 (cur * bs) bs = b) as Hb1.
    { rewrite <- Hz at 2. apply (bytes_at_write (seek f (cur * bs))). }
    assert (f_len f <= f_len f1 <= Z.max (f_len f) ((cur + 1) * bs) /\ (cur + 1) * bs <= f_len f1) as [Hg Hl1].
    { subst f1. unfold write_all, write_at. cbn [f_len seek f_pos]. rewrite Hz.
      replace (bs =? 0) with false by lia. lia. }
    destruct (IH (S k) f1 (cur + 1) Hok) as (f' & Hf' & Hg' & Hp' & Hblk & Hfr); [lia..|].
    exists f'. rewrite Hf'. split; [do 2 f_equal; lia|].
    assert ((cur + 1) * bs <= (cur + 1 + Z.of_nat n) * bs) by (apply Z.mul_le_mono_nonneg_r; lia).
    replace (cur + Z.of_nat (S n)) with (cur + 1 + Z.of_nat n) by lia. split; [lia|]. split.
    { rewrite Hp'. destruct n; cbn [Nat.eqb]; [|lia]. subst f1. unfold write_all. cbn [f_pos seek write_at]. rewrite Hz. lia. }
    split.
    + intros [|i] Hi.
      * rewrite Z.add_0_r, Nat.add_0_r, Hfr, Hb1 by lia. split; [nia|done].
      * destruct (Hblk i ltac:(lia)) as [H1 H2].
        replace (cur + Z.of_nat (S i)) with (cur + 1 + Z.of_nat i) by lia.
        by replace (k + S i)%nat with (S k + i)%nat by lia.
    + intros o m Hd. rewrite Hfr, Hf1 by nia. done.
Qed.

(** The index entry for the [i]-th leaf block. *)
Definition index_at (ls : list ExtentLeaf) (start : Z) (i : nat) : ExtentIndex :=
  {| ei_block := match ls !! (i * Z.to_nat lpb)%nat with Some l => el_block l | None => 0 end;
     ei_leaf_lo := start + Z.of_nat i; ei_leaf_hi := 0; ei_unused := 0 |}.

Lemma index_entries_spec ls start n :
  0 <= start -> start + Z.of_nat n <= u32_max -> (forall i, (i < n)%nat -> (i * Z.to_nat lpb < length ls)%nat) ->
  index_entries (E := E) ls lpb (Z.of_nat n) start = Ok (map (index_at ls start) (seq 0 n)).
Proof.
  intros Hs Hn Hlt. unfold index_entries. rewrite Nat2Z.id. unfold_ranges.
  induction n as [|n IH]; [done|]. rewrite seq_S, foldM_app, IH, map_app by (intros; try apply Hlt; lia).
  cbn [mbind res_bind foldM map Nat.add]. unfold index_at.
  destruct (lookup_lt_is_Some_2 ls (n * Z.to_nat lpb)) as (l & ->); [apply Hlt; lia|].
  simpl. by wrap_small.
Qed.

Lemma index_at_wf ls start i :
  Forall leaf_ok ls -> 0 <= start -> start + Z.of_nat i <= u32_max -> rec_wf (index_at ls start i).
Proof.
  intros Hok Hs Hi. unfold_ranges. refine (conj _ (conj _ (conj _ _))); simpl; unfold_ranges; try lia.
  case_match eqn:Hl; [|lia]. by destruct (Forall_lookup_1 _ _ _ _ Hok Hl) as ((? & _) & _).
Qed.

(** Parsing an index node concatenates what its leaf blocks hold. *)
Lemma parse_indices_spec f buf (idxs : list ExtentIndex) (outs : list (list (Z * Z))) : forall off,
  Forall2 (fun idx rs => parse_leaf_block idx bs f = Ok rs) idxs outs ->
  holds buf off idxs -> off + 12 * Z.of_nat (length idxs) <= zlen buf ->
  parse_indices (length idxs) off buf bs f = Ok (concat outs).
Proof.
  intros off Hall. revert off. induction Hall as [|idx rs idxs outs Hp _ IH]; intros off Hh Hl; [done|].
  cbn [length parse_indices concat] in *. replace (zlen buf <? off + 12) with false by lia.
  apply holds_tail in Hh as [Ha Hh]. rewrite Ha, Hp. cbn [mbind res_bind].
  by rewrite (IH (off + 12) Hh) by lia.
Qed.

(** What [write_extents] leaves when it takes [n] blocks from [cur]: the tree
    parses back in every file that keeps those blocks. *)
Record extents_placed (inode' : Inode) (ls : list ExtentLeaf) (f : File) (cur n : Z) (f' : File) : Prop := {
  xp_parse : forall g, (forall x, cur * bs <= x < (cur + n) * bs -> f_data g x = f_data f' x) ->
    (0 < n -> (cur + n) * bs <= f_len g) -> parse_extents inode' bs g = Ok (map leaf_range ls);
  xp_frame : forall o m, o + m <= cur * bs \/ (cur + n) * bs <= o -> bytes_at f' o m = bytes_at f o m;
  xp_len : f_len f <= f_len f' <= Z.max (f_len f) ((cur + n) * bs) /\ (0 < n -> (cur + n) * bs <= f_len f');
  xp_pos : f_pos f' = if n =? 0 then f_pos f else (cur + n) * bs;
  xp_few : zlen ls <= lpb -> n <= 1
}.

(** Depth 1: what [write_indexed_extents] writes parses back. *)
Lemma indexed_spec inode data ls f cur n :
  Forall leaf_ok ls -> n = div_ceil (zlen ls) lpb -> 0 < zlen ls -> n <= 4 ->
  0 <= cur -> cur + n <= u32_max ->
  exists buf f', is_bytes 60 buf /\ write_indexed_extents (E := E) inode data ls bs f cur =
      Ok (set_extents_flag (add_inode_blocks (set_i_block buf inode) (u32 (data + n)) bs), f', cur + n) /\
    extents_placed (set_extents_flag (add_inode_blocks (set_i_block buf inode) (u32 (data + n)) bs)) ls f cur n f'.
Proof.
  intros Hok Hn Hls Hn4 Hc Hcn. pose proof lpb_bounds as [Hl Hfit].
  pose proof (div_ceil_spec (zlen ls) lpb ltac:(lia)) as Hd. rewrite <- Hn in Hd.
  assert (0 < n) as Hn0 by nia. assert (zlen ls <= 4 * 5460) as Hmax by nia.
  set (k := Z.to_nat n). assert (Z.of_nat k = n) as Hk by lia.
  set (idxs := map (index_at ls cur) (seq 0 k)).
  destruct (put_node_spec (E := E) (node_header n 4 1) idxs 60) as (buf & Hb & Hz & Hh & Ht).
  { by apply node_header_wf. }
  { apply Forall_map, Forall_seq. intros i Hi. apply index_at_wf; auto. lia. }
  { subst idxs. rewrite length_map, length_seq. simpl. lia. }
  destruct (write_leaf_blocks_loop ls k 0 f cur Hok Hc ltac:(lia)) as (f' & Hf' & Hlen & Hpos & Hblk & Hfr).
  rewrite Hk in *. change (write_leaf_blocks (E := E) bs lpb ls n f cur = Ok (f', cur + n)) in Hf'.
  exists buf, f'. split; [exact Hz|]. split; [|constructor; [|exact Hfr|split; [exact Hlen|]| |]].
  - unfold write_indexed_extents. rewrite !(u32_small lpb), (u32_small (zlen ls)) by (unfold is_u32; lia).
    replace (lpb =? 0) with false by lia. rewrite <- Hn, Hf'. rewrite <- Hk at 1.
    rewrite index_entries_spec by (unfold zlen in *; intros; nia). fold idxs.
    cbn [mbind res_bind]. unfold node_header, INODE_BLOCK_SIZE in *.
    destruct (put_record _ 0 (zeros 60)) as [b| |]; try discriminate Hb. cbn [mbind res_bind] in *. by rewrite Hb.
  - intros g Hg Hgl. unfold parse_extents. rewrite extents_block, Hh. simpl. unfold parse_depth1. simpl.
    rewrite u16_small by (unfold is_u16; lia). fold k.
    replace k with (length idxs) by (subst idxs; by rewrite length_map, length_seq).
    rewrite (parse_indices_spec g buf idxs (map (fun i => map leaf_range (leaf_chunk lpb ls i)) (seq 0 k))).
    + rewrite <- map_map, <- concat_map, leaf_chunks_concat by (unfold zlen in *; nia). done.
    + apply Forall2_fmap, Forall_Forall2_diag, Forall_seq. intros i Hi.
      destruct (Hblk i ltac:(lia)) as [_ Hbi]. destruct (leaf_block_spec ls i Hok) as (b & Hb' & _ & Hp).
      simpl in Hbi. rewrite Hb' in Hbi. injection Hbi as ->. specialize (Hgl Hn0).
      apply Hp; unfold ExtentIndex_leaf, index_at; simpl; rewrite Z.lor_0_r; unfold_ranges; [nia|lia|].
      apply bytes_at_ext. intros x Hx. apply Hg. nia.
    + done.
    + subst idxs. rewrite length_map, length_seq. destruct Hz as [-> _]. lia.
  - intros _. destruct (Hblk (k - 1)%nat ltac:(lia)) as [Hend _]. replace (cur + Z.of_nat (k - 1)) with (cur + n - 1) in Hend by lia. lia.
  - rewrite Hpos. destruct (Nat.eqb_spec k 0), (Z.eqb_spec n 0); done || lia.
  - nia.
Qed.

Lemma indexed_overflow inode data ls f cur :
  4 * lpb < zlen ls <= u32_max -> 0 <= cur -> cur + zlen ls <= u32_max ->
  write_indexed_extents (E := E) inode data ls bs f cur = Panic.
Proof.
  intros Hls Hc Hcn. pose proof lpb_bounds as [Hl Hfit]. unfold write_indexed_extents.
  rewrite !(u32_small lpb), (u32_small (zlen ls)) by (unfold_ranges; lia).
  replace (lpb =? 0) with false by lia.
  pose proof (div_ceil_spec (zlen ls) lpb ltac:(lia)) as Hd. set (n := div_ceil (zlen ls) lpb) in *.
  assert (5 <= n <= zlen ls) as Hn by nia. replace n with (Z.of_nat (Z.to_nat n)) at 1 by lia.
  rewrite index_entries_spec by (unfold zlen, u32_max in *; intros; nia). cbn [mbind res_bind].
  set (h := mkExtentHeader _ _ _ _ _).
  destruct (put_record_spec (E := E) h 0 (zeros INODE_BLOCK_SIZE)) as (b & -> & Hz & _).
  { apply node_header_wf; done. }
  { lia. }
  { done. }
  cbn [mbind res_bind]. rewrite put_table_overflow; [done|..].
  - rewrite Hz, length_map, length_seq. change (rec_size ExtentIndex) with 12.
    rewrite zlen_zeros; unfold INODE_BLOCK_SIZE; lia.
  - destruct (Z.to_nat n) eqn:En; [lia|done].
Qed.
End Indexed.

(** ** Properties *)

Lemma sum_blocks rs : Forall range_ok rs ->
  forall n, fold_left (fun n r => n + range_len r) rs n = n + total_blocks rs.
Proof.
  induction 1 as [|r rs Hr _ IH]; intros n; simpl; [lia|]. rewrite IH, range_len_ok by done. lia.
Qed.

(** What the two layouts of [write_extents] have in common. *)
Lemma write_extents_spec {E} inode blocks bs f cur :
  28 <= bs < 65536 -> Forall range_ok blocks -> 0 < total_blocks blocks <= u32_max ->
  zlen (fill_extent_leaves_from_ranges blocks) <= 4 * leaves_per_block bs ->
  0 <= cur -> cur + 4 <= u32_max ->
  exists buf f' n, 0 <= n <= 4 /\ is_bytes 60 buf /\
    let inode' := set_extents_flag
      (add_inode_blocks (set_i_block buf inode) (u32 (total_blocks blocks + n)) bs) in
    write_extents (E := E) inode blocks bs f cur = Ok (inode', f', cur + n) /\
    extents_placed bs inode' (fill_extent_leaves_from_ranges blocks) f cur n f'.
Proof.
  intros Hbs Hr Ht Hfit Hc Hc4. pose proof (lpb_bounds bs Hbs) as [Hl _].
  destruct (fill_leaves_spec blocks 0 Hr ltac:(lia) ltac:(lia)) as (Hmap & Hlok & _).
  unfold write_extents. rewrite sum_blocks, (u32_small (0 + _)) by (auto; unfold_ranges; lia).
  replace (0 + total_blocks blocks =? 0) with false by lia.
  fold (fill_extent_leaves_from_ranges blocks) in *.
  set (ls := fill_extent_leaves_from_ranges blocks) in *.
  rewrite u32_small by (pose proof (zlen_nonneg ls); unfold_ranges; lia).
  destruct (Z.leb_spec (zlen ls) 4) as [H4|H4].
  - destruct (inline_spec (E := E) inode (total_blocks blocks) bs ls Hlok H4) as (buf & Hw & Hb & Hp).
    exists buf, f, 0. split; [lia|]. split; [done|]. rewrite !Z.add_0_r, Z.add_0_l in *.
    rewrite u32_small by (unfold_ranges; lia). rewrite Hw. split; [done|].
    constructor; [by intros|done|lia|done|lia].
  - pose proof (div_ceil_spec (zlen ls) (leaves_per_block bs) ltac:(lia)).
    destruct (indexed_spec (E := E) bs Hbs inode (total_blocks blocks) ls f cur
                (div_ceil (zlen ls) (leaves_per_block bs)) Hlok eq_refl) as (buf & f' & Hb & Hw & Hp);
      [lia|nia|lia|unfold_ranges; nia|].
    exists buf, f', (div_ceil (zlen ls) (leaves_per_block bs)). split; [nia|]. split; [done|].
    rewrite Z.add_0_l. by split.
Qed.

(** The leaves built for a file whose storage is split over ranges map its
    logical blocks 0, 1, 2, ... one to one, in order, onto the blocks of the
    ranges; every leaf is non-empty, at most 0x8000 blocks long and encodable,
    and their number is the sum of the rounded-up quotients the code reserves. *)
Theorem leaves_cover_ranges (blocks : list BlockRange)
    (Hr : Forall range_ok blocks) (Ht : total_blocks blocks <= u32_max) :
  extent_map (fill_extent_leaves_from_ranges blocks) =
    zip (seqZ 0 (total_blocks blocks)) (file_blocks blocks) /\
  Forall leaf_ok (fill_extent_leaves_from_ranges blocks) /\
  zlen (fill_extent_leaves_from_ranges blocks) =
    fold_right (fun r n => div_ceil (br_end r - br_start r) MAX_BLOCKS_PER_EXTENT + n) 0 blocks.
Proof. by apply fill_leaves_spec. Qed.

(** C2: Whenever the tree fits (at most four leaf blocks), [write_extents]
    succeeds, and [parse_extents] on the inode and the image it leaves returns
    exactly the blocks of the ranges in file order.  It consumes at most four
    blocks from [current_block], changes no byte of the image outside them, and
    of the inode only the block field, the [EXTENTS] flag and the block count,
    which grows by the data blocks plus the leaf blocks. *)
Theorem extents_roundtrip {E} (inode : Inode) (blocks : list BlockRange) (block_size : Z)
    (writer : File) (current_block : Z)
    (Hbs : 28 <= block_size < 65536) (Hr : Forall range_ok blocks)
    (Ht : 0 < total_blocks blocks <= u32_max)
    (Hfit : zlen (fill_extent_leaves_from_ranges blocks) <= 4 * leaves_per_block block_size)
    (Hc : 0 <= current_block /\ current_block + 4 <= u32_max) :
  exists buf writer' n ranges, 0 <= n <= 4 /\
    let inode' := set_extents_flag
      (add_inode_blocks (set_i_block buf inode) (u32 (total_blocks blocks + n)) block_size) in
    write_extents (E := E) inode blocks block_size writer current_block =
      Ok (inode', writer', current_block + n) /\
    parse_extents inode' block_size writer' = Ok ranges /\
    pair_blocks ranges = file_blocks blocks /\
    (forall o m, o + m <= current_block * block_size \/ (current_block + n) * block_size <= o ->
       bytes_at writer' o m = bytes_at writer o m).
Proof.
  destruct (write_extents_spec (E := E) inode blocks block_size writer current_block Hbs Hr Ht Hfit)
    as (buf & f' & n & Hn & _ & Hw & [Hp Hfr [_ Hlen] _ _]); [lia..|].
  eexists buf, f', n, _. split; [exact Hn|]. split; [exact Hw|]. split; [by apply Hp|].
  split; [|exact Hfr]. apply fill_leaves_blocks; [done|lia].
Qed.

(** A file that would need more than four leaf blocks (a tree deeper than
    the code supports) makes [write_extents] panic: it never leaves an inode
    with a truncated tree behind. *)
Theorem deep_tree_panics {E} (inode : Inode) (blocks : list BlockRange) (block_size : Z)
    (writer : File) (current_block : Z)
    (Hbs : 28 <= block_size < 65536) (Hr : Forall range_ok blocks)
    (Ht : 0 < total_blocks blocks <= u32_max)
    (Hdeep : 4 * leaves_per_block block_size < zlen (fill_extent_leaves_from_ranges blocks) <= u32_max)
    (Hc : 0 <= current_block /\
          current_block + zlen (fill_extent_leaves_from_ranges blocks) <= u32_max) :
  write_extents (E := E) inode blocks block_size writer current_block = Panic.
Proof.
  pose proof (lpb_bounds block_size Hbs) as [Hl _].
  unfold write_extents. rewrite sum_blocks, (u32_small (0 + _)) by (auto; unfold_ranges; lia).
  replace (0 + total_blocks blocks =? 0) with false by lia.
  rewrite u32_small by (unfold_ranges; lia).
  replace (_ <=? 4) with false by lia. apply indexed_overflow; unfold_ranges; lia.
Qed.

(** Two ranges, the first longer than one extent holds. *)
Definition sample_ranges : list BlockRange :=
  [ {| br_start := 100; br_end := 100 + 0x8000 + 5 |}; {| br_start := 70000; br_end := 70010 |} ].

(** Six ranges: a depth-1 tree in blocks of 64 bytes. *)
Definition sample_split : list BlockRange :=
  map (fun i => {| br_start := i * 10; br_end := i * 10 + 1 |}) [1; 2; 3; 4; 5; 6].

Lemma sample_split_ok : Forall range_ok sample_split.
Proof. repeat first [apply Forall_nil | apply Forall_cons]; repeat split; by vm_compute. Qed.

Lemma extents_roundtrip_witness :
  exists buf writer' n ranges, 0 <= n <= 4 /\
    let inode' := set_extents_flag
      (add_inode_blocks (set_i_block buf Inode_default) (u32 (total_blocks sample_split + n)) 64) in
    write_extents (E := unit) Inode_default sample_split 64 empty_file 8 = Ok (inode', writer', 8 + n) /\
    parse_extents inode' 64 writer' = Ok ranges /\
    pair_blocks ranges = file_blocks sample_split /\
    (forall o m, o + m <= 8 * 64 \/ (8 + n) * 64 <= o ->
       bytes_at writer' o m = bytes_at empty_file o m).
Proof.
  refine (extents_roundtrip Inode_default sample_split 64 empty_file 8 _ _ _ _ _).
  - lia.
  - exact sample_split_ok.
  - split; by vm_compute.
  - by vm_compute.
  - split; by vm_compute.
Defined.

