(* ===== verification/Xattr.v ===== *)
(** Extended attributes: [common/disk-image/src/ext4/xattr.rs].

    Attribute names and values are byte lists.  The writers fill a buffer from
    both ends, entries from the front and values from the back; [decode] is the
    reading of that layout the ext4 format prescribes, against which the
    writers are proved. *)

From stdpp Require Import sorting.
From S2P Require Import Prelude Bytes Types Errors Dir Tables RustSort.

(** ** Names *)

Definition XATTR_PREFIXES : list (Z * list Z) :=
  [ (1, [117; 115; 101; 114; 46]);
    (2, [115; 121; 115; 116; 101; 109; 46; 112; 111; 115; 105; 120; 95; 97; 99; 108; 95; 97; 99; 99;
         101; 115; 115]);
    (3, [115; 121; 115; 116; 101; 109; 46; 112; 111; 115; 105; 120; 95; 97; 99; 108; 95; 100; 101;
         102; 97; 117; 108; 116]);
    (4, [116; 114; 117; 115; 116; 101; 100; 46]);
    (6, [115; 101; 99; 117; 114; 105; 116; 121; 46]);
    (7, [115; 121; 115; 116; 101; 109; 46]);
    (8, [115; 121; 115; 116; 101; 109; 46; 114; 105; 99; 104; 97; 99; 108]) ].

Record ExtendedAttribute : Type := mkExtendedAttribute {
  xa_name : list Z; xa_index : Z; xa_value : list Z
}.

Fixpoint starts_with (prefix name : list Z) : bool :=
  match prefix, name with
  | [], _ => true
  | p :: prefix, c :: name => (p =? c) && starts_with prefix name
  | _ :: _, [] => false
  end.

Definition compress_name (name : list Z) : Z * list Z :=
  let '(best_index, best_prefix_len) :=
    fold_left (fun (best : Z * Z) (entry : Z * list Z) =>
      let '(idx, prefix) := entry in
      if starts_with prefix name && (best.2 <? zlen prefix) then (idx, zlen prefix) else best)
      XATTR_PREFIXES (0, 0) in
  (best_index, drop (Z.to_nat best_prefix_len) name).

Definition decompress_name (index : Z) (suffix : list Z) : list Z :=
  match List.find (fun entry => entry.1 =? index) XATTR_PREFIXES with
  | Some (_, prefix) => prefix ++ suffix
  | None => suffix
  end.

Definition ExtendedAttribute_new (full_name value : list Z) : ExtendedAttribute :=
  let '(index, suffix) := compress_name full_name in
  {| xa_name := suffix; xa_index := index; xa_value := value |}.

Definition entry_size (a : ExtendedAttribute) : Z := u32 (align_up (zlen (xa_name a) + 16) 4).
Definition value_size (a : ExtendedAttribute) : Z := u32 (align_up (zlen (xa_value a)) 4).
Definition total_size (a : ExtendedAttribute) : Z := u32 (entry_size a + value_size a).

(** ** Hash *)

Definition NAME_HASH_SHIFT : Z := 5.
Definition VALUE_HASH_SHIFT : Z := 16.

Definition hash_mix (shift h w : Z) : Z :=
  Z.lxor (Z.lxor (u32 (Z.shiftl h shift)) (Z.shiftr h (8 * 4 - shift))) w.

(** Little-endian words of the value, the last one padded with zeros. *)
Fixpoint value_words (fuel : nat) (value : list Z) : list Z :=
  match fuel with
  | O => []
  | S fuel =>
      if zlen value =? 0 then []
      else if 4 <=? zlen value then le_val (take 4 value) :: value_words fuel (drop 4 value)
      else [le_val (value ++ zeros (4 - zlen value))]
  end.

Definition hash (a : ExtendedAttribute) : Z :=
  let h := fold_left (hash_mix NAME_HASH_SHIFT) (xa_name a) 0 in
  fold_left (hash_mix VALUE_HASH_SHIFT) (value_words (length (xa_value a)) (xa_value a)) h.

(** ** State *)

Record XattrState : Type := mkXattrState {
  inode_capacity : Z;
  block_capacity : Z;
  inline_attrs : list ExtendedAttribute;
  block_attrs : list ExtendedAttribute;
  used_inline : Z;
  used_block : Z;
  inode_number : Z
}.

Definition XattrState_new (inode inode_cap block_cap : Z) : XattrState :=
  {| inode_capacity := inode_cap; block_capacity := block_cap; inline_attrs := []; block_attrs := [];
     used_inline := XATTR_INODE_HEADER_SIZE; used_block := XATTR_BLOCK_HEADER_SIZE;
     inode_number := inode |}.

(** An error leaves the state as it was. *)
Definition add (st : XattrState) (attr : ExtendedAttribute) : res FormatError XattrState :=
  if EXT4_NAME_LEN <? zlen (xa_name attr)
  then Err (InvalidName (decompress_name (xa_index attr) (xa_name attr)))
  else
    let total := total_size attr in
    if u32 (used_inline st + total + 4) <=? inode_capacity st then
      Ok {| inode_capacity := inode_capacity st; block_capacity := block_capacity st;
            inline_attrs := inline_attrs st ++ [attr]; block_attrs := block_attrs st;
            used_inline := u32 (used_inline st + total); used_block := used_block st;
            inode_number := inode_number st |}
    else if u32 (used_block st + total + 4) <=? block_capacity st then
      Ok {| inode_capacity := inode_capacity st; block_capacity := block_capacity st;
            inline_attrs := inline_attrs st; block_attrs := block_attrs st ++ [attr];
            used_inline := used_inline st; used_block := u32 (used_block st + total);
            inode_number := inode_number st |}
    else Err (XattrInsufficientSpace (inode_number st)).

Definition has_inline (st : XattrState) : bool := negb (bool_decide (zlen (inline_attrs st) = 0)).
Definition has_block (st : XattrState) : bool := negb (bool_decide (zlen (block_attrs st) = 0)).

(** ** Serialisation *)

Definition write_xattr_entry (buf name : list Z) (name_index value_offset value_size hash : Z) :
    list Z :=
  let buf := put_u8 buf 0 (u8 (zlen name)) in
  let buf := put_u8 buf 1 name_index in
  let buf := put_u16 buf 2 value_offset in
  let buf := put_u32 buf 4 0 in
  let buf := put_u32 buf 8 value_size in
  let buf := put_u32 buf 12 hash in
  put_bytes buf 16 name.

(** The loop both writers share: [base] is what value offsets are relative to,
    [hashf] the hash each entry stores. *)
Fixpoint write_attrs (base : Z) (hashf : ExtendedAttribute -> Z) (attrs : list ExtendedAttribute)
    (entry_offset value_end : Z) (buf : list Z) : res FormatError (list Z) :=
  match attrs with
  | [] => Ok buf
  | attr :: attrs =>
      let value_end := u64 (value_end - align_up (zlen (xa_value attr)) 4) in
      let rel_value_offset := u64 (value_end - base) in
      if zlen buf <? entry_offset + 16 + zlen (xa_name attr) then Err MalformedXattrBuffer
      else
        let slice := write_xattr_entry (drop (Z.to_nat entry_offset) buf) (xa_name attr)
                       (xa_index attr) (u16 rel_value_offset) (u32 (zlen (xa_value attr))) (hashf attr) in
        let buf := put_bytes buf entry_offset slice in
        let entry_offset := entry_offset + align_up (16 + zlen (xa_name attr)) 4 in
        if zlen buf <? value_end + zlen (xa_value attr) then Panic
        else write_attrs base hashf attrs entry_offset value_end (put_bytes buf value_end (xa_value attr))
  end.

Definition write_inline (st : XattrState) : res FormatError (list Z) :=
  let capacity := inode_capacity st in
  if capacity <? 4 then Panic
  else
    let buf := put_u32 (zeros capacity) 0 XATTR_HEADER_MAGIC in
    write_attrs XATTR_INODE_HEADER_SIZE (fun _ => 0) (inline_attrs st) XATTR_INODE_HEADER_SIZE
      capacity buf.

(** The order of block attributes: index, then name length, then name. *)
Definition attr_cmp (a b : ExtendedAttribute) : comparison :=
  then_with (then_with (xa_index a ?= xa_index b) (zlen (xa_name a) ?= zlen (xa_name b)))
    (bytes_cmp (xa_name a) (xa_name b)).

Definition write_block (st : XattrState) : res FormatError (list Z) :=
  let capacity := block_capacity st in
  if capacity <? 12 then Panic
  else
    let buf := put_u32 (zeros capacity) 0 XATTR_HEADER_MAGIC in
    let buf := put_u32 buf 4 1 in
    let buf := put_u32 buf 8 1 in
    let sorted := sort_by attr_cmp (block_attrs st) in
    write_attrs 0 hash sorted XATTR_BLOCK_HEADER_SIZE capacity buf.

(** ** The on-disk format

    A reader walks the entries from the first one until four zero bytes, which
    are an entry's name length, name index and value offset; an entry names its
    value by an offset relative to [base]. *)

Definition is_last (e : XAttrEntry) : bool :=
  (xe_name_len e =? 0) && (xe_name_index e =? 0) && (xe_value_offset e =? 0).

Fixpoint decode (fuel : nat) (base off : Z) (buf : list Z) : list (ExtendedAttribute * Z) :=
  match fuel with
  | O => []
  | S fuel =>
      let e : XAttrEntry := read_at off buf in
      if is_last e then []
      else
        let name := sub_bytes buf (off + 16) (xe_name_len e) in
        let value := sub_bytes buf (base + xe_value_offset e) (xe_value_size e) in
        ({| xa_name := name; xa_index := xe_name_index e; xa_value := value |}, xe_hash e)
          :: decode fuel base (off + align_up (16 + xe_name_len e) 4) buf
  end.

(** ** Names: lemmas *)

Lemma starts_with_spec prefix : forall name,
  starts_with prefix name = true -> name = prefix ++ drop (length prefix) name.
Proof.
  induction prefix as [|p prefix IH]; intros [|c name]; simpl; try done.
  rewrite andb_true_iff, Z.eqb_eq. intros [-> Hs]. f_equal. auto.
Qed.

(** The best match so far: none yet, or a matching table entry that no matching
    entry seen so far exceeds. *)
Definition best_match (name : list Z) (seen : list (Z * list Z)) (best : Z * Z) : Prop :=
  (best = (0, 0) \/
   exists prefix, In (best.1, prefix) seen /\ starts_with prefix name = true /\ best.2 = zlen prefix) /\
  forall i q, In (i, q) seen -> starts_with q name = true -> zlen q <= best.2.

Lemma best_match_fold name l : forall seen best,
  best_match name seen best ->
  best_match name (seen ++ l)
    (fold_left (fun (best : Z * Z) (entry : Z * list Z) =>
      let '(idx, prefix) := entry in
      if starts_with prefix name && (best.2 <? zlen prefix) then (idx, zlen prefix) else best) l best).
Proof.
  induction l as [|[idx prefix] l IH]; intros seen best [Hb Hmax]; simpl; [by rewrite app_nil_r|].
  rewrite cons_middle, app_assoc. apply IH.
  destruct (starts_with prefix name) eqn:Hs; [destruct (Z.ltb_spec best.2 (zlen prefix)) as [Hlt|Hge]|]; simpl.
  - split; [right; exists prefix; repeat split; auto; apply in_or_app; right; by left|].
    intros i q [Hi|[[= <- <-]|[]]]%in_app_or Hq; [specialize (Hmax i q Hi Hq)|]; simpl; lia.
  - split; [destruct Hb as [Hb|(p & Hp & ?)]; [by left|right; exists p; auto using in_or_app]|].
    intros i q [Hi|[[= <- <-]|[]]]%in_app_or Hq; eauto.
  - split; [destruct Hb as [Hb|(p & Hp & ?)]; [by left|right; exists p; auto using in_or_app]|].
    intros i q [Hi|[[= <- <-]|[]]]%in_app_or Hq; eauto. congruence.
Qed.

Lemma find_prefix i prefix :
  In (i, prefix) XATTR_PREFIXES ->
  List.find (fun entry => entry.1 =? i) XATTR_PREFIXES = Some (i, prefix).
Proof. intros Hin. repeat (destruct Hin as [[= <- <-]|Hin]; [reflexivity|]). destruct Hin. Qed.

(** Compressing an attribute name strips the longest matching prefix of the
    table and decompressing the result restores the name, for every name. *)
Theorem xattr_name_roundtrip (name : list Z) :
  let '(index, suffix) := compress_name name in
  decompress_name index suffix = name /\
  (forall i q, In (i, q) XATTR_PREFIXES -> starts_with q name = true ->
     zlen suffix <= zlen name - zlen q).
Proof.
  unfold compress_name.
  destruct (best_match_fold name XATTR_PREFIXES [] (0, 0)) as [Hb Hmax].
  { split; [by left|]. by intros i q []. }
  destruct (fold_left _ _ _) as [i l]. simpl in *. destruct Hb as [[= -> ->]|(prefix & Hin & Hs & ->)].
  - rewrite drop_0. split; [done|]. intros i q Hi Hq. specialize (Hmax i q Hi Hq). lia.
  - apply starts_with_spec in Hs as Hn. unfold zlen in *. rewrite Nat2Z.id.
    split.
    + unfold decompress_name. rewrite (find_prefix i prefix Hin). by rewrite <- Hn.
    + intros j q Hj Hq. specialize (Hmax j q Hj Hq). rewrite Hn at 2. rewrite length_app. lia.
Qed.

(** ** Sizes *)

Definition attr_ok (a : ExtendedAttribute) : Prop :=
  Forall is_u8 (xa_name a) /\ Forall is_u8 (xa_value a) /\ is_u8 (xa_index a) /\
  zlen (xa_name a) <= EXT4_NAME_LEN /\ zlen (xa_value a) < 0x80000000.

(** Room an attribute takes at the front and at the back of the area. *)
Definition front (a : ExtendedAttribute) : Z := align_up (16 + zlen (xa_name a)) 4.
Definition back (a : ExtendedAttribute) : Z := align_up (zlen (xa_value a)) 4.
Definition front_sum (l : list ExtendedAttribute) : Z := fold_right (fun a n => front a + n) 0 l.
Definition back_sum (l : list ExtendedAttribute) : Z := fold_right (fun a n => back a + n) 0 l.

Section Sizes.
Implicit Types (a : ExtendedAttribute) (l : list ExtendedAttribute).

Lemma front_bounds a : attr_ok a -> 16 + zlen (xa_name a) <= front a <= 274.
Proof.
  intros (_ & _ & _ & Hn & _). pose proof (zlen_nonneg (xa_name a)). unfold EXT4_NAME_LEN in Hn.
  pose proof (align_up_4_spec (16 + zlen (xa_name a)) ltac:(lia)). unfold front. lia.
Qed.

Lemma back_bounds a : attr_ok a -> zlen (xa_value a) <= back a < 0x80000004.
Proof.
  intros (_ & _ & _ & _ & Hv). pose proof (zlen_nonneg (xa_value a)).
  pose proof (align_up_4_spec (zlen (xa_value a)) ltac:(lia)). unfold back. lia.
Qed.

Lemma total_size_ok a : attr_ok a -> total_size a = front a + back a.
Proof.
  intros Ha. pose proof (front_bounds a Ha). pose proof (back_bounds a Ha).
  pose proof (zlen_nonneg (xa_name a)). pose proof (zlen_nonneg (xa_value a)).
  unfold total_size, entry_size, value_size.
  replace (zlen (xa_name a) + 16) with (16 + zlen (xa_name a)) by lia.
  change (align_up (16 + zlen (xa_name a)) 4) with (front a).
  change (align_up (zlen (xa_value a)) 4) with (back a). by wrap_small.
Qed.

Lemma sums_nonneg l : Forall attr_ok l -> 0 <= front_sum l /\ 0 <= back_sum l.
Proof.
  induction 1 as [|a l Ha _ IH]; simpl; [lia|]. pose proof (front_bounds a Ha).
  pose proof (back_bounds a Ha). pose proof (zlen_nonneg (xa_name a)).
  pose proof (zlen_nonneg (xa_value a)). lia.
Qed.

Lemma sums_snoc l a :
  front_sum (l ++ [a]) = front_sum l + front a /\ back_sum (l ++ [a]) = back_sum l + back a.
Proof. induction l as [|b l [IH1 IH2]]; simpl; lia. Qed.

Lemma sums_perm l l' : l ≡ₚ l' -> front_sum l = front_sum l' /\ back_sum l = back_sum l'.
Proof. induction 1; simpl; lia. Qed.

Lemma hash_mix_range shift h w :
  0 <= shift <= 32 -> is_u32 h -> is_u32 w -> is_u32 (hash_mix shift h w).
Proof.
  intros Hs Hh Hw. apply (lxor_below 32); [lia| |exact Hw]. apply (lxor_below 32); [lia|apply u32_range|].
  apply shiftr_below; [lia|lia|exact Hh].
Qed.

Lemma hash_fold_range shift ws h :
  0 <= shift <= 32 -> is_u32 h -> Forall is_u32 ws -> is_u32 (fold_left (hash_mix shift) ws h).
Proof.
  intros Hs Hh Hws. revert h Hh. induction Hws; intros h Hh; simpl; auto using hash_mix_range.
Qed.

Lemma le_val_4 bs : Forall is_u8 bs -> zlen bs = 4 -> is_u32 (le_val bs).
Proof. intros Hb Hl. pose proof (le_val_range bs Hb) as H. rewrite Hl in H. exact H. Qed.

Lemma value_words_range fuel : forall v, Forall is_u8 v -> Forall is_u32 (value_words fuel v).
Proof.
  induction fuel as [|fuel IH]; intros v Hv; cbn [value_words]; [apply Forall_nil|].
  pose proof (zlen_nonneg v). destruct (Z.eqb_spec (zlen v) 0); [apply Forall_nil|].
  destruct (Z.leb_spec 4 (zlen v)).
  - apply Forall_cons; [|by apply IH, Forall_drop]. apply le_val_4; [by apply Forall_take|].
    unfold zlen in *. rewrite length_take. lia.
  - apply Forall_cons; [|apply Forall_nil]. apply le_val_4.
    + apply Forall_app. split; [done|]. by apply Forall_zeros.
    + rewrite zlen_app, zlen_zeros; lia.
Qed.

Lemma hash_range a : attr_ok a -> is_u32 (hash a).
Proof.
  intros (Hn & Hv & _). apply hash_fold_range; [done| |by apply value_words_range].
  apply hash_fold_range; [done|done|]. eapply list.Forall_impl; [exact Hn|].
  intros x. unfold_ranges. lia.
Qed.
End Sizes.

(** ** One entry in the buffer *)

Lemma put_tail buf eo slice :
  0 <= eo -> zlen slice = zlen buf - eo -> put_bytes buf eo slice = take (Z.to_nat eo) buf ++ slice.
Proof.
  intros He Hl. pose proof (zlen_nonneg slice). unfold put_bytes, zlen in *.
  rewrite <- (take_drop (Z.to_nat eo) buf) at 1.
  replace (Z.to_nat eo) with (length (take (Z.to_nat eo) buf) + 0)%nat at 1 by (rewrite length_take; lia).
  rewrite list_inserts_app_r. f_equal. rewrite <- (app_nil_r (drop _ buf)).
  rewrite list_inserts_0_r; [by rewrite app_nil_r|]. rewrite length_drop. lia.
Qed.

Lemma sub_drop buf eo o n : 0 <= eo -> 0 <= o -> sub_bytes (drop (Z.to_nat eo) buf) o n = sub_bytes buf (eo + o) n.
Proof. intros. unfold sub_bytes. rewrite drop_drop. do 2 f_equal. lia. Qed.

Section Entry.
Context (buf : list Z) (eo : Z) (name : list Z) (index voff vsize h : Z).
Hypotheses (Heo : 0 <= eo) (Hfit : eo + 16 + zlen name <= zlen buf).
Hypotheses (Hname : zlen name <= 255) (Hi : is_u8 index) (Hvo : is_u16 voff) (Hvs : is_u32 vsize)
  (Hh : is_u32 h).

Definition entry_written : list Z :=
  put_bytes buf eo (write_xattr_entry (drop (Z.to_nat eo) buf) name index voff vsize h).

Definition entry_header : XAttrEntry :=
  {| xe_name_len := zlen name; xe_name_index := index; xe_value_offset := voff; xe_value_inum := 0;
     xe_value_size := vsize; xe_hash := h |}.

Lemma entry_header_wf : XAttrEntry_wf entry_header.
Proof.
  pose proof (zlen_nonneg name). refine (conj _ (conj _ (conj _ (conj _ (conj _ _))))); simpl; try done.
  unfold is_u8. lia.
Qed.

Lemma write_xattr_entry_eq b :
  write_xattr_entry b name index voff vsize h = put_bytes (XAttrEntry_write_to entry_header b) 16 name.
Proof.
  pose proof (zlen_nonneg name). unfold write_xattr_entry. by rewrite u8_small by (unfold is_u8; lia).
Qed.

Lemma zlen_slice :
  zlen (write_xattr_entry (drop (Z.to_nat eo) buf) name index voff vsize h) = zlen buf - eo.
Proof.
  pose proof (zlen_nonneg name). rewrite write_xattr_entry_eq, zlen_put.
  etrans; [exact (zlen_write_to entry_header _)|]. unfold zlen in *. rewrite length_drop. lia.
Qed.

Lemma zlen_entry_written : zlen entry_written = zlen buf.
Proof. apply zlen_put. Qed.

Lemma entry_written_app :
  entry_written = take (Z.to_nat eo) buf ++ write_xattr_entry (drop (Z.to_nat eo) buf) name index voff vsize h.
Proof. apply put_tail; [done|apply zlen_slice]. Qed.

Lemma zlen_take_eo : zlen (take (Z.to_nat eo) buf) = eo.
Proof. pose proof (zlen_nonneg name). unfold zlen in *. rewrite length_take. lia. Qed.

(** Bytes of the entry, and bytes after it. *)
Lemma sub_entry_written o n :
  0 <= n -> eo <= o ->
  sub_bytes entry_written o n =
    sub_bytes (write_xattr_entry (drop (Z.to_nat eo) buf) name index voff vsize h) (o - eo) n.
Proof.
  intros Hn Ho. rewrite entry_written_app, sub_app_r by (rewrite ?zlen_take_eo; lia).
  by rewrite zlen_take_eo.
Qed.

Lemma entry_written_frame o n :
  0 <= o -> 0 <= n -> o + n <= eo \/ eo + 16 + zlen name <= o ->
  sub_bytes entry_written o n = sub_bytes buf o n.
Proof.
  intros Ho Hn Hd. pose proof (zlen_nonneg name). pose proof zlen_slice as Hz.
  rewrite write_xattr_entry_eq in Hz. rewrite zlen_put in Hz. destruct Hd as [Hd|Hd].
  - rewrite entry_written_app, sub_app_l by (rewrite ?zlen_take_eo; lia).
    unfold sub_bytes. rewrite <- (take_drop (Z.to_nat eo) buf) at 2.
    rewrite drop_app_le by (pose proof zlen_take_eo; unfold zlen in *; lia).
    rewrite take_app_le; [done|]. pose proof zlen_take_eo. unfold zlen in *. rewrite length_drop. lia.
  - rewrite sub_entry_written by lia. rewrite write_xattr_entry_eq.
    rewrite sub_put_ne by lia.
    pose proof (zlen_write_to entry_header (drop (Z.to_nat eo) buf)) as Hw. simpl in Hw.
    etrans; [exact (write_to_frame (A := XAttrEntry) entry_header (drop (Z.to_nat eo) buf) (o - eo) n
      entry_header_wf ltac:(simpl; lia) ltac:(simpl; lia) Hn)|].
    rewrite sub_drop by lia. f_equal. lia.
Qed.

Lemma entry_written_read :
  read_at eo entry_written = entry_header /\ sub_bytes entry_written (eo + 16) (zlen name) = name.
Proof.
  pose proof (zlen_nonneg name). pose proof zlen_slice as Hz.
  rewrite write_xattr_entry_eq in Hz. rewrite zlen_put in Hz.
  pose proof (zlen_write_to entry_header (drop (Z.to_nat eo) buf)) as Hw. simpl in Hw. split.
  - rewrite read_at_sub by (rewrite ?zlen_entry_written; simpl; lia).
    rewrite sub_entry_written by (simpl; lia). rewrite Z.sub_diag, write_xattr_entry_eq.
    rewrite sub_put_ne by (simpl; lia).
    transitivity (read_from (XAttrEntry_write_to entry_header (drop (Z.to_nat eo) buf)) : XAttrEntry).
    + symmetry. apply (read_from_local (A := XAttrEntry)). simpl. lia.
    + exact (read_write (A := XAttrEntry) entry_header (drop (Z.to_nat eo) buf) entry_header_wf
               ltac:(simpl; lia)).
  - rewrite sub_entry_written by lia. replace (eo + 16 - eo) with 16 by lia.
    rewrite write_xattr_entry_eq. apply sub_put_eq; lia.
Qed.
End Entry.

(** ** The area between entries and values *)

Lemma sub_zeros n o m : 0 <= o -> 0 <= m -> o + m <= n -> sub_bytes (zeros n) o m = zeros m.
Proof.
  intros. apply list_eq. intros i. rewrite lookup_sub by lia. unfold zeros.
  case_decide; [rewrite !lookup_replicate_2 by lia; done|].
  by rewrite (lookup_ge_None_2 (replicate _ _)) by (rewrite length_replicate; lia).
Qed.

(** A zeroed area stays zeroed under writes around a part of it. *)
Lemma zeroed_part buf o n o' n' :
  sub_bytes buf o n = zeros n -> 0 <= o -> o <= o' -> 0 <= n' -> o' + n' <= o + n ->
  sub_bytes buf o' n' = zeros n'.
Proof.
  intros Hz Ho Ho' Hn Hle. rewrite <- (sub_zeros n (o' - o) n') by lia. rewrite <- Hz.
  rewrite sub_sub by lia. f_equal. lia.
Qed.

Lemma terminator buf off :
  0 <= off -> sub_bytes buf off 4 = zeros 4 -> is_last (read_at off buf) = true.
Proof.
  intros Ho Hz. unfold is_last, read_at. change (zeros 4) with [0; 0; 0; 0] in Hz.
  unfold sub_bytes in Hz. destruct (drop (Z.to_nat off) buf) as [|b0 [|b1 [|b2 [|b3 rest]]]]; try done.
  by injection Hz as -> -> -> ->.
Qed.

Section WriteAttrs.
Context (base : Z) (hashf : ExtendedAttribute -> Z).
Hypotheses (Hbase : 0 <= base) (Hhash : forall a, attr_ok a -> is_u32 (hashf a)).

(** One iteration: where the entry and the value go, and that nothing else changes. *)
Lemma write_attr_step a l eo ve buf :
  attr_ok a -> base <= eo -> eo + front a + 4 <= ve - back a -> ve <= zlen buf -> ve < 65536 ->
  exists b, write_attrs base hashf (a :: l) eo ve buf =
      write_attrs base hashf l (eo + front a) (ve - back a) b /\
    zlen b = zlen buf /\
    read_at eo b = entry_header (xa_name a) (xa_index a) (ve - back a - base) (zlen (xa_value a)) (hashf a) /\
    sub_bytes b (eo + 16) (zlen (xa_name a)) = xa_name a /\
    sub_bytes b (ve - back a) (zlen (xa_value a)) = xa_value a /\
    (forall o n, 0 <= o -> 0 <= n -> o + n <= eo \/ (eo + front a <= o /\ o + n <= ve - back a) \/ ve <= o ->
       sub_bytes b o n = sub_bytes buf o n).
Proof.
  intros Ha Heo Hroom Hve Hve16.
  pose proof (front_bounds a Ha) as Hfb. pose proof (back_bounds a Ha) as Hbb.
  pose proof (zlen_nonneg (xa_name a)) as Hn0. pose proof (zlen_nonneg (xa_value a)) as Hv0.
  pose proof Ha as (_ & _ & Hidx & Hnl & _). unfold EXT4_NAME_LEN in Hnl. pose proof (Hhash a Ha) as Hha.
  assert (is_u16 (ve - back a - base)) as Hvo by (unfold is_u16; lia).
  assert (is_u32 (zlen (xa_value a))) as Hvs by (unfold is_u32; lia).
  pose proof (entry_written_frame buf eo (xa_name a) (xa_index a) _ _ _ ltac:(lia) ltac:(lia) Hnl Hidx
                Hvo Hvs Hha) as Hf1.
  pose proof (entry_written_read buf eo (xa_name a) (xa_index a) _ _ _ ltac:(lia) ltac:(lia) Hnl Hidx
                Hvo Hvs Hha) as [Hr1 Hname1].
  pose proof (zlen_entry_written buf eo (xa_name a) (xa_index a) (ve - back a - base)
                (zlen (xa_value a)) (hashf a)) as Hz1.
  cbn [write_attrs]. fold (back a) (front a). rewrite (u64_small (ve - back a)) by (unfold is_u64; lia).
  rewrite (u64_small (ve - back a - base)), (u16_small _ Hvo), (u32_small _ Hvs) by (unfold_ranges; lia).
  fold (entry_written buf eo (xa_name a) (xa_index a) (ve - back a - base) (zlen (xa_value a)) (hashf a)).
  set (b1 := entry_written _ _ _ _ _ _ _) in *. rewrite Hz1.
  replace (zlen buf <? eo + 16 + zlen (xa_name a)) with false by lia.
  replace (zlen buf <? ve - back a + zlen (xa_value a)) with false by lia.
  assert (forall o n, 0 <= o -> 0 <= n -> o + n <= ve - back a \/ ve - back a + zlen (xa_value a) <= o ->
            sub_bytes (put_bytes b1 (ve - back a) (xa_value a)) o n = sub_bytes b1 o n) as Hf2
    by (intros; apply sub_put_ne; lia).
  eexists. split; [reflexivity|]. split; [by rewrite zlen_put|]. split_and!.
  - rewrite <- Hr1. apply read_at_frame; [lia|simpl; lia|apply zlen_put|apply Hf2; simpl; lia].
  - rewrite Hf2 by lia. exact Hname1.
  - apply sub_put_eq; lia.
  - intros o n Ho Hn Hd. rewrite Hf2, Hf1 by lia. done.
Qed.

(** Filling a zeroed area from both ends: everything fits, nothing overlaps,
    the entries are terminated, and the reader gets back what was written. *)
Lemma write_attrs_spec l : forall eo ve buf fuel,
  Forall attr_ok l -> base <= eo -> eo + front_sum l + 4 <= ve - back_sum l ->
  ve <= zlen buf -> ve < 65536 -> sub_bytes buf eo (ve - eo) = zeros (ve - eo) ->
  (length l < fuel)%nat ->
  exists buf', write_attrs base hashf l eo ve buf = Ok buf' /\ zlen buf' = zlen buf /\
    decode fuel base eo buf' = map (fun a => (a, hashf a)) l /\
    (forall o n, 0 <= o -> 0 <= n -> o + n <= eo \/ ve <= o -> sub_bytes buf' o n = sub_bytes buf o n).
Proof.
  induction l as [|a l IH]; intros eo ve buf fuel Hok Heo Hroom Hve Hve16 Hz Hf;
    (destruct fuel as [|fuel]; [simpl in Hf; lia|]).
  { exists buf. cbn [write_attrs decode front_sum back_sum fold_right map] in *.
    rewrite terminator; [done|lia|]. eapply zeroed_part; [exact Hz|lia..]. }
  apply Forall_cons_1 in Hok as [Ha Hok]. pose proof (sums_nonneg l Hok) as [Hfs Hbs].
  pose proof (front_bounds a Ha) as Hfb. pose proof (back_bounds a Ha) as Hbb.
  pose proof (zlen_nonneg (xa_name a)) as Hn0. pose proof (zlen_nonneg (xa_value a)) as Hv0.
  change (front_sum (a :: l)) with (front a + front_sum l) in Hroom.
  change (back_sum (a :: l)) with (back a + back_sum l) in Hroom.
  destruct (write_attr_step a l eo ve buf Ha Heo) as (b & -> & Hzb & Hr & Hname & Hval & Hfb'); [lia..|].
  destruct (IH (eo + front a) (ve - back a) b fuel Hok) as (b' & Hw & Hzb' & Hd & Hfr); [lia..| |simpl in Hf; lia|].
  { rewrite Hfb' by lia. eapply zeroed_part; [exact Hz|lia..]. }
  exists b'. split; [done|]. split; [lia|]. split.
  - cbn [decode map].
    assert (read_at eo b' = entry_header (xa_name a) (xa_index a) (ve - back a - base)
              (zlen (xa_value a)) (hashf a)) as ->.
    { rewrite <- Hr. apply read_at_frame; [lia|simpl; lia|done|apply Hfr; simpl; lia]. }
    unfold is_last. cbn [entry_header xe_name_len xe_name_index xe_value_offset xe_value_size xe_hash].
    replace (ve - back a - base =? 0) with false by lia. rewrite andb_false_r.
    fold (front a). rewrite Hd. replace (base + (ve - back a - base)) with (ve - back a) by lia.
    rewrite !Hfr by lia. rewrite Hname, Hval. by destruct a.
  - intros o n Ho Hn Hdj. rewrite Hfr, Hfb' by lia. done.
Qed.
End WriteAttrs.

(** ** The state *)

(** Both areas have room for what was added and for the terminator. *)
Record xattr_wf (st : XattrState) : Prop := {
  xw_caps : inode_capacity st < 65536 /\ block_capacity st < 65536;
  xw_attrs : Forall attr_ok (inline_attrs st) /\ Forall attr_ok (block_attrs st);
  xw_inline : used_inline st = 4 + front_sum (inline_attrs st) + back_sum (inline_attrs st) /\
              used_inline st + 4 <= inode_capacity st;
  xw_block : used_block st = 32 + front_sum (block_attrs st) + back_sum (block_attrs st) /\
             used_block st + 4 <= block_capacity st
}.

(** [add] keeps the capacity invariant, with which both areas always have
    room for their entries, values and a terminator.  It puts the attribute
    inline when it fits there, else in the block when it fits there, and fails
    with [XattrInsufficientSpace] exactly when it fits in neither. *)
Theorem xattr_add_spec (st : XattrState) (a : ExtendedAttribute)
    (Hwf : xattr_wf st) (Ha : attr_ok a) :
  let fits_inline := used_inline st + front a + back a + 4 <= inode_capacity st in
  let fits_block := used_block st + front a + back a + 4 <= block_capacity st in
  (exists st', add st a = Ok st' /\ xattr_wf st' /\
     ((fits_inline /\ inline_attrs st' = inline_attrs st ++ [a] /\ block_attrs st' = block_attrs st) \/
      (~ fits_inline /\ fits_block /\
       inline_attrs st' = inline_attrs st /\ block_attrs st' = block_attrs st ++ [a]))) \/
  (~ fits_inline /\ ~ fits_block /\ add st a = Err (XattrInsufficientSpace (inode_number st))).
Proof.
  destruct Hwf as [[Hc1 Hc2] [Hi Hb] [Hui Hui4] [Hub Hub4]]. cbv zeta.
  pose proof (front_bounds a Ha) as Hfb. pose proof (back_bounds a Ha) as Hbb.
  pose proof (zlen_nonneg (xa_name a)). pose proof (zlen_nonneg (xa_value a)).
  pose proof (sums_nonneg _ Hi). pose proof (sums_nonneg _ Hb).
  pose proof (sums_snoc (inline_attrs st) a) as [Hs1 Hs2].
  pose proof (sums_snoc (block_attrs st) a) as [Hs3 Hs4].
  unfold add. rewrite total_size_ok by done. pose proof Ha as (_ & _ & _ & Hn & _).
  replace (EXT4_NAME_LEN <? zlen (xa_name a)) with false by lia. wrap_small.
  destruct (Z.leb_spec (used_inline st + (front a + back a) + 4) (inode_capacity st)).
  - left. eexists. split; [done|]. split; [|left; split; [lia|done]].
    split; simpl; auto; [split; [apply Forall_app; split; [done|by apply Forall_cons; [|apply Forall_nil]]|done]|].
    rewrite Hs1, Hs2. wrap_small. lia.
  - destruct (Z.leb_spec (used_block st + (front a + back a) + 4) (block_capacity st)).
    + left. eexists. split; [done|]. split; [|right; split; [lia|split; [lia|done]]].
      split; simpl; auto; [split; [done|apply Forall_app; split; [done|by apply Forall_cons; [|apply Forall_nil]]]|].
      rewrite Hs3, Hs4. wrap_small. lia.
    + right. split; [lia|]. split; [lia|done].
Qed.

Lemma XattrState_new_wf inode icap bcap :
  8 <= icap < 65536 -> 36 <= bcap < 65536 -> xattr_wf (XattrState_new inode icap bcap).
Proof.
  intros. split; simpl; unfold XATTR_INODE_HEADER_SIZE, XATTR_BLOCK_HEADER_SIZE; try lia.
  split; apply Forall_nil.
Qed.

(** Writing a word at the front of a zeroed buffer leaves the rest zeroed. *)
Lemma put_u32_tail buf o v a n :
  0 <= o -> o + 4 <= zlen buf -> o + 4 <= a -> 0 <= n ->
  sub_bytes (put_u32 buf o v) a n = sub_bytes buf a n.
Proof. intros. apply sub_put_ne; rewrite ?zlen_le_bytes; simpl; lia. Qed.

Lemma get_put_u32 buf o v : 0 <= o -> o + 4 <= zlen buf -> is_u32 v -> get_u32 (put_u32 buf o v) o = v.
Proof.
  intros Ho Hl Hv. unfold get_u32, put_u32. change 4 with (zlen (le_bytes 4 v)).
  rewrite sub_put_eq by (rewrite ?zlen_le_bytes; simpl; lia). by apply le_val_u32.
Qed.

Lemma get_u32_frame buf buf' o : sub_bytes buf' o 4 = sub_bytes buf o 4 -> get_u32 buf' o = get_u32 buf o.
Proof. unfold get_u32. by intros ->. Qed.

(** For every state the [add] operations can build, [write_inline] succeeds
    and fills exactly the inode's extra space; reading the area back by the
    ext4 rules yields the magic and every inline attribute with its name, index
    and value, in the order they were added. *)
Theorem xattr_inline_roundtrip (st : XattrState) (fuel : nat)
    (Hwf : xattr_wf st) (Hf : (length (inline_attrs st) < fuel)%nat) :
  exists buf, write_inline st = Ok buf /\ zlen buf = inode_capacity st /\
    get_u32 buf 0 = XATTR_HEADER_MAGIC /\
    decode fuel XATTR_INODE_HEADER_SIZE XATTR_INODE_HEADER_SIZE buf =
      map (fun a => (a, 0)) (inline_attrs st).
Proof.
  destruct Hwf as [[Hc _] [Hi _] [Hui Hui4] _]. pose proof (sums_nonneg _ Hi) as [Hs1 Hs2].
  unfold write_inline. replace (inode_capacity st <? 4) with false by lia.
  assert (zlen (zeros (inode_capacity st)) = inode_capacity st) as Hz by (apply zlen_zeros; lia).
  destruct (write_attrs_spec XATTR_INODE_HEADER_SIZE (fun _ => 0) ltac:(done) ltac:(done)
              (inline_attrs st) XATTR_INODE_HEADER_SIZE (inode_capacity st)
              (put_u32 (zeros (inode_capacity st)) 0 XATTR_HEADER_MAGIC) fuel Hi)
    as (buf & Hw & Hl & Hd & Hfr); unfold XATTR_INODE_HEADER_SIZE in *; try lia.
  - unfold put_u32. rewrite zlen_put, Hz. lia.
  - rewrite put_u32_tail by lia. apply sub_zeros; lia.
  - exists buf. split; [done|]. unfold put_u32 in Hl. rewrite zlen_put, Hz in Hl.
    split; [done|]. split; [|done].
    erewrite get_u32_frame by (apply Hfr; lia). apply get_put_u32; [lia..|done].
Qed.

Lemma attr_cmp_antisym a b : attr_cmp b a = CompOpp (attr_cmp a b).
Proof.
  unfold attr_cmp. apply then_with_antisym; [|apply bytes_cmp_antisym].
  apply then_with_antisym; apply Z.compare_antisym.
Qed.

(** C26: For every state the [add] operations can build, [write_block] succeeds
    and returns one full block; read back by the ext4 rules it has the magic,
    reference count 1 and block count 1, and its entries are the block
    attributes, each with its value and hash, sorted by prefix index, name
    length and name. *)
Theorem xattr_block_roundtrip (st : XattrState) (fuel : nat)
    (Hwf : xattr_wf st) (Hf : (length (block_attrs st) < fuel)%nat) :
  exists buf attrs, write_block st = Ok buf /\ zlen buf = block_capacity st /\
    get_u32 buf 0 = XATTR_HEADER_MAGIC /\ get_u32 buf 4 = 1 /\ get_u32 buf 8 = 1 /\
    decode fuel 0 XATTR_BLOCK_HEADER_SIZE buf = map (fun a => (a, hash a)) attrs /\
    attrs ≡ₚ block_attrs st /\ Sorted (fun a b => cmp_le attr_cmp a b = true) attrs.
Proof.
  destruct Hwf as [[_ Hc] [_ Hb] _ [Hub Hub4]]. pose proof (sums_nonneg _ Hb) as [Hs1 Hs2].
  pose proof (sort_by_perm attr_cmp (block_attrs st)) as Hp.
  assert (Sorted (fun a b => cmp_le attr_cmp a b = true) (sort_by attr_cmp (block_attrs st))) as Hsort.
  { apply sort_by_sorted. intros a b. apply cmp_le_total, attr_cmp_antisym. }
  unfold write_block. replace (block_capacity st <? 12) with false by lia.
  set (sorted := sort_by attr_cmp (block_attrs st)) in *. destruct (sums_perm _ _ Hp) as [E1 E2].
  assert (zlen (zeros (block_capacity st)) = block_capacity st) as Hz by (apply zlen_zeros; lia).
  set (h := put_u32 (put_u32 (put_u32 (zeros (block_capacity st)) 0 XATTR_HEADER_MAGIC) 4 1) 8 1).
  assert (zlen h = block_capacity st) as Hh by (subst h; unfold put_u32; by rewrite !zlen_put).
  destruct (write_attrs_spec 0 hash ltac:(done) hash_range sorted XATTR_BLOCK_HEADER_SIZE
              (block_capacity st) h fuel) as (buf & Hw & Hl & Hd & Hfr);
    unfold XATTR_BLOCK_HEADER_SIZE in *; try lia.
  - by rewrite Hp.
  - subst h. rewrite !put_u32_tail by (unfold put_u32; rewrite ?zlen_put; lia). apply sub_zeros; lia.
  - by rewrite Hp.
  - exists buf, sorted. split; [done|]. split; [lia|].
    split_and!; try done; (erewrite get_u32_frame by (apply Hfr; lia)); subst h.
    + unfold get_u32, put_u32. do 2 (rewrite sub_put_ne by (rewrite ?zlen_put, ?zlen_le_bytes; simpl; lia)).
      apply (get_put_u32 _ 0); [lia..|done].
    + unfold get_u32, put_u32. rewrite sub_put_ne by (rewrite ?zlen_put, ?zlen_le_bytes; simpl; lia).
      apply (get_put_u32 _ 4); [lia|unfold put_u32; rewrite zlen_put; lia|done].
    + apply get_put_u32; [lia|unfold put_u32; rewrite !zlen_put; lia|done].
Qed.

(** [user.k] with a short value, and [trusted.z] with one that only a block holds. *)
Definition sample_small : ExtendedAttribute :=
  ExtendedAttribute_new [117; 115; 101; 114; 46; 107] [1; 2; 3; 4; 5].
Definition sample_large : ExtendedAttribute :=
  ExtendedAttribute_new [116; 114; 117; 115; 116; 101; 100; 46; 122] (replicate 100 7).
Definition sample_xattrs : XattrState :=
  {| inode_capacity := 96; block_capacity := 4096; inline_attrs := [sample_small];
     block_attrs := [sample_large]; used_inline := 32; used_block := 152; inode_number := 12 |}.

Definition attr_okb (a : ExtendedAttribute) : bool :=
  forallb (fun b => (0 <=? b) && (b <? 256)) (xa_name a) &&
  forallb (fun b => (0 <=? b) && (b <? 256)) (xa_value a) &&
  (0 <=? xa_index a) && (xa_index a <? 256) &&
  (zlen (xa_name a) <=? EXT4_NAME_LEN) && (zlen (xa_value a) <? 0x80000000).

Lemma attr_okb_sound a : attr_okb a = true -> attr_ok a.
Proof.
  assert (forall l, forallb (fun b => (0 <=? b) && (b <? 256)) l = true -> Forall is_u8 l) as Hall.
  { intros l Hl. apply list.Forall_forall. intros x Hx. rewrite forallb_forall in Hl.
    specialize (Hl x (proj1 (list_elem_of_In _ _) Hx)). unfold is_u8. lia. }
  unfold attr_okb, attr_ok, is_u8. rewrite !andb_true_iff. intros (((((Hn & Hv) & ?) & ?) & ?) & ?).
  split; [by apply Hall|]. split; [by apply Hall|]. lia.
Qed.

Lemma sample_xattrs_wf : xattr_wf sample_xattrs.
Proof.
  split; [split; done| |split; [reflexivity|done]..].
  split; (apply Forall_cons; [by apply attr_okb_sound|apply Forall_nil]).
Qed.

Lemma xattr_inline_roundtrip_witness :
  exists buf, write_inline sample_xattrs = Ok buf /\ zlen buf = 96 /\
    get_u32 buf 0 = XATTR_HEADER_MAGIC /\
    decode 6 XATTR_INODE_HEADER_SIZE XATTR_INODE_HEADER_SIZE buf = [(sample_small, 0)].
Proof.
  refine (xattr_inline_roundtrip sample_xattrs 6 _ _); [exact sample_xattrs_wf|]. simpl. lia.
Defined.

Lemma xattr_block_roundtrip_witness :
  exists buf attrs, write_block sample_xattrs = Ok buf /\ zlen buf = 4096 /\
    get_u32 buf 0 = XATTR_HEADER_MAGIC /\ get_u32 buf 4 = 1 /\ get_u32 buf 8 = 1 /\
    decode 6 0 XATTR_BLOCK_HEADER_SIZE buf = map (fun a => (a, hash a)) attrs /\
    attrs ≡ₚ [sample_large] /\ Sorted (fun a b => cmp_le attr_cmp a b = true) attrs.
Proof.
  refine (xattr_block_roundtrip sample_xattrs 6 _ _); [exact sample_xattrs_wf|]. simpl. lia.
Defined.
