(* ===== verification/Geometry.v ===== *)
(** Geometry of an image being built: the computed properties and the pure
    helpers of [common/disk-image/src/ext4/formatter.rs].

    The definitions take the block size and image size the methods read from
    [self].  [with_options] admits only 4096-byte blocks, so the theorems fix
    that size.  Block numbers are [u32] and wrap where the code's do. *)

From S2P Require Import Prelude Bytes Types Errors RustPath FileTree Extent Layout.

(** ** Computed properties *)

Definition RESERVED_GDT_MULTIPLIER : Z := 32.

Definition blocks_per_group (bs : Z) : Z := u32 (bs * 8).
Definition max_inodes_per_group (bs : Z) : Z := u32 (bs * 8).
Definition groups_per_descriptor_block (bs : Z) : Z := bs / 32.
Definition block_count (bs size : Z) : Z := u32 (u64 (size - 1) / bs + 1).
Definition fmt_group_count (bs size : Z) : Z :=
  u32 (u32 (block_count bs size - 1) / blocks_per_group bs + 1).
Definition descriptor_blocks_for_groups (bs groups : Z) : Z :=
  u32 (u32 (groups - 1) / groups_per_descriptor_block bs + 1).

Definition saturating_mul32 (a b : Z) : Z := Z.min u32_max (a * b).

Definition reserved_gdt_blocks_for_descriptor_blocks (bs descriptor_blocks : Z) : Z :=
  let addr_per_block := bs / 4 in
  Z.min (saturating_mul32 descriptor_blocks (RESERVED_GDT_MULTIPLIER - 1))
    (saturating_sub addr_per_block descriptor_blocks).

Definition group_descriptor_area_blocks_for_groups (bs groups : Z) : Z :=
  let descriptor_blocks := descriptor_blocks_for_groups bs groups in
  u32 (descriptor_blocks + reserved_gdt_blocks_for_descriptor_blocks bs descriptor_blocks).

Definition group_descriptor_blocks (bs size : Z) : Z :=
  group_descriptor_area_blocks_for_groups bs (fmt_group_count bs size).

Definition has_sparse_super_backup (group : Z) : bool := negb (group =? 0) && has_sparse_super group.

Definition static_metadata_blocks_in_group_for_area (group gd_area_blocks : Z) : Z :=
  if has_sparse_super group then u32 (1 + gd_area_blocks) else 0.

Definition static_metadata_blocks_in_group (bs size group : Z) : Z :=
  static_metadata_blocks_in_group_for_area group (group_descriptor_blocks bs size).

Definition reserved_metadata_end_for_block (bs size block : Z) : Z :=
  let group := block / blocks_per_group bs in
  let group_start := u32 (group * blocks_per_group bs) in
  let metadata_blocks := static_metadata_blocks_in_group bs size group in
  let metadata_end := u32 (group_start + metadata_blocks) in
  if (group_start <=? block) && (block <? metadata_end) then metadata_end else block.

Definition total_groups_for_data_end (bs size data_end minimum_disk_size_blocks : Z) : Z :=
  let current_size_blocks := div_ceil size bs in
  let required_blocks :=
    Z.max (Z.max (Z.max data_end minimum_disk_size_blocks) current_size_blocks) 1 in
  u32 ((required_blocks - 1) / blocks_per_group bs + 1).

Definition block_ranges_overlap (a_start a_end b_start b_end : Z) : bool :=
  (a_start <? b_end) && (b_start <? a_end).

(** The [for group in 0..total_groups] search for the first static range the
    run overlaps: the end of that range. *)
Fixpoint first_overlap (groups : list Z) (bs start end_ gd_area_blocks : Z) : option Z :=
  match groups with
  | [] => None
  | group :: groups =>
      let metadata_blocks := static_metadata_blocks_in_group_for_area group gd_area_blocks in
      if metadata_blocks =? 0 then first_overlap groups bs start end_ gd_area_blocks
      else
        let group_start := group * blocks_per_group bs in
        let metadata_end := group_start + metadata_blocks in
        if block_ranges_overlap start end_ group_start metadata_end then Some metadata_end
        else first_overlap groups bs start end_ gd_area_blocks
  end.

(** The outer loop; each turn moves past one more group's static range, so one
    turn more than there are groups is enough ([metadata_run_start_spec]). *)
Fixpoint metadata_run_start_loop (fuel : nat) (bs start blocks total_groups gd_area_blocks : Z) : option Z :=
  match fuel with
  | O => None
  | S fuel =>
      let end_ := start + blocks in
      let next_start :=
        default start (first_overlap (seqZ 0 total_groups) bs start end_ gd_area_blocks) in
      if next_start =? start then Some start
      else metadata_run_start_loop fuel bs next_start blocks total_groups gd_area_blocks
  end.

Definition metadata_run_start_after_static_ranges (bs start blocks total_groups gd_area_blocks : Z) :
    option Z :=
  metadata_run_start_loop (S (Z.to_nat total_groups)) bs start blocks total_groups gd_area_blocks.

(** The [while cursor < end] loop; every group takes at most two turns. *)
Fixpoint free_ranges_loop (fuel : nat) (bs cursor end_ total_groups gd_area_blocks : Z) :
    option (list BlockRange) :=
  match fuel with
  | O => None
  | S fuel =>
      if cursor <? end_ then
        let group := cursor / blocks_per_group bs in
        if total_groups <=? group then Some []
        else
          let group_start := u32 (group * blocks_per_group bs) in
          let group_end := u32 (group_start + blocks_per_group bs) in
          let static_metadata_end :=
            u32 (group_start + Z.min (static_metadata_blocks_in_group_for_area group gd_area_blocks)
                                 (blocks_per_group bs)) in
          if cursor <? static_metadata_end then
            free_ranges_loop fuel bs (Z.min static_metadata_end end_) end_ total_groups gd_area_blocks
          else
            let range_end := Z.min group_end end_ in
            rest ← free_ranges_loop fuel bs range_end end_ total_groups gd_area_blocks;
            Some (if cursor <? range_end
                  then {| br_start := cursor; br_end := range_end |} :: rest else rest)
      else Some []
  end.

Definition free_ranges_before_shifted_metadata (bs start end_ total_groups gd_area_blocks : Z) :
    option (list BlockRange) :=
  free_ranges_loop (S (Z.to_nat (2 * (end_ / blocks_per_group bs - start / blocks_per_group bs) + 2)))
    bs start end_ total_groups gd_area_blocks.

(** ** Bitmaps *)

Definition bit_at (bitmap : list Z) (offset : Z) : bool :=
  Z.testbit (get_u8 bitmap (offset / 8)) (offset mod 8).

Definition clear_bit (bitmap : list Z) (offset : Z) : list Z :=
  put_u8 bitmap (offset / 8)
    (Z.land (get_u8 bitmap (offset / 8)) (Z.lxor 0xFF (Z.shiftl 1 (offset mod 8)))).

(** One turn of the loop over [start..end]; indexing past the bitmap panics. *)
Definition clear_block {E} (group_start : Z) (st : list Z * Z) (block : Z) : res E (list Z * Z) :=
  let '(bitmap, used_blocks) := st in
  let offset := block - group_start in
  if zlen bitmap <=? offset / 8 then Panic
  else
    let was_set := Z.land (Z.shiftr (get_u8 bitmap (offset / 8)) (offset mod 8)) 1 in
    Ok (clear_bit bitmap offset, if negb (was_set =? 0) then u32 (used_blocks - 1) else used_blocks).

Definition clear_block_range_from_bitmap {E} (bitmap : list Z) (group_start group_end : Z)
    (range : BlockRange) (used_blocks : Z) : res E (list Z * Z) :=
  let start := Z.max (br_start range) group_start in
  let end_ := Z.min (br_end range) group_end in
  foldM (clear_block group_start) (bitmap, used_blocks) (seqZ start (end_ - start)).

(** ** Ranges *)

Definition record_block_range (ranges : list BlockRange) (block : Z) : list BlockRange :=
  match list.last ranges with
  | Some r =>
      if (br_start r <=? block) && (block <? br_end r) then ranges
      else if br_end r =? block
      then take (length ranges - 1) ranges ++ [ {| br_start := br_start r; br_end := u32 (br_end r + 1) |} ]
      else ranges ++ [ {| br_start := block; br_end := u32 (block + 1) |} ]
  | None => ranges ++ [ {| br_start := block; br_end := u32 (block + 1) |} ]
  end.

(** ** Group layout *)

(** The closure [group_count] of [optimize_block_group_layout]. *)
Definition groups_needed (bs blocks inodes ipg : Z) : Z :=
  let inode_blocks_per_group := u32 (ipg * INODE_SIZE) / bs in
  let data_blocks_per_group := u32 (blocks_per_group bs - inode_blocks_per_group - 2) in
  let min_blocks := u32 (saturating_sub inodes 1 / ipg * data_blocks_per_group + 1) in
  let effective_blocks := Z.max blocks min_blocks in
  div_ceil effective_blocks data_blocks_per_group.

(** The [while ipg <= max] loop. *)
Fixpoint optimize_loop (fuel : nat) (bs blocks inodes inc ipg best_groups best_ipg : Z) : option (Z * Z) :=
  match fuel with
  | O => None
  | S fuel =>
      if ipg <=? max_inodes_per_group bs then
        let g := groups_needed bs blocks inodes ipg in
        if g <? best_groups then optimize_loop fuel bs blocks inodes inc (ipg + inc) g ipg
        else optimize_loop fuel bs blocks inodes inc (ipg + inc) best_groups best_ipg
      else Some (best_groups, best_ipg)
  end.

(** With 4096-byte blocks the increment is 8192 and the loop takes five turns. *)
Definition optimize_block_group_layout (bs blocks inodes : Z) : option (Z * Z) :=
  let inc := u32 (bs * 512) / INODE_SIZE in
  optimize_loop 5 bs blocks inodes inc inc u32_max inc.

Definition backup_groups (total_groups : Z) : list Z :=
  List.filter has_sparse_super_backup (seqZ 1 (total_groups - 1)).

(** ** Paths *)

Definition validate_path_component_names (path : list Z) : res FormatError unit :=
  foldM (fun _ name =>
    if bool_decide (name = DOT) || bool_decide (name = DOTDOT) then Err (InvalidPathEncoding path)
    else if EXT4_NAME_LEN <? zlen name then Err (InvalidName name)
    else Ok tt) tt (split_slash path).

Definition parent_of (path : list Z) : list Z :=
  if bool_decide (path = ROOT) then ROOT
  else
    let trimmed := trim_end_slash path in
    match rfind_slash trimmed with
    | Some O => ROOT
    | Some pos => take pos trimmed
    | None => ROOT
    end.

Definition basename (path : list Z) : list Z :=
  if bool_decide (path = ROOT) then ROOT
  else
    let trimmed := trim_end_slash path in
    match rfind_slash trimmed with
    | Some pos => drop (S pos) trimmed
    | None => trimmed
    end.

Definition VOLUME_NAME_LEN : Z := 16.

Definition validate_label (label : list Z) : res FormatError unit :=
  if VOLUME_NAME_LEN <? zlen label then Err (InvalidLabel label)
  else if existsb (fun c => c =? 0) label then Err (InvalidLabel label)
  else Ok tt.

(** ** Static metadata *)

(** The block size the formatter accepts. *)
Definition BLOCK_SIZE : Z := 4096.

(** A block of a superblock copy or of a group-descriptor area, in a file
    system of [total] groups. *)
Definition static_block (total area b : Z) : Prop :=
  0 <= b / 32768 < total /\ has_sparse_super (b / 32768) = true /\ b mod 32768 < 1 + area.

(** The same as a test, whatever the number of groups. *)
Definition reserved_block (area b : Z) : bool :=
  has_sparse_super (b / 32768) && (b mod 32768 <? 1 + area).

Lemma group_of g r : 0 <= r < 32768 -> (g * 32768 + r) / 32768 = g /\ (g * 32768 + r) mod 32768 = r.
Proof.
  intros Hr. rewrite Z.add_comm. split.
  - rewrite Z.div_add by lia. rewrite Z.div_small by lia. lia.
  - rewrite Z.mod_add by lia. by apply Z.mod_small.
Qed.

Lemma in_group b : 32768 * (b / 32768) <= b < 32768 * (b / 32768) + 32768.
Proof. pose proof (Z.div_mod b 32768 ltac:(lia)). pose proof (Z.mod_pos_bound b 32768 ltac:(lia)). lia. Qed.

Lemma group_unique b g : g * 32768 <= b < (g + 1) * 32768 -> b / 32768 = g.
Proof. intros H. pose proof (in_group b). nia. Qed.

Lemma static_block_range total area b :
  area < 32768 ->
  static_block total area b <->
  exists g, 0 <= g < total /\ has_sparse_super g = true /\ g * 32768 <= b < g * 32768 + 1 + area.
Proof.
  intros Ha. unfold static_block. split.
  - intros (? & ? & ?). exists (b / 32768). pose proof (Z.div_mod b 32768 ltac:(lia)).
    pose proof (in_group b). repeat split; try done; lia.
  - intros (g & Hg & Hs & Hb). replace b with (g * 32768 + (b - g * 32768)) by lia.
    destruct (group_of g (b - g * 32768) ltac:(lia)) as [-> ->]. repeat split; try done; lia.
Qed.

(** *** The descriptor area *)

Lemma descriptor_area groups :
  1 <= groups <= 131072 ->
  let descriptor_blocks := (groups - 1) / 128 + 1 in
  descriptor_blocks_for_groups BLOCK_SIZE groups = descriptor_blocks /\
  group_descriptor_area_blocks_for_groups BLOCK_SIZE groups = Z.min (32 * descriptor_blocks) 1024.
Proof.
  intros Hg db. assert (1 <= db <= 1024).
  { unfold db. pose proof (Z.div_pos (groups - 1) 128 ltac:(lia) ltac:(lia)).
    pose proof (Z.div_lt_upper_bound (groups - 1) 128 1024 ltac:(lia) ltac:(lia)). lia. }
  assert (descriptor_blocks_for_groups BLOCK_SIZE groups = db) as Hd.
  { unfold descriptor_blocks_for_groups, groups_per_descriptor_block, BLOCK_SIZE.
    rewrite (u32_small (groups - 1)) by (unfold_ranges; lia).
    change (4096 / 32) with 128. fold db. apply u32_small. unfold_ranges. lia. }
  split; [done|]. unfold group_descriptor_area_blocks_for_groups. rewrite Hd.
  unfold reserved_gdt_blocks_for_descriptor_blocks, saturating_mul32, saturating_sub,
    RESERVED_GDT_MULTIPLIER, BLOCK_SIZE. change (4096 / 4) with 1024.
  rewrite u32_small; unfold_ranges; lia.
Qed.

Lemma fmt_group_count_bounds size : 1 <= fmt_group_count BLOCK_SIZE size <= 131072.
Proof.
  unfold fmt_group_count. change (blocks_per_group BLOCK_SIZE) with 32768.
  pose proof (u32_range (block_count BLOCK_SIZE size - 1)) as H. set (n := u32 _) in *. unfold is_u32 in H.
  pose proof (Z.div_pos n 32768 ltac:(lia) ltac:(lia)).
  pose proof (Z.div_lt_upper_bound n 32768 131072 ltac:(lia) ltac:(lia)).
  rewrite u32_small; unfold_ranges; lia.
Qed.

Lemma group_descriptor_blocks_bounds size :
  32 <= group_descriptor_blocks BLOCK_SIZE size <= 1024.
Proof.
  pose proof (fmt_group_count_bounds size) as Hg. unfold group_descriptor_blocks.
  destruct (descriptor_area _ Hg) as [_ ->].
  pose proof (Z.div_pos (fmt_group_count BLOCK_SIZE size - 1) 128 ltac:(lia) ltac:(lia)). lia.
Qed.

(** *** Skipping reserved blocks *)

Lemma reserved_end_eq size b :
  is_u32 b ->
  reserved_metadata_end_for_block BLOCK_SIZE size b =
  if reserved_block (group_descriptor_blocks BLOCK_SIZE size) b
  then 32768 * (b / 32768) + 1 + group_descriptor_blocks BLOCK_SIZE size else b.
Proof.
  intros Hb. pose proof (group_descriptor_blocks_bounds size). pose proof (in_group b).
  unfold reserved_metadata_end_for_block, static_metadata_blocks_in_group,
    static_metadata_blocks_in_group_for_area, reserved_block.
  change (blocks_per_group BLOCK_SIZE) with 32768.
  set (area := group_descriptor_blocks BLOCK_SIZE size) in *.
  assert (0 <= b / 32768 < 131072) by (unfold is_u32 in Hb; lia).
  pose proof (Z.div_mod b 32768 ltac:(lia)).
  destruct (has_sparse_super (b / 32768)); simpl; wrap_small.
  - repeat case_match; lia.
  - repeat case_match; lia.
Qed.

(** The next free block: it is not reserved and all blocks before it are. *)
Lemma reserved_end_spec size b :
  is_u32 b ->
  let area := group_descriptor_blocks BLOCK_SIZE size in
  let next := reserved_metadata_end_for_block BLOCK_SIZE size b in
  b <= next <= b + 1 + area /\ is_u32 next /\ reserved_block area next = false /\
  forall x, b <= x < next -> reserved_block area x = true.
Proof.
  intros Hb area next. pose proof (group_descriptor_blocks_bounds size) as Ha. fold area in Ha.
  unfold next. rewrite reserved_end_eq by done. fold area. pose proof (in_group b).
  destruct (reserved_block area b) eqn:Hr.
  2:{ repeat split; try done; unfold is_u32 in *; lia. }
  pose proof Hr as Hr'. unfold reserved_block in Hr'. apply andb_prop in Hr' as [Hs Hm].
  apply Z.ltb_lt in Hm. pose proof (Z.div_mod b 32768 ltac:(lia)).
  split; [lia|]. split; [unfold is_u32 in *; lia|]. split.
  - unfold reserved_block. replace (32768 * (b / 32768) + 1 + area) with (b / 32768 * 32768 + (1 + area)) by lia.
    destruct (group_of (b / 32768) (1 + area) ltac:(lia)) as [-> ->]. rewrite Hs. simpl. lia.
  - intros x Hx. unfold reserved_block. rewrite (group_unique x (b / 32768)) by lia. rewrite Hs. simpl.
    replace x with (b / 32768 * 32768 + (x - b / 32768 * 32768)) by lia.
    destruct (group_of (b / 32768) (x - b / 32768 * 32768) ltac:(lia)) as [_ ->]. lia.
Qed.

(** *** The shared metadata run *)

Section MetadataRun.
Context (blocks total area : Z).
Hypothesis (Hblocks : 0 < blocks).
Hypothesis (Harea : 0 <= area <= 1024).

(** A run of [blocks] blocks clear of every static range. *)
Definition clear_run (start : Z) : Prop :=
  forall b, start <= b < start + blocks -> ~ static_block total area b.

Definition static_end (g : Z) : Z := g * 32768 + 1 + area.

Lemma first_overlap_spec groups start :
  match first_overlap groups BLOCK_SIZE start (start + blocks) area with
  | Some e => exists pre g post,
      groups = pre ++ g :: post /\ has_sparse_super g = true /\ e = static_end g /\
      start < e /\ g * 32768 < start + blocks
  | None => forall g, In g groups -> has_sparse_super g = true ->
      static_end g <= start \/ start + blocks <= g * 32768
  end.
Proof.
  induction groups as [|g groups IH]; cbn [first_overlap]; [intros _ []|].
  change (blocks_per_group BLOCK_SIZE) with 32768.
  unfold static_metadata_blocks_in_group_for_area, block_ranges_overlap.
  destruct (has_sparse_super g) eqn:Hs; [rewrite (u32_small (1 + area)) by (unfold_ranges; lia)|].
  - destruct (Z.eqb_spec (1 + area) 0); [lia|].
    destruct ((start <? g * 32768 + (1 + area)) && (g * 32768 <? start + blocks)) eqn:Ho.
    + exists [], g, groups. unfold static_end. repeat split; try done; lia.
    + destruct (first_overlap groups _ _ _ _).
      * destruct IH as (pre & g' & post & -> & ?). by exists (g :: pre), g', post.
      * intros g' [<-|Hin] Hs'; [unfold static_end; lia|auto].
  - simpl. destruct (first_overlap groups _ _ _ _).
    + destruct IH as (pre & g' & post & -> & ?). by exists (g :: pre), g', post.
    + intros g' [<-|Hin] Hs'; [congruence|auto].
Qed.

Lemma overlap_not_clear g s :
  0 <= g < total -> has_sparse_super g = true -> s < static_end g -> g * 32768 < s + blocks ->
  ~ clear_run s.
Proof.
  intros Hg Hs He Hb Hc. unfold static_end in He.
  apply (Hc (Z.max s (g * 32768)) ltac:(lia)). apply static_block_range; [lia|].
  exists g. repeat split; try done; lia.
Qed.

(** Each turn passes one more group: the groups below [lo] lie before the run. *)
Lemma metadata_run_start_loop_spec fuel : forall lo start,
  0 <= lo <= total -> total - lo < Z.of_nat fuel ->
  (forall g, 0 <= g < lo -> has_sparse_super g = true -> static_end g <= start) ->
  exists s,
    metadata_run_start_loop fuel BLOCK_SIZE start blocks total area = Some s /\
    start <= s /\ clear_run s /\ forall s', start <= s' -> clear_run s' -> s <= s'.
Proof.
  induction fuel as [|fuel IH]; intros lo start Hlo Hfuel Hbefore; [lia|].
  cbn [metadata_run_start_loop].
  pose proof (first_overlap_spec (seqZ 0 total) start) as Hf.
  destruct (first_overlap _ _ _ _ _) as [e|]; simpl.
  - destruct Hf as (pre & g & post & Hsplit & Hs & -> & He & Hg).
    assert (0 <= g < total) as Hgt.
    { assert (g ∈ seqZ 0 total) as H by (rewrite Hsplit; apply elem_of_app; right; left). apply elem_of_seqZ in H. lia. }
    destruct (Z.eqb_spec (static_end g) start); [lia|].
    destruct (Z_lt_le_dec g lo) as [Hl|Hl]; [specialize (Hbefore g); specialize (Hbefore ltac:(lia) Hs); lia|].
    destruct (IH (g + 1) (static_end g)) as (s & Hrun & Hle & Hclear & Hmin); [lia|lia| |].
    { intros g' ? _. unfold static_end. lia. }
    exists s. split; [done|]. split; [lia|]. split; [done|]. intros s' Hs' Hc. apply Hmin; [|done].
    destruct (Z_lt_le_dec s' (static_end g)) as [Hlt|]; [|lia].
    exfalso. by apply (overlap_not_clear g s' Hgt Hs Hlt ltac:(lia)).
  - rewrite Z.eqb_refl. exists start. split; [done|]. split; [lia|]. split; [|lia].
    intros b Hb Hst. apply static_block_range in Hst as (g & Hg & Hs & Hbg); [|lia].
    destruct (Hf g) as [H|H]; [|done|unfold static_end in H; lia|lia].
    apply list_elem_of_In, elem_of_seqZ. lia.
Qed.

Lemma metadata_run_start_spec start :
  0 <= total ->
  exists s,
    metadata_run_start_after_static_ranges BLOCK_SIZE start blocks total area = Some s /\
    start <= s /\ clear_run s /\ forall s', start <= s' -> clear_run s' -> s <= s'.
Proof. intros. apply (metadata_run_start_loop_spec _ 0); [lia|lia|]. intros g Hg. lia. Qed.
End MetadataRun.

(** *** Free ranges *)

Section FreeRanges.
Context (total area end_ : Z).
Hypothesis (Htotal : 0 <= total).
Hypothesis (Harea : 0 <= area <= 1024).
Hypothesis (Hend : end_ <= 4294934528).

Abbreviation group_static_end c :=
  (c / 32768 * 32768 + Z.min (static_metadata_blocks_in_group_for_area (c / 32768) area) 32768).

(** Turns left: two per group still ahead, one more before the static range. *)
Definition turns_left (c : Z) : Z :=
  if c <? end_ then 2 * (end_ / 32768 - c / 32768) + 1 + (if c <? group_static_end c then 1 else 0) else 0.

Definition in_ranges (rs : list BlockRange) (b : Z) : Prop :=
  exists r, r ∈ rs /\ br_start r <= b < br_end r.

(** Ranges that are not empty, in order and within the bounds. *)
Fixpoint ranges_between (lo : Z) (rs : list BlockRange) : Prop :=
  match rs with
  | [] => True
  | r :: rs => lo <= br_start r < br_end r /\ br_end r <= end_ /\ ranges_between (br_end r) rs
  end.

Lemma ranges_between_le lo lo' rs : lo <= lo' -> ranges_between lo' rs -> ranges_between lo rs.
Proof. destruct rs; simpl; [done|]. intros ? (? & ? & ?). repeat split; try done; lia. Qed.

Lemma group_static_end_spec c :
  0 <= c < end_ ->
  let g := c / 32768 in
  u32 (g * 32768) = g * 32768 /\ u32 (g * 32768 + 32768) = g * 32768 + 32768 /\
  u32 (group_static_end c) = group_static_end c /\
  (forall b, g * 32768 <= b < g * 32768 + 32768 -> g < total ->
     static_block total area b <-> b < group_static_end c) /\
  g * 32768 <= group_static_end c < g * 32768 + 32768.
Proof.
  intros Hc g. pose proof (in_group c) as Hg. fold g in Hg.
  unfold static_metadata_blocks_in_group_for_area. fold g.
  assert (u32 (1 + area) = 1 + area) as -> by (apply u32_small; unfold_ranges; lia).
  split; [apply u32_small; unfold_ranges; lia|]. split; [apply u32_small; unfold_ranges; lia|].
  split; [apply u32_small; unfold_ranges; destruct (has_sparse_super g); lia|].
  split; [|destruct (has_sparse_super g); lia].
  intros b Hb Hgt. unfold static_block. rewrite (group_unique b g) by lia.
  pose proof (Z.div_mod b 32768 ltac:(lia)) as Hd. rewrite (group_unique b g) in Hd by lia.
  destruct (has_sparse_super g); [|split; [intros (_ & ? & _); discriminate|lia]].
  split; [intros (_ & _ & ?); lia|]. intros ?. repeat split; try done; lia.
Qed.

Lemma free_ranges_loop_spec fuel : forall c,
  0 <= c -> turns_left c < Z.of_nat fuel ->
  exists rs,
    free_ranges_loop fuel BLOCK_SIZE c end_ total area = Some rs /\ ranges_between c rs /\
    forall b, in_ranges rs b <-> c <= b < end_ /\ b / 32768 < total /\ ~ static_block total area b.
Proof.
  induction fuel as [|fuel IH]; intros c Hc Hfuel.
  { unfold turns_left in Hfuel. pose proof (in_group c). pose proof (in_group end_). exfalso.
    repeat case_match; lia. }
  cbn [free_ranges_loop]. change (blocks_per_group BLOCK_SIZE) with 32768.
  pose proof (in_group c) as Hg. pose proof (in_group end_).
  destruct (Z.ltb_spec c end_) as [Hlt|Hge].
  2:{ exists []. split; [done|]. split; [done|]. intros b. split; [intros (? & Hin & _)|lia].
      by apply not_elem_of_nil in Hin. }
  destruct (Z.leb_spec total (c / 32768)) as [Ht|Ht].
  { exists []. split; [done|]. split; [done|]. intros b. split.
    - intros (? & Hin & _). by apply not_elem_of_nil in Hin.
    - intros (Hb & Hbt & _). pose proof (Z.div_le_mono c b 32768). lia. }
  destruct (group_static_end_spec c ltac:(lia)) as (-> & -> & -> & Hst & Hse).
  set (se := group_static_end c) in *. unfold turns_left in Hfuel.
  replace (c <? end_) with true in Hfuel by lia. fold se in Hfuel.
  destruct (Z.ltb_spec c se) as [Hcs|Hcs].
  - destruct (IH (Z.min se end_)) as (rs & Hrs & Hbt & Hin); [lia| |].
    { unfold turns_left. destruct (Z.ltb_spec (Z.min se end_) end_); [|lia].
      rewrite Z.min_l by lia. rewrite (group_unique se (c / 32768)) by lia. fold se.
      rewrite Z.ltb_irrefl. lia. }
    exists rs. split; [done|]. split; [apply (ranges_between_le _ (Z.min se end_)); [lia|done]|].
    intros b. rewrite Hin. split; [intros (? & ? & ?); repeat split; try done; lia|].
    intros (Hb & Hbg & Hns). split; [|done]. split; [|lia].
    destruct (Z_lt_le_dec b se) as [Hbs|]; [|lia]. exfalso. apply Hns, Hst; lia.
  - set (re := Z.min (c / 32768 * 32768 + 32768) end_).
    destruct (IH re) as (rs & Hrs & Hbt & Hin); [lia| |].
    { unfold turns_left. destruct (Z.ltb_spec re end_); [|lia].
      assert (re / 32768 = c / 32768 + 1) as -> by (apply group_unique; lia). case_match; lia. }
    rewrite Hrs. replace (c <? re) with true by lia.
    exists ({| br_start := c; br_end := re |} :: rs). split; [done|].
    split; [simpl; repeat split; try done; lia|].
    intros b. unfold in_ranges. split.
    + intros (r & [->|Hr]%elem_of_cons & Hb); simpl in *.
      * split; [lia|]. split; [rewrite (group_unique b (c / 32768)) by lia; lia|].
        rewrite Hst by lia. lia.
      * destruct (proj1 (Hin b) (ex_intro _ r (conj Hr Hb))) as (? & ? & ?). repeat split; try done; lia.
    + intros (Hb & Hbg & Hns). destruct (Z_lt_le_dec b re) as [Hlt'|Hge'].
      * eexists. split; [left|]. simpl. lia.
      * destruct (proj2 (Hin b)) as (r & Hr & Hbr); [repeat split; try done; lia|].
        exists r. split; [by right|done].
Qed.

Lemma free_ranges_spec start :
  0 <= start ->
  exists rs,
    free_ranges_before_shifted_metadata BLOCK_SIZE start end_ total area = Some rs /\
    ranges_between start rs /\
    forall b, in_ranges rs b <-> start <= b < end_ /\ b / 32768 < total /\ ~ static_block total area b.
Proof.
  intros Hs. apply free_ranges_loop_spec; [done|]. change (blocks_per_group BLOCK_SIZE) with 32768.
  unfold turns_left. pose proof (in_group start). pose proof (in_group end_).
  repeat case_match; lia.
Qed.
End FreeRanges.

(** ** Bitmap clearing *)

Section Bitmap.
Implicit Types bm : list Z.

Lemma get_put_u8 bm o o' v :
  0 <= o < zlen bm -> 0 <= o' -> get_u8 (put_u8 bm o v) o' = if o' =? o then v else get_u8 bm o'.
Proof.
  intros Ho Ho'. unfold get_u8, put_u8. rewrite !nth_lookup, lookup_put by (rewrite ?zlen_cons, ?zlen_nil; lia).
  change (zlen [v]) with 1. case_decide; destruct (Z.eqb_spec o' o) as [->|]; try lia.
  by rewrite Nat.sub_diag.
Qed.

Lemma clear_mask k j :
  0 <= k < 8 -> 0 <= j < 8 -> Z.testbit (Z.lxor 0xFF (Z.shiftl 1 k)) j = negb (j =? k).
Proof.
  intros Hk Hj. change 0xFF with (Z.ones 8). rewrite Z.lxor_spec, Z.testbit_ones_nonneg by lia.
  rewrite Z.shiftl_1_l, Z.pow2_bits_eqb by lia. rewrite (Z.eqb_sym k j).
  by replace (j <? 8) with true by lia.
Qed.

Lemma clear_bit_spec bm o o' :
  0 <= o -> o / 8 < zlen bm -> 0 <= o' ->
  bit_at (clear_bit bm o) o' = bit_at bm o' && negb (o' =? o).
Proof.
  intros Ho Hl Ho'. unfold bit_at, clear_bit.
  pose proof (Z.mod_pos_bound o 8 ltac:(lia)). pose proof (Z.mod_pos_bound o' 8 ltac:(lia)).
  pose proof (Z.div_mod o 8 ltac:(lia)). pose proof (Z.div_mod o' 8 ltac:(lia)).
  rewrite get_put_u8 by (split || idtac; try apply Z.div_pos; lia).
  destruct (Z.eqb_spec (o' / 8) (o / 8)) as [E|].
  - rewrite Z.land_spec, clear_mask by lia. rewrite E. do 2 f_equal. lia.
  - replace (o' =? o) with false; [by rewrite andb_true_r|]. symmetry. apply Z.eqb_neq. congruence.
Qed.

Lemma was_set_bit bm o :
  0 <= o ->
  negb (Z.land (Z.shiftr (get_u8 bm (o / 8)) (o mod 8)) 1 =? 0) = bit_at bm o.
Proof.
  intros Ho. pose proof (Z.mod_pos_bound o 8 ltac:(lia)). unfold bit_at.
  rewrite Z.testbit_odd. change 1 with (Z.ones 1). rewrite Z.land_ones, Z.pow_1_r, Zmod_odd by lia.
  by destruct (Z.odd _).
Qed.

(** The number of set bits among [n] from [lo]. *)
Definition count_set bm (lo n : Z) : Z := zlen (List.filter (bit_at bm) (seqZ lo n)).

Lemma zlen_clear_bit bm o : zlen (clear_bit bm o) = zlen bm.
Proof. apply zlen_put. Qed.

Lemma count_set_clear bm o lo n :
  0 <= o < lo -> o / 8 < zlen bm -> count_set (clear_bit bm o) lo n = count_set bm lo n.
Proof.
  intros Ho Hl. unfold count_set. f_equal. apply filter_ext_in. intros x Hx.
  apply list_elem_of_In, elem_of_seqZ in Hx. rewrite clear_bit_spec by lia.
  replace (x =? o) with false by lia. apply andb_true_r.
Qed.

Lemma clear_blocks_spec {E} gs (n : nat) : forall start bm used,
  gs <= start -> (start + Z.of_nat n - gs + 7) / 8 <= zlen bm ->
  count_set bm (start - gs) (Z.of_nat n) <= used -> is_u32 used ->
  exists bm',
    foldM (E := E) (clear_block gs) (bm, used) (seqZ start (Z.of_nat n))
      = Ok (bm', used - count_set bm (start - gs) (Z.of_nat n)) /\
    zlen bm' = zlen bm /\
    forall o, 0 <= o ->
      bit_at bm' o = bit_at bm o && negb ((start - gs <=? o) && (o <? start - gs + Z.of_nat n)).
Proof.
  induction n as [|n IH]; intros start bm used Hgs Hlen Hcount Hused.
  { exists bm. unfold count_set. simpl. rewrite zlen_nil, Z.sub_0_r. split; [done|]. split; [done|].
    intros o Ho. zbool. }
  assert ((start - gs) / 8 < zlen bm) as Hin.
  { pose proof (Z.div_le_mono (start - gs + 8) (start + Z.of_nat (S n) - gs + 7) 8 ltac:(lia) ltac:(lia)) as H.
    replace (start - gs + 8) with (start - gs + 1 * 8) in H by lia. rewrite Z.div_add in H by lia. lia. }
  assert (count_set bm (start - gs) (Z.of_nat (S n)) =
    (if bit_at bm (start - gs) then 1 else 0) + count_set bm (start - gs + 1) (Z.of_nat n)) as Hc.
  { unfold count_set. rewrite seqZ_cons by lia. replace (Z.pred (Z.of_nat (S n))) with (Z.of_nat n) by lia.
    rewrite <- Z.add_1_r. simpl. by destruct (bit_at bm _); rewrite ?zlen_cons. }
  rewrite Hc in *. rewrite seqZ_cons by lia. replace (Z.pred (Z.of_nat (S n))) with (Z.of_nat n) by lia.
  cbn [foldM clear_block]. replace (zlen bm <=? (start - gs) / 8) with false by lia.
  rewrite was_set_bit by lia. cbn [mbind res_bind].
  pose proof (zlen_nonneg (List.filter (bit_at bm) (seqZ (start - gs + 1) (Z.of_nat n)))) as Hnn.
  fold (count_set bm (start - gs + 1) (Z.of_nat n)) in Hnn.
  set (used1 := if bit_at bm (start - gs) then _ else _).
  assert (used1 = used - (if bit_at bm (start - gs) then 1 else 0)) as ->.
  { unfold used1. destruct (bit_at bm _); [|lia]. apply u32_small. unfold_ranges. lia. }
  replace (Z.succ start) with (start + 1) by lia.
  pose proof (count_set_clear bm (start - gs) (start + 1 - gs) (Z.of_nat n) ltac:(lia) Hin) as Hcc.
  replace (start + 1 - gs) with (start - gs + 1) in * by lia.
  destruct (IH (start + 1) (clear_bit bm (start - gs))
    (used - (if bit_at bm (start - gs) then 1 else 0))) as (bm' & Hf & Hl & Hb); [lia| | | |].
  { rewrite zlen_clear_bit. by replace (start + 1 + Z.of_nat n) with (start + Z.of_nat (S n)) by lia. }
  { replace (start + 1 - gs) with (start - gs + 1) by lia. rewrite Hcc. clear - Hcount. lia. }
  { unfold is_u32 in *. destruct (bit_at bm _); lia. }
  replace (start + 1 - gs) with (start - gs + 1) in * by lia. rewrite Hcc in Hf.
  exists bm'. split; [rewrite Hf; do 2 f_equal; lia|]. split; [by rewrite Hl, zlen_clear_bit|].
  intros o Ho. rewrite Hb, clear_bit_spec by lia. zbool.
Qed.
End Bitmap.

(** ** Recorded ranges *)

Lemma file_blocks_app rs rs' : file_blocks (rs ++ rs') = file_blocks rs ++ file_blocks rs'.
Proof. unfold file_blocks. by rewrite map_app, concat_app. Qed.

Lemma range_blocks_one b : range_blocks {| br_start := b; br_end := b + 1 |} = [b].
Proof. unfold range_blocks. simpl. replace (b + 1 - b) with 1 by lia. reflexivity. Qed.

(** The block recorded last. *)
Definition last_block (rs : list BlockRange) : option Z :=
  match list.last rs with Some r => Some (br_end r - 1) | None => None end.

Definition ranges_ok (rs : list BlockRange) : Prop :=
  Forall (fun r => 0 <= br_start r < br_end r /\ br_end r <= u32_max) rs.

Lemma ranges_ok_snoc rs b :
  0 <= b < u32_max -> ranges_ok rs ->
  let out := rs ++ [ {| br_start := b; br_end := b + 1 |} ] in
  ranges_ok out /\ last_block out = Some b /\ file_blocks out = file_blocks rs ++ [b].
Proof.
  intros Hb Hrs out. unfold out, ranges_ok, last_block. split.
  - apply Forall_app. split; [done|]. constructor; [simpl; unfold_ranges; lia|done].
  - rewrite last_snoc, file_blocks_app. split; [simpl; f_equal; lia|]. unfold file_blocks at 2.
    cbn [map concat]. by rewrite range_blocks_one.
Qed.

(** Recording a block appends it to the blocks of the ranges, unless it is the
    block recorded last. *)
Lemma record_block_range_spec rs b :
  0 <= b < u32_max -> ranges_ok rs -> (forall x, last_block rs = Some x -> x <= b) ->
  let rs' := record_block_range rs b in
  ranges_ok rs' /\ last_block rs' = Some b /\
  file_blocks rs' = file_blocks rs ++ (if decide (last_block rs = Some b) then [] else [b]).
Proof.
  intros Hb Hok Hlast rs'. unfold rs', record_block_range.
  assert (u32 (b + 1) = b + 1) as Hu by (apply u32_small; unfold_ranges; lia).
  destruct rs as [|r rs _] using rev_ind.
  { cbn [list.last]. rewrite Hu. by apply ranges_ok_snoc. }
  unfold last_block in Hlast |- *. rewrite last_snoc in Hlast |- *. specialize (Hlast _ eq_refl).
  pose proof Hok as Hok'. apply Forall_app in Hok' as [Hrs Hr]. apply Forall_cons_1 in Hr as [Hr _].
  destruct ((br_start r <=? b) && (b <? br_end r)) eqn:Hin.
  { split; [done|]. rewrite last_snoc. split; [f_equal; lia|]. rewrite decide_True by (f_equal; lia).
    by rewrite app_nil_r. }
  rewrite decide_False by (intros ?; simplify_eq; lia). destruct (Z.eqb_spec (br_end r) b) as [E|].
  - rewrite length_app. simpl. rewrite Nat.add_sub, take_app_length, E, Hu. split.
    { apply Forall_app. split; [done|]. constructor; [simpl; unfold_ranges; lia|done]. }
    rewrite last_snoc, !file_blocks_app, <- app_assoc. simpl. split; [f_equal; lia|]. f_equal.
    unfold file_blocks. simpl. unfold range_blocks. simpl. rewrite !app_nil_r.
    replace (b + 1 - br_start r) with (br_end r - br_start r + 1) by lia. rewrite seqZ_app by lia. f_equal.
    replace (br_start r + (br_end r - br_start r)) with b by lia. reflexivity.
  - rewrite Hu. apply (ranges_ok_snoc _ b Hb Hok).
Qed.

(** ** Group layout *)

(** Data blocks of a group whose inode table holds [ipg] inodes. *)
Definition data_blocks_in_group (ipg : Z) : Z := 32768 - ipg / 16 - 2.

Definition inode_choices : list Z := [8192; 16384; 24576; 32768].

Lemma inode_choices_spec ipg :
  In ipg inode_choices ->
  8192 <= ipg <= 32768 /\ 30718 <= data_blocks_in_group ipg <= 32254 /\
  u32 (32768 - u32 (ipg * INODE_SIZE) / BLOCK_SIZE - 2) = data_blocks_in_group ipg.
Proof.
  intros Hin. simpl in Hin. destruct Hin as [<-|[<-|[<-|[<-|[]]]]]; vm_compute; repeat split; discriminate.
Qed.

(** The layout holds [blocks] data blocks and [inodes] inodes. *)
Definition fits (blocks inodes g ipg : Z) : Prop :=
  inodes <= g * ipg /\ blocks <= g * data_blocks_in_group ipg.

Lemma groups_needed_spec blocks inodes ipg :
  is_u32 blocks -> 0 <= inodes <= 1073741824 -> In ipg inode_choices ->
  let g := groups_needed BLOCK_SIZE blocks inodes ipg in
  fits blocks inodes g ipg /\ 0 < g < u32_max /\
  forall g', fits blocks inodes g' ipg -> 0 < g' -> g <= g'.
Proof.
  intros Hb Hi Hin g. destruct (inode_choices_spec ipg Hin) as (Hipg & Hd & Hu).
  unfold g, groups_needed, fits. change (blocks_per_group BLOCK_SIZE) with 32768. rewrite Hu.
  set (d := data_blocks_in_group ipg) in *. unfold saturating_sub.
  set (q := Z.max 0 (inodes - 1) / ipg).
  assert (0 <= q /\ q * ipg <= Z.max 0 (inodes - 1) < q * ipg + ipg) as [Hq Hqi].
  { pose proof (Z.div_mod (Z.max 0 (inodes - 1)) ipg ltac:(lia)) as Hdm.
    pose proof (Z.mod_pos_bound (Z.max 0 (inodes - 1)) ipg ltac:(lia)). fold q in Hdm.
    split; [apply Z.div_pos; lia|]. lia. }
  assert (q <= 131071) by (apply Z.le_ngt; intros ?; assert (131072 * 8192 <= q * ipg) by (apply Z.mul_le_mono_nonneg; lia); lia).
  assert (0 <= q * d <= 131071 * 32254) by (split; [lia|apply Z.mul_le_mono_nonneg; lia]).
  rewrite (u32_small (q * d + 1)) by (unfold is_u32; lia).
  pose proof (div_ceil_spec (Z.max blocks (q * d + 1)) d ltac:(lia)) as Hc.
  set (n := div_ceil _ d) in *. unfold is_u32, u32_max in *.
  assert (q + 1 <= n) as Hqn by (apply Z.lt_pred_le, (Z.mul_lt_mono_pos_l d); lia).
  split; [split|split].
  - assert ((q + 1) * ipg <= n * ipg) by (apply Z.mul_le_mono_nonneg_r; lia). lia.
  - lia.
  - split; [lia|]. apply (Z.mul_lt_mono_pos_l d); lia.
  - intros g' [H1 H2] Hpos. assert (q < g') as Hqg.
    { destruct (decide (inodes = 0)) as [->|].
      - change (Z.max 0 (0 - 1)) with 0 in Hqi. assert (q = 0) by nia. lia.
      - apply (Z.mul_lt_mono_pos_r ipg); lia. }
    assert ((q + 1) * d <= g' * d) by (apply Z.mul_le_mono_nonneg_r; lia).
    apply Z.lt_pred_le, (Z.mul_lt_mono_pos_l d); lia.
Qed.

Lemma optimize_loop_spec blocks inodes :
  is_u32 blocks -> 0 <= inodes <= 1073741824 ->
  exists g ipg,
    optimize_block_group_layout BLOCK_SIZE blocks inodes = Some (g, ipg) /\
    In ipg inode_choices /\ 0 < g < u32_max /\ fits blocks inodes g ipg /\
    forall g' ipg', In ipg' inode_choices -> 0 < g' -> fits blocks inodes g' ipg' -> g <= g'.
Proof.
  intros Hb Hi. unfold optimize_block_group_layout.
  change (u32 (BLOCK_SIZE * 512) / INODE_SIZE) with 8192.
  pose proof (fun ipg => groups_needed_spec blocks inodes ipg Hb Hi) as Hn.
  cbn [optimize_loop]. change (max_inodes_per_group BLOCK_SIZE) with 32768.
  set (n := groups_needed BLOCK_SIZE blocks inodes) in *.
  clearbody n. cbv -[u32_max Z.ltb inode_choices fits Z.lt Z.le].
  pose proof (Hn 8192 ltac:(simpl; auto)) as (F1 & B1 & M1).
  pose proof (Hn 16384 ltac:(simpl; auto)) as (F2 & B2 & M2).
  pose proof (Hn 24576 ltac:(simpl; auto)) as (F3 & B3 & M3).
  pose proof (Hn 32768 ltac:(simpl; auto 6)) as (F4 & B4 & M4).
  destruct (Z.ltb_spec (n 8192) u32_max); [|lia].
  assert (forall g ipg, In ipg inode_choices -> g = n ipg ->
    g <= n 8192 -> g <= n 16384 -> g <= n 24576 -> g <= n 32768 ->
    In ipg inode_choices /\ 0 < g < u32_max /\ fits blocks inodes g ipg /\
    forall g' ipg', In ipg' inode_choices -> 0 < g' -> fits blocks inodes g' ipg' -> g <= g') as Hbest.
  { intros g ipg Hin -> ? ? ? ?. destruct (Hn ipg Hin) as (? & ? & _). split; [done|]. split; [done|].
    split; [done|]. intros g' ipg' Hin' Hpos Hf. destruct (Hn ipg' Hin') as (_ & _ & Hm).
    specialize (Hm g' Hf Hpos). simpl in Hin'. destruct Hin' as [<-|[<-|[<-|[<-|[]]]]]; lia. }
  repeat match goal with |- context [n ?a <? n ?b] => destruct (Z.ltb_spec (n a) (n b)) end;
    do 2 eexists; (split; [reflexivity|]); apply Hbest; (simpl; auto 6; lia).
Qed.

(** ** Paths *)

Section PathParts.
Implicit Types part : list Z.
Implicit Types parts : list (list Z).

Lemma abs_path_snoc parts part :
  abs_path (parts ++ [part]) = concat (map (cons SLASH) parts) ++ SLASH :: part.
Proof.
  unfold abs_path. destruct (parts ++ [part]) eqn:E; [by destruct parts|].
  rewrite <- E, map_app, concat_app. simpl. by rewrite app_nil_r.
Qed.

Lemma trim_abs pre part : part_ok part -> trim_end_slash (pre ++ SLASH :: part) = pre ++ SLASH :: part.
Proof.
  intros Hp. destruct (last_no_slash part Hp) as (c & Hc & Hcs).
  apply last_Some in Hc as (part' & ->). unfold trim_end_slash.
  rewrite cons_middle, !app_assoc, reverse_snoc. simpl. apply Z.eqb_neq in Hcs as ->.
  by rewrite reverse_cons, reverse_involutive.
Qed.

Lemma rfind_abs pre part : SLASH ∉ part -> rfind_slash (pre ++ SLASH :: part) = Some (length pre).
Proof.
  intros Hp. unfold rfind_slash. rewrite reverse_app, reverse_cons, <- app_assoc.
  assert (list_find (fun c => c = SLASH) (reverse part ++ [SLASH] ++ reverse pre) = Some (length part, SLASH)) as ->.
  { apply list_find_Some. split; [|split; [done|]].
    - rewrite lookup_app_r by (rewrite length_reverse; done). by rewrite length_reverse, Nat.sub_diag.
    - intros j y Hy Hj ->. rewrite lookup_app_l in Hy by (rewrite length_reverse; done).
      apply list_elem_of_lookup_2 in Hy. by rewrite elem_of_reverse in Hy. }
  f_equal. rewrite length_app. simpl. lia.
Qed.

(** The parent and the last component of an absolute path. *)
Lemma parent_basename parts part :
  part_ok part ->
  parent_of (abs_path (parts ++ [part])) = abs_path parts /\
  basename (abs_path (parts ++ [part])) = part.
Proof.
  intros Hp. unfold parent_of, basename. rewrite abs_path_snoc.
  rewrite bool_decide_false.
  2:{ destruct Hp as (Hn & Hne & _). intros H. destruct parts as [|p0 ps]; simpl in H.
      - unfold ROOT in H. by injection H.
      - injection H as H. by destruct p0, (concat (map (cons SLASH) ps)). }
  rewrite trim_abs by done. rewrite rfind_abs by apply Hp. split.
  - destruct (length (concat (map (cons SLASH) parts))) eqn:El.
    + by destruct parts.
    + rewrite <- El, take_app_length. by destruct parts.
  - by rewrite drop_app_ge, Nat.sub_succ_l, Nat.sub_diag by lia.
Qed.
End PathParts.

(** ** Properties *)

(** C35: The search for the place of the shared metadata run ends for every
    number of groups, and finds the first place at or after [start] where the
    run of bitmaps and inode tables touches no superblock copy and no
    group-descriptor area. *)
Theorem metadata_run_placed (start blocks total_groups area : Z)
    (Hblocks : 0 < blocks) (Htotal : 0 <= total_groups) (Harea : 0 <= area <= 1024) :
  exists s,
    metadata_run_start_after_static_ranges BLOCK_SIZE start blocks total_groups area = Some s /\
    start <= s /\ clear_run blocks total_groups area s /\
    forall s', start <= s' -> clear_run blocks total_groups area s' -> s <= s'.
Proof. by apply metadata_run_start_spec. Qed.

Lemma metadata_run_placed_witness :
  exists s,
    metadata_run_start_after_static_ranges BLOCK_SIZE 30000 3000 4 32 = Some s /\
    30000 <= s /\ clear_run 3000 4 32 s /\
    forall s', 30000 <= s' -> clear_run 3000 4 32 s' -> s <= s'.
Proof. apply (metadata_run_placed 30000 3000 4 32); lia. Defined.

(** When the metadata run is moved up, the ranges reported free are in
    order, not empty, and hold exactly the blocks from [start] to [end] that lie
    in the file system and outside every static range; the loop ends. *)
Theorem free_ranges_exact (start end_ total_groups area : Z)
    (Hstart : 0 <= start) (Hend : end_ <= 4294934528)
    (Htotal : 0 <= total_groups) (Harea : 0 <= area <= 1024) :
  exists ranges,
    free_ranges_before_shifted_metadata BLOCK_SIZE start end_ total_groups area = Some ranges /\
    ranges_between end_ start ranges /\
    forall b, in_ranges ranges b <->
      start <= b < end_ /\ b / 32768 < total_groups /\ ~ static_block total_groups area b.
Proof. by apply free_ranges_spec. Qed.

Lemma free_ranges_exact_witness :
  exists ranges,
    free_ranges_before_shifted_metadata BLOCK_SIZE 30000 100000 4 32 = Some ranges /\
    ranges_between 100000 30000 ranges /\
    forall b, in_ranges ranges b <->
      30000 <= b < 100000 /\ b / 32768 < 4 /\ ~ static_block 4 32 b.
Proof. apply (free_ranges_exact 30000 100000 4 32); lia. Defined.

(** Clearing a range of blocks from a group's bitmap clears exactly the bits
    of the range that lie in the group, keeps every other bit, and lowers the
    count of used blocks by the number of bits that were set. *)
Theorem clear_range_exact (bitmap : list Z) (group_start group_end : Z) (range : BlockRange) (used : Z)
    (lo := Z.max (br_start range) group_start) (hi := Z.min (br_end range) group_end)
    (Hlen : (group_end - group_start + 7) / 8 <= zlen bitmap) (Hlo : lo <= hi)
    (Hused : count_set bitmap (lo - group_start) (hi - lo) <= used) (Hu : is_u32 used) :
  exists bitmap',
    clear_block_range_from_bitmap (E := FormatError) bitmap group_start group_end range used
      = Ok (bitmap', used - count_set bitmap (lo - group_start) (hi - lo)) /\
    zlen bitmap' = zlen bitmap /\
    forall o, 0 <= o ->
      bit_at bitmap' o =
      bit_at bitmap o && negb ((lo - group_start <=? o) && (o <? hi - group_start)).
Proof.
  destruct (clear_blocks_spec (E := FormatError) group_start (Z.to_nat (hi - lo)) lo bitmap used)
    as (bm' & Hf & Hl & Hb); rewrite ?Z2Nat.id in * by lia; try done; [lia| |].
  { etransitivity; [|exact Hlen]. apply Z.div_le_mono; lia. }
  exists bm'. split; [exact Hf|]. split; [done|]. intros o Ho. rewrite Hb by done.
  by replace (lo - group_start + (hi - lo)) with (hi - group_start) by lia.
Qed.

(** The chosen group layout holds all blocks and all inodes, and no number of
    inodes per group the code may choose needs fewer groups.  The bound on the
    inodes is where the product in [u32] stays in range. *)
Theorem group_layout_optimal (blocks inodes : Z)
    (Hblocks : is_u32 blocks) (Hinodes : 0 <= inodes <= 1073741824) :
  exists groups ipg,
    optimize_block_group_layout BLOCK_SIZE blocks inodes = Some (groups, ipg) /\
    In ipg inode_choices /\ 0 < groups < u32_max /\ fits blocks inodes groups ipg /\
    forall g' ipg', In ipg' inode_choices -> 0 < g' -> fits blocks inodes g' ipg' -> groups <= g'.
Proof. by apply optimize_loop_spec. Qed.

Lemma group_layout_optimal_witness :
  exists groups ipg,
    optimize_block_group_layout BLOCK_SIZE 500000 90000 = Some (groups, ipg) /\
    In ipg inode_choices /\ 0 < groups < u32_max /\ fits 500000 90000 groups ipg /\
    forall g' ipg', In ipg' inode_choices -> 0 < g' -> fits 500000 90000 g' ipg' -> groups <= g'.
Proof. apply (group_layout_optimal 500000 90000); unfold is_u32; lia. Defined.
