(* ===== verification/Formatter.v ===== *)
(** The image builder up to finalisation: [Formatter] of
    [common/disk-image/src/ext4/formatter.rs], from [with_options] to
    [remove_inner].

    The builder is a state passed through every operation.  An operation that
    fails returns its error together with the state it left behind, since the
    code mutates [self] in place and returns early.  Clock readings come from a
    sequence carried by the state; the data of a file comes from the list of
    results its reader returns. *)

From stdpp Require Import gmap strings.
From S2P Require Import Prelude Bytes Types Errors Layout RustPath Disk FileTree Extent Xattr Geometry.

(** ** State *)

Record Formatter : Type := mkFormatter {
  fm_file : File;
  fm_block_size : Z;
  fm_size : Z;
  fm_inodes : list Inode;
  fm_tree : FileTree;
  fm_deleted_blocks : list BlockRange;
  fm_deferred_blocks : gmap Z (list BlockRange);
  fm_uuid : list Z;
  fm_label : option (list Z);
  fm_clock : nat -> Z * Z;
  fm_tick : nat
}.

Definition set_fm_file (v : File) (s : Formatter) : Formatter :=
  let 'mkFormatter _ bs sz ino t del def u l c k := s in mkFormatter v bs sz ino t del def u l c k.
Definition set_fm_size (v : Z) (s : Formatter) : Formatter :=
  let 'mkFormatter f bs _ ino t del def u l c k := s in mkFormatter f bs v ino t del def u l c k.
Definition set_fm_inodes (v : list Inode) (s : Formatter) : Formatter :=
  let 'mkFormatter f bs sz _ t del def u l c k := s in mkFormatter f bs sz v t del def u l c k.
Definition set_fm_tree (v : FileTree) (s : Formatter) : Formatter :=
  let 'mkFormatter f bs sz ino _ del def u l c k := s in mkFormatter f bs sz ino v del def u l c k.
Definition set_fm_deleted_blocks (v : list BlockRange) (s : Formatter) : Formatter :=
  let 'mkFormatter f bs sz ino t _ def u l c k := s in mkFormatter f bs sz ino t v def u l c k.
Definition set_fm_deferred_blocks (v : gmap Z (list BlockRange)) (s : Formatter) : Formatter :=
  let 'mkFormatter f bs sz ino t del _ u l c k := s in mkFormatter f bs sz ino t del v u l c k.
Definition set_fm_tick (v : nat) (s : Formatter) : Formatter :=
  let 'mkFormatter f bs sz ino t del def u l c _ := s in mkFormatter f bs sz ino t del def u l c v.

(** ** Effects *)

Definition M (A : Type) : Type := Formatter -> res FormatError A * Formatter.

#[global] Instance M_ret : MRet M := fun A a s => (Ok a, s).
#[global] Instance M_bind : MBind M := fun A B f m s =>
  match m s with
  | (Ok a, s') => f a s'
  | (Err e, s') => (Err e, s')
  | (Panic, s') => (Panic, s')
  end.

Definition throw {A} (e : FormatError) : M A := fun s => (Err e, s).
Definition panic {A} : M A := fun s => (Panic, s).
Definition gets {A} (f : Formatter -> A) : M A := fun s => (Ok (f s), s).
Definition modify (f : Formatter -> Formatter) : M unit := fun s => (Ok tt, f s).
(** A pure computation that may fail. *)
Definition lift {A} (r : res FormatError A) : M A := fun s => (r, s).

Lemma M_bind_eq {A B} (m : M A) (f : A -> M B) s :
  (m ≫= f) s =
  match m s with
  | (Ok a, s') => f a s'
  | (Err e, s') => (Err e, s')
  | (Panic, s') => (Panic, s')
  end.
Proof. reflexivity. Qed.

(** [mstep] runs the operations at the head of a program whose outcome is
    known. *)
Ltac mstep :=
  cbn beta iota; repeat (rewrite M_bind_eq; unfold gets, modify, lift, throw, panic; cbn beta iota).

Fixpoint forM_ {A} (l : list A) (f : A -> M unit) : M unit :=
  match l with
  | [] => mret tt
  | a :: l => _ ← f a; forM_ l f
  end.

(** [timestamp_now]: one reading of the clock. *)
Definition now : M (Z * Z) := fun s =>
  let '(secs, nanos) := fm_clock s (fm_tick s) in
  (Ok (timestamp_now secs nanos), set_fm_tick (S (fm_tick s)) s).

(** [self.inodes[(n - 1) as usize]], read and updated in place. *)
Definition inode_index (n : Z) : nat := Z.to_nat (u32 (n - 1)).
Definition get_inode (n : Z) : M Inode := fun s => (or_panic (fm_inodes s !! inode_index n), s).
Definition update_inode (n : Z) (f : Inode -> Inode) : M unit := fun s =>
  match fm_inodes s !! inode_index n with
  | Some inode => (Ok tt, set_fm_inodes (<[inode_index n := f inode]> (fm_inodes s)) s)
  | None => (Panic, s)
  end.

Definition tree_lookup (path : list Z) : M (option nat) := fun s => (lookup (fm_tree s) path, s).
Definition tree_node (i : nat) : M FileTreeNode := fun s => (node (fm_tree s) i, s).


Definition tree_add_child (parent : nat) (n : FileTreeNode) : M unit := fun s =>
  match add_child (E := FormatError) (fm_tree s) parent n with
  | Ok (t, _) => (Ok tt, set_fm_tree t s)
  | Err e => (Err e, s)
  | Panic => (Panic, s)
  end.

Definition tree_remove_child (parent : nat) (name : list Z) : M unit := fun s =>
  match remove_child (E := FormatError) (fm_tree s) parent name with
  | Ok t => (Ok tt, set_fm_tree t s)
  | Err e => (Err e, s)
  | Panic => (Panic, s)
  end.

(** ** Positions *)

Definition fits_32_bit : FormatError := FormatIo OtherIo.

Definition pos : M Z := gets (fun s => f_pos (fm_file s)).

Definition current_block : M Z :=
  p ← pos; bs ← gets fm_block_size;
  let block := p / bs in
  if block <=? u32_max then mret block else throw fits_32_bit.

Definition seek_to_block (block : Z) : M unit :=
  modify (fun s => set_fm_file (seek (fm_file s) (block * fm_block_size s)) s).

Definition align_to_block : M unit :=
  p ← pos; bs ← gets fm_block_size;
  if negb (p mod bs =? 0) then
    blk ← current_block;
    if blk + 1 <=? u32_max then seek_to_block (blk + 1) else throw fits_32_bit
  else mret tt.

(** The [loop]; a second turn finds nothing more to skip
    ([skip_reserved_spec]). *)
Fixpoint skip_loop (fuel : nat) : M unit :=
  match fuel with
  | O => panic
  | S fuel =>
      block ← current_block;
      next ← gets (fun s => reserved_metadata_end_for_block (fm_block_size s) (fm_size s) block);
      if next =? block then mret tt else _ ← seek_to_block next; skip_loop fuel
  end.

Definition skip_reserved_metadata_blocks : M unit :=
  p ← pos; bs ← gets fm_block_size;
  if negb (p mod bs =? 0) then mret tt else skip_loop 2.

(** ** Payload *)

Definition file_write_all (bytes : list Z) : M unit :=
  modify (fun s => set_fm_file (write_all (fm_file s) bytes) s).

(** The [while offset < bytes.len()] loop on the bytes left; every turn writes
    at least one. *)
Fixpoint write_payload_loop (fuel : nat) (bytes : list Z) (ranges : list BlockRange) :
    M (list BlockRange) :=
  match fuel with
  | O => panic
  | S fuel =>
      if 0 <? zlen bytes then
        _ ← skip_reserved_metadata_blocks;
        block ← current_block;
        p ← pos; bs ← gets fm_block_size;
        let block_offset := p mod bs in
        let writable := Z.min (bs - block_offset) (zlen bytes) in
        _ ← file_write_all (take (Z.to_nat writable) bytes);
        _ ← modify (fun s => set_fm_size (Z.max (fm_size s) (f_pos (fm_file s))) s);
        write_payload_loop fuel (drop (Z.to_nat writable) bytes) (record_block_range ranges block)
      else mret ranges
  end.

Definition write_payload_bytes (bytes : list Z) (ranges : list BlockRange) : M (list BlockRange) :=
  write_payload_loop (S (length bytes)) bytes ranges.

(** A reader is the results its [read] calls will return: bytes or an error;
    no bytes is the end.  A result longer than the buffer is delivered in
    parts. *)
Definition Reader : Type := list (res IoError (list Z)).

Definition reader_bytes (r : Reader) : nat :=
  sum_list_with (fun x => match x with Ok bytes => S (length bytes) | _ => 1%nat end) r.

Definition read (bs : Z) (r : Reader) : res IoError (list Z) * Reader :=
  match r with
  | [] => (Ok [], [])
  | Ok bytes :: r =>
      if zlen bytes <=? bs then (Ok bytes, r)
      else (Ok (take (Z.to_nat bs) bytes), Ok (drop (Z.to_nat bs) bytes) :: r)
  | Err e :: r => (Err e, r)
  | Panic :: r => (Panic, r)
  end.

Fixpoint write_from_reader_loop (fuel : nat) (reader : Reader) (size : Z) (ranges : list BlockRange) :
    M (Z * list BlockRange) :=
  match fuel with
  | O => panic
  | S fuel =>
      bs ← gets fm_block_size;
      let '(got, reader) := read bs reader in
      buf ← lift (map_err FormatIo got);
      if zlen buf =? 0 then mret (size, ranges)
      else
        let size := u64 (size + zlen buf) in
        if MAX_FILE_SIZE <? size then throw (FileTooBig size)
        else
          ranges ← write_payload_bytes buf ranges;
          write_from_reader_loop fuel reader size ranges
  end.

Definition write_payload_from_reader (reader : Reader) (ranges : list BlockRange) :
    M (Z * list BlockRange) :=
  write_from_reader_loop (S (reader_bytes reader)) reader 0 ranges.

Definition write_aligned_payload_bytes (bytes : list Z) : M (list BlockRange) :=
  _ ← align_to_block;
  _ ← skip_reserved_metadata_blocks;
  ranges ← write_payload_bytes bytes [];
  _ ← align_to_block;
  mret ranges.

(** The [while remaining > 0] loop; every turn takes at least one block. *)
Fixpoint allocate_loop (fuel : nat) (remaining : Z) (ranges : list BlockRange) : M (list BlockRange) :=
  match fuel with
  | O => panic
  | S fuel =>
      if 0 <? remaining then
        _ ← skip_reserved_metadata_blocks;
        start ← current_block;
        bs ← gets fm_block_size;
        let group_end := (start / blocks_per_group bs + 1) * blocks_per_group bs in
        if u32_max <? group_end then throw fits_32_bit
        else
          let count := Z.min remaining (group_end - start) in
          let end_ := start + count in
          if u32_max <? end_ then throw fits_32_bit
          else
            _ ← seek_to_block end_;
            allocate_loop fuel (remaining - count) (ranges ++ [ {| br_start := start; br_end := end_ |} ])
      else mret ranges
  end.

Definition allocate_sparse_blocks (block_count : Z) : M (list BlockRange) :=
  _ ← align_to_block;
  allocate_loop (S (Z.to_nat block_count)) block_count [].

(** [extent::write_extents] on [self.file], from the given block on. *)
Definition fm_write_extents (inode : Inode) (ranges : list BlockRange) (cur : Z) : M (Inode * Z) :=
  fun s =>
    match write_extents (E := FormatError) inode ranges (fm_block_size s) (fm_file s) cur with
    | Ok (inode, file, cur) => (Ok (inode, cur), set_fm_file file s)
    | Err e => (Err e, s)
    | Panic => (Panic, s)
    end.

Definition initialize_journal : M unit :=
  initial_blocks ← gets (fun s =>
    Z.max (div_ceil (fm_size s) (fm_block_size s)) (blocks_per_group (fm_block_size s)));
  let journal_blocks := default_journal_blocks initial_blocks in
  ranges ← allocate_sparse_blocks journal_blocks;
  first ← lift (ok_or (head ranges) InsufficientSpaceForGroupDescriptorBlocks);
  let journal_start := br_start first in
  t ← now;
  bs ← gets fm_block_size;
  let inode :=
    set_file_size (journal_blocks * bs)
      (set_times t.1 t.2
         (set_i_extra_isize EXTRA_ISIZE
            (set_i_links_count 1 (set_i_mode (Z.lor S_IFREG 0x180) Inode_default)))) in
  _ ← skip_reserved_metadata_blocks;
  next_block ← current_block;
  out ← fm_write_extents inode ranges next_block;
  let '(inode, next_block) := (out : Inode * Z) in
  _ ← seek_to_block next_block;
  _ ← update_inode JOURNAL_INODE_NUMBER (fun _ => inode);
  end_position ← pos;
  _ ← seek_to_block journal_start;
  uuid ← gets fm_uuid;
  _ ← file_write_all (journal_superblock bs journal_blocks uuid);
  modify (fun s => set_fm_file (seek (fm_file s) end_position) s).

Definition assign_node_ranges (n : FileTreeNode) (ranges : list BlockRange) : FileTreeNode :=
  {| n_inode := n_inode n; n_name := n_name n; n_children := n_children n; n_parent := n_parent n;
     n_blocks := head ranges; n_additional_blocks := tail ranges; n_link := n_link n |}.

(** ** Removal *)

Definition SLASHED (path child_name : list Z) : list Z :=
  if bool_decide (path = ROOT) then SLASH :: child_name else path ++ SLASH :: child_name.

(** Lines after the detachment: drop one reference to [target_ino], reclaim its
    blocks with the last one. *)
Definition release_target (node_idx : nat) (target_ino : Z) : M unit :=
  if FIRST_INODE - 1 <? target_ino then
    _ ← update_inode target_ino (fun inode =>
      if 0 <? i_links_count inode then set_i_links_count (i_links_count inode - 1) inode else inode);
    n ← tree_node node_idx;
    let node_blocks :=
      match n_blocks n with
      | Some b => if negb (br_start b =? br_end b) then [b] else []
      | None => []
      end ++ n_additional_blocks n in
    inode ← get_inode target_ino;
    let xattr_block := i_xattr_block_lo inode in
    if i_links_count inode =? 0 then
      deferred ← gets (fun s => default [] (fm_deferred_blocks s !! target_ino));
      _ ← modify (fun s =>
        set_fm_deferred_blocks (delete target_ino (fm_deferred_blocks s))
          (set_fm_deleted_blocks
             (fm_deleted_blocks s ++ node_blocks ++ deferred ++
              (if negb (xattr_block =? 0)
               then [ {| br_start := xattr_block; br_end := u32 (xattr_block + 1) |} ] else [])) s));
      t ← now;
      update_inode target_ino (fun _ => set_i_dtime t.1 Inode_default)
    else if negb (bool_decide (node_blocks = [])) then
      modify (fun s =>
        set_fm_deferred_blocks
          (<[target_ino := default [] (fm_deferred_blocks s !! target_ino) ++ node_blocks]>
             (fm_deferred_blocks s)) s)
    else mret tt
  else mret tt.

Definition detach (path : list Z) (node_is_dir : bool) : M unit :=
  parent ← tree_lookup (parent_of path);
  match parent with
  | Some parent_idx =>
      p ← tree_node parent_idx;
      _ ← (if node_is_dir then
             update_inode (n_inode p) (fun inode =>
               if 2 <? i_links_count inode then set_i_links_count (i_links_count inode - 1) inode
               else inode)
           else mret tt);
      tree_remove_child parent_idx (basename path)
  | None => mret tt
  end.

(** The names of the children of a node. *)
Definition child_names (node_idx : nat) : M (list (list Z)) := fun s =>
  (n ← node (E := FormatError) (fm_tree s) node_idx;
   foldM (fun names ci => c ← node (fm_tree s) ci; Ok (names ++ [n_name c])) [] (n_children n), s).

Fixpoint remove_inner (fuel : nat) (path : list Z) (remove_self : bool) : M unit :=
  match fuel with
  | O => panic
  | S fuel =>
      found ← tree_lookup path;
      match found with
      | None => mret tt
      | Some node_idx =>
          n ← tree_node node_idx;
          let linked_ino := n_link n in
          let target_ino := default (n_inode n) linked_ino in
          node_is_dir ← (match linked_ino with
                         | None => inode ← get_inode (n_inode n); mret (is_dir (i_mode inode))
                         | Some _ => mret false
                         end);
          if negb remove_self && negb node_is_dir then throw (NotDirectory path)
          else
            names ← child_names node_idx;
            _ ← forM_ names (fun child_name => remove_inner fuel (SLASHED path child_name) true);
            if negb remove_self then mret tt
            else
              _ ← detach path node_is_dir;
              release_target node_idx target_ino
      end
  end.

(** Each level of the recursion is one level of the tree, and a tree is no
    deeper than its vector of nodes is long. *)
Definition remove_depth (s : Formatter) : nat := S (length (nodes (fm_tree s))).

Definition remove (path : list Z) : M unit :=
  fuel ← gets remove_depth; remove_inner fuel path true.

Definition remove_children (path : list Z) : M unit :=
  fuel ← gets remove_depth; remove_inner fuel path false.

(** ** Creation *)

Record FileTimestamps : Type := mkFileTimestamps {
  access_lo : Z; access_hi : Z; modification_lo : Z; modification_hi : Z;
  creation_lo : Z; creation_hi : Z; now_lo : Z; now_hi : Z
}.

Definition FileTimestamps_default : M FileTimestamps :=
  t ← now;
  mret (mkFileTimestamps t.1 t.2 t.1 t.2 t.1 t.2 t.1 t.2).

(** The cases where the path exists; [true] when the call is over. *)
Definition create_existing (path : list Z) (mode : Z) (uid gid : option Z) : M bool :=
  found ← tree_lookup path;
  match found with
  | None => mret false
  | Some existing_idx =>
      n ← tree_node existing_idx;
      existing_inode ← get_inode (n_inode n);
      if is_dir mode then
        if is_dir (i_mode existing_inode) then
          if bool_decide (n_name n = basename path) then
            _ ← (if bool_decide (is_Some uid) || bool_decide (is_Some gid) then
                   update_inode (n_inode n) (fun inode =>
                     let inode := set_i_mode mode inode in
                     let inode := match uid with Some u => set_uid u inode | None => inode end in
                     match gid with Some g => set_gid g inode | None => inode end)
                 else mret tt);
            mret true
          else mret false
        else throw (NotDirectory path)
      else if bool_decide (is_Some (n_link n)) then _ ← remove path; mret false
      else if is_dir (i_mode existing_inode) && negb (is_link mode) then throw (NotFile path)
      else _ ← remove path; mret false
  end.

(** [system.data], the sentinel attribute. *)
Definition SYSTEM_DATA : list Z := [115; 121; 115; 116; 101; 109; 46; 100; 97; 116; 97].

(** The attributes in the order the map yields them. *)
Definition create_xattrs (child_inode : Inode) (xattrs : list (list Z * list Z)) : M Inode :=
  if bool_decide (xattrs = []) then mret child_inode
  else
    child_ino ← gets (fun s => u32 (u32 (zlen (fm_inodes s)) + 1));
    bs ← gets fm_block_size;
    let state := XattrState_new child_ino INODE_EXTRA_SIZE bs in
    state ← lift (add state (ExtendedAttribute_new SYSTEM_DATA []));
    state ← lift (foldM (fun st '(name, value) => add st (ExtendedAttribute_new name value)) state xattrs);
    child_inode ←
      (if has_inline state then buf ← lift (write_inline state); mret (set_i_inline_xattrs buf child_inode)
       else mret child_inode);
    if has_block state then
      block_buf ← lift (write_block state);
      ranges ← write_aligned_payload_bytes block_buf;
      let child_inode :=
        match head ranges with
        | Some range => set_i_xattr_block_lo (br_start range) child_inode
        | None => child_inode
        end in
      mret (set_i_blocks_lo
              (u32 (i_blocks_lo child_inode +
                    (if negb (Z.land (i_flags child_inode) inode_flag_HUGE_FILE =? 0) then 1 else bs / 512)))
              child_inode)
    else mret child_inode.

Definition create_times (ts : FileTimestamps) (inode : Inode) : Inode :=
  set_i_extra_isize EXTRA_ISIZE (set_i_links_count 1
    (set_i_crtime_extra (creation_hi ts) (set_i_crtime (creation_lo ts)
      (set_i_mtime_extra (modification_hi ts) (set_i_mtime (modification_lo ts)
        (set_i_ctime_extra (now_hi ts) (set_i_ctime (now_lo ts)
          (set_i_atime_extra (access_hi ts) (set_i_atime (access_lo ts) inode))))))))).

(** The extents of the blocks just written go to the next free block. *)
Definition place_extents (inode : Inode) (ranges : list BlockRange) : M Inode :=
  _ ← skip_reserved_metadata_blocks;
  cur ← current_block;
  out ← fm_write_extents inode ranges cur;
  mret out.1.

Definition create_directory (parent_inode_num : Z) (child_inode : Inode) : M (Inode * list BlockRange) :=
  _ ← update_inode parent_inode_num (fun p => set_i_links_count (u16 (i_links_count p + 1)) p);
  mret (set_i_links_count 2 child_inode, []).

Definition create_symlink (child_inode : Inode) (link_bytes : list Z) : M (Inode * list BlockRange) :=
  let short := zlen link_bytes <? 60 in
  out ← (if short then
           mret (set_i_block (put_bytes (i_block child_inode) 0 link_bytes) child_inode, [])
         else
           ranges ← write_aligned_payload_bytes link_bytes;
           mret (child_inode, ranges));
  let '(child_inode, ranges) := (out : Inode * list BlockRange) in
  let child_inode := set_file_size (zlen link_bytes) child_inode in
  let child_inode := set_i_mode (Z.lor (i_mode child_inode) 0x1FF) child_inode in
  let child_inode := set_i_flags 0 child_inode in
  if short then mret (set_i_blocks_lo 0 child_inode, ranges)
  else child_inode ← place_extents child_inode ranges; mret (child_inode, ranges).

Definition create_regular (child_inode : Inode) (data : option Reader) : M (Inode * list BlockRange) :=
  out ← (match data with
         | Some reader =>
             _ ← align_to_block;
             _ ← skip_reserved_metadata_blocks;
             out ← write_payload_from_reader reader [];
             _ ← align_to_block;
             mret out
         | None => mret (0, [])
         end);
  let '(size, ranges) := (out : Z * list BlockRange) in
  child_inode ← place_extents (set_file_size size child_inode) ranges;
  mret (child_inode, ranges).

(** From the lookup of the parent on. *)
Definition create_node (path : list Z) (mode : Z) (link : option (list Z)) (ts : option FileTimestamps)
    (data : option Reader) (uid gid : option Z) (xattrs : option (list (list Z * list Z))) : M unit :=
  let parent_path := parent_of path in
  found ← tree_lookup parent_path;
  parent_idx ← lift (ok_or found (NotFound parent_path));
  pn ← tree_node parent_idx;
  let parent_inode_num := n_inode pn in
  parent_inode ← get_inode parent_inode_num;
  if MAX_LINKS <=? i_links_count parent_inode then throw (MaximumLinksExceeded parent_path)
  else
    let child_inode := set_i_flags inode_flag_HUGE_FILE (set_i_mode mode Inode_default) in
    let child_inode :=
      match uid with
      | Some u => set_uid u child_inode
      | None => set_i_uid_hi (i_uid_hi parent_inode) (set_i_uid (i_uid parent_inode) child_inode)
      end in
    let child_inode :=
      match gid with
      | Some g => set_gid g child_inode
      | None => set_i_gid_hi (i_gid_hi parent_inode) (set_i_gid (i_gid parent_inode) child_inode)
      end in
    child_inode ← create_xattrs child_inode (default [] xattrs);
    ts ← (match ts with Some ts => mret ts | None => FileTimestamps_default end);
    let child_inode := create_times ts child_inode in
    out ← (if is_dir mode then create_directory parent_inode_num child_inode
           else if is_link mode then
             link_target ← lift (ok_or link (InvalidLink path));
             create_symlink child_inode link_target
           else if is_reg mode then create_regular child_inode data
           else throw UnsupportedFiletype);
    let '(child_inode, ranges) := (out : Inode * list BlockRange) in
    _ ← modify (fun s => set_fm_inodes (fm_inodes s ++ [child_inode]) s);
    child_inode_num ← gets (fun s => u32 (zlen (fm_inodes s)));
    let child_node :=
      assign_node_ranges
        {| n_inode := child_inode_num; n_name := basename path; n_children := []; n_parent := None;
           n_blocks := None; n_additional_blocks := []; n_link := None |} ranges in
    tree_add_child parent_idx child_node.

(** Every parent is shorter than its path, except those of [/] and of the empty
    path; two more turns than bytes are enough ([create_fuel]). *)
Fixpoint create_at (fuel : nat) (path : list Z) (mode : Z) (link : option (list Z))
    (ts : option FileTimestamps) (data : option Reader) (uid gid : option Z)
    (xattrs : option (list (list Z * list Z))) : M unit :=
  match fuel with
  | O => panic
  | S fuel =>
      _ ← lift (validate_path_component_names path);
      if negb (is_dir mode) && negb (is_reg mode) && negb (is_link mode) then throw UnsupportedFiletype
      else if negb (eqb (is_link mode) (bool_decide (is_Some link))) then throw (InvalidLink path)
      else
        over ← create_existing path mode uid gid;
        if over : bool then mret tt
        else
          _ ← (if negb (bool_decide (parent_of path = path)) then
                 create_at fuel (parent_of path) (make_mode S_IFDIR 0x1ED) None None None None None None
               else mret tt);
          create_node path mode link ts data uid gid xattrs
  end.

Definition create (path : list Z) (mode : Z) (link : option (list Z)) (ts : option FileTimestamps)
    (data : option Reader) (uid gid : option Z) (xattrs : option (list (list Z * list Z))) : M unit :=
  create_at (S (S (length path))) path mode link ts data uid gid xattrs.

(** ** Queries and updates *)

Definition exists_path (path : list Z) : M bool :=
  found ← tree_lookup path; mret (bool_decide (is_Some found)).

Definition path_is_dir (path : list Z) : M bool :=
  found ← tree_lookup path;
  match found with
  | Some idx => n ← tree_node idx; inode ← get_inode (n_inode n); mret (is_dir (i_mode inode))
  | None => mret false
  end.

Definition list_dir (path : list Z) : M (list (list Z)) :=
  found ← tree_lookup path;
  match found with
  | Some idx => child_names idx
  | None => mret []
  end.

Definition set_permissions (path : list Z) (mode : Z) : M unit :=
  found ← tree_lookup path;
  idx ← lift (ok_or found (NotFound path));
  n ← tree_node idx;
  update_inode (n_inode n) (fun inode =>
    set_i_mode (Z.lor (Z.land (i_mode inode) TYPE_MASK) (Z.land mode (Z.lxor 0xFFFF TYPE_MASK))) inode).

Definition set_owner (path : list Z) (uid gid : Z) : M unit :=
  found ← tree_lookup path;
  idx ← lift (ok_or found (NotFound path));
  n ← tree_node idx;
  update_inode (n_inode n) (fun inode => set_gid gid (set_uid uid inode)).

(** ** Hard links *)

Definition link (link_path target_path : list Z) : M unit :=
  _ ← lift (validate_path_component_names link_path);
  found ← tree_lookup target_path;
  target_idx ← lift (ok_or found (NotFound target_path));
  tn ← tree_node target_idx;
  let target_inode_num := n_inode tn in
  target_inode ← get_inode target_inode_num;
  if is_dir (i_mode target_inode) then throw (CannotHardlinkDirectory target_path)
  else
    existing ← tree_lookup link_path;
    existing_target ←
      (match existing with
       | Some idx => n ← tree_node idx; mret (Some (default (n_inode n) (n_link n)))
       | None => mret None
       end);
    if bool_decide (existing_target = Some target_inode_num) then mret tt
    else
      let parent_path := parent_of link_path in
      found ← tree_lookup parent_path;
      parent_idx ← lift (ok_or found (NotFound parent_path));
      pn ← tree_node parent_idx;
      parent_inode ← get_inode (n_inode pn);
      if MAX_LINKS <=? i_links_count parent_inode then throw (MaximumLinksExceeded parent_path)
      else
        _ ← (if bool_decide (is_Some existing_target) then remove link_path else mret tt);
        _ ← update_inode target_inode_num (fun inode => set_i_links_count (u16 (i_links_count inode + 1)) inode);
        let link_node :=
          {| n_inode := ROOT_INODE; n_name := basename link_path; n_children := []; n_parent := None;
             n_blocks := None; n_additional_blocks := []; n_link := Some target_inode_num |} in
        tree_add_child parent_idx link_node.

(** ** Construction *)

Record FormatOptions : Type := mkFormatOptions {
  opt_block_size : Z; opt_size : Z; opt_uuid : option (list Z); opt_label : option (list Z)
}.

Definition LOST_AND_FOUND : list Z := [47; 108; 111; 115; 116; 43; 102; 111; 117; 110; 100].

(** The builder before the first write.  [fresh_uuid] is the random UUID and
    [clock] the readings of the clock to come. *)
Definition initial_formatter (opts : FormatOptions) (fresh_uuid : list Z) (clock : nat -> Z * Z) : Formatter :=
  {| fm_file := set_len empty_file (opt_size opts);
     fm_block_size := opt_block_size opts;
     fm_size := opt_size opts;
     fm_inodes := [Inode_default; root_inode (clock 0%nat).1 (clock 0%nat).2] ++ replicate 8 Inode_default;
     fm_tree := FileTree_new ROOT_INODE ROOT;
     fm_deleted_blocks := [];
     fm_deferred_blocks := ∅;
     fm_uuid := default fresh_uuid (opt_uuid opts);
     fm_label := opt_label opts;
     fm_clock := clock;
     fm_tick := 1 |}.

Definition check_options (opts : FormatOptions) : res FormatError unit :=
  if negb (opt_block_size opts =? 4096) then Err (UnsupportedBlockSize (opt_block_size opts))
  else if opt_size opts =? 0 then Err (InvalidSize (opt_size opts) "size must be greater than zero"%string)
  else
    let blocks_per_group := u32 (opt_block_size opts * 8) in
    let maximum_blocks := u32_max / blocks_per_group * blocks_per_group in
    if maximum_blocks <? div_ceil (opt_size opts) (opt_block_size opts)
    then Err (InvalidSize (opt_size opts) "size exceeds the 32-bit block layout"%string)
    else match opt_label opts with Some label => validate_label label | None => Ok tt end.

(** The steps of [with_options] on the new builder. *)
Definition start_image : M unit :=
  gdb ← gets (fun s => group_descriptor_blocks (fm_block_size s) (fm_size s));
  _ ← seek_to_block (u32 (gdb + 1));
  _ ← initialize_journal;
  create LOST_AND_FOUND (make_mode S_IFDIR 0x1C0) None None None None None None.

Definition with_options (opts : FormatOptions) (fresh_uuid : list Z) (clock : nat -> Z * Z) :
    res FormatError Formatter :=
  _ ← check_options opts;
  match start_image (initial_formatter opts fresh_uuid clock) with
  | (Ok _, s) => Ok s
  | (Err e, _) => Err e
  | (Panic, _) => Panic
  end.
