(* ===== verification/Payload.v ===== *)
(** What the payload writers of the image builder put on the disk: the bytes
    of a file lie, in order, in the blocks of the recorded ranges, and these
    blocks avoid the superblock copies and descriptor areas. *)

From stdpp Require Import gmap.
From S2P Require Import Prelude Bytes Types Errors Disk FileTree Extent Geometry Formatter.

(** ** Positions *)

Definition at_pos (p : Z) (s : Formatter) : Formatter := set_fm_file (seek (fm_file s) p) s.

Abbreviation fpos s := (f_pos (fm_file s)).

(** The first position a payload byte may take: block-aligned positions skip
    the reserved blocks. *)
Definition payload_pos (size p : Z) : Z :=
  if p mod 4096 =? 0 then reserved_metadata_end_for_block BLOCK_SIZE size (p / 4096) * 4096 else p.

Lemma at_pos_self s : at_pos (fpos s) s = s.
Proof. by destruct s as [[? ? ?]]. Qed.

Lemma current_block_spec s :
  fm_block_size s = BLOCK_SIZE ->
  current_block s =
  if fpos s / 4096 <=? u32_max then (Ok (fpos s / 4096), s) else (Err fits_32_bit, s).
Proof.
  intros Hbs. unfold current_block, pos. mstep. rewrite Hbs. change BLOCK_SIZE with 4096.
  by destruct (fpos s / 4096 <=? u32_max).
Qed.

Lemma pos_block_u32 s : 0 <= fpos s -> fpos s / 4096 <= u32_max -> is_u32 (fpos s / 4096).
Proof. intros ? H. unfold_ranges. split; [apply Z.div_pos; lia|lia]. Qed.

Lemma aligned_pos p : p mod 4096 = 0 -> p / 4096 * 4096 = p.
Proof. intros H. pose proof (Z.div_mod p 4096 ltac:(lia)). lia. Qed.

(** The loop of [skip_reserved_metadata_blocks] ends within two turns. *)
Lemma skip_reserved_spec s :
  fm_block_size s = BLOCK_SIZE -> 0 <= fpos s -> fpos s / 4096 <= u32_max ->
  skip_reserved_metadata_blocks s = (Ok tt, at_pos (payload_pos (fm_size s) (fpos s)) s).
Proof.
  intros Hbs Hp Hmax. unfold skip_reserved_metadata_blocks, pos, payload_pos. mstep. rewrite Hbs. change (fpos s mod BLOCK_SIZE) with (fpos s mod 4096).
  destruct (Z.eqb_spec (fpos s mod 4096) 0) as [Ha|Ha]; cbn [negb]; [|by rewrite at_pos_self].
  pose proof (pos_block_u32 s Hp Hmax) as Hb.
  destruct (reserved_end_spec (fm_size s) (fpos s / 4096) Hb) as (Hle & Hu & Hfree & _).
  set (next := reserved_metadata_end_for_block BLOCK_SIZE (fm_size s) (fpos s / 4096)) in *.
  cbn [skip_loop]. mstep. rewrite current_block_spec by done.
  replace (fpos s / 4096 <=? u32_max) with true by lia. mstep. rewrite Hbs. fold next. destruct (Z.eqb_spec next (fpos s / 4096)) as [->|Hne].
  { rewrite aligned_pos by done. by rewrite at_pos_self. }
  unfold seek_to_block. mstep. rewrite Hbs. fold (at_pos (next * BLOCK_SIZE) s).
  assert (fpos (at_pos (next * BLOCK_SIZE) s) / 4096 = next) as Hd.
  { destruct s. simpl. by apply Z.div_mul. }
  rewrite current_block_spec by (by destruct s).
  rewrite Hd. replace (next <=? u32_max) with true by (unfold_ranges; lia). mstep.
  assert (fm_block_size (at_pos (next * BLOCK_SIZE) s) = BLOCK_SIZE /\
          fm_size (at_pos (next * BLOCK_SIZE) s) = fm_size s) as [-> ->] by (by destruct s).
  rewrite reserved_end_eq, Hfree by done. by rewrite Z.eqb_refl.
Qed.

Lemma payload_pos_spec size p :
  0 <= p -> p / 4096 <= u32_max ->
  let q := payload_pos size p in
  p <= q /\ is_u32 (q / 4096) /\ q mod 4096 = p mod 4096 /\ (p mod 4096 <> 0 -> q = p) /\
  (p mod 4096 = 0 -> reserved_block (group_descriptor_blocks BLOCK_SIZE size) (q / 4096) = false).
Proof.
  intros Hp Hmax q. unfold q, payload_pos.
  assert (is_u32 (p / 4096)) as Hb by (unfold_ranges; split; [apply Z.div_pos; lia|lia]).
  destruct (Z.eqb_spec (p mod 4096) 0) as [Ha|Ha].
  - destruct (reserved_end_spec size (p / 4096) Hb) as (Hle & Hu & Hfree & _).
    rewrite Z.div_mul, Z.mod_mul by lia. rewrite Ha. pose proof (aligned_pos p Ha).
    split; [lia|]. do 2 (split; [done|]). by split.
  - split; [lia|]. do 3 (split; [done|]). done.
Qed.

Lemma zlen_pos {A} (l : list A) : l <> [] -> 0 < zlen l.
Proof. destruct l as [|a l]; [done|]. rewrite zlen_cons. pose proof (zlen_nonneg l). lia. Qed.

(** ** One turn *)

(** The [i]-th byte of the payload in the blocks of the ranges. *)
Definition byte_addr (ranges : list BlockRange) (i : Z) : Z :=
  nth (Z.to_nat (i / 4096)) (file_blocks ranges) 0 * 4096 + i mod 4096.

Definition payload_at (f : File) (ranges : list BlockRange) (w : list Z) : Prop :=
  forall i, 0 <= i < zlen w -> f_data f (byte_addr ranges i) = nth (Z.to_nat i) w 0.

(** The bytes [w] have been written to [ranges], and more may follow. *)
Record payload_inv (s : Formatter) (ranges : list BlockRange) (w : list Z) : Prop := {
  pi_bs : fm_block_size s = BLOCK_SIZE;
  pi_pos : 0 <= fpos s;
  pi_ranges : ranges_ok ranges;
  pi_last : forall x, last_block ranges = Some x -> x * 4096 < fpos s;
  pi_cursor : fpos s mod 4096 <> 0 -> last_block ranges = Some (fpos s / 4096);
  pi_len : zlen w = 4096 * zlen (file_blocks ranges) - (- fpos s) mod 4096;
  pi_addr : forall i, 0 <= i < zlen w -> byte_addr ranges i < fpos s;
  pi_data : payload_at (fm_file s) ranges w
}.

(** The state after [writable] bytes were written at [q]. *)
Definition after_write (q : Z) (bytes : list Z) (s : Formatter) : Formatter :=
  set_fm_size (Z.max (fm_size s) (q + zlen bytes))
    (set_fm_file (write_all (seek (fm_file s) q) bytes) s).

Lemma after_write_pos q bytes s : fpos (after_write q bytes s) = q + zlen bytes.
Proof. by destruct s. Qed.

Lemma after_write_data q bytes s x :
  f_data (fm_file (after_write q bytes s)) x =
  if (q <=? x) && (x <? q + zlen bytes) then nth (Z.to_nat (x - q)) bytes 0 else f_data (fm_file s) x.
Proof. by destruct s. Qed.

Lemma write_turn fuel bytes ranges s :
  fm_block_size s = BLOCK_SIZE -> 0 <= fpos s -> fpos s / 4096 <= u32_max -> bytes <> [] ->
  let q := payload_pos (fm_size s) (fpos s) in
  let n := Z.to_nat (Z.min (4096 - q mod 4096) (zlen bytes)) in
  write_payload_loop (S fuel) bytes ranges s =
  write_payload_loop fuel (drop n bytes) (record_block_range ranges (q / 4096))
    (after_write q (take n bytes) s).
Proof.
  intros Hbs Hp Hmax Hne q n. cbn [write_payload_loop].
  pose proof (zlen_pos bytes Hne). replace (0 <? zlen bytes) with true by lia.
  mstep. rewrite skip_reserved_spec by done. fold q. mstep.
  destruct (payload_pos_spec (fm_size s) (fpos s) Hp Hmax) as (Hle & Hu & _). fold q in Hle, Hu.
  assert (fpos (at_pos q s) = q /\ fm_block_size (at_pos q s) = BLOCK_SIZE) as [Hq Hb] by (by destruct s).
  rewrite current_block_spec by done. rewrite Hq.
  replace (q / 4096 <=? u32_max) with true by (unfold_ranges; lia).
  unfold pos. mstep. rewrite Hq, Hb. change (q mod BLOCK_SIZE) with (q mod 4096).
  change (BLOCK_SIZE - q mod 4096) with (4096 - q mod 4096). fold n.
  unfold file_write_all, after_write. mstep. by destruct s.
Qed.

Lemma last_file_blocks ranges b :
  ranges_ok ranges -> last_block ranges = Some b ->
  exists pre, file_blocks ranges = pre ++ [b].
Proof.
  unfold last_block. intros Hok Hl. destruct ranges as [|r rs _] using rev_ind; [done|].
  rewrite last_snoc in Hl. injection Hl as <-. unfold ranges_ok in Hok.
  apply Forall_app in Hok as [_ Hr]. apply Forall_cons_1 in Hr as [Hr _].
  exists (file_blocks rs ++ seqZ (br_start r) (br_end r - br_start r - 1)).
  rewrite file_blocks_app, <- app_assoc. f_equal. unfold file_blocks. simpl. rewrite app_nil_r.
  unfold range_blocks. replace (br_end r - br_start r) with (br_end r - br_start r - 1 + 1) at 1 by lia.
  rewrite seqZ_app by lia. f_equal. replace (br_start r + (br_end r - br_start r - 1)) with (br_end r - 1) by lia.
  reflexivity.
Qed.

Lemma neg_mod q k :
  0 < q mod 4096 + k <= 4096 -> (- (q + k)) mod 4096 = 4096 - (q mod 4096 + k).
Proof.
  intros Hk. symmetry. apply (Z.mod_unique _ _ (- (q / 4096) - 1)); [lia|].
  pose proof (Z.div_mod q 4096 ltac:(lia)). lia.
Qed.

Lemma split_index m i : 0 <= i < 4096 -> (4096 * m + i) / 4096 = m /\ (4096 * m + i) mod 4096 = i.
Proof.
  intros Hi. rewrite Z.add_comm, (Z.mul_comm 4096). split.
  - rewrite Z.div_add, Z.div_small by lia. lia.
  - rewrite Z.mod_add by lia. by apply Z.mod_small.
Qed.

Section Turn.
Context (s : Formatter) (ranges : list BlockRange) (w bytes : list Z).
Hypothesis (Hinv : payload_inv s ranges w).
Hypothesis (Hne : bytes <> []).
Hypothesis (Hmax : fpos s / 4096 <= u32_max).

Abbreviation q := (payload_pos (fm_size s) (fpos s)).
Abbreviation k := (Z.min (4096 - q mod 4096) (zlen bytes)).
Abbreviation chunk := (take (Z.to_nat k) bytes).
Abbreviation ranges' := (record_block_range ranges (q / 4096)).

Hypothesis (Hq : q / 4096 < u32_max).

Lemma chunk_len : zlen chunk = k /\ 0 < k /\ 0 < q mod 4096 + k <= 4096.
Proof.
  pose proof (zlen_pos bytes Hne). pose proof (Z.mod_pos_bound q 4096 ltac:(lia)).
  split; [|lia]. unfold zlen at 1. rewrite length_take. unfold zlen in *. lia.
Qed.

(** The blocks after the turn: the last one holds [q], and the bytes written so
    far end where [q] is. *)
Lemma turn_blocks :
  ranges_ok ranges' /\ last_block ranges' = Some (q / 4096) /\
  (exists new, file_blocks ranges' = file_blocks ranges ++ new /\
     (new = [] \/ new = [q / 4096] /\ fpos s mod 4096 = 0)) /\
  zlen w = 4096 * (zlen (file_blocks ranges') - 1) + q mod 4096.
Proof.
  destruct Hinv as [Hbs Hp Hok Hlast Hcur Hlen _ _].
  destruct (payload_pos_spec (fm_size s) (fpos s) Hp Hmax) as (Hle & Hu & Hm & Hun & _).
  pose proof (Z.div_mod q 4096 ltac:(lia)) as Hdq. pose proof (Z.mod_pos_bound q 4096 ltac:(lia)).
  destruct (record_block_range_spec ranges (q / 4096)) as (H1 & H2 & H3); [unfold is_u32 in Hu; lia|done| |].
  { intros x Hx. specialize (Hlast x Hx). lia. }
  split; [done|]. split; [done|]. rewrite H3. destruct (decide (fpos s mod 4096 = 0)) as [Ha|Ha].
  - rewrite decide_False.
    2:{ intros Hx. specialize (Hlast _ Hx). lia. }
    split; [eexists; split; [done|by right]|]. rewrite Hm, Ha, zlen_app, Hlen.
    rewrite Z.mod_opp_l_z by lia. unfold zlen. simpl. lia.
  - rewrite Hun by done. rewrite Hun in Hm by done. rewrite decide_True by (by apply Hcur).
    split; [exists []; split; [done|by left]|]. rewrite app_nil_r, Hlen.
    rewrite Z.mod_opp_l_nz by lia. lia.
Qed.

Lemma turn_addr_old i :
  0 <= i < zlen w -> byte_addr ranges' i = byte_addr ranges i.
Proof.
  intros Hi. destruct turn_blocks as (_ & _ & (new & Hnew & _) & _).
  unfold byte_addr. rewrite Hnew. do 2 f_equal. apply app_nth1.
  pose proof (pi_len _ _ _ Hinv). pose proof (Z.mod_pos_bound (- fpos s) 4096 ltac:(lia)).
  pose proof (Z.div_lt_upper_bound i 4096 (zlen (file_blocks ranges)) ltac:(lia) ltac:(lia)).
  pose proof (Z.div_pos i 4096 ltac:(lia) ltac:(lia)). unfold zlen in *. lia.
Qed.

Lemma turn_addr_new j : 0 <= j < k -> byte_addr ranges' (zlen w + j) = q + j.
Proof.
  intros Hj. destruct turn_blocks as (Hok & Hlast & _ & Hw). destruct chunk_len as (_ & _ & Hk).
  destruct (last_file_blocks _ _ Hok Hlast) as (pre & Hpre). unfold byte_addr. rewrite Hw.
  pose proof (Z.mod_pos_bound q 4096 ltac:(lia)).
  destruct (split_index (zlen (file_blocks ranges') - 1) (q mod 4096 + j) ltac:(lia)) as [Hd Hm].
  rewrite <- Z.add_assoc, Hd, Hm, Hpre, zlen_app. change (zlen [q / 4096]) with 1.
  rewrite app_nth2 by (unfold zlen; lia).
  replace (Z.to_nat (zlen pre + 1 - 1) - length pre)%nat with 0%nat by (unfold zlen; lia). simpl.
  pose proof (Z.div_mod q 4096 ltac:(lia)). lia.
Qed.

Lemma turn_inv : payload_inv (after_write q chunk s) ranges' (w ++ chunk).
Proof.
  destruct turn_blocks as (Hok & Hlast & _ & Hw). destruct chunk_len as (Hc & Hk0 & Hk).
  destruct Hinv as [Hbs Hp _ _ _ Hlen Haddr Hdata].
  destruct (payload_pos_spec (fm_size s) (fpos s) Hp Hmax) as (Hle & Hu & _).
  pose proof (Z.div_mod q 4096 ltac:(lia)) as Hdq. pose proof (Z.mod_pos_bound q 4096 ltac:(lia)).
  pose proof (after_write_pos q chunk s) as Hpos'. pose proof (after_write_data q chunk s) as Hfd.
  rewrite Hc in Hpos'. setoid_rewrite Hc in Hfd.
  assert (fm_block_size (after_write q chunk s) = BLOCK_SIZE) as Hbs' by (by destruct s).
  split; rewrite ?Hpos'; [done|lia|done| | | | |].
  - intros x Hx. rewrite Hlast in Hx. injection Hx as <-. lia.
  - intros Hna. rewrite Hlast. f_equal. rewrite Hdq at 2. rewrite <- Z.add_assoc.
    symmetry. apply split_index. split; [lia|]. destruct (decide (q mod 4096 + k = 4096)) as [E|]; [|lia].
    exfalso. apply Hna. rewrite Hdq at 1. rewrite <- Z.add_assoc, E. rewrite Z.mul_comm, <- Z.mul_succ_l.
    by apply Z.mod_mul.
  - rewrite zlen_app, Hc, Hw. rewrite neg_mod by lia. lia.
  - intros i Hi. rewrite zlen_app, Hc in Hi. destruct (decide (i < zlen w)) as [Ho|Ho].
    + rewrite turn_addr_old by lia. specialize (Haddr i ltac:(lia)). lia.
    + replace i with (zlen w + (i - zlen w)) by lia. rewrite turn_addr_new by lia. lia.
  - intros i Hi. rewrite zlen_app, Hc in Hi. rewrite Hfd. destruct (decide (i < zlen w)) as [Ho|Ho].
    + rewrite turn_addr_old by lia. specialize (Haddr i ltac:(lia)).
      replace (q <=? byte_addr ranges i) with false by lia. simpl. rewrite app_nth1 by (unfold zlen in *; lia).
      apply Hdata. lia.
    + replace i with (zlen w + (i - zlen w)) by lia. rewrite turn_addr_new by lia.
      replace ((q <=? q + (i - zlen w)) && (q + (i - zlen w) <? q + k)) with true by lia.
      rewrite app_nth2 by (unfold zlen in *; lia). f_equal. unfold zlen in *. lia.
Qed.
End Turn.

(** ** The loop *)

(** The last byte position of the 32-bit block range. *)
Definition LIMIT : Z := 4096 * u32_max.

Lemma descriptor_blocks_mono a b :
  1 <= a <= b -> b <= LIMIT ->
  group_descriptor_blocks BLOCK_SIZE a <= group_descriptor_blocks BLOCK_SIZE b.
Proof.
  intros Ha Hb. unfold group_descriptor_blocks.
  destruct (descriptor_area _ (fmt_group_count_bounds a)) as [_ ->].
  destruct (descriptor_area _ (fmt_group_count_bounds b)) as [_ ->].
  assert (fmt_group_count BLOCK_SIZE a <= fmt_group_count BLOCK_SIZE b) as Hg.
  { assert (forall x, 1 <= x <= LIMIT -> block_count BLOCK_SIZE x = (x - 1) / 4096 + 1) as Hbc.
    { intros x Hx. unfold LIMIT, u32_max in Hx. unfold block_count, BLOCK_SIZE.
      rewrite (u64_small (x - 1)) by (unfold_ranges; lia). apply u32_small. unfold_ranges.
      pose proof (Z.div_pos (x - 1) 4096 ltac:(lia) ltac:(lia)).
      pose proof (Z.div_lt_upper_bound (x - 1) 4096 4294967295 ltac:(lia) ltac:(lia)). lia. }
    unfold fmt_group_count. rewrite !Hbc by lia. change (blocks_per_group BLOCK_SIZE) with 32768.
    pose proof (Z.div_le_mono (a - 1) (b - 1) 4096 ltac:(lia) ltac:(lia)).
    pose proof (Z.div_pos (a - 1) 4096 ltac:(lia) ltac:(lia)).
    pose proof (Z.div_lt_upper_bound (b - 1) 4096 4294967295 ltac:(lia) ltac:(unfold LIMIT, u32_max in *; lia)).
    set (x := (a - 1) / 4096) in *. set (y := (b - 1) / 4096) in *.
    rewrite (u32_small (x + 1 - 1)), (u32_small (y + 1 - 1)) by (unfold_ranges; lia).
    pose proof (Z.div_le_mono (x + 1 - 1) (y + 1 - 1) 32768 ltac:(lia) ltac:(lia)).
    pose proof (Z.div_pos (x + 1 - 1) 32768 ltac:(lia) ltac:(lia)).
    pose proof (Z.div_lt_upper_bound (y + 1 - 1) 32768 131072 ltac:(lia) ltac:(lia)).
    rewrite !u32_small by (unfold_ranges; lia). lia. }
  pose proof (Z.div_le_mono (fmt_group_count BLOCK_SIZE a - 1) (fmt_group_count BLOCK_SIZE b - 1) 128). lia.
Qed.

Lemma write_stuck fuel bytes ranges s :
  fm_block_size s = BLOCK_SIZE -> u32_max < fpos s / 4096 -> bytes <> [] ->
  write_payload_loop (S fuel) bytes ranges s = (Err fits_32_bit, s).
Proof.
  intros Hbs Hp Hne. cbn [write_payload_loop]. pose proof (zlen_pos bytes Hne).
  replace (0 <? zlen bytes) with true by lia.
  assert (current_block s = (Err fits_32_bit, s)) as Hc.
  { rewrite current_block_spec by done. by replace (fpos s / 4096 <=? u32_max) with false by lia. }
  mstep. unfold skip_reserved_metadata_blocks at 1. unfold pos at 1. mstep.
  destruct (_ =? 0); cbn [negb skip_loop].
  - mstep. by rewrite Hc.
  - change ((mret tt : M unit) s) with (@Ok FormatError unit tt, s). mstep. by rewrite Hc.
Qed.

Lemma write_pos_mono fuel : forall bytes ranges s,
  fm_block_size s = BLOCK_SIZE -> 0 <= fpos s ->
  fpos s <= fpos (write_payload_loop fuel bytes ranges s).2.
Proof.
  induction fuel as [|fuel IH]; intros bytes ranges s Hbs Hp; [done|].
  destruct (decide (bytes = [])) as [->|Hne]; [done|].
  destruct (Z_le_gt_dec (fpos s / 4096) u32_max) as [Hmax|Hmax].
  2:{ rewrite write_stuck by (done || lia). done. }
  rewrite write_turn by done. cbv zeta.
  destruct (payload_pos_spec (fm_size s) (fpos s) Hp Hmax) as (Hle & _).
  set (q := payload_pos _ _) in *. set (chunk := take _ bytes). pose proof (zlen_nonneg chunk).
  pose proof (after_write_pos q chunk s). etransitivity; [|apply IH]; [lia|by destruct s|lia].
Qed.

(** What a payload write changes: the file and the size. *)
Definition payload_frame (s s' : Formatter) : Prop :=
  s' = set_fm_size (fm_size s') (set_fm_file (fm_file s') s) /\
  fm_size s <= fm_size s' <= Z.max (fm_size s) (fpos s') /\
  (forall x, x < fpos s -> f_data (fm_file s') x = f_data (fm_file s) x) /\
  fpos s <= fpos s'.

(** The blocks added to the ranges; they are free of static metadata unless the
    image outgrew its descriptor area on the way. *)
Definition payload_blocks (s s' : Formatter) (ranges ranges' : list BlockRange) : Prop :=
  exists new, file_blocks ranges' = file_blocks ranges ++ new /\
    (group_descriptor_blocks BLOCK_SIZE (fm_size s') = group_descriptor_blocks BLOCK_SIZE (fm_size s) ->
     Forall (fun b => fpos s <= b * 4096 /\
       reserved_block (group_descriptor_blocks BLOCK_SIZE (fm_size s)) b = false) new).

Lemma payload_frame_trans s1 s2 s3 : payload_frame s1 s2 -> payload_frame s2 s3 -> payload_frame s1 s3.
Proof.
  unfold payload_frame. intros (H1 & S1 & D1 & P1) (H2 & S2 & D2 & P2). split.
  - rewrite H2 at 1. rewrite H1. by destruct s1, s2, s3.
  - split; [lia|]. split; [|lia]. intros x Hx. rewrite D2, D1 by lia. done.
Qed.

Lemma payload_blocks_trans s1 s2 s3 r1 r2 r3 :
  payload_frame s1 s2 -> payload_frame s2 s3 -> 1 <= fm_size s1 -> fm_size s3 <= LIMIT ->
  payload_blocks s1 s2 r1 r2 -> payload_blocks s2 s3 r2 r3 -> payload_blocks s1 s3 r1 r3.
Proof.
  intros (_ & S1 & _ & P1) (_ & S2 & _ & P2) H1 H3 (n1 & E1 & F1) (n2 & E2 & F2).
  exists (n1 ++ n2). split; [by rewrite E2, E1, app_assoc|]. intros Hg.
  pose proof (descriptor_blocks_mono (fm_size s1) (fm_size s2) ltac:(lia) ltac:(lia)).
  pose proof (descriptor_blocks_mono (fm_size s2) (fm_size s3) ltac:(lia) ltac:(lia)).
  apply Forall_app. split; [apply F1; lia|].
  assert (group_descriptor_blocks BLOCK_SIZE (fm_size s2) = group_descriptor_blocks BLOCK_SIZE (fm_size s1))
    as E by lia.
  rewrite E in F2. eapply list.Forall_impl; [apply F2; lia|]. intros b [? ?]. split; [lia|done].
Qed.

Lemma turn_frame s q bytes :
  fpos s <= q -> payload_frame s (after_write q bytes s).
Proof.
  intros Hq. pose proof (after_write_pos q bytes s) as Hp. pose proof (zlen_nonneg bytes).
  assert (fm_size (after_write q bytes s) = Z.max (fm_size s) (q + zlen bytes)) as Hs by (by destruct s).
  split; [by destruct s|]. split; [lia|]. split; [|lia]. intros x Hx. rewrite after_write_data.
  by replace (q <=? x) with false by lia.
Qed.

Lemma turn_payload_blocks s ranges w s1 :
  payload_inv s ranges w -> fpos s / 4096 <= u32_max ->
  let q := payload_pos (fm_size s) (fpos s) in
  q / 4096 < u32_max -> payload_blocks s s1 ranges (record_block_range ranges (q / 4096)).
Proof.
  intros Hinv Hmax q Hq. pose proof (pi_pos _ _ _ Hinv) as Hp.
  destruct (turn_blocks s ranges w Hinv Hmax Hq) as (_ & _ & (new & Hnew & Hcase) & _).
  exists new. split; [done|]. intros _. destruct Hcase as [->|[-> Ha]]; [done|].
  destruct (payload_pos_spec (fm_size s) (fpos s) Hp Hmax) as (Hle & _ & Hm & _ & Hfree). fold q in Hle, Hm, Hfree.
  constructor; [|done]. split; [|by apply Hfree]. assert (q mod 4096 = 0) as Hqa by congruence. fold q. by rewrite (aligned_pos q Hqa).
Qed.

Lemma write_payload_loop_spec fuel : forall bytes ranges s w,
  payload_inv s ranges w -> (length bytes < fuel)%nat -> 1 <= fm_size s <= LIMIT ->
  fpos (write_payload_loop fuel bytes ranges s).2 <= LIMIT ->
  exists ranges' s',
    write_payload_loop fuel bytes ranges s = (Ok ranges', s') /\
    payload_inv s' ranges' (w ++ bytes) /\ payload_frame s s' /\ payload_blocks s s' ranges ranges'.
Proof.
  induction fuel as [|fuel IH]; intros bytes ranges s w Hinv Hfuel Hsize Hlim; [lia|].
  destruct (decide (bytes = [])) as [->|Hne].
  { exists ranges, s. split; [done|]. rewrite app_nil_r. split; [done|]. split.
    - split; [by destruct s|]. split; [lia|]. done.
    - exists []. rewrite app_nil_r. split; [done|]. by intros _. }
  pose proof (pi_bs _ _ _ Hinv) as Hbs. pose proof (pi_pos _ _ _ Hinv) as Hp.
  destruct (Z_le_gt_dec (fpos s / 4096) u32_max) as [Hmax|Hmax].
  2:{ rewrite write_stuck in Hlim by (done || lia). simpl in Hlim. unfold LIMIT in Hlim.
      pose proof (Z.div_le_upper_bound (fpos s) 4096 u32_max ltac:(lia) ltac:(lia)). lia. }
  rewrite write_turn in Hlim |- * by done. cbv zeta in Hlim |- *.
  destruct (chunk_len s bytes Hne) as (Hc & Hk0 & _).
  destruct (payload_pos_spec (fm_size s) (fpos s) Hp Hmax) as (Hle & _).
  set (q := payload_pos (fm_size s) (fpos s)) in *.
  set (n := Z.to_nat (Z.min (4096 - q mod 4096) (zlen bytes))) in *.
  set (s1 := after_write q (take n bytes) s) in *.
  pose proof (after_write_pos q (take n bytes) s) as Hpos1. fold s1 in Hpos1.
  assert (fm_block_size s1 = BLOCK_SIZE) as Hbs1 by (by destruct s).
  pose proof (write_pos_mono fuel (drop n bytes) (record_block_range ranges (q / 4096)) s1 Hbs1 ltac:(lia)).
  assert (q / 4096 < u32_max) as Hq by (apply Z.div_lt_upper_bound; unfold LIMIT in Hlim; lia).
  pose proof (turn_frame s q (take n bytes) Hle) as Hf1. fold s1 in Hf1.
  pose proof (turn_inv s ranges w bytes Hinv Hne Hmax Hq) as Hinv1.
  pose proof (turn_payload_blocks s ranges w s1 Hinv Hmax Hq) as Hb1.
  destruct (IH (drop n bytes) (record_block_range ranges (q / 4096)) s1 (w ++ take n bytes))
    as (ranges' & s' & Hrun & Hinv' & Hf' & Hb'); [done| | |done|].
  { rewrite length_drop. unfold zlen in *. lia. }
  { destruct Hf1 as (_ & ? & _). lia. }
  rewrite Hrun in Hlim. simpl in Hlim.
  exists ranges', s'. split; [done|]. rewrite <- app_assoc, take_drop in Hinv'. split; [done|].
  split; [by eapply payload_frame_trans|]. eapply payload_blocks_trans; eauto; [lia|].
  destruct Hf' as (_ & ? & _ & ?), Hf1 as (_ & ? & _). lia.
Qed.

(** ** Whole files *)

Lemma write_keeps_block_size fuel : forall bytes ranges s,
  fm_block_size s = BLOCK_SIZE -> 0 <= fpos s ->
  fm_block_size (write_payload_loop fuel bytes ranges s).2 = BLOCK_SIZE.
Proof.
  induction fuel as [|fuel IH]; intros bytes ranges s Hbs Hp; [done|].
  destruct (decide (bytes = [])) as [->|Hne]; [done|].
  destruct (Z_le_gt_dec (fpos s / 4096) u32_max) as [Hmax|Hmax].
  2:{ rewrite write_stuck by (done || lia). done. }
  rewrite write_turn by done. cbv zeta.
  destruct (payload_pos_spec (fm_size s) (fpos s) Hp Hmax) as (Hle & _).
  apply IH; [by destruct s|]. rewrite after_write_pos. pose proof (zlen_nonneg (take
    (Z.to_nat (Z.min (4096 - payload_pos (fm_size s) (fpos s) mod 4096) (zlen bytes))) bytes)). lia.
Qed.

Lemma reader_pos_mono fuel : forall reader size ranges s,
  fm_block_size s = BLOCK_SIZE -> 0 <= fpos s ->
  fpos s <= fpos (write_from_reader_loop fuel reader size ranges s).2.
Proof.
  induction fuel as [|fuel IH]; intros reader size ranges s Hbs Hp; [done|].
  cbn [write_from_reader_loop]. mstep. destruct (read _ reader) as [got reader'].
  destruct got as [buf|e|]; cbn [map_err]; mstep; try done.
  destruct (zlen buf =? 0); [done|]. destruct (MAX_FILE_SIZE <? _); [done|]. mstep.
  pose proof (write_pos_mono (S (length buf)) buf ranges s Hbs Hp) as Hm.
  pose proof (write_keeps_block_size (S (length buf)) buf ranges s Hbs Hp) as Hb.
  unfold write_payload_bytes. destruct (write_payload_loop _ buf ranges s) as [[rs|e|] s1]; simpl in *; try done.
  etransitivity; [exact Hm|]. apply IH; [done|lia].
Qed.

(** A reader that delivers the given chunks and then ends. *)
Definition chunk_reader (chunks : list (list Z)) : Reader := map Ok chunks.

Lemma read_chunk chunk chunks :
  chunk <> [] ->
  exists buf chunks',
    read BLOCK_SIZE (chunk_reader (chunk :: chunks)) = (Ok buf, chunk_reader chunks') /\
    buf <> [] /\ buf ++ concat chunks' = chunk ++ concat chunks /\
    (Forall (fun c => c <> []) chunks -> Forall (fun c => c <> []) chunks') /\
    (reader_bytes (chunk_reader chunks') < reader_bytes (chunk_reader (chunk :: chunks)))%nat.
Proof.
  intros Hne. unfold chunk_reader, read. cbn [map]. pose proof (zlen_pos chunk Hne).
  destruct (Z.leb_spec (zlen chunk) BLOCK_SIZE) as [Hle|Hgt].
  - exists chunk, chunks. split; [done|]. split; [done|]. split; [done|]. split; [done|].
    unfold reader_bytes. simpl. lia.
  - exists (take (Z.to_nat BLOCK_SIZE) chunk), (drop (Z.to_nat BLOCK_SIZE) chunk :: chunks).
    unfold zlen, BLOCK_SIZE in *. split; [done|].
    assert (length (take (Z.to_nat 4096) chunk) = Z.to_nat 4096) as Ht by (rewrite length_take; lia).
    assert (length (drop (Z.to_nat 4096) chunk) = length chunk - Z.to_nat 4096)%nat as Hd by apply length_drop.
    split; [intros E; rewrite E in Ht; simpl in Ht; lia|].
    split; [cbn [concat]; by rewrite app_assoc, take_drop|]. split.
    + intros Hf. constructor; [|done]. intros E. rewrite E in Hd. simpl in Hd. lia.
    + unfold reader_bytes. cbn [map sum_list_with]. rewrite Hd. lia.
Qed.

Lemma reader_turn fuel reader reader' buf size ranges s :
  fm_block_size s = BLOCK_SIZE -> read BLOCK_SIZE reader = (Ok buf, reader') -> buf <> [] ->
  0 <= size -> size + zlen buf <= MAX_FILE_SIZE ->
  write_from_reader_loop (S fuel) reader size ranges s =
  (write_payload_bytes buf ranges ≫= write_from_reader_loop fuel reader' (size + zlen buf)) s.
Proof.
  intros Hbs Hread Hbuf Hs Hmax. cbn [write_from_reader_loop]. mstep. rewrite Hbs, Hread. mstep.
  cbn [map_err]. mstep. pose proof (zlen_pos buf Hbuf). replace (zlen buf =? 0) with false by lia.
  rewrite u64_small by (unfold MAX_FILE_SIZE in Hmax; unfold_ranges; lia).
  by replace (MAX_FILE_SIZE <? size + zlen buf) with false by lia.
Qed.

Lemma write_from_reader_spec fuel : forall chunks ranges s w,
  payload_inv s ranges w -> (reader_bytes (chunk_reader chunks) < fuel)%nat ->
  1 <= fm_size s <= LIMIT -> Forall (fun c => c <> []) chunks ->
  zlen w + zlen (concat chunks) <= MAX_FILE_SIZE ->
  fpos (write_from_reader_loop fuel (chunk_reader chunks) (zlen w) ranges s).2 <= LIMIT ->
  exists ranges' s',
    write_from_reader_loop fuel (chunk_reader chunks) (zlen w) ranges s
      = (Ok (zlen w + zlen (concat chunks), ranges'), s') /\
    payload_inv s' ranges' (w ++ concat chunks) /\ payload_frame s s' /\ payload_blocks s s' ranges ranges'.
Proof.
  induction fuel as [|fuel IH]; intros chunks ranges s w Hinv Hfuel Hsize Hne Htot Hlim; [lia|].
  pose proof (pi_bs _ _ _ Hinv) as Hbs. pose proof (pi_pos _ _ _ Hinv) as Hp.
  destruct chunks as [|chunk chunks].
  { exists ranges, s. cbn [concat]. rewrite zlen_nil, Z.add_0_r, app_nil_r.
    split; [done|]. split; [done|]. split; [by split; [destruct s|split; [lia|done]]|].
    exists []. rewrite app_nil_r. split; [done|]. by intros _. }
  apply Forall_cons_1 in Hne as [Hc Hne].
  destruct (read_chunk chunk chunks Hc) as (buf & chunks' & Hread & Hbuf & Hcat & Hne' & Hdec).
  change (concat (chunk :: chunks)) with (chunk ++ concat chunks) in *. rewrite <- Hcat, zlen_app in *.
  pose proof (zlen_nonneg w). pose proof (zlen_nonneg (concat chunks')). pose proof (zlen_pos buf Hbuf).
  rewrite (reader_turn _ _ _ _ _ _ _ Hbs Hread Hbuf) in Hlim |- * by lia.
  rewrite M_bind_eq in Hlim |- *.
  assert (fpos (write_payload_bytes buf ranges s).2 <= LIMIT) as Hlim1.
  { pose proof (write_pos_mono (S (length buf)) buf ranges s Hbs Hp) as Hm.
    pose proof (write_keeps_block_size (S (length buf)) buf ranges s Hbs Hp) as Hb.
    unfold write_payload_bytes in *. destruct (write_payload_loop _ buf ranges s) as [[rs|e|] s1]; simpl in *; try done.
    etransitivity; [|exact Hlim]. apply reader_pos_mono; [done|lia]. }
  destruct (write_payload_loop_spec (S (length buf)) buf ranges s w Hinv ltac:(lia) Hsize Hlim1)
    as (rs & s1 & Hrun & Hinv1 & Hf1 & Hb1).
  unfold write_payload_bytes in *. rewrite Hrun in *. simpl in Hlim1.
  rewrite <- zlen_app in Hlim |- *. pose proof Hf1 as (_ & Hf1b & _).
  destruct (IH chunks' rs s1 (w ++ buf) Hinv1) as (ranges' & s' & Hrun' & Hinv' & Hf' & Hb');
    [lia|lia|by apply Hne'|rewrite zlen_app; lia|done|].
  exists ranges', s'. rewrite Hrun'. split; [rewrite zlen_app, Z.add_assoc; done|].
  rewrite <- app_assoc in Hinv'. split; [done|].
  rewrite Hrun' in Hlim. simpl in Hlim.
  split; [by eapply payload_frame_trans|]. eapply payload_blocks_trans; eauto; [lia|].
  destruct Hf' as (_ & ? & _ & ?). lia.
Qed.

Lemma payload_inv_start s :
  fm_block_size s = BLOCK_SIZE -> 0 <= fpos s -> fpos s mod 4096 = 0 -> payload_inv s [] [].
Proof.
  intros Hbs Hp Ha.
  split; [done|done|exact (List.Forall_nil _)|done|done|by rewrite Z.mod_opp_l_z by lia| |];
    intros i Hi; change (zlen []) with 0 in Hi; lia.
Qed.

(** C16: The bytes a reader delivers, at most 128 GiB in non-empty chunks without
    a read error, and ending before the 32-bit block range does, are written
    without error.  They end up in the image at the addresses the recorded block ranges give them: byte [i] of the file
    is byte [i mod 4096] of the [i / 4096]-th block of the ranges.  The writer
    returns the number of bytes; it changes nothing before its start and
    nothing but the file and the image size; and none of the blocks it uses
    holds a superblock copy or lies in a descriptor area, as long as the image
    has not outgrown its descriptor area on the way. *)
Theorem file_payload_written (chunks : list (list Z)) (s : Formatter)
    (Hbs : fm_block_size s = BLOCK_SIZE) (Hpos : 0 <= fpos s) (Haligned : fpos s mod 4096 = 0)
    (Hsize : 1 <= fm_size s <= LIMIT) (Hchunks : Forall (fun c => c <> []) chunks)
    (Htotal : zlen (concat chunks) <= MAX_FILE_SIZE)
    (Hlimit : fpos (write_payload_from_reader (chunk_reader chunks) [] s).2 <= LIMIT) :
  exists ranges s',
    write_payload_from_reader (chunk_reader chunks) [] s = (Ok (zlen (concat chunks), ranges), s') /\
    ranges_ok ranges /\ payload_at (fm_file s') ranges (concat chunks) /\
    payload_frame s s' /\ payload_blocks s s' [] ranges.
Proof.
  destruct (write_from_reader_spec (S (reader_bytes (chunk_reader chunks))) chunks [] s []
    (payload_inv_start s Hbs Hpos Haligned) ltac:(lia) Hsize Hchunks Htotal Hlimit)
    as (ranges & s' & Hrun & Hinv & Hf & Hb).
  exists ranges, s'. split; [exact Hrun|]. split; [apply Hinv|]. split; [apply Hinv|done].
Qed.

Definition sample_options : FormatOptions :=
  {| opt_block_size := 4096; opt_size := 67108864; opt_uuid := None; opt_label := None |}.

(** A builder about to write its first payload, behind the descriptor area. *)
Definition sample_builder : Formatter :=
  at_pos (33 * 4096) (initial_formatter sample_options (zeros 16) (fun _ => (0, 0))).

Definition sample_chunks : list (list Z) := [[1; 2; 3]; replicate 5000 7; [4]].

Lemma file_payload_written_witness :
  exists ranges s',
    write_payload_from_reader (chunk_reader sample_chunks) [] sample_builder
      = (Ok (zlen (concat sample_chunks), ranges), s') /\
    ranges_ok ranges /\ payload_at (fm_file s') ranges (concat sample_chunks) /\
    payload_frame sample_builder s' /\ payload_blocks sample_builder s' [] ranges.
Proof.
  refine (file_payload_written sample_chunks sample_builder _ _ _ _ _ _ _).
  - reflexivity.
  - vm_compute. discriminate.
  - vm_compute. reflexivity.
  - split; vm_compute; discriminate.
  - repeat constructor; discriminate.
  - vm_compute. discriminate.
  - vm_compute. discriminate.
Defined.

(** The descriptor area grows from 32 to 64 blocks when the image passes 128
    groups, 16 GiB.  A builder for an image of 16 GiB starts writing at block
    33, and a payload that takes its size past 16 GiB leaves block 33 inside the
    area that finalisation computes from the size it then finds. *)
Theorem descriptor_area_outgrown :
  group_descriptor_blocks BLOCK_SIZE 17179869184 = 32 /\
  reserved_block (group_descriptor_blocks BLOCK_SIZE 17179869184) 33 = false /\
  group_descriptor_blocks BLOCK_SIZE 17179869185 = 64 /\
  reserved_block (group_descriptor_blocks BLOCK_SIZE 17179869185) 33 = true.
Proof. by vm_compute. Qed.
