(* ===== verification/FormatterTree.v ===== *)
(** The tree operations of the image builder: what creating, linking and
    removing entries do to the tree and the inodes.  The operations themselves
    are in [Formatter]. *)

From stdpp Require Import gmap.
From S2P Require Import Prelude Bytes Types Errors RustPath Disk FileTree Extent Xattr Geometry Formatter.

(** ** Removal does not fail *)

(** An operation that ends without an error. *)
Definition no_err {A} (m : M A) : Prop := forall s e, (m s).1 <> Err e.
Definition pure_no_err {A} (r : res FormatError A) : Prop := forall e, r <> Err e.

Section NoErr.
Context {A B : Type}.

Lemma no_err_ret (a : A) : no_err (mret a).
Proof. done. Qed.

Lemma no_err_bind (m : M A) (f : A -> M B) : no_err m -> (forall a, no_err (f a)) -> no_err (m ≫= f).
Proof.
  intros Hm Hf s e. rewrite M_bind_eq. specialize (Hm s). destruct (m s) as [[a|e'|] s']; simpl in *.
  - apply Hf.
  - intros _. by apply (Hm e').
  - done.
Qed.

Lemma no_err_gets (f : Formatter -> A) : no_err (gets f).
Proof. done. Qed.

Lemma pure_bind (r : res FormatError A) (f : A -> res FormatError B) :
  pure_no_err r -> (forall a, pure_no_err (f a)) -> pure_no_err (r ≫= f).
Proof. intros Hr Hf e. destruct r as [a|e'|]; simpl; [apply Hf|intros _; by apply (Hr e')|done]. Qed.
End NoErr.

Lemma pure_foldM {A B} (f : B -> A -> res FormatError B) l :
  (forall b a, pure_no_err (f b a)) -> forall b, pure_no_err (foldM f b l).
Proof. intros Hf. induction l as [|a l IH]; intros b; simpl; [done|]. by apply pure_bind. Qed.

Lemma no_err_modify f : no_err (modify f).
Proof. done. Qed.

Lemma no_err_now : no_err now.
Proof. intros s e. unfold now. by destruct (fm_clock s (fm_tick s)). Qed.

Lemma no_err_get_inode n : no_err (get_inode n).
Proof. intros s e. unfold get_inode. simpl. by destruct (_ !! _). Qed.

Lemma no_err_update_inode n f : no_err (update_inode n f).
Proof. intros s e. unfold update_inode. by destruct (_ !! _). Qed.

Lemma pure_node t i : pure_no_err (node t i).
Proof. intros e. unfold node. by destruct (_ !! _). Qed.

Lemma pure_find_child t name cs : pure_no_err (find_child t name cs).
Proof.
  induction cs as [|c cs IH]; simpl; [done|]. apply pure_bind; [apply pure_node|]. intros n.
  by destruct (bool_decide _).
Qed.

Lemma pure_lookup_from t comps : forall i, pure_no_err (lookup_from t i comps).
Proof.
  induction comps as [|c comps IH]; intros i; simpl; [done|]. destruct (_ || _); [apply IH|].
  apply pure_bind; [apply pure_node|]. intros n. apply pure_bind; [apply pure_find_child|].
  intros [j|]; [apply IH|done].
Qed.

Lemma no_err_tree_lookup path : no_err (tree_lookup path).
Proof. intros s e. apply pure_lookup_from. Qed.

Lemma no_err_tree_node i : no_err (tree_node i).
Proof. intros s e. apply pure_node. Qed.

Lemma pure_position t name cs : pure_no_err (position_child t name cs).
Proof.
  induction cs as [|c cs IH]; simpl; [done|]. apply pure_bind; [apply pure_node|]. intros n.
  destruct (bool_decide _); [done|]. by apply pure_bind.
Qed.

Lemma no_err_tree_remove_child p name : no_err (tree_remove_child p name).
Proof.
  intros s e. unfold tree_remove_child.
  assert (pure_no_err (remove_child (fm_tree s) p name)) as H.
  { apply pure_bind; [apply pure_node|]. intros n. apply pure_bind; [apply pure_position|]. by intros [k|]. }
  destruct (remove_child _ _ _); [done| |done]. by specialize (H e0).
Qed.

Lemma no_err_tree_add_child p n : no_err (tree_add_child p n).
Proof.
  intros s e. unfold tree_add_child, add_child. by destruct (_ !! _).
Qed.

Lemma no_err_child_names i : no_err (child_names i).
Proof.
  intros s. unfold child_names. simpl. apply pure_bind; [apply pure_node|]. intros n.
  apply pure_foldM. intros names c. apply pure_bind; [apply pure_node|done].
Qed.

Lemma no_err_forM {A} (l : list A) f : (forall a, no_err (f a)) -> no_err (forM_ l f).
Proof. intros Hf. induction l; simpl; [done|]. apply no_err_bind; auto. Qed.

Create HintDb no_err.
#[export] Hint Resolve no_err_ret no_err_gets no_err_modify no_err_now no_err_get_inode no_err_update_inode
  no_err_tree_lookup no_err_tree_node no_err_tree_remove_child no_err_tree_add_child no_err_child_names : no_err.

(** Walks down an operation, one bind or branch at a time. *)
Ltac no_err :=
  repeat first
    [ solve [auto with no_err]
    | apply no_err_bind; [|intro]
    | apply no_err_forM; intro
    | case_match ].

Lemma no_err_detach path d : no_err (detach path d).
Proof. unfold detach. no_err. Qed.

Lemma no_err_release i ino : no_err (release_target i ino).
Proof. unfold release_target. no_err. Qed.

#[export] Hint Resolve no_err_detach no_err_release : no_err.

Lemma no_err_remove_inner fuel : forall path, no_err (remove_inner fuel path true).
Proof.
  induction fuel as [|fuel IH]; intros path; [done|]. cbn [remove_inner negb andb]. no_err.
Qed.

Lemma no_err_remove path : no_err (remove path).
Proof. unfold remove. apply no_err_bind; [done|]. intros fuel. apply no_err_remove_inner. Qed.

(** ** Links *)

(** An operation that only reads, and one whose error leaves the state as it
    was. *)
Definition read_only {A} (m : M A) : Prop := forall s, (m s).2 = s.
Definition atomic {A} (m : M A) : Prop := forall s e s', m s = (Err e, s') -> s' = s.

Lemma atomic_bind {A B} (m : M A) (f : A -> M B) :
  read_only m -> (forall a, atomic (f a)) -> atomic (m ≫= f).
Proof.
  intros Hm Hf s e s'. rewrite M_bind_eq. specialize (Hm s). destruct (m s) as [[a|e0|] s1]; simpl in Hm; subst s1.
  - apply Hf.
  - intros H. by injection H.
  - done.
Qed.

Lemma read_only_bind {A B} (m : M A) (f : A -> M B) :
  read_only m -> (forall a, read_only (f a)) -> read_only (m ≫= f).
Proof.
  intros Hm Hf s. rewrite M_bind_eq. specialize (Hm s). destruct (m s) as [[a|e0|] s1]; simpl in *; subst s1;
    [apply Hf|done|done].
Qed.

Lemma no_err_atomic {A} (m : M A) : no_err m -> atomic m.
Proof. intros Hm s e s' H. exfalso. apply (Hm s e). by rewrite H. Qed.

Lemma atomic_throw {A} e : atomic (throw (A := A) e).
Proof. intros s e' s' H. by injection H. Qed.

Lemma link_atomic link_path target_path : atomic (link link_path target_path).
Proof.
  unfold link. repeat (apply atomic_bind; [done|intro]). case_match; [apply atomic_throw|].
  apply atomic_bind; [done|]. intros existing. apply atomic_bind.
  { destruct existing; [|done]. by apply read_only_bind. }
  intros existing_target. case_match; [by apply no_err_atomic|].
  repeat (apply atomic_bind; [done|intro]). case_match; [apply atomic_throw|].
  apply no_err_atomic. apply no_err_bind; [case_match; [apply no_err_remove|done]|]. intros _. no_err.
Qed.

(** C38: A hard link that cannot be created leaves the builder exactly as it was:
    the link path is only removed and the target's link count only raised once
    every check has passed, and nothing after that point can fail. *)
Theorem failed_link_changes_nothing (link_path target_path : list Z) (s s' : Formatter) (e : FormatError)
    (Hfail : link link_path target_path s = (Err e, s')) :
  s' = s.
Proof. by apply (link_atomic link_path target_path) in Hfail. Qed.

(** ** Sample runs *)

Definition sample_fresh : FormatOptions :=
  {| opt_block_size := 4096; opt_size := 67108864; opt_uuid := None; opt_label := None |}.

(** A new 64 MiB image. *)
Definition sample_image : res FormatError Formatter :=
  with_options sample_fresh (zeros 16) (fun n => (Z.of_nat n, 0)).

(** The outcome of an operation on it. *)
Definition on_sample {A} (m : M A) : res FormatError A :=
  match sample_image with Ok s => (m s).1 | Err e => Err e | Panic => Panic end.

Definition path_a : list Z := [47; 97].
Definition path_b : list Z := [47; 98].
Definition path_c : list Z := [47; 99].
Definition create_file (path : list Z) : M unit :=
  create path (Z.lor S_IFREG 0x1A4) None None None None None None.
Definition create_dir (path : list Z) : M unit :=
  create path (Z.lor S_IFDIR 0x1ED) None None None None None None.

Lemma failed_link_changes_nothing_witness :
  exists s s' e,
    sample_image = Ok s /\ link path_b path_a s = (Err e, s') /\ s' = s.
Proof.
  assert (is_ok sample_image = true) as Hok by (vm_compute; reflexivity).
  destruct sample_image as [s|e|] eqn:Hs; [|discriminate Hok..].
  assert ((link path_b path_a s).1 = Err (NotFound path_a)) as Hr.
  { assert (on_sample (link path_b path_a) = Err (NotFound path_a)) as H by (vm_compute; reflexivity).
    unfold on_sample in H. by rewrite Hs in H. }
  destruct (link path_b path_a s) as [r s'] eqn:Hl. simpl in Hr. subst r.
  exists s, s', (NotFound path_a). split; [done|]. split; [done|].
  exact (failed_link_changes_nothing path_b path_a s s' _ Hl).
Defined.

(** A hard link stores the root as the inode of its node.  The operations that
    follow [inode] without looking at [link] act on the root directory: a link to
    a link is refused as a link to a directory, the entry counts as a
    directory, and changing its permissions changes those of the root. *)
Theorem hard_link_acts_on_root :
  on_sample (_ ← create_file path_a; _ ← link path_b path_a; link path_c path_b)
    = Err (CannotHardlinkDirectory path_b) /\
  on_sample (_ ← create_file path_a; _ ← link path_b path_a; path_is_dir path_b) = Ok true /\
  on_sample (_ ← create_file path_a; _ ← link path_b path_a; _ ← set_permissions path_b 0x180;
             root ← get_inode ROOT_INODE; target ← get_inode 12; mret (i_mode root, i_mode target))
    = Ok (Z.lor S_IFDIR 0x180, Z.lor S_IFREG 0x1A4).
Proof. vm_compute. repeat split; reflexivity. Qed.

(** A removed directory keeps a link count of one, so its inode is neither
    cleared nor marked free. *)
Theorem removed_directory_keeps_inode :
  on_sample (_ ← create_dir path_a; _ ← remove path_a;
             gone ← exists_path path_a; inode ← get_inode 12;
             mret (gone, i_links_count inode, i_mode inode))
    = Ok (false, 1, Z.lor S_IFDIR 0x1ED).
Proof. vm_compute. repeat split; reflexivity. Qed.

(** The path [//] names the root for the lookup, but has an empty last
    component: creating a directory there adds an entry with an empty name. *)
Theorem double_slash_creates_nameless_entry :
  on_sample (_ ← create_dir [47; 47]; list_dir ROOT) = Ok [drop 1 LOST_AND_FOUND; []].
Proof. vm_compute. repeat split; reflexivity. Qed.

(** The limit on links is checked on the parent directory, which a hard link
    does not change, and not on the target, whose 16-bit count wraps. *)
Theorem link_count_wraps :
  on_sample (_ ← create_file path_a; _ ← update_inode 12 (set_i_links_count 65535);
             _ ← link path_b path_a; inode ← get_inode 12; mret (i_links_count inode))
    = Ok 0.
Proof. vm_compute. repeat split; reflexivity. Qed.

(** [link] looks the parent of the link path up but does not ask whether it is
    a directory: an entry can be linked below a regular file. *)
Theorem link_below_regular_file :
  on_sample (_ ← create_file path_a; _ ← create_file path_b; _ ← link (path_a ++ path_c) path_b;
             inside ← exists_path (path_a ++ path_c); inode ← get_inode 12;
             mret (inside, is_reg (i_mode inode)))
    = Ok (true, true).
Proof. vm_compute. repeat split; reflexivity. Qed.
