(* ===== verification/BuilderInv.v ===== *)
(** The invariant of the image builder: the tree is a tree with distinct,
    well-formed names, and every inode number a node holds is in the table.
    Creating, linking and removing entries on canonical absolute paths keep it,
    also when they fail; removal reaches exactly the subtree it is asked for and
    always ends. *)

From stdpp Require Import gmap.
From S2P Require Import Prelude Bytes Types Errors RustPath Disk FileTree Extent Xattr Geometry Formatter FormatterTree.

(** ** Invariant *)

Definition valid_inode (n : nat) (k : Z) : Prop := 1 <= k <= Z.of_nat n.

(** The invariant speaks of the tree and of the number of inodes. *)
Record tree_inv (t : FileTree) (n : nat) : Prop := {
  ti_wf : tree_wf t;
  ti_unique : names_unique t;
  ti_root : root_name t = ROOT;
  ti_parts : forall p c x, child_of t p c -> nodes t !! c = Some x -> part_ok (n_name x);
  ti_inode : forall i x, nodes t !! i = Some x ->
    valid_inode n (n_inode x) /\ forall l, n_link x = Some l -> valid_inode n l
}.

Definition fmt_inv (s : Formatter) : Prop :=
  tree_inv (fm_tree s) (length (fm_inodes s)) /\ zlen (fm_inodes s) <= u32_max.

(** Operations that leave the tree and the number of inodes alone. *)
Definition same_shape (s s' : Formatter) : Prop :=
  fm_tree s' = fm_tree s /\ length (fm_inodes s') = length (fm_inodes s).

Definition quiet {A} (m : M A) : Prop := forall s, same_shape s (m s).2.

Lemma fmt_inv_shape s s' : same_shape s s' -> fmt_inv s -> fmt_inv s'.
Proof. unfold fmt_inv, zlen. by intros [-> ->]. Qed.

Lemma quiet_bind {A B} (m : M A) (f : A -> M B) : quiet m -> (forall a, quiet (f a)) -> quiet (m ≫= f).
Proof.
  intros Hm Hf s. rewrite M_bind_eq. specialize (Hm s). destruct (m s) as [[a|e|] s1]; simpl in Hm; [|done..].
  destruct (Hf a s1) as [H1 H2]. unfold same_shape in *. destruct Hm. split; congruence.
Qed.

Lemma quiet_shape {A} (m : M A) : (forall s, (m s).2 = s) -> quiet m.
Proof. intros H s. by rewrite H. Qed.

Lemma quiet_modify f : (forall s, same_shape s (f s)) -> quiet (modify f).
Proof. by intros H s. Qed.

Lemma quiet_update_inode k f : quiet (update_inode k f).
Proof.
  intros s. unfold update_inode. destruct (_ !! _); [|done]. destruct s. split; [done|]. simpl.
  apply length_insert.
Qed.

Lemma quiet_now : quiet now.
Proof. intros s. unfold now. destruct (fm_clock s _). by destruct s. Qed.

Lemma quiet_set_file g : quiet (modify (fun s => set_fm_file (g s) s)).
Proof. intros s. by destruct s. Qed.

Lemma quiet_set_size g : quiet (modify (fun s => set_fm_size (g s) s)).
Proof. intros s. by destruct s. Qed.

Lemma quiet_write_extents inode ranges cur : quiet (fm_write_extents inode ranges cur).
Proof. intros s. unfold fm_write_extents. destruct (write_extents _ _ _ _ _) as [[[? ?] ?]|?|]; by destruct s. Qed.

Create HintDb quiet.
#[export] Hint Resolve quiet_update_inode quiet_now quiet_set_file quiet_set_size quiet_write_extents : quiet.

(** Walks down an operation, one bind or branch at a time. *)
Ltac quiet :=
  repeat first
    [ solve [auto with quiet]
    | solve [apply quiet_shape; done]
    | apply quiet_bind; [|intro]
    | progress unfold file_write_all, seek_to_block
    | case_match ].

Lemma quiet_current_block : quiet current_block.
Proof. unfold current_block. quiet. Qed.

Lemma quiet_align : quiet align_to_block.
Proof. unfold align_to_block. quiet. Qed.
#[export] Hint Resolve quiet_current_block quiet_align : quiet.

Lemma quiet_skip_loop fuel : quiet (skip_loop fuel).
Proof. induction fuel; cbn [skip_loop]; quiet. Qed.
#[export] Hint Resolve quiet_skip_loop : quiet.

Lemma quiet_skip : quiet skip_reserved_metadata_blocks.
Proof. unfold skip_reserved_metadata_blocks. quiet. Qed.
#[export] Hint Resolve quiet_skip : quiet.

Lemma quiet_write_payload fuel : forall bytes ranges, quiet (write_payload_loop fuel bytes ranges).
Proof. induction fuel; intros bytes ranges; cbn [write_payload_loop]; quiet. Qed.

Lemma quiet_write_payload_bytes bytes ranges : quiet (write_payload_bytes bytes ranges).
Proof. apply quiet_write_payload. Qed.
#[export] Hint Resolve quiet_write_payload_bytes : quiet.

Lemma quiet_reader fuel : forall r size ranges, quiet (write_from_reader_loop fuel r size ranges).
Proof.
  induction fuel; intros r size ranges; cbn [write_from_reader_loop]; [quiet|].
  apply quiet_bind; [quiet|]. intros bs. destruct (read bs r). quiet.
Qed.

Lemma quiet_from_reader r ranges : quiet (write_payload_from_reader r ranges).
Proof. apply quiet_reader. Qed.

Lemma quiet_write_aligned bytes : quiet (write_aligned_payload_bytes bytes).
Proof. unfold write_aligned_payload_bytes. quiet. Qed.

Lemma quiet_allocate fuel : forall n ranges, quiet (allocate_loop fuel n ranges).
Proof. induction fuel; intros n ranges; cbn [allocate_loop]; quiet. Qed.
#[export] Hint Resolve quiet_from_reader quiet_write_aligned quiet_allocate : quiet.

Lemma quiet_initialize_journal : quiet initialize_journal.
Proof. unfold initialize_journal, allocate_sparse_blocks. quiet. Qed.

Lemma quiet_create_xattrs inode xattrs : quiet (create_xattrs inode xattrs).
Proof. unfold create_xattrs. quiet. Qed.

Lemma quiet_place_extents inode ranges : quiet (place_extents inode ranges).
Proof. unfold place_extents. quiet. Qed.
#[export] Hint Resolve quiet_place_extents : quiet.

Lemma quiet_create_directory k inode : quiet (create_directory k inode).
Proof. unfold create_directory. quiet. Qed.

Lemma quiet_create_symlink inode bytes : quiet (create_symlink inode bytes).
Proof. unfold create_symlink. quiet. Qed.

Lemma quiet_create_regular inode data : quiet (create_regular inode data).
Proof. unfold create_regular. quiet. Qed.

Lemma quiet_release i k : quiet (release_target i k).
Proof. unfold release_target. quiet; apply quiet_modify; by intros []. Qed.
#[export] Hint Resolve quiet_create_xattrs quiet_create_directory quiet_create_symlink quiet_create_regular
  quiet_release : quiet.

(** ** Outcomes *)

(** [wp pan m s Q F]: run from [s], [m] ends in [Q] when it succeeds, in [F] when
    it fails, and panics only if [pan]. *)
Definition wp {A} (pan : Prop) (m : M A) (s : Formatter) (Q : A -> Formatter -> Prop)
    (F : Formatter -> Prop) : Prop :=
  match m s with
  | (Ok a, s') => Q a s'
  | (Err _, s') => F s'
  | (Panic, _) => pan
  end.

Section Wp.
Context (pan : Prop).

Lemma wp_bind {A B} (m : M A) (f : A -> M B) s Q F :
  wp pan m s (fun a s' => wp pan (f a) s' Q F) F -> wp pan (m ≫= f) s Q F.
Proof. unfold wp. rewrite M_bind_eq. by destruct (m s) as [[a|e|] s1]. Qed.

Lemma wp_ret {A} (a : A) s (Q : A -> Formatter -> Prop) (F : Formatter -> Prop) :
  Q a s -> wp pan (mret a) s Q F.
Proof. done. Qed.

Lemma wp_gets {A} (f : Formatter -> A) s (Q : A -> Formatter -> Prop) (F : Formatter -> Prop) :
  Q (f s) s -> wp pan (gets f) s Q F.
Proof. done. Qed.

Lemma wp_mono {A} (m : M A) s (Q Q' : A -> Formatter -> Prop) (F F' : Formatter -> Prop) :
  wp pan m s Q F -> (forall a s', Q a s' -> Q' a s') -> (forall s', F s' -> F' s') -> wp pan m s Q' F'.
Proof. unfold wp. intros H HQ HF. destruct (m s) as [[a|e|] s1]; auto. Qed.

Lemma wp_weaken {A} (m : M A) s (Q : A -> Formatter -> Prop) (F : Formatter -> Prop) :
  wp False m s Q F -> wp pan m s Q F.
Proof. unfold wp. by destruct (m s) as [[a|e|] s1]. Qed.

(** A quiet operation, if it does not panic, keeps the shape. *)
Lemma wp_quiet {A} (m : M A) s (Q : A -> Formatter -> Prop) (F : Formatter -> Prop) :
  quiet m -> (pan \/ (m s).1 <> Panic) ->
  (forall a s', same_shape s s' -> Q a s') -> (forall s', same_shape s s' -> F s') -> wp pan m s Q F.
Proof.
  unfold wp. intros Hm Hp HQ HF. specialize (Hm s). destruct (m s) as [[a|e|] s1]; simpl in *; auto.
  by destruct Hp.
Qed.
End Wp.

(** ** Reading the tree *)

Abbreviation twalk s := (walk (fm_tree s) (root (fm_tree s))).

Lemma walk_snoc_inv t r names m c :
  walk t r (names ++ [m]) c ->
  exists p x, walk t r names p /\ child_of t p c /\ nodes t !! c = Some x /\ n_name x = m.
Proof.
  revert r. induction names as [|a names IH]; intros r Hw; simpl in Hw.
  - inversion Hw as [|i c' n rest j Hc Hn Hr]; subst. inversion Hr; subst. exists r, n. split; [constructor|done].
  - inversion Hw as [|i c' n rest j Hc Hn Hr]; subst. destruct (IH _ Hr) as (p & x & Hp & ?).
    exists p, x. split; [by econstructor|done].
Qed.

Lemma walk_app_inv t r a b c : walk t r (a ++ b) c -> exists p, walk t r a p /\ walk t p b c.
Proof.
  revert r. induction a as [|x a IH]; intros r Hw; simpl in Hw; [exists r; split; [constructor|done]|].
  inversion Hw as [|i c' n rest j Hc Hn Hr]; subst. destruct (IH _ Hr) as (p & Hp & ?).
  exists p. split; [by econstructor|done].
Qed.

Lemma walk_path_inj t a b p : tree_wf t -> walk t (root t) a p -> walk t (root t) b p -> a = b.
Proof.
  intros Hwf Ha Hb. pose proof (node_parts_walk (E := unit) t Hwf a p (S p) [] Ha ltac:(lia)) as H1.
  rewrite (node_parts_walk (E := unit) t Hwf b p (S p) [] Hb ltac:(lia)) in H1.
  injection H1 as H1. by rewrite !app_nil_r in H1.
Qed.

Lemma node_ok {E} t i x : nodes t !! i = Some x -> node (E := E) t i = Ok x.
Proof. intros H. unfold node. by rewrite H. Qed.

Section Reads.
Context (s : Formatter).
Hypothesis (Hinv : fmt_inv s).

Lemma tree_lookup_run parts :
  Forall part_ok parts ->
  exists o, tree_lookup (abs_path parts) s = (Ok o, s) /\ forall j, o = Some j <-> twalk s parts j.
Proof.
  intros Hp. destruct Hinv as [[Hwf Hu _ _ _] _].
  destruct (lookup_spec (E := FormatError) (fm_tree s) Hwf Hu (abs_path parts)) as (o & Ho & Hj).
  exists o. unfold tree_lookup. rewrite Ho. split; [done|]. intros j.
  rewrite Hj, components_abs_path, named_parts by done. done.
Qed.

Lemma twalk_node parts i : twalk s parts i -> exists x, nodes (fm_tree s) !! i = Some x.
Proof.
  intros Hw. destruct Hinv as [[Hwf _ _ _ _] _]. eapply walk_valid; [exact Hw|]. by apply root_valid.
Qed.

Lemma tree_node_run i x : nodes (fm_tree s) !! i = Some x -> tree_node i s = (Ok x, s).
Proof. intros H. unfold tree_node, node. by rewrite H. Qed.

Lemma valid_index k : valid_inode (length (fm_inodes s)) k -> exists inode, fm_inodes s !! inode_index k = Some inode.
Proof.
  intros [H1 H2]. destruct Hinv as [_ Hm]. unfold zlen in Hm. apply lookup_lt_is_Some_2. unfold inode_index.
  rewrite u32_small by (unfold_ranges; lia). lia.
Qed.

Lemma get_inode_run k : valid_inode (length (fm_inodes s)) k -> exists inode, get_inode k s = (Ok inode, s).
Proof. intros H. destruct (valid_index k H) as (inode & Hi). exists inode. unfold get_inode. by rewrite Hi. Qed.

Lemma update_inode_run k f :
  valid_inode (length (fm_inodes s)) k ->
  exists s', update_inode k f s = (Ok tt, s') /\ same_shape s s'.
Proof.
  intros H. pose proof (quiet_update_inode k f s) as Hq. destruct (valid_index k H) as (inode & Hi).
  unfold update_inode in *. rewrite Hi in *. by eexists.
Qed.
End Reads.

Section WpReads.
Context (pan : Prop) (s : Formatter).
Hypothesis (Hinv : fmt_inv s).

Lemma wp_tree_lookup parts (Hok : Forall part_ok parts) (Q : option nat -> Formatter -> Prop) F :
  (forall o, (forall j, o = Some j <-> twalk s parts j) -> Q o s) -> wp pan (tree_lookup (abs_path parts)) s Q F.
Proof. intros HQ. destruct (tree_lookup_run s Hinv parts Hok) as (o & Ho & Hj). unfold wp. rewrite Ho. auto. Qed.

Lemma wp_get_inode k (Hk : valid_inode (length (fm_inodes s)) k) (Q : Inode -> Formatter -> Prop) F :
  (forall inode, Q inode s) -> wp pan (get_inode k) s Q F.
Proof. intros HQ. destruct (get_inode_run s Hinv k Hk) as (inode & Hg). unfold wp. rewrite Hg. auto. Qed.
End WpReads.

Lemma wp_tree_node pan s i x (Hx : nodes (fm_tree s) !! i = Some x) (Q : FileTreeNode -> Formatter -> Prop) F :
  Q x s -> wp pan (tree_node i) s Q F.
Proof. intros HQ. unfold wp. by rewrite (tree_node_run s i x Hx). Qed.

(** ** Removal *)

(** The step from [s] to [s'] cuts the paths in [dead] and nothing else. *)
Record cut (dead : list (list Z) -> Prop) (s s' : Formatter) : Prop := {
  cut_inv : fmt_inv s';
  cut_nodes : length (nodes (fm_tree s')) = length (nodes (fm_tree s));
  cut_inodes : length (fm_inodes s') = length (fm_inodes s);
  cut_walk : forall q j, twalk s' q j <-> twalk s q j /\ ~ dead q
}.

Definition under (parts q : list (list Z)) : Prop := exists post, q = parts ++ post.

Lemma cut_same s s' dead :
  fmt_inv s -> same_shape s s' -> (forall q j, twalk s q j -> ~ dead q) -> cut dead s s'.
Proof.
  intros Hi Hs Hd. pose proof (fmt_inv_shape s s' Hs Hi). destruct Hs as [Ht Hl]. split; [done|by rewrite Ht|done|].
  intros q j. rewrite Ht. split; [|by intros [? _]]. eauto.
Qed.

Lemma cut_trans d1 d2 d s1 s2 s3 :
  cut d1 s1 s2 -> cut d2 s2 s3 -> (forall q, d q <-> d1 q \/ d2 q) -> cut d s1 s3.
Proof.
  intros [I1 N1 L1 W1] [I2 N2 L2 W2] Hd. split; [done|congruence|congruence|].
  intros q j. rewrite W2, W1, Hd. tauto.
Qed.

Lemma remove_child_fields {E} t p name t' i y :
  remove_child (E := E) t p name = Ok t' -> nodes t' !! i = Some y ->
  exists x, nodes t !! i = Some x /\ n_name y = n_name x /\ n_inode y = n_inode x /\ n_link y = n_link x.
Proof.
  unfold remove_child, node. destruct (nodes t !! p) as [np|] eqn:Hp; simpl; [|done].
  destruct (position_child t name (n_children np)) as [[k|]|e|]; simpl; try done; intros [= <-]; simpl.
  - intros Hy. apply list_lookup_insert_Some in Hy as [(-> & <- & _)|[_ Hy]]; eauto.
  - eauto.
Qed.

Lemma remove_child_root_name t p name t' :
  tree_wf t -> tree_wf t' -> root t' = root t -> root_name t = ROOT ->
  remove_child (E := FormatError) t p name = Ok t' -> root_name t' = ROOT.
Proof.
  intros Hwf Hwf' Hr Hn Hrm. unfold root_name in *. destruct (root_valid t' Hwf') as (y & Hy). rewrite Hy.
  destruct (remove_child_fields _ _ _ _ _ _ Hrm Hy) as (x & Hx & -> & _). rewrite <- Hr, Hx in Hn. done.
Qed.

Lemma tree_remove_child_run s p np name :
  fmt_inv s -> nodes (fm_tree s) !! p = Some np ->
  exists s', tree_remove_child p name s = (Ok tt, s') /\
    cut (fun q => exists pre post, q = pre ++ name :: post /\ twalk s pre p) s s'.
Proof.
  intros Hinv Hp. pose proof Hinv as [[Hwf Hu Hrn Hparts Hino] Hmax].
  destruct (remove_child_spec (E := FormatError) (fm_tree s) Hwf Hu p np name Hp)
    as (t' & Ht' & Hroot & Hlen & _ & Hchild).
  exists (set_fm_tree t' s). unfold tree_remove_child. rewrite Ht'. split; [done|].
  assert (fm_tree (set_fm_tree t' s) = t' /\ fm_inodes (set_fm_tree t' s) = fm_inodes s) as [Et Ei] by (by destruct s).
  destruct (remove_child_wf (fm_tree s) Hwf Hu p np name t' Hp Ht') as [Hwf' Hu'].
  split.
  - split; [|by rewrite Ei]. rewrite Et, Ei. split; [done|done| | |].
    + by apply (remove_child_root_name (fm_tree s) p name).
    + intros q c y Hc Hy. apply Hchild in Hc as [Hc _].
      destruct (remove_child_fields _ _ _ _ _ _ Ht' Hy) as (x & Hx & -> & _). eauto.
    + intros i y Hy. destruct (remove_child_fields _ _ _ _ _ _ Ht' Hy) as (x & Hx & _ & -> & ->). eauto.
  - by rewrite Et.
  - by rewrite Ei.
  - intros q j. rewrite Et, Hroot. by apply (walk_removed (E := FormatError) (fm_tree s) Hwf Hu p np name t').
Qed.

Lemma maybe_update_run s (d : bool) k f :
  fmt_inv s -> valid_inode (length (fm_inodes s)) k ->
  exists s1, (if d then update_inode k f else mret tt) s = (Ok tt, s1) /\ same_shape s s1.
Proof. intros Hinv Hk. destruct d; [by apply update_inode_run|]. by exists s. Qed.

Section Detach.
Context (s : Formatter) (d : bool).
Hypothesis (Hinv : fmt_inv s).

(** Detaching an entry cuts the paths under it. *)
Lemma detach_entry ps name :
  Forall part_ok (ps ++ [name]) ->
  wp False (detach (abs_path (ps ++ [name])) d) s (fun _ s' => cut (under (ps ++ [name])) s s') (fun _ => False).
Proof.
  intros Hok. pose proof Hok as Hok'. apply Forall_app in Hok' as [Hps Hname]. apply Forall_cons_1 in Hname as [Hname _].
  destruct (parent_basename ps name Hname) as [Hpar Hbase]. unfold detach. rewrite Hpar, Hbase.
  apply wp_bind, (wp_tree_lookup _ s Hinv ps Hps). intros o Hj.
  destruct o as [p|].
  2:{ apply wp_ret. apply cut_same; [done|done|]. intros q j Hw (post & ->).
      rewrite <- app_assoc in Hw. apply walk_app_inv in Hw as (p & Hp & _). apply Hj in Hp. done. }
  pose proof (proj1 (Hj p) eq_refl) as Hp. destruct (twalk_node s Hinv ps p Hp) as (np & Hnp).
  apply wp_bind, (wp_tree_node _ s p np Hnp).
  destruct (ti_inode _ _ (proj1 Hinv) p np Hnp) as [Hval _].
  destruct (maybe_update_run s d (n_inode np) (fun inode =>
      if 2 <? i_links_count inode then set_i_links_count (i_links_count inode - 1) inode else inode) Hinv Hval)
    as (s1 & H1 & Hs1).
  apply wp_bind. unfold wp at 1. rewrite H1.
  assert (nodes (fm_tree s1) !! p = Some np) as Hnp1 by (destruct Hs1 as [-> _]; done).
  destruct (tree_remove_child_run s1 p np name (fmt_inv_shape s s1 Hs1 Hinv) Hnp1) as (s2 & H2 & Hcut).
  unfold wp. rewrite H2.
  assert (cut (fun _ => False) s s1) as Hc1 by (apply cut_same; auto).
  apply (cut_trans _ _ _ _ _ _ Hc1 Hcut). intros q. destruct Hs1 as [-> _]. split.
  - intros (post & ->). right. exists ps, post. by rewrite <- app_assoc.
  - intros [[]|(pre & post & -> & Hw)]. exists post. rewrite <- app_assoc. simpl. f_equal.
    destruct Hinv as [[Hwf _ _ _ _] _]. by apply (walk_path_inj (fm_tree s) pre ps p).
Qed.
End Detach.

Lemma cut_ext d d' s s' :
  cut d s s' -> (forall q j, twalk s q j -> d q <-> d' q) -> cut d' s s'.
Proof. intros [I N L W] Hd. split; [done..|]. intros q j. rewrite W. split; intros [Hw ?]; specialize (Hd q j Hw); tauto. Qed.

(** The root itself has no entry to cut. *)
Lemma detach_root s d :
  fmt_inv s -> wp False (detach (abs_path []) d) s (fun _ s' => cut (fun _ => False) s s') (fun _ => False).
Proof.
  intros Hinv. unfold detach. change (parent_of (abs_path [])) with (abs_path []).
  change (basename (abs_path [])) with ROOT.
  apply wp_bind, (wp_tree_lookup _ s Hinv [] ltac:(done)). intros o Hj.
  destruct o as [p|]; [|by apply wp_ret, cut_same; auto].
  pose proof (proj1 (Hj p) eq_refl) as Hp. destruct (twalk_node s Hinv [] p Hp) as (np & Hnp).
  apply wp_bind, (wp_tree_node _ s p np Hnp).
  destruct (ti_inode _ _ (proj1 Hinv) p np Hnp) as [Hval _].
  destruct (maybe_update_run s d (n_inode np) (fun inode =>
      if 2 <? i_links_count inode then set_i_links_count (i_links_count inode - 1) inode else inode) Hinv Hval)
    as (s1 & H1 & Hs1).
  apply wp_bind. unfold wp at 1. rewrite H1.
  pose proof (fmt_inv_shape s s1 Hs1 Hinv) as Hinv1.
  assert (nodes (fm_tree s1) !! p = Some np) as Hnp1 by (destruct Hs1 as [-> _]; done).
  destruct (tree_remove_child_run s1 p np ROOT Hinv1 Hnp1) as (s2 & H2 & Hcut). unfold wp. rewrite H2.
  assert (cut (fun _ => False) s s1) as Hc1 by (apply cut_same; auto).
  apply (cut_trans _ (fun _ => False) _ _ _ _ Hc1); [|tauto]. apply (cut_ext _ _ _ _ Hcut).
  intros q j Hw. split; [|done]. intros (pre & post & -> & _).
  rewrite cons_middle, app_assoc in Hw. apply walk_app_inv in Hw as (x & Hx & _).
  apply walk_snoc_inv in Hx as (p' & y & _ & Hc & Hy & Hn).
  destruct (ti_parts _ _ (proj1 Hinv1) p' x y Hc Hy) as (Hns & _). rewrite Hn in Hns.
  apply Hns. by left.
Qed.

Lemma release_target_run s i x k :
  fmt_inv s -> nodes (fm_tree s) !! i = Some x -> valid_inode (length (fm_inodes s)) k ->
  exists s', release_target i k s = (Ok tt, s') /\ same_shape s s'.
Proof.
  intros Hinv Hx Hk. pose proof (quiet_release i k s) as Hq.
  cut (exists s', release_target i k s = (Ok tt, s')).
  { intros (s' & Hr). exists s'. rewrite Hr in Hq |- *. done. }
  clear Hq. unfold release_target. case_match; [|by eexists]. rewrite M_bind_eq.
  match goal with |- context [update_inode k ?f s] =>
    destruct (update_inode_run s Hinv k f Hk) as (s1 & -> & Hs1) end.
  pose proof (fmt_inv_shape s s1 Hs1 Hinv) as Hinv1. destruct Hs1 as [Ht1 Hl1]. rewrite <- Hl1 in Hk.
  rewrite M_bind_eq, (tree_node_run s1 i x) by (by rewrite Ht1). rewrite M_bind_eq.
  destruct (get_inode_run s1 Hinv1 k Hk) as (inode & ->). destruct (i_links_count inode =? 0).
  2:{ case_match; by eexists. }
  mstep. match goal with |- context [now ?s2] => assert (same_shape s1 s2) as Hs2 by (by destruct s1); set (z := s2) in * end.
  unfold now. destruct (fm_clock z (fm_tick z)) as [secs nanos]. mstep.
  assert (same_shape s1 (set_fm_tick (S (fm_tick z)) z)) as Hs3 by (destruct Hs2; split; by destruct z).
  pose proof (fmt_inv_shape _ _ Hs3 Hinv1) as Hinv3. destruct Hs3 as [_ Hl3]. rewrite <- Hl3 in Hk.
  match goal with |- context [update_inode k ?f _] =>
    destruct (update_inode_run _ Hinv3 k f Hk) as (s4 & -> & _) end. by eexists.
Qed.

Lemma child_names_run s i x :
  fmt_inv s -> nodes (fm_tree s) !! i = Some x ->
  exists names, child_names i s = (Ok names, s) /\
    forall n, n ∈ names <-> exists c y, child_of (fm_tree s) i c /\ nodes (fm_tree s) !! c = Some y /\ n_name y = n.
Proof.
  intros [[Hwf _ _ _ _] _] Hx. unfold child_names. rewrite (node_ok _ i x Hx). cbn [mbind res_bind].
  assert (forall cs acc, (forall c, c ∈ cs -> exists y, nodes (fm_tree s) !! c = Some y) ->
    exists names, foldM (E := FormatError) (fun names ci => c ← node (fm_tree s) ci; Ok (names ++ [n_name c])) acc cs = Ok (acc ++ names) /\
      forall n, n ∈ names <-> exists c y, c ∈ cs /\ nodes (fm_tree s) !! c = Some y /\ n_name y = n) as H.
  { induction cs as [|c cs IH]; intros acc Hcs; simpl.
    - exists []. rewrite app_nil_r. split; [done|]. intros n. split; [by intros ?%not_elem_of_nil|].
      by intros (c & y & ?%not_elem_of_nil & _).
    - destruct (Hcs c ltac:(by left)) as (y & Hy). rewrite (node_ok _ c y Hy). cbn [mbind res_bind].
      destruct (IH (acc ++ [n_name y])) as (names & Hf & Hn); [intros c' Hc'; apply Hcs; by right|].
      exists (n_name y :: names). rewrite Hf, <- app_assoc. split; [done|]. intros n. rewrite elem_of_cons, Hn.
      setoid_rewrite elem_of_cons. split.
      + intros [->|(c' & y' & ? & ?)]; [exists c, y; auto|exists c', y'; auto].
      + intros (c' & y' & [->|Hc'] & Hy' & <-); [left; congruence|right; eauto]. }
  destruct (H (n_children x) []) as (names & Hf & Hn).
  { intros c Hc. destruct (wf_child _ Hwf i c) as (y & Hy & _); [by exists x|]. eauto. }
  exists names. rewrite Hf. split; [done|]. intros n. rewrite Hn. unfold child_of. split.
  - intros (c & y & Hc & ?). exists c, y. split; [by exists x|done].
  - intros (c & y & (x' & Hx' & Hc) & ?). exists c, y. simplify_eq. done.
Qed.

Lemma slashed_abs parts n : Forall part_ok parts -> SLASHED (abs_path parts) n = abs_path (parts ++ [n]).
Proof.
  intros Hok. rewrite abs_path_snoc. unfold SLASHED. destruct parts as [|p ps]; [done|].
  rewrite bool_decide_false; [done|]. apply Forall_cons_1 in Hok as [(_ & Hne & _) _].
  unfold abs_path. simpl. intros H. injection H as H. by destruct p.
Qed.

(** The paths a removal of [parts] is meant to reach. *)
Definition below (parts q : list (list Z)) : Prop := exists c post, q = parts ++ c :: post.
Definition gone (parts q : list (list Z)) : Prop :=
  match parts with [] => q <> [] | _ => under parts q end.

(** The recursion has enough turns for the subtree at [parts]. *)
Definition enough (fuel : nat) (s : Formatter) (parts : list (list Z)) : Prop :=
  (0 < fuel)%nat /\ forall i, twalk s parts i -> (length (nodes (fm_tree s)) < fuel + i)%nat.

Definition removes (fuel : nat) : Prop := forall s parts,
  fmt_inv s -> Forall part_ok parts -> enough fuel s parts ->
  wp False (remove_inner fuel (abs_path parts) true) s (fun _ s' => cut (gone parts) s s') (fun _ => False).

Lemma remove_loop fuel parts i names : forall s,
  removes fuel -> fmt_inv s -> Forall part_ok parts -> Forall part_ok names ->
  twalk s parts i -> (length (nodes (fm_tree s)) < S fuel + i)%nat -> (0 < fuel)%nat ->
  wp False (forM_ names (fun n => remove_inner fuel (SLASHED (abs_path parts) n) true)) s
    (fun _ s' => cut (fun q => exists n, n ∈ names /\ under (parts ++ [n]) q) s s') (fun _ => False).
Proof.
  induction names as [|n names IH]; intros s Hrec Hinv Hparts Hnames Hi Hlen Hf; cbn [forM_].
  { apply wp_ret, cut_same; [done|done|]. by intros q j _ (n & ?%not_elem_of_nil & _). }
  apply Forall_cons_1 in Hnames as [Hn Hnames]. apply wp_bind. rewrite slashed_abs by done.
  eapply wp_mono; [apply Hrec; [done|by apply Forall_app; auto|]| |done].
  - split; [done|]. intros c Hc. apply walk_snoc_inv in Hc as (p & x & Hp & Hch & _).
    destruct Hinv as [[Hwf Hu _ _ _] _]. rewrite (walk_functional _ Hu _ _ _ Hi _ Hp) in Hlen.
    pose proof (child_of_lt _ _ _ Hwf Hch). lia.
  - intros [] s1 Hcut. pose proof Hcut as [Hinv1 Hn1 Hl1 Hw1].
    assert (~ gone (parts ++ [n]) parts) as Hng.
    { unfold gone. destruct (parts ++ [n]) eqn:E; [by destruct parts|]. rewrite <- E. intros (post & H).
      apply (f_equal length) in H. rewrite !length_app in H. simpl in H. lia. }
    eapply wp_mono; [apply IH; try done; [by apply Hw1|by rewrite Hn1]| |done].
    intros [] s2 Hcut2. apply (cut_trans _ _ _ _ _ _ Hcut Hcut2). intros q.
    assert (gone (parts ++ [n]) q <-> under (parts ++ [n]) q) as ->.
    { unfold gone. destruct (parts ++ [n]) eqn:E; [by destruct parts|]. done. }
    setoid_rewrite elem_of_cons. split.
    + intros (m & [->|Hm] & Hu); [by left|right; eauto].
    + intros [Hu|(m & Hm & Hu)]; [exists n; auto|exists m; auto].
Qed.

Lemma gone_not_walk s parts : (forall j, ~ twalk s parts j) -> forall q j, twalk s q j -> ~ gone parts q.
Proof.
  intros Hno q j Hw Hg. destruct parts as [|p ps]; [apply (Hno (root (fm_tree s))); constructor|].
  destruct Hg as (post & ->). apply walk_app_inv in Hw as (x & Hx & _). by apply (Hno x).
Qed.

(** Whether the node is a directory: an answer without effect. *)
Lemma node_is_dir_run s i x :
  fmt_inv s -> nodes (fm_tree s) !! i = Some x ->
  exists b, (match n_link x with
             | None => inode ← get_inode (n_inode x); mret (is_dir (i_mode inode))
             | Some _ => mret false
             end : M bool) s = (Ok b, s).
Proof.
  intros Hinv Hx. destruct (ti_inode _ _ (proj1 Hinv) i x Hx) as [Hval _].
  destruct (n_link x); [by exists false|]. destruct (get_inode_run s Hinv _ Hval) as (inode & Hg).
  eexists. rewrite M_bind_eq, Hg. done.
Qed.

(** After the children are gone, the entry itself goes. *)
Lemma remove_self_run s1 s2 i k d parts :
  fmt_inv s2 -> Forall part_ok parts -> cut (below parts) s1 s2 ->
  (i < length (nodes (fm_tree s2)))%nat -> valid_inode (length (fm_inodes s2)) k ->
  wp False (_ ← detach (abs_path parts) d; release_target i k) s2
    (fun _ s' => cut (gone parts) s1 s') (fun _ => False).
Proof.
  intros Hinv Hok Hcut Hi Hk.
  assert (wp False (detach (abs_path parts) d) s2 (fun _ s' => cut (gone parts) s1 s' /\
            length (nodes (fm_tree s')) = length (nodes (fm_tree s2)) /\
            length (fm_inodes s') = length (fm_inodes s2)) (fun _ => False)) as Hd.
  { destruct parts as [|name ps _] using rev_ind.
    - eapply wp_mono; [by apply detach_root| |done]. intros [] s3 Hc3. split; [|by destruct Hc3].
      apply (cut_trans _ _ _ _ _ _ Hcut Hc3). intros q. unfold gone, below. split.
      + intros Hq. left. destruct q as [|c post]; [done|]. by exists c, post.
      + intros [(c & post & ->)|[]]. done.
    - eapply wp_mono; [by apply detach_entry| |done]. intros [] s3 Hc3. split; [|by destruct Hc3].
      apply (cut_trans _ _ _ _ _ _ Hcut Hc3). intros q. unfold gone.
      destruct (ps ++ [name]) as [|y l] eqn:E; [by destruct ps|]. rewrite <- E in *. split; [by right|].
      intros [(c & post & ->)|?]; [by eexists|done]. }
  apply wp_bind. eapply wp_mono; [exact Hd| |done]. intros [] s3 (Hc3 & Hn3 & Hl3).
  destruct (lookup_lt_is_Some_2 (nodes (fm_tree s3)) i ltac:(lia)) as (x & Hx).
  pose proof (cut_inv _ _ _ Hc3) as Hinv3. rewrite <- Hl3 in Hk.
  destruct (release_target_run s3 i x k Hinv3 Hx Hk) as (s4 & Hr & Hs4). unfold wp. rewrite Hr.
  assert (cut (fun _ => False) s3 s4) as Hc4 by (apply cut_same; auto).
  apply (cut_trans _ _ _ _ _ _ Hc3 Hc4). tauto.
Qed.

(** The loop over the children leaves only the node. *)
Lemma remove_below_run fuel s i x parts names :
  removes fuel -> fmt_inv s -> Forall part_ok parts -> twalk s parts i ->
  (length (nodes (fm_tree s)) < S fuel + i)%nat -> nodes (fm_tree s) !! i = Some x ->
  (forall n, n ∈ names <-> exists c y, child_of (fm_tree s) i c /\ nodes (fm_tree s) !! c = Some y /\ n_name y = n) ->
  wp False (forM_ names (fun n => remove_inner fuel (SLASHED (abs_path parts) n) true)) s
    (fun _ s' => cut (below parts) s s') (fun _ => False).
Proof.
  intros Hrec Hinv Hok Hi Hlen Hx Hnames. pose proof (lookup_lt_Some _ _ _ Hx).
  eapply wp_mono; [apply (remove_loop fuel parts i); try done; [|lia]| |done].
  - apply list.Forall_forall. intros n Hn. apply Hnames in Hn as (c & y & Hc & Hy & <-).
    exact (ti_parts _ _ (proj1 Hinv) i c y Hc Hy).
  - intros [] s' Hcut. apply (cut_ext _ _ _ _ Hcut). intros q j Hw. split.
    + intros (n & _ & (post & ->)). exists n, post. by rewrite <- app_assoc.
    + intros (c & post & ->). exists c. split; [|exists post; by rewrite <- app_assoc].
      apply Hnames. rewrite cons_middle, app_assoc in Hw. apply walk_app_inv in Hw as (z & Hz & _).
      apply walk_snoc_inv in Hz as (p & y & Hp & Hc & Hy & Hny).
      rewrite (walk_functional _ (ti_unique _ _ (proj1 Hinv)) _ _ _ Hp _ Hi) in Hc. by exists z, y.
Qed.

(** A removal ends, cannot panic, and cuts exactly the subtree. *)
Lemma remove_inner_spec fuel : removes fuel.
Proof.
  induction fuel as [|fuel IH]; intros s parts Hinv Hok [Hf Hen]; [lia|]. cbn [remove_inner].
  apply wp_bind, (wp_tree_lookup _ s Hinv parts Hok). intros o Hj.
  destruct o as [i|].
  2:{ apply wp_ret, cut_same; [done|done|]. apply gone_not_walk. intros j Hw. by apply Hj in Hw. }
  pose proof (proj1 (Hj i) eq_refl) as Hi. destruct (twalk_node s Hinv parts i Hi) as (x & Hx).
  specialize (Hen i Hi). pose proof (lookup_lt_Some _ _ _ Hx) as Hil.
  apply wp_bind, (wp_tree_node _ s i x Hx).
  destruct (ti_inode _ _ (proj1 Hinv) i x Hx) as [Hval Hlink].
  apply wp_bind. destruct (node_is_dir_run s i x Hinv Hx) as (d & Hd). unfold wp at 1. rewrite Hd. cbn [negb andb].
  apply wp_bind. destruct (child_names_run s i x Hinv Hx) as (names & Hn & Hnames). unfold wp at 1. rewrite Hn.
  apply wp_bind. eapply wp_mono; [by apply (remove_below_run fuel s i x parts names)| |done].
  intros [] s2 Hcut. pose proof Hcut as [Hinv2 Hn2 Hl2 _]. apply remove_self_run; [done..|lia|].
  rewrite Hl2. destruct (n_link x); simpl; [by apply Hlink|done].
Qed.

Lemma remove_run s parts :
  fmt_inv s -> Forall part_ok parts ->
  exists s', remove (abs_path parts) s = (Ok tt, s') /\ cut (gone parts) s s'.
Proof.
  intros Hinv Hok. unfold remove. rewrite M_bind_eq. unfold gets, remove_depth. cbn beta iota.
  pose proof (remove_inner_spec (S (length (nodes (fm_tree s)))) s parts Hinv Hok) as H. unfold wp in H.
  destruct (remove_inner _ _ _ s) as [[[]|e|] s'].
  - eexists. split; [done|]. apply H. split; lia.
  - exfalso. apply H. split; lia.
  - exfalso. apply H. split; lia.
Qed.

(** ** Insertion *)

Definition entry_ok (s : Formatter) (x : FileTreeNode) : Prop :=
  part_ok (n_name x) /\ n_children x = [] /\ valid_inode (length (fm_inodes s)) (n_inode x) /\
  forall l, n_link x = Some l -> valid_inode (length (fm_inodes s)) l.

(** Adding an entry under the node at [ps] adds that path and no other. *)
Lemma tree_add_child_run s ps p x :
  fmt_inv s -> entry_ok s x -> twalk s ps p -> (forall j, ~ twalk s (ps ++ [n_name x]) j) ->
  exists s', tree_add_child p x s = (Ok tt, s') /\ fmt_inv s' /\ fm_inodes s' = fm_inodes s /\
    nodes (fm_tree s') !! length (nodes (fm_tree s)) = Some (set_n_parent x (Some p)) /\
    forall q j, twalk s' q j <-> twalk s q j \/ j = length (nodes (fm_tree s)) /\ q = ps ++ [n_name x].
Proof.
  intros Hinv (Hname & Hch & Hval & Hlnk) Hp Hfresh. destruct (twalk_node s Hinv ps p Hp) as (np & Hnp).
  pose proof Hinv as [[Hwf Hu Hrn Hparts Hino] Hmax].
  exists (set_fm_tree (added (fm_tree s) p np x) s). unfold tree_add_child.
  rewrite (add_child_ok (fm_tree s) p x np Hnp).
  fold (added (fm_tree s) p np x). set (t' := added (fm_tree s) p np x).
  assert (fm_tree (set_fm_tree t' s) = t' /\ fm_inodes (set_fm_tree t' s) = fm_inodes s) as [Et Ei] by (by destruct s).
  split; [done|]. unfold fmt_inv. rewrite Et, Ei. pose proof (added_wf (fm_tree s) p np x Hwf Hnp Hch) as Hwf'. fold t' in Hwf'.
  pose proof (added_old (fm_tree s) p np x Hnp) as Hold. fold t' in Hold.
  pose proof (added_new (fm_tree s) p np x Hnp) as Hnew. fold t' in Hnew.
  assert (forall i y, nodes t' !! i = Some y ->
    (i = length (nodes (fm_tree s)) /\ y = set_n_parent x (Some p)) \/
    exists z, nodes (fm_tree s) !! i = Some z /\ n_name y = n_name z /\ n_inode y = n_inode z /\ n_link y = n_link z) as Hback.
  { intros i y Hy. destruct (nodes (fm_tree s) !! i) as [z|] eqn:Hz.
    - right. destruct (Hold i z Hz) as (y' & Hy' & ? & _ & ? & ? & _). exists z. split; [done|]. by simplify_eq.
    - left. pose proof (lookup_lt_Some _ _ _ Hy) as Hl. apply lookup_ge_None in Hz.
      unfold t', added in Hl. cbn [nodes] in Hl. rewrite length_app, length_insert in Hl. simpl in Hl.
      assert (i = length (nodes (fm_tree s))) as -> by lia. split; [done|]. congruence. }
  split; [split; [split|done]|split; [done|split; [done|]]].
  - done.
  - apply added_names_unique; [done..|]. intros c y Hc Hy Heq. apply (Hfresh c). rewrite <- Heq.
    by eapply walk_snoc.
  - unfold root_name in *. destruct (root_valid (fm_tree s) Hwf) as (z & Hz). rewrite Hz in Hrn.
    change (root t') with (root (fm_tree s)). destruct (Hold _ z Hz) as (y & -> & -> & _). done.
  - intros q c y Hc Hy. destruct (Hback c y Hy) as [(_ & ->)|(z & Hz & -> & _)]; [done|].
    apply child_of_added in Hc as [(_ & ->)|Hc]; [|by eauto|done|done].
    apply lookup_lt_Some in Hz. lia.
  - intros i y Hy. destruct (Hback i y Hy) as [(_ & ->)|(z & Hz & _ & -> & ->)]; [done|]. by apply (Hino i).
  - intros q j. change (root t') with (root (fm_tree s)).
    destruct (wf_root (fm_tree s) Hwf) as (Hr & z & Hz & _). unfold t'. rewrite walk_added; [|done..|].
    + split; (intros [Hw|Hw]; [by left|right]).
      * destruct Hw as (-> & pre & -> & Hw). split; [done|]. f_equal.
        by apply (walk_path_inj (fm_tree s) pre ps p).
      * destruct Hw as (-> & ->). split; [done|]. by exists ps.
    + rewrite Hr. apply lookup_lt_Some in Hz. lia.
Qed.

(** ** Hard links *)

(** The effect of a link: [lp] leads to an entry of the target's inode, every
    path outside [lp] is what it was. *)
Definition linked (lp tp : list (list Z)) (s s' : Formatter) : Prop :=
  fmt_inv s' /\ length (fm_inodes s') = length (fm_inodes s) /\
  (exists i x j y, twalk s tp i /\ nodes (fm_tree s) !! i = Some x /\
     twalk s' lp j /\ nodes (fm_tree s') !! j = Some y /\ default (n_inode y) (n_link y) = n_inode x) /\
  forall q j, ~ under lp q -> twalk s' q j <-> twalk s q j.

Lemma wp_lift {A} pan (r : res FormatError A) s (Q : A -> Formatter -> Prop) (F : Formatter -> Prop) :
  (pan \/ r <> Panic) -> (forall a, r = Ok a -> Q a s) -> F s -> wp pan (lift r) s Q F.
Proof. intros Hp HQ HF. unfold wp, lift. destruct r; auto. by destruct Hp. Qed.

Lemma validate_no_panic path : validate_path_component_names path <> Panic.
Proof.
  unfold validate_path_component_names. generalize tt. induction (split_slash path) as [|c l IH]; intros u; simpl; [done|].
  destruct (_ || _); simpl; [done|]. destruct (EXT4_NAME_LEN <? zlen c); simpl; [done|apply IH].
Qed.

Lemma ok_or_no_panic {A} (o : option A) (e : FormatError) : ok_or o e <> Panic.
Proof. by destruct o. Qed.

(** Everything after the checks: it cannot fail. *)
Lemma link_commit s ps name tp i x p pre_exists :
  fmt_inv s -> Forall part_ok (ps ++ [name]) -> twalk s tp i -> nodes (fm_tree s) !! i = Some x ->
  twalk s ps p -> (pre_exists = false -> forall j, ~ twalk s (ps ++ [name]) j) ->
  let link_node :=
    {| n_inode := ROOT_INODE; n_name := name; n_children := []; n_parent := None;
       n_blocks := None; n_additional_blocks := []; n_link := Some (n_inode x) |} in
  valid_inode (length (fm_inodes s)) ROOT_INODE ->
  wp False
    (_ ← (if pre_exists : bool then remove (abs_path (ps ++ [name])) else mret tt);
     _ ← update_inode (n_inode x) (fun inode => set_i_links_count (u16 (i_links_count inode + 1)) inode);
     tree_add_child p link_node) s
    (fun _ s' => linked (ps ++ [name]) tp s s') (fun s' => s' = s).
Proof.
  intros Hinv Hok Hi Hx Hp Hfresh link_node Hroot.
  assert (exists s1, (if pre_exists then remove (abs_path (ps ++ [name])) else mret tt) s = (Ok tt, s1) /\
            cut (under (ps ++ [name])) s s1) as (s1 & H1 & Hcut).
  { destruct pre_exists.
    - destruct (remove_run s (ps ++ [name]) Hinv Hok) as (s1 & H1 & Hcut). exists s1. split; [done|].
      unfold gone in Hcut. by destruct (ps ++ [name]) eqn:E; [destruct ps|].
    - exists s. split; [done|]. apply cut_same; [done|done|]. intros q j Hw (post & ->).
      apply walk_app_inv in Hw as (z & Hz & _). by apply (Hfresh eq_refl z). }
  destruct Hcut as [Hinv1 Hn1 Hl1 Hw1].
  destruct (ti_inode _ _ (proj1 Hinv) i x Hx) as [Hval _].
  apply wp_bind. unfold wp at 1. rewrite H1. apply wp_bind. unfold wp at 1.
  match goal with |- context [update_inode ?k ?f s1] =>
    destruct (update_inode_run s1 Hinv1 k f) as (s2 & H2 & Hs2); [by rewrite Hl1|] end. rewrite H2.
  pose proof (fmt_inv_shape s1 s2 Hs2 Hinv1) as Hinv2. destruct Hs2 as [Ht2 Hl2].
  destruct (tree_add_child_run s2 ps p link_node) as (s3 & H3 & Hinv3 & Hi3 & Hnew & Hw3); [done| | | |].
  { apply Forall_app in Hok as [_ Hname]. apply Forall_cons_1 in Hname as [Hname _].
    split; [done|]. split; [done|]. rewrite Hl2, Hl1. split; [done|]. intros l [= <-]. done. }
  { rewrite Ht2. apply Hw1. split; [done|]. intros (post & H). apply (f_equal length) in H.
    rewrite !length_app in H. simpl in H. lia. }
  { intros j Hj. rewrite Ht2 in Hj. apply Hw1 in Hj as [_ Hj]. apply Hj. exists []. by rewrite app_nil_r. }
  unfold wp. rewrite H3. split; [done|]. split; [by rewrite Hi3, Hl2, Hl1|]. split.
  - exists i, x, (length (nodes (fm_tree s2))), (set_n_parent link_node (Some p)).
    split; [done|]. split; [done|]. split; [|done]. apply Hw3. by right.
  - intros q j Hq. rewrite Hw3, Ht2, Hw1. split; [|by left].
    intros [[? _]|[_ ->]]; [done|]. exfalso. apply Hq. exists []. by rewrite app_nil_r.
Qed.

Lemma link_run s ps name tp :
  fmt_inv s -> Forall part_ok (ps ++ [name]) -> Forall part_ok tp ->
  valid_inode (length (fm_inodes s)) ROOT_INODE ->
  wp False (link (abs_path (ps ++ [name])) (abs_path tp)) s
    (fun _ s' => linked (ps ++ [name]) tp s s') (fun s' => s' = s).
Proof.
  intros Hinv Hok Htp Hroot. unfold link.
  apply wp_bind, wp_lift; [right; apply validate_no_panic| |done]. intros [] _.
  apply wp_bind, (wp_tree_lookup _ s Hinv tp Htp). intros o Hj.
  apply wp_bind, wp_lift; [right; apply ok_or_no_panic| |done]. intros i Hoi. destruct o as [i'|]; [|done].
  injection Hoi as ->. pose proof (proj1 (Hj i) eq_refl) as Hi. destruct (twalk_node s Hinv tp i Hi) as (x & Hx).
  apply wp_bind, (wp_tree_node _ s i x Hx).
  destruct (ti_inode _ _ (proj1 Hinv) i x Hx) as [Hval _].
  apply wp_bind, (wp_get_inode _ s Hinv _ Hval). intros inode.
  destruct (is_dir (i_mode inode)); [done|].
  apply wp_bind, (wp_tree_lookup _ s Hinv _ Hok). intros eo Hje.
  assert (exists et, (match eo with
       | Some idx => n ← tree_node idx; mret (Some (default (n_inode n) (n_link n)))
       | None => mret None
       end : M (option Z)) s = (Ok et, s) /\
     (et = None -> eo = None) /\
     (forall k, et = Some k -> exists j y, twalk s (ps ++ [name]) j /\ nodes (fm_tree s) !! j = Some y /\
        default (n_inode y) (n_link y) = k)) as (et & Het & Hnone & Hsome).
  { destruct eo as [j|]; [|exists None; done]. pose proof (proj1 (Hje j) eq_refl) as Hw.
    destruct (twalk_node s Hinv _ j Hw) as (y & Hy). eexists. rewrite M_bind_eq, (tree_node_run s j y Hy).
    split; [done|]. split; [done|]. intros k [= <-]. by exists j, y. }
  apply wp_bind. unfold wp at 1. rewrite Het. case_bool_decide as Hsame.
  { apply wp_ret. destruct (Hsome _ Hsame) as (j & y & Hjw & Hy & Hd). split; [done|]. split; [done|]. split; [|done].
    by exists i, x, j, y. }
  pose proof Hok as Hok'. apply Forall_app in Hok' as [Hps Hname]. apply Forall_cons_1 in Hname as [Hname _].
  destruct (parent_basename ps name Hname) as [Hpar Hbase]. rewrite Hpar, Hbase.
  apply wp_bind, (wp_tree_lookup _ s Hinv ps Hps). intros po Hjp.
  apply wp_bind, wp_lift; [right; apply ok_or_no_panic| |done]. intros p Hop. destruct po as [p'|]; [|done].
  injection Hop as ->. pose proof (proj1 (Hjp p) eq_refl) as Hp. destruct (twalk_node s Hinv ps p Hp) as (np & Hnp).
  apply wp_bind, (wp_tree_node _ s p np Hnp).
  destruct (ti_inode _ _ (proj1 Hinv) p np Hnp) as [Hpval _].
  apply wp_bind, (wp_get_inode _ s Hinv _ Hpval). intros pinode.
  destruct (MAX_LINKS <=? i_links_count pinode); [done|].
  apply (link_commit s ps name tp i x p (bool_decide (is_Some et))); try done.
  intros Hb j Hjw. apply bool_decide_eq_false in Hb. apply Hje in Hjw. subst eo. destruct et; [by apply Hb|].
  by specialize (Hnone eq_refl).
Qed.

(** ** Creation *)

(** A step that keeps every path outside [parts], and adds none but those on
    the way to it; at most [n] inodes are added. *)
Record grown (parts : list (list Z)) (n : nat) (s s' : Formatter) : Prop := {
  gr_inv : fmt_inv s';
  gr_inodes : (length (fm_inodes s) <= length (fm_inodes s') <= length (fm_inodes s) + n)%nat;
  gr_kept : forall q j, ~ under parts q -> twalk s q j -> twalk s' q j;
  gr_new : forall q j, twalk s' q j -> twalk s q j \/ under q parts
}.

Lemma grown_same parts n s s' : fmt_inv s -> same_shape s s' -> grown parts n s s'.
Proof.
  intros Hinv Hs. pose proof (fmt_inv_shape s s' Hs Hinv). destruct Hs as [Ht Hl].
  split; [done|lia|by rewrite Ht|]. intros q j. rewrite Ht. by left.
Qed.

Lemma grown_cut parts n s s' : cut (gone parts) s s' -> parts <> [] -> grown parts n s s'.
Proof.
  intros [Hi Hn Hl Hw] Hne. split; [done|lia| |].
  - intros q j Hq Hj. apply Hw. split; [done|]. unfold gone. by destruct parts.
  - intros q j Hj. left. apply Hw in Hj. tauto.
Qed.

Lemma grown_trans p1 p2 n1 n2 s1 s2 s3 :
  under p1 p2 -> grown p1 n1 s1 s2 -> grown p2 n2 s2 s3 -> p1 = p2 \/ (forall q j, twalk s1 q j -> twalk s2 q j) ->
  grown p2 (n1 + n2) s1 s3.
Proof.
  intros Hu [I1 L1 K1 N1] [I2 L2 K2 N2] Hall. split; [done|lia| |].
  - intros q j Hq Hw. apply K2; [done|]. destruct Hall as [->|Hall]; auto.
  - intros q j Hw. apply N2 in Hw as [Hw|Hw]; [|by right]. apply N1 in Hw as [Hw|(post & ->)]; [by left|].
    right. destruct Hu as (post' & ->). exists (post ++ post'). by rewrite app_assoc.
Qed.

(** What the handling of an existing path leaves: the call is over and nothing
    moved, or the path is free. *)
Definition cleared (parts : list (list Z)) (mode : Z) (s : Formatter) (over : bool) (s' : Formatter) : Prop :=
  if over then same_shape s s' /\ exists j, twalk s parts j
  else cut (gone parts) s s' /\ (is_dir mode = true -> s' = s) /\ forall j, ~ twalk s' parts j.

Lemma cleared_of_cut parts mode s s' :
  parts <> [] -> is_dir mode = false -> cut (gone parts) s s' -> cleared parts mode s false s'.
Proof.
  intros Hne Hd Hcut. split; [done|]. split; [by rewrite Hd|]. intros j Hj. apply (cut_walk _ _ _ Hcut) in Hj as [_ Hg]. apply Hg.
  unfold gone. destruct parts; [done|]. exists []. by rewrite app_nil_r.
Qed.

(** The name of the node a path leads to. *)
Lemma twalk_name s parts i x :
  fmt_inv s -> Forall part_ok parts -> twalk s parts i -> nodes (fm_tree s) !! i = Some x ->
  n_name x = basename (abs_path parts).
Proof.
  intros Hinv Hok Hi Hx. destruct parts as [|name ps _] using rev_ind.
  - inversion Hi; subst. pose proof (ti_root _ _ (proj1 Hinv)) as Hr. unfold root_name in Hr. by rewrite Hx in Hr.
  - apply Forall_app in Hok as [_ Hname]. apply Forall_cons_1 in Hname as [Hname _].
    rewrite (proj2 (parent_basename ps name Hname)). apply walk_snoc_inv in Hi as (p & y & _ & _ & Hy & Hn). congruence.
Qed.

Lemma create_existing_run s parts mode uid gid :
  fmt_inv s -> Forall part_ok parts -> parts <> [] \/ is_dir mode = true ->
  wp False (create_existing (abs_path parts) mode uid gid) s (cleared parts mode s) (same_shape s).
Proof.
  intros Hinv Hok Hdir. unfold create_existing. apply wp_bind, (wp_tree_lookup _ s Hinv parts Hok). intros o Hj.
  destruct o as [i|].
  2:{ apply wp_ret. assert (forall j, ~ twalk s parts j) as Hno by (intros j Hw; by apply Hj in Hw).
      split; [|done]. apply cut_same; [done|done|]. by apply gone_not_walk. }
  pose proof (proj1 (Hj i) eq_refl) as Hi. destruct (twalk_node s Hinv parts i Hi) as (x & Hx).
  apply wp_bind, (wp_tree_node _ s i x Hx). destruct (ti_inode _ _ (proj1 Hinv) i x Hx) as [Hval _].
  apply wp_bind, (wp_get_inode _ s Hinv _ Hval). intros inode.
  assert (is_dir mode = false ->
    wp False (_ ← remove (abs_path parts); mret false) s (cleared parts mode s) (same_shape s)) as Hrm.
  { intros Hd. destruct Hdir as [Hne|]; [|congruence]. destruct (remove_run s parts Hinv Hok) as (s1 & H1 & Hcut).
    apply wp_bind. unfold wp. rewrite H1. by apply cleared_of_cut. }
  destruct (is_dir mode) eqn:Hd.
  - destruct (is_dir (i_mode inode)); [|done]. rewrite bool_decide_true by (by apply (twalk_name s parts i)).
    apply wp_bind. match goal with |- context [if ?b then update_inode ?k ?f else _] =>
      destruct (maybe_update_run s b k f Hinv Hval) as (s1 & H1 & Hs1) end.
    unfold wp at 1. rewrite H1. apply wp_ret. split; [done|]. by exists i.
  - specialize (Hrm eq_refl). case_bool_decide; [done|]. by case_match.
Qed.

Lemma same_shape_trans s1 s2 s3 : same_shape s1 s2 -> same_shape s2 s3 -> same_shape s1 s3.
Proof. unfold same_shape. intuition congruence. Qed.

Lemma wp_quiet_from {A} pan (m : M A) s s1 (Q : A -> Formatter -> Prop) :
  quiet m -> pan \/ (m s1).1 <> Panic -> same_shape s s1 -> (forall a s2, same_shape s s2 -> Q a s2) ->
  wp pan m s1 Q (same_shape s).
Proof.
  intros Hm Hp Hs HQ. apply wp_quiet; [done|done| |]; intros; [apply HQ|]; by eapply same_shape_trans.
Qed.

(** The last two steps: the inode joins the table, the entry the tree. *)
Lemma create_commit pan s s1 ps name p child_inode ranges :
  fmt_inv s -> Forall part_ok (ps ++ [name]) -> (forall j, ~ twalk s (ps ++ [name]) j) ->
  zlen (fm_inodes s) < u32_max -> twalk s ps p -> same_shape s s1 ->
  wp pan
    (_ ← modify (fun s => set_fm_inodes (fm_inodes s ++ [child_inode]) s);
     child_inode_num ← gets (fun s => u32 (zlen (fm_inodes s)));
     tree_add_child p (assign_node_ranges
        {| n_inode := child_inode_num; n_name := name; n_children := []; n_parent := None;
           n_blocks := None; n_additional_blocks := []; n_link := None |} ranges)) s1
    (fun _ s' => grown (ps ++ [name]) 1 s s' /\ exists j, twalk s' (ps ++ [name]) j) (same_shape s).
Proof.
  intros Hinv Hok Hfree Hroom Hp Hs1. apply wp_bind. unfold wp at 1, modify. apply wp_bind, wp_gets.
  set (s2 := set_fm_inodes _ s1).
  assert (fm_tree s2 = fm_tree s /\ length (fm_inodes s2) = S (length (fm_inodes s))) as [Ht2 Hl2].
  { destruct Hs1 as [Ht Hl]. unfold s2. destruct s1. simpl in *. rewrite length_app, Hl. simpl. split; [done|lia]. }
  assert (fmt_inv s2) as Hinv2.
  { destruct Hinv as [[Hwf Hu Hr Hparts Hino] Hmax]. unfold fmt_inv, zlen in *. rewrite Ht2, Hl2.
    split; [split; [done..|]|lia]. intros i x Hx. destruct (Hino i x Hx) as [H1 H2]. unfold valid_inode in *.
    split; [lia|]. intros l Hlk. specialize (H2 l Hlk). lia. }
  assert (u32 (zlen (fm_inodes s2)) = zlen (fm_inodes s2)) as ->.
  { apply u32_small. destruct Hinv2 as [_ ?]. pose proof (zlen_nonneg (fm_inodes s2)). unfold_ranges. lia. }
  match goal with |- wp _ (tree_add_child p ?x) _ _ _ =>
    destruct (tree_add_child_run s2 ps p x) as (s3 & H3 & Hinv3 & Hi3 & _ & Hw3); [done| |by rewrite Ht2|by rewrite Ht2|] end.
  { apply Forall_app in Hok as [_ Hname]. apply Forall_cons_1 in Hname as [Hname _].
    split; [done|]. split; [done|]. split; [|done]. unfold valid_inode, zlen. simpl. lia. }
  unfold wp. rewrite H3. split; [|eexists; apply Hw3; by right]. split; [done|rewrite Hi3; lia| |].
  - intros q j _ Hw. apply Hw3. left. by rewrite Ht2.
  - intros q j Hw. apply Hw3 in Hw as [Hw|[_ ->]]; [left; by rewrite Ht2 in Hw|]. right. exists []. by rewrite app_nil_r.
Qed.

(** A creation without data of its own: nothing in it can panic. *)
Definition plain_directory (mode : Z) (xattrs : option (list (list Z * list Z))) : Prop :=
  is_dir mode = true /\ default [] xattrs = [].

(** Every step of [create_node] before the last two leaves the shape alone. *)
Lemma create_node_run pan s ps name mode lnk ts data uid gid xattrs :
  pan \/ plain_directory mode xattrs ->
  fmt_inv s -> Forall part_ok (ps ++ [name]) -> (forall j, ~ twalk s (ps ++ [name]) j) ->
  zlen (fm_inodes s) < u32_max ->
  wp pan (create_node (abs_path (ps ++ [name])) mode lnk ts data uid gid xattrs) s
    (fun _ s' => grown (ps ++ [name]) 1 s s' /\ exists j, twalk s' (ps ++ [name]) j) (same_shape s).
Proof.
  intros Hpan Hinv Hok Hfree Hroom. unfold create_node.
  pose proof Hok as Hok'. apply Forall_app in Hok' as [Hps Hname]. apply Forall_cons_1 in Hname as [Hname _].
  destruct (parent_basename ps name Hname) as [Hpar Hbase]. rewrite Hpar, Hbase.
  apply wp_bind, (wp_tree_lookup _ s Hinv ps Hps). intros po Hjp.
  apply wp_bind, wp_lift; [right; apply ok_or_no_panic| |done]. intros p Hop. destruct po as [p'|]; [|done]. injection Hop as ->.
  pose proof (proj1 (Hjp p) eq_refl) as Hp. destruct (twalk_node s Hinv ps p Hp) as (np & Hnp).
  apply wp_bind, (wp_tree_node _ s p np Hnp). destruct (ti_inode _ _ (proj1 Hinv) p np Hnp) as [Hpval _].
  apply wp_bind, (wp_get_inode _ s Hinv _ Hpval). intros pinode.
  destruct (MAX_LINKS <=? i_links_count pinode); [done|].
  apply wp_bind, wp_quiet_from; [apply quiet_create_xattrs| |done|].
  { destruct Hpan as [|[_ ->]]; [by left|by right]. }
  intros child_inode s1 Hs1. apply wp_bind, wp_quiet_from; [unfold FileTimestamps_default; quiet| |done|].
  { right. destruct ts; [done|]. unfold FileTimestamps_default, now. rewrite M_bind_eq. by destruct (fm_clock s1 _). }
  intros ts' s2 Hs2. apply wp_bind, wp_quiet_from; [quiet| |done|].
  { destruct Hpan as [|[-> _]]; [by left|]. right. unfold create_directory. rewrite M_bind_eq.
    pose proof (fmt_inv_shape s s2 Hs2 Hinv) as Hinv2. destruct Hs2 as [_ Hl2].
    match goal with |- context [update_inode ?k ?f s2] =>
      destruct (update_inode_run s2 Hinv2 k f) as (s3 & -> & _); [by rewrite Hl2|done] end. }
  intros [inode' ranges] s3 Hs3.
  by apply create_commit.
Qed.

(** The outcome of [create]: within the limits of [grown], and a directory is
    made without touching what exists. *)
Definition created (parts : list (list Z)) (mode : Z) (s s' : Formatter) : Prop :=
  grown parts (length parts) s s' /\ (is_dir mode = true -> forall q j, twalk s q j -> twalk s' q j).

Lemma created_same parts mode s s' : fmt_inv s -> same_shape s s' -> created parts mode s s'.
Proof. intros Hinv Hs. split; [by apply grown_same|]. destruct Hs as [-> _]. done. Qed.

(** A path has at least a byte per component. *)
Lemma abs_path_length parts : (length parts < S (S (length (abs_path parts))))%nat.
Proof.
  destruct parts as [|p ps]; [simpl; lia|]. unfold abs_path.
  assert (forall l, (length l <= length (concat (map (cons SLASH) l)))%nat) as H; [|specialize (H (p :: ps)); lia].
  induction l as [|x l IH]; simpl; [lia|]. rewrite length_app. lia.
Qed.

Lemma abs_path_parent_ne ps name : Forall part_ok (ps ++ [name]) -> abs_path ps <> abs_path (ps ++ [name]).
Proof.
  intros Hok H. pose proof Hok as Hok'. apply Forall_app in Hok' as [Hps _].
  pose proof (components_abs_path ps Hps) as H1. rewrite H, components_abs_path in H1 by done.
  injection H1 as H1. apply (f_equal length) in H1. rewrite length_app in H1. simpl in H1. lia.
Qed.

Lemma not_under_parent ps name : ~ under (ps ++ [name]) ps.
Proof. intros (post & H). apply (f_equal length) in H. rewrite !length_app in H. simpl in H. lia. Qed.

(** From the cleared path on: the parents, then the entry. *)
Lemma created_step s s1 s2 s3 ps name mode n :
  cut (gone (ps ++ [name])) s s1 -> (is_dir mode = true -> s1 = s) ->
  (forall j, ~ twalk s1 (ps ++ [name]) j) ->
  grown ps (length ps) s1 s2 -> (forall q j, twalk s1 q j -> twalk s2 q j) ->
  grown (ps ++ [name]) n s2 s3 -> (n <= 1)%nat -> created (ps ++ [name]) mode s s3.
Proof.
  intros Hcut Hd Hfree G2 A2 G3 Hn.
  assert (ps ++ [name] <> []) as Hne by (by destruct ps).
  pose proof (grown_trans ps (ps ++ [name]) _ _ _ _ _ ltac:(by exists [name]) G2 G3 (or_intror A2)) as G13.
  pose proof (grown_trans (ps ++ [name]) (ps ++ [name]) 0 _ _ _ _ ltac:(by exists []; rewrite app_nil_r)
    (grown_cut _ 0 _ _ Hcut Hne) G13 (or_introl eq_refl)) as [I L K N].
  split; [split; [done|rewrite length_app; simpl; lia|done|done]|].
  intros Hmode q j Hw. rewrite <- (Hd Hmode) in Hw. apply (gr_kept _ _ _ _ G3); [|by apply A2].
  intros (post & ->). apply walk_app_inv in Hw as (z & Hz & _). by apply (Hfree z).
Qed.

Lemma create_at_run pan fuel : forall s parts mode lnk ts data uid gid xattrs,
  pan \/ plain_directory mode xattrs -> (length parts < fuel)%nat -> fmt_inv s -> Forall part_ok parts -> parts <> [] \/ is_dir mode = true ->
  zlen (fm_inodes s) + Z.of_nat (length parts) <= u32_max ->
  wp pan (create_at fuel (abs_path parts) mode lnk ts data uid gid xattrs) s
    (fun _ s' => created parts mode s s' /\ exists j, twalk s' parts j) (created parts mode s).
Proof.
  induction fuel as [|fuel IH]; intros s parts mode lnk ts data uid gid xattrs Hpan Hfuel Hinv Hok Hdir Hroom; [lia|].
  cbn [create_at]. pose proof (created_same parts mode s s Hinv ltac:(done)) as Hsame.
  apply wp_bind, wp_lift; [right; apply validate_no_panic| |done]. intros [] _. case_match; [done|]. case_match; [done|].
  apply wp_bind. eapply wp_mono; [apply wp_weaken, (create_existing_run s parts mode uid gid Hinv Hok Hdir)| |].
  2:{ intros s' Hs'. by apply created_same. }
  intros over s1 Hcl. destruct over.
  { destruct Hcl as [Hs1 (j & Hj)]. apply wp_ret. split; [by apply created_same|]. exists j. by destruct Hs1 as [-> _]. }
  destruct Hcl as (Hcut & Hd & Hfree). destruct parts as [|name ps _] using rev_ind.
  { exfalso. apply (Hfree (root (fm_tree s1))). constructor. }
  pose proof Hok as Hok'. apply Forall_app in Hok' as [Hps Hname]. apply Forall_cons_1 in Hname as [Hname _].
  rewrite (proj1 (parent_basename ps name Hname)). rewrite bool_decide_false by (by apply abs_path_parent_ne).
  rewrite length_app in Hroom, Hfuel. simpl in Hroom, Hfuel. pose proof Hcut as [Hinv1 _ Hl1 _].
  assert (is_dir (make_mode S_IFDIR 0x1ED) = true) as Hdm by done.
  apply wp_bind. eapply wp_mono; [apply IH; [by right|lia|done|done|by right|]| |].
  - unfold zlen in *. lia.
  - intros [] s2 [[G2 A2] _]. specialize (A2 Hdm). pose proof (gr_inv _ _ _ _ G2) as Hinv2.
    pose proof (gr_inodes _ _ _ _ G2).
    eapply wp_mono; [apply create_node_run; [done|done|done| |]| |].
    + intros j Hj. apply (gr_new _ _ _ _ G2) in Hj as [Hj|Hu]; [by apply (Hfree j)|by apply not_under_parent in Hu].
    + unfold zlen in *. lia.
    + intros [] s3 [G3 He]. split; [|done]. by apply (created_step s s1 s2 s3 ps name mode 1).
    + intros s3 Hs3. apply (created_step s s1 s2 s3 ps name mode 1); try done. by apply grown_same.
  - intros s2 [G2 A2]. specialize (A2 Hdm). pose proof (gr_inv _ _ _ _ G2) as Hinv2.
    apply (created_step s s1 s2 s2 ps name mode 1); try done. by apply grown_same.
Qed.

(** *** The recursion over the parents ends *)

Lemma M_bind_ext {A B} (m m' : M A) (f g : A -> M B) s :
  m s = m' s -> (forall a s', f a s' = g a s') -> (m ≫= f) s = (m' ≫= g) s.
Proof. intros Hm Hf. rewrite !M_bind_eq, Hm. destruct (m' s) as [[a|e|] s1]; auto. Qed.

Lemma trim_end_length p : (length (trim_end_slash p) <= length p)%nat.
Proof.
  unfold trim_end_slash. rewrite length_reverse, <- (length_reverse p).
  induction (reverse p) as [|c l IH]; simpl; [lia|]. case_match; simpl; lia.
Qed.

(** A parent is the root, or shorter than the path. *)
Lemma parent_shorter path : parent_of path = ROOT \/ (length (parent_of path) < length path)%nat.
Proof.
  unfold parent_of. case_bool_decide; [by left|]. pose proof (trim_end_length path).
  destruct (rfind_slash (trim_end_slash path)) as [[|k]|] eqn:Hr; [by left| |by left]. right.
  unfold rfind_slash in Hr. destruct (list_find _ _) as [[i c]|] eqn:Hf; [|done]. injection Hr as Hr.
  apply list_find_Some in Hf as (Hl & _). apply lookup_lt_Some in Hl. rewrite length_reverse in Hl.
  rewrite length_take. lia.
Qed.

Definition same_run {A} (m m' : M A) : Prop := forall s, m s = m' s.

Lemma create_at_parent f1 f2 path mode lnk ts data uid gid xattrs :
  (parent_of path <> path -> forall mode lnk ts data uid gid xattrs,
     same_run (create_at f1 (parent_of path) mode lnk ts data uid gid xattrs)
       (create_at f2 (parent_of path) mode lnk ts data uid gid xattrs)) ->
  same_run (create_at (S f1) path mode lnk ts data uid gid xattrs)
    (create_at (S f2) path mode lnk ts data uid gid xattrs).
Proof.
  intros Hrec s. cbn [create_at]. apply M_bind_ext; [done|]. intros [] s1. case_match; [done|]. case_match; [done|].
  apply M_bind_ext; [done|]. intros over s2. destruct over; [done|]. apply M_bind_ext; [|done].
  destruct (decide (parent_of path = path)) as [Hp|Hp].
  - by rewrite bool_decide_true.
  - rewrite bool_decide_false by done. by apply Hrec.
Qed.

(** Fuel beyond two more turns than bytes changes nothing. *)
Lemma create_fuel n : forall path f1 f2 mode lnk ts data uid gid xattrs,
  (length path <= n)%nat -> (S (S (length path)) <= f1)%nat -> (S (S (length path)) <= f2)%nat ->
  same_run (create_at f1 path mode lnk ts data uid gid xattrs) (create_at f2 path mode lnk ts data uid gid xattrs).
Proof.
  assert (forall f1 f2 mode lnk ts data uid gid xattrs,
    same_run (create_at (S f1) ROOT mode lnk ts data uid gid xattrs)
      (create_at (S f2) ROOT mode lnk ts data uid gid xattrs)) as Hroot.
  { intros. apply create_at_parent. intros H. exfalso. by apply H. }
  induction n as [|n IH]; intros path f1 f2 mode lnk ts data uid gid xattrs Hn H1 H2;
    (destruct f1 as [|[|f1]]; [lia|lia|]); (destruct f2 as [|[|f2]]; [lia|lia|]); apply create_at_parent;
    intros _ *; destruct (parent_shorter path) as [->|Hlt]; try apply Hroot.
  - lia.
  - apply IH; lia.
Qed.

(** ** Sequences of operations *)

Lemma remove_children_run s parts :
  fmt_inv s -> Forall part_ok parts ->
  wp False (remove_children (abs_path parts)) s
    (fun _ s' => cut (below parts) s s') (fun s' => s' = s).
Proof.
  intros Hinv Hok. unfold remove_children. apply wp_bind, wp_gets. unfold remove_depth. cbn [remove_inner].
  apply wp_bind, (wp_tree_lookup _ s Hinv parts Hok). intros o Hj. destruct o as [i|].
  2:{ apply wp_ret, cut_same; [done|done|]. intros q j Hw (c & post & ->).
      apply walk_app_inv in Hw as (z & Hz & _). by apply Hj in Hz. }
  pose proof (proj1 (Hj i) eq_refl) as Hi. destruct (twalk_node s Hinv parts i Hi) as (x & Hx).
  apply wp_bind, (wp_tree_node _ s i x Hx). apply wp_bind.
  destruct (node_is_dir_run s i x Hinv Hx) as (d & Hd). unfold wp at 1. rewrite Hd. destruct d; [|done].
  cbn [negb andb]. apply wp_bind. destruct (child_names_run s i x Hinv Hx) as (names & Hn & Hnames).
  unfold wp at 1. rewrite Hn. apply wp_bind. eapply wp_mono;
    [apply (remove_below_run (length (nodes (fm_tree s))) s i x parts names); [apply remove_inner_spec|done..|lia|done|done]| |done].
  intros [] s' Hcut. by apply wp_ret.
Qed.

(** The public operations, on canonical absolute paths. *)
Inductive operation : Type :=
| OpCreate (parts : list (list Z)) (mode : Z) (link : option (list Z)) (ts : option FileTimestamps)
    (data : option Reader) (uid gid : option Z) (xattrs : option (list (list Z * list Z)))
| OpLink (link_parts target_parts : list (list Z))
| OpRemove (parts : list (list Z))
| OpRemoveChildren (parts : list (list Z))
| OpSetPermissions (parts : list (list Z)) (mode : Z)
| OpSetOwner (parts : list (list Z)) (uid gid : Z).

Definition run_operation (o : operation) : M unit :=
  match o with
  | OpCreate parts mode lnk ts data uid gid xattrs => create (abs_path parts) mode lnk ts data uid gid xattrs
  | OpLink lp tp => link (abs_path lp) (abs_path tp)
  | OpRemove parts => remove (abs_path parts)
  | OpRemoveChildren parts => remove_children (abs_path parts)
  | OpSetPermissions parts mode => set_permissions (abs_path parts) mode
  | OpSetOwner parts uid gid => set_owner (abs_path parts) uid gid
  end.

(** Paths have proper components; nothing but a directory is created at the
    root, and no link. *)
Definition operation_ok (o : operation) : Prop :=
  match o with
  | OpCreate parts mode _ _ _ _ _ _ => Forall part_ok parts /\ (parts <> [] \/ is_dir mode = true)
  | OpLink lp tp => Forall part_ok lp /\ lp <> [] /\ Forall part_ok tp
  | OpRemove parts | OpRemoveChildren parts | OpSetPermissions parts _ | OpSetOwner parts _ _ =>
      Forall part_ok parts
  end.

(** Inodes an operation may add. *)
Definition operation_cost (o : operation) : nat :=
  match o with OpCreate parts _ _ _ _ _ _ _ => length parts | _ => 0%nat end.

Lemma set_inode_run s parts (f : Inode -> Inode) :
  fmt_inv s -> Forall part_ok parts ->
  wp False (found ← tree_lookup (abs_path parts);
            idx ← lift (ok_or found (NotFound (abs_path parts)));
            n ← tree_node idx; update_inode (n_inode n) f) s (fun _ => same_shape s) (fun s' => s' = s).
Proof.
  intros Hinv Hok. apply wp_bind, (wp_tree_lookup _ s Hinv parts Hok). intros o Hj.
  apply wp_bind, wp_lift; [right; apply ok_or_no_panic| |done]. intros i Hoi. destruct o as [i'|]; [|done].
  injection Hoi as ->. pose proof (proj1 (Hj i) eq_refl) as Hi. destruct (twalk_node s Hinv parts i Hi) as (x & Hx).
  apply wp_bind, (wp_tree_node _ s i x Hx). destruct (ti_inode _ _ (proj1 Hinv) i x Hx) as [Hval _].
  destruct (update_inode_run s Hinv _ f Hval) as (s1 & H1 & Hs1). unfold wp. by rewrite H1.
Qed.

(** One operation, successful or not, keeps the invariant. *)
Lemma run_operation_inv s o :
  fmt_inv s -> operation_ok o -> (2 <= length (fm_inodes s))%nat ->
  zlen (fm_inodes s) + Z.of_nat (operation_cost o) <= u32_max ->
  let post s' := fmt_inv s' /\
    (length (fm_inodes s) <= length (fm_inodes s') <= length (fm_inodes s) + operation_cost o)%nat in
  wp True (run_operation o) s (fun _ => post) post.
Proof.
  intros Hinv Hok Htwo Hroom post. assert (post s) as Hs by (split; [done|lia]).
  assert (forall s', same_shape s s' -> post s') as Hshape.
  { intros s' Hs'. split; [by eapply fmt_inv_shape|]. destruct Hs' as [_ ->]. lia. }
  assert (forall d s', cut d s s' -> post s') as Hcut by (intros d s' [? ? ? ?]; split; [done|lia]).
  destruct o; cbn [run_operation operation_ok operation_cost] in *.
  - destruct Hok as [Hp Hd]. unfold create.
    eapply wp_mono; [apply create_at_run; [by left|apply abs_path_length|done..]| |]; [intros [] s' [[[] _] _]|intros s' [[] _]]; by split.
  - destruct Hok as (Hl & Hne & Ht). destruct link_parts as [|name ps _] using rev_ind; [done|].
    eapply wp_mono; [apply wp_weaken, link_run; [done..|unfold valid_inode, ROOT_INODE; lia]| |].
    + intros [] s' (Hi & Hlen & _). split; [done|lia].
    + by intros s' ->.
  - destruct (remove_run s parts Hinv Hok) as (s' & Hr & Hc). unfold wp. rewrite Hr. eauto.
  - eapply wp_mono; [by apply wp_weaken, remove_children_run| |]; [intros [] s' Hc; eauto|by intros s' ->].
  - eapply wp_mono; [by apply wp_weaken, set_inode_run| |]; [intros []; exact Hshape|by intros s' ->].
  - eapply wp_mono; [by apply wp_weaken, set_inode_run| |]; [intros []; exact Hshape|by intros s' ->].
Qed.

(** A run of the builder: operations one after the other, each of which may
    fail but not panic. *)
Inductive steps : Formatter -> list operation -> Formatter -> Prop :=
| steps_nil s : steps s [] s
| steps_cons s o r s1 ops s2 :
    operation_ok o -> run_operation o s = (r, s1) -> r <> Panic -> steps s1 ops s2 -> steps s (o :: ops) s2.

Definition total_cost (ops : list operation) : nat := sum_list_with operation_cost ops.

Lemma steps_inv s ops s' :
  steps s ops s' -> fmt_inv s -> (2 <= length (fm_inodes s))%nat ->
  zlen (fm_inodes s) + Z.of_nat (total_cost ops) <= u32_max -> fmt_inv s'.
Proof.
  induction 1 as [|s o r s1 ops s2 Ho Hrun Hr Hsteps IH]; intros Hinv Htwo Hroom; [done|].
  unfold total_cost in *. cbn [sum_list_with] in Hroom.
  pose proof (run_operation_inv s o Hinv Ho Htwo ltac:(lia)) as H. unfold wp in H. rewrite Hrun in H.
  unfold zlen in *. destruct r as [[]|e|]; [| |done]; destruct H as [Hinv1 Hl1]; apply IH; try done; lia.
Qed.

Lemma initial_inv opts uuid clock : fmt_inv (initial_formatter opts uuid clock).
Proof.
  split; [|by vm_compute]. simpl. split.
  - apply FileTree_new_wf.
  - apply new_names_unique.
  - done.
  - intros p c x (n & Hn & Hc). apply FileTree_new_node in Hn as (_ & Hn & _). rewrite Hn in Hc. by apply not_elem_of_nil in Hc.
  - intros [|[|i]] x Hx; [|done..]. injection Hx as <-. simpl. unfold valid_inode, ROOT_INODE. split; [lia|done].
Qed.

Lemma with_options_inv opts uuid clock s :
  with_options opts uuid clock = Ok s -> fmt_inv s /\ (10 <= length (fm_inodes s) <= 11)%nat.
Proof.
  unfold with_options. destruct (check_options opts); cbn [mbind res_bind]; [|done..].
  set (s0 := initial_formatter _ _ _). pose proof (initial_inv opts uuid clock) as Hinv. fold s0 in Hinv.
  assert (length (fm_inodes s0) = 10%nat) as Hl by done.
  assert (wp True start_image s0 (fun _ s' => fmt_inv s' /\ (10 <= length (fm_inodes s') <= 11)%nat) (fun _ => True)) as H.
  { unfold start_image. apply wp_bind, wp_gets. apply wp_bind. unfold seek_to_block.
    assert (same_shape s0 s0) as Hs0 by done.
    eapply wp_mono; [apply wp_quiet_from; [quiet|by left|exact Hs0|]| |done].
    { intros ? s1 Hs1. exact Hs1. }
    intros [] s1 Hs1. apply wp_bind. eapply wp_mono; [apply wp_quiet_from; [apply quiet_initialize_journal|by left|exact Hs1|]| |done].
    { intros ? s2 Hs2. exact Hs2. }
    intros [] s2 Hs2. pose proof (fmt_inv_shape _ _ Hs2 Hinv) as Hinv2. destruct Hs2 as [_ Hl2].
    change LOST_AND_FOUND with (abs_path [drop 1 LOST_AND_FOUND]).
    eapply wp_mono; [apply (create_at_run _ _ s2 [drop 1 LOST_AND_FOUND]); [by left|simpl; lia|done| |by left|]| |done].
    - constructor; [|done]. by apply (bool_decide_unpack _); vm_compute.
    - unfold zlen. rewrite Hl2, Hl. by vm_compute.
    - intros [] s3 [[[I3 L3 _ _] _] _]. rewrite Hl2, Hl in L3. simpl in L3. split; [done|lia]. }
  unfold wp in H. destruct (start_image s0) as [[[]|e|] s1]; [|done..]. intros [= <-]. done.
Qed.

(** ** Properties *)

(** C8: The builder keeps its invariant.  From a new image on, after any
    sequence of creations, links, removals and attribute changes on canonical
    paths, failed ones included, the tree is a tree with distinct and
    well-formed names, and every node refers to inodes of the table.  Excluded
    are hard links at the root path and creations of anything but a directory
    there, which do break it, and sequences that need more inodes than their
    32-bit numbers allow. *)
Theorem builder_invariant (opts : FormatOptions) (uuid : list Z) (clock : nat -> Z * Z)
    (ops : list operation) (s0 s : Formatter)
    (Hnew : with_options opts uuid clock = Ok s0) (Hsteps : steps s0 ops s)
    (Hroom : 11 + Z.of_nat (total_cost ops) <= u32_max) :
  fmt_inv s.
Proof.
  destruct (with_options_inv opts uuid clock s0 Hnew) as [Hinv Hl].
  apply (steps_inv s0 ops s Hsteps Hinv); unfold zlen; lia.
Qed.

(** C28: A removal ends, never fails or panics, and makes exactly the paths of
    the removed entry and below it unreachable; every other path leads where it
    led, and the inode table keeps its size. *)
Theorem removal_exact (s : Formatter) (parts : list (list Z))
    (Hinv : fmt_inv s) (Hparts : Forall part_ok parts) (Hne : parts <> []) :
  exists s', remove (abs_path parts) s = (Ok tt, s') /\ fmt_inv s' /\
    length (fm_inodes s') = length (fm_inodes s) /\
    forall q j, twalk s' q j <-> twalk s q j /\ ~ under parts q.
Proof.
  destruct (remove_run s parts Hinv Hparts) as (s' & Hr & [Hi _ Hl Hw]). exists s'.
  split; [done|]. split; [done|]. split; [done|]. unfold gone in Hw. by destruct parts.
Qed.

(** C30: A hard link either fails and changes nothing, or makes the link path lead
    to an entry of the target's inode and leaves every path outside it alone; it
    never panics. *)
Theorem link_effect (s : Formatter) (ps : list (list Z)) (name : list Z) (tp : list (list Z))
    (Hinv : fmt_inv s) (Hlink : Forall part_ok (ps ++ [name])) (Htarget : Forall part_ok tp)
    (Htable : 2 <= zlen (fm_inodes s)) :
  (exists e, link (abs_path (ps ++ [name])) (abs_path tp) s = (Err e, s)) \/
  (exists s', link (abs_path (ps ++ [name])) (abs_path tp) s = (Ok tt, s') /\ linked (ps ++ [name]) tp s s').
Proof.
  pose proof (link_run s ps name tp Hinv Hlink Htarget) as H. unfold wp in H.
  assert (valid_inode (length (fm_inodes s)) ROOT_INODE) as Hr by (unfold valid_inode, ROOT_INODE, zlen in *; lia).
  specialize (H Hr). destruct (link _ _ s) as [[[]|e|] s']; [right; by eexists|left; subst s'; by eexists|done].
Qed.

(** C29: Creating an entry leads the path to an entry, keeps every path that is
    not below it, and adds none but the directories on the way; a failure keeps
    these bounds too.  A directory is created without removing anything, and,
    without attributes, without ever panicking. *)
Theorem creation_effect (s : Formatter) (parts : list (list Z)) (mode : Z) (lnk : option (list Z))
    (ts : option FileTimestamps) (data : option Reader) (uid gid : option Z)
    (xattrs : option (list (list Z * list Z)))
    (Hinv : fmt_inv s) (Hparts : Forall part_ok parts) (Hne : parts <> [])
    (Hroom : zlen (fm_inodes s) + Z.of_nat (length parts) <= u32_max) :
  match create (abs_path parts) mode lnk ts data uid gid xattrs s with
  | (Ok _, s') => created parts mode s s' /\ exists j, twalk s' parts j
  | (Err _, s') => created parts mode s s'
  | (Panic, _) => ~ plain_directory mode xattrs
  end.
Proof.
  pose proof (fun pan Hpan => create_at_run pan (S (S (length (abs_path parts)))) s parts mode lnk ts data uid gid
    xattrs Hpan (abs_path_length parts) Hinv Hparts (or_introl Hne) Hroom) as H. unfold create, wp in *.
  destruct (create_at _ _ _ _ _ _ _ _ _ s) as [[u|e|] s']; [by apply (H True); left..|].
  intros Hp. by apply (H False); right.
Qed.

(** The recursion of [create] over the parents ends for every path, canonical
    or not: more turns than two per byte of the path never change its outcome. *)
Theorem creation_ends (fuel : nat) (path : list Z) (mode : Z) (lnk : option (list Z))
    (ts : option FileTimestamps) (data : option Reader) (uid gid : option Z)
    (xattrs : option (list (list Z * list Z))) (s : Formatter)
    (Hfuel : (S (S (length path)) <= fuel)%nat) :
  create_at fuel path mode lnk ts data uid gid xattrs s = create path mode lnk ts data uid gid xattrs s.
Proof. unfold create. apply (create_fuel (length path)); lia. Qed.




(** *** Witnesses *)

Definition name_a : list Z := [97].
Definition name_b : list Z := [98].
Definition mkdir (parts : list (list Z)) : operation :=
  OpCreate parts (Z.lor S_IFDIR 0x1ED) None None None None None None.
Definition mkfile (parts : list (list Z)) : operation :=
  OpCreate parts (Z.lor S_IFREG 0x1A4) None None None None None None.

Lemma part_ok_a : Forall part_ok [name_a].
Proof. constructor; [|done]. by apply (bool_decide_unpack _); vm_compute. Qed.
Lemma part_ok_b : Forall part_ok [name_b].
Proof. constructor; [|done]. by apply (bool_decide_unpack _); vm_compute. Qed.

Definition sample_start : Formatter := initial_formatter sample_fresh (zeros 16) (fun n => (Z.of_nat n, 0)).

(** A builder with the file [/a]. *)
Definition sample_file : Formatter := (run_operation (mkfile [name_a]) sample_start).2.

Lemma sample_file_inv : fmt_inv sample_file /\ length (fm_inodes sample_file) = 11%nat.
Proof.
  assert ((run_operation (mkfile [name_a]) sample_start).1 = Ok tt) as Hr by (vm_compute; reflexivity).
  assert (length (fm_inodes sample_file) = 11%nat) as Hl by (vm_compute; reflexivity).
  split; [|done]. unfold sample_file in *.
  pose proof (run_operation_inv sample_start (mkfile [name_a]) (initial_inv _ _ _)) as H. unfold wp in H.
  destruct (run_operation (mkfile [name_a]) sample_start) as [r s']. simpl in Hr. subst r.
  apply H; [split; [apply part_ok_a|by left]|simpl; lia|by vm_compute].
Qed.

Lemma builder_invariant_witness :
  exists s0 s, with_options sample_fresh (zeros 16) (fun n => (Z.of_nat n, 0)) = Ok s0 /\
    steps s0 [mkdir [name_a]] s /\ fmt_inv s.
Proof.
  fold sample_image. assert (on_sample (run_operation (mkdir [name_a])) = Ok tt) as Hr by (vm_compute; reflexivity).
  unfold on_sample in Hr. destruct sample_image as [s0|e|] eqn:Hs; [|discriminate Hr..].
  destruct (run_operation (mkdir [name_a]) s0) as [r s] eqn:Hrun. simpl in Hr. subst r.
  assert (steps s0 [mkdir [name_a]] s) as Hst.
  { econstructor; [split; [apply part_ok_a|by left]|exact Hrun|done|constructor]. }
  exists s0, s. split; [done|]. split; [done|].
  apply (builder_invariant sample_fresh (zeros 16) (fun n => (Z.of_nat n, 0)) [mkdir [name_a]] s0 s); [exact Hs|exact Hst|].
  vm_compute. discriminate.
Defined.

Lemma removal_exact_witness :
  exists s', remove (abs_path [name_a]) sample_file = (Ok tt, s') /\ fmt_inv s' /\
    length (fm_inodes s') = length (fm_inodes sample_file) /\
    forall q j, twalk s' q j <-> twalk sample_file q j /\ ~ under [name_a] q.
Proof. apply (removal_exact sample_file [name_a]); [apply sample_file_inv|exact part_ok_a|done]. Defined.

Lemma link_effect_witness :
  (exists e, link (abs_path ([] ++ [name_b])) (abs_path [name_a]) sample_file = (Err e, sample_file)) \/
  (exists s', link (abs_path ([] ++ [name_b])) (abs_path [name_a]) sample_file = (Ok tt, s') /\
     linked ([] ++ [name_b]) [name_a] sample_file s').
Proof.
  apply (link_effect sample_file [] name_b [name_a]); [apply sample_file_inv|exact part_ok_b|exact part_ok_a|].
  unfold zlen. rewrite (proj2 sample_file_inv). lia.
Defined.

Lemma creation_effect_witness :
  match create (abs_path [name_a]) S_IFDIR None None None None None None sample_start with
  | (Ok _, s') => created [name_a] S_IFDIR sample_start s' /\ exists j, twalk s' [name_a] j
  | (Err _, s') => created [name_a] S_IFDIR sample_start s'
  | (Panic, _) => ~ plain_directory S_IFDIR None
  end.
Proof.
  apply (creation_effect sample_start [name_a] S_IFDIR None None None None None None);
    [apply initial_inv|exact part_ok_a|done|]. vm_compute. discriminate.
Defined.

Lemma creation_ends_witness :
  create_at 100 path_a S_IFDIR None None None None None None sample_start =
  create path_a S_IFDIR None None None None None None sample_start.
Proof. apply (creation_ends 100 path_a). simpl. lia. Defined.
