(* ===== verification/Flex.v ===== *)
(** Placement of the shared metadata run: [flex_metadata_layout] of
    [common/disk-image/src/ext4/formatter.rs].

    The inode tables and bitmaps of all groups that hold data form one run
    behind the data.  Moving the run past a superblock copy can make the file
    system longer, a longer file system needs more groups, and more groups a
    longer run: the code iterates until nothing moves. *)

From S2P Require Import Prelude Bytes Types Layout FileTree Extent Geometry.

(** ** Definitions *)

Record FlexMetadataLayout : Type := mkFlexMetadataLayout {
  fl_block_groups : Z;
  fl_inode_table_offset : Z;
  fl_bitmap_offset : Z;
  fl_data_size : Z;
  fl_total_groups : Z;
  fl_gd_block_count : Z;
  fl_gd_area_blocks : Z;
  fl_size_bytes : Z
}.

(** One turn of the [loop]: the next [start] and [block_groups], or the result. *)
Definition flex_turn (bs size inode_table_size_per_group minimum_disk_size_blocks : Z) (st : Z * Z) :
    option (Z * Z + FlexMetadataLayout) :=
  let '(start, block_groups) := st in
  let inode_table_blocks := block_groups * inode_table_size_per_group in
  let metadata_blocks := inode_table_blocks + block_groups * 2 in
  let data_end := u64 (start + metadata_blocks) in
  let total_groups := total_groups_for_data_end bs size data_end minimum_disk_size_blocks in
  let gd_area_blocks := group_descriptor_area_blocks_for_groups bs total_groups in
  adjusted_start ← metadata_run_start_after_static_ranges bs start metadata_blocks total_groups gd_area_blocks;
  let adjusted_data_end := u64 (adjusted_start + metadata_blocks) in
  let adjusted_block_groups :=
    Z.max block_groups (u32 (u64 (adjusted_data_end - 1) / blocks_per_group bs + 1)) in
  let adjusted_total_groups :=
    total_groups_for_data_end bs size adjusted_data_end minimum_disk_size_blocks in
  let adjusted_gd_area_blocks := group_descriptor_area_blocks_for_groups bs adjusted_total_groups in
  Some
    (if (adjusted_start =? start) && (adjusted_block_groups =? block_groups)
        && (adjusted_total_groups =? total_groups) && (adjusted_gd_area_blocks =? gd_area_blocks)
     then
       inr {| fl_block_groups := adjusted_block_groups;
              fl_inode_table_offset := u32 adjusted_start;
              fl_bitmap_offset := u32 (u64 (adjusted_start + inode_table_blocks));
              fl_data_size := u32 adjusted_data_end;
              fl_total_groups := adjusted_total_groups;
              fl_gd_block_count := descriptor_blocks_for_groups bs adjusted_total_groups;
              fl_gd_area_blocks := adjusted_gd_area_blocks;
              fl_size_bytes := u64 (u64 (adjusted_total_groups * blocks_per_group bs) * bs) |}
     else inl (adjusted_start, adjusted_block_groups)).

(** At most [fuel] turns. *)
Fixpoint flex_turns {S T} (fuel : positive) (turn : S -> option (S + T)) (s : S) : option (S + T) :=
  match fuel with
  | xH => turn s
  | xO p =>
      out ← flex_turns p turn s;
      match out with inl s' => flex_turns p turn s' | inr t => Some (inr t) end
  | xI p =>
      out ← turn s;
      match out with
      | inl s' =>
          out ← flex_turns p turn s';
          match out with inl s' => flex_turns p turn s' | inr t => Some (inr t) end
      | inr t => Some (inr t)
      end
  end.

(** More turns than [start] and [block_groups] can grow ([flex_layout_spec]). *)
Definition FLEX_FUEL : positive := 4294967296.

Definition flex_metadata_layout (bs size start_min block_groups inode_table_size_per_group
    minimum_disk_size_blocks : Z) : option FlexMetadataLayout :=
  out ← flex_turns FLEX_FUEL (flex_turn bs size inode_table_size_per_group minimum_disk_size_blocks)
          (start_min, block_groups);
  match out with inr layout => Some layout | inl _ => None end.

(** ** Turns *)

(** A loop whose turns raise a measure has done [fuel] of them or is left. *)
Lemma turns_grow {S T} (turn : S -> option (S + T)) (I : S -> Prop) (m : S -> Z) (Q : T -> Prop) :
  (forall s, I s -> exists out, turn s = Some out /\ match out with inl s' => I s' /\ m s < m s' | inr t => Q t end) ->
  forall fuel s, I s -> exists out : S + T, flex_turns fuel turn s = Some out /\ match out with inl s' => I s' /\ m s + Zpos fuel <= m s' | inr t => Q t end.
Proof.
  intros Ht fuel. induction fuel as [p IH|p IH|]; intros s Hs; cbn [flex_turns].
  - destruct (Ht s Hs) as ([s1|t1] & -> & H1); cbn [mbind option_bind]; [|by eexists].
    destruct (IH s1 ltac:(apply H1)) as ([s2|t2] & -> & H2); cbn [mbind option_bind]; [|by eexists].
    destruct (IH s2 ltac:(apply H2)) as ([s3|t3] & -> & H3); (eexists; split; [reflexivity|]); [|done].
    split; [apply H3|lia].
  - destruct (IH s Hs) as ([s2|t2] & -> & H2); cbn [mbind option_bind]; [|by eexists].
    destruct (IH s2 ltac:(apply H2)) as ([s3|t3] & -> & H3); (eexists; split; [reflexivity|]); [|done].
    split; [apply H3|lia].
  - destruct (Ht s Hs) as ([s1|t1] & -> & H1); (eexists; split; [reflexivity|]); [|done]. split; [apply H1|lia].
Qed.

(** ** Groups *)

(** The number of groups of a file system that must hold [data_end] blocks. *)
Definition groups_for (size data_end minimum : Z) : Z :=
  (Z.max (Z.max (Z.max data_end minimum) (div_ceil size 4096)) 1 - 1) / 32768 + 1.

(** The most groups that 32-bit block numbers address. *)
Definition MAX_GROUPS : Z := 131071.

Lemma groups_for_bounds size data_end minimum :
  data_end <= MAX_GROUPS * 32768 -> minimum <= MAX_GROUPS * 32768 -> size <= MAX_GROUPS * 134217728 ->
  1 <= groups_for size data_end minimum <= MAX_GROUPS /\
  Z.max (Z.max data_end minimum) (div_ceil size 4096) <= groups_for size data_end minimum * 32768.
Proof.
  intros Hd Hm Hs. unfold groups_for, MAX_GROUPS in *. pose proof (div_ceil_spec size 4096 ltac:(lia)).
  set (n := Z.max _ 1). assert (1 <= n <= 131071 * 32768 /\ Z.max (Z.max data_end minimum) (div_ceil size 4096) <= n) by (unfold n; lia).
  pose proof (in_group (n - 1)). lia.
Qed.

Lemma total_groups_eq size data_end minimum :
  data_end <= MAX_GROUPS * 32768 -> minimum <= MAX_GROUPS * 32768 -> size <= MAX_GROUPS * 134217728 ->
  total_groups_for_data_end BLOCK_SIZE size data_end minimum = groups_for size data_end minimum.
Proof.
  intros Hd Hm Hs. destruct (groups_for_bounds size data_end minimum Hd Hm Hs) as [Hb _].
  unfold total_groups_for_data_end. change (blocks_per_group BLOCK_SIZE) with 32768. unfold BLOCK_SIZE.
  apply u32_small. fold (groups_for size data_end minimum). unfold_ranges. unfold MAX_GROUPS in Hb. lia.
Qed.

Lemma area_bounds groups :
  1 <= groups <= MAX_GROUPS ->
  32 <= group_descriptor_area_blocks_for_groups BLOCK_SIZE groups <= 1024.
Proof.
  intros Hg. destruct (descriptor_area groups ltac:(unfold MAX_GROUPS in Hg; lia)) as [_ ->].
  pose proof (Z.div_pos (groups - 1) 128 ltac:(lia) ltac:(lia)). lia.
Qed.

(** ** A place that is always free *)

(** No group from 20000 up to 59049 has a superblock copy. *)
Lemma wide_gap g : 20000 <= g < 59049 -> has_sparse_super g = false.
Proof.
  intros Hg. destruct (has_sparse_super g) eqn:E; [|done]. exfalso.
  apply has_sparse_super_pow in E; [|unfold is_u32; lia]. destruct E as [->|(k & Hk & E)]; [lia|].
  assert (forall b j, 3 <= b -> 0 <= j -> b ^ j <= 19999 -> 59049 <= b ^ (j + 1) -> g <> b ^ k) as Hno.
  { intros b j Hb Hj Hlo Hhi ->. destruct (Z_le_gt_dec k j).
    - pose proof (Z.pow_le_mono_r b k j ltac:(lia) ltac:(lia)). lia.
    - pose proof (Z.pow_le_mono_r b (j + 1) k ltac:(lia) ltac:(lia)). lia. }
  destruct E as [E|[E|E]]; revert E;
    [apply (Hno 3 9) | apply (Hno 5 6) | apply (Hno 7 5)]; first [lia | by vm_compute].
Qed.

(** The first block of group 20000: 2.4 TiB into the image. *)
Definition DATA_LIMIT : Z := 655360000.

Lemma free_place blocks total area : blocks <= 1279557632 -> clear_run blocks total area DATA_LIMIT.
Proof.
  intros Hb b Hr (_ & Hs & _). unfold DATA_LIMIT in Hr. rewrite wide_gap in Hs; [done|]. pose proof (in_group b). lia.
Qed.

(** ** The search *)

Section Search.
Context (size inode_blocks minimum start0 groups0 : Z).
Hypothesis (Hsize : size <= MAX_GROUPS * 134217728).
Hypothesis (Hinodes : 0 <= inode_blocks <= 2048).
Hypothesis (Hminimum : minimum <= MAX_GROUPS * 32768).
Hypothesis (Hstart0 : 0 <= start0).
Hypothesis (Hgroups0 : 1 <= groups0 <= MAX_GROUPS).

Definition run_blocks (groups : Z) : Z := groups * inode_blocks + groups * 2.

(** What every turn keeps: the run is not past the free place, and there are
    only as many groups as the caller or the run asks for. *)
Record searching (start groups : Z) : Prop := {
  se_start : start0 <= start <= DATA_LIMIT;
  se_groups : groups0 <= groups <= MAX_GROUPS;
  se_needed : groups = groups0 \/ (groups - 1) * 32768 < start + run_blocks groups
}.

(** A placement that no turn changes. *)
Record placed (L : FlexMetadataLayout) (start : Z) : Prop := {
  pl_searching : searching start (fl_block_groups L);
  pl_offset : fl_inode_table_offset L = start;
  pl_bitmaps : fl_bitmap_offset L = start + fl_block_groups L * inode_blocks;
  pl_end : fl_data_size L = start + run_blocks (fl_block_groups L);
  pl_inside : fl_data_size L <= fl_block_groups L * 32768;
  pl_total : fl_total_groups L = groups_for size (fl_data_size L) minimum;
  pl_gdt : fl_gd_block_count L = descriptor_blocks_for_groups BLOCK_SIZE (fl_total_groups L);
  pl_area : fl_gd_area_blocks L = group_descriptor_area_blocks_for_groups BLOCK_SIZE (fl_total_groups L);
  pl_size : fl_size_bytes L = fl_total_groups L * 134217728;
  pl_clear : clear_run (run_blocks (fl_block_groups L)) (fl_total_groups L) (fl_gd_area_blocks L) start
}.

Lemma run_bounds start groups :
  searching start groups ->
  2 * groups <= run_blocks groups <= 268697600 /\ start + run_blocks groups <= MAX_GROUPS * 32768 /\
  (start + run_blocks groups - 1) / 32768 + 1 <= MAX_GROUPS.
Proof.
  intros [Hs Hg _]. unfold run_blocks, MAX_GROUPS, DATA_LIMIT in *.
  assert (groups * inode_blocks <= 131071 * 2048) by (apply Z.mul_le_mono_nonneg; lia).
  pose proof (in_group (start + (groups * inode_blocks + groups * 2) - 1)). nia.
Qed.

Definition turn_result (start groups : Z) (out : Z * Z + FlexMetadataLayout) : Prop :=
  match out with
  | inl (start', groups') => searching start' groups' /\ start + groups < start' + groups'
  | inr L => placed L start
  end.

Lemma flex_turn_spec start groups :
  searching start groups ->
  exists out, flex_turn BLOCK_SIZE size inode_blocks minimum (start, groups) = Some out /\
    turn_result start groups out.
Proof.
  intros Hse. destruct (run_bounds start groups Hse) as (Hrun & Hend & _).
  pose proof Hse as [Hs Hg Hn].
  unfold flex_turn. change (groups * inode_blocks + groups * 2) with (run_blocks groups).
  change (blocks_per_group BLOCK_SIZE) with 32768.
  rewrite (u64_small (start + _)) by (unfold_ranges; unfold MAX_GROUPS in *; lia).
  rewrite total_groups_eq by done.
  destruct (groups_for_bounds size (start + run_blocks groups) minimum Hend Hminimum Hsize) as [Ht Hmax].
  set (total := groups_for size (start + run_blocks groups) minimum) in *.
  pose proof (area_bounds total Ht) as Ha. set (area := group_descriptor_area_blocks_for_groups _ total) in *.
  destruct (metadata_run_start_spec (run_blocks groups) total area ltac:(lia) ltac:(lia) start ltac:(lia))
    as (s & -> & Hle & Hclear & Hmin). cbn [mbind option_bind].
  specialize (Hmin DATA_LIMIT ltac:(lia) (free_place (run_blocks groups) total area ltac:(lia))).
  rewrite (u64_small (s + _)) by (unfold_ranges; unfold DATA_LIMIT in *; lia).
  rewrite (u64_small (s + _ - 1)) by (unfold_ranges; unfold DATA_LIMIT, MAX_GROUPS in *; lia).
  pose proof (in_group (s + run_blocks groups - 1)) as Hgrp.
  set (q := (s + run_blocks groups - 1) / 32768) in *.
  assert (0 <= q < MAX_GROUPS) as Hq by (unfold DATA_LIMIT, MAX_GROUPS in *; lia).
  rewrite (u32_small (q + 1)) by (unfold_ranges; unfold MAX_GROUPS in *; lia).
  eexists. split; [reflexivity|]. destruct (_ && _ && _ && _) eqn:E.
  - rewrite !andb_true_iff, !Z.eqb_eq in E. destruct E as (((-> & Hmaxg) & Et) & Ea).
    cbn [turn_result]. rewrite Hmaxg, Et. fold area. unfold MAX_GROUPS, DATA_LIMIT in *.
    pose proof (Z.mul_nonneg_nonneg groups inode_blocks ltac:(lia) ltac:(lia)).
    assert (groups * inode_blocks <= run_blocks groups) by (unfold run_blocks; lia).
    set (n := groups * inode_blocks) in *. set (r := run_blocks groups) in *.
    assert (is_u32 start /\ is_u32 (start + r) /\ is_u32 (start + n) /\ is_u64 (start + n) /\
            is_u64 (total * 32768) /\ is_u64 (total * 32768 * 4096)) as (? & ? & ? & ? & ? & ?)
      by (clearbody n r total; unfold_ranges; lia).
    constructor; cbn [fl_block_groups fl_inode_table_offset fl_bitmap_offset fl_data_size
      fl_total_groups fl_gd_block_count fl_gd_area_blocks fl_size_bytes]; fold n r;
      change BLOCK_SIZE with 4096; rewrite ?(u64_small (total * 32768)), ?u64_small, ?u32_small by done; try done; lia.
  - cbn [turn_result]. assert (s <> start \/ Z.max groups (q + 1) <> groups) as Hmove.
    { destruct (decide (s = start)) as [->|]; [|by left]. right. intros Heq. rewrite Heq in E.
      rewrite total_groups_eq, !Z.eqb_refl in E by done. done. }
    split; [|lia]. constructor; [unfold MAX_GROUPS in *; lia..|].
    destruct (Z.max_spec groups (q + 1)) as [[? ->]|[? ->]]; [right|].
    { assert (run_blocks groups <= run_blocks (q + 1)) by (apply Z.add_le_mono; apply Z.mul_le_mono_nonneg_r; lia). lia. }
    destruct Hn as [->|Hn]; [by left|right; unfold run_blocks in *; lia].
Qed.

(** The search ends: every turn that goes on raises [start + groups], which
    the free place bounds. *)
Lemma flex_layout_spec :
  start0 <= DATA_LIMIT ->
  exists L start, placed L start /\ flex_metadata_layout BLOCK_SIZE size start0 groups0 inode_blocks minimum = Some L.
Proof.
  intros Hs. assert (searching start0 groups0) as Hse by (constructor; [lia|lia|by left]).
  destruct (turns_grow (flex_turn BLOCK_SIZE size inode_blocks minimum)
    (fun st => searching st.1 st.2) (fun st => st.1 + st.2) (fun L => exists start, placed L start))
    with FLEX_FUEL (start0, groups0) as ([[s g]|L] & Hrun & Hout); [|done| |].
  - intros [s g] H. destruct (flex_turn_spec s g H) as ([[s' g']|L] & Ht & Hr); simpl in Hr;
      eexists; (split; [exact Ht|]); [done|]. by exists s.
  - cbn [fst snd] in Hout. destruct Hout as [[H1 H2 _] Hlt]. unfold FLEX_FUEL, DATA_LIMIT, MAX_GROUPS in *. lia.
  - destruct Hout as [start Hp]. exists L, start. split; [done|]. unfold flex_metadata_layout. by rewrite Hrun.
Qed.
End Search.
