(* ===== verification/Close.v ===== *)
(** Finalisation of an image: [close] of
    [common/disk-image/src/ext4/formatter.rs] and the helpers only it calls.

    [close] commits the directories, places the shared metadata run, and writes
    the resize inode, the inode table, the bitmaps, the group descriptors and
    the superblock with its backups.  The writes go to the builder's file in the
    order of the code. *)

From stdpp Require Import gmap.
From S2P Require Import Prelude Bytes Types Checksum Layout RustPath RustSort Errors Disk Tables Dir FileTree Extent.
From S2P Require Import Geometry Flex Formatter.

Definition RESIZE_INODE_NUMBER : Z := 7.
Definition EXT2_DIND_BLOCK : Z := 13.
Definition EXT2_NDIR_BLOCKS : Z := 12.

(** A loop over [l] that carries a value. *)
Fixpoint fold_in {A S} (f : S -> A -> M S) (s : S) (l : list A) : M S :=
  match l with
  | [] => mret s
  | a :: l => s ← f s a; fold_in f s l
  end.

(** ** Directories *)

(** The [while let Some(..) = queue.pop_front()] loop: the nodes with their
    parents, in breadth-first order.  Every turn takes one node of the tree. *)
Fixpoint bfs_loop (fuel : nat) (t : FileTree) (queue : list (option nat * nat)) :
    res FormatError (list (option nat * nat)) :=
  match fuel with
  | O => Panic
  | S fuel =>
      match queue with
      | [] => Ok []
      | (parent, idx) :: queue =>
          n ← node t idx;
          let children := if bool_decide (is_Some (n_link n)) then [] else n_children n in
          rest ← bfs_loop fuel t (queue ++ map (fun child => (Some idx, child)) children);
          Ok ((parent, idx) :: rest)
      end
  end.

Definition bfs_order (t : FileTree) : res FormatError (list (option nat * nat)) :=
  bfs_loop (S (length (nodes t))) t [(None, root t)].

Definition inode_of (s : Formatter) (n : Z) : res FormatError Inode := or_panic (fm_inodes s !! inode_index n).

(** The body of the loop over the sorted children. *)
Definition child_entry (s : Formatter) (st : list Z * Z) (child_idx : nat) : res FormatError (list Z * Z) :=
  child ← node (fm_tree s) child_idx;
  let child_ino := n_inode child in
  effective ← inode_of s (default child_ino (n_link child));
  if i_links_count effective =? 0 then Ok st
  else
    own ← inode_of s (Z.max child_ino 1);
    let link_mode := if bool_decide (is_Some (n_link child)) then Some (i_mode effective) else None in
    write_dir_entry (n_name child) child_ino (i_mode own) (n_link child) link_mode (fm_block_size s) st.

(** [sort_by_key] on the inode numbers. *)
Definition inode_cmp (t : FileTree) (a b : nat) : comparison :=
  match nodes t !! a, nodes t !! b with
  | Some x, Some y => n_inode x ?= n_inode y
  | _, _ => Eq
  end.

(** The bytes of one directory. *)
Definition directory_bytes (s : Formatter) (parent_opt : option nat) (node_idx : nat) : res FormatError (list Z) :=
  n ← node (fm_tree s) node_idx;
  let inode_num := n_inode n in
  inode ← inode_of s inode_num;
  st ← write_dir_entry DOT inode_num (i_mode inode) None None (fm_block_size s) ([], fm_block_size s);
  parent_ino ← match parent_opt with
               | Some pidx => p ← node (fm_tree s) pidx; Ok (n_inode p)
               | None => Ok inode_num
               end;
  parent ← inode_of s parent_ino;
  st ← write_dir_entry DOTDOT parent_ino (i_mode parent) None None (fm_block_size s) st;
  let sorted_children := sort_by (inode_cmp (fm_tree s)) (n_children n) in
  st ← foldM (child_entry s) st sorted_children;
  st ← finish_dir_entry_block (fm_block_size s) st;
  Ok st.1.

Definition set_node (idx : nat) (f : FileTreeNode -> FileTreeNode) : M unit := fun s =>
  match nodes (fm_tree s) !! idx with
  | Some n => (Ok tt, set_fm_tree {| nodes := <[idx := f n]> (nodes (fm_tree s)); root := root (fm_tree s) |} s)
  | None => (Panic, s)
  end.

Definition commit_directory (entry : option nat * nat) : M unit :=
  let '(parent_opt, node_idx) := entry in
  n ← tree_node node_idx;
  let inode_num := n_inode n in
  inode ← get_inode inode_num;
  if i_links_count inode =? 0 then mret tt
  else if bool_decide (is_Some (n_link n)) then mret tt
  else if negb (is_dir (i_mode inode)) then mret tt
  else
    dir_buf ← (fun s => (directory_bytes s parent_opt node_idx, s));
    ranges ← write_aligned_payload_bytes dir_buf;
    _ ← update_inode inode_num (set_file_size (zlen dir_buf));
    _ ← set_node node_idx (fun n => assign_node_ranges n ranges);
    inode ← get_inode inode_num;
    inode ← place_extents inode ranges;
    update_inode inode_num (fun _ => inode).

Definition commit_directories : M unit :=
  order ← (fun s => (bfs_order (fm_tree s), s));
  forM_ order commit_directory.

(** ** Resize inode *)

Definition allocate_resize_inode_dind_block : M Z :=
  bs ← gets fm_block_size;
  ranges ← write_aligned_payload_bytes (zeros bs);
  range ← lift (ok_or (head ranges) InsufficientSpaceForGroupDescriptorBlocks);
  mret (br_start range).

Definition resize_inode (t : Z * Z) (bs dind_block reserved_gdt_blocks backup_group_count : Z) : Inode :=
  let addr_per_block := bs / 4 in
  let inode_size := (addr_per_block * addr_per_block + addr_per_block + EXT2_NDIR_BLOCKS) * bs in
  let owned_blocks := u32 (1 + u32 (reserved_gdt_blocks * u32 (1 + backup_group_count))) in
  let inode :=
    set_file_size inode_size
      (set_times t.1 t.2
         (set_i_extra_isize EXTRA_ISIZE
            (set_i_links_count 1 (set_i_mode (Z.lor S_IFREG 0x180 (* 0o600 *)) Inode_default)))) in
  let inode := set_i_blocks_lo (u32 (owned_blocks * (bs / 512))) inode in
  set_i_block (put_u32 (i_block inode) (EXT2_DIND_BLOCK * 4) dind_block) inode.

Definition configure_resize_inode (dind_block reserved_gdt_blocks backup_group_count : Z) : M unit :=
  t ← now;
  bs ← gets fm_block_size;
  update_inode RESIZE_INODE_NUMBER
    (fun _ => resize_inode t bs dind_block reserved_gdt_blocks backup_group_count).

(** [buf[off..off + 4].copy_from_slice(&v.to_le_bytes())]. *)
Definition put_pointer (buf : list Z) (off v : Z) : res FormatError (list Z) :=
  if off + 4 <=? zlen buf then Ok (put_u32 buf off v) else Panic.

(** The block of pointers to the backups of one reserved descriptor block. *)
Definition backup_pointers (bs gdt_blk : Z) (backup_groups : list Z) : res FormatError (list Z) :=
  foldM (fun buf (e : nat * Z) =>
    let '(idx, group) := e in
    put_pointer buf (Z.of_nat idx * 4) (u32 (gdt_blk + u32 (group * blocks_per_group bs))))
    (zeros bs) (imap pair backup_groups).

(** One turn of the loop over the reserved descriptor blocks. *)
Definition reserve_block (descriptor_blocks : Z) (backup_groups : list Z) (dind_buf : list Z) (rsv_off : Z) :
    M (list Z) :=
  bs ← gets fm_block_size;
  let gdt_blk := u32 (1 + descriptor_blocks + rsv_off) in
  let dind_index := u32 (descriptor_blocks + rsv_off) in
  dind_buf ← lift (put_pointer dind_buf (dind_index * 4) gdt_blk);
  gdt_buf ← lift (backup_pointers bs gdt_blk backup_groups);
  _ ← seek_to_block gdt_blk;
  _ ← file_write_all gdt_buf;
  mret dind_buf.

Definition write_resize_inode_blocks (dind_block descriptor_blocks reserved_gdt_blocks : Z)
    (backup_groups : list Z) : M unit :=
  bs ← gets fm_block_size;
  dind_buf ← fold_in (reserve_block descriptor_blocks backup_groups) (zeros bs) (seqZ 0 reserved_gdt_blocks);
  _ ← seek_to_block dind_block;
  _ ← file_write_all dind_buf;
  seek_to_block (u32 (dind_block + 1)).

(** ** Inode table *)

(** One buffer serves all inodes. *)
Definition write_inode (inode_buf : list Z) (inode : Inode) : M (list Z) :=
  let inode_buf := Inode_write_to inode inode_buf in
  _ ← file_write_all inode_buf;
  mret inode_buf.

Definition commit_inode_table (block_groups inodes_per_group : Z) : M Z :=
  _ ← align_to_block;
  p ← pos;
  bs ← gets fm_block_size;
  let inode_table_offset := p / bs in
  inodes ← gets fm_inodes;
  _ ← fold_in write_inode (zeros INODE_SIZE) inodes;
  let table_size := u64 (u64 (INODE_SIZE * block_groups) * inodes_per_group) in
  let written := zlen inodes * INODE_SIZE in
  let rest := u64 (table_size - written) in
  _ ← (if 0 <? rest then
         let zero_block := zeros bs in
         let full_blocks := rest / bs in
         _ ← forM_ (seqZ 0 full_blocks) (fun _ => file_write_all zero_block);
         let remainder := rest mod bs in
         if 0 <? remainder then file_write_all (zeros remainder) else mret tt
       else mret tt);
  mret inode_table_offset.

(** ** Bitmaps of the groups that hold data *)

Definition mark_bit (bitmap : list Z) (i : Z) : list Z :=
  put_u8 bitmap (i / 8) (Z.lor (get_u8 bitmap (i / 8)) (Z.shiftl 1 (i mod 8))).

(** The bits below [data_size], with their number. *)
Definition data_bits (bs data_size group_start group_end : Z) : list Z * Z :=
  if group_end <=? data_size then (replicate (Z.to_nat bs) 0xFF, blocks_per_group bs)
  else if group_start <? data_size then
    fold_left (fun '(bitmap, used_blocks) i => (mark_bit bitmap i, u32 (used_blocks + 1)))
      (seqZ 0 (data_size - group_start)) (zeros bs, 0)
  else (zeros bs, 0).

Definition mark_static (st : list Z * Z) (i : Z) : list Z * Z :=
  let '(bitmap, used_blocks) := st in
  let was_set := Z.land (Z.shiftr (get_u8 bitmap (i / 8)) (i mod 8)) 1 in
  (mark_bit bitmap i, if was_set =? 0 then u32 (used_blocks + 1) else used_blocks).

(** The block bitmap of a group and its used blocks. *)
Definition block_bitmap (bs size data_size group : Z) (freed : list BlockRange) : res FormatError (list Z * Z) :=
  let group_start := u32 (group * blocks_per_group bs) in
  let group_end := u32 (group_start + blocks_per_group bs) in
  let st := data_bits bs data_size group_start group_end in
  let metadata_blocks := static_metadata_blocks_in_group bs size group in
  let st := fold_left mark_static (seqZ 0 (Z.min metadata_blocks (blocks_per_group bs))) st in
  foldM (fun (st : list Z * Z) range => clear_block_range_from_bitmap st.1 group_start group_end range st.2)
    st freed.

Record InodeUse : Type := mkInodeUse {
  iu_bitmap : list Z; iu_used : Z; iu_last : Z; iu_dirs : Z
}.

(** One turn of the loop over the inodes of a group. *)
Definition mark_inode (inodes : list Inode) (group inodes_per_group : Z) (u : InodeUse) (i : Z) :
    res FormatError InodeUse :=
  let ino := u32 (1 + group * inodes_per_group + i) in
  if u32 (zlen inodes) <? ino then Ok u
  else
    inode ← or_panic (inodes !! inode_index ino);
    if (10 <? ino) && (i_links_count inode =? 0) then Ok u
    else Ok {| iu_bitmap := mark_bit (iu_bitmap u) i; iu_used := u32 (iu_used u + 1); iu_last := u32 (i + 1);
               iu_dirs := if is_dir (i_mode inode) then u32 (iu_dirs u + 1) else iu_dirs u |}.

(** The inode bitmap of a group; the bits past the inodes are occupied. *)
Definition inode_bitmap (bs : Z) (inodes : list Inode) (group inodes_per_group : Z) : res FormatError InodeUse :=
  u ← foldM (mark_inode inodes group inodes_per_group)
        {| iu_bitmap := zeros bs; iu_used := 0; iu_last := 0; iu_dirs := 0 |} (seqZ 0 inodes_per_group);
  Ok {| iu_bitmap := fold_left (fun bitmap i => put_u8 bitmap i 0xFF)
                       (seqZ (inodes_per_group / 8) (bs - inodes_per_group / 8)) (iu_bitmap u);
        iu_used := iu_used u; iu_last := iu_last u; iu_dirs := iu_dirs u |}.

(** What the loops over the groups carry. *)
Record GroupTotals : Type := mkGroupTotals {
  gt_used_blocks : Z; gt_used_inodes : Z; gt_descriptors : list GroupDescriptor
}.

Definition data_group_descriptor (bs bitmap_offset inode_table_offset inode_table_size_per_group
    inodes_per_group group used_blocks : Z) (u : InodeUse) : GroupDescriptor :=
  let free_blocks := if used_blocks <=? blocks_per_group bs then blocks_per_group bs - used_blocks else 0 in
  let free_inodes := u32 (inodes_per_group - iu_used u) in
  let itable_unused := u32 (inodes_per_group - iu_last u) in
  let block_bitmap_lo := u32 (bitmap_offset + 2 * group) in
  {| gd_block_bitmap_lo := block_bitmap_lo;
     gd_inode_bitmap_lo := u32 (block_bitmap_lo + 1);
     gd_inode_table_lo := u32 (u32 inode_table_offset + group * inode_table_size_per_group);
     gd_free_blocks_count_lo := u16 free_blocks;
     gd_free_inodes_count_lo := u16 free_inodes;
     gd_used_dirs_count_lo := u16 (iu_dirs u);
     gd_flags := 0; gd_exclude_bitmap_lo := 0; gd_block_bitmap_csum_lo := 0; gd_inode_bitmap_csum_lo := 0;
     gd_itable_unused_lo := u16 itable_unused; gd_checksum := 0 |}.

Definition commit_data_group (L : FlexMetadataLayout) (freed : list BlockRange)
    (inodes_per_group bitmap_offset inode_table_offset inode_table_size_per_group : Z)
    (gt : GroupTotals) (group : Z) : M GroupTotals :=
  bs ← gets fm_block_size;
  blocks ← (fun s => (block_bitmap bs (fm_size s) (fl_data_size L) group freed, s));
  let '(bitmap, used_blocks) := (blocks : list Z * Z) in
  u ← (fun s => (inode_bitmap bs (fm_inodes s) group inodes_per_group, s));
  _ ← file_write_all (bitmap ++ iu_bitmap u);
  mret {| gt_used_blocks := u32 (gt_used_blocks gt + used_blocks);
          gt_used_inodes := u32 (gt_used_inodes gt + iu_used u);
          gt_descriptors := gt_descriptors gt ++
            [data_group_descriptor bs bitmap_offset inode_table_offset inode_table_size_per_group
               inodes_per_group group used_blocks u] |}.

(** ** Groups beyond the data *)

(** All bits set but those of the inodes. *)
Definition empty_inode_bitmap (bs inodes_per_group : Z) : list Z :=
  fold_left clear_bit (seqZ 0 (u16 inodes_per_group)) (replicate (Z.to_nat (blocks_per_group bs / 8)) 0xFF).

Definition blocks_in_extra_group (bs size total_groups group : Z) : Z :=
  if group =? u32 (total_groups - 1) then
    let rem := size / bs mod blocks_per_group bs in
    if rem =? 0 then blocks_per_group bs else u32 rem
  else blocks_per_group bs.

Definition extra_block_bitmap (bs used blocks_in_group : Z) (last : bool) : list Z :=
  let bitmap := fold_left mark_bit (seqZ 0 (Z.min used blocks_in_group)) (zeros (blocks_per_group bs / 8)) in
  if last && (blocks_in_group <? blocks_per_group bs)
  then fold_left mark_bit (seqZ blocks_in_group (blocks_per_group bs - blocks_in_group)) bitmap
  else bitmap.

(** Uninitialised tables need no bits on disk; the last group keeps its block
    bitmap. *)
Definition extra_group_descriptor (inodes_per_group it_offset bb_offset free_blocks_count : Z) (last : bool) :
    GroupDescriptor :=
  {| gd_block_bitmap_lo := bb_offset; gd_inode_bitmap_lo := u32 (bb_offset + 1); gd_inode_table_lo := it_offset;
     gd_free_blocks_count_lo := u16 free_blocks_count;
     gd_free_inodes_count_lo := u16 inodes_per_group;
     gd_used_dirs_count_lo := 0;
     gd_flags := if negb last then Z.lor bg_INODE_UNINIT bg_BLOCK_UNINIT else bg_INODE_UNINIT;
     gd_exclude_bitmap_lo := 0; gd_block_bitmap_csum_lo := 0; gd_inode_bitmap_csum_lo := 0;
     gd_itable_unused_lo := u16 inodes_per_group; gd_checksum := 0 |}.

Definition commit_extra_group (total_groups inodes_per_group inode_table_size_per_group : Z)
    (gt : GroupTotals) (group : Z) : M GroupTotals :=
  bs ← gets fm_block_size;
  size ← gets fm_size;
  let last := group =? u32 (total_groups - 1) in
  let blocks_in_group := blocks_in_extra_group bs size total_groups group in
  let group_start := u32 (group * blocks_per_group bs) in
  let metadata_blocks := Z.min (static_metadata_blocks_in_group bs size group) blocks_in_group in
  let used_empty_blocks := u32 (metadata_blocks + inode_table_size_per_group + 2) in
  let it_offset := u32 (group_start + metadata_blocks) in
  let bb_offset := u32 (it_offset + inode_table_size_per_group) in
  _ ← seek_to_block bb_offset;
  _ ← file_write_all (extra_block_bitmap bs used_empty_blocks blocks_in_group last);
  _ ← file_write_all (empty_inode_bitmap bs inodes_per_group);
  mret {| gt_used_blocks := u32 (gt_used_blocks gt + Z.min used_empty_blocks blocks_in_group);
          gt_used_inodes := gt_used_inodes gt;
          gt_descriptors := gt_descriptors gt ++
            [extra_group_descriptor inodes_per_group it_offset bb_offset
               (saturating_sub blocks_in_group used_empty_blocks) last] |}.

(** ** Descriptors and superblock *)

Definition stamp_descriptor (uuid : list Z) (group_nr : nat) (gd : GroupDescriptor) : GroupDescriptor :=
  set_gd_checksum (group_descriptor uuid (Z.of_nat group_nr) gd) gd.

Definition descriptor_table (uuid : list Z) (bs gd_block_count : Z) (descriptors : list GroupDescriptor) :
    res FormatError (list Z) :=
  put_table 0 (imap (stamp_descriptor uuid) descriptors) (zeros (gd_block_count * bs)).

(** [u32::trailing_zeros]. *)
Fixpoint trailing_zeros_from (fuel : nat) (v : Z) : Z :=
  match fuel with
  | O => 0
  | S fuel => if Z.odd v then 0 else 1 + trailing_zeros_from fuel (v / 2)
  end.
Definition trailing_zeros (v : Z) : Z := trailing_zeros_from 32 v.

(** The journal inode's block field as words, and the file size. *)
Definition journal_backup (journal_inode : Inode) : list Z :=
  map (fun i => get_u32 (i_block journal_inode) (4 * i)) (seqZ 0 15)
  ++ [i_size_hi journal_inode; i_size_lo journal_inode].

Definition volume_name (label : option (list Z)) : res FormatError (list Z) :=
  match label with
  | Some bytes => if zlen bytes <=? 16 then Ok (put_bytes (zeros 16) 0 bytes) else Panic
  | None => Ok (zeros 16)
  end.

(** The superblock of the finished image; the fields the code leaves alone have
    their default. *)
Definition final_superblock (bs total_groups inodes_per_group reserved_gdt_blocks : Z) (gt : GroupTotals)
    (uuid name journal_blocks : list Z) : SuperBlock :=
  let computed_inodes := total_groups * inodes_per_group in
  let blocks_count := Z.max (total_groups * blocks_per_group bs) (gt_used_blocks gt) in
  let total_free_blocks := saturating_sub blocks_count (gt_used_blocks gt) in
  let log_bs := trailing_zeros (bs / 1024) in
  {|
    sb_inodes_count := u32 computed_inodes; sb_blocks_count_lo := u32 blocks_count;
    sb_r_blocks_count_lo := 0; sb_free_blocks_count_lo := u32 total_free_blocks;
    sb_free_inodes_count := u32 (u32 computed_inodes - gt_used_inodes gt); sb_first_data_block := 0;
    sb_log_block_size := log_bs; sb_log_cluster_size := log_bs;
    sb_blocks_per_group := blocks_per_group bs; sb_clusters_per_group := blocks_per_group bs;
    sb_inodes_per_group := inodes_per_group; sb_mtime := 0; sb_wtime := 0; sb_mount_count := 0;
    sb_max_mount_count := 0; sb_magic := SUPERBLOCK_MAGIC; sb_state := 1; sb_errors := 1;
    sb_minor_rev_level := 0; sb_lastcheck := 0; sb_check_interval := 0; sb_creator_os := 0;
    sb_rev_level := 1; sb_def_resuid := 0; sb_def_resgid := 0; sb_first_ino := FIRST_INODE;
    sb_inode_size := u16 INODE_SIZE; sb_block_group_nr := 0;
    sb_feature_compat := Z.lor (Z.lor compat_HAS_JOURNAL compat_EXT_ATTR) compat_RESIZE_INODE;
    sb_feature_incompat := Z.lor (Z.lor incompat_FILETYPE incompat_EXTENTS) incompat_FLEX_BG;
    sb_feature_ro_compat :=
      Z.lor (Z.lor (Z.lor (Z.lor ro_compat_LARGE_FILE ro_compat_HUGE_FILE) ro_compat_SPARSE_SUPER)
        ro_compat_EXTRA_ISIZE) ro_compat_GDT_CSUM;
    sb_uuid := uuid; sb_volume_name := name; sb_last_mounted := zeros 64; sb_algorithm_usage_bitmap := 0;
    sb_prealloc_blocks := 0; sb_prealloc_dir_blocks := 0;
    sb_reserved_gdt_blocks := u16 reserved_gdt_blocks; sb_journal_uuid := zeros 16;
    sb_journal_inum := JOURNAL_INODE_NUMBER; sb_journal_dev := 0; sb_last_orphan := 0;
    sb_hash_seed := zeros 4; sb_def_hash_version := 0; sb_journal_backup_type := JOURNAL_BACKUP_BLOCKS;
    sb_desc_size := 0; sb_default_mount_opts := 0; sb_first_meta_bg := 0; sb_mkfs_time := 0;
    sb_journal_blocks := journal_blocks; sb_blocks_count_hi := u32 (Z.shiftr blocks_count 32);
    sb_r_blocks_count_hi := 0; sb_free_blocks_count_hi := u32 (Z.shiftr total_free_blocks 32);
    sb_min_extra_isize := EXTRA_ISIZE; sb_want_extra_isize := EXTRA_ISIZE; sb_flags := 0;
    sb_raid_stride := 0; sb_mmp_interval := 0; sb_mmp_block := 0; sb_raid_stripe_width := 0;
    sb_log_groups_per_flex := 31; sb_checksum_type := 0; sb_reserved_pad := 0; sb_kbytes_written := 0;
    sb_snapshot_inum := 0; sb_snapshot_id := 0; sb_snapshot_r_blocks_count := 0; sb_snapshot_list := 0;
    sb_error_count := 0; sb_first_error_time := 0; sb_first_error_ino := 0; sb_first_error_block := 0;
    sb_first_error_func := zeros 32; sb_first_error_line := 0; sb_last_error_time := 0;
    sb_last_error_ino := 0; sb_last_error_line := 0; sb_last_error_block := 0;
    sb_last_error_func := zeros 32; sb_mount_opts := zeros 64; sb_usr_quota_inum := 0;
    sb_grp_quota_inum := 0; sb_overhead_blocks := 0; sb_backup_bgs := zeros 2;
    sb_encrypt_algos := zeros 4; sb_encrypt_pw_salt := zeros 16; sb_lpf_ino := LOST_AND_FOUND_INODE;
    sb_prj_quota_inum := 0; sb_checksum_seed := 0; sb_wtime_hi := 0; sb_mtime_hi := 0;
    sb_mkfs_time_hi := 0; sb_lastcheck_hi := 0; sb_first_error_time_hi := 0; sb_last_error_time_hi := 0;
    sb_pad := zeros 2; sb_reserved := zeros 96; sb_checksum := 0
  |}.

(** ** [close] *)

(** Steps 1 to 3: the directories, the double-indirect block, the group layout
    and the place of the metadata run.  The result is the descriptor area the
    payload left room for, the double-indirect block, the block behind the data,
    the inodes per group and the layout. *)
Record Plan : Type := mkPlan {
  pn_allocated : Z; pn_dind_block : Z; pn_metadata_start : Z; pn_inodes_per_group : Z;
  pn_layout : FlexMetadataLayout
}.

Definition inode_table_size_per_group (bs inodes_per_group : Z) : Z := u32 (inodes_per_group * INODE_SIZE) / bs.

Definition minimum_disk_size (bs block_groups : Z) : Z :=
  if block_groups =? 1 then blocks_per_group bs
  else u32 (u32 (u32 (block_groups - 1) * blocks_per_group bs) + 1).

Definition plan_layout : M Plan :=
  allocated ← gets (fun s => group_descriptor_blocks (fm_block_size s) (fm_size s));
  resize_dind_block ← allocate_resize_inode_dind_block;
  _ ← modify (fun s => set_fm_size (Z.max (fm_size s) (f_len (fm_file s))) s);
  bs ← gets fm_block_size;
  current_blk ← current_block;
  inode_count ← gets (fun s => u32 (zlen (fm_inodes s)));
  groups ← lift (or_panic (optimize_block_group_layout bs current_blk inode_count));
  let '(block_groups, inodes_per_group) := (groups : Z * Z) in
  _ ← align_to_block;
  metadata_start ← current_block;
  size ← gets fm_size;
  layout ← lift (or_panic (flex_metadata_layout bs size metadata_start block_groups
    (inode_table_size_per_group bs inodes_per_group) (minimum_disk_size bs block_groups)));
  mret {| pn_allocated := allocated; pn_dind_block := resize_dind_block; pn_metadata_start := metadata_start;
          pn_inodes_per_group := inodes_per_group; pn_layout := layout |}.

(** [self.file.set_len] to the new size, at the old position. *)
Definition resize_image (size_bytes : Z) : M unit :=
  size ← gets fm_size;
  if negb (size =? size_bytes) then
    saved_pos ← pos;
    modify (fun s => set_fm_file (seek (set_len (fm_file s) size_bytes) saved_pos) (set_fm_size size_bytes s))
  else mret tt.

(** Steps 4 and 5: the inode table and the bitmaps of every group. *)
Definition commit_groups (p : Plan) (gaps : list BlockRange) : M GroupTotals :=
  let L := pn_layout p in
  let inodes_per_group := pn_inodes_per_group p in
  bs ← gets fm_block_size;
  let table_size := inode_table_size_per_group bs inodes_per_group in
  _ ← seek_to_block (fl_inode_table_offset L);
  inode_table_offset ← commit_inode_table (fl_block_groups L) inodes_per_group;
  _ ← align_to_block;
  bitmap_offset ← current_block;
  if negb (bitmap_offset =? fl_bitmap_offset L) then throw InsufficientSpaceForGroupDescriptorBlocks
  else
    freed ← gets (fun s => fm_deleted_blocks s ++ gaps);
    gt ← fold_in (commit_data_group L freed inodes_per_group bitmap_offset inode_table_offset table_size)
           {| gt_used_blocks := 0; gt_used_inodes := 0; gt_descriptors := [] |}
           (seqZ 0 (fl_block_groups L));
    fold_in (commit_extra_group (fl_total_groups L) inodes_per_group table_size) gt
      (seqZ (fl_block_groups L) (fl_total_groups L - fl_block_groups L)).

(** A backup copy: the superblock through the buffer of the last one, then the
    descriptor table in the block behind it. *)
Definition write_backup (sb : SuperBlock) (gd_table_buf : list Z) (sb_buf : list Z) (group : Z) : M (list Z) :=
  bs ← gets fm_block_size;
  let group_start := u32 (group * blocks_per_group bs) in
  let sb_buf := SuperBlock_write_to (set_sb_block_group_nr (u16 group) sb) sb_buf in
  _ ← seek_to_block group_start;
  _ ← file_write_all sb_buf;
  _ ← seek_to_block (u32 (group_start + 1));
  _ ← file_write_all gd_table_buf;
  mret sb_buf.

(** Steps 6 and 7: the descriptor table, the superblock and the backups. *)
Definition write_primary (p : Plan) (reserved_gdt_blocks : Z) (backup_groups : list Z) (gt : GroupTotals) : M unit :=
  let L := pn_layout p in
  bs ← gets fm_block_size;
  uuid ← gets fm_uuid;
  gd_table_buf ← lift (descriptor_table uuid bs (fl_gd_block_count L) (gt_descriptors gt));
  _ ← seek_to_block 1;
  _ ← file_write_all gd_table_buf;
  journal_inode ← get_inode JOURNAL_INODE_NUMBER;
  label ← gets fm_label;
  name ← lift (volume_name label);
  let sb := final_superblock bs (fl_total_groups L) (pn_inodes_per_group p) reserved_gdt_blocks gt uuid name
              (journal_backup journal_inode) in
  _ ← seek_to_block 0;
  _ ← file_write_all (zeros 1024);
  let sb_buf := SuperBlock_write_to sb (zeros 1024) in
  _ ← file_write_all sb_buf;
  _ ← file_write_all (zeros 2048);
  _ ← fold_in (write_backup sb gd_table_buf) sb_buf backup_groups;
  mret tt.

(** Everything behind the directories. *)
Definition write_image : M unit :=
  p ← plan_layout;
  let L := pn_layout p in
  _ ← resize_image (fl_size_bytes L);
  if pn_allocated p <? fl_gd_area_blocks L then throw InsufficientSpaceForGroupDescriptorBlocks
  else
    bs ← gets fm_block_size;
    gaps ← lift (or_panic (free_ranges_before_shifted_metadata bs (pn_metadata_start p)
      (fl_inode_table_offset L) (fl_total_groups L) (fl_gd_area_blocks L)));
    let reserved_gdt_blocks := u32 (fl_gd_area_blocks L - fl_gd_block_count L) in
    let backup_groups := backup_groups (fl_total_groups L) in
    _ ← configure_resize_inode (pn_dind_block p) reserved_gdt_blocks (zlen backup_groups);
    _ ← write_resize_inode_blocks (pn_dind_block p) (fl_gd_block_count L) reserved_gdt_blocks backup_groups;
    gt ← commit_groups p gaps;
    write_primary p reserved_gdt_blocks backup_groups gt.

Definition close : M unit := _ ← commit_directories; write_image.
