(* ===== verification/CloseBitmaps.v ===== *)
(** The bitmaps [close] writes: which bits of a group are set, and that the
    counts in the descriptors are the numbers of these bits. *)

From stdpp Require Import gmap.
From S2P Require Import Prelude Bytes Types Layout Errors FileTree Extent Geometry Formatter Close.

(** ** Counting *)

Definition count (P : Z -> bool) (lo n : Z) : Z := zlen (List.filter P (seqZ lo n)).

Section Count.
Implicit Types P Q : Z -> bool.

Lemma count_ext P Q lo n : (forall x, lo <= x < lo + n -> P x = Q x) -> count P lo n = count Q lo n.
Proof.
  intros H. unfold count. f_equal. apply filter_ext_in. intros x Hx.
  apply list_elem_of_In, elem_of_seqZ in Hx. apply H. lia.
Qed.

Lemma count_split P lo a b : 0 <= a -> 0 <= b -> count P lo (a + b) = count P lo a + count P (lo + a) b.
Proof. intros. unfold count. by rewrite seqZ_app, List.filter_app, zlen_app by lia. Qed.

Lemma count_bounds P lo n : 0 <= n -> 0 <= count P lo n <= n.
Proof.
  intros Hn. unfold count, zlen. pose proof (List.filter_length_le P (seqZ lo n)) as H.
  rewrite length_seqZ in H. lia.
Qed.

Lemma count_false lo n : count (fun _ => false) lo n = 0.
Proof. unfold count. induction (seqZ lo n); done. Qed.

Lemma count_true lo n : 0 <= n -> count (fun _ => true) lo n = n.
Proof.
  intros Hn. unfold count. assert (forall l : list Z, List.filter (fun _ => true) l = l) as ->.
  { induction l as [|a l IH]; [done|]. simpl. by rewrite IH. }
  unfold zlen. rewrite length_seqZ. lia.
Qed.

Lemma count_one P i : count P i 1 = if P i then 1 else 0.
Proof.
  unfold count. rewrite seqZ_cons by lia. change (seqZ (Z.succ i) (Z.pred 1)) with (@nil Z). simpl. by destruct (P i).
Qed.

(** One more element. *)
Lemma count_insert P Q lo n i :
  lo <= i < lo + n -> P i = false -> (forall x, lo <= x < lo + n -> Q x = P x || (x =? i)) ->
  count Q lo n = count P lo n + 1.
Proof.
  intros Hi HP HQ. replace n with ((i - lo) + (1 + (lo + n - i - 1))) by lia.
  rewrite !count_split by lia. replace (lo + (i - lo)) with i by lia. rewrite !count_one, HP.
  rewrite (HQ i) by lia. rewrite Z.eqb_refl, orb_true_r.
  rewrite (count_ext Q P lo (i - lo)), (count_ext Q P (i + 1)); [lia| |];
    intros x Hx; rewrite HQ by lia; replace (x =? i) with false by lia; apply orb_false_r.
Qed.

(** A window removed. *)
Lemma count_remove P Q lo n a b :
  lo <= a <= b -> b <= lo + n -> (forall x, lo <= x < lo + n -> Q x = P x && negb ((a <=? x) && (x <? b))) ->
  count Q lo n = count P lo n - count P a (b - a).
Proof.
  intros Ha Hb HQ. replace n with ((a - lo) + ((b - a) + (lo + n - b))) by lia.
  rewrite !count_split by lia. replace (lo + (a - lo)) with a by lia. replace (a + (b - a)) with b by lia.
  rewrite (count_ext Q P lo), (count_ext Q P b), (count_ext Q (fun _ => false) a), count_false; [lia| | |];
    intros x Hx; rewrite HQ by lia; zbool; by rewrite ?andb_true_r, ?andb_false_r.
Qed.
End Count.

(** ** Bits *)

Definition GROUP : Z := 32768.

(** A bitmap of one group, its set bits, and their number. *)
Record bitmap_is (P : Z -> bool) (bm : list Z) : Prop := {
  bi_len : zlen bm = 4096;
  bi_bytes : Forall is_u8 bm;
  bi_bits : forall o, 0 <= o < GROUP -> bit_at bm o = P o
}.

Lemma Forall_put_u8 bm o v : 0 <= o < zlen bm -> Forall is_u8 bm -> is_u8 v -> Forall is_u8 (put_u8 bm o v).
Proof.
  intros Ho Hb Hv. apply Forall_put; [done|]. by constructor.
Qed.

Lemma get_u8_byte bm o : Forall is_u8 bm -> is_u8 (get_u8 bm o).
Proof.
  intros Hb. unfold get_u8. rewrite nth_lookup. destruct (bm !! _) as [v|] eqn:E; simpl; [|unfold is_u8; lia].
  by apply (Forall_lookup_1 _ _ _ _ Hb) in E.
Qed.

Lemma mark_bit_spec bm i o :
  0 <= i -> i / 8 < zlen bm -> 0 <= o -> bit_at (mark_bit bm i) o = bit_at bm o || (o =? i).
Proof.
  intros Hi Hl Ho. unfold bit_at, mark_bit.
  pose proof (Z.mod_pos_bound i 8 ltac:(lia)). pose proof (Z.mod_pos_bound o 8 ltac:(lia)).
  pose proof (Z.div_mod i 8 ltac:(lia)). pose proof (Z.div_mod o 8 ltac:(lia)).
  rewrite get_put_u8 by (split || idtac; try apply Z.div_pos; lia).
  destruct (Z.eqb_spec (o / 8) (i / 8)) as [E|].
  - rewrite Z.lor_spec, Z.shiftl_1_l, Z.pow2_bits_eqb by lia. rewrite E. f_equal. lia.
  - replace (o =? i) with false; [by rewrite orb_false_r|]. symmetry. apply Z.eqb_neq. congruence.
Qed.

Lemma mark_bit_is P bm i :
  0 <= i < GROUP -> bitmap_is P bm -> bitmap_is (fun o => P o || (o =? i)) (mark_bit bm i).
Proof.
  intros Hi [Hl Hu Hb]. unfold GROUP in *. assert (0 <= i / 8 < 4096) as Hd.
  { split; [apply Z.div_pos|apply Z.div_lt_upper_bound]; lia. }
  pose proof (Z.mod_pos_bound i 8 ltac:(lia)). constructor.
  - unfold mark_bit, put_u8. by rewrite zlen_put.
  - apply Forall_put_u8; [lia|done|]. unfold is_u8. apply (lor_below 8); [lia|apply (get_u8_byte bm _ Hu)|].
    rewrite Z.shiftl_1_l. split; [apply Z.pow_nonneg; lia|apply Z.pow_lt_mono_r; lia].
  - intros o Ho. rewrite mark_bit_spec, Hb by (unfold GROUP in *; lia). done.
Qed.

Lemma bitmap_is_ext P Q bm : (forall o, 0 <= o < GROUP -> P o = Q o) -> bitmap_is P bm -> bitmap_is Q bm.
Proof. intros H [Hl Hu Hb]. constructor; [done|done|]. intros o Ho. by rewrite Hb, H. Qed.

Lemma zeros_is : bitmap_is (fun _ => false) (zeros 4096).
Proof.
  constructor; [done|by apply Forall_zeros|]. intros o Ho. unfold bit_at, get_u8. rewrite nth_lookup.
  unfold zeros. destruct (replicate _ 0 !! _) as [v|] eqn:E; [|apply Z.bits_0].
  apply lookup_replicate_1 in E as [-> _]. apply Z.bits_0.
Qed.

Lemma ones_is : bitmap_is (fun _ => true) (replicate 4096 0xFF).
Proof.
  constructor; [done|by apply Forall_replicate|]. intros o Ho. unfold bit_at, get_u8, GROUP in *. rewrite nth_lookup.
  rewrite lookup_replicate_2.
  - change (Z.testbit 255 (o mod 8) = true). change 255 with (Z.ones 8). pose proof (Z.mod_pos_bound o 8 ltac:(lia)).
    rewrite Z.testbit_ones_nonneg by lia. lia.
  - pose proof (Z.div_lt_upper_bound o 8 4096 ltac:(lia) ltac:(lia)). lia.
Qed.

(** ** Loops over numbers *)

Lemma fold_seqZ {T} (f : T -> Z -> T) (I : Z -> T -> Prop) lo n s :
  0 <= n -> I lo s -> (forall k s, lo <= k < lo + n -> I k s -> I (k + 1) (f s k)) ->
  I (lo + n) (fold_left f (seqZ lo n) s).
Proof.
  intros Hn. rewrite <- (Z2Nat.id n Hn). generalize (Z.to_nat n) as m. clear n Hn. intros m. revert lo s.
  induction m as [|m IH]; intros lo s HI Hstep.
  { simpl. by rewrite Z.add_0_r. }
  rewrite seqZ_cons by lia. cbn [fold_left]. replace (Z.pred (Z.of_nat (S m))) with (Z.of_nat m) by lia.
  replace (lo + Z.of_nat (S m)) with (Z.succ lo + Z.of_nat m) by lia. apply IH.
  - rewrite <- Z.add_1_r. apply Hstep; [lia|done].
  - intros k s' Hk. apply Hstep. lia.
Qed.

Lemma foldM_seqZ {E T} (f : T -> Z -> res E T) (I : Z -> T -> Prop) lo n s :
  0 <= n -> I lo s -> (forall k s, lo <= k < lo + n -> I k s -> exists s', f s k = Ok s' /\ I (k + 1) s') ->
  exists s', foldM f s (seqZ lo n) = Ok s' /\ I (lo + n) s'.
Proof.
  intros Hn. rewrite <- (Z2Nat.id n Hn). generalize (Z.to_nat n) as m. clear n Hn. intros m. revert lo s.
  induction m as [|m IH]; intros lo s HI Hstep.
  { exists s. simpl. by rewrite Z.add_0_r. }
  rewrite seqZ_cons by lia. cbn [foldM]. replace (Z.pred (Z.of_nat (S m))) with (Z.of_nat m) by lia.
  destruct (Hstep lo s ltac:(lia) HI) as (s1 & -> & HI1). cbn [mbind res_bind].
  replace (lo + Z.of_nat (S m)) with (Z.succ lo + Z.of_nat m) by lia. apply IH; [by rewrite <- Z.add_1_r|].
  intros k s' Hk. apply Hstep. lia.
Qed.

(** ** The block bitmap of a group *)

(** A bitmap with the number of its set bits. *)
Definition counted (P : Z -> bool) (st : list Z * Z) : Prop := bitmap_is P st.1 /\ st.2 = count P 0 GROUP.

Lemma counted_ext P Q st : (forall o, 0 <= o < GROUP -> P o = Q o) -> counted P st -> counted Q st.
Proof.
  intros H [Hb Hc]. split; [by apply (bitmap_is_ext P)|]. rewrite Hc. apply count_ext. intros x Hx. apply H. lia.
Qed.

Lemma data_bits_spec data_size start :
  0 <= start -> counted (fun o => start + o <? data_size) (data_bits BLOCK_SIZE data_size start (start + GROUP)).
Proof.
  intros Hs. unfold data_bits. change (blocks_per_group BLOCK_SIZE) with GROUP. change (Z.to_nat BLOCK_SIZE) with 4096%nat.
  change (zeros BLOCK_SIZE) with (zeros 4096). destruct (Z.leb_spec (start + GROUP) data_size).
  { apply (counted_ext (fun _ => true)); [intros o Ho; cbn beta; lia|]. split; [apply ones_is|].
    cbn [snd]. by rewrite count_true. }
  destruct (Z.ltb_spec start data_size).
  2:{ apply (counted_ext (fun _ => false)); [intros o Ho; cbn beta; lia|]. split; [apply zeros_is|]. by rewrite count_false. }
  apply (counted_ext (fun o => o <? 0 + (data_size - start))); [intros o Ho; cbn beta; lia|].
  apply (fold_seqZ _ (fun k st => counted (fun o => o <? k) st) 0); [lia| |].
  - apply (counted_ext (fun _ => false)); [intros o Ho; cbn beta; lia|]. split; [apply zeros_is|]. by rewrite count_false.
  - intros k [bm used] Hk [Hb Hc]. cbn [fst snd] in *. split; cbn [fst snd].
    + apply (bitmap_is_ext (fun o => (o <? k) || (o =? k))); [intros o Ho; cbn beta; lia|]. apply mark_bit_is; [lia|done].
    + rewrite (count_insert (fun o => o <? k) _ 0 GROUP k); [|lia|lia|intros x Hx; cbn beta; lia].
      rewrite Hc. apply u32_small. pose proof (count_bounds (fun o => o <? k) 0 GROUP). unfold_ranges. unfold GROUP in *. lia.
Qed.

Lemma mark_static_spec P st n :
  0 <= n <= GROUP -> counted P st -> counted (fun o => P o || (o <? n)) (fold_left mark_static (seqZ 0 n) st).
Proof.
  intros Hn Hst. apply (counted_ext (fun o => P o || (o <? 0 + n))); [intros o Ho; by rewrite Z.add_0_l|].
  apply (fold_seqZ _ (fun k st => counted (fun o => P o || (o <? k)) st) 0); [lia| |].
  - apply (counted_ext P); [|done]. intros o Ho. replace (o <? 0) with false by lia. by rewrite orb_false_r.
  - intros k [bm used] Hk [Hb Hc]. cbn [fst snd mark_static] in *.
    assert (bitmap_is (fun o => P o || (o <? k + 1)) (mark_bit bm k)) as Hb'.
    { apply (bitmap_is_ext (fun o => P o || (o <? k) || (o =? k))); [|apply mark_bit_is; [lia|done]].
      intros o Ho. rewrite <- orb_assoc. f_equal. lia. }
    split; [done|]. cbn [snd]. pose proof (was_set_bit bm k ltac:(lia)) as Hw. rewrite (bi_bits _ _ Hb) in Hw by lia.
    replace (k <? k) with false in Hw by lia. rewrite orb_false_r in Hw.
    destruct (_ =? 0); cbn [negb] in Hw.
    + rewrite (count_insert (fun o => P o || (o <? k)) _ 0 GROUP k); [|lia| |].
      * rewrite Hc. apply u32_small. pose proof (count_bounds (fun o => P o || (o <? k)) 0 GROUP). unfold_ranges. unfold GROUP in *. lia.
      * rewrite <- Hw. lia.
      * intros x Hx. rewrite <- orb_assoc. f_equal. lia.
    + rewrite Hc. apply count_ext. intros x Hx. destruct (Z.eqb_spec x k) as [->|]; [by rewrite <- Hw|]. f_equal. lia.
Qed.

Definition in_range (b : Z) (r : BlockRange) : bool := (br_start r <=? b) && (b <? br_end r).

Lemma clear_bytes {E} gs l : forall bm used bm' used',
  foldM (E := E) (clear_block gs) (bm, used) l = Ok (bm', used') -> Forall is_u8 bm -> Forall is_u8 bm'.
Proof.
  induction l as [|b l IH]; intros bm used bm' used'; cbn [foldM clear_block]; [by intros [= <- <-]|].
  destruct (Z.leb_spec (zlen bm) ((b - gs) / 8)); [done|]. cbn [mbind res_bind]. intros Hf Hb. apply (IH _ _ _ _ Hf).
  unfold clear_bit, put_u8. apply Forall_put; [done|]. constructor; [|done].
  pose proof (get_u8_byte bm ((b - gs) / 8) Hb) as [? ?]. unfold is_u8. split; [apply Z.land_nonneg; lia|].
  apply (bits_below 8); [lia|]. split; [apply Z.land_nonneg; lia|]. intros n Hn. rewrite Z.land_spec.
  assert (Z.testbit (get_u8 bm ((b - gs) / 8)) n = false) as ->; [|done].
  by apply (bits_below 8 (get_u8 bm ((b - gs) / 8)) ltac:(lia)).
Qed.

Lemma clear_range_counted {E} P st start range :
  counted P st ->
  exists st', clear_block_range_from_bitmap (E := E) st.1 start (start + GROUP) range st.2 = Ok st' /\
    counted (fun o => P o && negb (in_range (start + o) range)) st'.
Proof.
  intros [Hb Hc]. destruct st as [bm used]. cbn [fst snd] in *. unfold clear_block_range_from_bitmap, in_range.
  remember (Z.max (br_start range) start) as lo eqn:Elo. remember (Z.min (br_end range) (start + GROUP)) as hi eqn:Ehi.
  destruct (Z_lt_le_dec hi lo) as [Hlt|Hle].
  { replace (seqZ lo (hi - lo)) with (@nil Z) by (symmetry; apply seqZ_nil; lia). exists (bm, used). split; [done|].
    apply (counted_ext P); [|done]. intros o Ho. cbn beta.
    replace ((br_start range <=? start + o) && (start + o <? br_end range)) with false by lia. by rewrite andb_true_r. }
  pose proof (bi_len _ _ Hb) as Hl. assert (lo - start >= 0 /\ hi - start <= GROUP) as [? ?] by lia.
  assert (count_set bm (lo - start) (hi - lo) = count P (lo - start) (hi - lo)) as Hcs.
  { apply count_ext. intros x Hx. apply (bi_bits _ _ Hb). lia. }
  assert (count P (lo - start) (hi - lo) <= count P 0 GROUP) as Hsub.
  { replace GROUP with ((lo - start) + ((hi - lo) + (start + GROUP - hi))) by lia. rewrite !count_split by lia.
    pose proof (count_bounds P 0 (lo - start) ltac:(lia)).
    pose proof (count_bounds P (0 + (lo - start) + (hi - lo)) (start + GROUP - hi) ltac:(lia)). rewrite !Z.add_0_l in *. lia. }
  pose proof (count_bounds P 0 GROUP ltac:(done)) as Hcb.
  destruct (clear_blocks_spec (E := E) start (Z.to_nat (hi - lo)) lo bm used) as (bm' & Hf & Hl' & Hb');
    rewrite ?Z2Nat.id in * by lia; [lia| |lia|unfold_ranges; unfold GROUP in *; lia|].
  { rewrite Hl. unfold GROUP in *. apply Z.lt_succ_r, Z.div_lt_upper_bound; lia. }
  exists (bm', used - count P (lo - start) (hi - lo)). rewrite Hf, Hcs. split; [done|]. split; cbn [fst snd].
  - constructor; [lia| |].
    + apply (clear_bytes _ _ _ _ _ _ Hf), (bi_bytes _ _ Hb).
    + intros o Ho. rewrite Hb', (bi_bits _ _ Hb) by lia. f_equal. lia.
  - rewrite Hc. symmetry. etransitivity; [apply (count_remove P _ 0 GROUP (lo - start) (hi - start)); [lia|lia|]|].
    + intros x Hx. cbn beta. f_equal. lia.
    + by replace (hi - start - (lo - start)) with (hi - lo) by lia.
Qed.

(** A block in use: data or shared metadata, or a superblock copy or
    descriptor, and not freed. *)
Definition block_used (area data_size : Z) (freed : list BlockRange) (b : Z) : bool :=
  ((b <? data_size) || reserved_block area b) && negb (existsb (in_range b) freed).

Lemma reserved_in_group area g o :
  0 <= o < GROUP -> reserved_block area (g * GROUP + o) = has_sparse_super g && (o <? 1 + area).
Proof. intros Ho. unfold reserved_block, GROUP in *. by destruct (group_of g o Ho) as [-> ->]. Qed.

Lemma clear_ranges_counted {E} start freed : forall P st,
  counted P st ->
  exists st',
    foldM (E := E) (fun (st : list Z * Z) range => clear_block_range_from_bitmap st.1 start (start + GROUP) range st.2)
      st freed = Ok st' /\
    counted (fun o => P o && negb (existsb (in_range (start + o)) freed)) st'.
Proof.
  induction freed as [|r freed IH]; intros P st Hst.
  - exists st. split; [done|]. apply (counted_ext P); [|done]. intros o Ho. cbn [existsb]. by rewrite andb_true_r.
  - cbn [foldM]. destruct (clear_range_counted (E := E) P st start r Hst) as (st1 & -> & H1). cbn [mbind res_bind].
    destruct (IH _ st1 H1) as (st2 & Hr & H2). exists st2. split; [done|]. eapply counted_ext, H2.
    intros o Ho. cbn [existsb]. by rewrite negb_orb, andb_assoc.
Qed.

Lemma static_blocks_of size g :
  0 <= g ->
  let area := group_descriptor_blocks BLOCK_SIZE size in
  static_metadata_blocks_in_group BLOCK_SIZE size g = if has_sparse_super g then 1 + area else 0.
Proof.
  intros Hg area. pose proof (group_descriptor_blocks_bounds size) as Ha.
  unfold static_metadata_blocks_in_group, static_metadata_blocks_in_group_for_area.
  destruct (has_sparse_super g); [|done]. apply u32_small. unfold_ranges. lia.
Qed.

Lemma group_start_u32 g : 0 <= g < 131071 -> u32 (g * 32768) = g * GROUP /\ u32 (g * GROUP + 32768) = g * GROUP + GROUP.
Proof. intros Hg. unfold GROUP. split; apply u32_small; unfold_ranges; lia. Qed.

(** The block bitmap of group [g] marks exactly the blocks in use, and the
    count is their number. *)
Lemma block_bitmap_spec size data_size g freed :
  0 <= g < 131071 ->
  let area := group_descriptor_blocks BLOCK_SIZE size in
  exists bm used, block_bitmap BLOCK_SIZE size data_size g freed = Ok (bm, used) /\
    counted (fun o => block_used area data_size freed (g * GROUP + o)) (bm, used).
Proof.
  intros Hg area. pose proof (group_descriptor_blocks_bounds size) as Ha. fold area in Ha.
  unfold block_bitmap. change (blocks_per_group BLOCK_SIZE) with 32768.
  destruct (group_start_u32 g Hg) as [-> ->]. rewrite static_blocks_of by lia. fold area.
  set (n := Z.min _ 32768).
  assert (0 <= n <= GROUP /\ n = if has_sparse_super g then 1 + area else 0) as [Hn En].
  { unfold n, GROUP. destruct (has_sparse_super g); lia. }
  pose proof (data_bits_spec data_size (g * GROUP) ltac:(unfold GROUP; lia)) as H1.
  pose proof (mark_static_spec _ _ n Hn H1) as H2.
  destruct (clear_ranges_counted (E := FormatError) (g * GROUP) freed _ _ H2) as ([bm used] & Hr & H3).
  exists bm, used. split; [done|]. eapply counted_ext, H3. intros o Ho. cbn beta. unfold block_used.
  rewrite reserved_in_group by done. rewrite En. do 2 f_equal. destruct (has_sparse_super g); cbn [andb]; lia.
Qed.

(** ** The inode bitmap of a group *)

Definition slot_used (inodes : list Inode) (ino : Z) : bool :=
  match inodes !! Z.to_nat (ino - 1) with
  | Some inode => (ino <=? 10) || negb (i_links_count inode =? 0)
  | None => false
  end.

Definition slot_dir (inodes : list Inode) (ino : Z) : bool :=
  match inodes !! Z.to_nat (ino - 1) with Some inode => is_dir (i_mode inode) | None => false end.

Lemma count_next P k : 0 <= k -> count P 0 (k + 1) = count P 0 k + (if P k then 1 else 0).
Proof. intros Hk. rewrite count_split, count_one by lia. by rewrite Z.add_0_l. Qed.

Lemma ipg_bounds ipg : In ipg inode_choices -> 8192 <= ipg <= 32768 /\ ipg mod 8 = 0.
Proof. simpl. intros [<-|[<-|[<-|[<-|[]]]]]; done. Qed.

Section InodeBitmap.
Context (inodes : list Inode) (g ipg : Z).
Hypothesis (Hg : 0 <= g).
Hypothesis (Hipg : In ipg inode_choices).
Hypothesis (Hmax : (g + 1) * ipg <= u32_max).
Hypothesis (Hlen : zlen inodes <= u32_max).

Definition slot (i : Z) : Z := 1 + g * ipg + i.
Abbreviation used_slot := (fun i => slot_used inodes (slot i)).
Abbreviation dir_slot := (fun i => slot_used inodes (slot i) && slot_dir inodes (slot i)).

Record inodes_marked (k : Z) (u : InodeUse) : Prop := {
  im_bitmap : bitmap_is (fun i => (i <? k) && used_slot i) (iu_bitmap u);
  im_used : iu_used u = count used_slot 0 k;
  im_last : 0 <= iu_last u <= k;
  im_unused : forall i, iu_last u <= i < k -> used_slot i = false;
  im_dirs : iu_dirs u = count dir_slot 0 k
}.

Lemma mark_inode_step k u :
  0 <= k < ipg -> inodes_marked k u ->
  exists u', mark_inode inodes g ipg u k = Ok u' /\ inodes_marked (k + 1) u'.
Proof.
  intros Hk [Hb Hu Hl Hn Hd]. pose proof (ipg_bounds ipg Hipg) as [Hi _].
  assert (0 <= g * ipg) by (apply Z.mul_nonneg_nonneg; lia). unfold mark_inode. fold (slot k).
  rewrite (u32_small (slot k)) by (unfold slot, u32_max in *; unfold_ranges; lia).
  rewrite (u32_small (zlen inodes)) by (unfold_ranges; pose proof (zlen_nonneg inodes); lia).
  assert (used_slot k = false -> inodes_marked (k + 1) u) as Hskip.
  { intros Hb'. constructor.
    - eapply bitmap_is_ext, Hb. intros o Ho. cbn beta. destruct (Z.eqb_spec o k) as [->|]; [|f_equal; lia].
      by rewrite Hb', !andb_false_r.
    - rewrite count_next, Hb' by lia. lia.
    - lia.
    - intros i Hi'. destruct (Z.eqb_spec i k) as [->|]; [done|]. apply Hn. lia.
    - rewrite count_next by lia. cbn beta. rewrite Hb'. cbn [andb]. lia. }
  assert (Z.to_nat (slot k - 1) = inode_index (slot k)) as Hidx.
  { unfold inode_index. by rewrite u32_small by (unfold slot, u32_max in *; unfold_ranges; lia). }
  destruct (Z.ltb_spec (zlen inodes) (slot k)) as [Hout|Hin].
  { exists u. split; [done|]. apply Hskip. unfold slot_used.
    rewrite lookup_ge_None_2; [done|]. unfold zlen, slot in *. lia. }
  destruct (inodes !! inode_index (slot k)) as [inode|] eqn:Hino.
  2:{ apply lookup_ge_None in Hino. rewrite <- Hidx in Hino. unfold zlen, slot in *. lia. }
  cbn [or_panic mbind res_bind]. destruct ((10 <? slot k) && (i_links_count inode =? 0)) eqn:Hfree.
  { exists u. split; [done|]. apply Hskip. unfold slot_used. rewrite Hidx, Hino.
    apply andb_prop in Hfree as [? ->]. lia. }
  assert (used_slot k = true) as Hyes.
  { unfold slot_used. rewrite Hidx, Hino. apply andb_false_iff in Hfree as [? | ->]; [lia|]. by rewrite orb_true_r. }
  assert (slot_dir inodes (slot k) = is_dir (i_mode inode)) as Hdir by (unfold slot_dir; by rewrite Hidx, Hino).
  pose proof (count_bounds used_slot 0 k ltac:(lia)). pose proof (count_bounds dir_slot 0 k ltac:(lia)).
  eexists. split; [reflexivity|]. constructor; cbn [iu_bitmap iu_used iu_last iu_dirs].
  - eapply bitmap_is_ext; [|apply mark_bit_is; [unfold GROUP; lia|exact Hb]]. intros o Ho. cbn beta.
    destruct (Z.eqb_spec o k) as [->|]; [rewrite Hyes, orb_true_r; lia|]. rewrite orb_false_r. f_equal. lia.
  - rewrite count_next, Hyes, Hu by lia. apply u32_small. unfold_ranges. lia.
  - rewrite u32_small by (unfold_ranges; lia). lia.
  - rewrite u32_small by (unfold_ranges; lia). intros i ?. lia.
  - rewrite count_next, Hd by lia. cbn beta. rewrite Hyes, Hdir. cbn [andb].
    destruct (is_dir (i_mode inode)); [apply u32_small; unfold_ranges; lia|lia].
Qed.

Lemma fill_byte_is P bm i :
  0 <= i < 4096 -> bitmap_is P bm -> bitmap_is (fun o => P o || (o / 8 =? i)) (put_u8 bm i 0xFF).
Proof.
  intros Hi [Hl Hu Hb]. constructor.
  - unfold put_u8. by rewrite zlen_put.
  - apply Forall_put_u8; [lia|done|done].
  - intros o Ho. unfold GROUP in Ho. unfold bit_at. pose proof (Z.div_pos o 8 ltac:(lia) ltac:(lia)).
    pose proof (Z.mod_pos_bound o 8 ltac:(lia)).
    rewrite get_put_u8 by lia. destruct (o / 8 =? i); [|by rewrite orb_false_r, <- Hb].
    change 0xFF with (Z.ones 8). rewrite Z.testbit_ones_nonneg, orb_true_r by lia. lia.
Qed.

(** The inode bitmap marks the used slots and everything past the table. *)
Lemma inode_bitmap_spec :
  exists u, inode_bitmap BLOCK_SIZE inodes g ipg = Ok u /\ bitmap_is (fun i => if i <? ipg then used_slot i else true) (iu_bitmap u) /\ iu_used u = count used_slot 0 ipg /\ iu_dirs u = count dir_slot 0 ipg /\ 0 <= iu_last u <= ipg /\ forall i, iu_last u <= i < ipg -> used_slot i = false.
Proof.
  pose proof (ipg_bounds ipg Hipg) as [Hi Hm]. unfold inode_bitmap. change (zeros BLOCK_SIZE) with (zeros 4096).
  destruct (foldM_seqZ (mark_inode inodes g ipg) inodes_marked 0 ipg
    {| iu_bitmap := zeros 4096; iu_used := 0; iu_last := 0; iu_dirs := 0 |}) as (u & Hrun & HI).
  - lia.
  - constructor; cbn [iu_bitmap iu_used iu_last iu_dirs]; [|done|lia|lia|done].
    eapply bitmap_is_ext, zeros_is. intros o Ho. cbn beta. by replace (o <? 0) with false by lia.
  - intros k u Hk. apply mark_inode_step. lia.
  - rewrite Hrun. cbn [mbind res_bind]. eexists. split; [reflexivity|]. destruct HI as [Hb Hu Hl Hn Hd].
    cbn [iu_bitmap iu_used iu_last iu_dirs]. rewrite Z.add_0_l in *. split; [|done].
    pose proof (Z.div_mod ipg 8 ltac:(lia)). change BLOCK_SIZE with 4096.
    eapply bitmap_is_ext; [|apply (fold_seqZ _ (fun k bm => bitmap_is (fun i => (i <? ipg) && used_slot i || ((ipg / 8 <=? i / 8) && (i / 8 <? k))) bm)
      (ipg / 8) (4096 - ipg / 8)); [lia| |]].
    + intros o Ho. cbn beta. unfold GROUP in Ho. pose proof (Z.div_mod o 8 ltac:(lia)).
      pose proof (Z.mod_pos_bound o 8 ltac:(lia)).
      destruct (Z.ltb_spec o ipg); cbn [andb orb]; [|lia].
      replace (ipg / 8 <=? o / 8) with false by lia. cbn [andb]. by rewrite orb_false_r.
    + eapply bitmap_is_ext, Hb. intros o Ho. cbn beta. replace (_ && (o / 8 <? ipg / 8)) with false by lia.
      by rewrite orb_false_r.
    + intros k bm Hk Hbm. eapply bitmap_is_ext; [|apply fill_byte_is; [lia|exact Hbm]]. intros o Ho. cbn beta.
      rewrite <- orb_assoc. f_equal. lia.
Qed.
End InodeBitmap.

(** ** Groups without data *)

Lemma clear_bit_is P bm i :
  0 <= i < GROUP -> bitmap_is P bm -> bitmap_is (fun o => P o && negb (o =? i)) (clear_bit bm i).
Proof.
  intros Hi [Hl Hu Hb]. unfold GROUP in *. assert (0 <= i / 8 < 4096) as Hd.
  { split; [apply Z.div_pos|apply Z.div_lt_upper_bound]; lia. }
  constructor.
  - unfold clear_bit, put_u8. by rewrite zlen_put.
  - apply (clear_bytes (E := unit) 0 [i] bm 0 _ (if negb (Z.land (Z.shiftr (get_u8 bm (i / 8)) (i mod 8)) 1 =? 0) then u32 (0 - 1) else 0));
      [|done]. cbn [foldM clear_block]. rewrite Z.sub_0_r. by replace (zlen bm <=? i / 8) with false by lia.
  - intros o Ho. rewrite clear_bit_spec, Hb by (unfold GROUP in *; lia). done.
Qed.

Lemma extra_block_bitmap_spec used last :
  0 <= used <= GROUP -> bitmap_is (fun o => o <? used) (extra_block_bitmap BLOCK_SIZE used GROUP last).
Proof.
  intros Hu. unfold extra_block_bitmap. change (blocks_per_group BLOCK_SIZE) with GROUP. rewrite Z.ltb_irrefl, andb_false_r.
  rewrite Z.min_l by lia. change (zeros (GROUP / 8)) with (zeros 4096). rewrite <- (Z.add_0_l used) at 1.
  apply (fold_seqZ mark_bit (fun k bm => bitmap_is (fun o => o <? k) bm) 0); [lia| |].
  - eapply bitmap_is_ext, zeros_is. intros o Ho. cbn beta. lia.
  - intros k bm Hk Hb. eapply bitmap_is_ext; [|apply mark_bit_is; [lia|exact Hb]]. intros o Ho. cbn beta. lia.
Qed.

Lemma empty_inode_bitmap_spec ipg :
  In ipg inode_choices -> bitmap_is (fun o => ipg <=? o) (empty_inode_bitmap BLOCK_SIZE ipg).
Proof.
  intros Hin. pose proof (ipg_bounds ipg Hin) as [Hi _]. unfold empty_inode_bitmap.
  rewrite u16_small by (unfold_ranges; lia). change (Z.to_nat (blocks_per_group BLOCK_SIZE / 8)) with 4096%nat.
  rewrite <- (Z.add_0_l ipg) at 1. apply (fold_seqZ clear_bit (fun k bm => bitmap_is (fun o => k <=? o) bm) 0); [lia| |].
  - eapply bitmap_is_ext, ones_is. intros o Ho. cbn beta. lia.
  - intros k bm Hk Hb. eapply bitmap_is_ext; [|apply clear_bit_is; [unfold GROUP; lia|exact Hb]].
    intros o Ho. cbn beta. lia.
Qed.
