(* ===== verification/CloseWrites.v ===== *)
(** What [close] writes once the directories are in place: where every step
    puts its bytes, that the steps do not overwrite one another, and that none
    of them panics. *)

From stdpp Require Import gmap.
From S2P Require Import Prelude Bytes Types Checksum Layout Errors Disk Tables FileTree Extent.
From S2P Require Import Geometry Flex Formatter Payload Close CloseBitmaps.

(** ** Writes *)

(** The builder's file changed, at most at the addresses [A]; it did not
    shrink, and grew no further than these. *)
Record wrote (A : Z -> Prop) (s s' : Formatter) : Prop := {
  wr_file : s' = set_fm_file (fm_file s') s;
  wr_data : forall x, ~ A x -> f_data (fm_file s') x = f_data (fm_file s) x;
  wr_len : f_len (fm_file s) <= f_len (fm_file s');
  wr_grow : forall m, f_len (fm_file s) <= m -> (forall x, A x -> x < m) -> f_len (fm_file s') <= m
}.

Definition span (lo hi x : Z) : Prop := lo <= x < hi.

Lemma wrote_refl A s : wrote A s s.
Proof. constructor; [by destruct s|done|done|done]. Qed.

Lemma wrote_trans A B s1 s2 s3 :
  wrote A s1 s2 -> wrote B s2 s3 -> wrote (fun x => A x \/ B x) s1 s3.
Proof.
  intros [F1 D1 L1 G1] [F2 D2 L2 G2]. constructor; [|intros x Hx; rewrite D2, D1; tauto|lia|intros m Hm HA; apply G2; [apply G1|]; auto].
  rewrite F2 at 1. rewrite F1. by destruct s1.
Qed.

Lemma wrote_mono (A B : Z -> Prop) s s' : (forall x, A x -> B x) -> wrote A s s' -> wrote B s s'.
Proof. intros H [F D L G]. constructor; [done| |done|auto]. intros x Hx. apply D. auto. Qed.

Lemma wrote_steps A s1 s2 s3 : wrote A s1 s2 -> wrote A s2 s3 -> wrote A s1 s3.
Proof. intros H1 H2. apply (wrote_mono (fun x => A x \/ A x)); [tauto|]. by eapply wrote_trans. Qed.

(** The bytes outside the addresses survive. *)
Lemma wrote_bytes A s s' o n :
  wrote A s s' -> (forall x, o <= x < o + n -> ~ A x) ->
  bytes_at (fm_file s') o n = bytes_at (fm_file s) o n.
Proof. intros [_ D _ _] H. apply bytes_at_ext. intros x Hx. by apply D, H. Qed.

Lemma wrote_state A s s' :
  wrote A s s' -> fm_block_size s' = fm_block_size s /\ fm_size s' = fm_size s /\ fm_inodes s' = fm_inodes s /\
    fm_tree s' = fm_tree s /\ fm_deleted_blocks s' = fm_deleted_blocks s /\ fm_uuid s' = fm_uuid s /\
    fm_label s' = fm_label s.
Proof. intros [-> _ _ _]. by destruct s. Qed.

Lemma seek_wrote A block s :
  fm_block_size s = BLOCK_SIZE ->
  exists s', seek_to_block block s = (Ok tt, s') /\ wrote A s s' /\ fpos s' = block * 4096 /\
    f_data (fm_file s') = f_data (fm_file s).
Proof.
  intros Hbs. eexists. split; [reflexivity|]. destruct s as [[len data p] bs]. simpl in *. subst bs.
  split; [by constructor|done].
Qed.

Lemma write_wrote bytes s :
  exists s', file_write_all bytes s = (Ok tt, s') /\ wrote (span (fpos s) (fpos s + zlen bytes)) s s' /\
    fpos s' = fpos s + zlen bytes /\ bytes_at (fm_file s') (fpos s) (zlen bytes) = bytes /\
    (0 < zlen bytes -> fpos s + zlen bytes <= f_len (fm_file s')).
Proof.
  eexists. split; [reflexivity|]. destruct s as [f]. unfold write_all. cbn [set_fm_file fm_file].
  split; [|split; [done|split; [apply bytes_at_write|intros; by apply f_len_write_end]]].
  constructor; [done| |apply f_len_write|].
  - intros x Hx. unfold span in Hx. cbn [fm_file] in *. unfold write_at. cbn [seek f_data].
    by replace ((f_pos f <=? x) && (x <? f_pos f + zlen bytes)) with false by lia.
  - intros m Hm Hx. cbn [fm_file] in *. unfold write_at. cbn [seek f_len]. pose proof (zlen_nonneg bytes).
    destruct (Z.eqb_spec (zlen bytes) 0); [|specialize (Hx (f_pos f + zlen bytes - 1) ltac:(unfold span; lia))]; try case_match; lia.
Qed.

(** Running a bind whose first program succeeds. *)
Lemma run_bind {A B} (m : M A) (k : A -> M B) s a s' : m s = (Ok a, s') -> (m ≫= k) s = k a s'.
Proof. intros H. by rewrite M_bind_eq, H. Qed.

(** A buffer written to a block. *)
Lemma write_block_at p buf s :
  fm_block_size s = BLOCK_SIZE ->
  exists s', (forall A (k : M A), (_ ← seek_to_block p; _ ← file_write_all buf; k) s = k s') /\
    wrote (span (p * 4096) (p * 4096 + zlen buf)) s s' /\ fpos s' = p * 4096 + zlen buf /\
    bytes_at (fm_file s') (p * 4096) (zlen buf) = buf /\ (0 < zlen buf -> p * 4096 + zlen buf <= f_len (fm_file s')).
Proof.
  intros Hb. destruct (seek_wrote (span (p * 4096) (p * 4096 + zlen buf)) p s Hb) as (s1 & R1 & W1 & P1 & _).
  destruct (write_wrote buf s1) as (s2 & R2 & W2 & P2 & B2 & L2). rewrite P1 in *.
  exists s2. split; [intros A k; by rewrite (run_bind _ _ _ _ _ R1), (run_bind _ _ _ _ _ R2)|].
  split; [by apply (wrote_steps _ _ s1)|done].
Qed.

(** The invariant of a loop whose turns all succeed. *)
Lemma fold_in_spec {A S} (f : S -> A -> M S) (I : list A -> S -> Formatter -> Prop) l :
  (forall done a rest st s, l = done ++ a :: rest -> I done st s ->
     exists st' s', f st a s = (Ok st', s') /\ I (done ++ [a]) st' s') ->
  forall st s, I [] st s -> exists st' s', fold_in f st l s = (Ok st', s') /\ I l st' s'.
Proof.
  intros Hstep. enough (forall rest done st s, l = done ++ rest -> I done st s ->
    exists st' s', fold_in f st rest s = (Ok st', s') /\ I l st' s') as H by (intros st s; by apply (H l [])).
  induction rest as [|a rest IH]; intros pre st s Hl HI.
  - exists st, s. rewrite app_nil_r in Hl. by subst pre.
  - destruct (Hstep pre a rest st s Hl HI) as (st1 & s1 & Hf & HI1).
    destruct (IH (pre ++ [a]) st1 s1) as (st2 & s2 & Hr & HI2); [by rewrite <- app_assoc|done|].
    exists st2, s2. split; [|done]. cbn [fold_in]. by rewrite (run_bind _ _ _ _ _ Hf).
Qed.

Lemma forM_fold {A} (f : A -> M unit) l s : forM_ l f s = fold_in (fun _ a => f a) tt l s.
Proof.
  revert s. induction l as [|a l IH]; intros s; [done|]. cbn [forM_ fold_in]. rewrite !M_bind_eq.
  by destruct (f a s) as [[[]|e|] s'].
Qed.

(** ** Positions *)

Definition aligned (p : Z) : Z := 4096 * div_ceil p 4096.

Lemma aligned_spec p : p <= aligned p < p + 4096 /\ aligned p mod 4096 = 0 /\ (p mod 4096 = 0 -> aligned p = p).
Proof.
  unfold aligned. pose proof (div_ceil_spec p 4096 ltac:(lia)). split; [lia|]. rewrite Z.mul_comm, Z.mod_mul by lia.
  split; [done|]. intros Hm. pose proof (aligned_pos p Hm). nia.
Qed.

Lemma align_spec s :
  fm_block_size s = BLOCK_SIZE -> 0 <= fpos s -> fpos s / 4096 + 1 <= u32_max ->
  align_to_block s = (Ok tt, at_pos (aligned (fpos s)) s).
Proof.
  intros Hbs Hp Hmax. unfold align_to_block, pos. mstep. rewrite Hbs. change BLOCK_SIZE with 4096.
  destruct (aligned_spec (fpos s)) as (Hr & Hm & Ha). destruct (Z.eqb_spec (fpos s mod 4096) 0) as [H0|H0]; cbn [negb].
  { rewrite Ha by done. by rewrite at_pos_self. }
  mstep. rewrite current_block_spec by done. replace (fpos s / 4096 <=? u32_max) with true by lia.
  replace (fpos s / 4096 + 1 <=? u32_max) with true by lia. unfold seek_to_block, modify.
  rewrite Hbs. change BLOCK_SIZE with 4096. unfold at_pos. do 3 f_equal.
  pose proof (Z.div_mod (fpos s) 4096 ltac:(lia)). pose proof (Z.mod_pos_bound (fpos s) 4096 ltac:(lia)).
  pose proof (Z.div_mod (aligned (fpos s)) 4096 ltac:(lia)). lia.
Qed.

Lemma align_aligned s :
  fm_block_size s = BLOCK_SIZE -> fpos s mod 4096 = 0 -> align_to_block s = (Ok tt, s).
Proof. intros Hbs Hm. unfold align_to_block, pos. mstep. rewrite Hbs. change BLOCK_SIZE with 4096. by rewrite Hm. Qed.

(** ** Inode table *)

Section InodeTable.
Context (p : Z).

(** The inodes written so far, from [p] on. *)
Record inodes_written (s0 : Formatter) (done : list Inode) (buf : list Z) (s : Formatter) : Prop := {
  iw_buf : zlen buf = 256;
  iw_wrote : wrote (span p (p + 256 * zlen done)) s0 s;
  iw_pos : fpos s = p + 256 * zlen done;
  iw_len : done <> [] -> p + 256 * zlen done <= f_len (fm_file s);
  iw_read : forall i inode, done !! i = Some inode ->
    Inode_read_from (bytes_at (fm_file s) (p + 256 * Z.of_nat i) 256) = inode
}.

Lemma write_inode_step s0 done buf s inode :
  Inode_wf inode -> inodes_written s0 done buf s ->
  exists buf' s', write_inode buf inode s = (Ok buf', s') /\ inodes_written s0 (done ++ [inode]) buf' s'.
Proof.
  intros Hwf [Hb Hw Hp Hl Hr]. unfold write_inode. set (buf' := Inode_write_to inode buf).
  assert (zlen buf' = 256) as Hb'.
  { rewrite <- Hb. exact (zlen_write_to inode buf). }
  destruct (write_wrote buf' s) as (s' & Hrun & Hw' & Hp' & Hbytes & Hlen).
  exists buf', s'. split; [by rewrite (run_bind _ _ _ _ _ Hrun)|].
  rewrite Hb' in *. pose proof (zlen_nonneg done) as Hn.
  assert (zlen (done ++ [inode]) = zlen done + 1) as Hz by (rewrite zlen_app; done).
  constructor; rewrite ?Hz; [done| |lia|lia|].
  - apply (wrote_steps _ _ s); eapply wrote_mono; [|exact Hw| |exact Hw']; unfold span; intros x; lia.
  - intros i x Hi. apply lookup_app_Some in Hi as [Hi|[Hge Hi]].
    + rewrite <- (Hr i x Hi). f_equal. apply (wrote_bytes _ _ _ _ _ Hw'). unfold span.
      apply lookup_lt_Some in Hi. unfold zlen in *. lia.
    + destruct (i - length done)%nat as [|k] eqn:Hk; [|done]. injection Hi as <-.
      replace (p + 256 * Z.of_nat i) with (fpos s) by (unfold zlen in Hp; lia).
      rewrite Hbytes. refine (read_write (A := Inode) inode buf Hwf _). change (rec_size Inode) with 256. lia.
Qed.

Lemma write_inodes_spec s inodes :
  fpos s = p -> Forall Inode_wf inodes ->
  exists buf s', fold_in write_inode (zeros INODE_SIZE) inodes s = (Ok buf, s') /\ inodes_written s inodes buf s'.
Proof.
  intros Hp Hwf. apply (fold_in_spec write_inode (inodes_written s)).
  - intros done inode rest buf s1 Hl HI. apply write_inode_step; [|done].
    apply (Forall_lookup_1 _ _ (length done) inode Hwf). by rewrite Hl, list_lookup_middle.
  - constructor; [done|apply wrote_refl|change (zlen []) with 0; lia|done|done].
Qed.

(** Zero blocks. *)
Lemma write_blocks_spec block s n :
  zlen block = 4096 -> 0 <= n ->
  exists s', forM_ (seqZ 0 n) (fun _ => file_write_all block) s = (Ok tt, s') /\
    wrote (span (fpos s) (fpos s + 4096 * n)) s s' /\ fpos s' = fpos s + 4096 * n.
Proof.
  intros Hb Hn. rewrite forM_fold.
  destruct (fold_in_spec (fun _ _ => file_write_all block)
    (fun done _ s' => wrote (span (fpos s) (fpos s + 4096 * zlen done)) s s' /\ fpos s' = fpos s + 4096 * zlen done)
    (seqZ 0 n)) with tt s as ([] & s' & Hrun & Hw & Hp').
  - intros done a rest [] s1 _ [Hw Hp1]. destruct (write_wrote block s1) as (s2 & Hr & Hw2 & Hp2 & _).
    exists tt, s2. split; [done|]. rewrite zlen_app. change (zlen [a]) with 1. rewrite Hb in *. pose proof (zlen_nonneg done).
    split; [|lia]. apply (wrote_steps _ _ s1); eapply wrote_mono; [|exact Hw| |exact Hw2]; unfold span; intros x; lia.
  - split; [apply wrote_refl|]. change (zlen []) with 0. lia.
  - exists s'. split; [done|]. assert (zlen (seqZ 0 n) = n) as E by (unfold zlen; rewrite length_seqZ; lia).
    by rewrite E in *.
Qed.
End InodeTable.

(** The padding behind the inodes. *)
Lemma pad_spec s rest :
  fm_block_size s = BLOCK_SIZE -> 0 <= rest ->
  exists s',
    (if 0 <? rest then
       _ ← forM_ (seqZ 0 (rest / 4096)) (fun _ => file_write_all (zeros 4096));
       if 0 <? rest mod 4096 then file_write_all (zeros (rest mod 4096)) else mret tt
     else mret tt) s = (Ok tt, s') /\
    wrote (span (fpos s) (fpos s + rest)) s s' /\ fpos s' = fpos s + rest.
Proof.
  intros Hbs Hrest. destruct (Z.ltb_spec 0 rest) as [Hr|Hr].
  2:{ exists s. split; [done|]. split; [apply wrote_refl|lia]. }
  pose proof (Z.div_mod rest 4096 ltac:(lia)). pose proof (Z.mod_pos_bound rest 4096 ltac:(lia)).
  pose proof (Z.div_pos rest 4096 ltac:(lia) ltac:(lia)).
  destruct (write_blocks_spec (zeros 4096) s (rest / 4096) ltac:(done) ltac:(lia)) as (s1 & Hrun1 & Hw1 & Hp1).
  rewrite (run_bind _ _ _ _ _ Hrun1). destruct (Z.ltb_spec 0 (rest mod 4096)).
  - destruct (write_wrote (zeros (rest mod 4096)) s1) as (s2 & Hrun2 & Hw2 & Hp2 & _).
    rewrite zlen_zeros in * by lia. exists s2. split; [done|]. split; [|lia].
    apply (wrote_steps _ _ s1); eapply wrote_mono; [|exact Hw1| |exact Hw2]; unfold span; intros x; lia.
  - exists s1. split; [done|]. split; [|lia]. eapply wrote_mono; [|exact Hw1]. unfold span. intros x. lia.
Qed.

(** The inode table: every inode reads back from its slot. *)
Lemma commit_inode_table_spec s groups ipg (p := fpos s) :
  fm_block_size s = BLOCK_SIZE -> p mod 4096 = 0 -> Forall Inode_wf (fm_inodes s) ->
  0 <= groups -> 0 <= ipg -> 256 * groups * ipg < 2 ^ 63 -> 0 < zlen (fm_inodes s) <= groups * ipg ->
  exists s', commit_inode_table groups ipg s = (Ok (p / 4096), s') /\
    wrote (span p (p + 256 * groups * ipg)) s s' /\ fpos s' = p + 256 * groups * ipg /\
    p + 256 * zlen (fm_inodes s) <= f_len (fm_file s') /\
    forall i inode, fm_inodes s !! i = Some inode ->
      Inode_read_from (bytes_at (fm_file s') (p + 256 * Z.of_nat i) 256) = inode.
Proof.
  intros Hbs Hp Hwf Hg Hi Hbig Hn. unfold commit_inode_table, pos.
  rewrite (run_bind _ _ _ _ _ (align_aligned s Hbs Hp)). mstep. rewrite Hbs. change BLOCK_SIZE with 4096.
  destruct (write_inodes_spec p s (fm_inodes s) eq_refl Hwf) as (buf & s1 & Hrun1 & [_ Hw1 Hp1 Hl1 Hr1]).
  rewrite Hrun1. destruct (wrote_state _ _ _ Hw1) as (Hbs1 & _).
  assert (1 <= ipg /\ 1 <= groups) as [Hi1 Hg1] by nia.
  assert (0 <= 256 * groups <= 256 * groups * ipg) as Hsmall by nia.
  rewrite (u64_small (INODE_SIZE * groups)) by (unfold_ranges; unfold INODE_SIZE; change (2 ^ 63) with 9223372036854775808 in *; lia).
  rewrite (u64_small (INODE_SIZE * groups * ipg)) by (unfold_ranges; unfold INODE_SIZE; change (2 ^ 63) with 9223372036854775808 in *; lia).
  unfold INODE_SIZE. rewrite u64_small by (unfold_ranges; change (2 ^ 63) with 9223372036854775808 in *; lia).
  destruct (pad_spec s1 (256 * groups * ipg - zlen (fm_inodes s) * 256) ltac:(congruence) ltac:(lia))
    as (s2 & Hrun2 & Hw2 & Hp2).
  rewrite (run_bind _ _ _ _ _ Hrun2). exists s2. split; [done|]. split; [|split; [lia|split]].
  - apply (wrote_steps _ _ s1); eapply wrote_mono; [|exact Hw1| |exact Hw2]; unfold span; intros x; lia.
  - etransitivity; [apply Hl1|apply Hw2]. intros E. rewrite E in Hn. change (zlen []) with 0 in Hn. lia.
  - intros i inode Hin. rewrite <- (Hr1 i inode Hin). f_equal. apply (wrote_bytes _ _ _ _ _ Hw2).
    apply lookup_lt_Some in Hin. unfold span, zlen in *. intros x Hx. lia.
Qed.

(** ** Groups *)

(** The sum of [h] over the first [n] groups. *)
Definition sum_groups (h : Z -> Z) (n : Z) : Z := zsum (map h (seqZ 0 n)).

Lemma sum_groups_next h n : 0 <= n -> sum_groups h (n + 1) = sum_groups h n + h n.
Proof.
  intros Hn. unfold sum_groups. rewrite seqZ_app, seqZ_one, map_app, zsum_app by lia. cbn. rewrite Z.add_0_l. lia.
Qed.

Lemma sum_groups_bounds h n b : 0 <= n -> (forall g, 0 <= g < n -> 0 <= h g <= b) -> 0 <= sum_groups h n <= n * b.
Proof.
  intros Hn. pattern n. apply natlike_ind; [intros _; change (sum_groups h 0) with 0; lia| |done]. clear n Hn. intros n Hn IH H.
  rewrite <- Z.add_1_r, sum_groups_next by lia. specialize (IH ltac:(intros; apply H; lia)).
  specialize (H n ltac:(lia)). lia.
Qed.

Lemma sum_groups_u32 h n b :
  0 <= n -> (forall g, 0 <= h g <= b) -> (n + 1) * b <= u32_max ->
  u32 (sum_groups h n + h n) = sum_groups h (n + 1).
Proof.
  intros Hn Hh Hb. rewrite sum_groups_next by done. apply u32_small. specialize (Hh n) as Hh'.
  pose proof (sum_groups_bounds h n b Hn ltac:(intros; apply Hh)). unfold_ranges. lia.
Qed.

(** A block of the file. *)
Definition block_at (s : Formatter) (b : Z) : list Z := bytes_at (fm_file s) (b * 4096) 4096.

Lemma block_frame A s s' b :
  wrote A s s' -> (forall x, b * 4096 <= x < (b + 1) * 4096 -> ~ A x) -> block_at s' b = block_at s b.
Proof. intros Hw HA. apply (wrote_bytes A); [done|]. intros x Hx. apply HA. lia. Qed.

Section DataGroups.
Context (L : FlexMetadataLayout) (freed : list BlockRange) (ipg bo ito tbl : Z) (s0 : Formatter).
Hypothesis (Hbs : fm_block_size s0 = BLOCK_SIZE).
Hypothesis (Hipg : In ipg inode_choices).
Hypothesis (Hgroups : 0 <= fl_block_groups L <= MAX_GROUPS).
Hypothesis (Hinodes : zlen (fm_inodes s0) <= u32_max).
Hypothesis (Htable : fl_block_groups L * ipg <= u32_max).
Hypothesis (Hbo : 0 <= bo /\ bo + 2 * fl_block_groups L <= u32_max).
Hypothesis (Hito : 0 <= ito /\ 0 <= tbl /\ ito + fl_block_groups L * tbl <= u32_max).
Hypothesis (Hpos : fpos s0 = bo * 4096).

Let area := group_descriptor_blocks BLOCK_SIZE (fm_size s0).

Definition group_block_used (g o : Z) : bool := block_used area (fl_data_size L) freed (g * GROUP + o).
Definition group_slot_used (g i : Z) : bool := slot_used (fm_inodes s0) (slot g ipg i).
Definition group_slot_dir (g i : Z) : bool :=
  slot_used (fm_inodes s0) (slot g ipg i) && slot_dir (fm_inodes s0) (slot g ipg i).

(** The descriptor of a group that holds data, and the bitmaps it points at. *)
Record data_group (s : Formatter) (g : Z) (gd : GroupDescriptor) : Prop := {
  dg_wf : GroupDescriptor_wf gd;
  dg_block_bitmap : gd_block_bitmap_lo gd = bo + 2 * g;
  dg_inode_bitmap : gd_inode_bitmap_lo gd = bo + 2 * g + 1;
  dg_inode_table : gd_inode_table_lo gd = ito + g * tbl;
  dg_free_blocks : gd_free_blocks_count_lo gd = GROUP - count (group_block_used g) 0 GROUP;
  dg_free_inodes : gd_free_inodes_count_lo gd = ipg - count (group_slot_used g) 0 ipg;
  dg_dirs : gd_used_dirs_count_lo gd = count (group_slot_dir g) 0 ipg;
  dg_flags : gd_flags gd = 0;
  dg_unused : gd_itable_unused_lo gd <= ipg /\
    forall i, ipg - gd_itable_unused_lo gd <= i < ipg -> group_slot_used g i = false;
  dg_blocks : bitmap_is (group_block_used g) (block_at s (bo + 2 * g));
  dg_inodes : bitmap_is (fun i => if i <? ipg then group_slot_used g i else true) (block_at s (bo + 2 * g + 1))
}.

Record data_groups (k : Z) (gt : GroupTotals) (s : Formatter) : Prop := {
  ds_wrote : wrote (span (bo * 4096) ((bo + 2 * k) * 4096)) s0 s;
  ds_pos : fpos s = (bo + 2 * k) * 4096;
  ds_len : zlen (gt_descriptors gt) = k;
  ds_group : forall g gd, gt_descriptors gt !! g = Some gd -> data_group s (Z.of_nat g) gd;
  ds_blocks : gt_used_blocks gt = sum_groups (fun g => count (group_block_used g) 0 GROUP) k;
  ds_inodes : gt_used_inodes gt = sum_groups (fun g => count (group_slot_used g) 0 ipg) k
}.

Lemma data_group_frame A s s' g gd :
  wrote A s s' -> (forall x, (bo + 2 * g) * 4096 <= x < (bo + 2 * g + 2) * 4096 -> ~ A x) ->
  data_group s g gd -> data_group s' g gd.
Proof.
  intros Hw HA [H1 H2 H3 H4 H5 H6 H7 H8 H9 H10 H11].
  assert (block_at s' (bo + 2 * g) = block_at s (bo + 2 * g)) as E1 by (apply (block_frame A); [done|]; intros x Hx; apply HA; lia).
  assert (block_at s' (bo + 2 * g + 1) = block_at s (bo + 2 * g + 1)) as E2 by (apply (block_frame A); [done|]; intros x Hx; apply HA; lia).
  rewrite <- E1 in H10. rewrite <- E2 in H11. exact (Build_data_group _ _ _ H1 H2 H3 H4 H5 H6 H7 H8 H9 H10 H11).
Qed.

(** The descriptor built for a group. *)
Lemma new_data_group s k used u :
  0 <= k < fl_block_groups L -> used = count (group_block_used k) 0 GROUP ->
  iu_used u = count (group_slot_used k) 0 ipg -> iu_dirs u = count (group_slot_dir k) 0 ipg ->
  0 <= iu_last u <= ipg -> (forall i, iu_last u <= i < ipg -> group_slot_used k i = false) ->
  bitmap_is (group_block_used k) (block_at s (bo + 2 * k)) ->
  bitmap_is (fun i => if i <? ipg then group_slot_used k i else true) (block_at s (bo + 2 * k + 1)) ->
  data_group s k (data_group_descriptor BLOCK_SIZE bo ito tbl ipg k used u).
Proof.
  intros Hk Hused Hiu Hdu Hlast Hfree Hbm Hibm. pose proof (ipg_bounds ipg Hipg) as [Hi _].
  pose proof (count_bounds (group_block_used k) 0 GROUP ltac:(done)) as Hcb.
  pose proof (count_bounds (group_slot_used k) 0 ipg ltac:(lia)) as Hci.
  pose proof (count_bounds (group_slot_dir k) 0 ipg ltac:(lia)) as Hcd.
  assert (GROUP = 32768) as HG by done. assert (0 <= k * tbl <= fl_block_groups L * tbl) by nia.
  unfold data_group_descriptor. change (blocks_per_group BLOCK_SIZE) with 32768. cbv zeta.
  rewrite (proj2 (Z.leb_le used 32768)) by lia. cbn beta iota. unfold is_u32, u32_max in *.
  rewrite (u32_small (bo + 2 * k)), (u32_small (bo + 2 * k + 1)), (u32_small ito), (u32_small (ito + k * tbl)),
    (u32_small (ipg - iu_used u)), (u32_small (ipg - iu_last u)),
    (u16_small (32768 - used)), (u16_small (ipg - iu_used u)), (u16_small (iu_dirs u)), (u16_small (ipg - iu_last u))
    by (unfold_ranges; lia).
  constructor; cbn [gd_block_bitmap_lo gd_inode_bitmap_lo gd_inode_table_lo gd_free_blocks_count_lo
    gd_free_inodes_count_lo gd_used_dirs_count_lo gd_flags gd_itable_unused_lo]; try lia; [| |exact Hbm|exact Hibm].
  - unfold GroupDescriptor_wf. cbn. unfold_ranges. lia.
  - split; [lia|]. intros i Hi'. apply Hfree. lia.
Qed.

Lemma commit_data_group_step k gt s :
  0 <= k < fl_block_groups L -> data_groups k gt s ->
  exists gt' s', commit_data_group L freed ipg bo ito tbl gt k s = (Ok gt', s') /\ data_groups (k + 1) gt' s'.
Proof.
  intros Hk [Hw Hp Hl Hd Hb Hi]. destruct (wrote_state _ _ _ Hw) as (Ebs & Esz & Ein & _).
  pose proof (ipg_bounds ipg Hipg) as [Hipg' _]. unfold commit_data_group. mstep. rewrite Ebs, Hbs, Esz.
  destruct (block_bitmap_spec (fm_size s0) (fl_data_size L) k freed ltac:(unfold MAX_GROUPS in *; lia))
    as (bm & used & -> & Hbm & Hused). cbn [fst snd] in Hbm, Hused. mstep. rewrite Ein.
  assert ((k + 1) * ipg <= u32_max) as Hslots by nia.
  destruct (inode_bitmap_spec (fm_inodes s0) k ipg ltac:(lia) Hipg Hslots Hinodes)
    as (u & -> & Hibm & Hiu & Hdu & Hlast & Hfree). mstep.
  pose proof (bi_len _ _ Hbm) as Hz1. pose proof (bi_len _ _ Hibm) as Hz2.
  destruct (write_wrote (bm ++ iu_bitmap u) s) as (s' & Hrun & Hw' & Hp' & Hbytes & _).
  rewrite zlen_app, Hz1, Hz2 in *. change (4096 + 4096) with 8192 in *. rewrite Hrun.
  assert (block_at s' (bo + 2 * k) = bm /\ block_at s' (bo + 2 * k + 1) = iu_bitmap u) as [Eb Ei].
  { unfold block_at. replace ((bo + 2 * k + 1) * 4096) with (fpos s + 4096) by lia. rewrite <- Hp.
    apply app_inj_1; [unfold zlen in *; rewrite <- (Nat2Z.id (length bm)), Hz1; apply Nat2Z.inj;
      pose proof (zlen_bytes_at (fm_file s') (fpos s) 4096); unfold zlen in *; lia|].
    by rewrite <- bytes_at_app by lia. }
  change (used = count (group_block_used k) 0 GROUP) in Hused.
  change (iu_used u = count (group_slot_used k) 0 ipg) in Hiu.
  assert (GROUP = 32768) as HG by done.
  eexists _, s'. split; [reflexivity|].
  constructor; cbn [gt_descriptors gt_used_blocks gt_used_inodes].
  - apply (wrote_steps _ _ s); eapply wrote_mono; [|exact Hw| |exact Hw']; unfold span; intros x; lia.
  - lia.
  - rewrite zlen_app. change (zlen [_]) with 1. lia.
  - intros g gd Hgd. apply lookup_app_Some in Hgd as [Hgd|[Hge Hgd]].
    + eapply data_group_frame; [exact Hw'| |by apply Hd]. apply lookup_lt_Some in Hgd. unfold span, zlen in *. lia.
    + destruct (g - length (gt_descriptors gt))%nat as [|j] eqn:Ej; [|done]. injection Hgd as <-.
      replace (Z.of_nat g) with k by (unfold zlen in *; lia).
      rewrite <- Eb in Hbm. rewrite <- Ei in Hibm. exact (new_data_group _ _ _ _ Hk Hused Hiu Hdu Hlast Hfree Hbm Hibm).
  - rewrite Hb, Hused. apply (sum_groups_u32 (fun g => count (group_block_used g) 0 GROUP) k GROUP); [lia|by intros; apply count_bounds|].
    rewrite HG. unfold MAX_GROUPS, u32_max in *. lia.
  - rewrite Hi, Hiu. apply (sum_groups_u32 (fun g => count (group_slot_used g) 0 ipg) k ipg); [lia|intros; apply count_bounds; lia|lia].
Qed.

Lemma commit_data_groups_spec :
  exists gt s,
    fold_in (commit_data_group L freed ipg bo ito tbl)
      {| gt_used_blocks := 0; gt_used_inodes := 0; gt_descriptors := [] |} (seqZ 0 (fl_block_groups L)) s0 = (Ok gt, s) /\
    data_groups (fl_block_groups L) gt s.
Proof.
  destruct (fold_in_spec (commit_data_group L freed ipg bo ito tbl) (fun done => data_groups (zlen done))
    (seqZ 0 (fl_block_groups L))) with {| gt_used_blocks := 0; gt_used_inodes := 0; gt_descriptors := [] |} s0
    as (gt & s & Hrun & Hd).
  - intros done g rest gt s Hl HI.
    assert (g = zlen done /\ 0 <= g < fl_block_groups L) as [-> Hg].
    { assert (seqZ 0 (fl_block_groups L) !! length done = Some g) as Hlook by (by rewrite Hl, list_lookup_middle).
      apply lookup_seqZ in Hlook. unfold zlen. lia. }
    rewrite zlen_app. change (zlen [zlen done]) with 1. apply commit_data_group_step; done.
  - change (zlen []) with 0. constructor; [apply wrote_refl|lia|done..].
  - exists gt, s. split; [done|]. unfold zlen in Hd. rewrite length_seqZ, Z2Nat.id in Hd by lia. done.
Qed.
End DataGroups.

Section ExtraGroups.
Context (total ipg tbl first : Z) (s0 : Formatter) (gt0 : GroupTotals).
Hypothesis (Hbs : fm_block_size s0 = BLOCK_SIZE).
Hypothesis (Hsize : fm_size s0 = total * 134217728).
Hypothesis (Htotal : 0 <= first <= total /\ total <= MAX_GROUPS).
Hypothesis (Hipg : In ipg inode_choices).
Hypothesis (Htbl : 0 <= tbl <= 2048).
Hypothesis (Hused0 : 0 <= gt_used_blocks gt0 <= first * GROUP).

Let area := group_descriptor_blocks BLOCK_SIZE (fm_size s0).

(** The metadata of a group without data: static blocks, inode table, bitmaps. *)
Definition static_of (g : Z) : Z := if has_sparse_super g then 1 + area else 0.
Definition extra_used (g : Z) : Z := static_of g + tbl + 2.
Definition extra_bitmaps (g : Z) : Z := g * GROUP + static_of g + tbl.

Record extra_group (s : Formatter) (g : Z) (gd : GroupDescriptor) : Prop := {
  eg_wf : GroupDescriptor_wf gd;
  eg_block_bitmap : gd_block_bitmap_lo gd = extra_bitmaps g;
  eg_inode_bitmap : gd_inode_bitmap_lo gd = extra_bitmaps g + 1;
  eg_inode_table : gd_inode_table_lo gd = g * GROUP + static_of g;
  eg_free_blocks : gd_free_blocks_count_lo gd = GROUP - extra_used g;
  eg_free_inodes : gd_free_inodes_count_lo gd = ipg;
  eg_dirs : gd_used_dirs_count_lo gd = 0;
  eg_flags : gd_flags gd = if g =? total - 1 then bg_INODE_UNINIT else Z.lor bg_INODE_UNINIT bg_BLOCK_UNINIT;
  eg_unused : gd_itable_unused_lo gd = ipg;
  eg_blocks : bitmap_is (fun o => o <? extra_used g) (block_at s (extra_bitmaps g));
  eg_inodes : bitmap_is (fun o => ipg <=? o) (block_at s (extra_bitmaps g + 1))
}.

Lemma static_of_bounds g : 0 <= static_of g <= 1025.
Proof.
  unfold static_of. pose proof (group_descriptor_blocks_bounds (fm_size s0)) as Ha. fold area in Ha.
  destruct (has_sparse_super g); lia.
Qed.

(** The two bitmaps lie in their group, behind its static blocks. *)
Definition extra_addr (g x : Z) : Prop := span (extra_bitmaps g * 4096) ((extra_bitmaps g + 2) * 4096) x.

Lemma extra_addr_group g x :
  extra_addr g x -> x / 4096 / GROUP = g /\ reserved_block area (x / 4096) = false.
Proof.
  intros Hx. unfold extra_addr, span, extra_bitmaps in Hx. pose proof (static_of_bounds g).
  assert (g * GROUP + static_of g <= x / 4096 < (g + 1) * GROUP) as Hb.
  { unfold GROUP in *. split; [apply Z.div_le_lower_bound|apply Z.div_lt_upper_bound]; lia. }
  split; [unfold GROUP in *; apply group_unique; lia|].
  replace (x / 4096) with (g * GROUP + (x / 4096 - g * GROUP)) by lia.
  rewrite reserved_in_group by lia. unfold static_of in Hb. destruct (has_sparse_super g); cbn [andb]; [|done]. lia.
Qed.

Lemma extra_group_frame A s s' g gd :
  wrote A s s' -> (forall x, extra_addr g x -> ~ A x) -> extra_group s g gd -> extra_group s' g gd.
Proof.
  intros Hw HA [H1 H2 H3 H4 H5 H6 H7 H8 H9 H10 H11]. unfold extra_addr, span in HA.
  assert (block_at s' (extra_bitmaps g) = block_at s (extra_bitmaps g)) as E1
    by (apply (block_frame A); [done|]; intros x Hx; apply HA; lia).
  assert (block_at s' (extra_bitmaps g + 1) = block_at s (extra_bitmaps g + 1)) as E2
    by (apply (block_frame A); [done|]; intros x Hx; apply HA; lia).
  rewrite <- E1 in H10. rewrite <- E2 in H11. exact (Build_extra_group _ _ _ H1 H2 H3 H4 H5 H6 H7 H8 H9 H10 H11).
Qed.

Record extra_groups (k : Z) (gt : GroupTotals) (s : Formatter) : Prop := {
  es_wrote : wrote (fun x => exists g, first <= g < first + k /\ extra_addr g x) s0 s;
  es_blocks : gt_used_blocks gt = gt_used_blocks gt0 + sum_groups (fun i => extra_used (first + i)) k;
  es_inodes : gt_used_inodes gt = gt_used_inodes gt0;
  es_descriptors : exists extras, gt_descriptors gt = gt_descriptors gt0 ++ extras /\ zlen extras = k /\
    forall i gd, extras !! i = Some gd -> extra_group s (first + Z.of_nat i) gd
}.

Lemma two_writes bm1 bm2 p s :
  fm_block_size s = BLOCK_SIZE -> zlen bm1 = 4096 -> zlen bm2 = 4096 ->
  exists s', (forall A (k : M A), (_ ← seek_to_block p; _ ← file_write_all bm1; _ ← file_write_all bm2; k) s = k s') /\
    wrote (span (p * 4096) ((p + 2) * 4096)) s s' /\ block_at s' p = bm1 /\ block_at s' (p + 1) = bm2.
Proof.
  intros Hb H1 H2. destruct (write_block_at p bm1 s Hb) as (s2 & R2 & W2 & P2 & B2 & _).
  destruct (write_wrote bm2 s2) as (s3 & R3 & W3 & P3 & B3 & _). rewrite H1 in *. rewrite P2, H2 in *.
  exists s3. split; [intros A k; by rewrite R2, (run_bind _ _ _ _ _ R3)|]. split; [|split].
  - apply (wrote_steps _ _ s2); eapply wrote_mono; [|exact W2| |exact W3]; unfold span; intros x; lia.
  - unfold block_at. rewrite (wrote_bytes _ _ _ _ _ W3); [done|]. unfold span. lia.
  - unfold block_at. by replace ((p + 1) * 4096) with (p * 4096 + 4096) by lia.
Qed.

Lemma blocks_in_extra g : blocks_in_extra_group BLOCK_SIZE (fm_size s0) total g = GROUP.
Proof.
  unfold blocks_in_extra_group. change (blocks_per_group BLOCK_SIZE) with GROUP. rewrite Hsize.
  destruct (g =? u32 (total - 1)); [|done].
  replace (total * 134217728 / BLOCK_SIZE) with (total * GROUP).
  - by rewrite Z.mod_mul.
  - change BLOCK_SIZE with 4096. replace (total * 134217728) with (total * GROUP * 4096) by (unfold GROUP; lia).
    by rewrite Z.div_mul.
Qed.

Lemma new_extra_group s g :
  first <= g < total ->
  bitmap_is (fun o => o <? extra_used g) (block_at s (extra_bitmaps g)) ->
  bitmap_is (fun o => ipg <=? o) (block_at s (extra_bitmaps g + 1)) ->
  extra_group s g (extra_group_descriptor ipg (g * GROUP + static_of g) (extra_bitmaps g)
    (saturating_sub GROUP (extra_used g)) (g =? u32 (total - 1))).
Proof.
  intros Hg Hb Hi. pose proof (ipg_bounds ipg Hipg) as [Hipg' _]. pose proof (static_of_bounds g) as Hs.
  assert (GROUP = 32768) as HG by done. unfold MAX_GROUPS in *.
  assert (extra_bitmaps g = g * GROUP + static_of g + tbl /\ extra_used g = static_of g + tbl + 2) as [E1 E2] by done.
  unfold extra_group_descriptor, saturating_sub.
  rewrite (u32_small (total - 1)), (u32_small (extra_bitmaps g + 1)), (u16_small (Z.max _ _)), (u16_small ipg)
    by (unfold_ranges; lia).
  constructor; cbn [gd_block_bitmap_lo gd_inode_bitmap_lo gd_inode_table_lo gd_free_blocks_count_lo
    gd_free_inodes_count_lo gd_used_dirs_count_lo gd_flags gd_itable_unused_lo]; try lia; [| |exact Hb|exact Hi].
  - unfold GroupDescriptor_wf. cbn [gd_block_bitmap_lo gd_inode_bitmap_lo gd_inode_table_lo gd_free_blocks_count_lo
      gd_free_inodes_count_lo gd_used_dirs_count_lo gd_flags gd_itable_unused_lo gd_exclude_bitmap_lo
      gd_block_bitmap_csum_lo gd_inode_bitmap_csum_lo gd_checksum]. unfold_ranges.
    assert (0 <= (if negb (g =? total - 1) then Z.lor bg_INODE_UNINIT bg_BLOCK_UNINIT else bg_INODE_UNINIT) < 65536)
      by (by destruct (g =? total - 1)). lia.
  - by destruct (g =? total - 1).
Qed.

Lemma commit_extra_group_step k gt s :
  0 <= k < total - first -> extra_groups k gt s ->
  exists gt' s', commit_extra_group total ipg tbl gt (first + k) s = (Ok gt', s') /\ extra_groups (k + 1) gt' s'.
Proof.
  intros Hk [Hw Hb Hi (extras & Hx & Hlen & Hd)]. destruct (wrote_state _ _ _ Hw) as (Ebs & Esz & _).
  set (g := first + k). pose proof (static_of_bounds g) as Hs. assert (GROUP = 32768) as HG by done.
  assert (extra_bitmaps g = g * GROUP + static_of g + tbl /\ extra_used g = static_of g + tbl + 2) as [E1 E2] by done.
  assert (0 <= g < total) as Hg by (unfold g; lia). unfold MAX_GROUPS in *.
  unfold commit_extra_group. rewrite (run_bind _ _ s BLOCK_SIZE s) by (unfold gets; congruence).
  rewrite (run_bind _ _ s (fm_size s0) s) by (unfold gets; congruence). cbv zeta.
  rewrite blocks_in_extra. change (blocks_per_group BLOCK_SIZE) with 32768.
  rewrite static_blocks_of by lia. fold area. fold (static_of g). rewrite (Z.min_l (static_of g)) by lia.
  rewrite (u32_small (g * 32768)), (u32_small (static_of g + tbl + 2)), (u32_small (g * 32768 + static_of g)),
    (u32_small (g * 32768 + static_of g + tbl)) by (unfold_ranges; lia).
  rewrite <- HG, <- E1, <- E2. rewrite (Z.min_l (extra_used g)) by lia.
  pose proof (extra_block_bitmap_spec (extra_used g) (g =? u32 (total - 1)) ltac:(lia)) as B1.
  pose proof (empty_inode_bitmap_spec ipg Hipg) as B2.
  destruct (two_writes _ _ (extra_bitmaps g) s ltac:(congruence) (bi_len _ _ B1) (bi_len _ _ B2)) as (s' & Hrun & Hw' & W1 & W2).
  rewrite Hrun. eexists _, s'. split; [reflexivity|]. rewrite <- W1 in B1. rewrite <- W2 in B2.
  pose proof (new_extra_group s' g ltac:(unfold g; lia) B1 B2) as Hnew.
  constructor; cbn [gt_used_blocks gt_used_inodes gt_descriptors].
  - eapply wrote_mono; [|apply (wrote_trans _ _ _ _ _ Hw Hw')]. intros x [(g' & Hg' & Hx')|Hx'].
    + exists g'. split; [lia|done].
    + exists g. split; [unfold g; lia|done].
  - rewrite Hb, <- Z.add_assoc. rewrite sum_groups_next by lia. apply u32_small.
    pose proof (sum_groups_bounds (fun i => extra_used (first + i)) k GROUP ltac:(lia)
      ltac:(intros i _; unfold extra_used; pose proof (static_of_bounds (first + i)); lia)).
    change (extra_used (first + k)) with (extra_used g). unfold_ranges. lia.
  - done.
  - exists (extras ++ [extra_group_descriptor ipg (g * GROUP + static_of g) (extra_bitmaps g)
      (saturating_sub GROUP (extra_used g)) (g =? u32 (total - 1))]).
    split; [by rewrite Hx, <- app_assoc|]. split; [rewrite zlen_app; change (zlen [_]) with 1; lia|].
    intros i gd Hgd. apply lookup_app_Some in Hgd as [Hgd|[Hge Hgd]].
    + eapply extra_group_frame; [exact Hw'| |by apply Hd]. intros x Hx1 Hx2.
      destruct (extra_addr_group _ _ Hx1) as [G1 _]. destruct (extra_addr_group g x Hx2) as [G2 _].
      apply lookup_lt_Some in Hgd. unfold zlen, g in *. lia.
    + destruct (i - length extras)%nat as [|j] eqn:Ej; [|done]. injection Hgd as <-.
      replace (first + Z.of_nat i) with g by (unfold zlen, g in *; lia). exact Hnew.
Qed.

Lemma commit_extra_groups_spec :
  exists gt s, fold_in (commit_extra_group total ipg tbl) gt0 (seqZ first (total - first)) s0 = (Ok gt, s) /\
    extra_groups (total - first) gt s.
Proof.
  destruct (fold_in_spec (commit_extra_group total ipg tbl) (fun done => extra_groups (zlen done))
    (seqZ first (total - first))) with gt0 s0 as (gt & s & Hrun & Hd).
  - intros done g rest gt s Hl HI.
    assert (g = first + zlen done /\ zlen done < total - first) as [-> Hg].
    { assert (seqZ first (total - first) !! length done = Some g) as Hlook by (by rewrite Hl, list_lookup_middle).
      apply lookup_seqZ in Hlook. unfold zlen. lia. }
    rewrite zlen_app. change (zlen [first + zlen done]) with 1. apply commit_extra_group_step; [|done].
    pose proof (zlen_nonneg done). lia.
  - change (zlen []) with 0. constructor; [apply wrote_refl| |done|].
    + change (sum_groups _ 0) with 0. lia.
    + exists []. split; [by rewrite app_nil_r|]. split; done.
  - exists gt, s. split; [done|]. unfold zlen in Hd. rewrite length_seqZ, Z2Nat.id in Hd by lia. done.
Qed.
End ExtraGroups.

(** ** The resize inode *)

(** [pointers] holds the copies of descriptor block [primary] in the groups. *)
Definition points_at (primary : Z) (groups pointers : list Z) : Prop :=
  forall j g, groups !! j = Some g -> get_u32 pointers (Z.of_nat j * 4) = primary + g * GROUP.

Lemma put_pointer_spec buf o v :
  0 <= o -> o + 4 <= zlen buf -> is_u32 v ->
  exists buf', put_pointer buf o v = Ok buf' /\ zlen buf' = zlen buf /\ get_u32 buf' o = v /\
    forall o', 0 <= o' -> o' + 4 <= o \/ o + 4 <= o' -> get_u32 buf' o' = get_u32 buf o'.
Proof.
  intros Ho Hl Hv. unfold put_pointer. replace (o + 4 <=? zlen buf) with true by lia. eexists. split; [done|].
  by apply put_u32_spec.
Qed.

Lemma backup_pointers_spec primary groups :
  0 <= primary <= 2048 -> zlen groups <= 1024 -> Forall (fun g => 0 <= g <= 131070) groups ->
  exists buf, backup_pointers BLOCK_SIZE primary groups = Ok buf /\ zlen buf = 4096 /\ points_at primary groups buf.
Proof.
  intros Hp Hl Hgs. unfold backup_pointers. change (blocks_per_group BLOCK_SIZE) with 32768.
  assert (forall l dn buf, groups = dn ++ l -> zlen buf = 4096 -> points_at primary dn buf ->
    exists buf', foldM (fun buf (e : nat * Z) => let '(idx, group) := e in
        put_pointer buf (Z.of_nat idx * 4) (u32 (primary + u32 (group * 32768)))) buf
        (imap (fun i g => ((length dn + i)%nat, g)) l) = Ok buf' /\ zlen buf' = 4096 /\ points_at primary groups buf') as H.
  { induction l as [|g l IH]; intros dn buf Hsplit Hz Hpt; cbn [imap foldM].
    - exists buf. rewrite Hsplit, app_nil_r. done.
    - assert (0 <= g <= 131070) as Hg.
      { apply (Forall_lookup_1 _ _ (length dn) g Hgs). by rewrite Hsplit, list_lookup_middle. }
      rewrite (u32_small (g * 32768)), (u32_small (primary + g * 32768)) by (unfold_ranges; lia). rewrite Nat.add_0_r.
      rewrite Hsplit, zlen_app, zlen_cons in Hl. pose proof (zlen_nonneg l).
      destruct (put_pointer_spec buf (Z.of_nat (length dn) * 4) (primary + g * 32768))
        as (b1 & -> & Hz1 & Hg1 & Hf1); [lia|unfold zlen in *; lia|unfold_ranges; lia|]. cbn [mbind res_bind].
      specialize (IH (dn ++ [g]) b1 ltac:(by rewrite Hsplit, <- app_assoc) ltac:(lia)).
      rewrite length_app in IH. cbn [length] in IH.
      rewrite (imap_ext _ (fun i g0 => ((length dn + 1 + i)%nat, g0))) by (intros i x _; unfold compose; f_equal; lia).
      apply IH. intros j g' Hj. destruct (decide (j = length dn)) as [->|Hne].
      + rewrite lookup_app_r, Nat.sub_diag in Hj by done. by injection Hj as <-.
      + apply lookup_lt_Some in Hj as Hlt. rewrite length_app in Hlt. cbn [length] in Hlt.
        rewrite lookup_app_l in Hj by lia. rewrite Hf1 by lia. by apply Hpt. }
  apply (H groups [] (zeros BLOCK_SIZE)); [done|done|]. intros j g Hj. done.
Qed.

Section ResizeBlocks.
Context (db : Z) (groups : list Z) (s0 : Formatter).
Hypothesis (Hbs : fm_block_size s0 = BLOCK_SIZE).
Hypothesis (Hdb : 0 <= db).
Hypothesis (Hgroups : zlen groups <= 1024 /\ Forall (fun g => 0 <= g <= 131070) groups).

(** The reserved blocks written so far, and the block that lists them. *)
Record reserved (k : Z) (dind : list Z) (s : Formatter) : Prop := {
  rs_wrote : wrote (span ((1 + db) * 4096) ((1 + db + k) * 4096)) s0 s;
  rs_dind : zlen dind = 4096;
  rs_listed : forall i, db <= i < db + k -> get_u32 dind (i * 4) = 1 + i;
  rs_points : forall i, db <= i < db + k -> points_at (1 + i) groups (block_at s (1 + i))
}.

Lemma reserve_block_step k dind s :
  0 <= k -> db + k < 1024 -> reserved k dind s ->
  exists dind' s', reserve_block db groups dind k s = (Ok dind', s') /\ reserved (k + 1) dind' s'.
Proof.
  intros Hk Hlt [Hw Hz Hl Hp]. destruct (wrote_state _ _ _ Hw) as (Ebs & _). destruct Hgroups as [Hlen Hgs].
  unfold reserve_block. rewrite (run_bind _ _ s BLOCK_SIZE s) by (unfold gets; congruence). cbv zeta.
  rewrite (u32_small (1 + db + k)), (u32_small (db + k)) by (unfold_ranges; lia).
  destruct (put_pointer_spec dind ((db + k) * 4) (1 + db + k)) as (d1 & Hput & Hz1 & Hg1 & Hf1); [lia|lia|unfold_ranges; lia|].
  destruct (backup_pointers_spec (1 + db + k) groups ltac:(lia) Hlen Hgs) as (buf & Hbuf & Hzb & Hpt).
  rewrite (run_bind _ _ s d1 s), (run_bind _ _ s buf s) by (unfold lift; congruence).
  destruct (write_block_at (1 + db + k) buf s ltac:(congruence)) as (s2 & R2 & W2 & P2 & B2 & _). rewrite R2. rewrite Hzb in *.
  exists d1, s2. split; [done|]. constructor.
  - apply (wrote_steps _ _ s); eapply wrote_mono; [|exact Hw| |exact W2]; unfold span; intros x; lia.
  - lia.
  - intros i Hi. destruct (decide (i = db + k)) as [->|]; [lia|]. rewrite Hf1 by lia. apply Hl. lia.
  - intros i Hi. destruct (decide (i = db + k)) as [->|].
    + unfold block_at. replace (1 + (db + k)) with (1 + db + k) by lia. by rewrite B2.
    + assert (block_at s2 (1 + i) = block_at s (1 + i)) as ->; [|apply Hp; lia].
      apply (block_frame _ _ _ _ W2). unfold span. lia.
Qed.

Lemma write_resize_inode_blocks_spec dind_block rsv :
  is_u32 (dind_block + 1) -> 0 <= rsv -> db + rsv <= 1024 ->
  let listed x := span ((1 + db) * 4096) ((1 + db + rsv) * 4096) x in
  let own x := span (dind_block * 4096) ((dind_block + 1) * 4096) x in
  (forall x, own x -> ~ listed x) ->
  exists s, write_resize_inode_blocks dind_block db rsv groups s0 = (Ok tt, s) /\
    wrote (fun x => listed x \/ own x) s0 s /\ (dind_block + 1) * 4096 <= f_len (fm_file s) /\
    (forall i, db <= i < db + rsv -> get_u32 (block_at s dind_block) (i * 4) = 1 + i) /\
    (forall i, db <= i < db + rsv -> points_at (1 + i) groups (block_at s (1 + i))).
Proof.
  intros Hd Hr Hsum listed own Hsep. unfold write_resize_inode_blocks.
  rewrite (run_bind _ _ s0 BLOCK_SIZE s0) by (unfold gets; congruence).
  destruct (fold_in_spec (reserve_block db groups) (fun done => reserved (zlen done)) (seqZ 0 rsv))
    with (zeros BLOCK_SIZE) s0 as (dind & s1 & R1 & HI).
  - intros dn k rest buf s Hl HI.
    assert (k = zlen dn /\ zlen dn < rsv) as [-> Hk].
    { assert (seqZ 0 rsv !! length dn = Some k) as Hlook by (by rewrite Hl, list_lookup_middle).
      apply lookup_seqZ in Hlook. unfold zlen. lia. }
    rewrite zlen_app. change (zlen [zlen dn]) with 1. pose proof (zlen_nonneg dn). apply reserve_block_step; [lia..|done].
  - change (zlen []) with 0. constructor; [apply wrote_refl|done|intros; lia|intros; lia].
  - rewrite (run_bind _ _ _ _ _ R1). unfold zlen in HI. rewrite length_seqZ, Z2Nat.id in HI by lia.
    destruct HI as [Hw Hz Hl Hp]. destruct (wrote_state _ _ _ Hw) as (Ebs & _).
    destruct (write_block_at dind_block dind s1 ltac:(congruence)) as (s2 & R2 & W2 & P2 & B2 & L2). rewrite R2. rewrite Hz in *.
    destruct (seek_wrote (fun _ => False) (u32 (dind_block + 1)) s2) as (s3 & R3 & W3 & _ & D3).
    { destruct (wrote_state _ _ _ W2) as (E & _). congruence. }
    exists s3. split; [done|].
    assert (forall b, block_at s3 b = block_at s2 b) as E3 by (intros b; apply bytes_at_ext; intros x _; by rewrite D3).
    split; [|split; [etransitivity; [|apply W3]; lia|split]].
    + eapply wrote_mono; [|apply (wrote_trans _ _ _ _ _ (wrote_trans _ _ _ _ _ Hw W2) W3)].
      intros x [[Hx|Hx]|[]]; [by left|right]. unfold own, span in *. lia.
    + intros i Hi. rewrite E3. unfold block_at. rewrite B2. by apply Hl.
    + intros i Hi. rewrite E3. rewrite (block_frame _ _ _ _ W2); [by apply Hp|].
      intros x Hx Hown. apply (Hsep x); unfold own, listed, span in *; lia.
Qed.
End ResizeBlocks.
