(* ===== verification/CloseSkips.v ===== *)
(** How far the builder's position moves while payload is written.

    Payload skips the static metadata of the groups with a superblock copy.
    There are few such groups, each is skipped once, and every range of blocks
    but the first starts behind such a skip.  [reach] is the position with the
    skips still to come; writing [n] bytes moves it by at most [n]. *)

From stdpp Require Import gmap.
From S2P Require Import Prelude Bytes Layout Errors Disk FileTree Extent Geometry Formatter Payload.
From S2P Require Import Close CloseBitmaps CloseWrites.

(** ** Counting *)

Lemma count_mono P Q lo n :
  (forall x, lo <= x < lo + n -> P x = true -> Q x = true) -> count P lo n <= count Q lo n.
Proof.
  intros H. unfold count, zlen. apply inj_le.
  assert (forall x, x ∈ seqZ lo n -> P x = true -> Q x = true) as Hl by (intros x Hx%elem_of_seqZ; apply H; lia).
  revert Hl. generalize (seqZ lo n) as l. induction l as [|a l IH]; intros Hl; [done|]. cbn [List.filter].
  assert (length (List.filter P l) <= length (List.filter Q l))%nat by (apply IH; intros x Hx; apply Hl; by right).
  specialize (Hl a ltac:(by left)). destruct (P a); [rewrite Hl by done; cbn [length]; lia|]. destruct (Q a); cbn [length]; lia.
Qed.

Lemma count_more P Q lo n i :
  lo <= i < lo + n -> P i = false -> Q i = true -> (forall x, lo <= x < lo + n -> P x = true -> Q x = true) ->
  count P lo n + 1 <= count Q lo n.
Proof.
  intros Hi HP HQ H. rewrite <- (count_insert P (fun x => P x || (x =? i)) lo n i Hi HP ltac:(done)).
  apply count_mono. intros x Hx Ho. apply orb_prop in Ho as [Hp|E%Z.eqb_eq]; [by apply H|by subst].
Qed.

(** ** Skips *)

Definition SKIP : Z := 4096 * 1025.

Section Skips.
Context (area : Z).
Hypothesis (Harea : 0 <= area <= 1024).

(** Where the static metadata of a group ends. *)
Definition static_limit (g : Z) : Z := (g * 32768 + 1 + area) * 4096.

(** The groups whose static metadata lies behind [p]. *)
Definition crossed (p : Z) : Z := count (fun g => has_sparse_super g && (static_limit g <=? p)) 0 131073.

Definition reach (p : Z) : Z := p + SKIP * (61 - crossed p).

Lemma crossed_bounds p : 0 <= crossed p <= 61.
Proof.
  split; [apply count_bounds; lia|]. unfold crossed, count. apply sparse_groups_few.
  - apply NoDup_ListNoDup, List.NoDup_filter, NoDup_ListNoDup, NoDup_seqZ.
  - intros g [Hg%list_elem_of_In%elem_of_seqZ [Hs _]%andb_prop]%list_elem_of_In%List.filter_In. split; [lia|done].
Qed.

Lemma crossed_mono p p' : p <= p' -> crossed p <= crossed p'.
Proof. intros Hp. apply count_mono. intros g _ [-> Hl]%andb_prop. cbn [andb]. lia. Qed.

Lemma reach_pos p : p <= reach p <= p + SKIP * 61.
Proof. unfold reach, SKIP. pose proof (crossed_bounds p). lia. Qed.

Lemma reach_step p n : 0 <= n -> reach (p + n) <= reach p + n.
Proof. intros Hn. unfold reach, SKIP. pose proof (crossed_mono p (p + n) ltac:(lia)). lia. Qed.

(** A skip passes the static metadata of one more group. *)
Lemma skip_crossed size p :
  group_descriptor_blocks BLOCK_SIZE size = area -> 0 <= p -> p / 4096 <= u32_max ->
  let q := payload_pos size p in
  reach q <= reach p /\ (q <> p -> crossed p + 1 <= crossed q).
Proof.
  intros Hsize Hp Hmax q. destruct (Z.eq_dec q p) as [->|Hne]; [split; [lia|done]|].
  assert (crossed p + 1 <= crossed q /\ q <= p + SKIP) as [Hc Hq]; [|unfold reach, SKIP in *; split; [lia|done]].
  unfold q, payload_pos in *. destruct (Z.eqb_spec (p mod 4096) 0) as [Ha|]; [|done].
  assert (is_u32 (p / 4096)) as Hu by (unfold_ranges; split; [apply Z.div_pos; lia|lia]).
  pose proof (aligned_pos p Ha) as Hpa. rewrite reserved_end_eq, Hsize in * by done.
  destruct (reserved_block area (p / 4096)) eqn:Er; [|lia]. set (b := p / 4096) in *.
  unfold reserved_block in Er. apply andb_prop in Er as [Hs Hm%Z.ltb_lt]. pose proof (in_group b) as Hg.
  pose proof (Z.div_mod b 32768 ltac:(lia)) as Hdm. unfold_ranges. split; [|unfold SKIP; lia].
  apply (count_more _ _ 0 131073 (b / 32768)).
  - split; [apply Z.div_pos; lia|]. assert (b / 32768 < 131073) by (apply Z.div_lt_upper_bound; lia). lia.
  - rewrite Hs. cbn [andb]. unfold static_limit. lia.
  - rewrite Hs. cbn [andb]. unfold static_limit. lia.
  - intros g _ [-> Hl]%andb_prop. cbn [andb]. lia.
Qed.

(** ** The write loop *)

(** The last block recorded holds the byte before the position. *)
Definition tight (s : Formatter) (ranges : list BlockRange) : Prop :=
  ranges = [] \/ last_block ranges = Some ((fpos s - 1) / 4096).

Definition weight (ranges : list BlockRange) : Z := Z.max 1 (zlen ranges).

Lemma record_weight ranges b :
  weight (record_block_range ranges b) <= weight ranges + 1 /\
  (ranges_ok ranges -> ranges = [] \/ last_block ranges = Some b \/ last_block ranges = Some (b - 1) ->
   weight (record_block_range ranges b) = weight ranges).
Proof.
  unfold weight, record_block_range. destruct ranges as [|r rs _] using rev_ind.
  { cbn [list.last]. split; [change (zlen ([] ++ _)) with 1; lia|done]. }
  unfold last_block. rewrite last_snoc, !zlen_app. change (zlen [r]) with 1. pose proof (zlen_nonneg rs).
  destruct (_ && _) eqn:Hin; [rewrite zlen_app; change (zlen [r]) with 1; split; [lia|done]|].
  destruct (Z.eqb_spec (br_end r) b) as [E|Hne].
  - rewrite length_app. cbn [length]. rewrite Nat.add_sub, take_app_length, zlen_app. change (zlen [_]) with 1. split; [lia|done].
  - rewrite !zlen_app. change (zlen [_]) with 1. split; [lia|]. intros Hok [Hnil|Hl].
    + apply app_nil in Hnil as [_ [=]].
    + apply Forall_app in Hok as [_ [Hr _]%Forall_cons_1]. destruct Hl as [[= Hl]|[= Hl]]; lia.
Qed.

(** The size may grow to [limit] without changing the descriptor area. *)
Definition area_until (size limit : Z) : Prop :=
  forall z, size <= z <= Z.max size limit -> group_descriptor_blocks BLOCK_SIZE z = area.

Lemma area_until_grow size limit size' :
  area_until size limit -> size <= size' <= Z.max size limit -> area_until size' limit.
Proof. intros H Hs z Hz. apply H. lia. Qed.

Lemma loop_reach fuel limit : limit <= LIMIT -> forall bytes ranges s,
  fm_block_size s = BLOCK_SIZE -> 0 <= fpos s -> area_until (fm_size s) limit ->
  reach (fpos s) + zlen bytes <= limit -> ranges_ok ranges -> tight s ranges ->
  let out := write_payload_loop fuel bytes ranges s in
  reach (fpos out.2) <= reach (fpos s) + zlen bytes /\
  f_len (fm_file out.2) <= Z.max (f_len (fm_file s)) (fpos out.2) /\
  (forall ranges', out.1 = Ok ranges' ->
    weight ranges' + crossed (fpos s) <= weight ranges + crossed (fpos out.2) /\
    (bytes <> [] -> fpos out.2 <= f_len (fm_file out.2)) /\ tight out.2 ranges').
Proof.
  intros Hlim. induction fuel as [|fuel IH]; intros bytes ranges s Hbs Hp Harea' Hroom Hok Ht out; subst out.
  { cbn [write_payload_loop]. unfold panic. cbn [fst snd]. pose proof (zlen_nonneg bytes). split; [lia|]. split; [lia|]. intros ranges' [=]. }
  destruct (decide (bytes = [])) as [->|Hne].
  { cbn [write_payload_loop]. change (0 <? zlen []) with false. cbn. change (zlen []) with 0. split; [lia|]. split; [lia|]. intros ? [= <-]. split; [lia|done]. }
  pose proof (zlen_pos bytes Hne) as Hz. pose proof (reach_pos (fpos s)) as Hr.
  assert (fpos s / 4096 <= u32_max) as Hmax by (apply Z.div_le_upper_bound; unfold LIMIT in *; lia).
  rewrite write_turn by done. cbv zeta.
  destruct (payload_pos_spec (fm_size s) (fpos s) Hp Hmax) as (Hle & Hu & Hm & Hun & _).
  destruct (skip_crossed (fm_size s) (fpos s) (Harea' (fm_size s) ltac:(lia)) Hp Hmax) as [Hskip Hcr].
  pose proof (chunk_len s bytes Hne) as (Hc & Hk0 & Hk1).
  set (q := payload_pos (fm_size s) (fpos s)) in *. set (n := Z.min (4096 - q mod 4096) (zlen bytes)) in *.
  set (s1 := after_write q (take (Z.to_nat n) bytes) s).
  pose proof (after_write_pos q (take (Z.to_nat n) bytes) s) as P1. fold s1 in P1. rewrite Hc in P1.
  assert (fm_block_size s1 = BLOCK_SIZE /\ fm_size s1 = Z.max (fm_size s) (q + n) /\
    q + n <= f_len (fm_file s1) <= Z.max (f_len (fm_file s)) (q + n)) as (B1 & Z1 & L1).
  { rewrite <- Hc. unfold s1. destruct s as [[]]. split; [done|]. split; [done|]. split; [apply f_len_write_end; rewrite Hc; lia|].
    unfold after_write, write_all, write_at. cbn. case_match; lia. }
  assert (zlen (drop (Z.to_nat n) bytes) = zlen bytes - n) as Hd by (unfold zlen in *; rewrite length_drop; lia).
  pose proof (reach_step q n ltac:(lia)) as Hstep. pose proof (reach_pos (q + n)) as Hr1.
  pose proof (Z.div_mod q 4096 ltac:(lia)) as Hdq. pose proof (Z.mod_pos_bound q 4096 ltac:(lia)) as Hmb.
  assert ((q + n - 1) / 4096 = q / 4096) as Hlastq.
  { replace (q + n - 1) with (q mod 4096 + n - 1 + q / 4096 * 4096) by lia. rewrite Z.div_add, Z.div_small by lia. lia. }
  assert (q / 4096 < u32_max) as Hqm by (apply Z.div_lt_upper_bound; unfold LIMIT in *; lia).
  assert (forall x, last_block ranges = Some x -> x = (fpos s - 1) / 4096) as Htl.
  { intros x Hx. destruct Ht as [->|Ht]; [done|congruence]. }
  assert ((fpos s - 1) / 4096 <= q / 4096) as Hbefore by (apply Z.div_le_mono; lia).
  destruct (record_block_range_spec ranges (q / 4096)) as (Hok1 & Hl1 & _);
    [unfold is_u32 in Hu; lia|done|intros x ->%Htl; lia|].
  destruct (IH (drop (Z.to_nat n) bytes) (record_block_range ranges (q / 4096)) s1 B1) as (H1 & H1' & H2); [lia| |rewrite P1; lia|done| |].
  { apply (area_until_grow (fm_size s)); [done|]. lia. }
  { right. by rewrite P1, Hlastq. }
  rewrite P1 in H1, H2. split; [lia|].
  pose proof (write_pos_mono fuel (drop (Z.to_nat n) bytes) (record_block_range ranges (q / 4096)) s1 B1 ltac:(lia)) as Hmono.
  split; [lia|]. intros ranges' Hout. destruct (H2 ranges' Hout) as (W2 & F2 & T2).
  destruct (record_weight ranges (q / 4096)) as [Wle Weq]. split; [|split; [|exact T2]].
  - destruct (Z.eq_dec q (fpos s)) as [E|Hne'].
    + rewrite Weq in W2; [pose proof (crossed_mono (fpos s) (q + n) ltac:(lia)); lia|done|].
      destruct Ht as [->|Ht]; [by left|right]. rewrite Ht, E.
      pose proof (Z.div_mod (fpos s) 4096 ltac:(lia)). pose proof (Z.div_mod (fpos s - 1) 4096 ltac:(lia)).
      pose proof (Z.mod_pos_bound (fpos s) 4096 ltac:(lia)). pose proof (Z.mod_pos_bound (fpos s - 1) 4096 ltac:(lia)).
      destruct (Z.eq_dec ((fpos s - 1) / 4096) (fpos s / 4096)); [left; congruence|right; f_equal; lia].
    + specialize (Hcr Hne'). pose proof (crossed_mono q (q + n) ltac:(lia)). lia.
  - intros _. destruct (decide (drop (Z.to_nat n) bytes = [])) as [E|E]; [|by apply F2].
    rewrite E. destruct fuel; cbn [write_payload_loop] in *; change (0 <? zlen []) with false; cbn; lia.
Qed.

(** ** Aligned payload *)

(** What [write_aligned_payload_bytes] leaves when it writes whole blocks. *)
Record payload_written (s : Formatter) (bytes : list Z) (ranges : list BlockRange) (s' : Formatter) : Prop := {
  pw_state : s' = set_fm_size (fm_size s') (set_fm_file (fm_file s') s);
  pw_size : fm_size s <= fm_size s' <= Z.max (fm_size s) (fpos s');
  pw_pos : fpos s <= fpos s' /\ fpos s' mod 4096 = 0;
  pw_reach : reach (fpos s') <= reach (fpos s) + 4096 + zlen bytes;
  pw_before : forall x, x < fpos s -> f_data (fm_file s') x = f_data (fm_file s) x;
  pw_ranges : ranges_ok ranges /\ zlen ranges <= 62;
  pw_blocks : Forall (fun b => fpos s <= b * 4096 /\ (b + 1) * 4096 <= fpos s' /\ reserved_block area b = false) (file_blocks ranges);
  pw_count : 4096 * zlen (file_blocks ranges) = zlen bytes;
  pw_data : payload_at (fm_file s') ranges bytes;
  pw_len : fpos s' <= f_len (fm_file s') <= Z.max (f_len (fm_file s)) (fpos s')
}.

Lemma block_below s ranges w j b :
  payload_inv s ranges w -> fpos s mod 4096 = 0 -> file_blocks ranges !! j = Some b -> (b + 1) * 4096 <= fpos s.
Proof.
  intros [_ Hp _ _ _ Hlen Haddr _] Ha Hj. rewrite Z.mod_opp_l_z in Hlen by (done || lia).
  apply lookup_lt_Some in Hj as Hlt. unfold zlen in Hlen at 2.
  assert ((4096 * Z.of_nat j + 4095) / 4096 = Z.of_nat j /\ (4096 * Z.of_nat j + 4095) mod 4096 = 4095) as [E1 E2] by (apply split_index; lia).
  specialize (Haddr (4096 * Z.of_nat j + 4095) ltac:(lia)). unfold byte_addr in Haddr. rewrite E1, E2, Nat2Z.id in Haddr.
  rewrite (nth_lookup_Some _ _ 0 b Hj) in Haddr. pose proof (aligned_pos (fpos s) Ha). lia.
Qed.

Lemma write_aligned_spec limit bytes s :
  fm_block_size s = BLOCK_SIZE -> 0 <= fpos s -> 1 <= fm_size s -> fm_size s <= LIMIT -> limit <= LIMIT ->
  area_until (fm_size s) limit -> reach (fpos s) + 4096 + zlen bytes <= limit ->
  0 < zlen bytes -> zlen bytes mod 4096 = 0 ->
  exists ranges s', write_aligned_payload_bytes bytes s = (Ok ranges, s') /\ payload_written s bytes ranges s'.
Proof.
  intros Hbs Hp Hsz Hszl Hlim Har Hroom Hz Hmul. pose proof (reach_pos (fpos s)) as Hr0.
  destruct (aligned_spec (fpos s)) as (Hal & Ham & _). set (p1 := aligned (fpos s)) in *.
  assert (reach p1 <= reach (fpos s) + 4096) as R1.
  { pose proof (reach_step (fpos s) (p1 - fpos s) ltac:(lia)) as H. replace (fpos s + (p1 - fpos s)) with p1 in H by lia. lia. }
  pose proof (reach_pos p1) as Hr1. assert (p1 / 4096 <= u32_max) as Hm1 by (apply Z.div_le_upper_bound; unfold LIMIT in *; lia).
  assert (fpos s / 4096 + 1 <= u32_max) as Hm0.
  { assert (fpos s / 4096 < u32_max) by (apply Z.div_lt_upper_bound; unfold LIMIT in *; lia). lia. }
  destruct (skip_crossed (fm_size s) p1 (Har (fm_size s) ltac:(lia)) ltac:(lia) Hm1) as [R2 _].
  destruct (payload_pos_spec (fm_size s) p1 ltac:(lia) Hm1) as (Hq & _ & Hqm & _). set (q := payload_pos (fm_size s) p1) in *.
  set (s1 := at_pos p1 s). set (s2 := at_pos q s).
  assert (fpos s1 = p1 /\ fm_block_size s1 = BLOCK_SIZE /\ fm_size s1 = fm_size s) as (P1 & B1 & Z1) by (by destruct s).
  assert (fpos s2 = q /\ fm_block_size s2 = BLOCK_SIZE /\ fm_size s2 = fm_size s /\ f_data (fm_file s2) = f_data (fm_file s)) as (P2 & B2 & Z2 & D2) by (by destruct s).
  assert (skip_reserved_metadata_blocks s1 = (Ok tt, s2)) as Hskip.
  { rewrite skip_reserved_spec by (rewrite ?P1; done || lia). rewrite P1, Z1. unfold s2, s1. by destruct s. }
  pose proof (payload_inv_start s2 B2 ltac:(lia) ltac:(rewrite P2; congruence)) as Hstart.
  destruct (loop_reach (S (length bytes)) limit Hlim bytes [] s2 B2) as (H1 & H1' & H2);
    [lia|by rewrite Z2|rewrite P2; lia|exact (List.Forall_nil _)|by left|].
  pose proof (reach_pos (fpos (write_payload_loop (S (length bytes)) bytes [] s2).2)) as Hend. rewrite P2 in H1, H2.
  destruct (write_payload_loop_spec (S (length bytes)) bytes [] s2 [] Hstart ltac:(lia)) as (ranges & s3 & Hrun & Hinv & (F3 & S3 & D3 & P3) & (new & Hnew & Hfree));
    [lia|lia|]. rewrite Hrun in H1, H1', H2, Hend. cbn [fst snd app] in *. destruct (H2 ranges eq_refl) as (W3 & L3 & _).
  assert (fpos s3 mod 4096 = 0) as Ha3.
  { pose proof (pi_len _ _ _ Hinv) as Hl. pose proof (Z.mod_pos_bound (- fpos s3) 4096 ltac:(lia)).
    assert ((- fpos s3) mod 4096 = 0) as H0; [|apply Z.mod_opp_l_z in H0; [by rewrite Z.opp_involutive in H0|lia]].
    apply Z.mod_divide in Hmul as [m Hm]; [|lia]. lia. }
  exists ranges, s3. split.
  - unfold write_aligned_payload_bytes. rewrite (run_bind _ _ _ _ _ (align_spec s Hbs Hp Hm0)), (run_bind _ _ _ _ _ Hskip).
    rewrite (run_bind _ _ _ _ _ Hrun), (run_bind _ _ s3 tt s3); [done|]. apply align_aligned; [apply Hinv|done].
  - rewrite P2, Z2 in *. constructor.
    + rewrite F3 at 1. unfold s2. by destruct s.
    + lia.
    + split; [lia|done].
    + lia.
    + intros x Hx. rewrite D3 by lia. by rewrite D2.
    + split; [apply Hinv|]. unfold weight in W3. change (zlen []) with 0 in W3. pose proof (crossed_bounds (fpos s3)). pose proof (crossed_bounds q). lia.
    + apply list.Forall_forall. intros b Hb. pose proof Hb as [j Hj]%list_elem_of_lookup.
      rewrite Hnew in Hb. rewrite (Har (fm_size s3)), (Har (fm_size s)) in Hfree by lia.
      destruct (proj1 (list.Forall_forall _ _) (Hfree eq_refl) b Hb) as [Hb1 Hb2]. split; [lia|]. split; [|done].
      by apply (block_below s3 ranges bytes j).
    + rewrite (pi_len _ _ _ Hinv), Z.mod_opp_l_z by (done || lia). lia.
    + apply Hinv.
    + split; [|replace (f_len (fm_file s)) with (f_len (fm_file s2)) by (unfold s2; by destruct s as [[]]); done].
      apply L3. intros ->. change (zlen []) with 0 in Hz. lia.
Qed.
End Skips.
