(* ===== verification/ClosePrimary.v ===== *)
(** The last writes of [close]: the descriptor table, the superblock and their
    backups. *)

From stdpp Require Import gmap.
From S2P Require Import Prelude Bytes Types Checksum Layout Errors Disk Tables FileTree Extent.
From S2P Require Import Geometry Flex Formatter Payload Close CloseBitmaps CloseWrites.

(** ** Descriptor table *)

Lemma stamp_wf uuid n gd :
  Forall is_u8 uuid -> GroupDescriptor_wf gd -> GroupDescriptor_wf (stamp_descriptor uuid n gd).
Proof. intros Hu Hwf. apply set_gd_checksum_wf; [|done]. by apply group_descriptor_range. Qed.

(** The table holds the stamped descriptors one behind the other. *)
Lemma descriptor_table_spec uuid gdc ds :
  Forall is_u8 uuid -> Forall GroupDescriptor_wf ds -> 32 * zlen ds <= gdc * 4096 ->
  exists buf, descriptor_table uuid BLOCK_SIZE gdc ds = Ok buf /\ zlen buf = gdc * 4096 /\
    forall i gd, ds !! i = Some gd -> read_at (32 * Z.of_nat i) buf = stamp_descriptor uuid i gd.
Proof.
  intros Hu Hwf Hl. unfold descriptor_table. pose proof (zlen_nonneg ds). change BLOCK_SIZE with 4096.
  destruct (put_table_spec (E := FormatError) (A := GroupDescriptor) (imap (stamp_descriptor uuid) ds) 0 (zeros (gdc * 4096)))
    as (buf & Hrun & Hz & Hr & _).
  - apply Forall_lookup_2. intros i gd Hi. rewrite list_lookup_imap in Hi.
    destruct (ds !! i) as [d|] eqn:Hd; [|done]. injection Hi as <-. apply stamp_wf; [done|].
    by apply (Forall_lookup_1 _ _ _ _ Hwf Hd).
  - lia.
  - rewrite length_imap, zlen_zeros by lia. change (rec_size GroupDescriptor) with 32. unfold zlen in Hl. lia.
  - rewrite zlen_zeros in Hz by lia. exists buf. split; [done|]. split; [done|]. intros i gd Hi.
    rewrite <- (Hr i (stamp_descriptor uuid i gd)); [|by rewrite list_lookup_imap, Hi].
    by rewrite Z.add_0_l.
Qed.

(** ** Superblock *)

Lemma image_superblock_wf total ipg rsv gt uuid name journal :
  is_u32 ipg -> is_bytes 16 uuid -> is_bytes 16 name -> is_words 17 journal ->
  SuperBlock_wf (final_superblock BLOCK_SIZE total ipg rsv gt uuid name journal).
Proof.
  intros Hi Hu Hn Hj. unfold SuperBlock_wf, final_superblock.
  change (trailing_zeros (BLOCK_SIZE / 1024)) with 2. change (blocks_per_group BLOCK_SIZE) with 32768.
  cbn [sb_inodes_count sb_blocks_count_lo sb_r_blocks_count_lo]. cbn.
  assert (forall n, 0 <= n -> is_bytes n (zeros n) /\ is_words n (zeros n)) as Hz.
  { intros n Hn'. by repeat split; try (apply zlen_zeros; lia); apply Forall_zeros. }
  split_and!; first [done | apply u32_range | apply u16_range | by apply Hz].
Qed.

(** ** Backups *)

Section Backups.
Context (sb : SuperBlock) (table : list Z) (gdc : Z) (groups : list Z) (s0 : Formatter).
Hypothesis (Hbs : fm_block_size s0 = BLOCK_SIZE).
Hypothesis (Hsb : SuperBlock_wf sb).
Hypothesis (Hgdc : 1 <= gdc <= 1024).
Hypothesis (Htable : zlen table = gdc * 4096).
Hypothesis (Hgroups : Forall (fun g => 1 <= g <= 131070) groups).
Hypothesis (Hdistinct : NoDup groups).

(** The bytes of the superblock copy and descriptor table of a group. *)
Definition copy_addr (g x : Z) : Prop := span (g * GROUP * 4096) ((g * GROUP + 1 + gdc) * 4096) x.

Lemma copy_addr_group g x : copy_addr g x -> x / 4096 / GROUP = g.
Proof.
  unfold copy_addr, span, GROUP. intros Hx. apply group_unique.
  split; [apply Z.div_le_lower_bound|apply Z.div_lt_upper_bound]; lia.
Qed.

Record backed_up (s : Formatter) (g : Z) : Prop := {
  bk_superblock : SuperBlock_read_from (bytes_at (fm_file s) (g * GROUP * 4096) 1024) = set_sb_block_group_nr (u16 g) sb;
  bk_table : bytes_at (fm_file s) ((g * GROUP + 1) * 4096) (gdc * 4096) = table
}.

Lemma backed_up_frame A s s' g :
  wrote A s s' -> (forall x, copy_addr g x -> ~ A x) -> backed_up s g -> backed_up s' g.
Proof.
  intros Hw HA [H1 H2]. unfold copy_addr, span in HA. constructor.
  - rewrite (wrote_bytes A s s'); [done|done|]. intros x Hx. apply HA. lia.
  - rewrite (wrote_bytes A s s'); [done|done|]. intros x Hx. apply HA. lia.
Qed.

Record backups (done : list Z) (buf : list Z) (s : Formatter) : Prop := {
  bs_buf : zlen buf = 1024;
  bs_wrote : wrote (fun x => exists g, g ∈ done /\ copy_addr g x) s0 s;
  bs_copies : forall g, g ∈ done -> backed_up s g
}.

Lemma group_nr_wf g : 1 <= g <= 131070 -> SuperBlock_wf (set_sb_block_group_nr (u16 g) sb).
Proof.
  intros Hg. unfold set_sb_block_group_nr. pose proof Hsb as Hwf. unfold SuperBlock_wf in Hwf. destruct_and! Hwf.
  apply sb_put_wf; done || apply u16_range.
Qed.

Lemma write_backup_step done g rest buf s :
  groups = done ++ g :: rest -> backups done buf s ->
  exists buf' s', write_backup sb table buf g s = (Ok buf', s') /\ backups (done ++ [g]) buf' s'.
Proof.
  intros Hl [Hz Hw Hc]. destruct (wrote_state _ _ _ Hw) as (Ebs & _). assert (GROUP = 32768) as HG by done.
  assert (1 <= g <= 131070) as Hg.
  { apply (Forall_lookup_1 _ _ (length done) g Hgroups). by rewrite Hl, list_lookup_middle. }
  unfold write_backup. rewrite (run_bind _ _ s BLOCK_SIZE s) by (unfold gets; congruence). cbv zeta.
  change (blocks_per_group BLOCK_SIZE) with 32768.
  rewrite (u32_small (g * 32768)), (u32_small (g * 32768 + 1)) by (unfold_ranges; lia). rewrite <- HG.
  pose proof (group_nr_wf g Hg) as Hwf. set (copy := set_sb_block_group_nr (u16 g) sb) in *.
  assert (zlen (SuperBlock_write_to copy buf) = 1024) as Hz1.
  { by rewrite zlen_SuperBlock_write. }
  destruct (write_block_at (g * GROUP) (SuperBlock_write_to copy buf) s ltac:(congruence)) as (s1 & R1 & W1 & _ & B1 & _).
  rewrite R1, Hz1 in *. destruct (wrote_state _ _ _ W1) as (Ebs1 & _).
  destruct (write_block_at (g * GROUP + 1) table s1 ltac:(congruence)) as (s2 & R2 & W2 & _ & B2 & _).
  rewrite R2, Htable in *. eexists _, s2. split; [reflexivity|].
  assert (wrote (copy_addr g) s s2) as W.
  { apply (wrote_steps _ _ s1); eapply wrote_mono; [|exact W1| |exact W2]; unfold copy_addr, span; intros x; lia. }
  assert (backed_up s2 g) as Hnew.
  { constructor; [|done]. rewrite (wrote_bytes _ _ _ _ _ W2) by (unfold span; lia). rewrite B1.
    apply SuperBlock_read_write; [done|lia]. }
  constructor; [done| |].
  - eapply wrote_mono; [|apply (wrote_trans _ _ _ _ _ Hw W)]. intros x [(g' & Hg' & Hx)|Hx].
    + exists g'. split; [apply elem_of_app; by left|done].
    + exists g. split; [apply elem_of_app; right; by left|done].
  - intros g' [Hg'|Hg']%elem_of_app.
    + eapply backed_up_frame; [exact W| |by apply Hc]. intros x Hx1 Hx2.
      apply copy_addr_group in Hx1, Hx2. rewrite Hl in Hdistinct. apply list.NoDup_app in Hdistinct as (_ & Hno & _).
      apply (Hno g' Hg'), elem_of_cons. left. congruence.
    + apply list_elem_of_singleton in Hg' as ->. done.
Qed.

Lemma write_backups_spec buf :
  zlen buf = 1024 ->
  exists buf' s, fold_in (write_backup sb table) buf groups s0 = (Ok buf', s) /\ backups groups buf' s.
Proof.
  intros Hz. apply (fold_in_spec (write_backup sb table) backups).
  - intros done g rest b s Hl HI. by apply (write_backup_step done g rest).
  - constructor; [done|apply wrote_refl|]. intros g Hg. by apply not_elem_of_nil in Hg.
Qed.
End Backups.

(** ** The primary copy *)

Lemma geometry_backup_elem total g :
  g ∈ Geometry.backup_groups total <-> 1 <= g < total /\ has_sparse_super g = true.
Proof.
  unfold Geometry.backup_groups, has_sparse_super_backup. rewrite list_elem_of_In, List.filter_In, <- list_elem_of_In, elem_of_seqZ.
  rewrite andb_true_iff, negb_true_iff, Z.eqb_neq. split.
  - intros (Hg & _ & Hs). split; [lia|done].
  - intros [Hg Hs]. split; [lia|]. split; [lia|done].
Qed.

Lemma geometry_backup_nodup total : NoDup (Geometry.backup_groups total).
Proof. unfold Geometry.backup_groups. apply NoDup_ListNoDup, List.NoDup_filter, NoDup_ListNoDup, NoDup_seqZ. Qed.

Lemma geometry_backup_few total : total <= 131072 -> zlen (Geometry.backup_groups total) <= 61.
Proof.
  intros Ht. apply sparse_groups_few; [apply geometry_backup_nodup|].
  intros g [Hg Hs]%geometry_backup_elem. split; [lia|done].
Qed.

Lemma volume_name_spec label :
  (forall l, label = Some l -> zlen l <= 16 /\ Forall is_u8 l) ->
  exists name, volume_name label = Ok name /\ is_bytes 16 name.
Proof.
  intros Hl. unfold volume_name. destruct label as [l|].
  - destruct (Hl l eq_refl) as [Hz Hu]. replace (zlen l <=? 16) with true by lia. eexists. split; [done|].
    split; [by rewrite zlen_put|]. apply Forall_put; [by apply Forall_zeros|done].
  - eexists. split; [done|]. split; [done|by apply Forall_zeros].
Qed.

Lemma journal_backup_words inode : Inode_wf inode -> is_words 17 (journal_backup inode).
Proof.
  intros Hwf. unfold Inode_wf in Hwf. destruct_and! Hwf. split; [done|]. unfold journal_backup. apply Forall_app. split.
  - apply Forall_fmap, list.Forall_forall. intros i Hi%elem_of_seqZ.
    change (is_u32 (get_u32 (i_block inode) (4 * i))).
    match goal with H : is_bytes 60 _ |- _ => destruct H as [Hz Hb] end. apply get_u32_range; [done|lia..].
  - apply Forall_cons; [done|]. apply Forall_cons; [done|]. apply Forall_nil.
Qed.


(** The addresses of all superblock copies and descriptor tables. *)
Definition tables_addr (gdc total x : Z) : Prop :=
  span 0 ((1 + gdc) * 4096) x \/ exists g, g ∈ Geometry.backup_groups total /\ copy_addr gdc g x.

(** The boot sector, the superblock and the rest of the first block. *)
Lemma write_head_spec sb s :
  fm_block_size s = BLOCK_SIZE ->
  exists s', (forall A (k : M A),
      (_ ← seek_to_block 0; _ ← file_write_all (zeros 1024);
       _ ← file_write_all (SuperBlock_write_to sb (zeros 1024)); _ ← file_write_all (zeros 2048); k) s = k s') /\
    wrote (span 0 4096) s s' /\ bytes_at (fm_file s') 1024 1024 = SuperBlock_write_to sb (zeros 1024).
Proof.
  intros Hb. assert (zlen (SuperBlock_write_to sb (zeros 1024)) = 1024) as Hz by (by rewrite zlen_SuperBlock_write).
  destruct (write_block_at 0 (zeros 1024) s Hb) as (s1 & R1 & W1 & P1 & _).
  destruct (write_wrote (SuperBlock_write_to sb (zeros 1024)) s1) as (s2 & R2 & W2 & P2 & B2 & _).
  destruct (write_wrote (zeros 2048) s2) as (s3 & R3 & W3 & _ & _). rewrite Hz in *.
  change (zlen (zeros 1024)) with 1024 in *. change (zlen (zeros 2048)) with 2048 in *. rewrite P1 in *. rewrite P2 in *.
  exists s3. split; [intros A k; by rewrite R1, (run_bind _ _ _ _ _ R2), (run_bind _ _ _ _ _ R3)|]. split.
  - apply (wrote_steps _ _ s2); [apply (wrote_steps _ _ s1)|]; eapply wrote_mono;
      [|exact W1| |exact W2| |exact W3]; unfold span; intros x; lia.
  - rewrite (wrote_bytes _ _ _ _ _ W3) by (unfold span; lia). done.
Qed.

Section Primary.
Context (p : Plan) (rsv : Z) (gt : GroupTotals) (s0 : Formatter) (journal : Inode).
Let L := pn_layout p.
Let total := fl_total_groups L.
Let gdc := fl_gd_block_count L.
Hypothesis (Hbs : fm_block_size s0 = BLOCK_SIZE).
Hypothesis (Huuid : is_bytes 16 (fm_uuid s0)).
Hypothesis (Hlabel : forall l, fm_label s0 = Some l -> zlen l <= 16 /\ Forall is_u8 l).
Hypothesis (Hjournal : fm_inodes s0 !! 7%nat = Some journal /\ Inode_wf journal).
Hypothesis (Hipg : is_u32 (pn_inodes_per_group p)).
Hypothesis (Htotal : 1 <= total <= MAX_GROUPS).
Hypothesis (Hgdc : 1 <= gdc <= 1024).
Hypothesis (Hdescs : Forall GroupDescriptor_wf (gt_descriptors gt) /\ 32 * zlen (gt_descriptors gt) <= gdc * 4096).

(** The finished image: what the last writes leave behind. *)
Record finished (sb : SuperBlock) (table : list Z) (s : Formatter) : Prop := {
  fi_wrote : wrote (tables_addr gdc total) s0 s;
  fi_superblock : bytes_at (fm_file s) 1024 1024 = SuperBlock_write_to sb (zeros 1024);
  fi_table : bytes_at (fm_file s) 4096 (gdc * 4096) = table;
  fi_length : (1 + gdc) * 4096 <= f_len (fm_file s);
  fi_backups : forall g, g ∈ Geometry.backup_groups total -> backed_up sb table gdc s g
}.

Lemma write_primary_spec :
  exists name table s,
    let sb := final_superblock BLOCK_SIZE total (pn_inodes_per_group p) rsv gt (fm_uuid s0) name (journal_backup journal) in
    write_primary p rsv (Geometry.backup_groups total) gt s0 = (Ok tt, s) /\
    SuperBlock_wf sb /\ finished sb table s /\ zlen table = gdc * 4096 /\
    forall i gd, gt_descriptors gt !! i = Some gd -> read_at (32 * Z.of_nat i) table = stamp_descriptor (fm_uuid s0) i gd.
Proof.
  destruct (volume_name_spec (fm_label s0) Hlabel) as (name & Hname & Hnb).
  destruct (descriptor_table_spec (fm_uuid s0) gdc (gt_descriptors gt) (proj2 Huuid) (proj1 Hdescs) (proj2 Hdescs))
    as (table & Htab & Hzt & Hread).
  pose proof (image_superblock_wf total (pn_inodes_per_group p) rsv gt (fm_uuid s0) name (journal_backup journal)
    Hipg Huuid Hnb (journal_backup_words journal (proj2 Hjournal))) as Hwf.
  exists name, table. set (sb := final_superblock _ _ _ _ _ _ _ _) in *.
  unfold write_primary. rewrite (run_bind _ _ s0 BLOCK_SIZE s0) by (unfold gets; congruence).
  rewrite (run_bind _ _ s0 (fm_uuid s0) s0) by done. fold L gdc total.
  rewrite (run_bind _ _ s0 table s0) by (unfold lift; congruence).
  destruct (write_block_at 1 table s0 Hbs) as (s1 & R1 & W1 & _ & B1 & L1). rewrite R1, Hzt in *.
  destruct (wrote_state _ _ _ W1) as (E1 & _ & I1 & _ & _ & _ & La1).
  rewrite (run_bind _ _ s1 journal s1) by (unfold get_inode, or_panic; rewrite I1; change (inode_index JOURNAL_INODE_NUMBER) with 7%nat; by rewrite (proj1 Hjournal)).
  rewrite (run_bind _ _ s1 (fm_label s0) s1) by (unfold gets; congruence).
  rewrite (run_bind _ _ s1 name s1) by (unfold lift; congruence). cbv zeta. fold sb. clearbody sb.
  destruct (write_head_spec sb s1 ltac:(congruence)) as (s2 & R2 & W2 & B2). rewrite R2.
  destruct (wrote_state _ _ _ W2) as (E2 & _).
  destruct (write_backups_spec sb table gdc (Geometry.backup_groups total) s2 ltac:(congruence) Hwf Hgdc Hzt) with
    (SuperBlock_write_to sb (zeros 1024)) as (buf & s3 & R3 & [_ W3 C3]).
  { apply list.Forall_forall. intros g [Hg _]%geometry_backup_elem. unfold MAX_GROUPS in *. lia. }
  { apply geometry_backup_nodup. }
  { by rewrite zlen_SuperBlock_write. }
  exists s3. split; [by rewrite (run_bind _ _ _ _ _ R3)|]. split; [done|]. split; [|done].
  assert (forall x, x < GROUP * 4096 -> ~ (exists g, g ∈ Geometry.backup_groups total /\ copy_addr gdc g x)) as Hlow.
  { intros x Hx (g & [Hg _]%geometry_backup_elem & Hc). unfold copy_addr, span in Hc. unfold GROUP in *. lia. }
  assert (GROUP = 32768) as HG by done. constructor.
  - eapply wrote_mono; [|apply (wrote_trans _ _ _ _ _ (wrote_trans _ _ _ _ _ W1 W2) W3)].
    intros x [[Hx|Hx]|Hx]; [left|left|by right]; unfold span in *; lia.
  - rewrite (wrote_bytes _ _ _ _ _ W3) by (intros x Hx; apply Hlow; lia). done.
  - rewrite (wrote_bytes _ _ _ _ _ W3) by (intros x Hx; apply Hlow; lia).
    rewrite (wrote_bytes _ _ _ _ _ W2) by (unfold span; lia). done.
  - etransitivity; [|apply W3]. etransitivity; [|apply W2]. lia.
  - done.
Qed.
End Primary.
