(* ===== verification/ClosePlan.v ===== *)
(** The layout [close] decides on: the double-indirect block behind the
    directories, the number of groups, and the place of the shared metadata. *)

From stdpp Require Import gmap.
From S2P Require Import Prelude Bytes Types Layout Errors Disk FileTree Extent.
From S2P Require Import Geometry Flex Formatter Payload Close CloseBitmaps CloseWrites.

(** The largest image: all groups that 32-bit block numbers address. *)
Definition MAX_IMAGE : Z := MAX_GROUPS * 134217728.

(** Two TiB of data: below the free place of the layout search. *)
Definition DATA_MAX : Z := 2199023255552.

(** A builder whose directories are written. *)
Record ready (s : Formatter) : Prop := {
  rd_bs : fm_block_size s = BLOCK_SIZE;
  rd_pos : 0 <= fpos s <= DATA_MAX;
  rd_size : 1 <= fm_size s <= MAX_IMAGE;
  rd_len : f_len (fm_file s) <= MAX_IMAGE;
  rd_inodes : 10 <= zlen (fm_inodes s) <= 1073741824;
  rd_wf : Forall Inode_wf (fm_inodes s);
  rd_uuid : is_bytes 16 (fm_uuid s);
  rd_label : forall l, fm_label s = Some l -> zlen l <= 16 /\ Forall is_u8 l
}.

(** ** One block of payload *)

(** A whole block goes to the first free block behind the position. *)
Lemma write_block_payload bytes s :
  fm_block_size s = BLOCK_SIZE -> 0 <= fpos s -> fpos s + 4096 <= LIMIT -> zlen bytes = 4096 ->
  fpos s mod 4096 = 0 -> payload_pos (fm_size s) (fpos s) = fpos s ->
  write_payload_bytes bytes [] s =
    (Ok [ {| br_start := fpos s / 4096; br_end := fpos s / 4096 + 1 |} ], after_write (fpos s) bytes s).
Proof.
  intros Hbs Hp Hlim Hz Ha Hfree. unfold LIMIT, u32_max in Hlim.
  assert (fpos s / 4096 < u32_max) as Hmax by (apply Z.div_lt_upper_bound; unfold u32_max; lia).
  unfold write_payload_bytes. assert (exists n, length bytes = S n) as [n ->] by (exists 4095%nat; unfold zlen in Hz; lia).
  rewrite write_turn; [|done|done|lia|intros ->; done]. cbv zeta. rewrite Hfree, Ha, Hz.
  change (Z.to_nat (Z.min (4096 - 0) 4096)) with 4096%nat.
  rewrite drop_ge, take_ge by (unfold zlen in Hz; lia). cbn [write_payload_loop].
  change (0 <? zlen []) with false. cbn [record_block_range list.last].
  rewrite u32_small by (pose proof (Z.div_pos (fpos s) 4096 ltac:(lia) ltac:(lia)); unfold_ranges; lia). done.
Qed.

Lemma payload_pos_upper size p : 0 <= p -> p / 4096 <= u32_max -> payload_pos size p <= p + 4096 * 1025.
Proof.
  intros Hp Hmax. unfold payload_pos. destruct (Z.eqb_spec (p mod 4096) 0) as [Ha|]; [|lia].
  assert (is_u32 (p / 4096)) as Hb by (unfold_ranges; split; [apply Z.div_pos; lia|lia]).
  destruct (reserved_end_spec size (p / 4096) Hb) as (Hle & _). pose proof (group_descriptor_blocks_bounds size).
  pose proof (aligned_pos p Ha). lia.
Qed.

Lemma payload_pos_idem size p :
  0 <= p -> p / 4096 <= u32_max -> payload_pos size (payload_pos size p) = payload_pos size p.
Proof.
  intros Hp Hmax. destruct (payload_pos_spec size p Hp Hmax) as (Hle & Hu & Hm & Hsame & Hfree).
  set (q := payload_pos size p) in *. unfold payload_pos. rewrite Hm. destruct (Z.eqb_spec (p mod 4096) 0) as [Ha|]; [|done].
  rewrite reserved_end_eq, Hfree by done. apply aligned_pos. by rewrite Hm.
Qed.

(** ** The double-indirect block *)

(** Where it goes. *)
Definition dind_pos (s : Formatter) : Z := payload_pos (fm_size s) (aligned (fpos s)).

Lemma dind_pos_spec s :
  ready s ->
  fpos s <= dind_pos s <= fpos s + 4096 * 1026 /\ dind_pos s mod 4096 = 0 /\
  reserved_block (group_descriptor_blocks BLOCK_SIZE (fm_size s)) (dind_pos s / 4096) = false.
Proof.
  intros [_ Hp _ _ _ _ _ _]. unfold DATA_MAX in Hp. destruct (aligned_spec (fpos s)) as (Hr & Hm & _).
  assert (aligned (fpos s) / 4096 <= u32_max) as Hmax by (apply Z.lt_le_incl, Z.div_lt_upper_bound; unfold u32_max; lia).
  destruct (payload_pos_spec (fm_size s) (aligned (fpos s)) ltac:(lia) Hmax) as (Hle & _ & Hm' & _ & Hfree).
  pose proof (payload_pos_upper (fm_size s) (aligned (fpos s)) ltac:(lia) Hmax). unfold dind_pos.
  split; [lia|]. split; [congruence|]. by apply Hfree.
Qed.

Lemma dind_spec s :
  ready s ->
  allocate_resize_inode_dind_block s = (Ok (dind_pos s / 4096), after_write (dind_pos s) (zeros 4096) s).
Proof.
  intros Hrd. pose proof (dind_pos_spec s Hrd) as (Hd & Hdm & _). destruct Hrd as [Hbs Hp _ _ _ _ _ _].
  unfold DATA_MAX in Hp. destruct (aligned_spec (fpos s)) as (Hr & Hm & _).
  assert (aligned (fpos s) / 4096 <= u32_max) as Hmax by (apply Z.lt_le_incl, Z.div_lt_upper_bound; unfold u32_max; lia).
  assert (fpos s / 4096 + 1 <= u32_max) as Hmax'.
  { pose proof (Z.div_lt_upper_bound (fpos s) 4096 (u32_max - 1) ltac:(lia) ltac:(unfold u32_max; lia)). lia. }
  unfold allocate_resize_inode_dind_block. rewrite (run_bind _ _ s BLOCK_SIZE s) by (unfold gets; congruence).
  change (zeros BLOCK_SIZE) with (zeros 4096). set (s1 := at_pos (aligned (fpos s)) s). set (s2 := at_pos (dind_pos s) s).
  assert (write_aligned_payload_bytes (zeros 4096) s =
    (Ok [ {| br_start := dind_pos s / 4096; br_end := dind_pos s / 4096 + 1 |} ], after_write (dind_pos s) (zeros 4096) s)) as Hw.
  { unfold write_aligned_payload_bytes. rewrite (run_bind _ _ _ _ _ (align_spec s Hbs ltac:(lia) Hmax')). fold s1.
    assert (fpos s1 = aligned (fpos s) /\ fm_block_size s1 = BLOCK_SIZE /\ fm_size s1 = fm_size s) as (P1 & B1 & Z1) by (by destruct s).
    assert (skip_reserved_metadata_blocks s1 = (Ok tt, s2)) as Hskip.
    { rewrite skip_reserved_spec by (rewrite ?P1; done || lia). rewrite P1, Z1. unfold s2, dind_pos. by destruct s. }
    rewrite (run_bind _ _ _ _ _ Hskip).
    assert (fpos s2 = dind_pos s /\ fm_block_size s2 = BLOCK_SIZE /\ fm_size s2 = fm_size s) as (P2 & B2 & Z2) by (by destruct s).
    assert (write_payload_bytes (zeros 4096) [] s2 =
      (Ok [ {| br_start := dind_pos s / 4096; br_end := dind_pos s / 4096 + 1 |} ], after_write (dind_pos s) (zeros 4096) s)) as Hrun.
    { rewrite write_block_payload; rewrite ?P2, ?Z2; try done.
      - unfold s2. by destruct s.
      - lia.
      - unfold LIMIT, u32_max. lia.
      - unfold dind_pos. apply payload_pos_idem; [lia|done]. }
    rewrite (run_bind _ _ _ _ _ Hrun). rewrite (run_bind _ _ _ tt (after_write (dind_pos s) (zeros 4096) s)); [done|].
    apply align_aligned; [by destruct s|]. rewrite after_write_pos. change (zlen (zeros 4096)) with 4096.
    rewrite <- Z.add_mod_idemp_r, Z.mod_same, Z.add_0_r by lia. done. }
  rewrite (run_bind _ _ _ _ _ Hw). done.
Qed.

(** ** The layout *)

Lemma table_blocks ipg :
  In ipg inode_choices ->
  inode_table_size_per_group BLOCK_SIZE ipg = ipg / 16 /\ 512 <= ipg / 16 <= 2048 /\ ipg / 16 * 4096 = ipg * 256.
Proof. simpl. intros [<-|[<-|[<-|[<-|[]]]]]; vm_compute; repeat split; discriminate. Qed.

(** The number of groups [optimize_block_group_layout] picks is small. *)
Lemma groups_small blocks inodes :
  0 <= blocks <= DATA_LIMIT -> 0 <= inodes <= 1073741824 ->
  exists g ipg, optimize_block_group_layout BLOCK_SIZE blocks inodes = Some (g, ipg) /\
    In ipg inode_choices /\ 1 <= g <= 32768 /\ inodes <= g * ipg.
Proof.
  intros Hb Hi. unfold DATA_LIMIT in Hb.
  destruct (optimize_loop_spec blocks inodes ltac:(unfold_ranges; lia) Hi) as (g & ipg & Hrun & Hin & Hg & [Hf _] & Hmin).
  exists g, ipg. split; [done|]. split; [done|]. split; [|done]. split; [lia|].
  apply (Hmin 32768 32768); [simpl; auto 6|lia|]. split; [lia|]. change (data_blocks_in_group 32768) with 30718. lia.
Qed.

Lemma minimum_spec g :
  1 <= g <= 32768 -> (g - 1) * 32768 + 1 <= minimum_disk_size BLOCK_SIZE g <= MAX_GROUPS * 32768.
Proof.
  intros Hg. unfold minimum_disk_size, MAX_GROUPS. change (blocks_per_group BLOCK_SIZE) with 32768.
  destruct (Z.eqb_spec g 1); [lia|].
  rewrite (u32_small (g - 1)), (u32_small ((g - 1) * 32768)), u32_small by (unfold_ranges; lia). lia.
Qed.

(** What [plan_layout] leaves behind. *)
Record plan_made (s0 : Formatter) (pl : Plan) (s1 : Formatter) : Prop := {
  pm_state : s1 = set_fm_size (fm_size s1) (set_fm_file (fm_file s1) s0);
  pm_data : forall x, ~ span (pn_dind_block pl * 4096) ((pn_dind_block pl + 1) * 4096) x ->
    f_data (fm_file s1) x = f_data (fm_file s0) x;
  pm_size : fm_size s0 <= fm_size s1 <= MAX_IMAGE;
  pm_len : f_len (fm_file s0) <= f_len (fm_file s1) <= fm_size s1;
  pm_dind : fpos s0 <= pn_dind_block pl * 4096 /\ pn_dind_block pl + 1 = pn_metadata_start pl /\
    pn_metadata_start pl <= DATA_LIMIT /\ 0 <= pn_dind_block pl /\ pn_dind_block pl = dind_pos s0 / 4096;
  pm_free : reserved_block (pn_allocated pl) (pn_dind_block pl) = false;
  pm_allocated : pn_allocated pl = group_descriptor_blocks BLOCK_SIZE (fm_size s0);
  pm_ipg : In (pn_inodes_per_group pl) inode_choices;
  pm_layout : exists groups0 start,
    placed (fm_size s1) (pn_inodes_per_group pl / 16) (minimum_disk_size BLOCK_SIZE groups0)
      (pn_metadata_start pl) groups0 (pn_layout pl) start /\
    1 <= groups0 <= 32768 /\ zlen (fm_inodes s0) <= groups0 * pn_inodes_per_group pl
}.

Lemma plan_layout_spec s :
  ready s -> exists pl s', plan_layout s = (Ok pl, s') /\ plan_made s pl s'.
Proof.
  intros Hrd. pose proof (dind_pos_spec s Hrd) as (Hd & Hdm & Hfree). pose proof (dind_spec s Hrd) as Hrun.
  pose proof Hrd as [Hbs Hp Hsz Hlen Hin _ _ _]. unfold DATA_MAX in Hp.
  set (q := dind_pos s) in *. set (s1 := after_write q (zeros 4096) s) in *.
  set (s2 := set_fm_size (Z.max (fm_size s1) (f_len (fm_file s1))) s1).
  pose proof (aligned_pos q Hdm) as Hq.
  assert (fpos s2 = (q / 4096 + 1) * 4096) as P2 by (rewrite Z.mul_add_distr_r, Hq; unfold s2, s1; by destruct s).
  assert (fm_block_size s2 = BLOCK_SIZE /\ fm_inodes s2 = fm_inodes s) as [B2 I2] by (unfold s2, s1; by destruct s).
  assert (0 <= q / 4096 <= 536871938) as Hqb by (split; [apply Z.div_pos; lia|apply Z.lt_succ_r, Z.div_lt_upper_bound; lia]).
  assert (fm_size s2 = Z.max (Z.max (fm_size s) (q + 4096)) (f_len (fm_file s1))) as Z2 by (unfold s2, s1; by destruct s).
  assert (f_len (fm_file s1) = Z.max (f_len (fm_file s)) (q + 4096)) as L1 by (unfold s1; by destruct s).
  assert (MAX_IMAGE = 131071 * 134217728) as HM by done.
  destruct (groups_small (q / 4096 + 1) (zlen (fm_inodes s))) as (g & ipg & Hopt & Hipg & Hg & Hfits);
    [unfold DATA_LIMIT; lia|lia|]. destruct (table_blocks ipg Hipg) as (Ht & Htb & _).
  destruct (flex_layout_spec (fm_size s2) (ipg / 16) (minimum_disk_size BLOCK_SIZE g) (q / 4096 + 1) g)
    as (L & start & Hplaced & Hflex).
  { rewrite Z2. fold MAX_IMAGE. lia. }
  { lia. }
  { by apply minimum_spec. }
  { lia. }
  { unfold MAX_GROUPS. lia. }
  { unfold DATA_LIMIT. lia. }
  assert (current_block s2 = (Ok (q / 4096 + 1), s2)) as Hcur.
  { rewrite current_block_spec by done. rewrite P2, Z.div_mul by lia.
    replace (q / 4096 + 1 <=? u32_max) with true by (unfold u32_max; lia). done. }
  exists {| pn_allocated := group_descriptor_blocks BLOCK_SIZE (fm_size s); pn_dind_block := q / 4096;
    pn_metadata_start := q / 4096 + 1; pn_inodes_per_group := ipg; pn_layout := L |}, s2. split.
  - unfold plan_layout. rewrite (run_bind _ _ s (group_descriptor_blocks BLOCK_SIZE (fm_size s)) s) by (unfold gets; congruence).
    rewrite (run_bind _ _ _ _ _ Hrun), (run_bind _ _ s1 tt s2) by done.
    rewrite (run_bind _ _ s2 BLOCK_SIZE s2) by (unfold gets; congruence). rewrite (run_bind _ _ _ _ _ Hcur).
    rewrite (run_bind _ _ s2 (zlen (fm_inodes s)) s2) by (unfold gets; rewrite I2, u32_small by (unfold_ranges; lia); done).
    rewrite (run_bind _ _ s2 (g, ipg) s2) by (unfold lift, or_panic; by rewrite Hopt).
    rewrite (run_bind _ _ s2 tt s2) by (apply align_aligned; [done|rewrite P2; apply Z.mod_mul; lia]).
    rewrite (run_bind _ _ _ _ _ Hcur), (run_bind _ _ s2 (fm_size s2) s2), Ht by done.
    rewrite (run_bind _ _ s2 L s2) by (unfold lift, or_panic; by rewrite Hflex). done.
  - constructor; cbn [pn_allocated pn_dind_block pn_metadata_start pn_inodes_per_group pn_layout].
    + unfold s2, s1. by destruct s.
    + intros x Hx. transitivity (f_data (fm_file s1) x); [unfold s2; by destruct s1|]. unfold s1. rewrite after_write_data.
      rewrite zlen_zeros by lia. unfold span in Hx.
      replace ((q <=? x) && (x <? q + 4096)) with false by (symmetry; apply andb_false_iff; lia). done.
    + rewrite Z2. lia.
    + rewrite Z2. replace (f_len (fm_file s2)) with (f_len (fm_file s1)) by (unfold s2; by destruct s1). lia.
    + change (dind_pos s) with q. unfold DATA_LIMIT. lia.
    + done.
    + done.
    + done.
    + exists g, start. split; [done|]. done.
Qed.
