(* ===== verification/CloseImage.v ===== *)
(** The whole of [close] behind the directories: the steps of
    [CloseWrites] and [ClosePrimary] on the layout of [ClosePlan], and what the
    finished image holds. *)

From stdpp Require Import gmap.
From S2P Require Import Prelude Bytes Types Checksum Layout Errors Disk Tables FileTree Extent.
From S2P Require Import Geometry Flex Formatter Payload Close CloseBitmaps CloseWrites ClosePrimary ClosePlan.

(** ** The descriptor area *)

Lemma group_count_eq size :
  1 <= size <= MAX_IMAGE -> fmt_group_count BLOCK_SIZE size = (div_ceil size 4096 - 1) / 32768 + 1.
Proof.
  intros Hs. unfold MAX_IMAGE, MAX_GROUPS in Hs. unfold fmt_group_count, block_count.
  change (blocks_per_group BLOCK_SIZE) with 32768. change BLOCK_SIZE with 4096.
  rewrite (u64_small (size - 1)) by (unfold_ranges; lia).
  assert (div_ceil size 4096 = (size - 1) / 4096 + 1) as ->.
  { pose proof (div_ceil_spec size 4096 ltac:(lia)). pose proof (Z.div_mod (size - 1) 4096 ltac:(lia)).
    pose proof (Z.mod_pos_bound (size - 1) 4096 ltac:(lia)). lia. }
  assert (0 <= (size - 1) / 4096 < 131071 * 32768) as Hn by (split; [apply Z.div_pos|apply Z.div_lt_upper_bound]; lia).
  set (n := (size - 1) / 4096) in *. rewrite (u32_small (n + 1)) by (unfold_ranges; lia).
  rewrite (u32_small (n + 1 - 1)) by (unfold_ranges; lia). apply u32_small.
  assert (0 <= (n + 1 - 1) / 32768 < 131071) by (split; [apply Z.div_pos|apply Z.div_lt_upper_bound]; lia).
  unfold_ranges. lia.
Qed.

Lemma image_groups total :
  1 <= total <= MAX_GROUPS -> fmt_group_count BLOCK_SIZE (total * 134217728) = total.
Proof.
  intros Ht. rewrite group_count_eq by (unfold MAX_IMAGE; lia).
  assert (div_ceil (total * 134217728) 4096 = total * 32768) as ->
    by (pose proof (div_ceil_spec (total * 134217728) 4096 ltac:(lia)); lia).
  assert ((total * 32768 - 1) / 32768 = total - 1) by (apply group_unique; lia). lia.
Qed.

(** A larger image has no smaller descriptor area. *)
Lemma area_mono size size' :
  1 <= size <= size' -> size' <= MAX_IMAGE ->
  group_descriptor_blocks BLOCK_SIZE size <= group_descriptor_blocks BLOCK_SIZE size'.
Proof.
  intros Hs Hmax. unfold group_descriptor_blocks.
  destruct (descriptor_area _ (fmt_group_count_bounds size)) as [_ ->].
  destruct (descriptor_area _ (fmt_group_count_bounds size')) as [_ ->].
  assert (fmt_group_count BLOCK_SIZE size <= fmt_group_count BLOCK_SIZE size') as Hle.
  { rewrite !group_count_eq by lia. apply Z.add_le_mono_r, Z.div_le_mono; [lia|].
    pose proof (div_ceil_spec size 4096 ltac:(lia)). pose proof (div_ceil_spec size' 4096 ltac:(lia)). lia. }
  pose proof (Z.div_le_mono (fmt_group_count BLOCK_SIZE size - 1) (fmt_group_count BLOCK_SIZE size' - 1) 128 ltac:(lia) ltac:(lia)).
  lia.
Qed.

(** ** The layout *)

Section Layout.
Context (s0 : Formatter) (pl : Plan) (s1 : Formatter).
Hypothesis (Hready : ready s0).
Hypothesis (Hplan : plan_made s0 pl s1).

Abbreviation L := (pn_layout pl).
Abbreviation ipg := (pn_inodes_per_group pl).
Abbreviation D := (pn_dind_block pl).
Abbreviation bg := (fl_block_groups L).
Abbreviation total := (fl_total_groups L).
Abbreviation area := (fl_gd_area_blocks L).
Abbreviation gdc := (fl_gd_block_count L).
Abbreviation ito := (fl_inode_table_offset L).
Abbreviation bo := (fl_bitmap_offset L).

(** The numbers of the layout. *)
Record laid_out : Prop := {
  lo_groups : 1 <= bg <= total /\ total <= MAX_GROUPS /\ bg <= 32768;
  lo_inodes : zlen (fm_inodes s0) <= bg * ipg /\ bg * ipg <= 1073741824;
  lo_table : D + 1 <= ito <= DATA_LIMIT /\ bo = ito + bg * (ipg / 16) /\ bg * (ipg / 16) * 4096 = 256 * bg * ipg;
  lo_end : fl_data_size L = bo + 2 * bg /\ fl_data_size L <= bg * GROUP /\ ito <= bo;
  lo_clear : forall b, ito <= b < fl_data_size L -> reserved_block area b = false;
  lo_area : area = group_descriptor_blocks BLOCK_SIZE (total * 134217728) /\ 1 <= gdc <= area /\ area <= 1024;
  lo_gdt : 32 * total <= gdc * 4096;
  lo_size : fl_size_bytes L = total * 134217728 /\ fm_size s1 <= total * 134217728
}.

Lemma layout_spec : laid_out.
Proof.
  destruct Hready as [_ _ Hsz _ Hin _ _ _]. destruct Hplan as [_ _ Hsz1 _ Hd _ _ Hipg (g0 & start & Hpl & Hg0 & Hfit)].
  destruct (ipg_bounds ipg Hipg) as [Hib _]. destruct (table_blocks ipg Hipg) as (_ & Hblocks & Htb).
  pose proof (minimum_spec g0 Hg0) as Hmin.
  assert (1 <= g0 <= MAX_GROUPS) as Hg0' by (unfold MAX_GROUPS; lia).
  assert (0 <= ipg / 16 <= 2048) as Hblocks' by lia.
  pose proof Hpl as [Hse Hoff Hbo Hend Hins Htot Hgdt Har Hbytes Hclear].
  pose proof (run_bounds (fm_size s1) (ipg / 16) (pn_metadata_start pl) g0 ltac:(unfold MAX_IMAGE in *; lia) Hblocks' ltac:(lia) Hg0' start bg Hse) as (Hrun & Hfit' & _).
  destruct Hse as [Hst Hgr Hneed].
  destruct (groups_for_bounds (fm_size s1) (fl_data_size L) (minimum_disk_size BLOCK_SIZE g0)) as [Hgb Hcover];
    [lia|lia|unfold MAX_IMAGE in *; lia|]. rewrite <- Htot in Hgb, Hcover.
  destruct (descriptor_area total ltac:(unfold MAX_GROUPS in *; lia)) as [Edb Ear].
  assert (bg <= total /\ bg <= 32768) as [Hbt Hb32].
  { unfold run_blocks, DATA_LIMIT in *. destruct Hneed as [->|Hneed]; [lia|].
    assert (bg * (ipg / 16) <= bg * 2048) by (apply Z.mul_le_mono_nonneg_l; lia). lia. }
  pose proof (Z.div_mod (total - 1) 128 ltac:(lia)). pose proof (Z.mod_pos_bound (total - 1) 128 ltac:(lia)).
  pose proof (area_bounds total ltac:(lia)) as Hab.
  constructor.
  - lia.
  - split; [|apply (Z.mul_le_mono_nonneg bg 32768 ipg 32768); lia]. etransitivity; [exact Hfit|]. apply Z.mul_le_mono_nonneg_r; lia.
  - rewrite Hoff, Hbo. split; [lia|]. split; [done|]. rewrite <- !Z.mul_assoc, Htb. lia.
  - assert (0 <= bg * (ipg / 16)) by (apply Z.mul_nonneg_nonneg; lia). unfold run_blocks, GROUP in *. lia.
  - intros b Hb. destruct (reserved_block area b) eqn:E; [|done]. exfalso. rewrite Hoff, Hend in Hb.
    apply (Hclear b Hb). unfold reserved_block in E. apply andb_prop in E as [E1 E2%Z.ltb_lt]. split; [|done].
    pose proof (in_group b). lia.
  - split; [unfold group_descriptor_blocks; by rewrite image_groups by lia|]. rewrite Ear in Hab. rewrite Hgdt, Har, Edb, Ear. unfold MAX_GROUPS in *. lia.
  - rewrite Hgdt, Edb. lia.
  - split; [done|]. pose proof (div_ceil_spec (fm_size s1) 4096 ltac:(lia)). lia.
Qed.
End Layout.

(** ** The groups *)

(** The bitmaps depend on the builder's size and inodes alone. *)
Lemma used_same L freed ipg s s' :
  fm_size s' = fm_size s -> fm_inodes s' = fm_inodes s ->
  group_block_used L freed s' = group_block_used L freed s /\ group_slot_used ipg s' = group_slot_used ipg s /\
  group_slot_dir ipg s' = group_slot_dir ipg s.
Proof. intros E1 E2. unfold group_block_used, group_slot_used, group_slot_dir. by rewrite E1, E2. Qed.

Lemma data_group_same L freed ipg bo ito tbl s s' x g gd :
  fm_size s' = fm_size s -> fm_inodes s' = fm_inodes s ->
  data_group L freed ipg bo ito tbl s' x g gd -> data_group L freed ipg bo ito tbl s x g gd.
Proof.
  intros E1 E2 [H1 H2 H3 H4 H5 H6 H7 H8 H9 H10 H11]. destruct (used_same L freed ipg s s' E1 E2) as (U1 & U2 & U3).
  rewrite U1 in H5, H10. rewrite U2 in H6, H9, H11. rewrite U3 in H7.
  exact (Build_data_group _ _ _ _ _ _ _ _ _ _ H1 H2 H3 H4 H5 H6 H7 H8 H9 H10 H11).
Qed.

Lemma extra_same tbl s s' :
  fm_size s' = fm_size s ->
  extra_used tbl s' = extra_used tbl s /\ extra_bitmaps tbl s' = extra_bitmaps tbl s /\ static_of s' = static_of s.
Proof. intros E1. unfold extra_used, extra_bitmaps, static_of. by rewrite E1. Qed.

Lemma extra_group_same total ipg tbl s s' x g gd :
  fm_size s' = fm_size s -> extra_group total ipg tbl s' x g gd -> extra_group total ipg tbl s x g gd.
Proof.
  intros E1 [H1 H2 H3 H4 H5 H6 H7 H8 H9 H10 H11]. destruct (extra_same tbl s s' E1) as (U1 & U2 & U3).
  rewrite U1 in H5, H10. rewrite U2 in H2, H3, H10, H11. rewrite U3 in H4.
  exact (Build_extra_group _ _ _ _ _ _ _ H1 H2 H3 H4 H5 H6 H7 H8 H9 H10 H11).
Qed.

Section Groups.
Context (pl : Plan) (gaps : list BlockRange) (s : Formatter).

Abbreviation L := (pn_layout pl).
Abbreviation ipg := (pn_inodes_per_group pl).
Abbreviation bg := (fl_block_groups L).
Abbreviation total := (fl_total_groups L).
Abbreviation ito := (fl_inode_table_offset L).
Abbreviation bo := (fl_bitmap_offset L).
Abbreviation tbl := (ipg / 16).
Abbreviation freed := (fm_deleted_blocks s ++ gaps).

Hypothesis (Hbs : fm_block_size s = BLOCK_SIZE).
Hypothesis (Hsize : fm_size s = total * 134217728).
Hypothesis (Hwf : Forall Inode_wf (fm_inodes s)).
Hypothesis (Hipg : In ipg inode_choices).
Hypothesis (Hgroups : 1 <= bg <= total /\ total <= MAX_GROUPS /\ bg <= 32768).
Hypothesis (Hinodes : 0 < zlen (fm_inodes s) <= bg * ipg /\ bg * ipg <= 1073741824).
Hypothesis (Htable : 0 <= ito <= DATA_LIMIT /\ bo = ito + bg * tbl /\ bg * tbl * 4096 = 256 * bg * ipg).
Hypothesis (Hend : fl_data_size L = bo + 2 * bg /\ fl_data_size L <= bg * GROUP).

(** The blocks that hold the metadata of the groups. *)
Definition group_metadata (b : Z) : Prop :=
  ito <= b < fl_data_size L \/
  (bg <= b / GROUP < total /\ reserved_block (group_descriptor_blocks BLOCK_SIZE (fm_size s)) b = false).

(** Inode table, bitmaps and descriptors of all groups. *)
Record groups_hold (gt : GroupTotals) (s' : Formatter) : Prop := {
  gc_length : ito * 4096 + 256 * zlen (fm_inodes s) <= f_len (fm_file s');
  gc_inodes : forall i inode, fm_inodes s !! i = Some inode ->
    Inode_read_from (bytes_at (fm_file s') (ito * 4096 + 256 * Z.of_nat i) 256) = inode;
  gc_descriptors : zlen (gt_descriptors gt) = total;
  gc_data : forall g gd, gt_descriptors gt !! g = Some gd -> Z.of_nat g < bg ->
    data_group L freed ipg bo ito tbl s s' (Z.of_nat g) gd;
  gc_extra : forall g gd, gt_descriptors gt !! g = Some gd -> bg <= Z.of_nat g ->
    extra_group total ipg tbl s s' (Z.of_nat g) gd;
  gc_blocks : gt_used_blocks gt =
    sum_groups (fun g => count (group_block_used L freed s g) 0 GROUP) bg +
    sum_groups (fun i => extra_used tbl s (bg + i)) (total - bg);
  gc_used : gt_used_inodes gt = sum_groups (fun g => count (group_slot_used ipg s g) 0 ipg) bg
}.

Lemma table_place s1 s2 :
  wrote (fun _ => False) s s1 -> wrote (span (ito * 4096) (ito * 4096 + 256 * bg * ipg)) s1 s2 ->
  wrote (span (ito * 4096) (bo * 4096)) s s2.
Proof.
  intros W1 W2. eapply wrote_mono; [|exact (wrote_trans _ _ _ _ _ W1 W2)]. unfold span. intros x [[]|Hx]. lia.
Qed.

Lemma block_of x b lo : b * 4096 <= x < (b + lo) * 4096 -> b <= x / 4096 < b + lo.
Proof. intros Hx. split; [apply Z.div_le_lower_bound|apply Z.div_lt_upper_bound]; lia. Qed.

(** Up to the groups: the inode table fills the blocks before the bitmaps. *)
Lemma commit_table_spec :
  exists s', wrote (span (ito * 4096) (bo * 4096)) s s' /\ fpos s' = bo * 4096 /\
    ito * 4096 + 256 * zlen (fm_inodes s) <= f_len (fm_file s') /\
    (forall i inode, fm_inodes s !! i = Some inode ->
      Inode_read_from (bytes_at (fm_file s') (ito * 4096 + 256 * Z.of_nat i) 256) = inode) /\
    commit_groups pl gaps s =
      (gt ← fold_in (commit_data_group L freed ipg bo ito tbl)
             {| gt_used_blocks := 0; gt_used_inodes := 0; gt_descriptors := [] |} (seqZ 0 bg);
       fold_in (commit_extra_group total ipg tbl) gt (seqZ bg (total - bg))) s'.
Proof.
  destruct (table_blocks ipg Hipg) as (Htb & Hblocks & _). destruct (ipg_bounds ipg Hipg) as [Hib _].
  unfold commit_groups. rewrite (run_bind _ _ s BLOCK_SIZE s) by (unfold gets; congruence). rewrite Htb. cbv zeta.
  destruct (seek_wrote (fun _ => False) ito s Hbs) as (s1 & R1 & W1 & P1 & D1). rewrite (run_bind _ _ _ _ _ R1).
  destruct (wrote_state _ _ _ W1) as (Eb1 & Ez1 & Ei1 & _).
  destruct (commit_inode_table_spec s1 bg ipg) as (s2 & R2 & W2 & P2 & L2 & T2);
    rewrite ?P1, ?Ei1 in *; [congruence|apply Z.mod_mul; lia|done|lia|lia|lia|lia|].
  rewrite Z.div_mul in R2 by lia. rewrite (run_bind _ _ _ _ _ R2).
  pose proof (table_place s1 s2 W1 W2) as W. destruct (wrote_state _ _ _ W) as (Eb & Ez & Ei & _ & Ed & _).
  assert (fpos s2 = bo * 4096) as P by lia.
  rewrite (run_bind _ _ s2 tt s2) by (apply align_aligned; [congruence|rewrite P; apply Z.mod_mul; lia]).
  rewrite (run_bind _ _ s2 bo s2).
  2:{ rewrite current_block_spec by congruence. rewrite P, Z.div_mul by lia.
      replace (bo <=? u32_max) with true; [done|]. unfold GROUP, u32_max, MAX_GROUPS in *. lia. }
  rewrite Z.eqb_refl. cbn [negb]. rewrite (run_bind _ _ s2 freed s2) by (unfold gets; congruence).
  exists s2. split; [done|]. split; [done|]. split; [done|]. split; [done|]. done.
Qed.

Lemma commit_groups_spec : exists gt s', commit_groups pl gaps s = (Ok gt, s') /\
  wrote (fun x => group_metadata (x / 4096)) s s' /\ groups_hold gt s'.
Proof.
  destruct commit_table_spec as (s2 & W & P & Hlen & T2 & ->).
  destruct (wrote_state _ _ _ W) as (Eb & Ez & Ei & _ & _ & _).
  destruct (table_blocks ipg Hipg) as (_ & Hblocks & _). pose proof (in_group (fl_data_size L)) as Hdg.
  assert (GROUP = 32768 /\ MAX_GROUPS = 131071 /\ u32_max = 4294967295 /\ DATA_LIMIT = 655360000) as (HG & HM & HU & HD) by done.
  destruct (commit_data_groups_spec L freed ipg bo ito tbl s2) as (gt & s3 & R3 & [W3 P3 Z3 G3 B3 I3]);
    [congruence|done|lia|rewrite Ei; lia|lia|lia|lia|done|].
  rewrite (run_bind _ _ _ _ _ R3).
  destruct (wrote_state _ _ _ W3) as (Eb3 & Ez3 & Ei3 & _). destruct (used_same L freed ipg s s2 Ez Ei) as (U1 & U2 & _).
  rewrite U1 in B3. rewrite U2 in I3.
  assert (0 <= gt_used_blocks gt <= bg * GROUP) as Hused.
  { rewrite B3. apply sum_groups_bounds; [lia|]. intros g _. apply count_bounds. lia. }
  destruct (commit_extra_groups_spec total ipg tbl bg s3 gt) as (gt' & s4 & R4 & [W4 B4 I4 (extras & E4 & Z4 & G4)]);
    [congruence|congruence|lia|done|lia|done|].
  exists gt', s4. split; [exact R4|].
  assert (fm_size s3 = fm_size s /\ fm_inodes s3 = fm_inodes s) as [Fz Fi] by (split; congruence).
  destruct (extra_same tbl s s3 Fz) as (V1 & _).
  set (E := fun x => exists g, bg <= g < bg + (total - bg) /\ extra_addr tbl s3 g x) in W4.
  assert (forall x, E x -> bg <= x / 4096 / GROUP < total /\
    reserved_block (group_descriptor_blocks BLOCK_SIZE (fm_size s)) (x / 4096) = false) as HE.
  { intros x (g & Hg & Hx). destruct (extra_addr_group tbl s3 ltac:(lia) g x Hx) as [Eg Er]. rewrite Fz in Er. split; [lia|done]. }
  assert (forall x, x < fl_data_size L * 4096 -> ~ E x) as Hlow.
  { intros x Hx [Hg _]%HE. assert (x / 4096 < bg * GROUP) by (apply Z.div_lt_upper_bound; lia).
    assert (x / 4096 / GROUP < bg) by (apply Z.div_lt_upper_bound; lia). lia. }
  split; [|apply (Build_groups_hold gt' s4)].
  - eapply wrote_mono; [|exact (wrote_trans _ _ _ _ _ W (wrote_trans _ _ _ _ _ W3 W4))].
    intros x [Hx|[Hx|Hx]]; [left|left|right; by apply HE]; unfold span in Hx.
    + pose proof (block_of x ito (bo - ito)). lia.
    + pose proof (block_of x bo (2 * bg)). lia.
  - etransitivity; [exact Hlen|]. etransitivity; [apply W3|apply W4].
  - intros i inode Hi. rewrite <- (T2 i inode Hi). f_equal. apply lookup_lt_Some in Hi. unfold zlen in Hinodes.
    rewrite (wrote_bytes _ _ _ _ _ W4), (wrote_bytes _ _ _ _ _ W3); [done|unfold span; intros x Hx; lia|].
    intros x Hx. apply Hlow. lia.
  - rewrite E4, zlen_app. lia.
  - intros g gd Hg Hlt. rewrite E4 in Hg. rewrite lookup_app_l in Hg by (unfold zlen in Z3; lia).
    apply (data_group_same _ _ _ _ _ _ s s2); [done|done|]. apply (data_group_frame _ _ _ _ _ _ _ _ s3 s4 _ _ W4); [|by apply G3].
    intros x Hx. apply Hlow. lia.
  - intros g gd Hg Hge. rewrite E4 in Hg. rewrite lookup_app_r in Hg by (unfold zlen in Z3; lia).
    apply (extra_group_same _ _ _ s s3); [done|]. specialize (G4 _ _ Hg).
    replace (bg + Z.of_nat (g - length (gt_descriptors gt))) with (Z.of_nat g) in G4 by (unfold zlen in Z3; lia). exact G4.
  - rewrite B4, B3, V1. done.
  - rewrite I4, I3. done.
Qed.

(** Later writes into the static metadata leave the groups alone. *)
Lemma groups_hold_frame A s1 s2 gt :
  groups_hold gt s1 -> wrote A s1 s2 ->
  (forall b, ito <= b < fl_data_size L -> reserved_block (group_descriptor_blocks BLOCK_SIZE (fm_size s)) b = false) ->
  (forall x, A x -> reserved_block (group_descriptor_blocks BLOCK_SIZE (fm_size s)) (x / 4096) = true) ->
  groups_hold gt s2.
Proof.
  intros [G2 G3 G4 G5 G6 G7 G8] W Hclear HA.
  destruct (table_blocks ipg Hipg) as (_ & Hblocks & _).
  assert (forall x b n, b * 4096 <= x < (b + n) * 4096 -> ito <= b -> b + n <= fl_data_size L -> ~ A x) as Hrun.
  { intros x b n Hx Hlo Hhi Ha%HA. pose proof (block_of x b n Hx). rewrite Hclear in Ha by lia. done. }
  assert (forall g, 0 <= g < bg -> 0 <= g * tbl /\ (g + 1) * tbl <= bg * tbl) as Hmul.
  { intros g Hg. split; [lia|]. apply Z.mul_le_mono_nonneg_r; lia. }
  apply (Build_groups_hold gt s2); [|intros i inode Hi|done|intros g gd Hg Hlt|intros g gd Hg Hge|done|done].
  - etransitivity; [exact G2|apply W].
  - rewrite <- (G3 i inode Hi). f_equal. apply (wrote_bytes _ _ _ _ _ W). intros x Hx.
    apply lookup_lt_Some in Hi. unfold zlen in Hinodes. apply (Hrun x ito (bo - ito)); lia.
  - apply (data_group_frame _ _ _ _ _ _ _ _ s1 s2 _ _ W); [|by apply G5]. intros x Hx. apply (Hrun x (bo + 2 * Z.of_nat g) 2); lia.
  - apply (extra_group_frame _ _ _ _ _ s1 s2 _ _ W); [|by apply G6]. intros x Hx Ha%HA.
    destruct (extra_addr_group tbl s ltac:(lia) _ _ Hx) as [_ Er]. congruence.
Qed.
End Groups.

(** What the groups hold depends on the builder's numbers alone. *)
Lemma groups_hold_same pl gaps s s' gt x :
  fm_size s' = fm_size s -> fm_inodes s' = fm_inodes s -> fm_deleted_blocks s' = fm_deleted_blocks s ->
  groups_hold pl gaps s gt x -> groups_hold pl gaps s' gt x.
Proof.
  intros E1 E2 E3 [G2 G3 G4 G5 G6 G7 G8]. destruct (used_same (pn_layout pl) (fm_deleted_blocks s ++ gaps) (pn_inodes_per_group pl) s s' E1 E2) as (U1 & U2 & _).
  destruct (extra_same (pn_inodes_per_group pl / 16) s s' E1) as (V1 & _).
  apply Build_groups_hold; rewrite ?E2, ?E3, ?U1, ?U2, ?V1; try done.
  - intros g gd Hg Hlt. apply (data_group_same _ _ _ _ _ _ s' s); [done|done|]. by apply G5.
  - intros g gd Hg Hge. apply (extra_group_same _ _ _ s' s); [done|]. by apply G6.
Qed.

(** ** The resize inode *)

Lemma lor_u32 a b : is_u32 a -> is_u32 b -> is_u32 (Z.lor a b).
Proof. apply (lor_below 32). lia. Qed.

Lemma timestamp_u32 secs nanos : is_u32 (timestamp_now secs nanos).1 /\ is_u32 (timestamp_now secs nanos).2.
Proof. split; [apply u32_range|]. apply lor_u32; apply u32_range. Qed.

Lemma resize_inode_wf t dind rsv n :
  is_u32 t.1 -> is_u32 t.2 -> is_u32 dind -> Inode_wf (resize_inode t BLOCK_SIZE dind rsv n).
Proof.
  intros H1 H2 Hd. unfold resize_inode. set (b := u32 (_ * (BLOCK_SIZE / 512))).
  assert (is_u32 b) as Hb by apply u32_range. clearbody b.
  assert (is_bytes 60 (put_u32 (zeros 60) 52 dind)) as Hbytes.
  { split; [done|]. apply Forall_put; [by apply Forall_zeros|apply le_bytes_range]. }
  unfold Inode_wf. cbn -[put_u32 is_u32 is_u16 is_bytes zeros u32 Z.mul Z.lor Z.shiftr].
  split_and!; first [exact Hbytes | exact H1 | exact H2 | exact Hb | apply u32_range | by split; [done|apply Forall_zeros] | by vm_compute].
Qed.

(** ** The image *)

Lemma sized_state n f s s' :
  s' = set_fm_size n (set_fm_file f s) ->
  fm_block_size s' = fm_block_size s /\ fm_inodes s' = fm_inodes s /\ fm_tree s' = fm_tree s /\
  fm_deleted_blocks s' = fm_deleted_blocks s /\ fm_uuid s' = fm_uuid s /\ fm_label s' = fm_label s /\ fm_size s' = n.
Proof. intros ->. by destruct s. Qed.

Lemma resize_image_spec n s :
  fm_size s <= n ->
  exists s', resize_image n s = (Ok tt, s') /\ fm_size s' = n /\ s' = set_fm_size n (set_fm_file (fm_file s') s) /\
    fpos s' = fpos s /\ (forall x, x < n -> f_data (fm_file s') x = f_data (fm_file s) x) /\
    (f_len (fm_file s) <= fm_size s -> f_len (fm_file s') <= n).
Proof.
  intros Hn. unfold resize_image. rewrite (run_bind _ _ s (fm_size s) s) by done.
  destruct (Z.eqb_spec (fm_size s) n) as [<-|Hne]; cbn [negb].
  - exists s. split; [done|]. split; [done|]. split; [by destruct s|]. done.
  - rewrite (run_bind _ _ s (fpos s) s) by done. eexists. split; [reflexivity|]. destruct s as [[len data q] bs].
    split; [done|]. split; [done|]. split; [done|]. split; [|cbn; lia]. intros x Hx. cbn. by replace (x <? n) with true by lia.
Qed.

Lemma configure_spec dind rsv n s old :
  fm_block_size s = BLOCK_SIZE -> is_u32 dind -> fm_inodes s !! 6%nat = Some old ->
  exists r s', configure_resize_inode dind rsv n s = (Ok tt, s') /\ Inode_wf r /\
    (exists t, r = resize_inode t BLOCK_SIZE dind rsv n) /\
    s' = set_fm_tick (S (fm_tick s)) (set_fm_inodes (<[6%nat := r]> (fm_inodes s)) s).
Proof.
  intros Hbs Hd Hold. unfold configure_resize_inode. set (s1 := set_fm_tick (S (fm_tick s)) s).
  assert (exists t, now s = (Ok t, s1) /\ is_u32 t.1 /\ is_u32 t.2) as (t & Hnow & T1 & T2).
  { unfold now. destruct (fm_clock s (fm_tick s)) as [secs nanos]. eexists. split; [done|]. apply timestamp_u32. }
  assert (fm_block_size s1 = BLOCK_SIZE /\ fm_inodes s1 = fm_inodes s) as [E1 E2] by (by destruct s).
  rewrite (run_bind _ _ _ _ _ Hnow), (run_bind _ _ s1 BLOCK_SIZE s1) by (unfold gets; congruence).
  unfold update_inode. change (inode_index RESIZE_INODE_NUMBER) with 6%nat. rewrite E2, Hold.
  exists (resize_inode t BLOCK_SIZE dind rsv n). set (r := resize_inode _ _ _ _ _).
  assert (Inode_wf r) as Hr by (by apply resize_inode_wf).
  eexists. split; [reflexivity|]. split; [exact Hr|]. split; [by exists t|]. clearbody r. unfold s1. by destruct s.
Qed.

Section Image.
Context (s0 : Formatter) (pl : Plan) (s1 : Formatter).
Hypothesis (Hready : ready s0).
Hypothesis (Hplan : plan_made s0 pl s1).

Abbreviation L := (pn_layout pl).
Abbreviation ipg := (pn_inodes_per_group pl).
Abbreviation D := (pn_dind_block pl).
Abbreviation bg := (fl_block_groups L).
Abbreviation total := (fl_total_groups L).
Abbreviation area := (fl_gd_area_blocks L).
Abbreviation gdc := (fl_gd_block_count L).
Abbreviation groups := (Geometry.backup_groups total).

(** The blocks that [close] may write: the static metadata, the metadata of
    the groups and the double-indirect block. *)
Definition image_metadata (b : Z) : Prop :=
  reserved_block area b = true \/ fl_inode_table_offset L <= b < fl_data_size L \/ bg <= b / GROUP < total \/ b = D.

(** The finished image. *)
Record imaged (gaps : list BlockRange) (gt : GroupTotals) (sb : SuperBlock) (table : list Z) (s : Formatter) : Prop := {
  mi_size : fm_size s = total * 134217728;
  mi_state : fm_block_size s = BLOCK_SIZE /\ fm_tree s = fm_tree s0 /\ fm_deleted_blocks s = fm_deleted_blocks s0 /\
    fm_uuid s = fm_uuid s0;
  mi_resize : exists t, fm_inodes s = <[6%nat := resize_inode t BLOCK_SIZE D (area - gdc) (zlen groups)]> (fm_inodes s0) /\
    Forall Inode_wf (fm_inodes s);
  mi_data : forall x, 0 <= x < total * 134217728 -> ~ image_metadata (x / 4096) ->
    f_data (fm_file s) x = f_data (fm_file s0) x;
  mi_length : (1 + gdc) * 4096 <= f_len (fm_file s) <= total * 134217728;
  mi_groups : groups_hold pl gaps s gt s;
  mi_superblock : exists name journal,
    sb = final_superblock BLOCK_SIZE total ipg (area - gdc) gt (fm_uuid s0) name (journal_backup journal) /\ SuperBlock_wf sb /\
    bytes_at (fm_file s) 1024 1024 = SuperBlock_write_to sb (zeros 1024);
  mi_table : zlen table = gdc * 4096 /\ bytes_at (fm_file s) 4096 (gdc * 4096) = table;
  mi_descriptors : forall i gd, gt_descriptors gt !! i = Some gd ->
    read_at (32 * Z.of_nat i) table = stamp_descriptor (fm_uuid s0) i gd;
  mi_backups : forall g, g ∈ groups -> backed_up sb table gdc s g;
  mi_dind : forall i, gdc <= i < area -> get_u32 (block_at s D) (i * 4) = 1 + i;
  mi_points : forall i, gdc <= i < area -> points_at (1 + i) groups (block_at s (1 + i))
}.

Let Hlaid : laid_out s0 pl s1 := layout_spec s0 pl s1 Hready Hplan.

(** The copies and the reserved descriptor blocks are static metadata. *)
Lemma static_addr g x :
  has_sparse_super g = true -> span (g * GROUP * 4096) ((g * GROUP + 1 + area) * 4096) x -> 0 <= area <= 1024 ->
  reserved_block area (x / 4096) = true.
Proof.
  intros Hs Hx Ha. unfold span in Hx. pose proof (block_of x (g * GROUP) (1 + area) ltac:(lia)) as Hb.
  replace (x / 4096) with (g * GROUP + (x / 4096 - g * GROUP)) by lia.
  rewrite reserved_in_group by (unfold GROUP in *; lia). rewrite Hs. cbn [andb]. lia.
Qed.

Lemma tables_static x : tables_addr gdc total x -> reserved_block area (x / 4096) = true.
Proof.
  pose proof (lo_area _ _ _ Hlaid) as (_ & Hg & Ha). intros [Hx|(g & [_ Hs]%geometry_backup_elem & Hx)].
  - apply (static_addr 0); [done| |lia]. unfold span in *. lia.
  - apply (static_addr g); [done| |lia]. unfold copy_addr, span in *. lia.
Qed.

Lemma listed_static x : span ((1 + gdc) * 4096) ((1 + area) * 4096) x -> reserved_block area (x / 4096) = true.
Proof.
  pose proof (lo_area _ _ _ Hlaid) as (_ & Hg & Ha). intros Hx.
  apply (static_addr 0); [done| |lia]. unfold span in *. lia.
Qed.

(** The builder before the groups are written. *)
Record prepared (r : Inode) (s : Formatter) : Prop := {
  pr_bs : fm_block_size s = BLOCK_SIZE;
  pr_size : fm_size s = total * 134217728;
  pr_inodes : fm_inodes s = <[6%nat := r]> (fm_inodes s0);
  pr_tree : fm_tree s = fm_tree s0;
  pr_deleted : fm_deleted_blocks s = fm_deleted_blocks s0;
  pr_uuid : fm_uuid s = fm_uuid s0;
  pr_label : fm_label s = fm_label s0;
  pr_data : forall x, x < total * 134217728 -> ~ span (D * 4096) ((D + 1) * 4096) x ->
    f_data (fm_file s) x = f_data (fm_file s0) x;
  pr_len : f_len (fm_file s) <= total * 134217728
}.

Lemma prepared_intro r s2 :
  s2 = set_fm_size (total * 134217728) (set_fm_file (fm_file s2) s1) -> f_len (fm_file s2) <= total * 134217728 ->
  (forall x, x < total * 134217728 -> f_data (fm_file s2) x = f_data (fm_file s1) x) ->
  prepared r (set_fm_tick (S (fm_tick s2)) (set_fm_inodes (<[6%nat := r]> (fm_inodes s2)) s2)).
Proof.
  intros F2 L2 D2. destruct (sized_state _ _ _ _ F2) as (B2 & I2 & T2 & Del2 & U2 & La2 & Z2).
  destruct (sized_state _ _ _ _ (pm_state _ _ _ Hplan)) as (B1 & I1 & T1 & Del1 & U1 & La1 & _).
  pose proof (rd_bs _ Hready) as Rb.
  constructor; rewrite <- ?Rb, <- ?B1, <- ?B2, <- ?I1, <- ?I2, <- ?Z2, <- ?T1, <- ?T2, <- ?Del1, <- ?Del2, <- ?U1, <- ?U2, <- ?La1, <- ?La2;
    [clear; by destruct s2..| |etransitivity; [|rewrite ?Z2; exact L2]; clear; by destruct s2].
  intros x Hx Hd. rewrite <- (pm_data _ _ _ Hplan x Hd), <- D2 by lia. clear. by destruct s2.
Qed.

(** Up to the groups. *)
Lemma write_image_start :
  plan_layout s0 = (Ok pl, s1) -> area <= pn_allocated pl ->
  exists gaps s r,
    write_image s0 =
      (_ ← write_resize_inode_blocks D gdc (area - gdc) groups; gt ← commit_groups pl gaps;
       write_primary pl (area - gdc) groups gt) s /\
    (forall b, in_ranges gaps b <-> pn_metadata_start pl <= b < fl_inode_table_offset L /\ b / 32768 < total /\ ~ static_block total area b) /\
    Inode_wf r /\ (exists t, r = resize_inode t BLOCK_SIZE D (area - gdc) (zlen groups)) /\ prepared r s.
Proof.
  intros Hrun Hfits. destruct Hlaid as [Hgr Hin Htab Hend Hclear Harea Hgdt [Hsz Hsz1]].
  pose proof (pm_dind _ _ _ Hplan) as Hd. unfold DATA_LIMIT in *.
  unfold write_image. rewrite (run_bind _ _ _ _ _ Hrun). cbv zeta. rewrite Hsz.
  destruct (resize_image_spec (total * 134217728) s1 Hsz1) as (s2 & R2 & Z2 & F2 & _ & D2 & L2). rewrite (run_bind _ _ _ _ _ R2).
  replace (pn_allocated pl <? area) with false by lia.
  assert (fm_block_size s2 = BLOCK_SIZE /\ fm_inodes s2 = fm_inodes s0) as [B2 I2].
  { destruct (sized_state _ _ _ _ F2) as (-> & -> & _). destruct (sized_state _ _ _ _ (pm_state _ _ _ Hplan)) as (-> & -> & _).
    by split; [apply Hready|]. }
  rewrite (run_bind _ _ s2 BLOCK_SIZE s2) by (unfold gets; congruence).
  destruct (free_ranges_spec total area (fl_inode_table_offset L)) with (pn_metadata_start pl) as (gaps & Hgaps & _ & Hfree); [lia..|].
  rewrite (run_bind _ _ s2 gaps s2) by (unfold lift, or_panic; by rewrite Hgaps).
  rewrite (u32_small (area - gdc)) by (unfold_ranges; lia).
  destruct (lookup_lt_is_Some_2 (fm_inodes s2) 6) as [old Hold].
  { rewrite I2. pose proof (rd_inodes _ Hready) as Hz. unfold zlen in Hz. lia. }
  destruct (configure_spec D (area - gdc) (zlen groups) s2 old B2 ltac:(unfold_ranges; lia) Hold) as (r & s3 & R3 & Hr & Ht & ->).
  rewrite (run_bind _ _ _ _ _ R3). eexists gaps, _, r. split; [reflexivity|]. split; [done|]. split; [done|]. split; [done|].
  apply prepared_intro; [done| |done]. apply L2, (pm_len _ _ _ Hplan).
Qed.

Lemma dind_clear : area <= pn_allocated pl -> reserved_block area D = false.
Proof.
  intros Hfits. pose proof Hplan as [_ _ Hsz _ _ Hfree Halloc _ _]. destruct Hlaid as [Hgr _ _ _ _ [Harea _] _ [_ Hs]].
  pose proof (rd_size _ Hready). rewrite Halloc in Hfree, Hfits.
  pose proof (area_mono (fm_size s0) (total * 134217728) ltac:(lia) ltac:(unfold MAX_IMAGE; lia)).
  replace area with (group_descriptor_blocks BLOCK_SIZE (fm_size s0)) by lia. done.
Qed.

(** The builder before the superblocks and descriptor tables are written. *)
Record grouped (gaps : list BlockRange) (gt : GroupTotals) (r : Inode) (s : Formatter) : Prop := {
  gr_bs : fm_block_size s = BLOCK_SIZE;
  gr_size : fm_size s = total * 134217728;
  gr_inodes : fm_inodes s = <[6%nat := r]> (fm_inodes s0) /\ Forall Inode_wf (fm_inodes s);
  gr_state : fm_tree s = fm_tree s0 /\ fm_deleted_blocks s = fm_deleted_blocks s0 /\ fm_uuid s = fm_uuid s0 /\
    fm_label s = fm_label s0;
  gr_data : forall x, 0 <= x < total * 134217728 -> ~ image_metadata (x / 4096) ->
    f_data (fm_file s) x = f_data (fm_file s0) x;
  gr_groups : groups_hold pl gaps s gt s;
  gr_dind : forall i, gdc <= i < area -> get_u32 (block_at s D) (i * 4) = 1 + i;
  gr_points : forall i, gdc <= i < area -> points_at (1 + i) groups (block_at s (1 + i));
  gr_len : f_len (fm_file s) <= total * 134217728
}.

Lemma group_metadata_image s b :
  fm_size s = total * 134217728 -> group_metadata pl s b -> image_metadata b /\ reserved_block area b = false /\ b <> D.
Proof.
  intros Hs. destruct Hlaid as [Hgr Hin Htab Hend Hclear [Harea _] Hgdt _]. unfold group_metadata. rewrite Hs, <- Harea.
  intros [Hb|[Hg Hr]].
  - split; [right; by left|]. split; [by apply Hclear|lia].
  - split; [do 2 right; by left|]. split; [done|]. intros ->. assert (D / GROUP < bg); [|lia].
    apply Z.div_lt_upper_bound; unfold GROUP in *; lia.
Qed.

Lemma write_image_groups :
  plan_layout s0 = (Ok pl, s1) -> area <= pn_allocated pl ->
  exists gaps gt r s, write_image s0 = write_primary pl (area - gdc) groups gt s /\ grouped gaps gt r s /\
    (exists t, r = resize_inode t BLOCK_SIZE D (area - gdc) (zlen groups)) /\
    (forall b, in_ranges gaps b <-> pn_metadata_start pl <= b < fl_inode_table_offset L /\ b / 32768 < total /\ ~ static_block total area b).
Proof.
  intros Hrun Hfits. destruct (write_image_start Hrun Hfits) as (gaps & s3 & r & -> & Hgaps & Hr & Ht & [B3 Z3 I3 T3 Del3 U3 La3 D3 Ln3]).
  pose proof (dind_clear Hfits) as HD. destruct Hlaid as [Hgr Hin Htab Hend Hclear Harea Hgdt [Hsz Hsz1]].
  pose proof (pm_dind _ _ _ Hplan) as Hdd. pose proof (pm_ipg _ _ _ Hplan) as Hipg. destruct (ipg_bounds ipg Hipg) as [Hib _].
  assert (zlen (fm_inodes s3) = zlen (fm_inodes s0)) as Zi by (rewrite I3; unfold zlen; by rewrite length_insert).
  assert (Forall Inode_wf (fm_inodes s3)) as Wi by (rewrite I3; by apply Forall_insert; [apply Hready|]).
  assert (zlen groups <= 1024 /\ Forall (fun g => 0 <= g <= 131070) groups) as Hfew.
  { pose proof (geometry_backup_few total ltac:(unfold MAX_GROUPS in *; lia)). split; [lia|].
    apply list.Forall_forall. intros g [Hg _]%geometry_backup_elem. unfold MAX_GROUPS in *. lia. }
  assert (forall x, span (D * 4096) ((D + 1) * 4096) x -> x / 4096 = D) as Hown.
  { intros x Hx. pose proof (block_of x D 1 ltac:(unfold span in Hx; lia)). lia. }
  destruct (write_resize_inode_blocks_spec gdc groups s3 B3 ltac:(lia) Hfew D (area - gdc)) as (s4 & R4 & W4 & L4 & K4 & P4);
    replace (1 + gdc + (area - gdc)) with (1 + area) in * by lia; [unfold_ranges; unfold DATA_LIMIT in *; lia|lia|lia| |].
  { intros x Hx%Hown Hl%listed_static. congruence. }
  replace (gdc + (area - gdc)) with area in K4, P4 by lia.
  rewrite (run_bind _ _ _ _ _ R4). destruct (wrote_state _ _ _ W4) as (B4 & Z4 & I4 & T4 & Del4 & U4 & La4).
  destruct (commit_groups_spec pl gaps s4) as (gt & s5 & R5 & W5 & G5);
    [congruence|congruence|rewrite I4; done|done|lia|rewrite I4, Zi; pose proof (rd_inodes _ Hready); lia|lia|lia|].
  rewrite (run_bind _ _ _ _ _ R5). destruct (wrote_state _ _ _ W5) as (B5 & Z5 & I5 & T5 & Del5 & U5 & La5).
  pose proof (fun x => group_metadata_image s4 (x / 4096) ltac:(congruence)) as Hmeta.
  exists gaps, gt, r, s5. split; [done|]. split; [|done]. constructor.
  - congruence.
  - congruence.
  - split; [congruence|]. by rewrite I5, I4.
  - repeat split; congruence.
  - intros x Hx Hn. rewrite (wr_data _ _ _ W5), (wr_data _ _ _ W4); [apply D3; [lia|]| |].
    + intros Ho%Hown. apply Hn. by do 3 right.
    + intros [Hl%listed_static|Ho%Hown]; apply Hn; [by left|by do 3 right].
    + intros Hm%Hmeta. apply Hn, Hm.
  - by apply (groups_hold_same pl gaps s4).
  - intros i Hi. rewrite (block_frame _ _ _ _ W5); [by apply K4|]. intros x Hx Hm%Hmeta. rewrite Hown in Hm; [|by unfold span]. tauto.
  - intros i Hi. rewrite (block_frame _ _ _ _ W5); [by apply P4|]. intros x Hx Hm%Hmeta.
    rewrite listed_static in Hm; [|unfold span; lia]. destruct Hm as (_ & [=] & _).
  - apply (wr_grow _ _ _ W5); [apply (wr_grow _ _ _ W4); [done|]|].
    + intros x [Hx|Hx]; unfold span, GROUP in *; lia.
    + intros x Hm. pose proof (Z.div_mod x 4096 ltac:(lia)). pose proof (Z.mod_pos_bound x 4096 ltac:(lia)).
      destruct Hm as [Hm|[Hm _]]; [unfold GROUP in *; lia|].
      assert (x / 4096 < total * GROUP) by (pose proof (Z.div_mod (x / 4096) GROUP ltac:(done)); pose proof (Z.mod_pos_bound (x / 4096) GROUP ltac:(done)); unfold GROUP in *; lia).
      unfold GROUP in *. lia.
Qed.

Lemma write_image_spec :
  plan_layout s0 = (Ok pl, s1) -> area <= pn_allocated pl ->
  exists gaps gt sb table s, write_image s0 = (Ok tt, s) /\ imaged gaps gt sb table s /\
    (forall b, in_ranges gaps b <-> pn_metadata_start pl <= b < fl_inode_table_offset L /\ b / 32768 < total /\ ~ static_block total area b).
Proof.
  intros Hrun Hfits. destruct (write_image_groups Hrun Hfits) as (gaps & gt & r & s5 & -> & [B Z [I Wi] (T & Del & U & La) Dt G Kd Pd Ln] & Ht & Hgaps).
  pose proof (dind_clear Hfits) as HD. destruct Hlaid as [Hgr Hin Htab Hend Hclear Harea Hgdt [Hsz Hsz1]].
  pose proof Hready as [_ _ _ _ Ri Rw Ru Rlab]. destruct (ipg_bounds ipg (pm_ipg _ _ _ Hplan)) as [Hib _].
  pose proof (pm_dind _ _ _ Hplan) as Hdd. destruct (lookup_lt_is_Some_2 (fm_inodes s5) 7) as [j Hj].
  { rewrite I, length_insert. unfold zlen in Ri. lia. }
  destruct (write_primary_spec pl (area - gdc) gt s5 j) as (name & table & s6 & R6 & Hsb & [W6 S6 Tb6 L6 K6] & Hzt & Hread);
    [done|rewrite U; done|rewrite La; done| | | | | |].
  { split; [done|]. by apply (Forall_lookup_1 _ _ _ _ Wi Hj). }
  { unfold_ranges. lia. }
  { lia. }
  { lia. }
  { split; [|rewrite (gc_descriptors _ _ _ _ _ G); lia]. apply list.Forall_forall. intros gd [g Hg]%list_elem_of_lookup.
    destruct (Z_lt_le_dec (Z.of_nat g) bg) as [Hlt|Hge]; [apply (gc_data _ _ _ _ _ G g gd Hg Hlt)|apply (gc_extra _ _ _ _ _ G g gd Hg Hge)]. }
  destruct (wrote_state _ _ _ W6) as (B6 & Z6 & I6 & T6 & Del6 & U6 & La6).
  exists gaps, gt. eexists. exists table, s6. split; [exact R6|]. split; [|exact Hgaps]. rewrite U in *.
  constructor.
  - congruence.
  - repeat split; congruence.
  - destruct Ht as [t ->]. exists t. split; [congruence|by rewrite I6].
  - intros x Hx Hn. rewrite (wr_data _ _ _ W6); [by apply Dt|]. intros Hm%tables_static. apply Hn. by left.
  - split; [exact L6|]. apply (wr_grow _ _ _ W6); [done|]. intros x [Hx|(g & [Hg _]%geometry_backup_elem & Hx)];
      unfold copy_addr, span, GROUP in *; lia.
  - apply (groups_hold_same pl gaps s5); [done|done|done|]. refine (groups_hold_frame pl gaps s5 _ _ _ _ _ (tables_addr gdc total) s5 s6 gt G W6 _ _);
      rewrite ?Z, <- ?(proj1 Harea); [apply (pm_ipg _ _ _ Hplan)|lia| |lia|lia|exact Hclear|exact tables_static].
    rewrite I. unfold zlen in *. rewrite length_insert. lia.
  - eexists _, _. split; [reflexivity|]. done.
  - done.
  - exact Hread.
  - exact K6.
  - intros i Hi. rewrite (block_frame _ _ _ _ W6); [by apply Kd|]. intros x Hx Hm%tables_static.
    pose proof (block_of x D 1 ltac:(lia)). replace (x / 4096) with D in Hm by lia. congruence.
  - intros i Hi. rewrite (block_frame _ _ _ _ W6); [by apply Pd|]. intros x Hx [Hm|(g & [Hg _]%geometry_backup_elem & Hm)];
      unfold copy_addr, span, GROUP in *; lia.
Qed.
End Image.
