(* ===== verification/CloseOrder.v ===== *)
(** The walk of [commit_directories] over the tree and the bytes of one
    directory. *)

From stdpp Require Import gmap.
From S2P Require Import Prelude Bytes Types Layout RustStr RustPath RustSort Errors Disk Dir FileTree Extent.
From S2P Require Import Geometry Formatter FormatterTree BuilderInv Close.

(** ** The order of the walk *)

(** The entries the walk goes on to: none below a hard link. *)
Definition kids (t : FileTree) (i : nat) : list nat :=
  match nodes t !! i with
  | Some n => if bool_decide (is_Some (n_link n)) then [] else n_children n
  | None => []
  end.

Inductive visited (t : FileTree) : nat -> Prop :=
| visited_root : visited t (root t)
| visited_child p c : visited t p -> c ∈ kids t p -> visited t c.

Lemma kids_child t i c : c ∈ kids t i -> child_of t i c.
Proof.
  unfold kids. destruct (nodes t !! i) as [n|] eqn:Hi; [|by intros ?%not_elem_of_nil].
  case_bool_decide; [by intros ?%not_elem_of_nil|]. intros Hc. by exists n.
Qed.

Definition kid_count (t : FileTree) (order : list (option nat * nat)) : nat :=
  sum_list_with (fun e => length (kids t e.2)) order.

(** The nodes walked, each once, children behind their parents' entry. *)
Record walked (t : FileTree) (Q out : list (option nat * nat)) : Prop := {
  wk_queue : forall e, e ∈ Q -> e ∈ out;
  wk_from : forall p c, (p, c) ∈ out -> (p, c) ∈ Q \/ exists q, p = Some q /\ q ∈ map snd out /\ c ∈ kids t q;
  wk_kids : forall q c, q ∈ map snd out -> c ∈ kids t q -> (Some q, c) ∈ out;
  wk_count : length out = (length Q + kid_count t out)%nat
}.

Section Walk.
Context (t : FileTree).
Hypothesis (Hwf : tree_wf t).

(** Nothing is met twice. *)
Record frontier (D : list nat) (Q : list (option nat * nat)) : Prop := {
  fr_nodup : NoDup (D ++ map snd Q);
  fr_valid : forall c, c ∈ D ++ map snd Q -> (c < length (nodes t))%nat;
  fr_from : forall c, c ∈ D ++ map snd Q -> c = root t \/ exists p, p ∈ D /\ child_of t p c
}.

Lemma frontier_step D par i Q :
  frontier D ((par, i) :: Q) -> frontier (D ++ [i]) (Q ++ map (fun child => (Some i, child)) (kids t i)).
Proof.
  intros [Hnd Hval Hfrom]. cbn [map snd] in *.
  assert (map snd (Q ++ map (fun child => (Some i, child)) (kids t i)) = map snd Q ++ kids t i) as E.
  { rewrite map_app, map_map. f_equal. apply map_id. }
  assert ((D ++ [i]) ++ map snd Q ++ kids t i = (D ++ i :: map snd Q) ++ kids t i) as E' by (by rewrite <- !app_assoc).
  assert (i ∉ D) as Hi by (intros Hi; apply list.NoDup_app in Hnd as (_ & Hd & _); apply (Hd i Hi); by left).
  constructor; rewrite E, E'.
  - apply list.NoDup_app. split; [done|]. split.
    + intros c Hc Hk%kids_child. destruct (wf_child t Hwf i c Hk) as (n & Hn & Hpar & Hlt).
      destruct (Hfrom c Hc) as [->|(p & Hp & Hch)].
      * destruct (wf_root t Hwf) as [Hr _]. lia.
      * destruct (wf_child t Hwf p c Hch) as (n' & Hn' & Hpar' & _). assert (p = i) as -> by congruence. done.
    + unfold kids. destruct (nodes t !! i) as [n|] eqn:Hn; [|apply NoDup_nil_2]. case_bool_decide; [apply NoDup_nil_2|].
      by apply (wf_nodup t Hwf i).
  - intros c [Hc|Hk%kids_child]%elem_of_app; [by apply Hval|]. destruct (wf_child t Hwf i c Hk) as (n & Hn & _). by eapply lookup_lt_Some.
  - intros c [Hc|Hk%kids_child]%elem_of_app.
    + destruct (Hfrom c Hc) as [?|(p & Hp & ?)]; [by left|right]. exists p. split; [apply elem_of_app; by left|done].
    + right. exists i. split; [apply elem_of_app; right; by left|done].
Qed.

Lemma frontier_few D Q : frontier D Q -> (length D <= length (nodes t))%nat.
Proof.
  intros [Hnd Hval _]. apply list.NoDup_app in Hnd as (Hnd & _). rewrite <- (length_seq (length (nodes t)) 0).
  apply NoDup_ListNoDup in Hnd. apply (List.NoDup_incl_length Hnd). intros c Hc%list_elem_of_In.
  apply list_elem_of_In, elem_of_seq. specialize (Hval c ltac:(apply elem_of_app; by left)). lia.
Qed.

Lemma bfs_loop_spec fuel : forall D Q,
  frontier D Q -> (length D + fuel = S (length (nodes t)))%nat ->
  exists out, bfs_loop fuel t Q = Ok out /\ walked t Q out /\ NoDup (D ++ map snd out).
Proof.
  induction fuel as [|fuel IH]; intros D Q Hf Hfuel.
  { pose proof (frontier_few D Q Hf). lia. }
  destruct Q as [|[par i] Q].
  { exists []. split; [done|]. split; [|apply Hf]. constructor; [done|by intros ? ? ?%not_elem_of_nil|by intros ? ? ?%not_elem_of_nil|done]. }
  assert (i < length (nodes t))%nat as Hi.
  { apply (fr_valid _ _ Hf). apply elem_of_app. right. by left. }
  destruct (lookup_lt_is_Some_2 _ _ Hi) as [n Hn]. cbn [bfs_loop]. rewrite (node_ok t i n Hn). cbn [mbind res_bind].
  assert ((if bool_decide (is_Some (n_link n)) then [] else n_children n) = kids t i) as -> by (unfold kids; by rewrite Hn).
  destruct (IH (D ++ [i]) (Q ++ map (fun child => (Some i, child)) (kids t i))) as (rest & -> & [W1 W2 W3 W4] & Hnd);
    [by apply frontier_step with par|rewrite length_app; cbn [length]; lia|].
  eexists. split; [reflexivity|]. rewrite <- app_assoc in Hnd. split; [|exact Hnd].
  assert (map snd ((par, i) :: rest) = i :: map snd rest) as Es by done. constructor.
  - intros e [->|He]%elem_of_cons; [by left|right]. apply W1, elem_of_app. by left.
  - intros p c [[= -> ->]|Hc]%elem_of_cons; [left; by left|].
    destruct (W2 p c Hc) as [[Hq|Hk]%elem_of_app|(q & -> & Hq & Hk)].
    + left. by right.
    + apply list_elem_of_In, in_map_iff in Hk as (x & [= <- <-] & Hx%list_elem_of_In). right. exists i. rewrite Es. split; [done|]. split; [by left|done].
    + right. exists q. rewrite Es. split; [done|]. split; [by right|done].
  - intros q c Hq Hc. rewrite Es in Hq. apply elem_of_cons in Hq as [->|Hq]; [|right; by apply W3].
    right. apply W1, elem_of_app. right. apply list_elem_of_In, in_map_iff. exists c. split; [done|]. by apply list_elem_of_In.
  - unfold kid_count in *. cbn [length sum_list_with snd]. rewrite W4, length_app, length_map. cbn [length]. lia.
Qed.

(** The order: the root first, every visited node once. *)
Lemma bfs_order_spec :
  exists order, bfs_order t = Ok order /\ NoDup (map snd order) /\ (length order <= length (nodes t))%nat /\
    (kid_count t order < length order)%nat /\
    (forall p c, (p, c) ∈ order -> (p = None /\ c = root t) \/ exists q, p = Some q /\ c ∈ kids t q) /\
    (forall c, visited t c -> exists p, (p, c) ∈ order) /\ (forall p c, (p, c) ∈ order -> visited t c).
Proof.
  destruct (wf_root t Hwf) as [Hr (n0 & Hn0 & _)].
  assert (frontier [] [(None, root t)]) as Hf.
  { constructor; cbn [map snd app].
    - apply NoDup_singleton.
    - intros c ->%list_elem_of_singleton. rewrite Hr. by eapply lookup_lt_Some.
    - intros c ->%list_elem_of_singleton. by left. }
  destruct (bfs_loop_spec (S (length (nodes t))) [] [(None, root t)] Hf ltac:(done)) as (order & Hrun & [W1 W2 W3 W4] & Hnd).
  exists order. split; [exact Hrun|]. split; [exact Hnd|]. split; [|split; [|split; [|split]]].
  - assert (forall c, c ∈ map snd order -> (c < length (nodes t))%nat) as Hval.
    { intros c Hc. apply list_elem_of_In, in_map_iff in Hc as ([p c'] & <- & Hc%list_elem_of_In). cbn [snd].
      destruct (W2 p c' Hc) as [[= -> ->]%list_elem_of_singleton|(q & -> & _ & Hk%kids_child)]; [rewrite Hr; by eapply lookup_lt_Some|].
      destruct (wf_child t Hwf q c' Hk) as (n & Hn & _). by eapply lookup_lt_Some. }
    rewrite <- (length_map snd order), <- (length_seq (length (nodes t)) 0). cbn [app] in Hnd. apply NoDup_ListNoDup in Hnd.
    apply (List.NoDup_incl_length Hnd). intros c Hc%list_elem_of_In. apply list_elem_of_In, elem_of_seq. specialize (Hval c Hc). lia.
  - cbn [length] in W4. lia.
  - intros p c Hc. destruct (W2 p c Hc) as [[= -> ->]%list_elem_of_singleton|(q & -> & _ & Hk)]; [by left|right; by exists q].
  - intros c Hv. induction Hv as [|q c _ [p Hp] Hk].
    + exists None. apply W1. by left.
    + exists (Some q). apply W3; [|done]. apply (list_elem_of_fmap_2 snd) in Hp. done.
  - intros p c. revert p. induction (Nat.lt_wf_0 c) as [c _ IH]. intros p Hc.
    destruct (W2 p c Hc) as [[= -> ->]%list_elem_of_singleton|(q & -> & Hq & Hk)]; [constructor|].
    destruct (wf_child t Hwf q c (kids_child _ _ _ Hk)) as (n & _ & _ & Hlt).
    apply list_elem_of_In, in_map_iff in Hq as ([p' q'] & <- & Hq%list_elem_of_In). cbn [snd] in *.
    apply (visited_child t q' c); [by apply (IH q' Hlt p')|done].
Qed.
End Walk.

(** ** The bytes of one directory *)

(** What the walk reads of a node and of an inode. *)
Record node_shape : Type := mkShape {
  sh_inode : Z; sh_name : list Z; sh_children : list nat; sh_parent : option nat; sh_link : option Z
}.

Definition shape_of (n : FileTreeNode) : node_shape :=
  mkShape (n_inode n) (n_name n) (n_children n) (n_parent n) (n_link n).
Definition shape_at (s : Formatter) (i : nat) : option node_shape := shape_of <$> nodes (fm_tree s) !! i.
Definition meta_at (s : Formatter) (k : Z) : option (Z * Z) :=
  (fun x => (i_mode x, i_links_count x)) <$> fm_inodes s !! inode_index k.

(** Two states the walk cannot tell apart. *)
Record same_view (s s' : Formatter) : Prop := {
  sv_shape : forall i, shape_at s' i = shape_at s i;
  sv_meta : forall k, meta_at s' k = meta_at s k;
  sv_size : fm_block_size s' = fm_block_size s;
  sv_root : root (fm_tree s') = root (fm_tree s);
  sv_nodes : length (nodes (fm_tree s')) = length (nodes (fm_tree s));
  sv_inodes : length (fm_inodes s') = length (fm_inodes s)
}.

Lemma same_view_refl s : same_view s s.
Proof. done. Qed.

Lemma same_view_sym s s' : same_view s s' -> same_view s' s.
Proof. intros [A B C D E F]. by constructor. Qed.

Lemma same_view_trans s s' s'' : same_view s s' -> same_view s' s'' -> same_view s s''.
Proof. intros [A B C D E F] [A' B' C' D' E' F']. constructor; intros; [by rewrite A'|by rewrite B'|congruence..]. Qed.

(** The entry of a child, none when its inode has no links. *)
Definition child_dirent (s : Formatter) (c : nat) : option dirent :=
  sh ← shape_at s c;
  effective ← meta_at s (default (sh_inode sh) (sh_link sh));
  if effective.2 =? 0 then None
  else
    own ← meta_at s (Z.max (sh_inode sh) 1);
    Some (mkDirent (sh_name sh) (sh_inode sh) own.1 (sh_link sh)
      (if bool_decide (is_Some (sh_link sh)) then Some effective.1 else None)).

Definition shape_cmp (s : Formatter) (a b : nat) : comparison :=
  match shape_at s a, shape_at s b with
  | Some x, Some y => sh_inode x ?= sh_inode y
  | _, _ => Eq
  end.

(** The inode [..] names: the directory's own at the root. *)
Definition parent_inode (s : Formatter) (parent : option nat) (own : Z) : option Z :=
  match parent with Some p => sh_inode <$> shape_at s p | None => Some own end.

(** The entries of a directory, in the order they are written. *)
Definition dirents (s : Formatter) (parent : option nat) (i : nat) : option (list dirent) :=
  sh ← shape_at s i;
  own ← meta_at s (sh_inode sh);
  pino ← parent_inode s parent (sh_inode sh);
  up ← meta_at s pino;
  Some (mkDirent DOT (sh_inode sh) own.1 None None :: mkDirent DOTDOT pino up.1 None None
    :: omap (child_dirent s) (sort_by (shape_cmp s) (sh_children sh))).

Lemma sort_by_ext {A} (f g : A -> A -> comparison) l : (forall a b, f a b = g a b) -> sort_by f l = sort_by g l.
Proof.
  intros E. unfold sort_by. induction l as [|a l IH]; [done|]. cbn [fold_right]. rewrite IH. clear IH.
  induction (fold_right _ _ l) as [|b m IH]; [done|]. cbn [insert_by]. unfold cmp_le. rewrite E, IH. done.
Qed.

Lemma omap_few {A B} (f : A -> option B) l : (length (omap f l) <= length l)%nat.
Proof. induction l as [|a l IH]; [done|]. cbn [omap list_omap length]. destruct (f a); cbn [length]; lia. Qed.

Lemma shape_cmp_eq s a b : inode_cmp (fm_tree s) a b = shape_cmp s a b.
Proof. unfold inode_cmp, shape_cmp, shape_at. by destruct (_ !! a), (_ !! b). Qed.

(** Names a directory entry can hold: [str]s that [validate_path_component_names] lets through. *)
Definition names_fit (t : FileTree) : Prop :=
  forall p c x, child_of t p c -> nodes t !! c = Some x ->
    Forall is_u8 (n_name x) /\ utf8 (n_name x) /\ 1 <= zlen (n_name x) <= EXT4_NAME_LEN /\ n_name x <> DOTDOT.

Section SameView.
Context (s s' : Formatter).
Hypothesis (Hsame : same_view s s').

Lemma view_node i n' : nodes (fm_tree s') !! i = Some n' -> exists n, nodes (fm_tree s) !! i = Some n /\ shape_of n' = shape_of n.
Proof.
  intros Hn. pose proof (sv_shape _ _ Hsame i) as E. unfold shape_at in E. rewrite Hn in E.
  destruct (nodes (fm_tree s) !! i) as [n|]; [|done]. injection E as E. exists n. split; [done|]. unfold shape_of. congruence.
Qed.

Lemma view_node_back i n : nodes (fm_tree s) !! i = Some n -> exists n', nodes (fm_tree s') !! i = Some n' /\ shape_of n' = shape_of n.
Proof.
  intros Hn. pose proof (sv_shape _ _ Hsame i) as E. unfold shape_at in E. rewrite Hn in E.
  destruct (nodes (fm_tree s') !! i) as [n'|]; [|done]. injection E as E. exists n'. split; [done|]. unfold shape_of. congruence.
Qed.

Lemma view_child p c : child_of (fm_tree s') p c -> child_of (fm_tree s) p c.
Proof.
  intros (n' & Hn' & Hc). destruct (view_node p n' Hn') as (n & Hn & E). exists n. split; [done|].
  apply (f_equal sh_children) in E. cbn [sh_children shape_of] in E. by rewrite <- E.
Qed.

Lemma view_inv : fmt_inv s -> fmt_inv s'.
Proof.
  intros [[[Hr Hpar Hch Hnd] Hu Hrn Hp Hi] Hm]. pose proof Hsame as [A _ _ R Ln Li]. split; [|unfold zlen in *; by rewrite Li].
  rewrite Li. constructor; [constructor|..].
  - rewrite R. destruct Hr as [Hr (n & Hn & Hp0)]. split; [done|]. destruct (view_node_back _ n Hn) as (n' & Hn' & E).
    exists n'. split; [done|]. apply (f_equal sh_parent) in E. cbn [sh_parent shape_of] in E. congruence.
  - intros i n' Hn' Hi0. destruct (view_node i n' Hn') as (n & Hn & E). destruct (Hpar i n Hn Hi0) as (p & Hp0 & Hlt).
    exists p. apply (f_equal sh_parent) in E. cbn [sh_parent shape_of] in E. split; [congruence|done].
  - intros p c Hc%view_child. destruct (Hch p c Hc) as (n & Hn & Hp0 & Hlt). destruct (view_node_back c n Hn) as (n' & Hn' & E).
    exists n'. apply (f_equal sh_parent) in E. cbn [sh_parent shape_of] in E. split; [done|]. split; [congruence|done].
  - intros i n' Hn'. destruct (view_node i n' Hn') as (n & Hn & E). apply (f_equal sh_children) in E. cbn [sh_children shape_of] in E.
    rewrite E. by apply (Hnd i).
  - intros p c1 c2 n1' n2' C1%view_child C2%view_child N1 N2 Heq. destruct (view_node c1 n1' N1) as (n1 & N1' & E1).
    destruct (view_node c2 n2' N2) as (n2 & N2' & E2). apply (f_equal sh_name) in E1, E2. cbn [sh_name shape_of] in E1, E2.
    apply (Hu p c1 c2 n1 n2 C1 C2 N1' N2'). congruence.
  - rewrite <- Hrn. unfold root_name. rewrite R. pose proof (A (root (fm_tree s))) as E. unfold shape_at in E.
    destruct (nodes (fm_tree s') !! root (fm_tree s)), (nodes (fm_tree s) !! root (fm_tree s)); try discriminate E; [|done].
    injection E as _ E _ _ _. exact E.
  - intros p c x' Hc%view_child Hx'. destruct (view_node c x' Hx') as (x & Hx & E). apply (f_equal sh_name) in E. cbn [sh_name shape_of] in E.
    rewrite E. by apply (Hp p c).
  - intros i x' Hx'. destruct (view_node i x' Hx') as (x & Hx & E). injection E as -> _ _ _ ->. by apply (Hi i).
Qed.

Lemma view_fit : names_fit (fm_tree s) -> names_fit (fm_tree s').
Proof.
  intros Hf p c x' Hc%view_child Hx'. destruct (view_node c x' Hx') as (x & Hx & E). apply (f_equal sh_name) in E.
  cbn [sh_name shape_of] in E. rewrite E. by apply (Hf p c).
Qed.

Lemma child_dirent_same c : child_dirent s' c = child_dirent s c.
Proof.
  destruct Hsame as [A B _ _ _ _]. unfold child_dirent. rewrite A. destruct (shape_at s c) as [sh|]; [|done].
  cbn [mbind option_bind]. by rewrite !B.
Qed.

Lemma dirents_same parent i : dirents s' parent i = dirents s parent i.
Proof.
  pose proof Hsame as [A B _ _ _ _]. unfold dirents. rewrite A. destruct (shape_at s i) as [sh|]; [|done].
  cbn [mbind option_bind]. rewrite B. destruct (meta_at s (sh_inode sh)) as [m|]; [|done]. cbn [mbind option_bind].
  assert (parent_inode s' parent (sh_inode sh) = parent_inode s parent (sh_inode sh)) as ->
    by (destruct parent; cbn [parent_inode]; by rewrite ?A).
  destruct (parent_inode s parent _) as [pino|]; [|done]. cbn [mbind option_bind]. rewrite B.
  destruct (meta_at s pino) as [u|]; [|done]. cbn [mbind option_bind]. do 3 f_equal.
  rewrite (sort_by_ext (shape_cmp s') (shape_cmp s)) by (intros; unfold shape_cmp; by rewrite !A).
  apply list_omap_ext. apply Forall2_same_length_lookup_2; [done|]. intros k x y Hx Hy. simplify_eq. apply child_dirent_same.
Qed.
End SameView.

Section Bytes.
Context (s : Formatter).
Hypothesis (Hinv : fmt_inv s).
Hypothesis (Hfit : names_fit (fm_tree s)).
Hypothesis (Hbs : fm_block_size s = 4096).

Lemma inode_of_valid k :
  valid_inode (length (fm_inodes s)) k ->
  is_u32 k /\ k <> 0 /\ exists x, fm_inodes s !! inode_index k = Some x /\ inode_of s k = Ok x /\ meta_at s k = Some (i_mode x, i_links_count x).
Proof.
  intros Hk. destruct (valid_index s Hinv k Hk) as [x Hx]. destruct Hinv as [_ Hn]. unfold valid_inode, zlen, u32_max in *.
  split; [unfold is_u32; lia|]. split; [lia|]. exists x. unfold inode_of, meta_at. by rewrite Hx.
Qed.

Lemma child_entry_spec p c st :
  child_of (fm_tree s) p c ->
  child_entry s st c = match child_dirent s c with
                       | None => Ok st
                       | Some e => write_dir_entry (d_name e) (d_inode e) (d_mode e) (d_link_inode e) (d_link_mode e) (fm_block_size s) st
                       end /\ forall e, child_dirent s c = Some e -> dirent_ok e.
Proof.
  intros Hc. pose proof Hinv as [[Hwf _ _ _ Hino] _]. destruct (wf_child _ Hwf p c Hc) as (n & Hn & _).
  destruct (Hfit p c n Hc Hn) as (Hu8 & Hutf & Hlen & _). destruct (Hino c n Hn) as [Hown Hlink].
  assert (valid_inode (length (fm_inodes s)) (default (n_inode n) (n_link n))) as Heff
    by (destruct (n_link n) as [l|] eqn:E; [by apply (Hlink l)|exact Hown]).
  destruct (inode_of_valid _ Heff) as (Hu & H0 & x & _ & Hx & Mx). destruct (inode_of_valid _ Hown) as (_ & _ & y & _ & Hy & My).
  assert (Z.max (n_inode n) 1 = n_inode n) as Emax by (destruct Hown; lia).
  unfold child_entry, child_dirent, shape_at. rewrite (node_ok _ c n Hn), Hn. cbn [mbind option_bind res_bind fmap option_fmap option_map].
  cbn [sh_inode sh_link sh_name shape_of]. rewrite Hx, Mx. cbn [mbind option_bind res_bind fst snd].
  destruct (i_links_count x =? 0); [by split|]. rewrite Emax, Hy, My. cbn [mbind option_bind res_bind fst snd].
  split; [reflexivity|]. intros e [= <-]. unfold dirent_ok, dirent_ino. cbn [d_name d_inode d_link_inode]. done.
Qed.

Lemma children_spec p cs : forall st,
  (forall c, c ∈ cs -> child_of (fm_tree s) p c) ->
  foldM (child_entry s) st cs = write_dir_entries (fm_block_size s) (omap (child_dirent s) cs) st /\
  Forall dirent_ok (omap (child_dirent s) cs).
Proof.
  induction cs as [|c cs IH]; intros st Hcs; [by split; [|apply Forall_nil]|].
  destruct (child_entry_spec p c st (Hcs c ltac:(by left))) as [E Hok].
  unfold write_dir_entries. cbn [foldM omap list_omap]. rewrite E. clear E.
  destruct (child_dirent s c) as [e|].
  - split; [|apply Forall_cons; [by apply Hok|apply (IH st); intros; apply Hcs; by right]].
    cbn [foldM]. destruct (write_dir_entry _ _ _ _ _ _ st) as [st1|err|]; [|done..]. cbn [mbind res_bind].
    apply (IH st1). intros. apply Hcs. by right.
  - apply (IH st). intros. apply Hcs. by right.
Qed.

(** The directory of node [i] parses back, block by block, to its entries. *)
Record dir_bytes (parent : option nat) (i : nat) (es : list dirent) (blocks : list (list Z)) : Prop := {
  db_run : directory_bytes s parent i = Ok (concat blocks);
  db_blocks : Forall (fun b => zlen b = 4096) blocks;
  db_parse : concat (map parse_dir_entries blocks) = map dirent_view es;
  db_some : (1 <= length blocks <= S (length es))%nat
}.

Lemma directory_bytes_spec parent i n :
  nodes (fm_tree s) !! i = Some n -> (forall p, parent = Some p -> (p < length (nodes (fm_tree s)))%nat) ->
  exists es blocks, dirents s parent i = Some es /\ dir_bytes parent i es blocks /\
    (2 <= length es <= 2 + length (n_children n))%nat.
Proof.
  intros Hn Hp. pose proof Hinv as [[Hwf _ _ _ Hino] _]. destruct (inode_of_valid _ (proj1 (Hino i n Hn))) as (Hu & H0 & x & _ & Hx & Mx).
  assert (exists pino, parent_inode s parent (n_inode n) = Some pino /\ valid_inode (length (fm_inodes s)) pino /\
    match parent with Some pidx => p ← node (fm_tree s) pidx; Ok (n_inode p) | None => Ok (n_inode n) end = Ok (E := FormatError) pino) as (pino & Ep & Hpv & Hrunp).
  { destruct parent as [p|]; [|exists (n_inode n); split; [done|]; split; [apply (proj1 (Hino i n Hn))|done]].
    destruct (lookup_lt_is_Some_2 _ _ (Hp p eq_refl)) as [m Hm]. exists (n_inode m). cbn [parent_inode]. unfold shape_at.
    rewrite Hm, (node_ok (fm_tree s) p m Hm). split; [reflexivity|]. split; [apply (proj1 (Hino p m Hm))|reflexivity]. }
  destruct (inode_of_valid _ Hpv) as (Hpu & Hp0 & y & _ & Hy & My).
  set (cs := sort_by (shape_cmp s) (n_children n)).
  assert (forall c, c ∈ cs -> child_of (fm_tree s) i c) as Hcs.
  { intros c Hc. exists n. split; [done|]. unfold cs in Hc. by rewrite sort_by_perm in Hc. }
  set (es := mkDirent DOT (n_inode n) (i_mode x) None None :: mkDirent DOTDOT pino (i_mode y) None None :: omap (child_dirent s) cs).
  assert (dirents s parent i = Some es) as Ees.
  { unfold dirents, shape_at. rewrite Hn. cbn [fmap option_fmap option_map mbind option_bind sh_inode shape_of sh_children].
    rewrite Mx. cbn [mbind option_bind]. rewrite Ep. cbn [mbind option_bind]. by rewrite My. }
  assert (Forall dirent_ok es) as Hok.
  { apply Forall_cons; [|apply Forall_cons; [|apply (children_spec i cs ([], 0) Hcs)]];
      (split_and!; [repeat constructor; by vm_compute|by apply (utf8b_sound 9)|by vm_compute|by vm_compute|done|done]). }
  destruct (write_entries_inv (E := FormatError) 4096 ltac:(lia) es [] _ (dir_inv_init 4096 ltac:(lia)) Hok) as (st & Hst & Hdi).
  destruct (finish_inv (E := FormatError) 4096 ltac:(lia) _ st Hdi) as (blocks & Hfin & Hbl & Hv & Hfew).
  exists es, blocks. split; [exact Ees|]. split; [|unfold es; cbn [length]].
  2:{ pose proof (omap_few (child_dirent s) cs) as Ho. unfold cs in *. rewrite (Permutation_length (sort_by_perm (shape_cmp s) (n_children n))) in Ho. lia. }
  constructor; [|exact Hbl|exact Hv|destruct (st.2 <? 4096); cbn [app] in Hfew; lia].
  unfold directory_bytes. rewrite (node_ok _ i n Hn). cbn [mbind res_bind]. rewrite Hx. cbn [mbind res_bind].
  rewrite Hrunp, Hbs. unfold write_dir_entries, es in Hst. cbn [foldM d_name d_inode d_mode d_link_inode d_link_mode] in Hst.
  destruct (write_dir_entry DOT _ _ _ _ _ _) as [st1|?|]; [|discriminate..]. cbn [mbind res_bind] in *. rewrite Hy. cbn [mbind res_bind].
  destruct (write_dir_entry DOTDOT _ _ _ _ _ _) as [st2|?|]; [|discriminate..]. cbn [mbind res_bind] in *.
  rewrite (sort_by_ext _ _ _ (shape_cmp_eq s)). fold cs. rewrite (proj1 (children_spec i cs st2 Hcs)), Hbs.
  unfold write_dir_entries. rewrite Hst. cbn [mbind res_bind]. by rewrite Hfin.
Qed.
End Bytes.
