(* ===== verification/CloseDirs.v ===== *)
(** The loop of [commit_directories]: every live directory of the tree is put
    behind the payload, its extents in its inode, and nothing written later
    touches it. *)

From stdpp Require Import gmap.
From S2P Require Import Prelude Bytes Types Layout RustStr RustPath RustSort Errors Disk Tables Dir FileTree Extent.
From S2P Require Import Geometry Formatter Payload FormatterTree BuilderInv Close CloseBitmaps CloseWrites CloseSkips ClosePlan CloseImage.
From S2P Require Import CloseOrder.

(** ** Extents *)

Lemma ranges_ok_range rs : ranges_ok rs -> Forall range_ok rs.
Proof. intros H. eapply list.Forall_impl; [exact H|]. unfold range_ok. intros r Hr. lia. Qed.

(** Few ranges of few blocks need few leaves. *)
Lemma leaves_few rs :
  ranges_ok rs -> total_blocks rs <= u32_max ->
  zlen (fill_extent_leaves_from_ranges rs) * 32768 <= total_blocks rs + zlen rs * 32768.
Proof.
  intros Hok Ht. destruct (fill_leaves_spec rs 0 (ranges_ok_range rs Hok) ltac:(lia) ltac:(lia)) as (_ & _ & Hn).
  fold (fill_extent_leaves_from_ranges rs) in Hn. unfold zlen at 1. rewrite Hn. clear Hn Ht.
  induction rs as [|r rs IH]; [done|]. apply Forall_cons_1 in Hok as [Hr Hok]. specialize (IH Hok). cbn [fold_right].
  change (total_blocks (r :: rs)) with ((br_end r - br_start r) + total_blocks rs). rewrite zlen_cons.
  unfold MAX_BLOCKS_PER_EXTENT in *. pose proof (div_ceil_spec (br_end r - br_start r) 0x8000 ltac:(lia)). lia.
Qed.

Definition with_extents (inode : Inode) (buf : list Z) (blocks : Z) : Inode :=
  set_extents_flag (add_inode_blocks (set_i_block buf inode) blocks BLOCK_SIZE).

Lemma with_extents_wf inode buf blocks : Inode_wf inode -> is_bytes 60 buf -> Inode_wf (with_extents inode buf blocks).
Proof.
  intros Hwf Hb. unfold with_extents, set_extents_flag, add_inode_blocks. destruct inode. unfold Inode_wf in *. cbn -[is_u16 is_u32 is_bytes u32] in *. destruct_and! Hwf.
  split_and!; first [done | apply u32_range | apply lor_u32; [done|by vm_compute]].
Qed.

Lemma with_extents_fields inode buf blocks :
  i_mode (with_extents inode buf blocks) = i_mode inode /\ i_links_count (with_extents inode buf blocks) = i_links_count inode.
Proof. by destruct inode. Qed.

Lemma set_file_size_wf inode n : Inode_wf inode -> Inode_wf (set_file_size n inode).
Proof.
  intros Hwf. unfold set_file_size. destruct inode. unfold Inode_wf in *. cbn -[is_u16 is_u32 is_bytes u32] in *.
  destruct_and! Hwf. split_and!; try done; apply u32_range.
Qed.

Section Place.
Context (area limit : Z).
Hypothesis (Harea : 0 <= area <= 1024).
Hypothesis (Hlimit : limit + 16384 <= LIMIT).

(** What [place_extents] leaves: the tree parses back in every file that keeps
    the blocks behind the old position that are not static metadata. *)
Record extents_kept (s : Formatter) (ranges : list BlockRange) (inode' : Inode) (s' : Formatter) : Prop := {
  xk_state : s' = set_fm_file (fm_file s') s;
  xk_pos : fpos s <= fpos s' /\ reach area (fpos s') <= reach area (fpos s) + 4096;
  xk_before : forall x, x < fpos s -> f_data (fm_file s') x = f_data (fm_file s) x;
  xk_len : f_len (fm_file s) <= f_len (fm_file s') <= Z.max (f_len (fm_file s)) (fpos s');
  xk_parse : forall g, (forall x, fpos s <= x < fpos s' -> reserved_block area (x / 4096) = false ->
      f_data g x = f_data (fm_file s') x) -> fpos s' <= f_len g ->
    parse_extents inode' BLOCK_SIZE g = Ok (map leaf_range (fill_extent_leaves_from_ranges ranges))
}.

Lemma place_extents_spec inode ranges s :
  fm_block_size s = BLOCK_SIZE -> 0 <= fpos s -> fpos s mod 4096 = 0 -> area_until area (fm_size s) limit ->
  reach area (fpos s) + 4096 <= limit -> ranges_ok ranges -> zlen ranges <= 62 -> 0 < zlen (file_blocks ranges) <= 4194304 ->
  exists buf n s', place_extents inode ranges s = (Ok (with_extents inode buf n), s') /\ is_bytes 60 buf /\
    extents_kept s ranges (with_extents inode buf n) s'.
Proof.
  intros Hbs Hp Ha Har Hroom Hok Hfew Hcount. pose proof (reach_pos area (fpos s)) as Hr0. unfold LIMIT, u32_max in Hlimit.
  assert (fpos s / 4096 <= u32_max) as Hm by (apply Z.div_le_upper_bound; unfold u32_max; lia).
  destruct (skip_crossed area Harea (fm_size s) (fpos s) (Har (fm_size s) ltac:(lia)) Hp Hm) as [R1 _].
  destruct (payload_pos_spec (fm_size s) (fpos s) Hp Hm) as (Hq & _ & Hqm & _ & Hfree). rewrite (Har (fm_size s) ltac:(lia)) in Hfree.
  set (q := payload_pos (fm_size s) (fpos s)) in *. rewrite Ha in Hqm. pose proof (aligned_pos q Hqm) as Hqa.
  pose proof (reach_pos area q) as Hr1. set (s1 := at_pos q s).
  assert (fpos s1 = q /\ fm_block_size s1 = BLOCK_SIZE /\ f_data (fm_file s1) = f_data (fm_file s) /\ f_len (fm_file s1) = f_len (fm_file s))
    as (P1 & B1 & D1 & L1) by (by destruct s).
  pose proof (length_file_blocks ranges (ranges_ok_range _ Hok)) as Htot. unfold zlen in Hcount. rewrite Htot in Hcount.
  pose proof (leaves_few ranges Hok ltac:(unfold u32_max; lia)) as Hlv.
  assert (zlen (fill_extent_leaves_from_ranges ranges) <= 340) as Hlv' by lia.
  assert (0 <= q / 4096 <= 4294967291) as Hcur by (split; [apply Z.div_pos|apply Z.div_le_upper_bound]; lia).
  destruct (write_extents_spec (E := FormatError) inode ranges BLOCK_SIZE (fm_file s1) (q / 4096)) as (buf & f' & n & Hn & Hb & Hw & [Xp Xf [Xl1 Xl2] Xpos Xfew]);
    [done|by apply ranges_ok_range|unfold u32_max; lia|change (leaves_per_block BLOCK_SIZE) with 340; lia|lia|unfold u32_max; lia|].
  change (leaves_per_block BLOCK_SIZE) with 340 in Xfew. specialize (Xfew Hlv'). change BLOCK_SIZE with 4096 in Xf, Xl1, Xl2, Xpos, Xp.
  set (s2 := set_fm_file f' s1).
  exists buf, (u32 (total_blocks ranges + n)), s2. split; [|split; [done|]].
  - unfold place_extents. rewrite (run_bind _ _ _ _ _ (skip_reserved_spec s Hbs Hp Hm)). fold q s1.
    rewrite (run_bind _ _ s1 (q / 4096) s1).
    2:{ rewrite current_block_spec by done. rewrite P1. by replace (q / 4096 <=? u32_max) with true by (unfold u32_max; lia). }
    rewrite (run_bind _ _ s1 (with_extents inode buf (u32 (total_blocks ranges + n)), q / 4096 + n) s2); [done|].
    unfold fm_write_extents. rewrite B1, Hw. done.
  - assert (fpos s2 = if n =? 0 then q else q + n * 4096) as P2.
    { unfold s2. transitivity (f_pos f'); [by destruct s1|]. rewrite Xpos. destruct (n =? 0); [exact P1|lia]. }
    assert (fpos s2 = q + n * 4096) as P2' by (destruct (Z.eqb_spec n 0); lia). clear P2.
    assert (f_len (fm_file s2) = f_len f' /\ f_data (fm_file s2) = f_data f') as [L2 D2] by (by destruct s1).
    constructor.
    + unfold s2, s1. by destruct s.
    + split; [lia|]. rewrite P2'. pose proof (reach_step area q (n * 4096) ltac:(lia)). lia.
    + intros x Hx. rewrite D2, <- D1. specialize (Xf x 1 ltac:(lia)). unfold bytes_at in Xf. cbn in Xf. by injection Xf.
    + rewrite L2, <- L1, P2'. lia.
    + intros g Hg Hgl. apply Xp; [|rewrite P2' in Hgl; lia]. intros x Hx.
      assert (n = 1) as -> by lia. rewrite <- D2. apply Hg; [lia|].
      replace (x / 4096) with (q / 4096); [by apply Hfree|]. symmetry. pose proof (block_of x (q / 4096) 1). lia.
Qed.
End Place.

(** ** What a directory's inode leads to *)

(** A file that keeps the blocks of [f] below [hi] that are not static metadata. *)
Definition keeps (area hi : Z) (f g : File) : Prop :=
  hi <= f_len g /\ forall x, 0 <= x < hi -> reserved_block area (x / 4096) = false -> f_data g x = f_data f x.

Definition block_entries (g : File) (b : Z) : list (list Z * Z) := parse_dir_entries (bytes_at g (b * 4096) 4096).

(** The inode's extents lead to blocks below [hi] that parse to the entries, in
    every file that keeps them. *)
Definition holds_dir (area hi : Z) (f : File) (inode : Inode) (es : list dirent) : Prop :=
  forall g, keeps area hi f g ->
    exists leaves, parse_extents inode BLOCK_SIZE g = Ok (map leaf_range leaves) /\ Forall leaf_ok leaves /\
      Forall (fun b => 0 <= b /\ (b + 1) * 4096 <= hi) (pair_blocks (map leaf_range leaves)) /\
      concat (map (block_entries g) (pair_blocks (map leaf_range leaves))) = map dirent_view es.

Lemma holds_dir_later area hi hi' f f' inode es :
  holds_dir area hi f inode es -> hi <= hi' -> (forall x, x < hi -> f_data f' x = f_data f x) ->
  holds_dir area hi' f' inode es.
Proof.
  intros H Hle Hf g [Hl Hg]. destruct (H g) as (ls & Hp & Hok & Hb & He).
  { split; [lia|]. intros x Hx Hr. rewrite Hg by (lia || done). apply Hf. lia. }
  exists ls. split; [done|]. split; [done|]. split; [|done]. eapply list.Forall_impl; [exact Hb|]. cbv beta. intros b Hb'. lia.
Qed.

(** The same for a file and its bytes. *)
Definition holds_file (area hi : Z) (f : File) (inode : Inode) (bytes : list Z) : Prop :=
  (file_size inode = zlen bytes /\ zlen bytes <= MAX_FILE_SIZE) /\
  forall g, keeps area hi f g ->
    exists leaves, parse_extents inode BLOCK_SIZE g = Ok (map leaf_range leaves) /\ Forall leaf_ok leaves /\
      Forall (fun b => 0 <= b /\ (b + 1) * 4096 <= hi) (pair_blocks (map leaf_range leaves)) /\
      zlen bytes <= 4096 * zlen (pair_blocks (map leaf_range leaves)) < zlen bytes + 4096 /\
      forall i, 0 <= i < zlen bytes ->
        f_data g (nth (Z.to_nat (i / 4096)) (pair_blocks (map leaf_range leaves)) 0 * 4096 + i mod 4096) = nth (Z.to_nat i) bytes 0.

Lemma holds_file_later area hi hi' f f' inode bytes :
  holds_file area hi f inode bytes -> hi <= hi' -> (forall x, x < hi -> f_data f' x = f_data f x) ->
  holds_file area hi' f' inode bytes.
Proof.
  intros [Hs H] Hle Hf. split; [done|]. intros g [Hl Hg]. destruct (H g) as (ls & Hp & Hok & Hb & He).
  { split; [lia|]. intros x Hx Hr. rewrite Hg by (lia || done). apply Hf. lia. }
  exists ls. split; [done|]. split; [done|]. split; [|done]. eapply list.Forall_impl; [exact Hb|]. cbv beta. intros b Hb'. lia.
Qed.

Lemma payload_blocks_aux f : forall ws bs,
  (forall i, 0 <= i < zlen (concat ws) -> f_data f (nth (Z.to_nat (i / 4096)) bs 0 * 4096 + i mod 4096) = nth (Z.to_nat i) (concat ws) 0) ->
  Forall (fun w => zlen w = 4096) ws -> length bs = length ws -> map (fun b => bytes_at f (b * 4096) 4096) bs = ws.
Proof.
  induction ws as [|w ws IH]; intros [|b bs] H Hw Hl; try done. apply Forall_cons_1 in Hw as [Hw0 Hw]. cbn [concat map] in *.
  rewrite zlen_app in H. pose proof (zlen_nonneg (concat ws)) as Hz. f_equal.
  - apply list_eq_same_length with 4096%nat; [unfold zlen in Hw0; lia|pose proof (zlen_bytes_at f (b * 4096) 4096); unfold zlen in *; lia|].
    intros j x y Hj Hx Hy. rewrite lookup_bytes_at in Hx by lia. injection Hx as <-. specialize (H (Z.of_nat j) ltac:(lia)).
    rewrite Z.div_small, Z.mod_small in H by lia. change (Z.to_nat 0) with O in H. cbn [nth] in H. rewrite H, Nat2Z.id, app_nth1 by (unfold zlen in *; lia).
    by apply nth_lookup_Some.
  - apply IH; [|done|by injection Hl]. intros i Hi. specialize (H (i + 1 * 4096) ltac:(lia)).
    rewrite Z.div_add, Z.mod_add in H by lia. assert (0 <= i / 4096) by (apply Z.div_pos; lia).
    replace (Z.to_nat (i / 4096 + 1)) with (S (Z.to_nat (i / 4096))) in H by lia. cbn [nth] in H. rewrite H.
    rewrite app_nth2 by (unfold zlen in *; lia). f_equal. unfold zlen in *. lia.
Qed.

Lemma concat_zlen ws : Forall (fun w : list Z => zlen w = 4096) ws -> zlen (concat ws) = 4096 * zlen ws.
Proof. induction 1 as [|w ws Hw _ IH]; [done|]. cbn [concat]. rewrite zlen_app, zlen_cons, Hw, IH. lia. Qed.

(** The blocks hold the directory and the extents lead to the blocks. *)
Lemma written_holds area s1 s2 s3 s4 ranges blocks es inode :
  payload_written area s1 (concat blocks) ranges s2 -> Forall (fun b => zlen b = 4096) blocks -> zlen blocks <= 4194304 ->
  concat (map parse_dir_entries blocks) = map dirent_view es -> fm_file s3 = fm_file s2 -> 0 <= fpos s1 ->
  extents_kept area s3 ranges inode s4 -> holds_dir area (fpos s4) (fm_file s4) inode es.
Proof.
  intros [_ _ [Hp _] _ _ [Hok _] Hbl Hcount Hdata _] Hblocks Hfew Hparse E3 Hp1 [_ [Hp4 _] Hbefore _ Hkeep] g [Hgl Hg].
  assert (fpos s3 = fpos s2) as P3 by (unfold fpos; by rewrite E3). rewrite (concat_zlen blocks Hblocks) in Hcount.
  pose proof (length_file_blocks ranges (ranges_ok_range _ Hok)) as Htot.
  assert (total_blocks ranges <= u32_max) as Ht by (unfold u32_max, zlen in *; lia).
  exists (fill_extent_leaves_from_ranges ranges). split; [|split; [|split]].
  - apply Hkeep; [|lia]. intros x Hx Hr. apply Hg; [lia|done].
  - apply (fill_leaves_spec ranges 0 (ranges_ok_range _ Hok)); lia.
  - rewrite fill_leaves_blocks by (done || by apply ranges_ok_range).
    eapply list.Forall_impl; [exact Hbl|]. cbv beta. intros b Hb. lia.
  - rewrite fill_leaves_blocks by (done || by apply ranges_ok_range). rewrite <- Hparse. f_equal.
    rewrite <- (payload_blocks_aux (fm_file s2) blocks (file_blocks ranges)), map_map; [|exact Hdata|done|unfold zlen in *; lia].
    apply map_ext_in. intros b Hb%list_elem_of_In. rewrite list.Forall_forall in Hbl. destruct (Hbl b Hb) as (B1 & B2 & B3).
    unfold block_entries. f_equal. apply bytes_at_ext. intros x Hx.
    assert (x / 4096 = b) as Ex by (pose proof (block_of x b 1); lia).
    rewrite Hg by (lia || by rewrite Ex). rewrite Hbefore by lia. by rewrite E3.
Qed.

(** ** One directory *)

Lemma same_view_update s s' i n r k x y :
  fm_block_size s' = fm_block_size s -> nodes (fm_tree s) !! i = Some n -> fm_inodes s !! k = Some x ->
  fm_tree s' = {| nodes := <[i := assign_node_ranges n r]> (nodes (fm_tree s)); root := root (fm_tree s) |} ->
  fm_inodes s' = <[k := y]> (fm_inodes s) -> i_mode y = i_mode x -> i_links_count y = i_links_count x ->
  same_view s s'.
Proof.
  intros Hbs Hn Hx Ht Hi Em El. apply lookup_lt_Some in Hn as Hin. apply lookup_lt_Some in Hx as Hkn.
  constructor; unfold shape_at, meta_at; rewrite ?Ht, ?Hi; cbn [nodes root]; rewrite ?length_insert; try done.
  - intros j. destruct (decide (j = i)) as [->|Hne]; [by rewrite list_lookup_insert_eq, Hn|by rewrite list_lookup_insert_ne].
  - intros j. destruct (decide (inode_index j = k)) as [->|Hne]; [|by rewrite list_lookup_insert_ne].
    rewrite list_lookup_insert_eq, Hx by done. cbn [fmap option_fmap option_map]. by rewrite Em, El.
Qed.

(** What the loop changes: blocks behind the position, extents and sizes. *)
Record moved (area cost : Z) (s s' : Formatter) : Prop := {
  mv_state : s' = set_fm_tree (fm_tree s') (set_fm_inodes (fm_inodes s') (set_fm_size (fm_size s') (set_fm_file (fm_file s') s)));
  mv_view : same_view s s';
  mv_pos : fpos s <= fpos s';
  mv_reach : reach area (fpos s') <= reach area (fpos s) + cost;
  mv_before : forall x, x < fpos s -> f_data (fm_file s') x = f_data (fm_file s) x;
  mv_size : fm_size s <= fm_size s' <= Z.max (fm_size s) (fpos s');
  mv_len : f_len (fm_file s') <= Z.max (f_len (fm_file s)) (fpos s');
  mv_wf : Forall Inode_wf (fm_inodes s) -> Forall Inode_wf (fm_inodes s')
}.

Lemma moved_refl area cost s : 0 <= cost -> moved area cost s s.
Proof. intros Hc. constructor; try done; try lia. by destruct s. Qed.

Lemma moved_trans area c1 c2 s1 s2 s3 : moved area c1 s1 s2 -> moved area c2 s2 s3 -> moved area (c1 + c2) s1 s3.
Proof.
  intros [E V P R B S L W] [E' V' P' R' B' S' L' W']. constructor; try lia; [|by eapply same_view_trans| |by auto].
  - rewrite E' at 1. rewrite E. by destruct s1.
  - intros x Hx. rewrite B' by lia. by apply B.
Qed.

(** A directory the loop writes. *)
Definition live_dir (s : Formatter) (i : nat) : Prop :=
  exists sh m, shape_at s i = Some sh /\ sh_link sh = None /\ meta_at s (sh_inode sh) = Some m /\ m.2 <> 0 /\ is_dir m.1 = true.

(** What it has written, in the terms of the state it started from. *)
Definition dir_committed (area : Z) (s s' : Formatter) (e : option nat * nat) : Prop :=
  live_dir s e.2 -> exists sh es inode, shape_at s e.2 = Some sh /\ dirents s e.1 e.2 = Some es /\
    fm_inodes s' !! inode_index (sh_inode sh) = Some inode /\ holds_dir area (fpos s') (fm_file s') inode es.

(** What the loop needs of the state. *)
Record walking (area limit : Z) (s : Formatter) : Prop := {
  wg_inv : fmt_inv s;
  wg_fit : names_fit (fm_tree s);
  wg_few : zlen (nodes (fm_tree s)) <= 4000000;
  wg_bs : fm_block_size s = BLOCK_SIZE;
  wg_wf : Forall Inode_wf (fm_inodes s);
  wg_pos : 0 <= fpos s;
  wg_size : 1 <= fm_size s <= LIMIT;
  wg_area : area_until area (fm_size s) limit
}.

Lemma walking_moved area limit cost s s' :
  limit <= LIMIT -> walking area limit s -> moved area cost s s' -> fpos s' <= limit -> walking area limit s'.
Proof.
  intros Hl [I F N B W P S A] [E V P' _ _ S' _ W'] Hp. constructor.
  - by apply (view_inv s).
  - by apply (view_fit s).
  - unfold zlen in *. by rewrite (sv_nodes _ _ V).
  - by rewrite (sv_size _ _ V).
  - by apply W'.
  - lia.
  - lia.
  - apply (area_until_grow area (fm_size s)); [done|]. lia.
Qed.

Definition dir_cost (t : FileTree) (i : nat) : Z := 4096 * (5 + Z.of_nat (length (kids t i))).

Section Step.
Context (area limit : Z).
Hypothesis (Harea : 0 <= area <= 1024).
Hypothesis (Hlimit : limit + 16384 <= LIMIT).

Lemma kids_few t i : tree_wf t -> (length (kids t i) <= length (nodes t))%nat.
Proof.
  intros Hwf. unfold kids. destruct (nodes t !! i) as [n|] eqn:Hn; [|cbn; lia]. case_bool_decide; [cbn; lia|].
  rewrite <- (length_seq (length (nodes t)) 0). pose proof (wf_nodup t Hwf i n Hn) as Hnd. apply NoDup_ListNoDup in Hnd.
  apply (List.NoDup_incl_length Hnd). intros c Hc%list_elem_of_In. apply list_elem_of_In, elem_of_seq.
  destruct (wf_child t Hwf i c ltac:(by exists n)) as (m & Hm & _). apply lookup_lt_Some in Hm. lia.
Qed.

(** The state between the payload and the extents, and the one after. *)
Definition sized (i : nat) (n : FileTreeNode) (ranges : list BlockRange) (inode1 : Inode) (s s1 : Formatter) : Formatter :=
  set_fm_tree {| nodes := <[i := assign_node_ranges n ranges]> (nodes (fm_tree s)); root := root (fm_tree s) |}
    (set_fm_inodes (<[inode_index (n_inode n) := inode1]> (fm_inodes s)) s1).

Definition placed (n : FileTreeNode) (inode2 : Inode) (s3 : Formatter) : Formatter :=
  set_fm_inodes (<[inode_index (n_inode n) := inode2]> (fm_inodes s3)) s3.

Section Commit.
Context (s s1 s3 : Formatter) (parent : option nat) (i : nat) (n : FileTreeNode) (inode inode2 : Inode) (bytes : list Z) (ranges : list BlockRange).
Hypothesis (Hn : nodes (fm_tree s) !! i = Some n).
Hypothesis (Hi : fm_inodes s !! inode_index (n_inode n) = Some inode).
Let inode1 := set_file_size (zlen bytes) inode.
Let s2 := sized i n ranges inode1 s s1.
Hypothesis (Hpw : payload_written area s bytes ranges s1).
Hypothesis (Hxk : extents_kept area s2 ranges inode2 s3).

Lemma commit_fields :
  fm_tree s1 = fm_tree s /\ fm_inodes s1 = fm_inodes s /\ fm_block_size s1 = fm_block_size s /\
  fm_file s2 = fm_file s1 /\ fm_size s2 = fm_size s1 /\ fm_block_size s2 = fm_block_size s /\ fpos s2 = fpos s1 /\
  fm_inodes (placed n inode2 s3) = <[inode_index (n_inode n) := inode2]> (fm_inodes s) /\
  fm_file (placed n inode2 s3) = fm_file s3 /\ fm_size (placed n inode2 s3) = fm_size s1 /\ fpos (placed n inode2 s3) = fpos s3.
Proof.
  pose proof (xk_state _ _ _ _ _ Hxk) as E3. pose proof (pw_state _ _ _ _ _ Hpw) as E1. clear Hxk Hpw.
  revert E1 E3. unfold s2, sized, placed, fpos. generalize (fm_file s1), (fm_size s1), (fm_file s3). intros f z g -> ->.
  destruct s; cbn -[insert]. rewrite list_insert_insert_eq. done.
Qed.

Lemma commit_run :
  n_link n = None -> i_links_count inode <> 0 -> is_dir (i_mode inode) = true -> directory_bytes s parent i = Ok bytes ->
  write_aligned_payload_bytes bytes s = (Ok ranges, s1) -> place_extents inode1 ranges s2 = (Ok inode2, s3) ->
  commit_directory (parent, i) s = (Ok tt, placed n inode2 s3).
Proof.
  intros Hlink Hl Hd Hrun Hw Hpl. destruct commit_fields as (T1 & I1 & _ & F2 & _). apply lookup_lt_Some in Hi as Hki.
  unfold commit_directory. rewrite (run_bind _ _ s n s) by (by apply tree_node_run).
  rewrite (run_bind _ _ s inode s) by (unfold get_inode; by rewrite Hi).
  replace (i_links_count inode =? 0) with false by lia. rewrite Hlink, Hd. cbn [negb]. rewrite bool_decide_eq_false_2 by (by intros []).
  rewrite (run_bind _ _ s bytes s) by (by rewrite Hrun). rewrite (run_bind _ _ _ _ _ Hw).
  rewrite (run_bind _ _ s1 tt (set_fm_inodes (<[inode_index (n_inode n) := inode1]> (fm_inodes s)) s1))
    by (unfold update_inode; by rewrite I1, Hi).
  rewrite (run_bind _ _ _ tt s2).
  2:{ unfold set_node, s2, sized. assert (fm_tree (set_fm_inodes (<[inode_index (n_inode n) := inode1]> (fm_inodes s)) s1) = fm_tree s) as ->
        by (rewrite <- T1; by destruct s1). by rewrite Hn. }
  assert (fm_inodes s2 !! inode_index (n_inode n) = Some inode1) as I2.
  { assert (fm_inodes s2 = <[inode_index (n_inode n) := inode1]> (fm_inodes s)) as -> by (unfold s2, sized; by destruct s1).
    by apply list_lookup_insert_eq. }
  rewrite (run_bind _ _ s2 inode1 s2) by (unfold get_inode; by rewrite I2). rewrite (run_bind _ _ _ _ _ Hpl).
  unfold update_inode. assert (fm_inodes s3 = fm_inodes s2) as E3 by (rewrite (xk_state _ _ _ _ _ Hxk); by destruct s2).
  unfold placed. by rewrite E3, I2.
Qed.

Lemma commit_moved buf blk cost :
  inode2 = with_extents inode1 buf blk -> is_bytes 60 buf -> zlen bytes + 8192 <= cost -> moved area cost s (placed n inode2 s3).
Proof.
  intros Ei Hbuf Hc. destruct commit_fields as (T1 & I1 & Bs1 & F2 & Z2 & B2 & P2 & I4 & F4 & Z4 & P4).
  pose proof Hpw as [E1 S1 [P1 A1] R1 B1 _ _ _ _ L1]. pose proof Hxk as [E3 [P3 R3] B3 L3 _].
  assert (fm_tree (placed n inode2 s3) = {| nodes := <[i := assign_node_ranges n ranges]> (nodes (fm_tree s)); root := root (fm_tree s) |} /\
    fm_block_size (placed n inode2 s3) = fm_block_size s) as [T4 B4].
  { unfold placed. rewrite E3. split; [unfold s2, sized; by destruct s1|rewrite <- B2; by destruct s2]. }
  assert (i_mode inode2 = i_mode inode /\ i_links_count inode2 = i_links_count inode) as [Em El].
  { subst inode2. destruct (with_extents_fields inode1 buf blk) as [-> ->]. unfold inode1. by destruct inode. }
  rewrite F2 in L3. rewrite P2 in P3, R3, B3. constructor; rewrite ?F4, ?Z4, ?P4, ?I4; try lia.
  - rewrite T4. unfold placed. rewrite E3. unfold s2, sized. rewrite E1. destruct s; cbn -[insert]. by rewrite list_insert_insert_eq.
  - by apply (same_view_update s _ i n ranges (inode_index (n_inode n)) inode inode2).
  - intros x Hx. rewrite B3 by lia. rewrite F2. by apply B1.
  - intros Hwf. apply Forall_insert; [done|]. subst inode2. apply with_extents_wf; [|done]. apply set_file_size_wf.
    by eapply Forall_lookup_1.
Qed.
End Commit.

Lemma commit_live s parent i n inode :
  walking area limit s -> nodes (fm_tree s) !! i = Some n -> n_link n = None ->
  (forall p, parent = Some p -> (p < length (nodes (fm_tree s)))%nat) ->
  reach area (fpos s) + dir_cost (fm_tree s) i <= limit ->
  fm_inodes s !! inode_index (n_inode n) = Some inode -> i_links_count inode <> 0 -> is_dir (i_mode inode) = true ->
  exists s' es inode', commit_directory (parent, i) s = (Ok tt, s') /\ moved area (dir_cost (fm_tree s) i) s s' /\
    fm_inodes s' = <[inode_index (n_inode n) := inode']> (fm_inodes s) /\ dirents s parent i = Some es /\
    holds_dir area (fpos s') (fm_file s') inode' es.
Proof.
  intros [Hinv Hfit Hfew Hbs Hwf Hpos Hsize Har] Hn Hlink Hpar Hroom Hi Hl Hd.
  destruct (directory_bytes_spec s Hinv Hfit Hbs parent i n Hn Hpar) as (es & blocks & Hes & [Hrun Hbl Hparse Hsome] & Hlen).
  assert (length (kids (fm_tree s) i) = length (n_children n)) as Ek by (unfold kids; by rewrite Hn, Hlink).
  pose proof (kids_few (fm_tree s) i (ti_wf _ _ (proj1 Hinv))) as Hk. unfold dir_cost in *. rewrite Ek in *.
  pose proof (concat_zlen blocks Hbl) as Hz. set (c := Z.of_nat (length (n_children n))) in *.
  assert (1 <= zlen blocks <= 3 + c) as Hnb by (unfold zlen; lia). unfold LIMIT, u32_max in Hlimit.
  destruct (write_aligned_spec area Harea limit (concat blocks) s) as (ranges & s1 & Hw & Hpw);
    [done|lia|lia|lia|unfold LIMIT, u32_max; lia|done|lia|lia|rewrite Hz, Z.mul_comm; apply Z.mod_mul; lia|].
  pose proof Hpw as [E1 S1 [P1 A1] R1 B1 [Hok Hrf] _ Hcount _ L1].
  assert (c <= 4000000) as Hc by (unfold c, zlen in *; lia). pose proof (reach_pos area (fpos s1)) as Hr1.
  set (inode1 := set_file_size (zlen (concat blocks)) inode).
  assert (forall s2, fm_file s2 = fm_file s1 -> fm_size s2 = fm_size s1 -> fm_block_size s2 = BLOCK_SIZE ->
    exists buf blk s3, place_extents inode1 ranges s2 = (Ok (with_extents inode1 buf blk), s3) /\ is_bytes 60 buf /\
      extents_kept area s2 ranges (with_extents inode1 buf blk) s3) as Hpl.
  { intros s2 F2 Z2 B2. assert (fpos s2 = fpos s1) as P2 by (unfold fpos; by rewrite F2).
    apply (place_extents_spec area limit); rewrite ?P2; try done; try lia.
    rewrite Z2. apply (area_until_grow area (fm_size s)); [done|]. lia. }
  destruct (Hpl (sized i n ranges inode1 s s1)) as (buf & blk & s3 & Hrun3 & Hbuf & Hxk); [by destruct s1|by destruct s1| |].
  { rewrite <- Hbs. unfold sized. rewrite E1. by destruct s. }
  set (inode2 := with_extents inode1 buf blk) in *.
  destruct (commit_fields s s1 s3 i n inode inode2 (concat blocks) ranges Hn Hi Hpw Hxk) as (_ & _ & _ & F2 & _ & _ & _ & I4 & F4 & _ & P4).
  exists (placed n inode2 s3), es, inode2. split; [|split; [|split; [exact I4|split; [exact Hes|]]]].
  - by apply (commit_run s s1 s3 parent i n inode inode2 (concat blocks) ranges).
  - apply (commit_moved s s1 s3 i n inode inode2 (concat blocks) ranges Hn Hi Hpw Hxk buf blk); [done|done|lia].
  - rewrite F4. apply (written_holds area s s1 (sized i n ranges inode1 s s1) s3 ranges blocks es inode2 Hpw Hbl); [lia|done|exact F2|done|exact Hxk].
Qed.

Lemma commit_directory_spec s parent i n :
  walking area limit s -> nodes (fm_tree s) !! i = Some n ->
  (forall p, parent = Some p -> (p < length (nodes (fm_tree s)))%nat) ->
  reach area (fpos s) + dir_cost (fm_tree s) i <= limit ->
  exists s', commit_directory (parent, i) s = (Ok tt, s') /\ moved area (dir_cost (fm_tree s) i) s s' /\
    (forall k, (live_dir s i -> inode_index (n_inode n) <> k) -> fm_inodes s' !! k = fm_inodes s !! k) /\
    dir_committed area s s' (parent, i).
Proof.
  intros Hwk Hn Hpar Hroom. pose proof Hwk as [Hinv _ _ _ _ _ _ _].
  destruct (ti_inode _ _ (proj1 Hinv) i n Hn) as [Hv _]. destruct (valid_index s Hinv _ Hv) as [inode Hi].
  assert (shape_at s i = Some (shape_of n)) as Hsh by (unfold shape_at; by rewrite Hn).
  assert (meta_at s (n_inode n) = Some (i_mode inode, i_links_count inode)) as Hm by (unfold meta_at; by rewrite Hi).
  destruct (decide (n_link n = None /\ i_links_count inode <> 0 /\ is_dir (i_mode inode) = true)) as [(Hlink & Hl & Hd)|Hskip].
  - destruct (commit_live s parent i n inode Hwk Hn Hlink Hpar Hroom Hi Hl Hd) as (s' & es & inode' & Hrun & Hmv & Hin & Hes & Hh).
    exists s'. split; [done|]. split; [done|]. split.
    + intros k Hk. rewrite Hin. apply list_lookup_insert_ne, Hk. by exists (shape_of n), (i_mode inode, i_links_count inode).
    + intros _. exists (shape_of n), es, inode'. split; [done|]. split; [done|]. split; [|done]. cbn [sh_inode shape_of].
      rewrite Hin. apply list_lookup_insert_eq. by eapply lookup_lt_Some.
  - exists s. split; [|split; [apply moved_refl; unfold dir_cost; lia|split; [done|]]].
    + unfold commit_directory. rewrite (run_bind _ _ s n s) by (by apply tree_node_run).
      rewrite (run_bind _ _ s inode s) by (unfold get_inode; by rewrite Hi).
      destruct (Z.eqb_spec (i_links_count inode) 0) as [|Hl]; [done|]. case_bool_decide as Hlink; [done|].
      destruct (is_dir (i_mode inode)) eqn:Hd; [|done]. exfalso. apply Hskip. destruct (n_link n) eqn:E; [|done]. exfalso. apply Hlink. by eexists.
    + intros (sh & m & Hsh' & Hlink & Hm' & Hl & Hd). exfalso. cbn [snd] in Hsh'. rewrite Hsh in Hsh'. injection Hsh' as <-.
      cbn [sh_link sh_inode shape_of] in *. rewrite Hm in Hm'. injection Hm' as <-. by apply Hskip.
Qed.

(** ** The loop *)

Definition walk_cost (t : FileTree) (order : list (option nat * nat)) : Z :=
  fold_right (fun e acc => dir_cost t e.2 + acc) 0 order.

(** The entries of the order: their nodes exist, and no two directories share
    an inode. *)
Record walkable (s : Formatter) (l : list (option nat * nat)) : Prop := {
  wa_node : forall p i, (p, i) ∈ l -> exists sh, shape_at s i = Some sh /\
    forall q, p = Some q -> (q < length (nodes (fm_tree s)))%nat;
  wa_nodup : NoDup (map snd l);
  wa_own : forall p i q j a b, (p, i) ∈ l -> (q, j) ∈ l -> shape_at s i = Some a -> shape_at s j = Some b ->
    sh_link a = None -> sh_link b = None -> inode_index (sh_inode a) = inode_index (sh_inode b) -> i = j
}.

Lemma view_cost s s' i : same_view s s' -> dir_cost (fm_tree s') i = dir_cost (fm_tree s) i.
Proof.
  intros V. unfold dir_cost, kids. pose proof (sv_shape _ _ V i) as E. unfold shape_at in E.
  destruct (nodes (fm_tree s') !! i) as [a|], (nodes (fm_tree s) !! i) as [b|]; try discriminate E; [|done].
  injection E as _ _ -> _ ->. done.
Qed.

Lemma view_live s s' i : same_view s s' -> live_dir s i -> live_dir s' i.
Proof.
  intros V (sh & m & Hs & Hl & Hm & H). exists sh, m. rewrite (sv_shape _ _ V), (sv_meta _ _ V). done.
Qed.

Lemma dir_committed_view s0 s s' e : same_view s0 s -> dir_committed area s s' e -> dir_committed area s0 s' e.
Proof.
  intros V H Hlive. destruct (H (view_live s0 s e.2 V Hlive)) as (sh & es & inode & Hsh & Hes & Hrest).
  exists sh, es, inode. rewrite <- (sv_shape _ _ V), <- (dirents_same s0 s V). done.
Qed.

Lemma walkable_tail s s' e l : same_view s s' -> walkable s (e :: l) -> walkable s' l.
Proof.
  intros V [N D O]. constructor.
  - intros p i Hin. rewrite (sv_shape _ _ V), (sv_nodes _ _ V). apply N. by right.
  - cbn [map] in D. by apply list.NoDup_cons in D as [_ D].
  - intros p i q j a b. rewrite !(sv_shape _ _ V). intros Hi Hj. apply (O p i q j); by right.
Qed.

Lemma view_walk_cost s s' l : same_view s s' -> walk_cost (fm_tree s') l = walk_cost (fm_tree s) l.
Proof. intros V. unfold walk_cost. induction l as [|e l IH]; [done|]. cbn [fold_right]. by rewrite IH, (view_cost s s'). Qed.

Lemma walk_cost_nonneg t l : 0 <= walk_cost t l.
Proof. unfold walk_cost. induction l as [|e l IH]; [done|]. cbn [fold_right]. unfold dir_cost at 1. lia. Qed.

Lemma dir_committed_later s s1 s' e cost :
  dir_committed area s s1 e -> moved area cost s1 s' ->
  (forall sh, shape_at s e.2 = Some sh -> sh_link sh = None ->
    fm_inodes s' !! inode_index (sh_inode sh) = fm_inodes s1 !! inode_index (sh_inode sh)) ->
  dir_committed area s s' e.
Proof.
  intros H Hm Hsame Hlive. destruct (H Hlive) as (sh & es & inode & Hsh & Hes & Hi & Hh). exists sh, es, inode.
  split; [done|]. split; [done|]. destruct Hlive as (sh' & m & Hsh' & Hl & _). rewrite Hsh in Hsh'. injection Hsh' as <-.
  split; [by rewrite Hsame|]. eapply holds_dir_later; [exact Hh|apply Hm|apply Hm].
Qed.

Lemma commit_loop l : forall s,
  walking area limit s -> walkable s l -> reach area (fpos s) + walk_cost (fm_tree s) l <= limit ->
  exists s', forM_ l commit_directory s = (Ok tt, s') /\ moved area (walk_cost (fm_tree s) l) s s' /\
    (forall k, (forall p i sh, (p, i) ∈ l -> live_dir s i -> shape_at s i = Some sh -> inode_index (sh_inode sh) <> k) ->
      fm_inodes s' !! k = fm_inodes s !! k) /\
    forall e, e ∈ l -> dir_committed area s s' e.
Proof.
  induction l as [|[p i] l IH]; intros s Hwk Hwa Hroom.
  { exists s. split; [done|]. split; [by apply moved_refl|]. split; [done|]. by intros e ?%not_elem_of_nil. }
  change (walk_cost (fm_tree s) ((p, i) :: l)) with (dir_cost (fm_tree s) i + walk_cost (fm_tree s) l) in *.
  pose proof (walk_cost_nonneg (fm_tree s) l) as Hc0.
  destruct (wa_node _ _ Hwa p i ltac:(by left)) as (sh & Hsh & Hpar). pose proof Hsh as Hn. unfold shape_at in Hn.
  destruct (nodes (fm_tree s) !! i) as [n|] eqn:En; [|done]. injection Hn as Hn.
  destruct (commit_directory_spec s p i n Hwk En Hpar ltac:(lia)) as (s1 & Hrun & Hm1 & Hkeep & Hhere).
  pose proof Hm1 as [_ V1 P1 R1 _ _ _ _]. pose proof (reach_pos area (fpos s1)) as Hr1.
  assert (walking area limit s1) as Hwk1 by (apply (walking_moved area limit (dir_cost (fm_tree s) i) s s1); [lia|done|exact Hm1|lia]).
  pose proof (view_walk_cost s s1 l V1) as Ecost.
  destruct (IH s1 Hwk1 (walkable_tail s s1 _ l V1 Hwa) ltac:(rewrite Ecost; lia)) as (s' & Hrest & Hm2 & Hkeep2 & Hthere).
  rewrite Ecost in Hm2. exists s'. split; [cbn [forM_]; by rewrite (run_bind _ _ _ _ _ Hrun)|].
  split; [by eapply moved_trans|]. split.
  - intros k Hk. rewrite Hkeep2, Hkeep; [done| |].
    + intros Hl. subst sh. apply (Hk p i (shape_of n)); [by left|done|done].
    + intros q j b Hj Hl Hb. rewrite (sv_shape _ _ V1) in Hb. apply (Hk q j b); [by right|apply (view_live s1 s); [by apply same_view_sym|done]|done].
  - intros e [->|He]%elem_of_cons; [|by apply (dir_committed_view s s1), Hthere].
    apply (dir_committed_later s s1 s' (p, i) _ Hhere Hm2). cbn [snd]. intros a Ha Hal. apply Hkeep2.
    intros q j b Hj (b' & m & Hb' & Hl & _) Hb Heq. rewrite (sv_shape _ _ V1) in Hb, Hb'. assert (b' = b) as -> by congruence.
    assert (j = i) as -> by (apply (wa_own _ _ Hwa q j p i b a); try done; [by right|by left]).
    pose proof (wa_nodup _ _ Hwa) as Hnd. cbn [map] in Hnd. apply list.NoDup_cons in Hnd as [Hnd _]. apply Hnd.
    by apply (list_elem_of_fmap_2 snd) in Hj.
Qed.
End Step.

(** ** The whole walk *)

(** Where the directories end at the latest: a skip before each superblock copy,
    and six blocks for each node. *)
Definition dirs_end (s : Formatter) : Z := fpos s + SKIP * 61 + 24576 * zlen (nodes (fm_tree s)).

(** The directories and files of the tree own their inodes. *)
Definition own_inodes (t : FileTree) : Prop :=
  forall i j x y, visited t i -> visited t j -> nodes t !! i = Some x -> nodes t !! j = Some y ->
    n_link x = None -> n_link y = None -> n_inode x = n_inode y -> i = j.

(** A builder [close] can finish: the tree is sound, the directories end below
    two TiB, and the descriptor area does not grow on the way. *)
Record closable (s : Formatter) : Prop := {
  cl_ready : ready s;
  cl_inv : fmt_inv s;
  cl_fit : names_fit (fm_tree s);
  cl_few : zlen (nodes (fm_tree s)) <= 4000000;
  cl_room : dirs_end s <= DATA_MAX;
  cl_area : group_descriptor_blocks BLOCK_SIZE (Z.max (fm_size s) (dirs_end s)) = group_descriptor_blocks BLOCK_SIZE (fm_size s);
  cl_own : own_inodes (fm_tree s);
  cl_root : exists n, nodes (fm_tree s) !! root (fm_tree s) = Some n /\ n_inode n = ROOT_INODE /\ n_link n = None;
  cl_resize : forall i x, visited (fm_tree s) i -> nodes (fm_tree s) !! i = Some x ->
    default (n_inode x) (n_link x) <> RESIZE_INODE_NUMBER
}.

(** The descriptor area does not grow up to a size that needs the same. *)
Lemma area_until_intro size limit :
  1 <= size <= MAX_IMAGE -> limit <= MAX_IMAGE ->
  group_descriptor_blocks BLOCK_SIZE (Z.max size limit) = group_descriptor_blocks BLOCK_SIZE size ->
  area_until (group_descriptor_blocks BLOCK_SIZE size) size limit.
Proof.
  intros Hs Hl Heq z Hz. pose proof (area_mono size z ltac:(lia) ltac:(lia)).
  pose proof (area_mono z (Z.max size limit) ltac:(lia) ltac:(lia)). lia.
Qed.

Lemma walk_cost_eq t l : walk_cost t l = 4096 * (5 * zlen l + Z.of_nat (kid_count t l)).
Proof.
  unfold walk_cost, kid_count. induction l as [|e l IH]; [done|]. cbn [fold_right sum_list_with]. rewrite IH, zlen_cons.
  unfold dir_cost. lia.
Qed.

Lemma inode_index_inj n a b : valid_inode n a -> valid_inode n b -> Z.of_nat n <= u32_max -> inode_index a = inode_index b -> a = b.
Proof.
  unfold valid_inode, inode_index. intros Ha Hb Hn. rewrite !u32_small by (unfold_ranges; unfold u32_max in *; lia). lia.
Qed.

(** What [commit_directories] leaves. *)
Record dirs_done (s s' : Formatter) : Prop := {
  dd_moved : exists cost, moved (group_descriptor_blocks BLOCK_SIZE (fm_size s)) cost s s';
  dd_ready : ready s';
  dd_area : group_descriptor_blocks BLOCK_SIZE (fm_size s') = group_descriptor_blocks BLOCK_SIZE (fm_size s);
  dd_keep : forall k inode, fm_inodes s !! k = Some inode -> is_dir (i_mode inode) = false -> fm_inodes s' !! k = Some inode;
  dd_dirs : forall i, visited (fm_tree s) i -> exists p,
    ((p = None /\ i = root (fm_tree s)) \/ exists q, p = Some q /\ i ∈ kids (fm_tree s) q) /\
    dir_committed (group_descriptor_blocks BLOCK_SIZE (fm_size s)) s s' (p, i)
}.

Lemma order_walkable s order :
  closable s -> NoDup (map snd order) ->
  (forall p c, (p, c) ∈ order -> (p = None /\ c = root (fm_tree s)) \/ exists q, p = Some q /\ c ∈ kids (fm_tree s) q) ->
  (forall p c, (p, c) ∈ order -> visited (fm_tree s) c) -> walkable s order.
Proof.
  intros [_ [Hti Hn] _ _ _ _ Hown _ _] Hnd Hfrom Hvis. pose proof Hti as [Hwf _ _ _ Hino]. constructor; [|done|].
  - intros p c Hc. destruct (Hfrom p c Hc) as [[-> ->]|(q & -> & Hk)].
    + destruct (wf_root _ Hwf) as [-> (n & Hr & _)]. exists (shape_of n). split; [unfold shape_at; by rewrite Hr|done].
    + destruct (wf_child _ Hwf q c (kids_child _ _ _ Hk)) as (n & Hc' & _ & Hlt). exists (shape_of n).
      split; [unfold shape_at; by rewrite Hc'|]. intros q' [= <-]. apply lookup_lt_Some in Hc'. lia.
  - intros p i q j a b Hi Hj Ha Hb La Lb Heq. unfold shape_at in *. destruct (nodes (fm_tree s) !! i) as [x|] eqn:Ex; [|done].
    destruct (nodes (fm_tree s) !! j) as [y|] eqn:Ey; [|done]. injection Ha as <-. injection Hb as <-. cbn [sh_link sh_inode shape_of] in *.
    apply (Hown i j x y); try done; [by apply (Hvis p)|by apply (Hvis q)|]. unfold zlen in Hn.
    apply (inode_index_inj (length (fm_inodes s))); [apply (proj1 (Hino i x Ex))|apply (proj1 (Hino j y Ey))|done|done].
Qed.

Lemma ready_moved area cost s s' : moved area cost s s' -> ready s -> fpos s' <= DATA_MAX -> ready s'.
Proof.
  intros [E V P R B S L W] [Rb Rp Rs Rl Ri Rw Ru Rlab] Hp.
  assert (fm_uuid s' = fm_uuid s /\ fm_label s' = fm_label s) as [Eu El] by (rewrite E; by destruct s).
  assert (DATA_MAX <= MAX_IMAGE) by (by vm_compute).
  constructor; rewrite ?Eu, ?El, ?(sv_size _ _ V); auto; try lia. unfold zlen in *. by rewrite (sv_inodes _ _ V).
Qed.

Lemma commit_directories_spec s : closable s -> exists s', commit_directories s = (Ok tt, s') /\ dirs_done s s'.
Proof.
  intros Hcl. pose proof Hcl as [Hready Hinv Hfit Hfew Hroom Harea Hown _ _]. pose proof Hready as [Rb Rp Rs Rl Ri Rw _ _].
  set (area := group_descriptor_blocks BLOCK_SIZE (fm_size s)) in *.
  assert (0 <= area <= 1024) as Ha by (pose proof (group_descriptor_blocks_bounds (fm_size s)); lia).
  destruct (bfs_order_spec (fm_tree s) (ti_wf _ _ (proj1 Hinv))) as (order & Horder & Hnd & Hlen & Hkids & Hfrom & Hall & Hvis).
  unfold dirs_end in *. pose proof (reach_pos area (fpos s)) as Hr0. pose proof (walk_cost_eq (fm_tree s) order) as Hcost.
  set (limit := fpos s + SKIP * 61 + 24576 * zlen (nodes (fm_tree s))) in *.
  assert (limit + 16384 <= LIMIT) as Hlim by (unfold LIMIT, u32_max, DATA_MAX in *; lia).
  assert (MAX_IMAGE <= LIMIT /\ DATA_MAX <= MAX_IMAGE) as [Hml Hdm] by (split; by vm_compute).
  assert (reach area (fpos s) + walk_cost (fm_tree s) order <= limit) as Hbudget by (unfold limit, zlen in *; lia).
  destruct (commit_loop area limit Ha Hlim order s) as (s' & Hrun & Hmv & Hkeep & Hdone).
  - constructor; try done; try lia. apply area_until_intro; [done|lia|done].
  - by apply order_walkable.
  - done.
  - pose proof (reach_pos area (fpos s')) as Hr1. pose proof Hmv as [_ _ _ R1 _ S1 _ _].
    exists s'. split; [unfold commit_directories; by rewrite (run_bind _ _ s order s) by (by rewrite Horder)|].
    assert (ready s') as Hrd by (apply (ready_moved area _ s s' Hmv Hready); lia).
    constructor; [by eexists|exact Hrd| | |].
    + apply (area_until_intro (fm_size s) limit); [done|lia|done|lia].
    + intros k inode Hi Hd. rewrite Hkeep; [done|]. intros p i sh _ (sh' & m & Hsh' & _ & Hm & _ & Hdir) Hsh Hk.
      assert (sh' = sh) as -> by congruence. unfold meta_at in Hm. rewrite Hk, Hi in Hm. injection Hm as <-. cbn [fst] in Hdir. congruence.
    + intros i Hv. destruct (Hall i Hv) as [p Hp]. exists p. split; [by apply Hfrom|by apply Hdone].
Qed.
