(* ===== verification/FileCreate.v ===== *)
(** Creating a regular file: its bytes and its extents are behind the position,
    clear of static metadata, and the inode leads to them. *)

From stdpp Require Import gmap.
From S2P Require Import Prelude Bytes Types Layout RustStr RustPath Errors Disk Tables Dir FileTree Extent.
From S2P Require Import Geometry Formatter Payload FormatterTree BuilderInv Close CloseBitmaps CloseWrites CloseSkips ClosePlan CloseImage CloseOrder CloseDirs.

Section Create.
Context (area limit : Z).
Hypothesis (Harea : 0 <= area <= 1024).
Hypothesis (Hlimit : limit + 16384 <= LIMIT).

(** The payload written so far, the ranges few, the position within reach. *)
Record streaming (s : Formatter) (ranges : list BlockRange) (w : list Z) : Prop := {
  sm_inv : payload_inv s ranges w;
  sm_tight : tight s ranges;
  sm_size : 1 <= fm_size s <= LIMIT;
  sm_area : area_until area (fm_size s) limit
}.

(** What [bytes] more have changed. *)
Record streamed (s s' : Formatter) (ranges ranges' : list BlockRange) (n : Z) : Prop := {
  sd_frame : payload_frame s s';
  sd_reach : reach area (fpos s') <= reach area (fpos s) + n;
  sd_len : f_len (fm_file s') <= Z.max (f_len (fm_file s)) (fpos s');
  sd_weight : weight ranges' + crossed area (fpos s) <= weight ranges + crossed area (fpos s');
  sd_blocks : exists new, file_blocks ranges' = file_blocks ranges ++ new /\
    Forall (fun b => fpos s <= b * 4096 /\ reserved_block area b = false) new
}.

Lemma streamed_trans s1 s2 s3 r1 r2 r3 n m : streamed s1 s2 r1 r2 n -> streamed s2 s3 r2 r3 m -> streamed s1 s3 r1 r3 (n + m).
Proof.
  intros [F1 R1 L1 W1 (b1 & E1 & B1)] [F2 R2 L2 W2 (b2 & E2 & B2)]. pose proof F1 as (_ & _ & _ & P1). pose proof F2 as (_ & _ & _ & P2).
  constructor; [by eapply payload_frame_trans|lia|lia|lia|]. exists (b1 ++ b2). rewrite E2, E1, app_assoc. split; [done|].
  apply Forall_app. split; [done|]. eapply list.Forall_impl; [exact B2|]. cbv beta. intros b Hb. split; [lia|apply Hb].
Qed.

Lemma payload_run bytes ranges s w :
  streaming s ranges w -> reach area (fpos s) + zlen bytes <= limit ->
  exists ranges' s', write_payload_bytes bytes ranges s = (Ok ranges', s') /\ streaming s' ranges' (w ++ bytes) /\
    streamed s s' ranges ranges' (zlen bytes).
Proof.
  intros [Hinv Ht Hsz Har] Hroom. pose proof (pi_bs _ _ _ Hinv) as Hbs. pose proof (pi_pos _ _ _ Hinv) as Hp.
  destruct (loop_reach area Harea (S (length bytes)) limit ltac:(lia) bytes ranges s Hbs Hp Har Hroom (pi_ranges _ _ _ Hinv) Ht) as (R & L & W).
  pose proof (reach_pos area (fpos (write_payload_loop (S (length bytes)) bytes ranges s).2)) as Hend.
  destruct (write_payload_loop_spec (S (length bytes)) bytes ranges s w Hinv ltac:(lia) Hsz ltac:(lia)) as (ranges' & s' & Hrun & Hinv' & Hf & (new & Hnew & Hfree)).
  unfold write_payload_bytes. rewrite Hrun in *. cbn [fst snd] in *. destruct (W ranges' eq_refl) as (W' & _ & T').
  pose proof Hf as (_ & Hs' & _ & Hp'). exists ranges', s'. split; [done|]. split.
  - constructor; [done|done|lia|]. apply (area_until_grow area (fm_size s)); [done|]. lia.
  - constructor; [done|lia|lia|done|]. exists new. split; [done|]. rewrite (Har (fm_size s')), (Har (fm_size s)) in Hfree by lia. by apply Hfree.
Qed.

Lemma reader_run fuel : forall chunks ranges s w,
  streaming s ranges w -> (reader_bytes (chunk_reader chunks) < fuel)%nat -> Forall (fun c => c <> []) chunks ->
  zlen w + zlen (concat chunks) <= MAX_FILE_SIZE -> reach area (fpos s) + zlen (concat chunks) <= limit ->
  exists ranges' s', write_from_reader_loop fuel (chunk_reader chunks) (zlen w) ranges s
      = (Ok (zlen w + zlen (concat chunks), ranges'), s') /\
    streaming s' ranges' (w ++ concat chunks) /\ streamed s s' ranges ranges' (zlen (concat chunks)).
Proof.
  induction fuel as [|fuel IH]; intros chunks ranges s w Hst Hfuel Hne Htot Hroom; [lia|]. destruct chunks as [|chunk chunks].
  { exists ranges, s. cbn [concat]. rewrite zlen_nil, Z.add_0_r, app_nil_r. split; [done|]. split; [done|].
    constructor; [split; [by destruct s|split; [lia|done]]|lia|lia|lia|]. exists []. rewrite app_nil_r. split; [done|apply Forall_nil]. }
  pose proof (pi_bs _ _ _ (sm_inv _ _ _ Hst)) as Hbs.
  apply Forall_cons_1 in Hne as [Hc Hne]. destruct (read_chunk chunk chunks Hc) as (buf & chunks' & Hread & Hbuf & Hcat & Hne' & Hdec).
  change (concat (chunk :: chunks)) with (chunk ++ concat chunks) in *. rewrite <- Hcat, zlen_app in *.
  pose proof (zlen_nonneg w). pose proof (zlen_nonneg (concat chunks')). pose proof (zlen_pos buf Hbuf).
  rewrite (reader_turn _ _ _ _ _ _ _ Hbs Hread Hbuf) by lia.
  destruct (payload_run buf ranges s w Hst ltac:(lia)) as (rs & s1 & Hrun & Hst1 & Hsd1). rewrite (run_bind _ _ _ _ _ Hrun), <- zlen_app.
  pose proof (sd_reach _ _ _ _ _ Hsd1). destruct (IH chunks' rs s1 (w ++ buf) Hst1) as (ranges' & s' & Hrun' & Hst' & Hsd');
    [lia|by apply Hne'|rewrite zlen_app; lia|lia|].
  exists ranges', s'. rewrite Hrun'. split; [rewrite zlen_app, Z.add_assoc; done|]. rewrite <- app_assoc in Hst'. split; [done|].
  by eapply streamed_trans.
Qed.

(** The image grew behind the position; nothing else changed. *)
Record appended (cost : Z) (s s' : Formatter) : Prop := {
  ap_state : s' = set_fm_size (fm_size s') (set_fm_file (fm_file s') s);
  ap_pos : fpos s <= fpos s';
  ap_reach : reach area (fpos s') <= reach area (fpos s) + cost;
  ap_before : forall x, x < fpos s -> f_data (fm_file s') x = f_data (fm_file s) x;
  ap_size : fm_size s <= fm_size s' <= Z.max (fm_size s) (fpos s');
  ap_len : f_len (fm_file s') <= Z.max (f_len (fm_file s)) (fpos s')
}.

(** A payload and the extents behind it make a file. *)
Lemma stream_holds s2 s3 s4 s5 ranges bytes inode :
  streaming s3 ranges bytes -> streamed s2 s3 [] ranges (zlen bytes) -> 0 <= fpos s2 -> zlen bytes <= MAX_FILE_SIZE ->
  fpos s4 = aligned (fpos s3) -> f_data (fm_file s4) = f_data (fm_file s3) ->
  extents_kept area s4 ranges inode s5 -> file_size inode = zlen bytes ->
  holds_file area (fpos s5) (fm_file s5) inode bytes.
Proof.
  intros [Hinv _ _ _] [_ _ _ _ (new & Hnew & Hbl)] Hp2 Hmax P4 D4 [_ [P5 _] B5 _ Hparse] Hsize. split; [done|]. intros g [Hgl Hg].
  cbn [file_blocks map concat app] in Hnew. rewrite <- Hnew in Hbl. destruct (aligned_spec (fpos s3)) as (Hal & Ham & _). rewrite <- P4 in Hal, Ham.
  pose proof Hinv as [_ Hp3 Hok _ _ Hlen Haddr Hdata]. pose proof (Z.mod_pos_bound (- fpos s3) 4096 ltac:(lia)) as Hmb.
  pose proof (length_file_blocks ranges (ranges_ok_range _ Hok)) as Htot.
  assert (total_blocks ranges <= u32_max) as Ht by (unfold u32_max, MAX_FILE_SIZE, zlen in *; lia).
  exists (fill_extent_leaves_from_ranges ranges). rewrite fill_leaves_blocks by (done || by apply ranges_ok_range).
  assert (forall b, b ∈ file_blocks ranges -> 0 <= b /\ (b + 1) * 4096 <= fpos s4 /\ reserved_block area b = false) as Hb.
  { intros b Hb. rewrite list.Forall_forall in Hbl. destruct (Hbl b Hb) as [Hb1 Hb2]. split; [lia|]. split; [|done].
    apply list_elem_of_lookup in Hb as [j Hj]. apply lookup_lt_Some in Hj as Hlt. unfold zlen in Hlen at 2.
    specialize (Haddr (4096 * Z.of_nat j) ltac:(lia)). unfold byte_addr in Haddr.
    rewrite (Z.mul_comm 4096), Z.div_mul, Z.mod_mul, Nat2Z.id, (nth_lookup_Some _ _ 0 b Hj) in Haddr by lia.
    pose proof (aligned_pos (fpos s4) Ham). lia. }
  split; [|split; [|split; [|split]]].
  - apply Hparse; [|lia]. intros x Hx Hr. apply Hg; [lia|done].
  - apply (fill_leaves_spec ranges 0 (ranges_ok_range _ Hok)); lia.
  - apply list.Forall_forall. intros b Hin. destruct (Hb b Hin) as (? & ? & _). lia.
  - lia.
  - intros i Hi. rewrite <- Hdata by done. unfold byte_addr. set (b := nth (Z.to_nat (i / 4096)) (file_blocks ranges) 0).
    pose proof (Z.mod_pos_bound i 4096 ltac:(lia)) as Hm.
    assert (b ∈ file_blocks ranges) as Hin.
    { apply list_elem_of_In, nth_In. pose proof (Z.div_mod i 4096 ltac:(lia)). assert (0 <= i / 4096) by (apply Z.div_pos; lia). unfold zlen in *. lia. }
    destruct (Hb b Hin) as (Hb0 & Hb1 & Hb2). assert ((b * 4096 + i mod 4096) / 4096 = b) as Ex by (pose proof (block_of (b * 4096 + i mod 4096) b 1); lia).
    rewrite Hg by (lia || by rewrite Ex). rewrite B5 by lia. by rewrite D4.
Qed.

Lemma at_pos_fields p s :
  fpos (at_pos p s) = p /\ fm_block_size (at_pos p s) = fm_block_size s /\ fm_size (at_pos p s) = fm_size s /\
  f_data (fm_file (at_pos p s)) = f_data (fm_file s) /\ f_len (fm_file (at_pos p s)) = f_len (fm_file s).
Proof. by destruct s as [[]]. Qed.

Lemma at_pos_state p q s s' :
  s' = set_fm_size (fm_size s') (set_fm_file (fm_file s') (at_pos q s)) ->
  at_pos p s' = set_fm_size (fm_size s') (set_fm_file (fm_file (at_pos p s')) s).
Proof. destruct s, s'. cbn. by intros [= -> -> -> -> -> -> -> -> ->]. Qed.

Lemma file_state s s4 s5 :
  s4 = set_fm_size (fm_size s4) (set_fm_file (fm_file s4) s) -> s5 = set_fm_file (fm_file s5) s4 ->
  s5 = set_fm_size (fm_size s5) (set_fm_file (fm_file s5) s).
Proof. destruct s, s4, s5. cbn. intros [= -> -> -> -> -> -> -> -> ->] [= -> -> -> -> -> -> -> -> -> ->]. done. Qed.

Lemma aligned_reach p : reach area (aligned p) <= reach area p + 4096.
Proof.
  destruct (aligned_spec p) as (Hal & _). pose proof (reach_step area p (aligned p - p) ltac:(lia)) as H.
  replace (p + (aligned p - p)) with (aligned p) in H by lia. lia.
Qed.

Lemma block_fits p : 0 <= p <= limit -> p / 4096 + 1 <= u32_max.
Proof. intros Hp. unfold LIMIT, u32_max in *. assert (p / 4096 <= 4294967291) by (apply Z.div_le_upper_bound; lia). lia. Qed.

(** The bytes of a reader, from one block boundary to the next. *)
Definition stream_file (reader : Reader) : M (Z * list BlockRange) :=
  _ ← align_to_block; _ ← skip_reserved_metadata_blocks; out ← write_payload_from_reader reader []; _ ← align_to_block; mret out.

Lemma stream_file_spec chunks s :
  fm_block_size s = BLOCK_SIZE -> 0 <= fpos s -> 1 <= fm_size s <= LIMIT -> area_until area (fm_size s) limit ->
  Forall (fun c => c <> []) chunks -> zlen (concat chunks) <= MAX_FILE_SIZE -> reach area (fpos s) + zlen (concat chunks) + 8192 <= limit ->
  exists ranges s2 s3 s4, stream_file (chunk_reader chunks) s = (Ok (zlen (concat chunks), ranges), s4) /\
    streaming s3 ranges (concat chunks) /\ streamed s2 s3 [] ranges (zlen (concat chunks)) /\ 0 <= fpos s2 /\ zlen ranges <= 62 /\
    fpos s4 = aligned (fpos s3) /\ f_data (fm_file s4) = f_data (fm_file s3) /\ appended (zlen (concat chunks) + 8192) s s4.
Proof.
  intros Hbs Hp Hsz Har Hne Hn Hroom. set (n := zlen (concat chunks)) in *. pose proof (zlen_nonneg (concat chunks)) as Hn0. fold n in Hn0.
  pose proof (reach_pos area (fpos s)) as Hr0. destruct (aligned_spec (fpos s)) as (Hal & Ham & _). pose proof (aligned_reach (fpos s)) as R1.
  set (p1 := aligned (fpos s)) in *. pose proof (reach_pos area p1) as Hr1. destruct (at_pos_fields p1 s) as (P1 & B1 & Z1 & D1 & L1).
  pose proof (block_fits p1 ltac:(lia)) as Hm1.
  destruct (skip_crossed area Harea (fm_size s) p1 (Har (fm_size s) ltac:(lia)) ltac:(lia) ltac:(lia)) as [R2 _].
  destruct (payload_pos_spec (fm_size s) p1 ltac:(lia) ltac:(lia)) as (Hq & _ & Hqm & _). set (q := payload_pos (fm_size s) p1) in *.
  destruct (at_pos_fields q s) as (P2 & B2 & Z2 & D2 & L2). set (s2 := at_pos q s) in *.
  assert (skip_reserved_metadata_blocks (at_pos p1 s) = (Ok tt, s2)) as Hskip.
  { rewrite skip_reserved_spec by (rewrite ?P1, ?B1; done || lia). rewrite P1, Z1. unfold s2. by destruct s. }
  assert (streaming s2 [] []) as Hst.
  { constructor; [apply payload_inv_start; [congruence|lia|rewrite P2; congruence]|by left|by rewrite Z2|by rewrite Z2]. }
  pose proof (reach_pos area q) as Hr2.
  destruct (reader_run (S (reader_bytes (chunk_reader chunks))) chunks [] s2 [] Hst ltac:(lia) Hne) as (ranges & s3 & Hrun & Hst3 & Hsd);
    [change (zlen []) with 0; lia|rewrite P2; lia|]. change (zlen []) with 0 in Hrun. rewrite Z.add_0_l in Hrun. fold n in Hrun, Hsd.
  pose proof Hsd as [(F3 & S3 & D3 & Hp3) Hr3 L3 W3 _]. rewrite P2, Z2, L2 in *. pose proof (reach_pos area (fpos s3)) as Hr3'.
  pose proof (pi_bs _ _ _ (sm_inv _ _ _ Hst3)) as B3. destruct (aligned_spec (fpos s3)) as (Hal3 & _). pose proof (aligned_reach (fpos s3)) as R4.
  destruct (at_pos_fields (aligned (fpos s3)) s3) as (P4 & B4 & Z4 & D4 & L4).
  exists ranges, s2, s3, (at_pos (aligned (fpos s3)) s3). split; [|split; [done|split; [done|split; [lia|split; [|split; [done|split; [done|]]]]]]].
  - unfold stream_file. rewrite (run_bind _ _ _ _ _ (align_spec s Hbs Hp (block_fits (fpos s) ltac:(lia)))), (run_bind _ _ _ _ _ Hskip).
    unfold write_payload_from_reader. rewrite (run_bind _ _ _ _ _ Hrun).
    by rewrite (run_bind _ _ _ _ _ (align_spec s3 B3 ltac:(lia) (block_fits (fpos s3) ltac:(lia)))).
  - unfold weight in W3. change (zlen []) with 0 in W3. pose proof (crossed_bounds area (fpos s3)). pose proof (crossed_bounds area q). lia.
  - constructor; rewrite ?P4, ?Z4, ?D4, ?L4; try lia.
    + by apply (at_pos_state _ q).
    + intros x Hx. rewrite D3 by lia. by rewrite D2.
Qed.

Lemma create_regular_spec child chunks s :
  fm_block_size s = BLOCK_SIZE -> 0 <= fpos s -> 1 <= fm_size s <= LIMIT -> area_until area (fm_size s) limit ->
  Forall (fun c => c <> []) chunks -> 0 < zlen (concat chunks) <= 17179869184 ->
  reach area (fpos s) + zlen (concat chunks) + 12288 <= limit ->
  exists buf blk ranges s', let inode := with_extents (set_file_size (zlen (concat chunks)) child) buf blk in
    create_regular child (Some (chunk_reader chunks)) s = (Ok (inode, ranges), s') /\ is_bytes 60 buf /\
    holds_file area (fpos s') (fm_file s') inode (concat chunks) /\ appended (zlen (concat chunks) + 12288) s s'.
Proof.
  intros Hbs Hp Hsz Har Hne Hn Hroom. assert (zlen (concat chunks) <= MAX_FILE_SIZE) as Hmax by (unfold MAX_FILE_SIZE; lia).
  destruct (stream_file_spec chunks s Hbs Hp Hsz Har Hne Hmax ltac:(lia)) as (ranges & s2 & s3 & s4 & Hrun & Hst & Hsd & P2 & Hfew & P4 & D4 & [F4 Hp4 R4 D4' S4 L4]).
  pose proof Hst as [[_ _ Hok _ _ Hlen _ _] _ _ _]. pose proof (Z.mod_pos_bound (- fpos s3) 4096 ltac:(lia)) as Hmb.
  assert (fm_block_size s4 = BLOCK_SIZE) as B4 by (rewrite F4; by destruct s). pose proof (reach_pos area (fpos s4)) as Hr4.
  destruct (place_extents_spec area limit Harea Hlimit (set_file_size (zlen (concat chunks)) child) ranges s4) as (buf & blk & s5 & Hpl & Hbuf & Hxk);
    [done|lia|rewrite P4; apply aligned_spec| |lia|done|done|lia|].
  { apply (area_until_grow area (fm_size s)); [done|]. lia. }
  exists buf, blk, ranges, s5. cbv zeta. split; [|split; [done|split]].
  - unfold create_regular. fold (stream_file (chunk_reader chunks)). rewrite (run_bind _ _ _ _ _ Hrun). cbn beta iota. by rewrite (run_bind _ _ _ _ _ Hpl).
  - apply (stream_holds s2 s3 s4 s5 ranges); try done. unfold with_extents. transitivity (file_size (set_file_size (zlen (concat chunks)) child)); [by destruct child|].
    apply file_size_set. unfold_ranges. lia.
  - pose proof Hxk as [F5 [P5 R5] B5 L5 _]. constructor; try lia.
    + by apply (file_state s s4).
    + intros x Hx. rewrite B5 by lia. by apply D4'.
    + assert (fm_size s5 = fm_size s4) as -> by (rewrite F5; by destruct s4). lia.
Qed.
End Create.

(** ** The call *)

(** A component [create] accepts. *)
Definition name_ok (name : list Z) : Prop := part_ok name /\ name <> DOTDOT /\ zlen name <= EXT4_NAME_LEN.

Lemma validate_names names :
  Forall name_ok names -> foldM (fun _ name =>
    if bool_decide (name = DOT) || bool_decide (name = DOTDOT) then Err (InvalidPathEncoding (abs_path names))
    else if EXT4_NAME_LEN <? zlen name then Err (InvalidName name) else Ok tt) tt ([] :: names) = Ok tt.
Proof.
  intros H. cbn [foldM mbind res_bind]. rewrite bool_decide_eq_false_2 by done. rewrite bool_decide_eq_false_2 by done.
  change (EXT4_NAME_LEN <? zlen []) with false. cbn [orb mbind res_bind]. generalize (abs_path names) as path. intros path.
  induction H as [|n ns [(_ & _ & Hd) [Hdd Hl]] _ IH]; [done|]. cbn [foldM].
  rewrite (bool_decide_eq_false_2 (n = DOT)), (bool_decide_eq_false_2 (n = DOTDOT)) by done. cbn [orb].
  replace (EXT4_NAME_LEN <? zlen n) with false by lia. cbn [mbind res_bind]. exact IH.
Qed.

Lemma validate_ok names : Forall name_ok names -> validate_path_component_names (abs_path names) = Ok tt.
Proof.
  intros H. destruct names as [|n ns]; [done|]. unfold validate_path_component_names.
  assert (split_slash (abs_path (n :: ns)) = [] :: n :: ns) as ->; [|by apply validate_names].
  apply split_slash_concat. eapply list.Forall_impl; [exact H|]. intros x Hx. apply Hx.
Qed.

Lemma names_parts names : Forall name_ok names -> Forall part_ok names.
Proof. intros H. eapply list.Forall_impl; [exact H|]. intros x Hx. apply Hx. Qed.

Section Call.
Context (s : Formatter) (ps : list (list Z)) (name : list Z) (p : nat) (np : FileTreeNode) (pinode : Inode).
Hypothesis (Hinv : fmt_inv s).
Hypothesis (Hnames : Forall name_ok (ps ++ [name])).
Hypothesis (Hp : twalk s ps p).
Hypothesis (Hnp : nodes (fm_tree s) !! p = Some np).
Hypothesis (Hpi : fm_inodes s !! inode_index (n_inode np) = Some pinode).
Hypothesis (Hdir : is_dir (i_mode pinode) = true).
Hypothesis (Hfresh : forall j, ~ twalk s (ps ++ [name]) j).

Lemma found_parent : tree_lookup (abs_path ps) s = (Ok (Some p), s).
Proof.
  apply names_parts in Hnames. apply Forall_app in Hnames as [Hps _]. destruct (tree_lookup_run s Hinv ps Hps) as (o & Ho & Hj).
  rewrite Ho. by rewrite (proj2 (Hj p) Hp).
Qed.

(** In a directory that exists, [create] is the creation of the entry. *)
Lemma create_in_directory mode ts data uid gid xattrs :
  is_reg mode = true ->
  create (abs_path (ps ++ [name])) mode None ts data uid gid xattrs s =
  create_node (abs_path (ps ++ [name])) mode None ts data uid gid xattrs s.
Proof.
  intros Hreg. assert (is_dir mode = false /\ is_link mode = false) as [Hnd Hnl].
  { unfold is_reg, is_dir, is_link in *. by apply Z.eqb_eq in Hreg as ->. }
  pose proof (names_parts _ Hnames) as Hparts. pose proof Hparts as Hparts'. apply Forall_app in Hparts' as [Hps Hn]. apply Forall_cons_1 in Hn as [Hn _].
  unfold create. remember (S (length (abs_path (ps ++ [name])))) as fuel eqn:Ef. cbn [create_at].
  rewrite (run_bind _ _ s tt s) by (unfold lift; by rewrite validate_ok). rewrite Hnd, Hreg, Hnl. cbn [negb andb].
  change (bool_decide (is_Some None)) with false. cbn [eqb negb].
  rewrite (run_bind _ _ s false s).
  2:{ unfold create_existing. destruct (tree_lookup_run s Hinv _ Hparts) as (o & Ho & Hj). rewrite (run_bind _ _ _ _ _ Ho).
      destruct o as [j|]; [|done]. exfalso. by apply (Hfresh j), Hj. }
  cbn iota. rewrite (proj1 (parent_basename ps name Hn)). rewrite bool_decide_false by (by apply abs_path_parent_ne). cbn [negb].
  rewrite (run_bind _ _ s tt s); [done|]. subst fuel. cbn [create_at].
  pose proof Hnames as Hnps. apply Forall_app in Hnps as [Hnps _]. rewrite (run_bind _ _ s tt s) by (unfold lift; by rewrite validate_ok).
  change (is_dir (make_mode S_IFDIR 0x1ED)) with true. change (is_link (make_mode S_IFDIR 0x1ED)) with false. cbn [negb andb].
  change (bool_decide (is_Some None)) with false. cbn [eqb negb]. rewrite (run_bind _ _ s true s); [done|].
  unfold create_existing. rewrite (run_bind _ _ _ _ _ found_parent). rewrite (run_bind _ _ s np s) by (by apply tree_node_run).
  rewrite (run_bind _ _ s pinode s) by (unfold get_inode; by rewrite Hpi).
  change (is_dir (make_mode S_IFDIR 0x1ED)) with true. rewrite Hdir. cbn iota.
  rewrite bool_decide_true by (by apply (twalk_name s ps p)). done.
Qed.

(** What the creation of a file leaves. *)
Record file_created (area mode : Z) (bytes : list Z) (s' : Formatter) (inode : Inode) : Prop := {
  fc_tree : exists node, fm_tree s' = added (fm_tree s) p np node /\ n_name node = name /\
    n_inode node = zlen (fm_inodes s) + 1 /\ n_link node = None /\ n_children node = [];
  fc_inodes : fm_inodes s' = fm_inodes s ++ [inode];
  fc_inode : i_mode inode = mode /\ i_links_count inode = 1;
  fc_holds : holds_file area (fpos s') (fm_file s') inode bytes;
  fc_area : group_descriptor_blocks BLOCK_SIZE (fm_size s') = area;
  fc_before : forall x, x < fpos s -> f_data (fm_file s') x = f_data (fm_file s) x
}.

Lemma times_spec ts :
  exists ts' k, (match ts with Some ts => mret ts | None => FileTimestamps_default end : M FileTimestamps) s = (Ok ts', set_fm_tick k s).
Proof.
  destruct ts as [ts|]; [exists ts, (fm_tick s); by destruct s|]. unfold FileTimestamps_default, now. rewrite M_bind_eq.
  destruct (fm_clock s (fm_tick s)). eexists _, _. reflexivity.
Qed.

(** The inode [create_regular] starts from. *)
Lemma start_mode mode uid gid (pi : Inode) ts size buf blk :
  let child := set_i_flags inode_flag_HUGE_FILE (set_i_mode mode Inode_default) in
  let child := match uid with Some u => set_uid u child | None => set_i_uid_hi (i_uid_hi pi) (set_i_uid (i_uid pi) child) end in
  let child := match gid with Some g => set_gid g child | None => set_i_gid_hi (i_gid_hi pi) (set_i_gid (i_gid pi) child) end in
  let inode := with_extents (set_file_size size (create_times ts child)) buf blk in
  i_mode inode = mode /\ i_links_count inode = 1.
Proof. by destruct uid, gid. Qed.

Lemma create_node_spec area limit mode ts chunks uid gid :
  0 <= area <= 1024 -> limit + 16384 <= LIMIT ->
  fm_block_size s = BLOCK_SIZE -> 0 <= fpos s -> 1 <= fm_size s <= LIMIT -> area_until area (fm_size s) limit ->
  Forall (fun c => c <> []) chunks -> 0 < zlen (concat chunks) <= 17179869184 ->
  reach area (fpos s) + zlen (concat chunks) + 12288 <= limit ->
  is_reg mode = true -> i_links_count pinode < MAX_LINKS -> zlen (fm_inodes s) < u32_max ->
  exists s' inode, create_node (abs_path (ps ++ [name])) mode None ts (Some (chunk_reader chunks)) uid gid None s = (Ok tt, s') /\
    file_created area mode (concat chunks) s' inode.
Proof.
  intros Harea Hlimit Hbs Hpos Hsz Har Hne Hn Hroom Hreg Hlinks Hmany.
  assert (is_dir mode = false /\ is_link mode = false) as [Hnd Hnl].
  { unfold is_reg, is_dir, is_link in *. by apply Z.eqb_eq in Hreg as ->. }
  pose proof (names_parts _ Hnames) as Hparts. apply Forall_app in Hparts as [_ Hname]. apply Forall_cons_1 in Hname as [Hname _].
  unfold create_node. destruct (parent_basename ps name Hname) as [-> ->].
  rewrite (run_bind _ _ _ _ _ found_parent), (run_bind _ _ s p s) by done. rewrite (run_bind _ _ s np s) by (by apply tree_node_run).
  rewrite (run_bind _ _ s pinode s) by (unfold get_inode; by rewrite Hpi). replace (MAX_LINKS <=? i_links_count pinode) with false by lia.
  cbn [default]. rewrite (run_bind _ _ s _ s) by reflexivity. destruct (times_spec ts) as (ts' & k & Hts). rewrite (run_bind _ _ _ _ _ Hts).
  rewrite Hnd, Hnl, Hreg. set (child := create_times ts' _). set (sk := set_fm_tick k s) in *.
  assert (fm_block_size sk = fm_block_size s /\ fm_size sk = fm_size s /\ fm_file sk = fm_file s /\ fm_inodes sk = fm_inodes s /\ fm_tree sk = fm_tree s)
    as (Ebs & Esz & Ef & Ei & Et) by (by destruct s).
  destruct (create_regular_spec area limit Harea Hlimit child chunks sk) as (buf & blk & ranges & s4 & Hrun & Hbuf & Hholds & [F4 P4 R4 D4 S4 _]);
    rewrite ?Ebs, ?Esz, ?Ef; try done. rewrite Esz, Ef in *. set (inode := with_extents _ _ _) in *.
  rewrite (run_bind _ _ _ _ _ Hrun). cbn beta iota.
  assert (fm_inodes s4 = fm_inodes s /\ fm_tree s4 = fm_tree s) as [I4 T4] by (rewrite <- Ei, <- Et, F4; by destruct sk).
  set (s5 := set_fm_inodes (fm_inodes s ++ [inode]) s4). rewrite (run_bind _ _ s4 tt s5) by (unfold modify, s5; by rewrite I4).
  assert (fm_inodes s5 = fm_inodes s ++ [inode] /\ fm_tree s5 = fm_tree s /\ fm_file s5 = fm_file s4 /\ fm_size s5 = fm_size s4) as (I5 & T5 & F5 & Z5)
    by (unfold s5; rewrite <- T4; by destruct s4).
  assert (u32 (zlen (fm_inodes s5)) = zlen (fm_inodes s) + 1) as En.
  { rewrite I5, zlen_app. change (zlen [inode]) with 1. pose proof (zlen_nonneg (fm_inodes s)). apply u32_small. unfold_ranges. unfold u32_max in *. lia. }
  rewrite (run_bind _ _ s5 (zlen (fm_inodes s) + 1) s5) by (unfold gets; by rewrite En). set (node := assign_node_ranges _ ranges).
  set (s6 := set_fm_tree (added (fm_tree s) p np node) s5). exists s6, inode. split.
  { unfold tree_add_child. rewrite T5, (add_child_ok (fm_tree s) p node np Hnp). reflexivity. }
  assert (fm_tree s6 = added (fm_tree s) p np node /\ fm_inodes s6 = fm_inodes s5 /\ fm_file s6 = fm_file s4 /\ fm_size s6 = fm_size s4)
    as (T6 & I6 & F6 & Z6) by (unfold s6; rewrite <- F5, <- Z5; by destruct s5).
  constructor; rewrite ?T6, ?I6, ?F6, ?Z6; [by exists node|done|by apply start_mode|exact Hholds| |exact D4].
  apply Har. pose proof (reach_pos area (f_pos (fm_file s4))). lia.
Qed.
End Call.
