(* ===== verification/ImageReader.v ===== *)
(** The reader of ext4 images: [common/disk-image/src/ext4/reader.rs],
    [reader_io.rs] and [probe] of [mod.rs].

    A [Reader] owns the open file, with its position, and caches the group
    descriptors and inodes it has read; every operation is a program over that
    state that may end with an error or a panic.  Loops that are not structural
    run under [loop], which takes its fuel in binary, so that a bound like 2^33
    costs nothing; [ReaderFacts] shows that none of them runs out. *)

From stdpp Require Import gmap.
From S2P Require Import Prelude Bytes Types Errors Disk RustStr RustPath RustSort Dir FileTree Extent.

Definition MAX_SYMLINK_HOPS : nat := 40.

(** ** State *)

Record Reader : Type := mkReader {
  r_file : File;
  r_superblock : SuperBlock;
  r_group_descriptors : gmap Z GroupDescriptor;
  r_inodes : gmap Z Inode;
  r_tree : FileTree;
  r_hardlinks : gmap (list Z) Z
}.

Definition set_r_file (v : File) (r : Reader) : Reader :=
  {| r_file := v; r_superblock := r_superblock r; r_group_descriptors := r_group_descriptors r;
     r_inodes := r_inodes r; r_tree := r_tree r; r_hardlinks := r_hardlinks r |}.
Definition set_r_group_descriptors (v : gmap Z GroupDescriptor) (r : Reader) : Reader :=
  {| r_file := r_file r; r_superblock := r_superblock r; r_group_descriptors := v;
     r_inodes := r_inodes r; r_tree := r_tree r; r_hardlinks := r_hardlinks r |}.
Definition set_r_inodes (v : gmap Z Inode) (r : Reader) : Reader :=
  {| r_file := r_file r; r_superblock := r_superblock r; r_group_descriptors := r_group_descriptors r;
     r_inodes := v; r_tree := r_tree r; r_hardlinks := r_hardlinks r |}.
Definition set_r_tree (v : FileTree) (r : Reader) : Reader :=
  {| r_file := r_file r; r_superblock := r_superblock r; r_group_descriptors := r_group_descriptors r;
     r_inodes := r_inodes r; r_tree := v; r_hardlinks := r_hardlinks r |}.
Definition set_r_hardlinks (v : gmap (list Z) Z) (r : Reader) : Reader :=
  {| r_file := r_file r; r_superblock := r_superblock r; r_group_descriptors := r_group_descriptors r;
     r_inodes := r_inodes r; r_tree := r_tree r; r_hardlinks := v |}.

(** Programs over a reader. *)
Definition R (A : Type) : Type := Reader -> res ReadError A * Reader.

#[global] Instance R_ret : MRet R := fun A a r => (Ok a, r).
#[global] Instance R_bind : MBind R := fun A B f m r =>
  match m r with
  | (Ok a, r') => f a r'
  | (Err e, r') => (Err e, r')
  | (Panic, r') => (Panic, r')
  end.

Definition fail {A} (e : ReadError) : R A := fun r => (Err e, r).
Definition asks {A} (f : Reader -> A) : R A := fun r => (Ok (f r), r).
Definition update (f : Reader -> Reader) : R unit := fun r => (Ok tt, f r).
(** A computation that may fail. *)
Definition pure {A} (v : Reader -> res ReadError A) : R A := fun r => (v r, r).

(** A [for] loop. *)
Fixpoint foldR {S A} (f : S -> A -> R S) (s : S) (l : list A) : R S :=
  match l with
  | [] => mret s
  | a :: l => s' ← f s a; foldR f s' l
  end.

(** At most [fuel] turns of a loop; a turn goes on ([inl]) or leaves it ([inr]). *)
Fixpoint turns {S T} (fuel : positive) (turn : S -> R (S + T)) (s : S) : R (S + T) :=
  match fuel with
  | xH => turn s
  | xO p =>
      out ← turns p turn s;
      match out with inl s' => turns p turn s' | inr t => mret (inr t) end
  | xI p =>
      out ← turn s;
      match out with
      | inl s' =>
          out ← turns p turn s';
          match out with inl s' => turns p turn s' | inr t => mret (inr t) end
      | inr t => mret (inr t)
      end
  end.

(** The loop itself.  No loop of the reader reaches the bound. *)
Definition loop {S T} (fuel : positive) (turn : S -> R (S + T)) (s : S) : R T :=
  out ← turns fuel turn s;
  match out with inr t => mret t | inl _ => pure (fun _ => Panic) end.

(** ** Input *)

(** [self.file.seek(SeekFrom::Start(n))?]. *)
Definition r_seek (n : Z) : R unit := fun r =>
  match seek_start (r_file r) n with
  | Ok f => (Ok tt, set_r_file f r)
  | Err e => (Err (ReadIo e), r)
  | Panic => (Panic, r)
  end.

(** [self.file.read_exact(&mut buf).map_err(|_| e)?].  Where a failure leaves
    the position does not matter: every read follows a seek. *)
Definition r_read_exact (e : ReadError) (n : Z) : R (list Z) := fun r =>
  match read_exact (r_file r) n with
  | Ok (buf, f) => (Ok buf, set_r_file f r)
  | Err _ => (Err e, r)
  | Panic => (Panic, r)
  end.

(** [self.file.read(&mut buf)?]. *)
Definition r_read (n : Z) : R (list Z) := fun r =>
  let '(buf, f) := read_some (r_file r) n in (Ok buf, set_r_file f r).

(** [1u64 << n] takes its count modulo 64. *)
Definition block_size (sb : SuperBlock) : Z :=
  u64 (1024 * u64 (Z.shiftl 1 (sb_log_block_size sb mod 64))).

Definition group_descriptor_size (sb : SuperBlock) : Z :=
  if negb (Z.land (sb_feature_incompat sb) incompat_BIT64 =? 0) then sb_desc_size sb else 32.

Definition read_group_descriptor (number : Z) : R GroupDescriptor :=
  sb ← asks r_superblock;
  let offset := u64 (block_size sb + number * group_descriptor_size sb) in
  _ ← r_seek offset;
  buf ← r_read_exact (CouldNotReadGroup number) 32;
  mret (GroupDescriptor_read_from (buf ++ zeros 32)).

Definition get_group_descriptor (number : Z) : R GroupDescriptor :=
  cached ← asks (fun r => r_group_descriptors r !! number);
  match cached with
  | Some gd => mret gd
  | None =>
      gd ← read_group_descriptor number;
      _ ← update (fun r => set_r_group_descriptors (<[number := gd]> (r_group_descriptors r)) r);
      mret gd
  end.

(** Division by zero panics. *)
Definition read_inode (number : Z) : R Inode :=
  sb ← asks r_superblock;
  if sb_inodes_per_group sb =? 0 then pure (fun _ => Panic)
  else
    let group := u32 (number - 1) / sb_inodes_per_group sb in
    let index_in_group := u32 (number - 1) mod sb_inodes_per_group sb in
    gd ← get_group_descriptor group;
    let table_start := u64 (gd_inode_table_lo gd * block_size sb) in
    let inode_offset := u64 (table_start + index_in_group * sb_inode_size sb) in
    _ ← r_seek inode_offset;
    buf ← r_read_exact (CouldNotReadInode number) 256;
    mret (Inode_read_from buf).

Definition get_inode (number : Z) : R Inode :=
  cached ← asks (fun r => r_inodes r !! number);
  match cached with
  | Some inode => mret inode
  | None =>
      inode ← read_inode number;
      _ ← update (fun r => set_r_inodes (<[number := inode]> (r_inodes r)) r);
      mret inode
  end.

Definition seek_to_block (block : Z) : R unit :=
  sb ← asks r_superblock; r_seek (u64 (block * block_size sb)).

(** [extent::parse_extents] on the reader's file. *)
Definition inode_extents (inode : Inode) : R (list (Z * Z)) :=
  pure (fun r => parse_extents inode (block_size (r_superblock r)) (r_file r)).

Definition entry_cmp (a b : list Z * Z) : comparison := bytes_cmp a.1 b.1.

(** The loop over the blocks of one extent. *)
Definition read_dir_extent (entries : list (list Z * Z)) (extent : Z * Z) : R (list (list Z * Z)) :=
  let '(phys_start, phys_end) := extent in
  sb ← asks r_superblock;
  _ ← seek_to_block phys_start;
  let num_blocks := u32 (phys_end - phys_start) in
  foldR (fun entries i =>
    _ ← pure (fun _ => vec_capacity (block_size sb));
    block_buf ← r_read_exact (CouldNotReadBlock (u32 (phys_start + i))) (block_size sb);
    mret (entries ++ parse_dir_entries block_buf)) entries (seqZ 0 num_blocks).

Definition get_dir_entries (inode_number : Z) : R (list (list Z * Z)) :=
  inode ← get_inode inode_number;
  extents ← inode_extents inode;
  entries ← foldR read_dir_extent [] extents;
  mret (sort_by entry_cmp entries).

Definition children_of (number : Z) : R (list (list Z * Z)) := get_dir_entries number.

(** ** Opening an image *)

(** [str::trim_start_matches("./")]. *)
Fixpoint trim_start_dot_slash (p : list Z) : list Z :=
  match p with
  | c :: d :: q => if (c =? 46) && (d =? SLASH) then trim_start_dot_slash q else p
  | _ => p
  end.

Definition hardlink_key (t : FileTree) (parent_idx : nat) (name : list Z) : res ReadError (list Z) :=
  parent_path ← node_path t parent_idx;
  let full := path_push parent_path name in
  Ok (trim_start_dot_slash (trim_start_slash (from_utf8_lossy full))).

Definition to_range (r : Z * Z) : BlockRange := {| br_start := r.1; br_end := r.2 |}.

Definition discovered_node (child_ino : Z) (name : list Z) (blocks : list (Z * Z)) : FileTreeNode :=
  {| n_inode := child_ino; n_name := name; n_children := []; n_parent := None;
     n_blocks := option_map to_range (head blocks);
     n_additional_blocks := map to_range (drop 1 blocks); n_link := None |}.

(** The work still to do, last pushed first. *)
Definition Queue : Type := list (nat * Z).

(** One entry of the directory [parent_idx]. *)
Definition visit_entry (parent_idx : nat) (queue : Queue) (entry : list Z * Z) : R Queue :=
  let '(name, child_ino) := entry in
  if bool_decide (name = DOT) || bool_decide (name = DOTDOT) then mret queue
  else
    seen ← asks (fun r => bool_decide (is_Some (r_inodes r !! child_ino)));
    if (seen : bool) then
      key ← pure (fun r => hardlink_key (r_tree r) parent_idx name);
      _ ← update (fun r => set_r_hardlinks (<[key := child_ino]> (r_hardlinks r)) r);
      mret queue
    else
      inode ← get_inode child_ino;
      blocks ← inode_extents inode;
      added ← pure (fun r => add_child (r_tree r) parent_idx (discovered_node child_ino name blocks));
      let '(tree, child_idx) := (added : FileTree * nat) in
      _ ← update (set_r_tree tree);
      child_inode ← get_inode child_ino;
      mret (if is_dir (i_mode child_inode) then (child_idx, child_ino) :: queue else queue).

(** One turn of the loop over the work queue. *)
Definition traverse_turn (queue : Queue) : R (Queue + unit) :=
  match queue with
  | [] => mret (inr tt)
  | (parent_idx, inode_num) :: queue =>
      children ← get_dir_entries inode_num;
      queue ← foldR (visit_entry parent_idx) queue children;
      mret (inl queue)
  end.

(** Each turn beyond the first handles a directory that was not seen before,
    and there are 2^32 inode numbers. *)
Definition TRAVERSE_FUEL : positive := 8589934592.

Definition opened_reader (f : File) (sb : SuperBlock) : Reader :=
  {| r_file := f; r_superblock := sb; r_group_descriptors := ∅; r_inodes := ∅;
     r_tree := FileTree_new ROOT_INODE DOT; r_hardlinks := ∅ |}.

(** [opened] is what [File::open] returns. *)
Definition Reader_new (path : list Z) (opened : option File) : res ReadError Reader :=
  file ← ok_or opened (ReadNotFound path);
  file ← map_err ReadIo (seek_start file SUPERBLOCK_OFFSET);
  out ← map_err (fun _ => CouldNotReadSuperBlock path SUPERBLOCK_OFFSET 1024) (read_exact file 1024);
  let '(sb_buf, file) := (out : list Z * File) in
  let superblock := SuperBlock_read_from sb_buf in
  if negb (sb_magic superblock =? SUPERBLOCK_MAGIC) then Err InvalidSuperBlock
  else
    let reader := opened_reader file superblock in
    let '(result, reader) := loop TRAVERSE_FUEL traverse_turn [(root (r_tree reader), ROOT_INODE)] reader in
    _ ← result; Ok reader.

(** ** File contents *)

(** The [while] loop that reads [remaining] bytes in chunks of up to 1 MiB. *)
Definition chunk_turn (st : Z * list Z) : R ((Z * list Z) + list Z) :=
  let '(remaining, out) := st in
  if remaining <=? 0 then mret (inr out)
  else
    buf ← r_read (Z.min remaining 1048576);
    if zlen buf =? 0 then mret (inr out)
    else mret (inl (u64 (remaining - zlen buf), out ++ buf)).

(** The state of the [for] loop over the extents: the logical offset and the
    bytes read; [inr] after a [break]. *)
Definition extent_turn (bs start count : Z) (st : (Z * list Z) + list Z) (extent : Z * Z) :
    R ((Z * list Z) + list Z) :=
  match st with
  | inr out => mret (inr out)
  | inl (logical_offset, out) =>
      let '(phys_start, phys_end) := extent in
      let req_end := u64 (start + count) in
      let extent_bytes := u64 (u64 (phys_end - phys_start) * bs) in
      let logical_end := u64 (logical_offset + extent_bytes) in
      if logical_end <=? start then mret (inl (logical_end, out))
      else if req_end <=? logical_offset then mret (inr out)
      else
        let overlap_start := Z.max start logical_offset in
        let overlap_end := Z.min req_end logical_end in
        let remaining := u64 (overlap_end - overlap_start) in
        if remaining =? 0 then mret (inl (logical_end, out))
        else
          let offset_into_extent := overlap_start - logical_offset in
          let abs_byte_offset := u64 (u64 (phys_start * bs) + offset_into_extent) in
          _ ← r_seek abs_byte_offset;
          out ← loop (Z.to_pos (remaining + 1)) chunk_turn (remaining, out);
          if count <=? zlen out then mret (inr out) else mret (inl (logical_end, out))
  end.

Definition read_from_extents (inode_number start count : Z) : R (list Z) :=
  inode ← get_inode inode_number;
  extents ← inode_extents inode;
  if bool_decide (extents = []) then mret []
  else
    sb ← asks r_superblock;
    _ ← pure (fun _ => vec_capacity count);
    st ← foldR (extent_turn (block_size sb) start count) (inl (0, [])) extents;
    let out := match st with inl (_, out) => out | inr out => out end in
    mret (take (Z.to_nat count) out).

Definition read_symlink_target (inode : Inode) (inode_number : Z) : R (list Z) :=
  let size := file_size inode in
  if size =? 0 then mret []
  else if size <? INODE_BLOCK_SIZE then
    mret (from_utf8_lossy (sub_bytes (i_block inode) 0 size))
  else
    data ← read_from_extents inode_number 0 size;
    mret (from_utf8_lossy data).

(** ** Path resolution *)

Definition normalize_path (path : list Z) : list (list Z) :=
  let trimmed := match path with c :: p => if c =? SLASH then p else path | [] => [] end in
  match trimmed with
  | [] => []
  | _ => List.filter (fun part => negb (bool_decide (part = []))) (split_slash trimmed)
  end.

Definition find_entry (name : list Z) (entries : list (list Z * Z)) : option Z :=
  option_map snd (List.find (fun entry => bool_decide (entry.1 = name)) entries).

(** "empty symlink target". *)
Definition EMPTY_TARGET : list Z :=
  [101; 109; 112; 116; 121; 32; 115; 121; 109; 108; 105; 110; 107; 32; 116; 97; 114; 103; 101; 116].

Section Resolve.
Context (path : list Z) (follow_symlinks : bool).

(** The loop of [resolve_path].  The argument lists are the components from
    [idx] on and the parent stack, last pushed first; [hops_left] is
    [MAX_SYMLINK_HOPS - hops]. *)
Fixpoint resolve_from (hops_left : nat) :
    list (list Z) -> Z -> list Z -> gset Z -> R (Z * Inode) :=
  fix walk components current parent_stack visited :=
    match components with
    | [] => final_inode ← get_inode current; mret (current, final_inode)
    | name :: rest =>
        if bool_decide (name = DOT) then walk rest current parent_stack visited
        else if bool_decide (name = DOTDOT) then
          if current =? ROOT_INODE then walk rest current parent_stack visited
          else
            match parent_stack with
            | parent :: parents => walk rest parent parents visited
            | [] =>
                entries ← children_of current;
                walk rest (default current (find_entry DOTDOT entries)) [] visited
            end
        else
          current_inode ← get_inode current;
          if negb (is_dir (i_mode current_inode)) then fail (NotADirectory name)
          else
            entries ← children_of current;
            child_ino ← pure (fun _ => ok_or (find_entry name entries) (PathNotFound name));
            child_inode ← get_inode child_ino;
            if is_link (i_mode child_inode) && follow_symlinks then
              if bool_decide (child_ino ∈ visited) then fail (SymlinkLoop path)
              else
                match hops_left with
                | O => fail (SymlinkLoop path)
                | S hops_left =>
                    target ← read_symlink_target child_inode child_ino;
                    if bool_decide (target = []) then fail (InvalidPath EMPTY_TARGET)
                    else
                      let components := normalize_path target ++ rest in
                      if is_absolute target
                      then resolve_from hops_left components ROOT_INODE [] ({[child_ino]} ∪ visited)
                      else resolve_from hops_left components current parent_stack ({[child_ino]} ∪ visited)
                end
            else walk rest child_ino (current :: parent_stack) visited
    end.

Definition resolve_path : R (Z * Inode) :=
  resolve_from MAX_SYMLINK_HOPS (normalize_path path) ROOT_INODE [] ∅.
End Resolve.

(** ** Queries *)

Definition stat (path : list Z) : R (Z * Inode) := resolve_path path true.

Definition stat_no_follow (path : list Z) : R (Z * Inode) := resolve_path path false.

Definition exists_in (path : list Z) : R bool := fun r =>
  match resolve_path path true r with
  | (Ok _, r') => (Ok true, r')
  | (Err _, r') => (Ok false, r')
  | (Panic, r') => (Panic, r')
  end.

Definition list_dir (path : list Z) : R (list (list Z)) :=
  found ← stat path;
  let '(ino_num, inode) := (found : Z * Inode) in
  if negb (is_dir (i_mode inode)) then fail (NotADirectory path)
  else
    children ← children_of ino_num;
    mret (map fst (List.filter (fun entry : list Z * Z =>
      negb (bool_decide (entry.1 = DOT)) && negb (bool_decide (entry.1 = DOTDOT))) children)).

Definition read_file (path : list Z) (offset : Z) (count : option Z) : R (list Z) :=
  found ← stat path;
  let '(ino_num, inode) := (found : Z * Inode) in
  if is_dir (i_mode inode) then fail (IsDirectory path)
  else if negb (is_reg (i_mode inode)) then fail (NotAFile path)
  else
    let start := Z.min offset (file_size inode) in
    let max_readable := file_size inode - start in
    let want := match count with Some c => Z.min c max_readable | None => max_readable end in
    if want =? 0 then mret [] else read_from_extents ino_num start want.

(** Returns the number of bytes and the buffer with them. *)
Definition read_file_into (path buf : list Z) (offset : Z) : R (Z * list Z) :=
  data ← read_file path offset (Some (zlen buf));
  let n := Z.min (zlen data) (zlen buf) in
  mret (n, take (Z.to_nat n) data ++ drop (Z.to_nat n) buf).

(** ** Probing *)

Inductive ProbeResult : Type := Ext4 | NotExt4.

Definition probe (opened : option File) : res ReadError ProbeResult :=
  file ← ok_or opened (ReadIo OtherIo);
  file ← map_err ReadIo (seek_start file (SUPERBLOCK_OFFSET + 0x38));
  match read_exact file 2 with
  | Ok (magic, _) => Ok (if get_u16 magic 0 =? SUPERBLOCK_MAGIC then Ext4 else NotExt4)
  | Err UnexpectedEof => Ok NotExt4
  | Err e => Err (ReadIo e)
  | Panic => Panic
  end.
