(* ===== verification/ReaderFacts.v ===== *)
(** What the reader answers: a function of the image alone.

    The section [Image] fixes an image [f] and its superblock [sb] and defines
    what is on the disk without caches and positions: [disk_group],
    [disk_inode], [disk_entries].  [answers m v] says that the program [m],
    run by any reader of this image whatever it has cached, returns [v], keeps
    the caches coherent and touches neither the tree nor the hard links. *)

From stdpp Require Import gmap.
From S2P Require Import Prelude Bytes Types Errors Disk RustStr RustPath RustSort Dir FileTree Extent ImageReader.

(** What the caches do. *)
Lemma get_group_eq number r :
  get_group_descriptor number r =
  match r_group_descriptors r !! number with
  | Some gd => (Ok gd, r)
  | None =>
      match read_group_descriptor number r with
      | (Ok gd, r') => (Ok gd, set_r_group_descriptors (<[number := gd]> (r_group_descriptors r')) r')
      | (Err e, r') => (Err e, r')
      | (Panic, r') => (Panic, r')
      end
  end.
Proof.
  unfold get_group_descriptor, asks, mbind, R_bind. by destruct (r_group_descriptors r !! number).
Qed.

Lemma get_inode_eq number r :
  get_inode number r =
  match r_inodes r !! number with
  | Some inode => (Ok inode, r)
  | None =>
      match read_inode number r with
      | (Ok inode, r') => (Ok inode, set_r_inodes (<[number := inode]> (r_inodes r')) r')
      | (Err e, r') => (Err e, r')
      | (Panic, r') => (Panic, r')
      end
  end.
Proof. unfold get_inode, asks, mbind, R_bind. by destruct (r_inodes r !! number). Qed.

(** ** Loops

    A loop whose turns lower a measure below its fuel never reaches the bound:
    it ends the way its last turn ends. *)

Section Loops.
Context {S T : Type} (turn : S -> R (S + T)).
Context (I : Z -> S -> Reader -> Prop) (Q : res ReadError T -> Reader -> Prop).
Hypothesis Hnonneg : forall n s r, I n s r -> 0 <= n.

(** The outcome of [k] turns from a state of measure [n]. *)
Definition turn_ok (n k : Z) (out : res ReadError (S + T) * Reader) : Prop :=
  match out with
  | (Ok (inl s'), r') => exists n', n' + k <= n /\ I n' s' r'
  | (Ok (inr t), r') => Q (Ok t) r'
  | (Err e, r') => Q (Err e) r'
  | (Panic, r') => Q Panic r'
  end.

Hypothesis Hturn : forall n s r, I n s r -> turn_ok n 1 (turn s r).

Lemma turn_ok_bind n k k' (m : R (S + T)) (next : S -> R (S + T)) r :
  turn_ok n k (m r) -> (forall n' s' r', I n' s' r' -> turn_ok n' k' (next s' r')) ->
  turn_ok n (k + k') ((out ← m; match out with inl s' => next s' | inr t => mret (inr t) end) r).
Proof.
  intros Hm Hnext. unfold mbind, R_bind. destruct (m r) as [[[s'|t]|e|] r'] eqn:Em; simpl in *; [|done..].
  destruct Hm as (n' & Hn & HI). specialize (Hnext n' s' r' HI).
  destruct (next s' r') as [[[s''|t]|e|] r'']; simpl in *; [|done..].
  destruct Hnext as (n'' & Hn' & HI'). exists n''. split; [lia|done].
Qed.

Lemma turns_spec p : forall n s r, I n s r -> turn_ok n (Zpos p) (turns p turn s r).
Proof.
  induction p as [p IH|p IH|]; intros n s r HI; cbn [turns]; [| |by apply Hturn].
  - replace (Zpos p~1) with (1 + (Zpos p + Zpos p)) by lia.
    apply (turn_ok_bind n 1 _ (turn s) (fun s' => out ← turns p turn s';
             match out with inl s' => turns p turn s' | inr t => mret (inr t) end)); [by apply Hturn|].
    intros n' s' r' HI'. apply turn_ok_bind; [by apply IH|done].
  - replace (Zpos p~0) with (Zpos p + Zpos p) by lia. apply turn_ok_bind; [by apply IH|done].
Qed.

Lemma loop_spec fuel n s r : I n s r -> n < Zpos fuel -> Q (loop fuel turn s r).1 (loop fuel turn s r).2.
Proof.
  intros HI Hn. pose proof (turns_spec fuel n s r HI) as H. unfold loop, mbind, R_bind.
  destruct (turns fuel turn s r) as [[[s'|t]|e|] r'] eqn:Em; simpl in *; try done.
  destruct H as (n' & Hn' & HI'). apply Hnonneg in HI'. lia.
Qed.
End Loops.

(** A loop whose first turn panics panics. *)
Lemma loop_panics {S T} (turn : S -> R (S + T)) fuel s r r' : turn s r = (Panic, r') -> loop fuel turn s r = (Panic, r').
Proof.
  intros Ht. unfold loop, mbind, R_bind. assert (turns fuel turn s r = (Panic, r')) as ->; [|done].
  induction fuel as [p IH|p IH|]; cbn [turns]; unfold mbind, R_bind; by rewrite ?Ht, ?IH.
Qed.

(** The superblock of an image. *)
Definition superblock_of (f : File) : SuperBlock := SuperBlock_read_from (bytes_at f 1024 1024).

Section Image.
Context (f : File) (sb : SuperBlock).

(** ** The disk *)

(** [n] bytes at [off], with the error of a short read. *)
Definition disk_read (e : ReadError) (off n : Z) : res ReadError (list Z) :=
  if off <=? i64_max then
    if off + n <=? f_len f then Ok (bytes_at f off n) else Err e
  else Err (ReadIo InvalidInput).

Definition disk_group (number : Z) : res ReadError GroupDescriptor :=
  buf ← disk_read (CouldNotReadGroup number) (u64 (block_size sb + number * group_descriptor_size sb)) 32;
  Ok (GroupDescriptor_read_from (buf ++ zeros 32)).

Definition disk_inode (number : Z) : res ReadError Inode :=
  if sb_inodes_per_group sb =? 0 then Panic
  else
    gd ← disk_group (u32 (number - 1) / sb_inodes_per_group sb);
    buf ← disk_read (CouldNotReadInode number)
            (u64 (u64 (gd_inode_table_lo gd * block_size sb)
                  + u32 (number - 1) mod sb_inodes_per_group sb * sb_inode_size sb)) 256;
    Ok (Inode_read_from buf).

(** The directory entries in [n] consecutive blocks from byte [off], blocks
    counted from [k]. *)
Fixpoint disk_dir_blocks (phys_start off : Z) (ks : list Z) : res ReadError (list (list Z * Z)) :=
  match ks with
  | [] => Ok []
  | k :: ks =>
      _ ← vec_capacity (block_size sb);
      if off + block_size sb <=? f_len f then
        rest ← disk_dir_blocks phys_start (off + block_size sb) ks;
        Ok (parse_dir_entries (bytes_at f off (block_size sb)) ++ rest)
      else Err (CouldNotReadBlock (u32 (phys_start + k)))
  end.

Definition disk_dir_extent (extent : Z * Z) : res ReadError (list (list Z * Z)) :=
  let off := u64 (extent.1 * block_size sb) in
  if off <=? i64_max then disk_dir_blocks extent.1 off (seqZ 0 (u32 (extent.2 - extent.1)))
  else Err (ReadIo InvalidInput).

Definition disk_entries (number : Z) : res ReadError (list (list Z * Z)) :=
  inode ← disk_inode number;
  extents ← parse_extents inode (block_size sb) f;
  entries ← foldM (fun entries extent => here ← disk_dir_extent extent; Ok (entries ++ here)) [] extents;
  Ok (sort_by entry_cmp entries).

(** ** Readers of this image *)

(** The open file is the image at some position, and the caches hold what is
    on the disk. *)
Record on_image (r : Reader) : Prop := mk_on_image {
  oi_file : exists p, r_file r = seek f p;
  oi_superblock : r_superblock r = sb;
  oi_groups : forall n gd, r_group_descriptors r !! n = Some gd -> disk_group n = Ok gd;
  oi_inodes : forall n inode, r_inodes r !! n = Some inode -> disk_inode n = Ok inode
}.

(** Only the position and the caches change, and the caches only grow. *)
Record stays (r r' : Reader) : Prop := mk_stays {
  st_tree : r_tree r' = r_tree r;
  st_hardlinks : r_hardlinks r' = r_hardlinks r;
  st_inodes : r_inodes r ⊆ r_inodes r'
}.

Lemma stays_refl r : stays r r.
Proof. by constructor. Qed.
Lemma stays_trans r1 r2 r3 : stays r1 r2 -> stays r2 r3 -> stays r1 r3.
Proof. intros [] []. constructor; [congruence..|]. by etrans. Qed.

Definition answers {A} (m : R A) (v : res ReadError A) : Prop :=
  forall r, on_image r -> (m r).1 = v /\ on_image (m r).2 /\ stays r (m r).2.

(** The same for a program that starts and ends at known positions. *)
Definition answers_at {A} (p : Z) (m : R A) (v : res ReadError A) (q : Z) : Prop :=
  forall r, on_image r -> r_file r = seek f p ->
    (m r).1 = v /\ on_image (m r).2 /\ stays r (m r).2 /\ (is_ok v -> r_file (m r).2 = seek f q).

Section Rules.
Context {A B : Type}.
Implicit Types m : R A.
Implicit Types k : A -> R B.

Lemma answers_ret (a : A) : answers (mret a) (Ok a).
Proof. intros r Hr. split; [done|]. split; [done|apply stays_refl]. Qed.

Lemma answers_fail (e : ReadError) : answers (A := A) (fail e) (Err e).
Proof. intros r Hr. split; [done|]. split; [done|apply stays_refl]. Qed.

Lemma answers_pure (g : Reader -> res ReadError A) v :
  (forall r, on_image r -> g r = v) -> answers (pure g) v.
Proof. intros H r Hr. split; [by apply H|]. split; [done|apply stays_refl]. Qed.

Lemma answers_asks (g : Reader -> A) a : (forall r, on_image r -> g r = a) -> answers (asks g) (Ok a).
Proof. intros H r Hr. split; [simpl; by rewrite (H r Hr)|]. split; [done|apply stays_refl]. Qed.

Lemma answers_bind m k v w :
  answers m v -> (forall a, v = Ok a -> answers (k a) (w a)) -> answers (m ≫= k) (v ≫= w).
Proof.
  intros Hm Hk r Hr. destruct (Hm r Hr) as (Hv & Hr' & Hs). unfold mbind, R_bind, res_bind.
  destruct (m r) as [[a|e|] r'] eqn:Em; simpl in *; subst v; [|done..].
  destruct (Hk a eq_refl r' Hr') as (Hw & Hr'' & Hs'). split; [done|]. split; [done|]. by eapply stays_trans.
Qed.

Lemma answers_bind_ok m k a w : answers m (Ok a) -> answers (k a) w -> answers (m ≫= k) w.
Proof. intros Hm Hk. exact (answers_bind m k (Ok a) (fun _ => w) Hm ltac:(by intros ? [= <-])). Qed.

Lemma answers_eq m v w : answers m v -> v = w -> answers m w.
Proof. by intros H <-. Qed.

Lemma answers_at_any p q m v : answers_at p m v q -> answers (_ ← r_seek p; m) (if p <=? i64_max then v else Err (ReadIo InvalidInput)).
Proof.
  intros Hm r Hr. pose proof (oi_file r Hr) as [p0 Hp0]. unfold mbind, R_bind, r_seek, seek_start. rewrite Hp0.
  destruct (p <=? i64_max) eqn:Hle; [|split; [done|]; split; [done|apply stays_refl]].
  destruct (Hm (set_r_file (seek f p) r)) as (Hv & Hr' & Hs & _); [|done|].
  - destruct Hr. constructor; [by exists p|done..].
  - split; [done|]. split; [done|]. eapply stays_trans; [|exact Hs]. by constructor.
Qed.
End Rules.

Lemma answers_sb : answers (asks r_superblock) (Ok sb).
Proof. apply answers_asks. intros r Hr. apply Hr. Qed.

(** Reading at the position. *)
Lemma answers_at_read e p n :
  answers_at p (r_read_exact e n) (if p + n <=? f_len f then Ok (bytes_at f p n) else Err e) (p + n).
Proof.
  intros r Hr Hp. unfold r_read_exact, read_exact. rewrite Hp. cbn [f_pos f_len seek].
  destruct (p + n <=? f_len f); cbn [fst snd].
  - split; [done|]. split; [|split; [by constructor|done]]. destruct Hr. constructor; [by exists (p + n)|done..].
  - split; [done|]. split; [done|]. split; [apply stays_refl|done].
Qed.

Lemma answers_read e off n :
  answers (_ ← r_seek off; r_read_exact e n) (disk_read e off n).
Proof. apply (answers_at_any off (off + n)), answers_at_read. Qed.

Lemma answers_bind_seek {A B} off (m : R A) (k : A -> R B) v w :
  answers (_ ← r_seek off; m) v -> (forall a, v = Ok a -> answers (k a) (w a)) ->
  answers (_ ← r_seek off; m ≫= k) (v ≫= w).
Proof.
  intros Hm Hk r Hr. pose proof (answers_bind _ k v w Hm Hk r Hr) as H.
  assert ((_ ← r_seek off; m ≫= k) r = ((_ ← r_seek off; m) ≫= k) r) as ->; [|exact H].
  unfold mbind, R_bind. by destruct (r_seek off r) as [[[]|e|] r'].
Qed.

(** ** Group descriptors and inodes *)

Lemma answers_group number : answers (get_group_descriptor number) (disk_group number).
Proof.
  intros r Hr. rewrite get_group_eq. destruct (r_group_descriptors r !! number) as [gd|] eqn:Hc.
  { split; [symmetry; by eapply oi_groups|]. split; [done|apply stays_refl]. }
  assert (answers (read_group_descriptor number) (disk_group number)) as H.
  { unfold read_group_descriptor. eapply answers_bind_ok; [apply answers_sb|].
    apply answers_bind_seek; [apply answers_read|]. intros buf _. apply answers_ret. }
  destruct (H r Hr) as (Hv & Hr' & Hs).
  destruct (read_group_descriptor number r) as [[gd|e|] r'] eqn:Em; simpl in *; [|done..].
  split; [done|]. split; [|by destruct Hs; constructor].
  destruct Hr' as [Hf Hsb Hg Hi]. constructor; simpl; [done..| |done].
  intros n gd'. rewrite lookup_insert_Some. intros [[-> ->]|[_ ?]]; [done|by apply Hg].
Qed.

Lemma answers_inode number : answers (get_inode number) (disk_inode number).
Proof.
  intros r Hr. rewrite get_inode_eq. destruct (r_inodes r !! number) as [inode|] eqn:Hc.
  { split; [symmetry; by eapply oi_inodes|]. split; [done|apply stays_refl]. }
  assert (answers (read_inode number) (disk_inode number)) as H.
  { unfold read_inode, disk_inode. eapply answers_bind_ok; [apply answers_sb|].
    destruct (sb_inodes_per_group sb =? 0); [by apply answers_pure|].
    apply answers_bind; [apply answers_group|]. intros gd _.
    apply answers_bind_seek; [apply answers_read|]. intros buf _. apply answers_ret. }
  destruct (H r Hr) as (Hv & Hr' & Hs).
  destruct (read_inode number r) as [[inode|e|] r'] eqn:Em; simpl in *; [|done..].
  split; [done|]. destruct Hs as [Ht Hh Hsub]. split.
  - destruct Hr' as [Hf Hsb Hg Hi]. constructor; simpl; [done..|].
    intros n gd'. rewrite lookup_insert_Some. intros [[-> ->]|[_ ?]]; [done|by apply Hi].
  - constructor; simpl; [done..|]. etrans; [exact Hsub|].
    destruct (r_inodes r' !! number) as [inode'|] eqn:Hc'; [|by apply insert_subseteq].
    rewrite insert_id; [done|]. rewrite Hc'. f_equal.
    assert (Ok (E := ReadError) inode' = Ok inode) as [= ->]; [|done].
    by rewrite <- (oi_inodes r' Hr' _ _ Hc').
Qed.

(** ** Extents and directories *)

Lemma parse_extents_seek inode bs p : parse_extents inode bs (seek f p) = parse_extents inode bs f.
Proof.
  unfold parse_extents. repeat case_match; try done. unfold parse_depth1.
  generalize 12 as off. induction (Z.to_nat _) as [|n IH]; intros off; simpl; [done|].
  case_match; [done|]. by rewrite IH.
Qed.

Lemma answers_extents inode : answers (inode_extents inode) (parse_extents inode (block_size sb) f).
Proof.
  apply answers_pure. intros r [(p & ->) -> _ _]. apply parse_extents_seek.
Qed.

Lemma answers_at_bind {A B} p q q' (m : R A) (k : A -> R B) v w :
  answers_at p m v q -> (forall a, v = Ok a -> answers_at q (k a) (w a) q') ->
  answers_at p (m ≫= k) (v ≫= w) q'.
Proof.
  intros Hm Hk r Hr Hp. destruct (Hm r Hr Hp) as (Hv & Hr' & Hs & Hq). unfold mbind, R_bind, res_bind.
  destruct (m r) as [[a|e|] r'] eqn:Em; simpl in *; subst v; [|done..].
  destruct (Hk a eq_refl r' Hr' (Hq I)) as (Hw & Hr'' & Hs' & Hq'). split; [done|]. split; [done|].
  split; [by eapply stays_trans|done].
Qed.

(** A step that does not move. *)
Lemma answers_at_here {A} p (g : Reader -> res ReadError A) v :
  (forall r, on_image r -> g r = v) -> answers_at p (pure g) v p.
Proof. intros H r Hr Hp. split; [by apply H|]. split; [done|]. split; [apply stays_refl|done]. Qed.

Lemma answers_at_eq {A} p q (m : R A) v w : answers_at p m v q -> v = w -> answers_at p m w q.
Proof. by intros H <-. Qed.

Lemma answers_dir_blocks start ks : forall off entries,
  answers_at off
    (foldR (fun entries i =>
      _ ← pure (fun _ => vec_capacity (block_size sb));
      block_buf ← r_read_exact (CouldNotReadBlock (u32 (start + i))) (block_size sb);
      mret (entries ++ parse_dir_entries block_buf)) entries ks)
    (rest ← disk_dir_blocks start off ks; Ok (entries ++ rest)) (off + block_size sb * zlen ks).
Proof.
  induction ks as [|k ks IH]; intros off entries.
  - rewrite Z.mul_0_r, Z.add_0_r. cbn [foldR disk_dir_blocks mbind res_bind]. rewrite app_nil_r.
    by apply (answers_at_here off (fun _ => Ok entries)).
  - cbn [foldR disk_dir_blocks]. eapply answers_at_eq.
    + eapply answers_at_bind.
      * eapply answers_at_bind; [by apply answers_at_here|]. intros u _.
        eapply answers_at_bind; [apply answers_at_read|]. intros buf _.
        by apply (answers_at_here _ (fun _ => Ok (entries ++ parse_dir_entries buf))).
      * intros es _. replace (off + block_size sb * zlen (k :: ks)) with ((off + block_size sb) + block_size sb * zlen ks)
          by (rewrite zlen_cons; lia). apply IH.
    + unfold vec_capacity. destruct (block_size sb <=? i64_max); [|done]. cbn [mbind res_bind].
      destruct (off + block_size sb <=? f_len f); [|done]. cbn [mbind res_bind].
      destruct (disk_dir_blocks start (off + block_size sb) ks); [|done..]. cbn [mbind res_bind]. by rewrite app_assoc.
Qed.

Lemma seek_to_block_bind {A} b (k : unit -> R A) r :
  on_image r -> (seek_to_block b ≫= k) r = (r_seek (u64 (b * block_size sb)) ≫= k) r.
Proof. intros Hr. unfold seek_to_block, asks, mbind, R_bind. by rewrite (oi_superblock r Hr). Qed.

Lemma answers_dir_extent entries extent :
  answers (read_dir_extent entries extent) (here ← disk_dir_extent extent; Ok (entries ++ here)).
Proof.
  destruct extent as [s e]. unfold read_dir_extent. eapply answers_bind_ok; [apply answers_sb|].
  eapply answers_eq.
  - intros r Hr. rewrite seek_to_block_bind by done.
    exact (answers_at_any _ _ _ _ (answers_dir_blocks s (seqZ 0 (u32 (e - s))) (u64 (s * block_size sb)) entries) r Hr).
  - unfold disk_dir_extent. cbn [fst snd]. by case_match.
Qed.

Lemma answers_foldR {S A} (body : S -> A -> R S) (spec : S -> A -> res ReadError S) l : forall s,
  (forall s a, answers (body s a) (spec s a)) -> answers (foldR body s l) (foldM spec s l).
Proof.
  induction l as [|a l IH]; intros s H; simpl; [apply answers_ret|]. apply answers_bind; [apply H|].
  intros s' _. by apply IH.
Qed.

Lemma answers_entries number : answers (get_dir_entries number) (disk_entries number).
Proof.
  unfold get_dir_entries, disk_entries. apply answers_bind; [apply answers_inode|]. intros inode _.
  apply answers_bind; [apply answers_extents|]. intros extents _.
  apply answers_bind; [apply answers_foldR; intros; apply answers_dir_extent|]. intros es _. apply answers_ret.
Qed.

(** ** File contents *)

(** What the chunked loop reads from [p]: all that is there, up to [n] bytes. *)
Lemma answers_chunks p n out fuel :
  0 <= n < 2 ^ 64 -> n < Zpos fuel ->
  answers_at p (loop fuel chunk_turn (n, out))
    (Ok (out ++ bytes_at f p (Z.max 0 (Z.min n (f_len f - p)))))
    (p + Z.max 0 (Z.min n (f_len f - p))).
Proof.
  intros Hn Hfuel r0 Hr0 Hp0. set (avail := Z.max 0 (Z.min n (f_len f - p))).
  set (I := fun (m : Z) (st : Z * list Z) (r : Reader) =>
    on_image r /\ stays r0 r /\ m = st.1 /\ 0 <= m <= n /\ exists k, 0 <= k <= avail /\ n - k = m /\
      r_file r = seek f (p + k) /\ st.2 = out ++ bytes_at f p k).
  apply (loop_spec chunk_turn I (fun v r => v = Ok (out ++ bytes_at f p avail) /\ on_image r /\ stays r0 r /\
    (is_ok (Ok (E := ReadError) (out ++ bytes_at f p avail)) -> r_file r = seek f (p + avail))) ltac:(intros m st r (_ & _ & _ & ? & _); lia)) with n; [| |done].
  - intros m [rem o] r (Hr & Hs & -> & Hm & k & Hk & Hrem & Hf & Ho). cbn [fst snd] in *. unfold turn_ok, chunk_turn.
    destruct (Z.leb_spec rem 0) as [Hz|Hz].
    { assert (k = avail) as -> by lia. cbn [mret R_ret]. by subst o. }
    unfold mbind, R_bind, r_read, read_some. rewrite Hf. cbn [f_pos f_len seek].
    set (c := Z.max 0 (Z.min (Z.min rem 1048576) (f_len f - (p + k)))).
    change (bytes_at (seek f (p + k)) (p + k) c) with (bytes_at f (p + k) c).
    rewrite zlen_bytes_at by lia. assert (on_image (set_r_file (seek f (p + k + c)) r)) as Hr'.
    { destruct Hr. constructor; [by exists (p + k + c)|done..]. }
    assert (stays r0 (set_r_file (seek f (p + k + c)) r)) as Hs' by (destruct Hs; by constructor).
    destruct (Z.eqb_spec c 0) as [Hc|Hc]; cbn [mret R_ret].
    + assert (k = avail) as -> by lia. split; [by subst o|]. split; [done|]. split; [done|]. intros _.
      rewrite Hc, Z.add_0_r. done.
    + exists (rem - c). split; [lia|]. unfold I. cbn [fst snd]. rewrite u64_small by (unfold is_u64; lia).
      split; [done|]. split; [done|]. split; [done|]. split; [lia|]. exists (k + c). split; [lia|]. split; [lia|].
      split; [cbn; f_equal; lia|]. subst o. rewrite <- app_assoc. f_equal. rewrite <- bytes_at_app by lia. done.
  - unfold I. cbn. split; [done|]. split; [apply stays_refl|]. split; [done|]. split; [lia|]. exists 0.
    split; [lia|]. split; [lia|]. rewrite Z.add_0_r. split; [done|]. by rewrite app_nil_r.
Qed.

Lemma answers_seek_chunks off n out :
  0 <= n < 2 ^ 64 ->
  answers (_ ← r_seek off; loop (Z.to_pos (n + 1)) chunk_turn (n, out))
    (if off <=? i64_max then Ok (out ++ bytes_at f off (Z.max 0 (Z.min n (f_len f - off))))
     else Err (ReadIo InvalidInput)).
Proof.
  intros Hn. apply (answers_at_any off (off + Z.max 0 (Z.min n (f_len f - off)))).
  apply answers_chunks; [done|]. rewrite Z2Pos.id; lia.
Qed.

Lemma answers_if {A} (b : bool) (m1 m2 : R A) v1 v2 :
  answers m1 v1 -> answers m2 v2 -> answers (if b then m1 else m2) (if b then v1 else v2).
Proof. by destruct b. Qed.

(** ** Programs whose answer depends on the image only *)

Definition determined {A} (m : R A) : Prop := exists v, answers m v.

Lemma determined_bind {A B} (m : R A) (k : A -> R B) :
  determined m -> (forall a, determined (k a)) -> determined (m ≫= k).
Proof.
  intros [v Hv] Hk. destruct v as [a|e|].
  - destruct (Hk a) as [w Hw]. exists w. by eapply answers_bind_ok.
  - exists (Err e). apply (answers_bind m k (Err e) (fun _ => Panic) Hv). by intros.
  - exists Panic. apply (answers_bind m k Panic (fun _ => Panic) Hv). by intros.
Qed.

Lemma determined_ret {A} (a : A) : determined (mret a).
Proof. exists (Ok a). apply answers_ret. Qed.
Lemma determined_fail {A} e : determined (A := A) (fail e).
Proof. exists (Err e). apply answers_fail. Qed.
Lemma determined_const {A} (v : res ReadError A) : determined (pure (fun _ => v)).
Proof. exists v. by apply answers_pure. Qed.
Lemma determined_sb : determined (asks r_superblock).
Proof. exists (Ok sb). apply answers_sb. Qed.
Lemma determined_inode n : determined (get_inode n).
Proof. eexists. apply answers_inode. Qed.
Lemma determined_extents inode : determined (inode_extents inode).
Proof. eexists. apply answers_extents. Qed.
Lemma determined_entries n : determined (children_of n).
Proof. eexists. apply answers_entries. Qed.

Lemma determined_foldR {S A} (body : S -> A -> R S) l : forall s,
  (forall s a, determined (body s a)) -> determined (foldR body s l).
Proof.
  induction l as [|a l IH]; intros s H; simpl; [apply determined_ret|].
  apply determined_bind; [apply H|]. intros s'. by apply IH.
Qed.
End Image.

Create HintDb determined.
#[export] Hint Resolve determined_ret determined_fail determined_const determined_sb determined_inode
  determined_extents determined_entries : determined.

(** [determine] follows the structure of a program. *)
Ltac determine :=
  repeat first
    [ solve [eauto with determined]
    | apply determined_bind; [|intros]
    | apply determined_foldR; intros
    | match goal with
      | |- determined _ _ (match ?x with _ => _ end) => destruct x
      | |- determined _ _ (if ?x then _ else _) => destruct x
      end ].

Section Determined.
Context (f : File) (sb : SuperBlock).

Lemma on_image_opened p : on_image f sb (opened_reader (seek f p) sb).
Proof. constructor; simpl; [by exists p|done|by intros ? ?; rewrite lookup_empty..]. Qed.

Lemma determined_extent_turn bs start count st extent : determined f sb (extent_turn bs start count st extent).
Proof.
  unfold extent_turn. destruct st as [[logical out]|out]; [|determine]. destruct extent as [s e]. cbv zeta.
  case_match; [determine|]. case_match; [determine|]. case_match eqn:Hrem; [determine|].
  eexists. apply (answers_bind_seek f sb).
  - apply answers_seek_chunks, u64_range.
  - intros out' _. apply (answers_if f sb); apply answers_ret.
Qed.
Hint Resolve determined_extent_turn : determined.

Lemma determined_read_from_extents n start count : determined f sb (read_from_extents n start count).
Proof. unfold read_from_extents. determine. Qed.
Hint Resolve determined_read_from_extents : determined.

Lemma determined_target inode n : determined f sb (read_symlink_target inode n).
Proof. unfold read_symlink_target. determine. Qed.
Hint Resolve determined_target : determined.

Lemma determined_resolve path follow hops : forall comps current stack visited,
  determined f sb (resolve_from path follow hops comps current stack visited).
Proof.
  induction hops as [|hops IH]; intros comps; induction comps as [|name rest IHc]; intros current stack visited;
    cbn [resolve_from]; determine; auto.
Qed.

Lemma determined_stat path follow : determined f sb (resolve_path path follow).
Proof. apply determined_resolve. Qed.
End Determined.
