(* ===== verification/ReaderSample.v ===== *)
(** A small image to read: a root directory with a directory [d], a regular
    file [f], a symbolic link [l] to [d] and a symbolic link [m] to itself; [d]
    holds a hard link [g] to the file. *)

From stdpp Require Import strings gmap.
From S2P Require Import Prelude Bytes Types Errors Disk RustStr RustPath RustSort Dir FileTree Extent.
From S2P Require Import ImageReader ReaderFacts.

Open Scope list_scope.
Open Scope Z_scope.

(** 4096-byte blocks, 16 inodes in the only group. *)
Definition small_sb_bytes : list Z :=
  let buf := put_u32 (zeros 1024) 0x18 2 in
  let buf := put_u32 buf 0x28 16 in
  let buf := put_u16 buf 0x38 SUPERBLOCK_MAGIC in
  put_u16 buf 0x58 256.

Definition small_descriptor : list Z := put_u32 (zeros 32) 8 2.

(** An inode of one data block. *)
Definition one_block (mode size block : Z) : Inode :=
  let inode := set_file_size size (set_i_links_count 1 (set_i_mode mode Inode_default)) in
  match write_inline_extents (E := unit) inode 1
          (fill_extent_leaves_from_ranges [ {| br_start := block; br_end := block + 1 |} ]) 4096 with
  | Ok inode => inode
  | _ => inode
  end.

Definition fast_link (target : list Z) : Inode :=
  set_i_block (put_bytes (zeros 60) 0 target)
    (set_file_size (zlen target) (set_i_links_count 1 (set_i_mode S_IFLNK Inode_default))).

Definition directory (entries : list (list Z * Z * Z)) : list Z :=
  match foldM (fun st (e : list Z * Z * Z) =>
                 write_dir_entry (E := unit) e.1.1 e.1.2 e.2 None None 4096 st) ([], 4096) entries with
  | Ok st => match finish_dir_entry_block (E := unit) 4096 st with Ok (out, _) => out | _ => [] end
  | _ => []
  end.

Definition small_inodes : list Z :=
  fold_left (fun buf (e : Z * Inode) => put_bytes buf ((e.1 - 1) * 256) (Inode_write_to e.2 (zeros 256)))
    [(2, one_block S_IFDIR 4096 3); (11, one_block S_IFDIR 4096 4); (12, one_block S_IFREG 5 5);
     (13, fast_link [100]); (14, fast_link [109])] (zeros 4096).

Definition small_blocks : list (Z * list Z) :=
  [(0, put_bytes (zeros 4096) 1024 small_sb_bytes); (1, put_bytes (zeros 4096) 0 small_descriptor);
   (2, small_inodes);
   (3, directory [(DOT, 2, S_IFDIR); (DOTDOT, 2, S_IFDIR); ([109], 14, S_IFLNK); ([108], 13, S_IFLNK);
                  ([102], 12, S_IFREG); ([100], 11, S_IFDIR)]);
   (4, directory [(DOT, 11, S_IFDIR); (DOTDOT, 2, S_IFDIR); ([103], 12, S_IFREG)]);
   (5, put_bytes (zeros 4096) 0 [104; 101; 108; 108; 111])].

Definition small_image : File := block_image (6 * 4096) small_blocks.

Lemma small_image_bytes : byte_file small_image.
Proof. apply block_image_bytes. vm_compute. reflexivity. Qed.

(** ** What the examples use of the image *)

Definition small_path (names : list (list Z)) : list Z := concat (map (cons SLASH) names).

Definition equals {A} `{EqDecision A} (a b : A) : bool := bool_decide (a = b).

(** The file, its only extent, and the entries on the way to it. *)
Section Facts.
Context (f : File) (sb : SuperBlock).

Definition file_ok (v : res ReadError Inode) : bool :=
  match v with
  | Ok inode => equals (parse_extents inode 4096 f) (Ok [(5, 6)]) && (file_size inode =? 5) && is_reg (i_mode inode)
  | _ => false
  end.
Definition link_ok (v : res ReadError Inode) : bool :=
  match v with
  | Ok inode => is_link (i_mode inode) && equals (sub_bytes (i_block inode) 0 (file_size inode)) [100] && (file_size inode =? 1)
  | _ => false
  end.
Definition dir_ok (v : res ReadError Inode) : bool := match v with Ok inode => is_dir (i_mode inode) | _ => false end.
Definition entry_ok (v : res ReadError (list (list Z * Z))) (name : list Z) (ino : Z) : bool :=
  match v with Ok es => equals (find_entry name es) (Some ino) | _ => false end.
Definition unique_ok (v : res ReadError (list (list Z * Z))) : bool :=
  match v with Ok es => bool_decide (NoDup (map fst es)) | _ => true end.

Definition small_facts : bool :=
  let inode := disk_inode f sb in
  let entries := disk_entries f sb in
  equals (block_size sb) 4096 && equals (f_len f) 24576 &&
  dir_ok (inode 2) && dir_ok (inode 11) && file_ok (inode 12) && link_ok (inode 13) &&
  entry_ok (entries 2) [100] 11 && entry_ok (entries 2) [108] 13 && entry_ok (entries 11) [103] 12 &&
  forallb (fun n => unique_ok (entries n)) [2; 11; 12; 13; 14].

Record small_layout : Prop := mk_small_layout {
  sl_block_size : block_size sb = 4096;
  sl_len : f_len f = 24576;
  sl_root : exists inode, disk_inode f sb 2 = Ok inode /\ is_dir (i_mode inode) = true;
  sl_dir : exists inode, disk_inode f sb 11 = Ok inode /\ is_dir (i_mode inode) = true;
  sl_file : exists inode, disk_inode f sb 12 = Ok inode /\ parse_extents inode 4096 f = Ok [(5, 6)] /\
    file_size inode = 5 /\ is_reg (i_mode inode) = true;
  sl_link : exists inode, disk_inode f sb 13 = Ok inode /\ is_link (i_mode inode) = true /\
    sub_bytes (i_block inode) 0 (file_size inode) = [100] /\ file_size inode = 1;
  sl_root_entries : exists es, disk_entries f sb 2 = Ok es /\ find_entry [100] es = Some 11 /\ find_entry [108] es = Some 13;
  sl_dir_entries : exists es, disk_entries f sb 11 = Ok es /\ find_entry [103] es = Some 12;
  sl_unique : forall n es, n ∈ [2; 11; 12; 13; 14] -> disk_entries f sb n = Ok es -> NoDup (map fst es)
}.

Lemma small_facts_layout : small_facts = true -> small_layout.
Proof.
  unfold small_facts, equals. cbv zeta. rewrite !andb_true_iff, !bool_decide_eq_true, forallb_forall.
  unfold dir_ok, file_ok, link_ok, entry_ok, equals. intros (((((((((Hb & Hl) & H2) & H11) & H12) & H13) & He2) & He2') & He11) & Hu).
  assert (forall n es, n ∈ [2; 11; 12; 13; 14] -> disk_entries f sb n = Ok es -> NoDup (map fst es)) as Huniq.
  { intros n es Hn Hes. apply list_elem_of_In, Hu in Hn. rewrite Hes in Hn. by apply bool_decide_eq_true in Hn. }
  destruct (disk_inode f sb 2) as [i2| |] eqn:E2; [|done..]. destruct (disk_inode f sb 11) as [i11| |] eqn:E11; [|done..].
  destruct (disk_inode f sb 12) as [i12| |] eqn:E12; [|done..]. destruct (disk_inode f sb 13) as [i13| |] eqn:E13; [|done..].
  destruct (disk_entries f sb 2) as [e2| |] eqn:F2; [|done..]. destruct (disk_entries f sb 11) as [e11| |] eqn:F11; [|done..].
  rewrite !andb_true_iff, bool_decide_eq_true, Z.eqb_eq in H12, H13. rewrite bool_decide_eq_true in He2, He2', He11.
  destruct H12 as ((? & ?) & ?), H13 as ((? & ?) & ?).
  constructor; [done|done|by exists i2|by exists i11|by exists i12|by exists i13|by exists e2|by exists e11|done].
Qed.
End Facts.

Lemma small_disk : small_layout small_image (superblock_of small_image).
Proof. apply small_facts_layout. vm_compute. reflexivity. Qed.

(** The image opens, and its tree has five nodes and one hard link. *)
Record small_tree (r : Reader) : Prop := mk_small_tree {
  sm_nodes : map (fun n => (n_name n, n_inode n)) (nodes (r_tree r)) =
    [(DOT, 2); ([100], 11); ([102], 12); ([108], 13); ([109], 14)];
  sm_links : map_to_list (r_hardlinks r) = [([100; 47; 103], 12)];
  sm_lookup : lookup (E := ReadError) (r_tree r) (abs_path [[100]]) = Ok (Some 1%nat)
}.

Lemma small_opens : exists r, Reader_new [] (Some small_image) = Ok r /\ small_tree r.
Proof.
  assert (match Reader_new [] (Some small_image) with
    | Ok r => equals (map (fun n => (n_name n, n_inode n)) (nodes (r_tree r)))
        [(DOT, 2); ([100], 11); ([102], 12); ([108], 13); ([109], 14)] &&
        equals (map_to_list (r_hardlinks r)) [([100; 47; 103], 12)] &&
        equals (lookup (E := ReadError) (r_tree r) (abs_path [[100]])) (Ok (Some 1%nat))
    | _ => false end = true) as H by (vm_compute; reflexivity).
  destruct (Reader_new [] (Some small_image)) as [r| |]; [|done..]. unfold equals in H.
  rewrite !andb_true_iff, !bool_decide_eq_true in H. destruct H as ((? & ?) & ?). by exists r.
Qed.
