(* ===== verification/CloseReads.v ===== *)
(** The finished image through the reader: superblock, descriptors, inodes and
    bitmaps of an image that [close] has written. *)

From stdpp Require Import gmap.
From S2P Require Import Prelude Bytes Types Checksum Layout Errors Disk Tables FileTree Extent.
From S2P Require Import Geometry Flex Formatter Payload Close CloseBitmaps CloseWrites ClosePrimary ClosePlan CloseImage.
From S2P Require Import ImageReader ReaderFacts.

(** ** Sums *)

Lemma sum_groups_ext h h' n : (forall g, 0 <= g < n -> h g = h' g) -> sum_groups h n = sum_groups h' n.
Proof. intros H. unfold sum_groups. f_equal. apply map_ext_in. intros g Hg%list_elem_of_In%elem_of_seqZ. apply H. lia. Qed.

Lemma sum_groups_split h a b : 0 <= a -> 0 <= b -> sum_groups h (a + b) = sum_groups h a + sum_groups (fun i => h (a + i)) b.
Proof.
  intros Ha Hb. unfold sum_groups. rewrite seqZ_app, map_app, zsum_app by lia. f_equal. f_equal.
  rewrite Z.add_0_l. unfold seqZ. rewrite !map_map. apply map_ext. intros i. f_equal. lia.
Qed.

Lemma sum_groups_rest h c n : 0 <= n -> sum_groups (fun g => c - h g) n = n * c - sum_groups h n.
Proof.
  intros Hn. pattern n. apply Zlt_0_ind; [|done]. clear n Hn. intros n IH Hn. destruct (Z.eq_dec n 0) as [->|].
  - done.
  - replace n with (n - 1 + 1) by lia. rewrite !sum_groups_next, IH by lia. lia.
Qed.

Lemma count_prefix k : 0 <= k <= GROUP -> count (fun o => o <? k) 0 GROUP = k.
Proof.
  intros Hk. replace GROUP with (k + (GROUP - k)) by lia. rewrite count_split by lia.
  rewrite (count_ext _ (fun _ => true)), count_true by lia.
  rewrite (count_ext _ (fun _ => false)), count_false by lia. lia.
Qed.

(** ** The image *)

(** A successful [close] has planned a layout and written all of it. *)
Lemma write_image_inv s s' :
  ready s -> write_image s = (Ok tt, s') ->
  exists pl s1 gaps gt sb table, plan_made s pl s1 /\ laid_out s pl s1 /\ imaged s pl gaps gt sb table s' /\
    fl_gd_area_blocks (pn_layout pl) <= pn_allocated pl /\
    (forall b, in_ranges gaps b <-> pn_metadata_start pl <= b < fl_inode_table_offset (pn_layout pl) /\
      b / 32768 < fl_total_groups (pn_layout pl) /\ ~ static_block (fl_total_groups (pn_layout pl)) (fl_gd_area_blocks (pn_layout pl)) b).
Proof.
  intros Hrd Hrun. destruct (plan_layout_spec s Hrd) as (pl & s1 & Hplan & Hmade).
  pose proof (layout_spec s pl s1 Hrd Hmade) as Hlaid.
  destruct (Z_lt_le_dec (pn_allocated pl) (fl_gd_area_blocks (pn_layout pl))) as [Hlt|Hle].
  - exfalso. revert Hrun. unfold write_image. rewrite (run_bind _ _ _ _ _ Hplan). cbv zeta.
    destruct (lo_size _ _ _ Hlaid) as [-> Hs].
    destruct (resize_image_spec (fl_total_groups (pn_layout pl) * 134217728) s1 Hs) as (s2 & R2 & _). rewrite (run_bind _ _ _ _ _ R2).
    replace (pn_allocated pl <? fl_gd_area_blocks (pn_layout pl)) with true by lia. done.
  - destruct (write_image_spec s pl s1 Hrd Hmade Hplan Hle) as (gaps & gt & sb & table & s2 & Hrun' & Him & Hgaps).
    rewrite Hrun' in Hrun. injection Hrun as <-. exists pl, s1, gaps, gt, sb, table. done.
Qed.

(** A block in use under the planned layout: static metadata, the data before
    [start] or the metadata run, and not freed; in a group without data, its
    metadata. *)
Definition in_use (L : FlexMetadataLayout) (start ipg : Z) (deleted : list BlockRange) (b : Z) : bool :=
  if b / GROUP <? fl_block_groups L then
    (reserved_block (fl_gd_area_blocks L) b || (b <? start) || ((fl_inode_table_offset L <=? b) && (b <? fl_data_size L)))
    && negb (existsb (in_range b) deleted)
  else b mod GROUP <? (if has_sparse_super (b / GROUP) then 1 + fl_gd_area_blocks L else 0) + ipg / 16 + 2.

(** The blocks a descriptor names: its two bitmaps and its [table] blocks of
    inodes. *)
Definition names (table b : Z) (gd : GroupDescriptor) : bool :=
  (b =? gd_block_bitmap_lo gd) || (b =? gd_inode_bitmap_lo gd) ||
  ((gd_inode_table_lo gd <=? b) && (b <? gd_inode_table_lo gd + table)).

(** A group that holds data has its bitmaps and inode table initialised. *)
Definition holds_data (gds : list GroupDescriptor) (g : Z) : bool :=
  match gds !! Z.to_nat g with Some gd => gd_flags gd =? 0 | None => false end.

(** A block in use by what the image itself says: the superblock copies and
    descriptor areas of [area] blocks, the blocks before [start], the blocks
    some descriptor names; in the groups that hold data the deleted blocks are
    free. *)
Definition image_use (area start table : Z) (gds : list GroupDescriptor) (deleted : list BlockRange) (b : Z) : bool :=
  (reserved_block area b || (b <? start) || existsb (names table b) gds)
  && negb (holds_data gds (b / GROUP) && existsb (in_range b) deleted).

(** The bitmaps a descriptor points at hold exactly the blocks and inodes in
    use, and its counters agree with them. *)
Record group_exact (s : Formatter) (used : Z -> bool) (ipg g : Z) (gd : GroupDescriptor) : Prop := {
  ge_blocks : bitmap_is (fun o => used (g * GROUP + o)) (block_at s (gd_block_bitmap_lo gd));
  ge_free_blocks : gd_free_blocks_count_lo gd = GROUP - count (fun o => used (g * GROUP + o)) 0 GROUP;
  ge_inodes : bitmap_is (fun i => (ipg <=? i) || slot_used (fm_inodes s) (slot g ipg i)) (block_at s (gd_inode_bitmap_lo gd));
  ge_free_inodes : gd_free_inodes_count_lo gd = ipg - count (fun i => slot_used (fm_inodes s) (slot g ipg i)) 0 ipg
}.

Lemma stamped_exact s used ipg g uuid n gd :
  group_exact s used ipg g gd -> group_exact s used ipg g (stamp_descriptor uuid n gd).
Proof.
  intros [E1 E2 E3 E4]. unfold stamp_descriptor. set (c := group_descriptor _ _ _). clearbody c.
  assert (gd_block_bitmap_lo (set_gd_checksum c gd) = gd_block_bitmap_lo gd /\
    gd_inode_bitmap_lo (set_gd_checksum c gd) = gd_inode_bitmap_lo gd /\
    gd_free_blocks_count_lo (set_gd_checksum c gd) = gd_free_blocks_count_lo gd /\
    gd_free_inodes_count_lo (set_gd_checksum c gd) = gd_free_inodes_count_lo gd) as (F1 & F2 & F3 & F4) by (by destruct gd).
  rewrite <- F1 in E1. rewrite <- F2 in E3. rewrite <- F3 in E2. rewrite <- F4 in E4.
  exact (Build_group_exact _ _ _ _ _ E1 E2 E3 E4).
Qed.

Lemma group_exact_ext s used used' ipg g gd :
  (forall o, 0 <= o < GROUP -> used (g * GROUP + o) = used' (g * GROUP + o)) ->
  group_exact s used ipg g gd -> group_exact s used' ipg g gd.
Proof.
  intros H [E1 E2 E3 E4]. apply Build_group_exact; [exact (bitmap_is_ext _ _ _ H E1)| |done|done].
  rewrite E2. f_equal. by apply count_ext.
Qed.

Lemma stamped_names table b uuid n gd : names table b (stamp_descriptor uuid n gd) = names table b gd.
Proof. unfold stamp_descriptor. set (c := group_descriptor _ _ _). clearbody c. by destruct gd. Qed.

Lemma stamped_flags uuid n gd : gd_flags (stamp_descriptor uuid n gd) = gd_flags gd.
Proof. unfold stamp_descriptor. set (c := group_descriptor _ _ _). clearbody c. by destruct gd. Qed.

(** The counters of a group's descriptor on disk. *)
Definition group_free_blocks (f : File) (sb : SuperBlock) (g : Z) : Z :=
  match disk_group f sb g with Ok gd => gd_free_blocks_count_lo gd | _ => 0 end.
Definition group_free_inodes (f : File) (sb : SuperBlock) (g : Z) : Z :=
  match disk_group f sb g with Ok gd => gd_free_inodes_count_lo gd | _ => 0 end.

Section Read.
Context (s : Formatter) (pl : Plan) (s1 : Formatter) (gaps : list BlockRange) (gt : GroupTotals) (sb : SuperBlock)
  (table : list Z) (s' : Formatter).
Hypothesis (Hplan : plan_made s pl s1).
Hypothesis (Hlaid : laid_out s pl s1).
Hypothesis (Him : imaged s pl gaps gt sb table s').

Abbreviation L := (pn_layout pl).
Abbreviation ipg := (pn_inodes_per_group pl).
Abbreviation bg := (fl_block_groups L).
Abbreviation total := (fl_total_groups L).
Abbreviation f := (fm_file s').

(** The numbers the reader takes from the superblock. *)
Lemma superblock_facts :
  superblock_of f = sb /\ block_size sb = 4096 /\ group_descriptor_size sb = 32 /\ sb_inodes_per_group sb = ipg /\
  sb_inode_size sb = 256.
Proof.
  destruct (mi_superblock _ _ _ _ _ _ _ Him) as (name & journal & E & Hwf & Hb). split.
  - unfold superblock_of. rewrite Hb. by apply SuperBlock_read_write.
  - rewrite E. by vm_compute.
Qed.

Lemma descriptor_lookup g : 0 <= g < total -> exists gd, gt_descriptors gt !! Z.to_nat g = Some gd.
Proof.
  intros Hg. apply lookup_lt_is_Some_2. pose proof (gc_descriptors _ _ _ _ _ (mi_groups _ _ _ _ _ _ _ Him)). unfold zlen in *. lia.
Qed.

Lemma disk_group_spec g gd :
  gt_descriptors gt !! Z.to_nat g = Some gd -> 0 <= g ->
  disk_group f sb g = Ok (stamp_descriptor (fm_uuid s) (Z.to_nat g) gd).
Proof.
  intros Hg Hg0. destruct superblock_facts as (_ & Hbs & Hds & _). unfold disk_group, disk_read. rewrite Hbs, Hds.
  pose proof (gc_descriptors _ _ _ _ _ (mi_groups _ _ _ _ _ _ _ Him)) as Hz. apply lookup_lt_Some in Hg as Hlt. unfold zlen in Hz.
  destruct (mi_table _ _ _ _ _ _ _ Him) as [Hzt Hb]. pose proof (mi_length _ _ _ _ _ _ _ Him) as Hlen.
  destruct Hlaid as [Hgr _ _ _ _ _ Hgdt _]. unfold MAX_GROUPS in *.
  rewrite u64_small by (unfold_ranges; lia). replace (4096 + g * 32 <=? i64_max) with true by (unfold i64_max; lia).
  replace (4096 + g * 32 + 32 <=? f_len f) with true by lia. cbn [mbind res_bind]. f_equal.
  rewrite <- (mi_descriptors _ _ _ _ _ _ _ Him _ _ Hg). rewrite Z2Nat.id by lia.
  rewrite read_at_sub by (change (rec_size GroupDescriptor) with 32; lia). change (rec_size GroupDescriptor) with 32.
  rewrite <- Hb, sub_bytes_at by lia. replace (4096 + 32 * g) with (4096 + g * 32) by lia.
  set (bs := bytes_at f (4096 + g * 32) 32). assert (zlen bs = 32) as Hbl by (apply zlen_bytes_at; lia).
  change (read_from (A := GroupDescriptor) (bs ++ zeros 32) = read_from bs). rewrite read_from_local by (rewrite zlen_app, Hbl; done).
  done.
Qed.

(** Every inode reads back. *)
Lemma disk_inode_spec n inode :
  fm_inodes s' !! Z.to_nat (n - 1) = Some inode -> 1 <= n -> disk_inode f sb n = Ok inode.
Proof.
  intros Hi Hn. destruct superblock_facts as (_ & Hbs & _ & Hipg & His). unfold disk_inode. rewrite Hipg, Hbs, His.
  destruct Hlaid as [Hgr Hin Htab Hend _ _ _ _]. destruct (ipg_bounds ipg (pm_ipg _ _ _ Hplan)) as [Hib _].
  pose proof (mi_groups _ _ _ _ _ _ _ Him) as G. destruct (mi_resize _ _ _ _ _ _ _ Him) as (t & Ht & _).
  assert (zlen (fm_inodes s') = zlen (fm_inodes s)) as Hz by (rewrite Ht; unfold zlen; by rewrite length_insert).
  apply lookup_lt_Some in Hi as Hlt. assert (n <= zlen (fm_inodes s)) as Hle by (unfold zlen in *; lia).
  replace (ipg =? 0) with false by lia. rewrite (u32_small (n - 1)) by (unfold_ranges; lia).
  set (g := (n - 1) / ipg). set (i := (n - 1) mod ipg).
  assert (n - 1 = ipg * g + i /\ 0 <= i < ipg) as [Hdm Him'] by (split; [apply Z.div_mod|apply Z.mod_pos_bound]; lia).
  assert (0 <= g < bg) as Hg by (unfold g; split; [apply Z.div_pos|apply Z.div_lt_upper_bound]; lia).
  destruct (descriptor_lookup g ltac:(lia)) as [gd Hgd]. rewrite (disk_group_spec g gd Hgd ltac:(lia)). cbn [mbind res_bind].
  pose proof (gc_data _ _ _ _ _ G (Z.to_nat g) gd Hgd ltac:(lia)) as Dg. rewrite Z2Nat.id in Dg by lia.
  replace (gd_inode_table_lo (stamp_descriptor (fm_uuid s) (Z.to_nat g) gd)) with (gd_inode_table_lo gd) by (by destruct gd).
  rewrite (dg_inode_table _ _ _ _ _ _ _ _ _ _ Dg). destruct (table_blocks ipg (pm_ipg _ _ _ Hplan)) as (_ & Hb16 & Htb).
  assert ((fl_inode_table_offset L + g * (ipg / 16)) * 4096 + i * 256 = fl_inode_table_offset L * 4096 + 256 * (n - 1)) as Haddr.
  { replace ((fl_inode_table_offset L + g * (ipg / 16)) * 4096) with (fl_inode_table_offset L * 4096 + g * (ipg / 16 * 4096)) by ring.
    rewrite Htb, Hdm. ring. }
  pose proof (pm_dind _ _ _ Hplan). unfold DATA_LIMIT in *.
  assert (0 <= g * (ipg / 16)) by (apply Z.mul_nonneg_nonneg; lia).
  rewrite (u64_small (_ * 4096)) by (unfold_ranges; lia). rewrite u64_small by (unfold_ranges; lia). rewrite Haddr.
  unfold disk_read. replace (_ <=? i64_max) with true by (unfold i64_max; lia).
  pose proof (gc_length _ _ _ _ _ G). replace (_ <=? f_len f) with true by (unfold zlen in *; lia). cbn [mbind res_bind]. f_equal.
  pose proof (gc_inodes _ _ _ _ _ G _ _ Hi) as Hr. rewrite Z2Nat.id in Hr by lia. exact Hr.
Qed.

(** *** Bitmaps *)

Hypothesis (Hgaps : forall b, in_ranges gaps b <-> pn_metadata_start pl <= b < fl_inode_table_offset L /\
  b / 32768 < total /\ ~ static_block total (fl_gd_area_blocks L) b).

Abbreviation used_block := (in_use L (pn_metadata_start pl) ipg (fm_deleted_blocks s')).
Abbreviation used_inode := (slot_used (fm_inodes s')).

Lemma static_reserved area b : 0 <= b / 32768 < total -> static_block total area b <-> reserved_block area b = true.
Proof. intros Hb. unfold static_block, reserved_block. rewrite andb_true_iff, Z.ltb_lt. tauto. Qed.

Lemma gaps_spec b :
  0 <= b / 32768 < total ->
  existsb (in_range b) gaps =
    ((pn_metadata_start pl <=? b) && (b <? fl_inode_table_offset L) && negb (reserved_block (fl_gd_area_blocks L) b)).
Proof.
  intros Hb. apply eq_true_iff_eq. rewrite existsb_exists, !andb_true_iff, negb_true_iff, Z.leb_le, Z.ltb_lt.
  transitivity (in_ranges gaps b).
  - unfold in_ranges, in_range. split; intros (r & Hr%list_elem_of_In & Hin); exists r; (split; [done|]); lia.
  - rewrite Hgaps, static_reserved, not_true_iff_false by done. intuition lia.
Qed.

(** The bit the builder computes for a block of a data group. *)
Lemma data_block_used g o :
  0 <= g < bg -> 0 <= o < GROUP ->
  group_block_used L (fm_deleted_blocks s' ++ gaps) s' g o = used_block (g * GROUP + o).
Proof.
  intros Hg Ho. destruct Hlaid as [Hgr Hin Htab Hend Hclear [Harea _] _ _].
  assert ((g * GROUP + o) / GROUP = g) as Hdiv by (apply (group_of g o); done).
  unfold group_block_used, block_used, in_use. rewrite (mi_size _ _ _ _ _ _ _ Him), <- Harea, Hdiv.
  replace (g <? bg) with true by lia. rewrite existsb_app, gaps_spec by (change 32768 with GROUP; rewrite Hdiv; lia).
  pose proof (pm_dind _ _ _ Hplan) as Hd. set (b := g * GROUP + o) in *.
  destruct (reserved_block (fl_gd_area_blocks L) b) eqn:Er; cbn [orb negb andb]; [by rewrite orb_true_r, andb_false_r, orb_false_r|].
  rewrite orb_false_r. destruct (existsb (in_range b) (fm_deleted_blocks s')); [by rewrite !andb_false_r|].
  cbn [orb negb]. rewrite !andb_true_r.
  destruct (Z.ltb_spec b (pn_metadata_start pl)), (Z.leb_spec (fl_inode_table_offset L) b), (Z.ltb_spec b (fl_data_size L)),
    (Z.leb_spec (pn_metadata_start pl) b), (Z.ltb_spec b (fl_inode_table_offset L)); cbn; try done; lia.
Qed.

Lemma data_group_exact g gd :
  0 <= g < bg -> data_group L (fm_deleted_blocks s' ++ gaps) ipg (fl_bitmap_offset L) (fl_inode_table_offset L) (ipg / 16) s' s' g gd ->
  group_exact s' used_block ipg g gd.
Proof.
  intros Hg [_ B1 I1 _ F1 F2 _ _ _ M1 M2]. rewrite <- B1 in M1. rewrite <- I1 in M2.
  apply Build_group_exact.
  - refine (bitmap_is_ext _ _ _ _ M1). intros o Ho. by apply data_block_used.
  - rewrite F1. f_equal. apply count_ext. intros o Ho. by apply data_block_used.
  - refine (bitmap_is_ext _ _ _ _ M2). intros i Hi. unfold group_slot_used.
    destruct (Z.ltb_spec i ipg), (Z.leb_spec ipg i); [lia|done|done|lia].
  - exact F2.
Qed.

Lemma extra_group_exact g gd :
  bg <= g < total -> extra_group total ipg (ipg / 16) s' s' g gd -> group_exact s' used_block ipg g gd.
Proof.
  intros Hg [_ B1 I1 _ F1 F2 _ _ _ M1 M2]. destruct Hlaid as [Hgr Hin Htab Hend Hclear Harea _ _].
  destruct (ipg_bounds ipg (pm_ipg _ _ _ Hplan)) as [Hib _]. rewrite <- B1 in M1. rewrite <- I1 in M2.
  destruct (table_blocks ipg (pm_ipg _ _ _ Hplan)) as (_ & Hb16 & _).
  assert (extra_used (ipg / 16) s' g = (if has_sparse_super g then 1 + fl_gd_area_blocks L else 0) + ipg / 16 + 2) as Hx.
  { unfold extra_used, static_of. by rewrite (mi_size _ _ _ _ _ _ _ Him), <- (proj1 Harea). }
  assert (forall o, 0 <= o < GROUP -> (o <? extra_used (ipg / 16) s' g) = used_block (g * GROUP + o)) as Hu.
  { intros o Ho. unfold in_use, GROUP in *. destruct (group_of g o Ho) as [-> ->]. rewrite Hx.
    by replace (g <? bg) with false by lia. }
  assert (forall i, 0 <= i < ipg -> slot_used (fm_inodes s') (slot g ipg i) = false) as Hs.
  { intros i Hi. unfold slot_used, slot. destruct (mi_resize _ _ _ _ _ _ _ Him) as (t & Ht & _).
    rewrite lookup_ge_None_2; [done|]. rewrite Ht, length_insert. unfold zlen in Hin.
    assert (bg * ipg <= g * ipg) by (apply Z.mul_le_mono_nonneg_r; lia). lia. }
  apply Build_group_exact.
  - exact (bitmap_is_ext _ _ _ Hu M1).
  - rewrite F1. f_equal. rewrite <- (count_ext _ _ _ _ Hu), count_prefix; [done|].
    rewrite Hx. unfold GROUP. destruct (has_sparse_super g); lia.
  - refine (bitmap_is_ext _ _ _ _ M2). intros i Hi. destruct (Z.leb_spec ipg i); [done|]. cbn [orb]. by rewrite Hs by lia.
  - rewrite F2, (count_ext _ (fun _ => false)), count_false by (intros i Hi; apply Hs; lia). lia.
Qed.

Lemma group_exact_spec g gd :
  gt_descriptors gt !! Z.to_nat g = Some gd -> 0 <= g < total -> group_exact s' used_block ipg g gd.
Proof.
  intros Hgd Hg. pose proof (mi_groups _ _ _ _ _ _ _ Him) as G. destruct (Z_lt_le_dec g bg) as [Hlt|Hge].
  - apply data_group_exact; [lia|]. pose proof (gc_data _ _ _ _ _ G _ _ Hgd ltac:(lia)) as Dg. by rewrite Z2Nat.id in Dg by lia.
  - apply extra_group_exact; [lia|]. pose proof (gc_extra _ _ _ _ _ G _ _ Hgd ltac:(lia)) as Dg. by rewrite Z2Nat.id in Dg by lia.
Qed.

(** *** The blocks in use, from the descriptors *)

Abbreviation descriptors := (imap (stamp_descriptor (fm_uuid s)) (gt_descriptors gt)).

Lemma named_exists b : existsb (names (ipg / 16) b) descriptors = true <->
  exists g gd, 0 <= g < total /\ gt_descriptors gt !! Z.to_nat g = Some gd /\ names (ipg / 16) b gd = true.
Proof.
  pose proof (gc_descriptors _ _ _ _ _ (mi_groups _ _ _ _ _ _ _ Him)) as Hz. unfold zlen in Hz.
  rewrite existsb_exists. split.
  - intros (d & (i & Hi)%list_elem_of_In%list_elem_of_lookup & Hn). rewrite list_lookup_imap in Hi.
    destruct (gt_descriptors gt !! i) as [gd|] eqn:Hg; [|done]. injection Hi as <-. rewrite stamped_names in Hn.
    apply lookup_lt_Some in Hg as Hlt. exists (Z.of_nat i), gd. rewrite Nat2Z.id. split; [lia|done].
  - intros (g & gd & _ & Hg & Hn). exists (stamp_descriptor (fm_uuid s) (Z.to_nat g) gd). rewrite stamped_names. split; [|done].
    apply list_elem_of_In, (list_elem_of_lookup_2 _ (Z.to_nat g)). by rewrite list_lookup_imap, Hg.
Qed.

(** The descriptors of the groups with data name the metadata run. *)
Lemma names_data g gd b : gt_descriptors gt !! Z.to_nat g = Some gd -> 0 <= g < bg ->
  names (ipg / 16) b gd = true <->
  fl_bitmap_offset L + 2 * g <= b < fl_bitmap_offset L + 2 * g + 2 \/
  fl_inode_table_offset L + g * (ipg / 16) <= b < fl_inode_table_offset L + (g + 1) * (ipg / 16).
Proof.
  intros Hgd Hg. pose proof (gc_data _ _ _ _ _ (mi_groups _ _ _ _ _ _ _ Him) _ _ Hgd ltac:(lia)) as [_ B1 I1 T1 _ _ _ _ _ _ _].
  rewrite Z2Nat.id in B1, I1, T1 by lia. unfold names. rewrite B1, I1, T1. rewrite Z.mul_add_distr_r. lia.
Qed.

(** The descriptor of a group without data names the blocks behind the static
    ones of its group. *)
Lemma names_extra g gd b : gt_descriptors gt !! Z.to_nat g = Some gd -> bg <= g ->
  names (ipg / 16) b gd = true <-> g * GROUP + static_of s' g <= b < g * GROUP + extra_used (ipg / 16) s' g.
Proof.
  intros Hgd Hg. destruct (lo_groups _ _ _ Hlaid) as [Hgr _].
  pose proof (gc_extra _ _ _ _ _ (mi_groups _ _ _ _ _ _ _ Him) _ _ Hgd ltac:(lia)) as [_ B1 I1 T1 _ _ _ _ _ _ _].
  destruct (table_blocks ipg (pm_ipg _ _ _ Hplan)) as (_ & Hb16 & _).
  rewrite Z2Nat.id in B1, I1, T1 by lia. unfold names. rewrite B1, I1, T1. unfold extra_bitmaps, extra_used. lia.
Qed.

(** Together they name the run; nothing else below the groups without data. *)
Lemma named_data b : 0 <= b / GROUP < bg ->
  existsb (names (ipg / 16) b) descriptors = ((fl_inode_table_offset L <=? b) && (b <? fl_data_size L)).
Proof.
  intros Hb. apply eq_true_iff_eq. rewrite named_exists, andb_true_iff, Z.leb_le, Z.ltb_lt.
  destruct Hlaid as [Hgr _ (_ & Hbo & _) (Hend & Hfit & _) _ _ _ _].
  destruct (table_blocks ipg (pm_ipg _ _ _ Hplan)) as (_ & Hb16 & _). set (tb := ipg / 16) in *. split.
  - intros (g & gd & Hg & Hgd & Hn). destruct (Z_lt_le_dec g bg) as [Hlt|Hge].
    + apply (names_data g gd b Hgd ltac:(lia)) in Hn. fold tb in Hn.
      assert (0 <= g * tb /\ (g + 1) * tb <= bg * tb) by (split; [lia|apply Z.mul_le_mono_nonneg_r; lia]). lia.
    + exfalso. apply (names_extra g gd b Hgd Hge) in Hn. pose proof (static_of_bounds s' g).
      assert (b / GROUP < bg) as Hd by lia. pose proof (Z.div_mod b GROUP ltac:(done)). pose proof (Z.mod_pos_bound b GROUP ltac:(done)).
      unfold GROUP in *. lia.
  - intros [H1 H2]. destruct (Z_lt_le_dec b (fl_bitmap_offset L)) as [Hlt|Hge].
    + pose proof (Z.div_mod (b - fl_inode_table_offset L) tb ltac:(lia)). pose proof (Z.mod_pos_bound (b - fl_inode_table_offset L) tb ltac:(lia)).
      set (g := (b - fl_inode_table_offset L) / tb) in *.
      assert (0 <= g) by (apply Z.div_pos; lia). assert (g < bg) by (apply Z.div_lt_upper_bound; lia).
      destruct (descriptor_lookup g ltac:(lia)) as [gd Hgd]. exists g, gd. split; [lia|]. split; [done|].
      apply (names_data g gd b Hgd ltac:(lia)). fold tb. rewrite Z.mul_add_distr_r. lia.
    + pose proof (Z.div_mod (b - fl_bitmap_offset L) 2 ltac:(lia)). pose proof (Z.mod_pos_bound (b - fl_bitmap_offset L) 2 ltac:(lia)).
      set (g := (b - fl_bitmap_offset L) / 2) in *. destruct (descriptor_lookup g ltac:(lia)) as [gd Hgd].
      exists g, gd. split; [lia|]. split; [done|]. apply (names_data g gd b Hgd ltac:(lia)). lia.
Qed.

Lemma named_extra b : bg <= b / GROUP < total ->
  existsb (names (ipg / 16) b) descriptors = ((static_of s' (b / GROUP) <=? b mod GROUP) && (b mod GROUP <? extra_used (ipg / 16) s' (b / GROUP))).
Proof.
  intros Hb. apply eq_true_iff_eq. rewrite named_exists, andb_true_iff, Z.leb_le, Z.ltb_lt.
  destruct Hlaid as [Hgr _ (_ & Hbo & _) (Hend & Hfit & _) _ _ _ _].
  destruct (table_blocks ipg (pm_ipg _ _ _ Hplan)) as (_ & Hb16 & _).
  pose proof (Z.div_mod b GROUP ltac:(done)) as Hdm. pose proof (Z.mod_pos_bound b GROUP ltac:(done)) as Hm. split.
  - intros (g & gd & Hg & Hgd & Hn). destruct (Z_lt_le_dec g bg) as [Hlt|Hge].
    + exfalso. apply (names_data g gd b Hgd ltac:(lia)) in Hn.
      assert (0 <= g * (ipg / 16) /\ (g + 1) * (ipg / 16) <= bg * (ipg / 16)) by (split; [lia|apply Z.mul_le_mono_nonneg_r; lia]).
      unfold GROUP in *. lia.
    + apply (names_extra g gd b Hgd Hge) in Hn. pose proof (static_of_bounds s' g).
      assert (g = b / GROUP) as -> by (unfold extra_used, GROUP in *; lia). lia.
  - intros [H1 H2]. destruct (descriptor_lookup (b / GROUP) ltac:(lia)) as [gd Hgd]. exists (b / GROUP), gd.
    split; [lia|]. split; [done|]. apply (names_extra _ gd b Hgd ltac:(lia)). lia.
Qed.

Lemma holds_data_spec g : 0 <= g < total -> holds_data descriptors g = (g <? bg).
Proof.
  intros Hg. unfold holds_data. rewrite list_lookup_imap. destruct (descriptor_lookup g Hg) as [gd Hgd]. rewrite Hgd. cbn [fmap option_fmap option_map].
  rewrite stamped_flags. pose proof (mi_groups _ _ _ _ _ _ _ Him) as G. destruct (Z.ltb_spec g bg).
  - by rewrite (dg_flags _ _ _ _ _ _ _ _ _ _ (gc_data _ _ _ _ _ G _ _ Hgd ltac:(lia))).
  - rewrite (eg_flags _ _ _ _ _ _ _ (gc_extra _ _ _ _ _ G _ _ Hgd ltac:(lia))). by case_match.
Qed.

(** The plan and the descriptors agree on the blocks in use. *)
Lemma image_use_spec b : 0 <= b / GROUP < total ->
  used_block b = image_use (fl_gd_area_blocks L) (pn_metadata_start pl) (ipg / 16) descriptors (fm_deleted_blocks s') b.
Proof.
  intros Hb. unfold in_use, image_use. rewrite holds_data_spec by done. destruct (Z.ltb_spec (b / GROUP) bg) as [Hlt|Hge].
  - by rewrite named_data by lia.
  - rewrite named_extra, andb_true_r by lia. destruct Hlaid as [Hgr _ Htab Hend _ [Harea _] _ _].
    pose proof (pm_dind _ _ _ Hplan) as Hd. pose proof (Z.div_mod b GROUP ltac:(done)). pose proof (Z.mod_pos_bound b GROUP ltac:(done)).
    replace (b <? pn_metadata_start pl) with false by (unfold GROUP in *; lia). rewrite orb_false_r.
    unfold reserved_block. change 32768 with GROUP. unfold extra_used, static_of. rewrite (mi_size _ _ _ _ _ _ _ Him), <- Harea.
    destruct (table_blocks ipg (pm_ipg _ _ _ Hplan)) as (_ & Hb16 & _). destruct (has_sparse_super (b / GROUP)); cbn [andb orb]; lia.
Qed.

(** What the descriptors name is neither reserved nor payload. *)
Lemma named_apart b : 0 <= b / GROUP < total -> existsb (names (ipg / 16) b) descriptors = true ->
  reserved_block (fl_gd_area_blocks L) b = false /\ pn_metadata_start pl <= b.
Proof.
  intros Hb. destruct Hlaid as [Hgr _ Htab Hend Hclear [Harea _] _ _]. pose proof (pm_dind _ _ _ Hplan) as Hd.
  destruct (Z_lt_le_dec (b / GROUP) bg) as [Hlt|Hge].
  - rewrite named_data by lia. intros Hn. split; [apply Hclear|]; lia.
  - rewrite named_extra by lia. unfold static_of. rewrite (mi_size _ _ _ _ _ _ _ Him), <- Harea. intros Hn.
    pose proof (Z.div_mod b GROUP ltac:(done)). pose proof (Z.mod_pos_bound b GROUP ltac:(done)). split; [|unfold GROUP in *; lia].
    unfold reserved_block. change 32768 with GROUP. destruct (has_sparse_super (b / GROUP)); [lia|done].
Qed.

(** *** Totals *)

Abbreviation blocks_in g := (count (fun o => used_block (g * GROUP + o)) 0 GROUP).
Abbreviation inodes_in g := (count (fun i => used_inode (slot g ipg i)) 0 ipg).

Lemma used_totals :
  gt_used_blocks gt = sum_groups (fun g => blocks_in g) total /\ gt_used_inodes gt = sum_groups (fun g => inodes_in g) total.
Proof.
  pose proof (mi_groups _ _ _ _ _ _ _ Him) as G. destruct (lo_groups _ _ _ Hlaid) as [Hgr _].
  assert (forall i, 0 <= i < total - bg -> extra_used (ipg / 16) s' (bg + i) = blocks_in (bg + i) /\ 0 = inodes_in (bg + i)) as Hx.
  { intros i Hi. destruct (descriptor_lookup (bg + i) ltac:(lia)) as [gd Hgd].
    pose proof (group_exact_spec _ _ Hgd ltac:(lia)) as [_ E1 _ E2].
    pose proof (gc_extra _ _ _ _ _ G _ _ Hgd ltac:(lia)) as [_ _ _ _ F1 F2 _ _ _ _ _]. rewrite Z2Nat.id in F1 by lia. lia. }
  replace total with (bg + (total - bg)) by lia. rewrite !sum_groups_split by lia. split.
  - rewrite (gc_blocks _ _ _ _ _ G). f_equal; apply sum_groups_ext; intros g Hg; [|by apply Hx].
    apply count_ext. intros o Ho. apply data_block_used; lia.
  - rewrite (gc_used _ _ _ _ _ G), <- (sum_groups_ext (fun _ => 0) (fun i => inodes_in (bg + i))) by (intros; by apply Hx).
    rewrite <- (Z.add_0_r (sum_groups _ bg)) at 1. f_equal. symmetry.
    pose proof (sum_groups_bounds (fun _ => 0) (total - bg) 0 ltac:(lia) ltac:(lia)). lia.
Qed.

Lemma superblock_totals :
  sb_blocks_count_lo sb = total * GROUP /\ sb_inodes_count sb = total * ipg /\
  sb_free_blocks_count_lo sb = sum_groups (group_free_blocks f sb) total /\
  sb_free_inodes_count sb = sum_groups (group_free_inodes f sb) total.
Proof.
  destruct used_totals as [Hub Hui]. destruct (lo_groups _ _ _ Hlaid) as [Hgr [Hmax _]]. unfold MAX_GROUPS in *.
  destruct (ipg_bounds ipg (pm_ipg _ _ _ Hplan)) as [Hib _].
  assert (sum_groups (group_free_blocks f sb) total = total * GROUP - gt_used_blocks gt /\
    sum_groups (group_free_inodes f sb) total = total * ipg - gt_used_inodes gt) as [-> ->].
  { rewrite Hub, Hui, <- !sum_groups_rest by lia. split; apply sum_groups_ext; intros g Hg;
      destruct (descriptor_lookup g Hg) as [gd Hgd]; unfold group_free_blocks, group_free_inodes;
      rewrite (disk_group_spec g gd Hgd ltac:(lia)); destruct (group_exact_spec g gd Hgd Hg) as [_ E1 _ E2];
      [rewrite <- E1|rewrite <- E2]; by destruct gd. }
  assert (0 <= gt_used_blocks gt <= total * GROUP) as B1.
  { rewrite Hub. apply sum_groups_bounds; [lia|]. intros g _. apply count_bounds. unfold GROUP. lia. }
  assert (0 <= gt_used_inodes gt <= total * ipg) as B2.
  { rewrite Hui. apply sum_groups_bounds; [lia|]. intros g _. apply count_bounds. lia. }
  assert (0 <= total * ipg <= 131071 * 32768) as B3 by (split; [|apply Z.mul_le_mono_nonneg]; lia).
  destruct (mi_superblock _ _ _ _ _ _ _ Him) as (name & journal & -> & _).
  unfold GROUP in *. cbn [final_superblock sb_blocks_count_lo sb_inodes_count sb_free_blocks_count_lo sb_free_inodes_count].
  change (blocks_per_group BLOCK_SIZE) with 32768. rewrite Z.max_l by lia. unfold saturating_sub.
  rewrite Z.max_r, !u32_small by (rewrite ?u32_small; unfold_ranges; lia). done.
Qed.
End Read.

(** ** Properties *)

(** What [close] does once the directories are written ends in one of two
    ways.  It succeeds when the descriptor area of the finished image is the
    one the payload left room for; otherwise it fails with
    [InsufficientSpaceForGroupDescriptorBlocks].  It never panics, and the
    image never shrinks. *)
Theorem image_outcome (s : Formatter) (Hready : ready s) :
  exists s', fm_size s <= fm_size s' <= MAX_IMAGE /\
    write_image s =
      (if group_descriptor_blocks BLOCK_SIZE (fm_size s) =? group_descriptor_blocks BLOCK_SIZE (fm_size s')
       then Ok tt else Err InsufficientSpaceForGroupDescriptorBlocks, s').
Proof.
  destruct (plan_layout_spec s Hready) as (pl & s1 & Hplan & Hmade).
  pose proof (layout_spec s pl s1 Hready Hmade) as Hlaid. pose proof (pm_size _ _ _ Hmade) as Hsz.
  pose proof (pm_allocated _ _ _ Hmade) as Hal. pose proof Hlaid as [Hgr _ _ _ _ [Harea _] _ [Hbytes Hs]].
  pose proof (rd_size _ Hready) as Hs0. set (size := fl_total_groups (pn_layout pl) * 134217728) in *.
  assert (size <= MAX_IMAGE) as Hmax by (unfold size, MAX_IMAGE; lia).
  pose proof (area_mono (fm_size s) size ltac:(lia) Hmax) as Hmono.
  destruct (Z_lt_le_dec (pn_allocated pl) (fl_gd_area_blocks (pn_layout pl))) as [Hlt|Hle].
  - destruct (resize_image_spec size s1 Hs) as (s2 & R2 & Z2 & _). exists s2. rewrite Z2. split; [lia|].
    replace (_ =? _) with false by lia. unfold write_image. rewrite (run_bind _ _ _ _ _ Hplan). cbv zeta.
    rewrite Hbytes, (run_bind _ _ _ _ _ R2). by replace (pn_allocated pl <? _) with true by lia.
  - destruct (write_image_spec s pl s1 Hready Hmade Hplan Hle) as (gaps & gt & sb & table & s2 & Hrun & Him & _).
    exists s2. rewrite (mi_size _ _ _ _ _ _ _ Him). fold size. split; [lia|].
    replace (_ =? _) with true by lia. done.
Qed.

(** Every inode of the builder reads back from the finished image: the reader
    finds it through the superblock and the descriptor of its group, in the slot
    of its number. *)
Theorem image_inodes_read_back (s s' : Formatter) (n : Z) (inode : Inode)
    (Hready : ready s) (Hrun : write_image s = (Ok tt, s'))
    (Hn : 1 <= n) (Hinode : fm_inodes s' !! Z.to_nat (n - 1) = Some inode) :
  disk_inode (fm_file s') (superblock_of (fm_file s')) n = Ok inode.
Proof.
  destruct (write_image_inv s s' Hready Hrun) as (pl & s1 & gaps & gt & sb & table & Hmade & Hlaid & Him & _ & _).
  destruct (superblock_facts _ _ _ _ _ _ _ Him) as [-> _].
  by apply (disk_inode_spec s pl s1 gaps gt sb table s' Hmade Hlaid Him).
Qed.

(** Writing the metadata spares the payload: no byte below the position of
    the builder changes, outside the superblock copies and descriptor areas. *)
Theorem image_keeps_payload (s s' : Formatter) (x : Z)
    (Hready : ready s) (Hrun : write_image s = (Ok tt, s'))
    (Hx : 0 <= x < fpos s)
    (Hfree : reserved_block (group_descriptor_blocks BLOCK_SIZE (fm_size s')) (x / 4096) = false) :
  f_data (fm_file s') x = f_data (fm_file s) x.
Proof.
  destruct (write_image_inv s s' Hready Hrun) as (pl & s1 & gaps & gt & sb & table & Hmade & Hlaid & Him & _ & _).
  pose proof (pm_dind _ _ _ Hmade) as Hd. destruct Hlaid as [Hgr _ Htab Hend _ [Harea _] _ _].
  rewrite (mi_size _ _ _ _ _ _ _ Him), <- Harea in Hfree.
  assert (0 <= x / 4096 < pn_dind_block pl) as Hb by (split; [apply Z.div_pos|apply Z.div_lt_upper_bound]; lia).
  assert (x / 4096 / GROUP < fl_block_groups (pn_layout pl)) as Hg by (apply Z.div_lt_upper_bound; unfold GROUP in *; lia).
  apply (mi_data _ _ _ _ _ _ _ Him).
  - assert (x < fl_block_groups (pn_layout pl) * 134217728) by (unfold GROUP in *; lia). lia.
  - intros [H|[H|[H|H]]]; [congruence|lia|lia|lia].
Qed.

(** The bitmaps of the finished image are exact. *)
Theorem image_bitmaps_exact (s s' : Formatter) (Hready : ready s) (Hrun : write_image s = (Ok tt, s'))
    (sb := superblock_of (fm_file s')) (table := sb_inodes_per_group sb / 16)
    (area := group_descriptor_blocks BLOCK_SIZE (fm_size s')) (start := dind_pos s / 4096 + 1) :
  exists gds, zlen gds * 134217728 = fm_size s' /\
    (forall g gd, gds !! g = Some gd -> disk_group (fm_file s') sb (Z.of_nat g) = Ok gd /\
      group_exact s' (image_use area start table gds (fm_deleted_blocks s)) (sb_inodes_per_group sb) (Z.of_nat g) gd) /\
    (forall b, 0 <= b < fm_size s' / 4096 -> existsb (names table b) gds = true -> reserved_block area b = false /\ start <= b).
Proof.
  destruct (write_image_inv s s' Hready Hrun) as (pl & s1 & gaps & gt & sb' & tbl & Hmade & Hlaid & Him & _ & Hgaps).
  destruct (superblock_facts _ _ _ _ _ _ _ Him) as (Hsb & _ & _ & Hipg & _). subst sb table area start. rewrite Hsb, Hipg.
  pose proof (mi_size _ _ _ _ _ _ _ Him) as Hsize. pose proof (pm_dind _ _ _ Hmade) as (_ & Hst & _ & _ & Hdp). rewrite <- Hdp, Hst, Hsize.
  destruct (lo_area _ _ _ Hlaid) as [<- _]. destruct (mi_state _ _ _ _ _ _ _ Him) as (_ & _ & <- & _).
  pose proof (gc_descriptors _ _ _ _ _ (mi_groups _ _ _ _ _ _ _ Him)) as Hz.
  exists (imap (stamp_descriptor (fm_uuid s)) (gt_descriptors gt)). split; [unfold zlen in *; rewrite length_imap; lia|]. split.
  - intros g d Hd. rewrite list_lookup_imap in Hd. destruct (gt_descriptors gt !! g) as [gd|] eqn:Hg; [|done]. injection Hd as <-.
    apply lookup_lt_Some in Hg as Hlt. unfold zlen in Hz. rewrite <- (Nat2Z.id g) in Hg. split.
    + rewrite <- (Nat2Z.id g) at 2. apply (disk_group_spec s pl s1 gaps gt sb' tbl s' Hlaid Him); [done|lia].
    + apply stamped_exact. refine (group_exact_ext _ _ _ _ _ _ _ (group_exact_spec s pl s1 gaps gt sb' tbl s' Hmade Hlaid Him Hgaps _ gd Hg ltac:(lia))).
      intros o Ho. apply (image_use_spec s pl s1 gaps gt sb' tbl s' Hmade Hlaid Him). unfold GROUP in *. destruct (group_of (Z.of_nat g) o Ho) as [-> _]. lia.
  - intros b Hb. apply (named_apart s pl s1 gaps gt sb' tbl s' Hmade Hlaid Him).
    split; [apply Z.div_pos|apply Z.div_lt_upper_bound]; unfold GROUP; try lia.
    assert (fl_total_groups (pn_layout pl) * 134217728 / 4096 = fl_total_groups (pn_layout pl) * 32768) as E.
    { replace (fl_total_groups (pn_layout pl) * 134217728) with (fl_total_groups (pn_layout pl) * 32768 * 4096) by lia. by apply Z.div_mul. }
    lia.
Qed.

(** The books of the finished image balance: the superblock's counts of
    blocks and inodes cover all groups, and its free counts are the sums of the
    free counts of the descriptors. *)
Theorem image_counts_agree (s s' : Formatter) (Hready : ready s) (Hrun : write_image s = (Ok tt, s'))
    (sb := superblock_of (fm_file s')) (groups := fm_size s' / 134217728) :
  sb_blocks_count_lo sb * 4096 = fm_size s' /\ sb_inodes_count sb = groups * sb_inodes_per_group sb /\
  sb_free_blocks_count_lo sb = sum_groups (group_free_blocks (fm_file s') sb) groups /\
  sb_free_inodes_count sb = sum_groups (group_free_inodes (fm_file s') sb) groups.
Proof.
  destruct (write_image_inv s s' Hready Hrun) as (pl & s1 & gaps & gt & sb' & table & Hmade & Hlaid & Him & _ & Hgaps).
  destruct (superblock_facts _ _ _ _ _ _ _ Him) as (Hsb & _ & _ & Hipg & _). unfold sb, groups. rewrite Hsb, Hipg.
  rewrite (mi_size _ _ _ _ _ _ _ Him), Z.div_mul by lia.
  destruct (superblock_totals s pl s1 gaps gt sb' table s' Hmade Hlaid Him Hgaps) as (H1 & H2 & H3 & H4).
  rewrite H1. unfold GROUP. split; [lia|]. done.
Qed.
