(* ===== verification/ReaderTree.v ===== *)
(** Opening an image: the traversal ends, never panics on a sane superblock,
    and leaves a tree that mirrors the directories on the disk. *)

From stdpp Require Import gmap.
From S2P Require Import Prelude Bytes Types Errors Disk RustStr RustPath RustSort Dir FileTree Extent.
From S2P Require Import ImageReader ReaderFacts ReaderSample.

(** ** Entries of a directory *)

Lemma parse_entries_u32 fuel data : forall off name ino,
  Forall is_u8 data -> 0 <= off -> (name, ino) ∈ parse_dir_entries_from fuel data off -> is_u32 ino /\ ino <> 0.
Proof.
  induction fuel as [|fuel IH]; intros off name ino Hb Hoff Hin; cbn [parse_dir_entries_from] in Hin; [by apply elem_of_nil in Hin|].
  destruct (Z.leb_spec (off + 8) (zlen data)) as [Hle|]; [|by apply elem_of_nil in Hin].
  assert (DirectoryEntry_wf (DirectoryEntry_read_from (drop (Z.to_nat off) data))) as (Hi & Hrec & _).
  { apply entry_read_range; [by apply Forall_drop|]. unfold zlen in *. rewrite length_drop. lia. }
  set (e := DirectoryEntry_read_from _) in *. destruct (de_rec_len e =? 0); [by apply elem_of_nil in Hin|].
  assert (forall name ino, (name, ino) ∈ parse_dir_entries_from fuel data (off + de_rec_len e) -> is_u32 ino /\ ino <> 0) as Hrest.
  { intros nm i. apply IH; [done|]. unfold is_u16 in Hrec. lia. }
  destruct (Z.eqb_spec (de_inode e) 0); cbn [negb andb] in Hin; [by eapply Hrest|].
  destruct (0 <? de_name_len e); [|by eapply Hrest]. case_match; [|by eapply Hrest].
  apply elem_of_cons in Hin as [[= -> ->]|Hin]; [done|by eapply Hrest].
Qed.

Section Image.
Context (f : File) (sb : SuperBlock) (Hf : byte_file f).

Lemma dir_blocks_u32 start ks : forall off es name ino,
  disk_dir_blocks f sb start off ks = Ok es -> (name, ino) ∈ es -> is_u32 ino /\ ino <> 0.
Proof.
  induction ks as [|k ks IH]; intros off es name ino He Hin; cbn [disk_dir_blocks] in He.
  - injection He as <-. by apply elem_of_nil in Hin.
  - apply res_bind_ok in He as (? & _ & He). case_match; [|done]. apply res_bind_ok in He as (rest & Hr & [= <-]).
    apply elem_of_app in Hin as [Hin|Hin]; [|by eapply IH].
    apply (parse_entries_u32 _ _ 0 name ino (byte_file_at f off (block_size sb) Hf)) in Hin; [done|lia].
Qed.

(** Every entry names an inode by a 32-bit number that is not zero. *)
Lemma disk_entries_u32 n es name ino :
  disk_entries f sb n = Ok es -> (name, ino) ∈ es -> is_u32 ino /\ ino <> 0.
Proof.
  unfold disk_entries. intros He Hin. apply res_bind_ok in He as (inode & _ & He).
  apply res_bind_ok in He as (rs & _ & He). apply res_bind_ok in He as (all & Hall & [= <-]).
  rewrite sort_by_perm in Hin. revert Hin.
  refine (foldM_ind _ (fun _ all => (name, ino) ∈ all -> is_u32 ino /\ ino <> 0) [] rs all _ _ Hall).
  - intros H. by apply elem_of_nil in H.
  - intros _ ext s1 s2 IH Hs. apply res_bind_ok in Hs as (here & Hh & [= <-]). intros [?|Hin]%elem_of_app; [by apply IH|].
    unfold disk_dir_extent in Hh. case_match; [|done]. by eapply dir_blocks_u32.
Qed.

(** ** No panics *)

Context (Hipg : sb_inodes_per_group sb <> 0) (Hbs : 12 <= block_size sb <= i64_max).

Lemma np_disk_read e off n : disk_read f e off n <> Panic.
Proof. unfold disk_read. by repeat case_match. Qed.

Lemma np_disk_inode n : disk_inode f sb n <> Panic.
Proof.
  unfold disk_inode. apply Z.eqb_neq in Hipg as ->. apply np_bind.
  - apply np_bind; [apply np_disk_read|done].
  - intros gd _. apply np_bind; [apply np_disk_read|done].
Qed.

Lemma np_disk_entries n : disk_entries f sb n <> Panic.
Proof.
  unfold disk_entries. apply np_bind; [apply np_disk_inode|]. intros inode _.
  apply np_bind; [by apply np_parse_extents|]. intros rs _. apply np_bind; [|done].
  apply (np_foldM (fun _ => True)); [done|]. intros s [a b] _ _. split; [|done]. apply np_bind; [|done].
  unfold disk_dir_extent. case_match; [|done]. cbn [fst snd]. generalize (u64 (a * block_size sb)) as off.
  induction (seqZ 0 (u32 (b - a))) as [|k ks IH]; intros off; cbn [disk_dir_blocks]; [done|].
  rewrite vec_capacity_small by lia. cbn [mbind res_bind]. case_match; [|done]. apply np_bind; [apply IH|done].
Qed.

(** ** The mirror *)

Definition plain (name : list Z) : Prop := name <> DOT /\ name <> DOTDOT.

(** The key under which the entry [name] of the directory at [names] is
    recorded as a hard link. *)
Definition link_key (names : list (list Z)) (name : list Z) : list Z :=
  trim_start_dot_slash (trim_start_slash
    (from_utf8_lossy (path_push (fold_left path_push (DOT :: names) []) name))).

(** The blocks of a node are the extents of its inode. *)
Definition recorded (n : FileTreeNode) : Prop :=
  exists inode rs, disk_inode f sb (n_inode n) = Ok inode /\ parse_extents inode (block_size sb) f = Ok rs /\
    n_blocks n = option_map to_range (head rs) /\ n_additional_blocks n = map to_range (drop 1 rs).

(** An entry of the directory at node [i] is a child of it or a recorded hard link. *)
Definition present (r : Reader) (i : nat) (name : list Z) (ino : Z) : Prop :=
  (exists c cn, child_of (r_tree r) i c /\ nodes (r_tree r) !! c = Some cn /\ n_name cn = name /\ n_inode cn = ino) \/
  (exists names, walk (r_tree r) (root (r_tree r)) names i /\ is_Some (r_hardlinks r !! link_key names name)).

Definition is_directory (ino : Z) : Prop :=
  exists inode, disk_inode f sb ino = Ok inode /\ is_dir (i_mode inode) = true.

(** The tree of [r] mirrors the disk, but for the directories in [queue]. *)
Record mirrors (r : Reader) (queue : Queue) : Prop := mk_mirrors {
  mi_wf : tree_wf (r_tree r);
  mi_root : exists n, nodes (r_tree r) !! 0%nat = Some n /\ n_inode n = ROOT_INODE /\ n_name n = DOT;
  mi_walk : forall i n, nodes (r_tree r) !! i = Some n -> exists names, walk (r_tree r) (root (r_tree r)) names i;
  mi_entry : forall p c pn cn, child_of (r_tree r) p c ->
    nodes (r_tree r) !! p = Some pn -> nodes (r_tree r) !! c = Some cn ->
    exists es, disk_entries f sb (n_inode pn) = Ok es /\ (n_name cn, n_inode cn) ∈ es /\ plain (n_name cn);
  mi_recorded : forall i n, nodes (r_tree r) !! i = Some n -> i <> 0%nat -> recorded n;
  mi_cached : forall i n, nodes (r_tree r) !! i = Some n -> i <> 0%nat -> is_Some (r_inodes r !! n_inode n);
  mi_distinct : forall i j n m, nodes (r_tree r) !! i = Some n -> nodes (r_tree r) !! j = Some m ->
    n_inode n = n_inode m -> i = j;
  mi_links : forall key ino, r_hardlinks r !! key = Some ino ->
    exists i n names name es, nodes (r_tree r) !! i = Some n /\ walk (r_tree r) (root (r_tree r)) names i /\
      disk_entries f sb (n_inode n) = Ok es /\ (name, ino) ∈ es /\ plain name /\ key = link_key names name;
  mi_dirs : forall p c pn, child_of (r_tree r) p c -> nodes (r_tree r) !! p = Some pn ->
    p = 0%nat \/ is_directory (n_inode pn);
  mi_queue : forall i ino, (i, ino) ∈ queue ->
    (exists n, nodes (r_tree r) !! i = Some n /\ n_inode n = ino) /\ (i = 0%nat \/ is_directory ino);
  mi_done : forall i n, nodes (r_tree r) !! i = Some n -> (i, n_inode n) ∉ queue ->
    i = 0%nat \/ is_directory (n_inode n) ->
    exists es, disk_entries f sb (n_inode n) = Ok es /\
      forall name ino, (name, ino) ∈ es -> plain name -> present r i name ino
}.

Lemma mirrors_stays r r' queue : mirrors r queue -> stays r r' -> mirrors r' queue.
Proof.
  intros [] [Ht Hh Hi]. constructor; rewrite ?Ht; try done.
  - intros i n Hn H0. destruct (mi_cached0 i n Hn H0) as [x Hx]. exists x. by eapply lookup_weaken.
  - by rewrite Hh.
  - unfold present. by rewrite Ht, Hh.
Qed.

Lemma hardlink_key_walk r queue names i name :
  mirrors r queue -> walk (r_tree r) (root (r_tree r)) names i ->
  hardlink_key (r_tree r) i name = Ok (link_key names name).
Proof.
  intros Hm Hw. unfold hardlink_key, node_path. destruct (mi_root _ _ Hm) as (n0 & Hn0 & _ & Hdot).
  destruct (walk_valid _ _ _ _ Hw (root_valid _ (mi_wf _ _ Hm))) as (n & Hn). apply lookup_lt_Some in Hn.
  rewrite (node_parts_walk _ (mi_wf _ _ Hm) names) by (done || lia). cbn [mbind res_bind].
  assert (root_name (r_tree r) = DOT) as ->; [|by rewrite app_nil_r].
  unfold root_name. destruct (wf_root _ (mi_wf _ _ Hm)) as [-> _]. by rewrite Hn0.
Qed.

(** A further name of an inode already seen. *)
Lemma mirrors_link r queue p pn names es name ino :
  mirrors r queue -> nodes (r_tree r) !! p = Some pn -> walk (r_tree r) (root (r_tree r)) names p ->
  disk_entries f sb (n_inode pn) = Ok es -> (name, ino) ∈ es -> plain name ->
  let r' := set_r_hardlinks (<[link_key names name := ino]> (r_hardlinks r)) r in
  mirrors r' queue /\ present r' p name ino /\ forall i nm x, present r i nm x -> present r' i nm x.
Proof.
  intros Hm Hp Hw Hes Hin Hpl r'.
  assert (forall i nm x, present r i nm x -> present r' i nm x) as Hmono.
  { intros i nm x [H|(ns & Hns & Hk)]; [by left|]. right. exists ns. split; [done|]. cbn [r' set_r_hardlinks r_hardlinks].
    destruct (decide (link_key ns nm = link_key names name)) as [->|Hne]; [by rewrite lookup_insert_eq|].
    by rewrite lookup_insert_ne. }
  split; [|split; [|done]].
  - destruct Hm. constructor; try done.
    + intros key x. cbn [r' set_r_hardlinks r_hardlinks]. rewrite lookup_insert_Some.
      intros [[<- <-]|[_ Hk]]; [by exists p, pn, names, name, es|by apply mi_links0].
    + intros i n Hn Hq Hd. destruct (mi_done0 i n Hn Hq Hd) as (es' & He' & Hall). exists es'. split; [done|].
      intros. by apply Hmono, Hall.
  - right. exists names. split; [done|]. cbn [r' set_r_hardlinks r_hardlinks]. by rewrite lookup_insert_eq.
Qed.

(** The fields of a node that an insertion leaves alone. *)
Definition same_node (x y : FileTreeNode) : Prop :=
  n_inode y = n_inode x /\ n_name y = n_name x /\ n_blocks y = n_blocks x /\
  n_additional_blocks y = n_additional_blocks x.

Lemma added_cases t p np n i y :
  nodes t !! p = Some np -> nodes (added t p np n) !! i = Some y ->
  (i = length (nodes t) /\ y = set_n_parent n (Some p)) \/ exists x, nodes t !! i = Some x /\ same_node x y.
Proof.
  intros Hp Hy. apply lookup_added in Hy as [(-> & ->)|[(-> & ->)|(_ & _ & Hx)]]; [right; by exists np|by left|right; by exists y|].
  by eapply lookup_lt_Some.
Qed.

Lemma added_same t p np n i x :
  nodes t !! p = Some np -> nodes t !! i = Some x -> exists y, nodes (added t p np n) !! i = Some y /\ same_node x y.
Proof.
  intros Hp Hx. destruct (added_old t p np n Hp i x Hx) as (y & Hy & _).
  destruct (added_cases t p np n i y Hp Hy) as [(-> & _)|(x' & Hx' & Hs)].
  - apply lookup_lt_Some in Hx. lia.
  - exists y. split; [done|]. congruence.
Qed.

Section Add.
Context (r r' : Reader) (queue queue' : Queue) (p : nat) (np : FileTreeNode) (name : list Z) (ino : Z)
  (inode : Inode) (rs : list (Z * Z)) (es : list (list Z * Z)).
Let t := r_tree r.
Let nd := discovered_node ino name rs.
Context (Hm : mirrors r queue) (Hp : nodes t !! p = Some np)
  (Hdir : p = 0%nat \/ is_directory (n_inode np))
  (Hes : disk_entries f sb (n_inode np) = Ok es) (Hin : (name, ino) ∈ es) (Hpl : plain name)
  (Hino : disk_inode f sb ino = Ok inode) (Hrs : parse_extents inode (block_size sb) f = Ok rs)
  (Hnew : forall i n, nodes t !! i = Some n -> n_inode n <> ino)
  (Htree : r_tree r' = added t p np nd) (Hlinks : r_hardlinks r' = r_hardlinks r)
  (Hgrow : r_inodes r ⊆ r_inodes r') (Hcached : is_Some (r_inodes r' !! ino))
  (Hqueue : forall x, x ∈ queue' <-> x ∈ queue \/ (is_dir (i_mode inode) = true /\ x = (length (nodes t), ino))).

Let Hwf := mi_wf r queue Hm.

Lemma add_walk names i : walk t (root t) names i -> walk (r_tree r') (root (r_tree r')) names i.
Proof.
  intros Hw. rewrite Htree. apply (walk_added t p np nd); [done..| |by left].
  destruct (root_valid t Hwf) as (n & Hn). apply lookup_lt_Some in Hn. cbn [added root]. lia.
Qed.

Lemma add_child_of q c : child_of (r_tree r') q c <-> (q = p /\ c = length (nodes t)) \/ child_of t q c.
Proof. rewrite Htree. by apply child_of_added. Qed.

Lemma add_new : nodes (r_tree r') !! length (nodes t) = Some (set_n_parent nd (Some p)).
Proof. rewrite Htree. by apply added_new. Qed.

Lemma add_present i nm x : present r i nm x -> present r' i nm x.
Proof.
  intros [(c & cn & Hc & Hcn & Hn & Hi)|(ns & Hns & Hk)].
  - left. destruct (added_same t p np nd c cn Hp Hcn) as (y & Hy & Hyi & Hyn & _). rewrite <- Htree in Hy.
    exists c, y. split; [apply add_child_of; by right|]. split; [done|]. split; congruence.
  - right. exists ns. split; [by apply add_walk|]. by rewrite Hlinks.
Qed.

Lemma add_is_present : present r' p name ino.
Proof.
  left. exists (length (nodes t)), (set_n_parent nd (Some p)). split; [apply add_child_of; by left|].
  split; [apply add_new|done].
Qed.

(** Every node of the new tree is the new one or corresponds to an old one. *)
Lemma add_cases i y :
  nodes (r_tree r') !! i = Some y ->
  (i = length (nodes t) /\ y = set_n_parent nd (Some p)) \/ exists x, nodes t !! i = Some x /\ same_node x y.
Proof. rewrite Htree. by apply added_cases. Qed.

Lemma add_entry q c qn cn :
  child_of (r_tree r') q c -> nodes (r_tree r') !! q = Some qn -> nodes (r_tree r') !! c = Some cn ->
  exists es, disk_entries f sb (n_inode qn) = Ok es /\ (n_name cn, n_inode cn) ∈ es /\ plain (n_name cn).
Proof.
  intros Hc Hq Hcn. apply add_child_of in Hc as [(-> & ->)|Hc].
  - rewrite add_new in Hcn. injection Hcn as <-. exists es.
    destruct (added_same t p np nd p np Hp Hp) as (y & Hy & Hyi & _). rewrite <- Htree in Hy.
    assert (qn = y) as -> by congruence. by rewrite Hyi.
  - pose proof (child_of_lt t q c Hwf Hc) as Hlt.
    apply add_cases in Hq as [(-> & _)|(q0 & Hq0 & Hqi & _)]; [lia|].
    apply add_cases in Hcn as [(-> & _)|(c0 & Hc0 & Hci & Hcn' & _)]; [lia|].
    rewrite Hqi, Hci, Hcn'. by eapply (mi_entry r queue Hm).
Qed.

Lemma add_done i n :
  nodes (r_tree r') !! i = Some n -> (i, n_inode n) ∉ queue' -> i = 0%nat \/ is_directory (n_inode n) ->
  exists es, disk_entries f sb (n_inode n) = Ok es /\
    forall name ino, (name, ino) ∈ es -> plain name -> present r' i name ino.
Proof.
  intros Hn Hq Hd. rewrite Hqueue in Hq. apply add_cases in Hn as [(-> & ->)|(x & Hx & Hxi & _)].
  - exfalso. apply Hq. right. cbn [set_n_parent n_inode nd discovered_node]. split; [|done].
    destruct Hd as [H0|(inode' & Hi' & Hd')]; [|cbn in Hi'; congruence].
    apply lookup_lt_Some in Hp. lia.
  - rewrite Hxi in *. destruct (mi_done r queue Hm i x Hx) as (es' & Hes' & Hall);
      [by intros ?; apply Hq; left|done|].
    exists es'. split; [done|]. intros. by apply add_present, Hall.
Qed.

Lemma mirrors_add : mirrors r' queue'.
Proof.
  pose proof (lookup_lt_Some _ _ _ Hp) as Hlt. constructor.
  - rewrite Htree. by apply added_wf.
  - destruct (mi_root r queue Hm) as (n0 & Hn0 & Hi0 & Hd0).
    destruct (added_same t p np nd 0 n0 Hp Hn0) as (y & Hy & Hyi & Hyn & _). rewrite <- Htree in Hy.
    exists y. rewrite Hyi, Hyn. done.
  - intros i n [(-> & ->)|(x & Hx & _)]%add_cases.
    + destruct (mi_walk r queue Hm p np Hp) as (names & Hw). exists (names ++ [name]).
      rewrite Htree. apply (walk_added t p np nd); [done..| |right; split; [done|by exists names]].
      destruct (root_valid t Hwf) as (n & Hn). apply lookup_lt_Some in Hn. cbn [added root]. lia.
    + destruct (mi_walk r queue Hm i x Hx) as (names & Hw). exists names. by apply add_walk.
  - exact add_entry.
  - intros i n [(-> & ->)|(x & Hx & Hxi & _ & Hxb & Hxa)]%add_cases Hi0.
    + exists inode, rs. done.
    + destruct (mi_recorded r queue Hm i x Hx Hi0) as (inode' & rs' & ? & ? & ? & ?).
      exists inode', rs'. rewrite Hxi, Hxb, Hxa. done.
  - intros i n [(-> & ->)|(x & Hx & Hxi & _)]%add_cases Hi0; [done|]. rewrite Hxi.
    destruct (mi_cached r queue Hm i x Hx Hi0) as [v Hv]. exists v. by eapply lookup_weaken.
  - intros i j n m [(-> & ->)|(x & Hx & Hxi & _)]%add_cases [(-> & ->)|(y & Hy & Hyi & _)]%add_cases Heq; [done|..].
    + exfalso. apply (Hnew j y Hy). rewrite <- Hyi. by symmetry.
    + exfalso. apply (Hnew i x Hx). by rewrite <- Hxi.
    + apply (mi_distinct r queue Hm i j x y); [done..|congruence].
  - intros key x. rewrite Hlinks. intros Hk. destruct (mi_links r queue Hm key x Hk) as (i & n & ns & nm & es' & Hn & Hw & He & Hrest).
    destruct (added_same t p np nd i n Hp Hn) as (y & Hy & Hyi & _). rewrite <- Htree in Hy.
    exists i, y, ns, nm, es'. split; [done|]. split; [by apply add_walk|]. by rewrite Hyi.
  - intros q c qn Hc Hq. apply add_child_of in Hc as [(-> & ->)|Hc].
    + apply add_cases in Hq as [(? & _)|(x & Hx & Hxi & _)]; [lia|]. rewrite Hxi. by assert (x = np) as -> by congruence.
    + pose proof (child_of_lt t q c Hwf Hc). apply add_cases in Hq as [(? & _)|(x & Hx & Hxi & _)]; [lia|].
      rewrite Hxi. by apply (mi_dirs r queue Hm q c x).
  - intros i x [Hq|(Hd & [= -> ->])]%Hqueue.
    + destruct (mi_queue r queue Hm i x Hq) as ((n & Hn & Hni) & Hd). split; [|done].
      destruct (added_same t p np nd i n Hp Hn) as (y & Hy & Hyi & _). rewrite <- Htree in Hy. exists y. by rewrite Hyi.
    + split; [by exists (set_n_parent nd (Some p)); split; [apply add_new|]|]. right. by exists inode.
  - exact add_done.
Qed.
End Add.

(** ** One directory *)

Lemma R_bind_eq {A B} (m : R A) (k : A -> R B) r :
  (m ≫= k) r = match m r with (Ok a, r') => k a r' | (Err e, r') => (Err e, r') | (Panic, r') => (Panic, r') end.
Proof. reflexivity. Qed.

(** Programs that leave the inode cache alone. *)
Definition keeps {A} (m : R A) : Prop := forall r, r_inodes (m r).2 = r_inodes r.

Lemma keeps_bind {A B} (m : R A) (k : A -> R B) : keeps m -> (forall a, keeps (k a)) -> keeps (m ≫= k).
Proof.
  intros Hm Hk r. rewrite R_bind_eq. specialize (Hm r). destruct (m r) as [[a|e|] r']; cbn [snd] in Hm; [|done..].
  by rewrite Hk.
Qed.

Lemma keeps_seek n : keeps (r_seek n).
Proof. intros r. unfold r_seek. by destruct (seek_start (r_file r) n). Qed.
Lemma keeps_read e n : keeps (r_read_exact e n).
Proof. intros r. unfold r_read_exact. by destruct (read_exact (r_file r) n) as [[]| |]. Qed.

Lemma keeps_group number : keeps (get_group_descriptor number).
Proof.
  unfold get_group_descriptor. apply keeps_bind; [done|]. intros [gd|]; [done|].
  apply keeps_bind; [|intros gd; by apply keeps_bind].
  apply keeps_bind; [done|]. intros s. apply keeps_bind; [apply keeps_seek|]. intros _.
  apply keeps_bind; [apply keeps_read|done].
Qed.

Lemma keeps_read_inode number : keeps (read_inode number).
Proof.
  unfold read_inode. apply keeps_bind; [done|]. intros s. case_match; [done|].
  apply keeps_bind; [apply keeps_group|]. intros gd. apply keeps_bind; [apply keeps_seek|]. intros _.
  apply keeps_bind; [apply keeps_read|done].
Qed.

Lemma get_inode_fresh number r inode r' :
  r_inodes r !! number = None -> get_inode number r = (Ok inode, r') -> r_inodes r' = <[number := inode]> (r_inodes r).
Proof.
  rewrite get_inode_eq. intros -> H. pose proof (keeps_read_inode number r) as Hk.
  destruct (read_inode number r) as [[i|e|] r1]; simplify_eq. cbn [snd] in Hk. by rewrite <- Hk.
Qed.

Record scan (p : nat) (pino : Z) (prefix : list (list Z * Z)) (r : Reader) (q : Queue) : Prop := mk_scan {
  sc_image : on_image f sb r;
  sc_mirrors : mirrors r ((p, pino) :: q);
  sc_keys : forall n, is_Some (r_inodes r !! n) -> is_u32 n;
  sc_root : is_Some (r_inodes r !! ROOT_INODE);
  sc_present : forall name ino, (name, ino) ∈ prefix -> plain name -> present r p name ino
}.

(** The outcome of a part of the scan: it grows the queue only with inodes
    that were not cached before. *)
Definition scanned (p : nat) (pino : Z) (prefix : list (list Z * Z)) (r : Reader) (q : Queue)
    (out : res ReadError Queue * Reader) : Prop :=
  match out with
  | (Ok q', r') => scan p pino prefix r' q' /\
      (size (r_inodes r) + length q' <= size (r_inodes r') + length q)%nat
  | (Err _, _) => True
  | (Panic, _) => False
  end.

Lemma visit_new p pino es prefix r q name ino :
  disk_entries f sb pino = Ok es -> (name, ino) ∈ es -> plain name -> r_inodes r !! ino = None ->
  scan p pino prefix r q ->
  scanned p pino (prefix ++ [(name, ino)]) r q
    ((inode ← get_inode ino;
      blocks ← inode_extents inode;
      added ← pure (fun r => add_child (r_tree r) p (discovered_node ino name blocks));
      let '(tree, child_idx) := (added : FileTree * nat) in
      _ ← update (set_r_tree tree);
      child_inode ← get_inode ino;
      mret (if is_dir (i_mode child_inode) then (child_idx, ino) :: q else q)) r).
Proof.
  intros Hes Hin Hpl Hfresh [Himg Hm Hkeys Hroot Hpres]. rewrite R_bind_eq.
  destruct (answers_inode f sb ino r Himg) as (Hv & Himg1 & Hs1).
  destruct (get_inode ino r) as [[inode|e|] r1] eqn:Hget; [|done|by destruct (np_disk_inode ino)]. cbn [fst snd] in *.
  pose proof (get_inode_fresh _ _ _ _ Hfresh Hget) as Hin1.
  rewrite R_bind_eq. destruct (answers_extents f sb inode r1 Himg1) as (Hv' & _). unfold inode_extents, pure in Hv' |- *.
  cbn [fst] in Hv'. rewrite Hv'. pose proof (np_parse_extents inode (block_size sb) f Hbs) as Hnp.
  destruct (parse_extents inode (block_size sb) f) as [rs|e|] eqn:Hrs; [|done..]. rewrite R_bind_eq.
  destruct (mi_queue _ _ Hm p pino) as ((np & Hp & Hpino) & Hdir); [by left|].
  pose proof (st_tree _ _ Hs1) as Ht1. rewrite Ht1. unfold pure. rewrite (add_child_ok _ p _ np Hp).
  fold (added (r_tree r) p np (discovered_node ino name rs)). cbn beta iota. rewrite R_bind_eq. unfold update. cbn beta iota.
  rewrite R_bind_eq, get_inode_eq. cbn [set_r_tree r_inodes]. rewrite Hin1, lookup_insert_eq.
  unfold mret, R_ret. set (r' := set_r_tree _ r1). set (q' := if is_dir (i_mode inode) then _ else _).
  assert (forall i n, nodes (r_tree r) !! i = Some n -> n_inode n <> ino) as Hnew.
  { intros i n Hn Heq. destruct i as [|i].
    - destruct (mi_root _ _ Hm) as (n0 & Hn0 & Hi0 & _). destruct Hroot as [x Hx]. congruence.
    - destruct (mi_cached _ _ Hm _ _ Hn ltac:(done)) as [x Hx]. congruence. }
  assert (r_inodes r ⊆ r_inodes r') as Hgrow by (cbn; rewrite Hin1; by apply insert_subseteq).
  assert (is_Some (r_inodes r' !! ino)) as Hc by (cbn; rewrite Hin1, lookup_insert_eq; done).
  assert (forall x, x ∈ (p, pino) :: q' <-> x ∈ (p, pino) :: q \/
    (is_dir (i_mode inode) = true /\ x = (length (nodes (r_tree r)), ino))) as Hq.
  { intros x. subst q'. destruct (is_dir (i_mode inode)); rewrite !elem_of_cons; [tauto|].
    split; [by left|]. by intros [?|[? _]]. }
  subst pino. unfold scanned. split.
  - constructor.
    + destruct Himg1. by constructor.
    + exact (mirrors_add r r' _ _ p np name ino inode rs es Hm Hp Hdir Hes Hin Hpl (eq_sym Hv) Hrs Hnew eq_refl (st_hardlinks _ _ Hs1) Hgrow Hc Hq).
    + cbn. rewrite Hin1. intros n. rewrite lookup_insert_is_Some. intros [->|[_ Hn]]; [|by apply Hkeys].
      by apply (disk_entries_u32 (n_inode np) es name n Hes).
    + destruct Hroot as [x Hx]. exists x. by eapply lookup_weaken.
    + intros nm x [Hx|Hx]%elem_of_app Hplx.
      * eapply (add_present r r' _ p np name ino rs Hm Hp Hdir); [done|apply Hs1|by apply Hpres].
      * apply list_elem_of_singleton in Hx as [= -> ->]. by eapply (add_is_present r r' p np name ino rs Hp).
  - cbn [r' set_r_tree r_inodes]. rewrite Hin1, map_size_insert, Hfresh. subst q'. case_match; simpl; lia.
Qed.

Lemma scan_present_more p pino prefix r q name ino :
  scan p pino prefix r q -> (plain name -> present r p name ino) -> scan p pino (prefix ++ [(name, ino)]) r q.
Proof.
  intros [] Hnew. constructor; try done. intros nm x [Hx|Hx]%elem_of_app Hpl; [by apply sc_present0|].
  apply list_elem_of_singleton in Hx as [= -> ->]. by apply Hnew.
Qed.

Lemma visit_entry_scan p pino es prefix r q name ino :
  disk_entries f sb pino = Ok es -> (name, ino) ∈ es -> scan p pino prefix r q ->
  scanned p pino (prefix ++ [(name, ino)]) r q (visit_entry p q (name, ino) r).
Proof.
  intros Hes Hin Hsc. unfold visit_entry. destruct (bool_decide (name = DOT) || bool_decide (name = DOTDOT)) eqn:Hdot.
  { split; [|lia]. apply scan_present_more; [done|]. intros [Hd Hdd]. apply orb_true_iff in Hdot.
    by destruct Hdot as [H|H]; apply bool_decide_eq_true in H. }
  assert (plain name) as Hpl by (apply orb_false_iff in Hdot as [H1%bool_decide_eq_false H2%bool_decide_eq_false]; done).
  clear Hdot. rewrite R_bind_eq. unfold asks at 1. cbn beta iota. case_bool_decide as Hseen; cbv iota.
  - rewrite R_bind_eq. unfold pure. destruct Hsc as [Himg Hm Hkeys Hroot Hpres].
    destruct (mi_queue _ _ Hm p pino) as ((np & Hp & Hpino) & Hdir); [by left|]. subst pino.
    destruct (mi_walk _ _ Hm p np Hp) as (names & Hw). rewrite (hardlink_key_walk r _ names p name Hm Hw).
    cbn beta iota. rewrite R_bind_eq. unfold update, mret, R_ret. cbn beta iota.
    destruct (mirrors_link r _ p np names es name ino Hm Hp Hw Hes Hin Hpl) as (Hm' & Hpres' & Hmono).
    split; [|cbn; lia]. apply scan_present_more; [|done]. constructor; [|done|done|done|].
    + destruct Himg. by constructor.
    + intros. by apply Hmono, Hpres.
  - apply (visit_new p pino es); try done. by apply eq_None_not_Some.
Qed.

Lemma scan_entries p pino es : disk_entries f sb pino = Ok es ->
  forall rest prefix r q, es = prefix ++ rest -> scan p pino prefix r q ->
  scanned p pino es r q (foldR (visit_entry p) q rest r).
Proof.
  intros Hes. induction rest as [|[name ino] rest IH]; intros prefix r q Heq Hsc; cbn [foldR].
  - rewrite app_nil_r in Heq. subst. split; [done|lia].
  - rewrite R_bind_eq. pose proof (visit_entry_scan p pino es prefix r q name ino Hes) as H.
    specialize (H ltac:(rewrite Heq; apply elem_of_app; right; by left) Hsc).
    destruct (visit_entry p q (name, ino) r) as [[q1|e|] r1]; cbn [scanned] in *; [|done..]. destruct H as [Hsc1 Hsz].
    specialize (IH (prefix ++ [(name, ino)]) r1 q1 ltac:(by rewrite <- app_assoc) Hsc1).
    destruct (foldR _ q1 rest r1) as [[q2|e|] r2]; cbn [scanned] in *; [|done..]. destruct IH as [Hsc2 Hsz2]. split; [done|lia].
Qed.

(** ** The loop *)

(** Reading a directory caches its inode. *)
Lemma entries_cached n r es r' :
  on_image f sb r -> get_dir_entries n r = (Ok es, r') ->
  is_Some (r_inodes r' !! n) /\
  (r_inodes r' = r_inodes r \/ exists inode, r_inodes r' = <[n := inode]> (r_inodes r)).
Proof.
  intros Hr. unfold get_dir_entries. rewrite R_bind_eq. intros H.
  pose proof (get_inode_eq n r) as Hg. destruct (answers_inode f sb n r Hr) as (_ & Hr1 & _).
  destruct (get_inode n r) as [[inode|e|] r1] eqn:Hget; [|done..]. cbn [snd] in Hr1.
  assert (is_Some (r_inodes r1 !! n) /\ (r_inodes r1 = r_inodes r \/ exists inode, r_inodes r1 = <[n := inode]> (r_inodes r))) as Hc.
  { destruct (r_inodes r !! n) as [x|] eqn:Hx.
    - simplify_eq. split; [by exists x|by left].
    - rewrite (get_inode_fresh _ _ _ _ Hx Hget). split; [by rewrite lookup_insert_eq|right; by exists inode]. }
  assert (r_inodes r' = r_inodes r1) as ->; [|done].
  assert (keeps (extents ← inode_extents inode; entries ← foldR read_dir_extent [] extents; mret (sort_by entry_cmp entries))) as Hk.
  { apply keeps_bind; [done|]. intros rs. apply keeps_bind; [|done]. generalize (@nil (list Z * Z)) as acc.
    induction rs as [|[a b] rs IH]; intros acc; [done|]. apply keeps_bind; [|done]. unfold read_dir_extent.
    apply keeps_bind; [done|]. intros s. apply keeps_bind; [apply keeps_bind; [done|intros; apply keeps_seek]|]. intros _.
    generalize acc as acc'. induction (seqZ 0 (u32 (b - a))) as [|k ks IHk]; intros acc'; [done|]. cbn [foldR].
    apply keeps_bind; [|done]. apply keeps_bind; [done|]. intros _. apply keeps_bind; [apply keeps_read|done]. }
  specialize (Hk r1). by rewrite H in Hk.
Qed.

(** The measure: inode numbers not cached yet, and the work queued. *)
Definition measure (q : Queue) (r : Reader) : Z := 4294967296 - Z.of_nat (size (r_inodes r)) + Z.of_nat (length q).

Record traversing (m : Z) (q : Queue) (r : Reader) : Prop := mk_traversing {
  tr_image : on_image f sb r;
  tr_mirrors : mirrors r q;
  tr_keys : forall n, is_Some (r_inodes r !! n) -> is_u32 n;
  tr_root : (exists i, q = [(i, ROOT_INODE)]) \/ is_Some (r_inodes r !! ROOT_INODE);
  tr_measure : m = measure q r
}.

Lemma keys_size (inodes : gmap Z Inode) :
  (forall n, is_Some (inodes !! n) -> is_u32 n) -> Z.of_nat (size inodes) <= 4294967296.
Proof.
  intros Hk. rewrite <- size_dom.
  assert (dom inodes ⊆ (list_to_set (seqZ 0 4294967296) : gset Z)) as Hsub.
  { intros n Hn%elem_of_dom. apply elem_of_list_to_set, elem_of_seqZ. specialize (Hk n Hn). unfold is_u32 in Hk. lia. }
  apply subseteq_size in Hsub. rewrite size_list_to_set, length_seqZ in Hsub by apply NoDup_seqZ. lia.
Qed.

(** A directory all of whose entries were visited is done. *)
Lemma scan_finish p pino es r q :
  disk_entries f sb pino = Ok es -> scan p pino es r q -> mirrors r q.
Proof.
  intros Hes [_ Hm _ _ Hpres]. destruct (mi_queue _ _ Hm p pino) as ((np & Hp & Hpino) & Hdir); [by left|].
  pose proof (mi_done _ _ Hm) as Hdone. destruct Hm. constructor; try done.
  - intros i ino Hi. apply mi_queue0. by right.
  - intros i n Hn Hi Hd. destruct (decide (i = p)) as [->|Hne].
    + assert (n = np) as -> by congruence. exists es. rewrite Hpino. by split.
    + apply Hdone; [done| |done]. intros [[= ? ?]|?]%elem_of_cons; done.
Qed.

Definition opened_ok (v : res ReadError unit) (r : Reader) : Prop :=
  match v with Ok _ => on_image f sb r /\ mirrors r [] | Err _ => True | Panic => False end.

Lemma traverse_turn_ok m q r : traversing m q r -> turn_ok traversing opened_ok m 1 (traverse_turn q r).
Proof.
  intros [Himg Hm Hkeys Hroot ->]. destruct q as [|[p ino] q]; [by cbn|]. unfold traverse_turn. rewrite R_bind_eq.
  destruct (answers_entries f sb ino r Himg) as (Hv & Himg1 & Hs1).
  destruct (get_dir_entries ino r) as [[es|e|] r1] eqn:Hget; cbn [fst snd] in *;
    [|done|by destruct (np_disk_entries ino)].
  destruct (entries_cached ino r es r1 Himg Hget) as [Hc Hshape].
  destruct (mi_queue _ _ Hm p ino) as ((np & Hp & Hino) & _); [by left|].
  assert (is_u32 ino) as Hu.
  { destruct p as [|p]; [|subst ino; by apply Hkeys, (mi_cached _ _ Hm (S p))].
    destruct (mi_root _ _ Hm) as (n0 & Hn0 & Hi0 & _). assert (ino = ROOT_INODE) as -> by congruence. by compute. }
  assert (scan p ino [] r1 q) as Hsc.
  { constructor; [done|by eapply mirrors_stays| | |by intros ? ? ?%elem_of_nil].
    - intros n Hn. destruct Hshape as [Heq|(x & Heq)]; rewrite Heq in Hn; [by apply Hkeys|].
      apply lookup_insert_is_Some in Hn as [->|[_ Hn]]; [done|by apply Hkeys].
    - destruct Hroot as [(i & [= -> -> ->])|[x Hx]]; [done|]. exists x. eapply lookup_weaken; [done|apply Hs1]. }
  rewrite R_bind_eq. pose proof (scan_entries p ino es (eq_sym Hv) es [] r1 q eq_refl Hsc) as H.
  destruct (foldR (visit_entry p) q es r1) as [[q'|e|] r2]; cbn [scanned] in H; [|done..]. destruct H as [Hsc2 Hsz].
  cbn [turn_ok mret R_ret]. exists (measure q' r2). split.
  - unfold measure. cbn [length]. pose proof (map_subseteq_size _ _ (st_inodes _ _ Hs1)). lia.
  - constructor; [apply Hsc2|by eapply scan_finish|apply Hsc2|right; apply Hsc2|done].
Qed.

Lemma opened_traversing p : traversing (measure [(0%nat, ROOT_INODE)] (opened_reader (seek f p) sb))
  [(0%nat, ROOT_INODE)] (opened_reader (seek f p) sb).
Proof.
  constructor; [..|done].
  - apply on_image_opened.
  - assert (forall i n, nodes (FileTree_new ROOT_INODE DOT) !! i = Some n -> i = 0%nat /\ n_inode n = ROOT_INODE) as Hn.
    { intros [|[|i]] n; [|done..]. by intros [= <-]. }
    constructor; cbn [opened_reader r_tree r_inodes r_hardlinks].
    + apply FileTree_new_wf.
    + by eexists.
    + intros i n [-> _]%Hn. exists []. constructor.
    + intros a c pn cn (x & Hx & Hc). apply FileTree_new_node in Hx as (_ & Hx & _). rewrite Hx in Hc. by apply elem_of_nil in Hc.
    + intros i n [-> _]%Hn. done.
    + intros i n [-> _]%Hn. done.
    + intros i j n k [-> _]%Hn [-> _]%Hn. done.
    + intros key x. by rewrite lookup_empty.
    + intros a c pn (x & Hx & Hc). apply FileTree_new_node in Hx as (_ & Hx & _). rewrite Hx in Hc. by apply elem_of_nil in Hc.
    + intros i x Hx%list_elem_of_singleton. simplify_eq. split; [by eexists|by left].
    + intros i n [-> Hi]%Hn Hq. destruct Hq. rewrite Hi. by left.
  - intros n. cbn. rewrite lookup_empty. by intros [].
  - left. by exists 0%nat.
Qed.

Lemma opening_loop p :
  opened_ok (loop TRAVERSE_FUEL traverse_turn [(0%nat, ROOT_INODE)] (opened_reader (seek f p) sb)).1
            (loop TRAVERSE_FUEL traverse_turn [(0%nat, ROOT_INODE)] (opened_reader (seek f p) sb)).2.
Proof.
  apply (loop_spec traverse_turn traversing opened_ok) with (measure [(0%nat, ROOT_INODE)] (opened_reader (seek f p) sb)).
  - intros n s r [_ _ Hk _ ->]. unfold measure. pose proof (keys_size _ Hk). lia.
  - exact traverse_turn_ok.
  - apply opened_traversing.
  - unfold measure. cbn [opened_reader r_inodes length]. rewrite map_size_empty. by compute.
Qed.
End Image.

(** ** Opening *)

(** An image whose superblock does not make the reader divide by zero or ask
    for a buffer no allocator can give. *)
Record readable (f : File) : Prop := mk_readable {
  rd_bytes : byte_file f;
  rd_inodes : sb_inodes_per_group (superblock_of f) <> 0;
  rd_block_size : 0 <= sb_log_block_size (superblock_of f) <= 52
}.

Lemma block_size_bounds sb : 0 <= sb_log_block_size sb <= 52 -> 1024 <= block_size sb <= 2 ^ 62.
Proof.
  intros H. unfold block_size. rewrite Z.mod_small, Z.shiftl_1_l by lia.
  pose proof (Z.pow_le_mono_r 2 (sb_log_block_size sb) 52 ltac:(lia) ltac:(lia)).
  pose proof (Z.pow_le_mono_r 2 0 (sb_log_block_size sb) ltac:(lia) ltac:(lia)).
  change (2 ^ 0) with 1 in *. change (2 ^ 52) with 4503599627370496 in *. change (2 ^ 62) with 4611686018427387904.
  rewrite !u64_small; unfold is_u64; rewrite ?u64_small by (unfold is_u64; lia); lia.
Qed.

Lemma Reader_new_spec path f :
  readable f ->
  match Reader_new path (Some f) with
  | Ok r => on_image f (superblock_of f) r /\ mirrors f (superblock_of f) r []
  | Err _ => True
  | Panic => False
  end.
Proof.
  intros [Hb Hi Hl]. unfold Reader_new. cbn [ok_or mbind res_bind]. rewrite seek_start_small by (by compute).
  cbn [map_err mbind res_bind]. unfold read_exact. cbn [f_pos f_len seek]. change SUPERBLOCK_OFFSET with 1024.
  destruct (1024 + 1024 <=? f_len f); [|done]. cbn [map_err mbind res_bind].
  change (bytes_at (seek f 1024) 1024 1024) with (bytes_at f 1024 1024). fold (superblock_of f).
  change (seek (seek f 1024) (1024 + 1024)) with (seek f 2048).
  destruct (negb (sb_magic (superblock_of f) =? SUPERBLOCK_MAGIC)); [done|].
  change (root (r_tree (opened_reader _ _))) with 0%nat.
  pose proof (opening_loop f (superblock_of f) Hb Hi ltac:(pose proof (block_size_bounds _ Hl); unfold i64_max; lia) 2048) as H.
  destruct (loop TRAVERSE_FUEL _ _ _) as [[u|e|] r]; [|done..]. exact H.
Qed.

(** C33: Opening an image ends, and it ends with a reader or an error: whatever
    the bytes of the image, loops between directories included, the traversal
    handles every directory once and neither runs on nor panics.  The
    superblock has to give a non-zero number of inodes per group and a block
    size a buffer can have; the code checks neither. *)
Theorem opening_ends (path : list Z) (f : File) (Hread : readable f) : Reader_new path (Some f) <> Panic.
Proof. pose proof (Reader_new_spec path f Hread). by destruct (Reader_new path (Some f)). Qed.

(** C10: The tree of an opened reader mirrors the image.  It is well formed and
    every node is reached from the root; the children of a node are entries of
    its directory, with the extents of their inodes; every inode has one node;
    every entry of a directory except [.] and [..] is a child or a recorded
    hard link, and every recorded hard link is such an entry.  The caches hold
    what is on the disk. *)
Theorem opened_tree_mirrors (path : list Z) (f : File) (r : Reader)
    (Hread : readable f) (Hopen : Reader_new path (Some f) = Ok r) :
  on_image f (superblock_of f) r /\ mirrors f (superblock_of f) r [].
Proof. pose proof (Reader_new_spec path f Hread) as H. by rewrite Hopen in H. Qed.

(** ** What the superblock can do to the reader *)

(** Without inodes in a group every image that carries the magic number makes
    the reader divide by zero. *)
Theorem no_inodes_panics (path : list Z) (f : File)
    (Hlen : 2048 <= f_len f) (Hmagic : sb_magic (superblock_of f) = SUPERBLOCK_MAGIC)
    (Hzero : sb_inodes_per_group (superblock_of f) = 0) :
  Reader_new path (Some f) = Panic.
Proof.
  unfold Reader_new. cbn [ok_or mbind res_bind]. rewrite seek_start_small by (by compute).
  cbn [map_err mbind res_bind]. rewrite read_exact_seek by (change SUPERBLOCK_OFFSET with 1024; lia).
  cbn [map_err mbind res_bind]. change SUPERBLOCK_OFFSET with 1024. fold (superblock_of f). rewrite Hmagic. cbn [negb Z.eqb].
  rewrite Z.eqb_refl. cbn [negb]. change (root (r_tree (opened_reader _ _))) with 0%nat. set (r := opened_reader _ _).
  rewrite (loop_panics traverse_turn _ _ _ r); [done|].
  unfold traverse_turn, get_dir_entries. rewrite !R_bind_eq, get_inode_eq.
  assert (read_inode ROOT_INODE r = (Panic, r)) as ->; [|done].
  unfold read_inode. rewrite R_bind_eq. unfold asks. cbn beta iota.
  change (r_superblock r) with (superblock_of f). rewrite Hzero. done.
Qed.

(** With blocks of 1 KiB the descriptors stand in the block behind the
    superblock; the reader looks for them in the superblock itself. *)
Theorem small_blocks_misread (f : File) (sb : SuperBlock)
    (Hbs : block_size sb = 1024) (Hlen : 2048 <= f_len f) :
  disk_group f sb 0 = Ok (GroupDescriptor_read_from (bytes_at f SUPERBLOCK_OFFSET 32 ++ zeros 32)).
Proof.
  unfold disk_group. rewrite Hbs, Z.mul_0_l. change (u64 (1024 + 0)) with SUPERBLOCK_OFFSET. unfold disk_read.
  change SUPERBLOCK_OFFSET with 1024. by replace (1024 + 32 <=? f_len f) with true by lia.
Qed.

Lemma small_readable : readable small_image.
Proof.
  assert (bool_decide (sb_inodes_per_group (superblock_of small_image) <> 0 /\
    0 <= sb_log_block_size (superblock_of small_image) <= 52) = true) as H by (vm_compute; reflexivity).
  apply bool_decide_eq_true in H as [? ?]. split; [apply small_image_bytes|done..].
Qed.

Lemma opening_ends_witness : Reader_new [] (Some small_image) <> Panic.
Proof. apply (opening_ends [] small_image small_readable). Defined.

Lemma opened_tree_mirrors_witness :
  exists r, Reader_new [] (Some small_image) = Ok r /\ length (nodes (r_tree r)) = 5%nat /\
    mirrors small_image (superblock_of small_image) r [].
Proof.
  destruct small_opens as (r & Hr & Ht). exists r. split; [done|]. split.
  - by rewrite <- (length_map (fun n => (n_name n, n_inode n))), (sm_nodes r Ht).
  - apply (opened_tree_mirrors [] small_image r small_readable Hr).
Defined.
