(* ===== verification/ReaderQueries.v ===== *)
(** What the queries of the reader return: independence of the caches, exact
    file contents, and two places where path resolution departs from its
    documentation. *)

From stdpp Require Import gmap.
From S2P Require Import Prelude Bytes Types Errors Disk RustStr RustPath RustSort Dir FileTree Extent.
From S2P Require Import ImageReader ReaderFacts ReaderSample ReaderTree.

(** ** The public operations as one type *)

Inductive Query : Type :=
| QExists (path : list Z)
| QStat (path : list Z)
| QStatNoFollow (path : list Z)
| QListDir (path : list Z)
| QReadFile (path : list Z) (offset : Z) (count : option Z)
| QReadFileInto (path buf : list Z) (offset : Z)
| QGetInode (number : Z)
| QChildrenOf (number : Z).

Inductive Answer : Type :=
| AExists (b : bool)
| AStat (number : Z) (inode : Inode)
| ANames (names : list (list Z))
| ABytes (bytes : list Z)
| AInto (n : Z) (buf : list Z)
| AInode (inode : Inode)
| AEntries (entries : list (list Z * Z)).

Definition ask (q : Query) : R Answer :=
  match q with
  | QExists path => b ← exists_in path; mret (AExists b)
  | QStat path => out ← stat path; mret (AStat (out : Z * Inode).1 out.2)
  | QStatNoFollow path => out ← stat_no_follow path; mret (AStat (out : Z * Inode).1 out.2)
  | QListDir path => names ← list_dir path; mret (ANames names)
  | QReadFile path offset count => bytes ← read_file path offset count; mret (ABytes bytes)
  | QReadFileInto path buf offset => out ← read_file_into path buf offset; mret (AInto (out : Z * list Z).1 out.2)
  | QGetInode number => inode ← get_inode number; mret (AInode inode)
  | QChildrenOf number => entries ← children_of number; mret (AEntries entries)
  end.

(** The answers to a sequence of queries put to one reader. *)
Fixpoint ask_all (qs : list Query) (r : Reader) : list (res ReadError Answer) :=
  match qs with
  | [] => []
  | q :: qs => let '(a, r') := ask q r in a :: ask_all qs r'
  end.

Section Determined.
Context (f : File) (sb : SuperBlock).

Lemma determined_exists path : determined f sb (exists_in path).
Proof.
  destruct (determined_stat f sb path true) as [v Hv].
  exists (match v with Ok _ => Ok true | Err _ => Ok false | Panic => Panic end).
  intros r Hr. destruct (Hv r Hr) as (<- & Hr' & Hs). unfold exists_in.
  by destruct (resolve_path path true r) as [[a|e|] r'].
Qed.

Lemma determined_query path : determined f sb (stat path).
Proof. unfold stat. apply determined_stat. Qed.

Lemma determined_ask q : determined f sb (ask q).
Proof.
  pose proof (determined_stat f sb) as Hstat. pose proof determined_exists as Hex.
  pose proof (determined_read_from_extents f sb) as Hread.
  destruct q; unfold ask, list_dir, read_file_into, read_file, stat, stat_no_follow; determine; auto.
Qed.

Lemma ask_all_fresh qs : forall r,
  on_image f sb r -> ask_all qs r = map (fun q => (ask q (opened_reader f sb)).1) qs.
Proof.
  assert (on_image f sb (opened_reader f sb)) as Hfresh.
  { pose proof (on_image_opened f sb (f_pos f)) as H. replace (seek f (f_pos f)) with f in H by by destruct f. done. }
  induction qs as [|q qs IH]; intros r Hr; [done|]. cbn [ask_all map].
  destruct (determined_ask q) as [v Hv]. destruct (Hv r Hr) as (Hq & Hr' & _). destruct (Hv _ Hfresh) as (Hq' & _).
  destruct (ask q r) as [a r'] eqn:Ea. cbn [fst snd] in *. rewrite (IH r') by done. congruence.
Qed.
End Determined.

(** ** File contents *)

Section Contents.
Context (f : File) (sb : SuperBlock) (bs : Z).

(** The bytes of the blocks of a list of ranges, in order. *)
Definition content (rs : list (Z * Z)) : list Z :=
  concat (map (fun r => bytes_at f (r.1 * bs) ((r.2 - r.1) * bs)) rs).

(** Ranges that lie inside the image. *)
Definition range_in (r : Z * Z) : Prop := 0 <= r.1 <= r.2 /\ r.2 * bs <= f_len f.

Context (Hbs : 0 < bs) (Hlen : f_len f <= i64_max).

Lemma zlen_range r : range_in r -> zlen (bytes_at f (r.1 * bs) ((r.2 - r.1) * bs)) = (r.2 - r.1) * bs.
Proof. intros [? ?]. apply zlen_bytes_at. apply Z.mul_nonneg_nonneg; lia. Qed.

(** The part of [c] in [start, start + count) that lies before [upto]. *)
Definition upto (c : list Z) (start count upto : Z) : list Z :=
  sub_bytes c start (Z.max 0 (Z.min upto (start + count) - start)).

Lemma upto_step pre here post start count :
  0 <= start -> 0 <= count ->
  zlen pre < start + count -> start < zlen pre + zlen here ->
  let c := pre ++ here ++ post in
  let os := Z.max start (zlen pre) in
  let oe := Z.min (start + count) (zlen pre + zlen here) in
  upto c start count (zlen pre) ++ sub_bytes here (os - zlen pre) (oe - os) =
  upto c start count (zlen pre + zlen here).
Proof.
  intros Hs Hc H1 H2 c os oe. pose proof (zlen_nonneg pre). pose proof (zlen_nonneg here). unfold upto.
  replace (sub_bytes here (os - zlen pre) (oe - os)) with (sub_bytes c os (oe - os)).
  2:{ subst c. rewrite sub_app_r by lia. rewrite sub_app_l; [done|lia..]. }
  replace (Z.max 0 (Z.min (zlen pre + zlen here) (start + count) - start)) with
    (Z.max 0 (Z.min (zlen pre) (start + count) - start) + (oe - os)) by lia.
  rewrite sub_app_split by (subst c; rewrite ?zlen_app; pose proof (zlen_nonneg post); lia). f_equal. f_equal; lia.
Qed.

Definition out_of (st : (Z * list Z) + list Z) : list Z := match st with inl (_, out) => out | inr out => out end.

(** After a [break] the loop over the extents does nothing more. *)
Lemma extents_after_break start count rs out :
  answers f sb (foldR (extent_turn bs start count) (inr out) rs) (Ok (inr out)).
Proof.
  induction rs as [|r rs IH]; cbn [foldR]; [apply answers_ret|]. eapply answers_bind_ok; [|exact IH]. apply answers_ret.
Qed.

Lemma extents_loop start count rs : forall pre,
  Forall range_in rs -> 0 <= start -> 0 <= count -> zlen (pre ++ content rs) <= i64_max ->
  start + count <= zlen (pre ++ content rs) ->
  exists st, out_of st = sub_bytes (pre ++ content rs) start count /\
    answers f sb (foldR (extent_turn bs start count)
      (inl (zlen pre, upto (pre ++ content rs) start count (zlen pre))) rs) (Ok st).
Proof.
  induction rs as [|[s e] rs IH]; intros pre Hin Hs Hc Hfit Hreq.
  - eexists. split; [|apply answers_ret]. cbn [out_of]. unfold content in *. simpl in *. rewrite app_nil_r in *.
    unfold upto. f_equal. lia.
  - apply Forall_cons_1 in Hin as [Hr Hin]. pose proof (zlen_range _ Hr) as Hz. destruct Hr as [Hse Hr]. cbn [fst snd] in *.
    unfold content in *. cbn [map concat fst snd] in *. set (here := bytes_at f (s * bs) ((e - s) * bs)) in *.
    set (post := concat _) in *. set (c := pre ++ here ++ post) in *.
    assert (zlen c = zlen pre + zlen here + zlen post) as Hzc by (subst c; rewrite !zlen_app; lia).
    pose proof (zlen_nonneg pre). pose proof (zlen_nonneg here). pose proof (zlen_nonneg post). unfold i64_max in *.
    assert (c = (pre ++ here) ++ post) as Hc' by (subst c; by rewrite app_assoc).
    assert (zlen (pre ++ here) = zlen pre + zlen here) as Hzp by apply zlen_app.
    specialize (IH (pre ++ here) Hin Hs Hc). fold post in IH. rewrite <- Hc', Hzp in IH.
    destruct (IH ltac:(lia) ltac:(lia)) as (st & Hst & Hrun). clear IH.
    assert (is_u64 (e - s)) as He by (unfold is_u64; nia).
    cbn [foldR]. unfold extent_turn at 2. rewrite !(u64_small (e - s)), <- Hz by done.
    rewrite (u64_small (start + count)), (u64_small (zlen here)), (u64_small (zlen pre + zlen here)) by (unfold is_u64; lia).
    destruct (Z.leb_spec (zlen pre + zlen here) start) as [Hskip|Hskip].
    { exists st. split; [done|]. eapply answers_bind_ok; [apply answers_ret|].
      unfold upto in *. by replace (Z.max 0 (Z.min (zlen pre) (start + count) - start)) with
        (Z.max 0 (Z.min (zlen pre + zlen here) (start + count) - start)) by lia. }
    destruct (Z.leb_spec (start + count) (zlen pre)) as [Hpast|Hpast].
    { exists (inr (upto c start count (zlen pre))). split; [unfold upto; cbn [out_of]; f_equal; lia|].
      eapply answers_bind_ok; [apply answers_ret|]. apply extents_after_break. }
    pose proof (upto_step pre here post start count Hs Hc Hpast Hskip) as Hstep. cbv zeta in Hstep. fold c in Hstep.
    set (os := Z.max start (zlen pre)) in *. set (oe := Z.min (start + count) (zlen pre + zlen here)) in *.
    rewrite (u64_small (oe - os)) by (unfold is_u64; lia).
    destruct (Z.eqb_spec (oe - os) 0) as [Hz0|Hz0].
    { exists st. split; [done|]. eapply answers_bind_ok; [apply answers_ret|].
      rewrite Hz0 in Hstep. change (sub_bytes here (os - zlen pre) 0) with (@nil Z) in Hstep.
      rewrite app_nil_r in Hstep. by rewrite Hstep. }
    assert (sub_bytes here (os - zlen pre) (oe - os) = bytes_at f (s * bs + (os - zlen pre)) (oe - os)) as Hsub.
    { subst here. apply sub_bytes_at; lia. }
    assert (0 <= s * bs) as Hs0 by (apply Z.mul_nonneg_nonneg; lia).
    assert ((e - s) * bs = e * bs - s * bs) as Hes by lia.
    rewrite (u64_small (s * bs)), (u64_small (s * bs + (os - zlen pre))) by (unfold is_u64; lia).
    set (out' := upto c start count (zlen pre + zlen here)) in *.
    set (st1 := if count <=? zlen out' then inr out' else inl (zlen pre + zlen here, out')).
    exists (if count <=? zlen out' then inr out' else st). split.
    { destruct (Z.leb_spec count (zlen out')) as [Hd|Hd]; [|done]. cbn [out_of]. subst out'. unfold upto in *.
      rewrite zlen_sub in Hd by lia. f_equal. lia. }
    eapply (answers_bind_ok _ _ _ _ st1).
    + eapply answers_eq; [apply (answers_bind_seek f sb); [apply answers_seek_chunks; lia|]|].
      * intros out _. apply (answers_if f sb); apply answers_ret.
      * replace (s * bs + (os - zlen pre) <=? i64_max) with true by (unfold i64_max; lia). cbn [mbind res_bind].
        replace (Z.max 0 (Z.min (oe - os) (f_len f - (s * bs + (os - zlen pre))))) with (oe - os) by lia.
        rewrite <- Hsub, Hstep. subst st1. by destruct (count <=? zlen out').
    + subst st1. destruct (count <=? zlen out'); [apply extents_after_break|exact Hrun].
Qed.
End Contents.

Section Files.
Context (f : File) (sb : SuperBlock).
Let bs := block_size sb.

(** A file whose extents lie in the image and hold at least [size] bytes. *)
Record stored (number : Z) (inode : Inode) (rs : list (Z * Z)) (size : Z) : Prop := mk_stored {
  sf_inode : disk_inode f sb number = Ok inode;
  sf_extents : parse_extents inode bs f = Ok rs;
  sf_ranges : Forall (range_in f bs) rs;
  sf_size : 0 <= size <= zlen (content f bs rs);
  sf_fits : zlen (content f bs rs) <= i64_max
}.

Lemma answers_read_from_extents number inode rs size start count :
  0 < bs -> f_len f <= i64_max -> stored number inode rs size -> 0 <= start -> 0 <= count -> start + count <= size ->
  answers f sb (read_from_extents number start count) (Ok (sub_bytes (content f bs rs) start count)).
Proof.
  intros Hbs Hlen [Hi He Hr Hsz Hfit] Hs Hc Hreq. unfold read_from_extents. fold bs.
  eapply answers_bind_ok; [rewrite <- Hi; apply answers_inode|].
  eapply answers_bind_ok; [rewrite <- He; apply answers_extents|].
  case_bool_decide as Hnil.
  { subst rs. change (content f bs []) with (@nil Z) in *. change (zlen (@nil Z)) with 0 in *.
    eapply answers_eq; [apply answers_ret|]. unfold sub_bytes. by rewrite drop_nil, take_nil. }
  eapply answers_bind_ok; [apply answers_sb|]. fold bs.
  eapply answers_bind_ok; [apply answers_pure; intros; apply vec_capacity_small; lia|].
  destruct (extents_loop f sb bs Hbs Hlen start count rs [] Hr Hs Hc) as (st & Hst & Hrun); simpl; [lia..|].
  change (zlen (@nil Z)) with 0 in Hrun. rewrite app_nil_l in *.
  replace (upto (content f bs rs) start count 0) with (@nil Z) in Hrun.
  2:{ unfold upto. by replace (Z.max 0 (Z.min 0 (start + count) - start)) with 0 by lia. }
  eapply answers_bind_ok; [exact Hrun|]. fold (out_of st). rewrite Hst.
  eapply answers_eq; [apply answers_ret|]. f_equal. apply take_ge.
  pose proof (zlen_sub (content f bs rs) start count ltac:(lia) ltac:(lia) ltac:(lia)). unfold zlen in *. lia.
Qed.

(** ** Plain paths

    [goes cur names last]: from the directory [cur], the entries [names] lead
    to [last] through directories, and no symbolic link is followed. *)

Inductive goes (follow : bool) : Z -> list (list Z) -> Z -> Prop :=
| goes_nil cur : goes follow cur [] cur
| goes_cons cur d es name j ji names last :
    plain name -> disk_inode f sb cur = Ok d -> is_dir (i_mode d) = true -> disk_entries f sb cur = Ok es ->
    find_entry name es = Some j -> disk_inode f sb j = Ok ji -> is_link (i_mode ji) && follow = false ->
    goes follow j names last -> goes follow cur (name :: names) last.

Lemma answers_step path follow hops name rest cur stack visited d es v :
  plain name -> disk_inode f sb cur = Ok d -> is_dir (i_mode d) = true -> disk_entries f sb cur = Ok es ->
  (forall j, find_entry name es = Some j -> exists ji, disk_inode f sb j = Ok ji /\
    is_link (i_mode ji) && follow = false /\
    answers f sb (resolve_from path follow hops rest j (cur :: stack) visited) v) ->
  is_Some (find_entry name es) ->
  answers f sb (resolve_from path follow hops (name :: rest) cur stack visited) v.
Proof.
  intros [Hd Hdd] Hcur Hdir Hes Hall [j Hj]. destruct (Hall j Hj) as (ji & Hji & Hlink & Hrest).
  destruct hops; cbn [resolve_from]; rewrite (bool_decide_eq_false_2 _ Hd), (bool_decide_eq_false_2 _ Hdd);
    (eapply answers_bind_ok; [rewrite <- Hcur; apply answers_inode|]; rewrite Hdir; cbn [negb];
     eapply answers_bind_ok; [rewrite <- Hes; apply answers_entries|];
     eapply answers_bind_ok; [apply answers_pure; intros; by rewrite Hj|];
     eapply answers_bind_ok; [rewrite <- Hji; apply answers_inode|]; by rewrite Hlink).
Qed.

Lemma answers_goes path follow hops cur names last visited : goes follow cur names last -> forall stack,
  answers f sb (resolve_from path follow hops names cur stack visited) (i ← disk_inode f sb last; Ok (last, i)).
Proof.
  induction 1 as [cur|cur d es name j ji names last Hpl Hcur Hdir Hes Hj Hji Hlink _ IH]; intros stack.
  - destruct hops; cbn [resolve_from]; (apply answers_bind; [apply answers_inode|]; intros; apply answers_ret).
  - eapply answers_step; [done..| |by exists j]. intros j' Hj'. assert (j' = j) as -> by congruence. exists ji. by split_and!.
Qed.
End Files.

(** The path of ordinary names. *)
Lemma normalize_abs names :
  Forall (fun name => part_ok name) names -> normalize_path (abs_path names) = names.
Proof.
  intros Hok. destruct names as [|n ns]; [done|]. unfold normalize_path, abs_path. cbn [map concat app]. rewrite Z.eqb_refl.
  assert (split_slash (concat (map (cons SLASH) (n :: ns))) = [] :: n :: ns) as Hsplit.
  { apply split_slash_concat. eapply list.Forall_impl; [exact Hok|]. by intros x (? & _). }
  cbn [map concat app split_slash] in Hsplit. rewrite Z.eqb_refl in Hsplit. injection Hsplit as Hsplit.
  destruct (n ++ concat (map (cons SLASH) ns)) as [|c l] eqn:E.
  - exfalso. apply app_nil in E as [-> _]. apply Forall_cons_1 in Hok as [(_ & ? & _) _]. done.
  - rewrite Hsplit. clear -Hok. induction Hok as [|m l (_ & Hne & _) _ IH]; [done|]. cbn [List.filter].
    rewrite bool_decide_eq_false_2 by done. cbn [negb]. by rewrite IH.
Qed.

Lemma normalize_part part : part_ok part -> normalize_path part = [part].
Proof.
  intros (Hs & Hne & _). unfold normalize_path. destruct part as [|c p]; [done|].
  replace (c =? SLASH) with false by (symmetry; apply Z.eqb_neq; intros ->; apply Hs; by left).
  rewrite (proj2 (split_slash_part (c :: p) [] Hs)). done.
Qed.

Lemma find_entry_unique es name ino :
  NoDup (map fst es) -> (name, ino) ∈ es -> find_entry name es = Some ino.
Proof.
  unfold find_entry. induction es as [|[nm i] es IH]; intros Hnd Hin; [by apply elem_of_nil in Hin|].
  cbn [map fst] in Hnd. apply list.NoDup_cons in Hnd as [Hni Hnd]. cbn [List.find fst].
  apply elem_of_cons in Hin as [[= -> ->]|Hin]; [by rewrite bool_decide_eq_true_2|].
  rewrite bool_decide_eq_false_2; [by apply IH|]. intros ->. apply Hni. apply (list_elem_of_fmap_2 fst) in Hin. done.
Qed.

Lemma dir_not_link mode : is_dir mode = true -> is_link mode = false.
Proof. unfold is_dir, is_link. intros ->%Z.eqb_eq. done. Qed.

Section Tree.
Context (f : File) (sb : SuperBlock) (r : Reader) (Hm : mirrors f sb r []).
Context (Hroot : is_directory f sb ROOT_INODE)
  (Hdistinct : forall i n es, nodes (r_tree r) !! i = Some n -> is_directory f sb (n_inode n) ->
     disk_entries f sb (n_inode n) = Ok es -> NoDup (map fst es)).
Let t := r_tree r.

Lemma parent_directory p c pn : child_of t p c -> nodes t !! p = Some pn -> is_directory f sb (n_inode pn).
Proof.
  intros Hc Hp. destruct (mi_dirs _ _ _ _ Hm p c pn Hc Hp) as [->|]; [|done].
  destruct (mi_root _ _ _ _ Hm) as (n0 & Hn0 & Hi0 & _). assert (pn = n0) as -> by (unfold t in *; congruence). by rewrite Hi0.
Qed.

(** A tree path is a path on the disk. *)
Lemma walk_goes follow i names j : walk t i names j -> forall ni nj ij,
  nodes t !! i = Some ni -> nodes t !! j = Some nj ->
  disk_inode f sb (n_inode nj) = Ok ij -> is_link (i_mode ij) && follow = false ->
  goes f sb follow (n_inode ni) names (n_inode nj).
Proof.
  pose proof (mi_wf _ _ _ _ Hm) as Hwf.
  induction 1 as [i|i c n rest j Hc Hn Hw IH]; intros ni nj ij Hi Hj Hij Hlast.
  { assert (ni = nj) as -> by congruence. constructor. }
  pose proof (parent_directory i c ni Hc Hi) as Hpd. pose proof Hpd as (d & Hd & Hdir).
  destruct (mi_entry _ _ _ _ Hm i c ni n Hc Hi Hn) as (es & Hes & Hin & Hpl).
  pose proof (child_of_lt t i c Hwf Hc) as Hlt.
  destruct (mi_recorded _ _ _ _ Hm c n Hn ltac:(lia)) as (ic & _ & Hic & _).
  eapply (goes_cons f sb follow _ d es _ (n_inode n) ic); try done.
  - apply find_entry_unique; [by eapply (Hdistinct i ni)|done].
  - inversion Hw as [|? c' n' ? ? Hc' ? ?]; subst.
    + assert (n = nj) as -> by congruence. congruence.
    + destruct (parent_directory c c' n Hc' Hn) as (d' & Hd' & Hdir'). assert (d' = ic) as -> by congruence.
      by rewrite (dir_not_link _ Hdir').
  - by eapply IH.
Qed.

Lemma tree_names_unique : names_unique t.
Proof.
  intros p c1 c2 n1 n2 H1 H2 Hn1 Hn2 Heq. pose proof (child_of_lt t p c1 (mi_wf _ _ _ _ Hm) H1) as Hlt.
  destruct H1 as (pn & Hp & Hc1). pose proof (ex_intro _ pn (conj Hp Hc1) : child_of t p c1) as H1.
  destruct (mi_entry _ _ _ _ Hm p c1 pn n1 H1 Hp Hn1) as (es & Hes & Hin1 & _).
  destruct (mi_entry _ _ _ _ Hm p c2 pn n2 H2 Hp Hn2) as (es' & Hes' & Hin2 & _).
  assert (es' = es) as -> by congruence. pose proof (Hdistinct p pn es Hp (parent_directory p c1 pn H1 Hp) Hes) as Hnd.
  apply (find_entry_unique _ _ _ Hnd) in Hin1. apply (find_entry_unique _ _ _ Hnd) in Hin2.
  apply (mi_distinct _ _ _ _ Hm c1 c2 n1 n2 Hn1 Hn2). rewrite Heq in Hin1. congruence.
Qed.

Lemma tree_resolves names i n inode :
  on_image f sb r -> Forall part_ok names -> lookup (E := ReadError) t (abs_path names) = Ok (Some i) ->
  nodes t !! i = Some n -> disk_inode f sb (n_inode n) = Ok inode ->
  (stat_no_follow (abs_path names) r).1 = Ok (n_inode n, inode) /\
  (is_link (i_mode inode) = false -> (stat (abs_path names) r).1 = Ok (n_inode n, inode)).
Proof.
  intros Himg Hnames Hfound Hn Hi. destruct (lookup_spec (E := ReadError) t (mi_wf _ _ _ _ Hm) tree_names_unique (abs_path names)) as (o & Ho & Hw).
  rewrite Hfound in Ho. injection Ho as <-. pose proof (proj1 (Hw i) eq_refl) as Hwalk.
  rewrite components_abs_path, named_parts in Hwalk by done.
  destruct (mi_root _ _ _ _ Hm) as (n0 & Hn0 & Hi0 & _). destruct (wf_root t (mi_wf _ _ _ _ Hm)) as [Hr0 _].
  rewrite Hr0 in Hwalk.
  assert (forall follow, is_link (i_mode inode) && follow = false ->
    (resolve_path (abs_path names) follow r).1 = Ok (n_inode n, inode)) as H.
  { intros follow Hf. unfold resolve_path. rewrite normalize_abs by done. rewrite <- Hi0.
    pose proof (walk_goes follow _ _ _ Hwalk n0 n inode Hn0 Hn Hi Hf) as Hg.
    destruct (answers_goes f sb (abs_path names) follow MAX_SYMLINK_HOPS _ _ _ ∅ Hg [] r Himg) as (-> & _). by rewrite Hi. }
  split; [apply H; by rewrite andb_false_r|]. intros Hl. apply H. by rewrite Hl.
Qed.
End Tree.

(** A part of a list cut at [size]. *)
Lemma window_spec (c : list Z) size off count :
  0 <= off -> 0 <= count -> 0 <= size ->
  sub_bytes c (Z.min off size) (Z.min count (size - Z.min off size)) =
  take (Z.to_nat count) (drop (Z.to_nat off) (take (Z.to_nat size) c)).
Proof.
  intros Ho Hc Hs. unfold sub_bytes. rewrite skipn_firstn_comm, take_take.
  destruct (Z_le_gt_dec off size) as [Hle|Hgt].
  - rewrite (Z.min_l off size) by lia. f_equal. lia.
  - replace (Z.to_nat (Z.min count (size - Z.min off size))) with 0%nat by lia.
    by replace (Nat.min (Z.to_nat count) (Z.to_nat size - Z.to_nat off)) with 0%nat by lia.
Qed.

Lemma read_file_spec (f : File) (sb : SuperBlock) (r : Reader) path offset count number inode rs :
  0 < block_size sb -> f_len f <= i64_max -> on_image f sb r -> (stat path r).1 = Ok (number, inode) ->
  0 <= offset -> 0 <= default 0 count -> stored f sb number inode rs (file_size inode) ->
  (read_file path offset count r).1 =
    if is_dir (i_mode inode) then Err (IsDirectory path)
    else if negb (is_reg (i_mode inode)) then Err (NotAFile path)
    else
      let data := take (Z.to_nat (file_size inode)) (content f (block_size sb) rs) in
      Ok (take (Z.to_nat (default (file_size inode) count)) (drop (Z.to_nat offset) data)).
Proof.
  intros Hb Hlen Hr Hstat Hoffset Hcount Hstored. destruct (determined_query f sb path) as [v Hv].
  destruct (Hv r Hr) as (Hv' & Hr' & _). assert (v = Ok (number, inode)) as -> by congruence. clear Hv'.
  unfold read_file. rewrite R_bind_eq. destruct (stat path r) as [w r'] eqn:Hrun. cbn [fst snd] in *. subst w.
  destruct (is_dir (i_mode inode)); [done|]. destruct (is_reg (i_mode inode)); [|done]. cbn [negb].
  set (size := file_size inode) in *. set (c := content f (block_size sb) rs) in *. pose proof (sf_size _ _ _ _ _ _ Hstored) as Hsize.
  fold c in Hsize. set (start := Z.min offset size). set (want := match count with Some _ => _ | None => _ end).
  assert (want = Z.min (default size count) (size - start)) as Hwant.
  { subst want. destruct count; simpl; [done|lia]. }
  assert (sub_bytes c start want = take (Z.to_nat (default size count)) (drop (Z.to_nat offset) (take (Z.to_nat size) c))) as Hsub.
  { rewrite <- window_spec by (destruct count; simpl in *; lia). unfold start. by rewrite Hwant. }
  assert (0 <= want) as Hw0 by (rewrite Hwant; destruct count; simpl in *; lia).
  destruct (Z.eqb_spec want 0) as [Hz|Hz]; [rewrite <- Hsub, Hz; done|].
  rewrite <- Hsub.
  eapply (answers_read_from_extents f sb number inode rs size start want); try done; lia.
Qed.

(** ** Properties *)

(** C22: Caching is invisible.  Whatever sequence of queries is put to an opened
    reader, every answer, errors included, is the one a reader that has cached
    nothing would give: the answers depend on the image and on nothing asked
    before. *)
Theorem queries_ignore_history (path : list Z) (f : File) (r : Reader) (qs : list Query)
    (Hread : readable f) (Hopen : Reader_new path (Some f) = Ok r) :
  ask_all qs r = map (fun q => (ask q (opened_reader f (superblock_of f))).1) qs.
Proof.
  pose proof (Reader_new_spec path f Hread) as H. rewrite Hopen in H. apply ask_all_fresh, H.
Qed.

(** C21: Reading a regular file returns exactly its bytes: of the data in its
    extents, cut at the file size, the part from the offset on, at most as much
    as asked for; nothing at or past the end.  A directory and any other kind
    of file are refused. *)
Theorem read_file_exact (f : File) (r : Reader) (path : list Z) (offset : Z) (count : option Z)
    (number : Z) (inode : Inode) (rs : list (Z * Z))
    (Hread : readable f) (Hlen : f_len f <= i64_max) (Hr : on_image f (superblock_of f) r)
    (Hstat : (stat path r).1 = Ok (number, inode)) (Hoffset : 0 <= offset) (Hcount : 0 <= default 0 count)
    (Hstored : stored f (superblock_of f) number inode rs (file_size inode)) :
  (read_file path offset count r).1 =
    if is_dir (i_mode inode) then Err (IsDirectory path)
    else if negb (is_reg (i_mode inode)) then Err (NotAFile path)
    else
      let data := take (Z.to_nat (file_size inode)) (content f (block_size (superblock_of f)) rs) in
      Ok (take (Z.to_nat (default (file_size inode) count)) (drop (Z.to_nat offset) data)).
Proof.
  eapply read_file_spec; try done.
  eapply Z.lt_le_trans; [|apply (block_size_bounds _ (rd_block_size f Hread))]. lia.
Qed.

(** C34: The tree and path resolution agree: in an image whose directories have
    distinct names, every node the tree's [lookup] finds at a path is what
    [stat] resolves that path to, unless it is a symbolic link, which [stat]
    follows and [stat_no_follow] returns. *)
Theorem tree_paths_resolve (path : list Z) (f : File) (r : Reader) (names : list (list Z)) (i : nat)
    (n : FileTreeNode) (inode : Inode)
    (Hread : readable f) (Hopen : Reader_new path (Some f) = Ok r)
    (Hroot : is_directory f (superblock_of f) ROOT_INODE)
    (Hdistinct : forall i n es, nodes (r_tree r) !! i = Some n -> is_directory f (superblock_of f) (n_inode n) ->
       disk_entries f (superblock_of f) (n_inode n) = Ok es -> NoDup (map fst es))
    (Hnames : Forall part_ok names)
    (Hfound : lookup (E := ReadError) (r_tree r) (abs_path names) = Ok (Some i))
    (Hnode : nodes (r_tree r) !! i = Some n)
    (Hinode : disk_inode f (superblock_of f) (n_inode n) = Ok inode) :
  (stat_no_follow (abs_path names) r).1 = Ok (n_inode n, inode) /\
  (is_link (i_mode inode) = false -> (stat (abs_path names) r).1 = Ok (n_inode n, inode)).
Proof.
  pose proof (Reader_new_spec path f Hread) as H. rewrite Hopen in H. destruct H as [Himg Hm].
  exact (tree_resolves f (superblock_of f) r Hm Hroot Hdistinct names i n inode Himg Hnames Hfound Hnode Hinode).
Qed.

(** ** Where resolution departs from its documentation *)

(** [stat_no_follow] is to leave the last component alone; it follows no
    symbolic link at all, so a path through one fails. *)
Theorem no_follow_follows_none (f : File) (sb : SuperBlock) (r : Reader) (path a b : list Z) (rest : list (list Z))
    (root_inode link : Inode) (es : list (list Z * Z)) (n : Z)
    (Hr : on_image f sb r) (Hpath : normalize_path path = a :: b :: rest) (Ha : plain a) (Hb : plain b)
    (Hroot : disk_inode f sb ROOT_INODE = Ok root_inode) (Hdir : is_dir (i_mode root_inode) = true)
    (Hes : disk_entries f sb ROOT_INODE = Ok es) (Hn : find_entry a es = Some n)
    (Hlink : disk_inode f sb n = Ok link) (Hkind : is_link (i_mode link) = true) :
  (stat_no_follow path r).1 = Err (NotADirectory b).
Proof.
  assert (answers f sb (stat_no_follow path) (Err (NotADirectory b))) as H; [|by apply H].
  unfold stat_no_follow, resolve_path. rewrite Hpath. generalize MAX_SYMLINK_HOPS as hops. intros hops.
  eapply answers_step; [done..| |by exists n]. intros j Hj. assert (j = n) as -> by congruence.
  exists link. split; [done|]. split; [by rewrite andb_false_r|].
  destruct Hb as [Hb1 Hb2].
  assert (is_dir (i_mode link) = false) as Hnd by (unfold is_dir, is_link in *; by apply Z.eqb_eq in Hkind as ->).
  destruct hops; cbn [resolve_from]; rewrite (bool_decide_eq_false_2 _ Hb1), (bool_decide_eq_false_2 _ Hb2);
    (eapply answers_bind_ok; [rewrite <- Hlink; apply answers_inode|]; rewrite Hnd; apply answers_fail).
Qed.

(** The set of visited links refuses a second use of a link even where there is
    no loop: a path that goes through a link, back, and through it again. *)
Theorem second_use_refused (f : File) (sb : SuperBlock) (r : Reader) (path l t : list Z) (rest : list (list Z))
    (root_inode link dir : Inode) (es : list (list Z * Z)) (n d : Z)
    (Hr : on_image f sb r) (Hpath : normalize_path path = l :: DOTDOT :: l :: rest) (Hl : plain l)
    (Hroot : disk_inode f sb ROOT_INODE = Ok root_inode) (Hrdir : is_dir (i_mode root_inode) = true)
    (Hes : disk_entries f sb ROOT_INODE = Ok es) (Hn : find_entry l es = Some n)
    (Hlink : disk_inode f sb n = Ok link) (Hkind : is_link (i_mode link) = true)
    (Hsize : 0 < file_size link < INODE_BLOCK_SIZE)
    (Htarget : from_utf8_lossy (sub_bytes (i_block link) 0 (file_size link)) = t)
    (Ht : part_ok t /\ plain t) (Hd : find_entry t es = Some d) (Hdr : d <> ROOT_INODE)
    (Hdir : disk_inode f sb d = Ok dir) (Hddir : is_dir (i_mode dir) = true) :
  (stat path r).1 = Err (SymlinkLoop path).
Proof.
  assert (answers f sb (stat path) (Err (SymlinkLoop path))) as H; [|by apply H].
  unfold stat, resolve_path. rewrite Hpath. change MAX_SYMLINK_HOPS with (S (Nat.pred MAX_SYMLINK_HOPS)).
  generalize (Nat.pred MAX_SYMLINK_HOPS) as hops. intros hops. destruct Hl as [Hl1 Hl2].
  cbn [resolve_from]. rewrite (bool_decide_eq_false_2 _ Hl1), (bool_decide_eq_false_2 _ Hl2).
  eapply answers_bind_ok; [rewrite <- Hroot; apply answers_inode|]. rewrite Hrdir. cbn [negb].
  eapply answers_bind_ok; [rewrite <- Hes; apply answers_entries|].
  eapply answers_bind_ok; [apply answers_pure; intros; by rewrite Hn|].
  eapply answers_bind_ok; [rewrite <- Hlink; apply answers_inode|]. rewrite Hkind. cbn [andb].
  rewrite (bool_decide_eq_false_2 (n ∈ ∅)) by set_solver.
  assert (answers f sb (read_symlink_target link n) (Ok t)) as Hread.
  { unfold read_symlink_target. replace (file_size link =? 0) with false by lia.
    replace (file_size link <? INODE_BLOCK_SIZE) with true by lia. rewrite Htarget. apply answers_ret. }
  eapply answers_bind_ok; [exact Hread|]. destruct Ht as [Hpart [Ht1 Ht2]].
  rewrite (bool_decide_eq_false_2 (t = [])) by apply Hpart. rewrite is_absolute_part by done.
  rewrite normalize_part by done. cbn [app]. eapply answers_step; [done..| |by exists d]. intros j Hj. assert (j = d) as -> by congruence.
  exists dir. split; [done|]. split; [by rewrite (dir_not_link _ Hddir)|].
  assert ((d =? ROOT_INODE) = false) as Hdr' by by apply Z.eqb_neq.
  destruct hops; cbn [resolve_from]; rewrite (bool_decide_eq_false_2 (DOTDOT = DOT)) by done;
    rewrite (bool_decide_eq_true_2 (DOTDOT = DOTDOT)) by done; rewrite Hdr', (bool_decide_eq_false_2 _ Hl1), (bool_decide_eq_false_2 _ Hl2);
    (eapply answers_bind_ok; [rewrite <- Hroot; apply answers_inode|]; rewrite Hrdir; cbn [negb];
     eapply answers_bind_ok; [rewrite <- Hes; apply answers_entries|];
     eapply answers_bind_ok; [apply answers_pure; intros; by rewrite Hn|];
     eapply answers_bind_ok; [rewrite <- Hlink; apply answers_inode|]; rewrite Hkind; cbn [andb];
     rewrite (bool_decide_eq_true_2 (n ∈ _)) by set_solver; apply answers_fail).
Qed.

(** ** Witnesses *)

Section Small.
Context (f : File) (sb : SuperBlock) (Hsmall : small_layout f sb).

Lemma small_goes : goes f sb true ROOT_INODE [[100]; [103]] 12.
Proof.
  destruct Hsmall as [_ _ (i2 & H2 & D2) (i11 & H11 & D11) (i12 & H12 & _ & _ & R12) _ (e2 & E2 & F2 & _) (e11 & E11 & F11) _].
  eapply (goes_cons _ _ true ROOT_INODE i2 e2 [100] 11 i11); try done; [by rewrite dir_not_link|].
  eapply (goes_cons _ _ true 11 i11 e11 [103] 12 i12); try done; [|constructor].
  rewrite andb_true_r. unfold is_reg, is_link in *. by apply Z.eqb_eq in R12 as ->.
Qed.

(** The path [/d/g] leads to the file. *)
Lemma small_stat r inode :
  on_image f sb r -> disk_inode f sb 12 = Ok inode -> (stat [47; 100; 47; 103] r).1 = Ok (12, inode).
Proof.
  intros Hr Hi. unfold stat, resolve_path. change (normalize_path [47; 100; 47; 103]) with [[100]; [103]].
  destruct (answers_goes _ _ [47; 100; 47; 103] true MAX_SYMLINK_HOPS _ _ _ ∅ small_goes [] r Hr) as (-> & _).
  by rewrite Hi.
Qed.

Lemma small_stored inode :
  disk_inode f sb 12 = Ok inode -> parse_extents inode 4096 f = Ok [(5, 6)] -> stored f sb 12 inode [(5, 6)] 5.
Proof.
  intros Hi Hx. pose proof (sl_len _ _ Hsmall) as Hl. pose proof (sl_block_size _ _ Hsmall) as Hb.
  assert (zlen (content f 4096 [(5, 6)]) = 4096) as Hc.
  { unfold content. cbn [map concat]. rewrite app_nil_r. apply zlen_bytes_at. by compute. }
  constructor; rewrite ?Hb; [exact Hi|exact Hx| |rewrite Hc; lia|rewrite Hc; unfold i64_max; lia].
  constructor; [|constructor]. unfold range_in. rewrite Hl. cbn [fst snd]. lia.
Qed.
End Small.

Lemma queries_ignore_history_witness :
  exists r, Reader_new [] (Some small_image) = Ok r /\
    ask_all [QListDir [47]; QReadFile [102] 1 None; QStat [109]] r =
    map (fun q => (ask q (opened_reader small_image (superblock_of small_image))).1)
      [QListDir [47]; QReadFile [102] 1 None; QStat [109]].
Proof.
  destruct small_opens as (r & Hr & _). exists r. split; [done|].
  apply (queries_ignore_history [] small_image r [QListDir [47]; QReadFile [102] 1 None; QStat [109]] small_readable Hr).
Defined.

Lemma read_file_exact_witness :
  exists r, Reader_new [] (Some small_image) = Ok r /\
    (read_file [47; 100; 47; 103] 1 (Some 3) r).1 = Ok [101; 108; 108].
Proof.
  destruct small_opens as (r & Hr & _). exists r. split; [done|].
  pose proof (Reader_new_spec [] small_image small_readable) as Hs.
  rewrite Hr in Hs. destruct Hs as [Himg _].
  destruct (sl_file _ _ small_disk) as (inode & Hi & Hx & Hsize & Hreg).
  assert (is_dir (i_mode inode) = false) as Hnd by (unfold is_dir, is_reg in *; by apply Z.eqb_eq in Hreg as ->).
  rewrite (read_file_exact small_image r [47; 100; 47; 103] 1 (Some 3) 12 inode [(5, 6)] small_readable).
  - rewrite Hnd, Hreg, Hsize, (sl_block_size _ _ small_disk). vm_compute. reflexivity.
  - rewrite (sl_len _ _ small_disk). unfold i64_max. lia.
  - done.
  - apply (small_stat _ _ small_disk r inode Himg Hi).
  - lia.
  - simpl. lia.
  - rewrite Hsize. apply (small_stored _ _ small_disk inode Hi Hx).
Defined.

Lemma small_node r i n : small_tree r -> nodes (r_tree r) !! i = Some n -> n_inode n ∈ [2; 11; 12; 13; 14].
Proof.
  intros Ht Hn. apply (list_elem_of_lookup_2 _ i) in Hn. apply (list_elem_of_fmap_2 (fun n => (n_name n, n_inode n))) in Hn.
  change (fmap _ ?l) with (map (fun n => (n_name n, n_inode n)) l) in Hn. rewrite (sm_nodes r Ht) in Hn.
  apply (list_elem_of_fmap_2 snd) in Hn. exact Hn.
Qed.

Lemma tree_paths_resolve_witness :
  exists r inode, Reader_new [] (Some small_image) = Ok r /\ (stat (abs_path [[100]]) r).1 = Ok (11, inode).
Proof.
  destruct small_opens as (r & Hr & Ht). destruct (sl_dir _ _ small_disk) as (inode & Hi & Hd). exists r, inode. split; [done|].
  assert (exists n, nodes (r_tree r) !! 1%nat = Some n /\ n_inode n = 11) as (n & Hn & Hni).
  { pose proof (sm_nodes r Ht) as H. apply (f_equal (fun l => l !! 1%nat)) in H. rewrite list_lookup_fmap in H.
    destruct (nodes (r_tree r) !! 1%nat) as [n|]; [|done]. exists n. split; [done|]. by injection H. }
  destruct (tree_paths_resolve [] small_image r [[100]] 1 n inode small_readable Hr) as (_ & H).
  - apply (sl_root _ _ small_disk).
  - intros i m es Hm _. apply (sl_unique _ _ small_disk), (small_node r i m Ht Hm).
  - constructor; [|constructor]. by apply (bool_decide_unpack _); vm_compute.
  - apply (sm_lookup r Ht).
  - done.
  - by rewrite Hni.
  - rewrite Hni in H. apply H. by apply dir_not_link.
Defined.
