(* ===== verification/CloseTree.v ===== *)
(** A finished image: what the reader finds at the paths of the builder's tree.

    [close] is [commit_directories] and [write_image]; the facts of both are put
    together here, and every property is one of [close]. *)

From stdpp Require Import gmap.
From S2P Require Import Prelude Bytes Types Layout RustStr RustPath RustSort Errors Disk Tables Dir FileTree Extent.
From S2P Require Import Geometry Flex Formatter Payload FormatterTree BuilderInv.
From S2P Require Import ImageReader ReaderFacts ReaderTree ReaderQueries.
From S2P Require Import Close CloseBitmaps CloseWrites CloseSkips ClosePlan CloseImage CloseOrder CloseDirs CloseReads FileCreate.

(** ** Directories on the disk *)

Lemma leaf_range_bounds l : leaf_ok l -> 0 <= (leaf_range l).1 < (leaf_range l).2 /\ (leaf_range l).2 <= u32_max.
Proof.
  intros (Hwf & Hlen & _ & Hend). unfold leaf_range, ExtentLeaf_wf in *. cbn [fst snd].
  destruct_and! Hwf. unfold u32_max, is_u32 in *. rewrite u32_small by (unfold_ranges; lia). lia.
Qed.

Section Entries.
Context (f : File) (sb : SuperBlock).
Hypothesis (Hbs : block_size sb = 4096).

Lemma block_entries_eq b : parse_dir_entries (bytes_at f (b * 4096) 4096) = block_entries f b.
Proof. unfold block_entries. reflexivity. Qed.

Lemma dir_blocks_spec start n : forall k,
  0 <= start -> 0 <= k -> (start + k + Z.of_nat n) * 4096 <= f_len f ->
  disk_dir_blocks f sb start ((start + k) * 4096) (seqZ k (Z.of_nat n)) =
  Ok (concat (map (block_entries f) (seqZ (start + k) (Z.of_nat n)))).
Proof.
  induction n as [|n IH]; intros k Hs Hk Hf; [done|].
  rewrite !(seqZ_cons _ (Z.of_nat (S n))) by lia. cbn [disk_dir_blocks map concat]. rewrite Hbs.
  rewrite vec_capacity_small by (by compute). cbn [mbind res_bind].
  replace ((start + k) * 4096 + 4096 <=? f_len f) with true by lia.
  replace ((start + k) * 4096 + 4096) with ((start + Z.succ k) * 4096) by lia.
  replace (Z.pred (Z.of_nat (S n))) with (Z.of_nat n) by lia. rewrite IH by lia. cbn [mbind res_bind].
  rewrite block_entries_eq. replace (start + Z.succ k) with (Z.succ (start + k)) by lia. reflexivity.
Qed.

Lemma dir_extent_spec a b hi :
  0 <= a <= b -> b <= u32_max -> b * 4096 <= hi -> hi <= f_len f -> hi <= i64_max ->
  disk_dir_extent f sb (a, b) = Ok (concat (map (block_entries f) (seqZ a (b - a)))).
Proof.
  intros Ha Hb Hh Hf Hi. unfold disk_dir_extent. cbn [fst snd]. rewrite Hbs.
  rewrite u64_small, u32_small by (unfold_ranges; unfold u32_max, i64_max in *; lia).
  replace (a * 4096 <=? i64_max) with true by lia. pose proof (dir_blocks_spec a (Z.to_nat (b - a)) 0) as H.
  rewrite Z2Nat.id, Z.add_0_r in H by lia. apply H; lia.
Qed.

(** The loop over the extents collects the entries of their blocks. *)
Lemma dir_extents_spec hi ls : forall acc,
  hi <= f_len f -> hi <= i64_max -> Forall leaf_ok ls ->
  Forall (fun b => 0 <= b /\ (b + 1) * 4096 <= hi) (pair_blocks (map leaf_range ls)) ->
  foldM (fun entries extent => here ← disk_dir_extent f sb extent; Ok (entries ++ here)) acc (map leaf_range ls) =
  Ok (acc ++ concat (map (block_entries f) (pair_blocks (map leaf_range ls)))).
Proof.
  induction ls as [|l ls IH]; intros acc Hf Hi Hok Hb; [by rewrite app_nil_r|].
  apply Forall_cons_1 in Hok as [Hl Hok]. change (pair_blocks (map leaf_range (l :: ls))) with
    (seqZ (leaf_range l).1 ((leaf_range l).2 - (leaf_range l).1) ++ pair_blocks (map leaf_range ls)) in *.
  apply Forall_app in Hb as [Hb0 Hb]. cbn [map foldM]. destruct (leaf_range l) as [a b] eqn:El. cbn [fst snd] in *.
  pose proof (leaf_range_bounds l Hl) as [Hab Hbu]. rewrite El in Hab, Hbu. cbn [fst snd] in Hab, Hbu.
  rewrite list.Forall_forall in Hb0. specialize (Hb0 (b - 1) ltac:(apply elem_of_seqZ; lia)).
  rewrite (dir_extent_spec a b hi) by lia. cbn [mbind res_bind]. rewrite IH by done.
  rewrite map_app, concat_app, app_assoc. reflexivity.
Qed.
End Entries.

(** ** Contents *)

Section Contents.
Context (g : File).

Lemma range_content a n :
  bytes_at g (a * 4096) (Z.of_nat n * 4096) = concat (map (fun b => bytes_at g (b * 4096) 4096) (seqZ a (Z.of_nat n))).
Proof.
  revert a. induction n as [|n IH]; intros a; [done|]. rewrite seqZ_cons by lia. cbn [map concat].
  replace (Z.pred (Z.of_nat (S n))) with (Z.of_nat n) by lia. rewrite <- IH.
  replace (Z.of_nat (S n) * 4096) with (4096 + Z.of_nat n * 4096) by lia. rewrite bytes_at_app by lia.
  replace (a * 4096 + 4096) with (Z.succ a * 4096) by lia. reflexivity.
Qed.

Lemma content_blocks rs :
  Forall (fun r => r.1 <= r.2) rs ->
  content g 4096 rs = concat (map (fun b => bytes_at g (b * 4096) 4096) (pair_blocks rs)).
Proof.
  induction 1 as [|[a b] rs Hr _ IH]; [done|]. cbn [fst snd] in Hr.
  change (content g 4096 ((a, b) :: rs)) with (bytes_at g (a * 4096) ((b - a) * 4096) ++ content g 4096 rs).
  change (pair_blocks ((a, b) :: rs)) with (seqZ a (b - a) ++ pair_blocks rs). rewrite map_app, concat_app, IH. f_equal.
  pose proof (range_content a (Z.to_nat (b - a))) as H. rewrite Z2Nat.id in H by lia. exact H.
Qed.

Lemma nth_blocks bl : forall i, 0 <= i < 4096 * zlen bl ->
  nth (Z.to_nat i) (concat (map (fun b => bytes_at g (b * 4096) 4096) bl)) 0 = f_data g (nth (Z.to_nat (i / 4096)) bl 0 * 4096 + i mod 4096).
Proof.
  induction bl as [|b bl IH]; intros i Hi; [change (zlen []) with 0 in Hi; lia|]. cbn [map concat]. rewrite zlen_cons in Hi.
  pose proof (zlen_bytes_at g (b * 4096) 4096 ltac:(lia)) as Hz. destruct (Z_lt_le_dec i 4096) as [Hlt|Hge].
  - rewrite app_nth1 by (unfold zlen in Hz; lia). rewrite Z.div_small, Z.mod_small by lia. change (Z.to_nat 0) with O. cbn [nth].
    apply nth_lookup_Some. rewrite lookup_bytes_at by lia. do 3 f_equal. lia.
  - rewrite app_nth2 by (unfold zlen in Hz; lia). pose proof (IH (i - 4096) ltac:(lia)) as H.
    assert (i / 4096 = (i - 4096) / 4096 + 1 /\ i mod 4096 = (i - 4096) mod 4096) as [-> ->].
    { replace i with (i - 4096 + 1 * 4096) at 1 3 by lia. rewrite Z.div_add, Z.mod_add by lia. split; reflexivity. }
    assert (0 <= (i - 4096) / 4096) by (apply Z.div_pos; lia).
    replace (Z.to_nat ((i - 4096) / 4096 + 1)) with (S (Z.to_nat ((i - 4096) / 4096))) by lia. cbn [nth]. rewrite <- H. f_equal.
    unfold zlen in Hz. lia.
Qed.

Lemma zlen_blocks bl : zlen (concat (map (fun b => bytes_at g (b * 4096) 4096) bl)) = 4096 * zlen bl.
Proof.
  induction bl as [|b bl IH]; [done|]. cbn [map concat]. rewrite zlen_app, zlen_cons, IH, zlen_bytes_at by lia. lia.
Qed.

(** The blocks a file is in hold its bytes. *)
Lemma file_content area hi f inode bytes :
  holds_file area hi f inode bytes -> keeps area hi f g -> exists leaves,
    parse_extents inode 4096 g = Ok (map leaf_range leaves) /\ Forall (range_in g 4096) (map leaf_range leaves) /\
    zlen bytes <= zlen (content g 4096 (map leaf_range leaves)) < zlen bytes + 4096 /\
    take (length bytes) (content g 4096 (map leaf_range leaves)) = bytes.
Proof.
  intros [_ H] Hk. destruct (H g Hk) as (ls & Hp & Hok & Hb & Hlen & Hdata). destruct Hk as [Hgl _]. exists ls.
  assert (Forall (range_in g 4096) (map leaf_range ls)) as Hin.
  { apply list.Forall_forall. intros r Hr. apply list_elem_of_In, in_map_iff in Hr as (l & <- & Hl%list_elem_of_In).
    rewrite list.Forall_forall in Hok. rewrite list.Forall_forall in Hb. destruct (leaf_range_bounds l (Hok l Hl)) as [Hab _]. unfold range_in. split; [lia|].
    assert ((leaf_range l).2 - 1 ∈ pair_blocks (map leaf_range ls)) as Hlast; [|specialize (Hb _ Hlast); lia].
    unfold pair_blocks. rewrite map_map. apply list_elem_of_In, in_concat. eexists. split.
    - apply in_map_iff. exists l. split; [reflexivity|by apply list_elem_of_In].
    - apply list_elem_of_In, elem_of_seqZ. lia. }
  assert (content g 4096 (map leaf_range ls) = concat (map (fun b => bytes_at g (b * 4096) 4096) (pair_blocks (map leaf_range ls)))) as Ec.
  { apply content_blocks. eapply list.Forall_impl; [exact Hin|]. intros r Hr. apply Hr. }
  rewrite Ec, zlen_blocks. split; [exact Hp|]. split; [exact Hin|]. split; [exact Hlen|].
  apply list_eq_same_length with (length bytes); [done| |].
  - rewrite length_take. pose proof (zlen_blocks (pair_blocks (map leaf_range ls))) as Hz. unfold zlen in *. lia.
  - intros i x y Hi Hx Hy. rewrite lookup_take_lt in Hx by done. specialize (Hdata (Z.of_nat i) ltac:(unfold zlen; lia)).
    rewrite <- nth_blocks in Hdata by (unfold zlen in *; lia). rewrite Nat2Z.id in Hdata.
    apply (nth_lookup_Some _ _ 0) in Hx, Hy. congruence.
Qed.
End Contents.

(** ** Paths of the builder *)

(** The inode an entry names: the link's target, or the node's own. *)
Definition node_number (x : FileTreeNode) : Z := default (n_inode x) (n_link x).

(** From node [i], the names lead to node [j] through live directories, and every
    entry on the way has an inode with links. *)
Inductive leads (s : Formatter) : nat -> list (list Z) -> nat -> Prop :=
| leads_nil i : leads s i [] i
| leads_cons i c x m rest j :
    live_dir s i -> child_of (fm_tree s) i c -> nodes (fm_tree s) !! c = Some x ->
    meta_at s (node_number x) = Some m -> m.2 <> 0 -> leads s c rest j -> leads s i (n_name x :: rest) j.

(** ** The closed image *)

Section Closed.
Context (s s' : Formatter).
Hypothesis (Hcl : closable s).
Hypothesis (Hrun : close s = (Ok tt, s')).
Abbreviation f := (fm_file s').
Abbreviation sb := (superblock_of (fm_file s')).
Abbreviation area := (group_descriptor_blocks BLOCK_SIZE (fm_size s)).

Lemma close_inv : exists s1, dirs_done s s1 /\ write_image s1 = (Ok tt, s').
Proof.
  destruct (commit_directories_spec s Hcl) as (s1 & Hdirs & Hd). exists s1. split; [done|].
  unfold close in Hrun. by rewrite (run_bind _ _ _ _ _ Hdirs) in Hrun.
Qed.

(** What the rest of the image leaves of the state the directories are in. *)
Record finished (s1 : Formatter) : Prop := {
  fi_dirs : dirs_done s s1;
  fi_block_size : block_size sb = 4096;
  fi_inode : forall n inode, 1 <= n -> fm_inodes s' !! Z.to_nat (n - 1) = Some inode -> disk_inode f sb n = Ok inode;
  fi_keeps : keeps area (fpos s1) (fm_file s1) f;
  fi_inodes : forall k, k <> 6%nat -> fm_inodes s' !! k = fm_inodes s1 !! k;
  fi_inodes_wf : Forall Inode_wf (fm_inodes s') /\ length (fm_inodes s') = length (fm_inodes s);
  fi_superblock : SuperBlock_wf sb;
  fi_tree : fm_tree s' = fm_tree s1;
  fi_area : group_descriptor_blocks BLOCK_SIZE (fm_size s') = area;
  fi_len : f_len f <= MAX_IMAGE
}.

Lemma close_finished : exists s1, finished s1.
Proof.
  destruct close_inv as (s1 & Hd & Hw). exists s1. pose proof Hd as [[cost Hmv] Hready Harea _ _].
  destruct (write_image_inv s1 s' Hready Hw) as (pl & s2 & gaps & gt & sb' & table & Hmade & Hlaid & Him & Hle & _).
  destruct (superblock_facts _ _ _ _ _ _ _ Him) as (Esb & Hbs & _). pose proof Him as [Hsize Hstate (t & Ht & Hiwf) _ _ Hg (name & j & _ & Hwf & _) _ _ _ _ _].
  assert (group_descriptor_blocks BLOCK_SIZE (fm_size s') = area) as Ha.
  { destruct (image_outcome s1 Hready) as (s3 & _ & Ho). rewrite Hw in Ho.
    pose proof (f_equal snd Ho) as Es. apply (f_equal fst) in Ho. cbn [fst snd] in Ho, Es. subst s3.
    destruct (Z.eqb_spec (group_descriptor_blocks BLOCK_SIZE (fm_size s1)) (group_descriptor_blocks BLOCK_SIZE (fm_size s'))); [congruence|done]. }
  assert (length (fm_inodes s') = length (fm_inodes s1)) as Hlen by (rewrite Ht; apply length_insert).
  constructor.
  - exact Hd.
  - by rewrite Esb.
  - intros n inode Hn Hi. by apply (image_inodes_read_back s1 s' n inode).
  - split; [pose proof (gc_length _ _ _ _ _ Hg); pose proof (pm_dind _ _ _ Hmade); pose proof (lo_table _ _ _ Hlaid); pose proof (zlen_nonneg (fm_inodes s')); lia|].
    intros x Hx Hr. apply (image_keeps_payload s1 s' x Hready Hw Hx). by rewrite Ha.
  - intros k Hk. rewrite Ht. by apply list_lookup_insert_ne.
  - split; [done|]. rewrite Hlen. by destruct Hmv as [_ [_ _ _ _ _ ->] _ _ _ _ _ _].
  - by rewrite Esb.
  - apply Hstate.
  - exact Ha.
  - pose proof (mi_length _ _ _ _ _ _ _ Him). pose proof (lo_groups _ _ _ Hlaid). unfold MAX_IMAGE. lia.
Qed.

Lemma valid_number n : valid_inode (length (fm_inodes s)) n -> inode_index n = Z.to_nat (n - 1) /\ 1 <= n.
Proof.
  intros [H1 H2]. destruct (cl_inv _ Hcl) as [_ Hm]. unfold zlen, u32_max in Hm. unfold inode_index.
  rewrite u32_small by (unfold_ranges; lia). done.
Qed.

(** An inode but the resize inode reads back with its mode and links; a file's as it was. *)
Lemma closed_inode n inode :
  valid_inode (length (fm_inodes s)) n -> n <> RESIZE_INODE_NUMBER -> fm_inodes s !! inode_index n = Some inode ->
  exists inode', disk_inode f sb n = Ok inode' /\ fm_inodes s' !! inode_index n = Some inode' /\
    i_mode inode' = i_mode inode /\ i_links_count inode' = i_links_count inode /\
    (is_dir (i_mode inode) = false -> inode' = inode).
Proof.
  intros Hv Hn Hi. destruct close_finished as [s1 Hfin]. destruct (valid_number n Hv) as [En H1].
  destruct (dd_moved _ _ (fi_dirs _ Hfin)) as [cost Hmv]. pose proof (sv_meta _ _ (mv_view _ _ _ _ Hmv) n) as Hm.
  unfold meta_at in Hm. rewrite Hi in Hm. destruct (fm_inodes s1 !! inode_index n) as [inode'|] eqn:Hi1; [|discriminate Hm].
  injection Hm as Em El. exists inode'.
  assert (fm_inodes s' !! inode_index n = Some inode') as Hi'.
  { rewrite (fi_inodes _ Hfin); [done|]. rewrite En. unfold RESIZE_INODE_NUMBER in Hn. lia. }
  split; [apply (fi_inode _ Hfin n inode' H1); by rewrite <- En|]. split; [done|]. split; [done|]. split; [done|].
  intros Hd. pose proof (dd_keep _ _ (fi_dirs _ Hfin) _ _ Hi Hd). congruence.
Qed.

(** Every live directory reads back. *)
Lemma closed_dir i sh :
  visited (fm_tree s) i -> live_dir s i -> shape_at s i = Some sh ->
  exists p es inode, ((p = None /\ i = root (fm_tree s)) \/ exists q, p = Some q /\ i ∈ kids (fm_tree s) q) /\
    dirents s p i = Some es /\ disk_inode f sb (sh_inode sh) = Ok inode /\ is_dir (i_mode inode) = true /\
    disk_entries f sb (sh_inode sh) = Ok (sort_by entry_cmp (map dirent_view es)).
Proof.
  intros Hv Hlive Hsh. destruct close_finished as [s1 Hfin]. pose proof (fi_dirs _ Hfin) as Hd.
  destruct (dd_dirs _ _ Hd i Hv) as (p & Hp & Hc). destruct (Hc Hlive) as (sh' & es & inode1 & Hsh' & Hes & Hi1 & Hh).
  cbn [fst snd] in *. assert (sh' = sh) as -> by congruence. clear Hsh'.
  destruct Hlive as (sh' & m & Hsh' & Hlink & Hm & _ & Hdir). assert (sh' = sh) as -> by congruence. clear Hsh'.
  assert (exists x, nodes (fm_tree s) !! i = Some x /\ sh = shape_of x) as (x & Hx & ->).
  { unfold shape_at in Hsh. destruct (nodes (fm_tree s) !! i) as [x|]; [|discriminate Hsh]. injection Hsh as <-. by exists x. }
  cbn [sh_inode sh_link shape_of] in *. destruct (ti_inode _ _ (proj1 (cl_inv _ Hcl)) i x Hx) as [Hvx _].
  pose proof (cl_resize _ Hcl i x Hv Hx) as Hr. rewrite Hlink in Hr. cbn [default] in Hr.
  unfold meta_at in Hm. destruct (fm_inodes s !! inode_index (n_inode x)) as [inode|] eqn:Hi; [|discriminate Hm].
  injection Hm as <-. cbn [fst] in Hdir. destruct (closed_inode (n_inode x) inode Hvx Hr Hi) as (inode' & Hdisk & Hi' & Em & _).
  rewrite (fi_inodes _ Hfin) in Hi' by (destruct (valid_number _ Hvx) as [-> ?]; unfold RESIZE_INODE_NUMBER in Hr; lia).
  assert (inode1 = inode') as -> by congruence. exists p, es, inode'. split; [done|]. split; [done|]. split; [done|].
  split; [by rewrite Em|]. unfold disk_entries. rewrite Hdisk. cbn [mbind res_bind]. rewrite (fi_block_size _ Hfin).
  destruct (Hh f (fi_keeps _ Hfin)) as (ls & Hparse & Hok & Hb & He). change BLOCK_SIZE with 4096 in Hparse. rewrite Hparse.
  cbn [mbind res_bind]. destruct (fi_keeps _ Hfin) as [Hlen _]. destruct (dd_ready _ _ Hd) as [_ Hpos _ _ _ _ _ _].
  rewrite (dir_extents_spec f sb (fi_block_size _ Hfin) (fpos s1) ls []) by (done || (unfold DATA_MAX, i64_max in *; lia)).
  cbn [mbind res_bind]. rewrite app_nil_l, He. reflexivity.
Qed.

(** The names of a directory's entries are distinct. *)
Lemma child_dirent_name c e :
  child_dirent s c = Some e -> exists x, nodes (fm_tree s) !! c = Some x /\
    dirent_view e = (n_name x, default (n_inode x) (n_link x)).
Proof.
  unfold child_dirent, shape_at. destruct (nodes (fm_tree s) !! c) as [x|]; [|done].
  cbn [fmap option_fmap option_map mbind option_bind sh_inode sh_link sh_name shape_of].
  destruct (meta_at s (default (n_inode x) (n_link x))) as [m|]; [|done]. cbn [mbind option_bind]. case_match; [done|].
  destruct (meta_at s (Z.max (n_inode x) 1)) as [m'|]; [|done]. cbn [mbind option_bind]. intros [= <-]. by exists x.
Qed.

Lemma omap_names cs i :
  (forall c, c ∈ cs -> child_of (fm_tree s) i c) -> NoDup cs ->
  NoDup (map (fun e => (dirent_view e).1) (omap (child_dirent s) cs)) /\
  forall e, e ∈ omap (child_dirent s) cs -> exists c x, c ∈ cs /\ nodes (fm_tree s) !! c = Some x /\ (dirent_view e).1 = n_name x.
Proof.
  intros Hcs Hnd. pose proof (cl_inv _ Hcl) as [[Hwf Hu _ _ _] _].
  induction cs as [|c cs IH]; [split; [apply NoDup_nil_2|by intros e ?%not_elem_of_nil]|].
  apply list.NoDup_cons in Hnd as [Hc Hnd]. destruct (IH ltac:(intros; apply Hcs; by right) Hnd) as [IH1 IH2]. clear IH.
  cbn [omap list_omap]. destruct (child_dirent s c) as [e|] eqn:He.
  - destruct (child_dirent_name c e He) as (x & Hx & Hname). split.
    + cbn [map]. apply list.NoDup_cons. split; [|done]. intros Hin. apply list_elem_of_In, in_map_iff in Hin as (e' & En & He'%list_elem_of_In).
      destruct (IH2 e' He') as (c' & x' & Hc' & Hx' & En'). rewrite Hname in En. cbn [fst] in En. apply Hc.
      assert (c' = c) as ->; [|done]. apply (Hu i c' c x' x); try done; [apply Hcs; by right|apply Hcs; by left|congruence].
    + intros e' [->|He']%elem_of_cons; [exists c, x; split; [by left|]; split; [done|]; by rewrite Hname|].
      destruct (IH2 e' He') as (c' & x' & Hc' & H). exists c', x'. split; [by right|done].
  - split; [done|]. intros e He'. destruct (IH2 e He') as (c' & x' & Hc' & H). exists c', x'. split; [by right|done].
Qed.

Lemma dirents_names p i x es :
  nodes (fm_tree s) !! i = Some x -> dirents s p i = Some es -> NoDup (map fst (map dirent_view es)) /\
    forall c e, c ∈ n_children x -> child_dirent s c = Some e -> dirent_view e ∈ map dirent_view es.
Proof.
  intros Hx Hes. unfold dirents, shape_at in Hes. rewrite Hx in Hes. cbn [fmap option_fmap option_map mbind option_bind sh_inode shape_of] in Hes.
  destruct (meta_at s (n_inode x)) as [m|]; [|done]. cbn [mbind option_bind] in Hes. destruct (parent_inode _ _ _) as [pino|]; [|done].
  cbn [mbind option_bind] in Hes. destruct (meta_at s pino) as [u|]; [|done]. cbn [mbind option_bind sh_children shape_of] in Hes. injection Hes as <-.
  pose proof (cl_inv _ Hcl) as [[Hwf _ _ Hparts _] _].
  destruct (omap_names (sort_by (shape_cmp s) (n_children x)) i) as [Hnd Hfrom].
  { intros c Hc. rewrite sort_by_perm in Hc. by exists x. }
  { rewrite sort_by_perm. by apply (wf_nodup _ Hwf i). }
  assert (forall e, e ∈ omap (child_dirent s) (sort_by (shape_cmp s) (n_children x)) -> plain (dirent_view e).1) as Hpl.
  { intros e He. destruct (Hfrom e He) as (c & y & Hc & Hy & ->). rewrite sort_by_perm in Hc.
    assert (child_of (fm_tree s) i c) as Hch by (by exists x). split; [by apply (Hparts i c y Hch Hy)|apply (cl_fit _ Hcl i c y Hch Hy)]. }
  split.
  - cbn [map fst dirent_view d_name]. rewrite map_map.
    assert (forall n, ~ plain n -> n ∉ map (fun e => (dirent_view e).1) (omap (child_dirent s) (sort_by (shape_cmp s) (n_children x)))) as Hout.
    { intros n Hn Hin. apply list_elem_of_In, in_map_iff in Hin as (e & <- & He%list_elem_of_In). by apply Hn, Hpl. }
    apply list.NoDup_cons. split; [|apply list.NoDup_cons; split; [|exact Hnd]].
    + intros [[=]|Hin]%elem_of_cons. apply (Hout DOT); [by intros []|done].
    + intros Hin. apply (Hout DOTDOT); [by intros []|done].
  - intros c e Hc He. cbn [map]. do 2 right. apply list_elem_of_In, in_map_iff. exists e. split; [done|]. apply list_elem_of_In, list_elem_of_omap.
    exists c. split; [by rewrite sort_by_perm|done].
Qed.

Lemma live_node i : live_dir s i -> exists x, nodes (fm_tree s) !! i = Some x /\ n_link x = None /\ shape_at s i = Some (shape_of x).
Proof.
  intros (sh & m & Hsh & Hl & _). unfold shape_at in *. destruct (nodes (fm_tree s) !! i) as [x|]; [|discriminate Hsh].
  injection Hsh as <-. by exists x.
Qed.

Lemma node_valid i x : nodes (fm_tree s) !! i = Some x -> valid_inode (length (fm_inodes s)) (node_number x).
Proof.
  intros Hx. destruct (ti_inode _ _ (proj1 (cl_inv _ Hcl)) i x Hx) as [Hv Hl]. unfold node_number.
  destruct (n_link x) as [l|]; [by apply Hl|done].
Qed.

(** An entry of a live directory is found on the disk. *)
Lemma entry_found i c x y m :
  visited (fm_tree s) i -> live_dir s i -> nodes (fm_tree s) !! i = Some x -> c ∈ n_children x ->
  nodes (fm_tree s) !! c = Some y -> meta_at s (node_number y) = Some m -> m.2 <> 0 ->
  exists d es, disk_inode f sb (n_inode x) = Ok d /\ is_dir (i_mode d) = true /\
    disk_entries f sb (n_inode x) = Ok es /\ find_entry (n_name y) es = Some (node_number y).
Proof.
  intros Hv Hlive Hx Hc Hy Hm Hm0. assert (shape_at s i = Some (shape_of x)) as Hsh by (unfold shape_at; by rewrite Hx).
  destruct (closed_dir i (shape_of x) Hv Hlive Hsh) as (p & es & d & _ & Hes & Hd & Hdir & Hent). cbn [sh_inode shape_of] in *.
  exists d, (sort_by entry_cmp (map dirent_view es)). split; [done|]. split; [done|]. split; [done|].
  destruct (dirents_names p i x es Hx Hes) as [Hnd Hin].
  assert (exists e, child_dirent s c = Some e /\ dirent_view e = (n_name y, node_number y)) as (e & He & Ev).
  { destruct (ti_inode _ _ (proj1 (cl_inv _ Hcl)) c y Hy) as [Hvy _]. destruct (valid_index s (cl_inv _ Hcl) _ Hvy) as [o Ho].
    assert (Z.max (n_inode y) 1 = n_inode y) as Emax by (destruct Hvy; lia). unfold child_dirent, shape_at. rewrite Hy.
    cbn [fmap option_fmap option_map mbind option_bind sh_inode sh_link sh_name shape_of]. fold (node_number y). rewrite Hm.
    cbn [mbind option_bind]. replace (m.2 =? 0) with false by lia. unfold meta_at. rewrite Emax, Ho. eexists. split; [reflexivity|done]. }
  apply find_entry_unique.
  - by rewrite (sort_by_perm entry_cmp (map dirent_view es)).
  - rewrite sort_by_perm, <- Ev. by apply (Hin c).
Qed.

Lemma child_visited i c : visited (fm_tree s) i -> live_dir s i -> child_of (fm_tree s) i c -> visited (fm_tree s) c.
Proof.
  intros Hv Hlive (x & Hx & Hc). destruct (live_node i Hlive) as (x' & Hx' & Hlink & _). assert (x' = x) as -> by congruence.
  apply (visited_child _ i c Hv). unfold kids. rewrite Hx, Hlink. rewrite bool_decide_eq_false_2 by (by intros []). done.
Qed.

Lemma leads_visited i names j : leads s i names j -> visited (fm_tree s) i -> visited (fm_tree s) j.
Proof. induction 1 as [i|i c y m rest j Hlive Hc _ _ _ _ IH]; intros Hv; [done|]. by apply IH, (child_visited i c). Qed.

Lemma leads_goes follow i names j : leads s i names j -> visited (fm_tree s) i -> forall xi xj ij,
  nodes (fm_tree s) !! i = Some xi -> nodes (fm_tree s) !! j = Some xj ->
  disk_inode f sb (node_number xj) = Ok ij -> is_link (i_mode ij) && follow = false ->
  goes f sb follow (node_number xi) names (node_number xj).
Proof.
  induction 1 as [i|i c y m rest j Hlive Hc Hy Hm Hm0 Hl IH]; intros Hv xi xj ij Hxi Hxj Hij Hlast.
  { assert (xi = xj) as -> by congruence. constructor. }
  pose proof (child_visited i c Hv Hlive Hc) as Hvc. destruct (live_node i Hlive) as (xi' & Hxi' & Hlink & _). assert (xi' = xi) as -> by congruence.
  destruct Hc as (x & Hx & Hc). assert (x = xi) as -> by congruence. clear Hx Hxi'.
  pose proof (IH Hvc y xj ij Hy Hxj Hij Hlast) as Hgo.
  destruct (entry_found i c xi y m Hv Hlive Hxi Hc Hy Hm Hm0) as (d & es & Hd & Hdir & Hes & Hfind).
  assert (node_number xi = n_inode xi) as -> by (unfold node_number; by rewrite Hlink).
  unfold meta_at in Hm. destruct (fm_inodes s !! inode_index (node_number y)) as [iy|] eqn:Hiy; [|discriminate Hm]. injection Hm as <-.
  destruct (closed_inode (node_number y) iy (node_valid c y Hy) (cl_resize _ Hcl c y Hvc Hy) Hiy) as (iy' & Hdy & _ & Emode & _).
  assert (child_of (fm_tree s) i c) as Hch by (by exists xi).
  apply (goes_cons f sb follow (n_inode xi) d es (n_name y) (node_number y) iy' rest (node_number xj)); try done.
  - split; [apply (ti_parts _ _ (proj1 (cl_inv _ Hcl)) i c y Hch Hy)|apply (cl_fit _ Hcl i c y Hch Hy)].
  - inversion Hl as [|? c' ? ? ? ? Hlive' _ _ _ _ _]; subst; [congruence|].
    destruct Hlive' as (sh & m' & Hsh & Hlk & Hm' & _ & Hd'). unfold shape_at in Hsh. rewrite Hy in Hsh. injection Hsh as <-.
    cbn [sh_link sh_inode shape_of] in *. assert (node_number y = n_inode y) as E by (unfold node_number; by rewrite Hlk).
    unfold meta_at in Hm'. rewrite <- E, Hiy in Hm'. injection Hm' as <-. cbn [fst] in Hd'. rewrite Emode. by rewrite (dir_not_link _ Hd').
Qed.

(** The reader resolves the path to the entry's inode. *)
Lemma closed_resolves r names j x inode :
  on_image f sb r -> Forall part_ok names -> leads s (root (fm_tree s)) names j -> nodes (fm_tree s) !! j = Some x ->
  fm_inodes s !! inode_index (node_number x) = Some inode ->
  exists inode', disk_inode f sb (node_number x) = Ok inode' /\
    i_mode inode' = i_mode inode /\ i_links_count inode' = i_links_count inode /\ (is_dir (i_mode inode) = false -> inode' = inode) /\
    (stat_no_follow (abs_path names) r).1 = Ok (node_number x, inode') /\
    (is_link (i_mode inode) = false -> (stat (abs_path names) r).1 = Ok (node_number x, inode')).
Proof.
  intros Himg Hnames Hleads Hx Hi. destruct (cl_root _ Hcl) as (r0 & Hr0 & Hroot & Hrl).
  assert (node_number r0 = ROOT_INODE) as E0 by (unfold node_number; by rewrite Hrl).
  pose proof (leads_visited _ _ _ Hleads (visited_root _)) as Hvj.
  destruct (closed_inode _ inode (node_valid j x Hx) (cl_resize _ Hcl j x Hvj Hx) Hi) as (inode' & Hd & _ & Em & El & Hfile).
  exists inode'. split; [done|]. split; [done|]. split; [done|]. split; [done|].
  assert (forall follow, is_link (i_mode inode') && follow = false ->
    (resolve_path (abs_path names) follow r).1 = Ok (node_number x, inode')) as H.
  { intros follow Hf. unfold resolve_path. rewrite normalize_abs by done. rewrite <- E0.
    pose proof (leads_goes follow _ _ _ Hleads (visited_root _) r0 x inode' Hr0 Hx Hd Hf) as Hg.
    destruct (answers_goes f sb (abs_path names) follow MAX_SYMLINK_HOPS _ _ _ ∅ Hg [] r Himg) as (-> & _). by rewrite Hd. }
  split; [apply H; by rewrite andb_false_r|]. intros Hl. apply H. by rewrite Em, Hl.
Qed.

(** A file the builder holds at the path is what the reader reads there. *)
Lemma closed_file r names j x inode bytes offset count :
  on_image f sb r -> Forall part_ok names -> leads s (root (fm_tree s)) names j -> nodes (fm_tree s) !! j = Some x ->
  fm_inodes s !! inode_index (node_number x) = Some inode -> is_reg (i_mode inode) = true ->
  holds_file area (fpos s) (fm_file s) inode bytes -> 0 <= offset -> 0 <= default 0 count ->
  (read_file (abs_path names) offset count r).1 = Ok (take (Z.to_nat (default (zlen bytes) count)) (drop (Z.to_nat offset) bytes)).
Proof.
  intros Himg Hnames Hleads Hx Hi Hreg Hh Ho Hc.
  assert (is_dir (i_mode inode) = false /\ is_link (i_mode inode) = false) as [Hnd Hnl].
  { unfold is_reg, is_dir, is_link in *. by apply Z.eqb_eq in Hreg as ->. }
  destruct (closed_resolves r names j x inode Himg Hnames Hleads Hx Hi) as (inode' & Hd & _ & _ & Hsame & _ & Hstat).
  rewrite (Hsame Hnd) in *. specialize (Hstat Hnl). destruct close_finished as [s1 Hfin].
  destruct (dd_moved _ _ (fi_dirs _ Hfin)) as [cost Hmv].
  assert (holds_file area (fpos s1) (fm_file s1) inode bytes) as Hh1 by (eapply holds_file_later; [exact Hh|apply Hmv|apply Hmv]).
  destruct (file_content f area (fpos s1) (fm_file s1) inode bytes Hh1 (fi_keeps _ Hfin)) as (ls & Hp & Hin & Hle & Htake).
  pose proof (fi_len _ Hfin) as Hlen. assert (f_len f <= i64_max) as Hl64 by (unfold MAX_IMAGE, MAX_GROUPS, i64_max in *; lia).
  destruct Hh as [[Hsize Hmax] _]. pose proof (zlen_nonneg bytes) as Hz0.
  rewrite (read_file_spec f sb r (abs_path names) offset count (node_number x) inode (map leaf_range ls)); try done.
  - rewrite Hnd, Hreg, (fi_block_size _ Hfin), Hsize. cbn [negb]. cbv zeta.
    replace (Z.to_nat (zlen bytes)) with (length bytes) by (unfold zlen; lia). by rewrite Htake.
  - by rewrite (fi_block_size _ Hfin).
  - rewrite Hsize. constructor; rewrite ?(fi_block_size _ Hfin); [done|done|done|lia|].
    unfold MAX_FILE_SIZE, i64_max in *. lia.
Qed.
End Closed.

(** ** A new file *)

Section Created.
Context (s s' : Formatter) (ps : list (list Z)) (name : list Z) (p : nat) (np : FileTreeNode) (inode : Inode) (area mode : Z) (bytes : list Z).
Hypothesis (Hinv : fmt_inv s).
Hypothesis (Hnp : nodes (fm_tree s) !! p = Some np).
Hypothesis (Hmade : file_created s name p np area mode bytes s' inode).

Lemma created_meta k m : meta_at s k = Some m -> meta_at s' k = Some m.
Proof.
  unfold meta_at. rewrite (fc_inodes _ _ _ _ _ _ _ _ _ Hmade). destruct (fm_inodes s !! inode_index k) as [x|] eqn:Hx; [|done].
  by rewrite (lookup_app_l_Some _ _ _ _ Hx).
Qed.

Lemma created_node i x : nodes (fm_tree s) !! i = Some x ->
  exists y, nodes (fm_tree s') !! i = Some y /\ n_name y = n_name x /\ n_inode y = n_inode x /\ n_link y = n_link x.
Proof.
  intros Hx. destruct (fc_tree _ _ _ _ _ _ _ _ _ Hmade) as (node & -> & _).
  destruct (added_old (fm_tree s) p np node Hnp i x Hx) as (y & Hy & En & _ & Ei & El & _). by exists y.
Qed.

Lemma created_live i : live_dir s i -> live_dir s' i.
Proof.
  intros (sh & m & Hsh & Hl & Hm & H). unfold shape_at in Hsh. destruct (nodes (fm_tree s) !! i) as [x|] eqn:Hx; [|discriminate Hsh].
  injection Hsh as <-. destruct (created_node i x Hx) as (y & Hy & _ & Ei & El). exists (shape_of y), m. unfold shape_at. rewrite Hy.
  cbn [sh_link sh_inode shape_of] in *. rewrite Ei, El. split; [done|]. split; [done|]. split; [by apply created_meta|done].
Qed.

Lemma created_leads i names j : leads s i names j -> leads s' i names j.
Proof.
  induction 1 as [i|i c y m rest j Hlive Hc Hy Hm Hm0 _ IH]; [constructor|].
  destruct (created_node c y Hy) as (y' & Hy' & En & Ei & El). rewrite <- En. apply (leads_cons s' i c y' m); try done.
  - by apply created_live.
  - destruct (fc_tree _ _ _ _ _ _ _ _ _ Hmade) as (node & -> & _ & _ & _ & Hch). destruct Hinv as [[Hwf _ _ _ _] _].
    apply (child_of_added (fm_tree s) p np node); [done..|]. by right.
  - apply created_meta. unfold node_number. by rewrite Ei, El.
Qed.
End Created.

Lemma leads_snoc s i names j c x m :
  leads s i names j -> live_dir s j -> child_of (fm_tree s) j c -> nodes (fm_tree s) !! c = Some x ->
  meta_at s (node_number x) = Some m -> m.2 <> 0 -> leads s i (names ++ [n_name x]) c.
Proof.
  induction 1 as [i|i d y m' rest j Hlive Hd Hy Hm Hm0 _ IH]; intros Hj Hc Hx Hmx Hmx0; cbn [app].
  - apply (leads_cons s i c x m); try done. constructor.
  - apply (leads_cons s i d y m'); try done. by apply IH.
Qed.

Lemma leads_walk s i names j : leads s i names j -> walk (fm_tree s) i names j.
Proof. induction 1 as [i|i c y m rest j _ Hc Hy _ _ _ IH]; [constructor|]. by apply (walk_cons _ i c y). Qed.

Lemma live_inode s i x inode :
  live_dir s i -> nodes (fm_tree s) !! i = Some x -> fm_inodes s !! inode_index (n_inode x) = Some inode ->
  i_links_count inode <> 0 /\ is_dir (i_mode inode) = true.
Proof.
  intros (sh & m & Hsh & _ & Hm & Hl & Hd) Hx Hi. unfold shape_at in Hsh. rewrite Hx in Hsh. injection Hsh as <-.
  cbn [sh_inode shape_of] in Hm. unfold meta_at in Hm. rewrite Hi in Hm. by injection Hm as <-.
Qed.

(** Where a file of [n] bytes ends at the latest. *)
Definition file_end (s : Formatter) (n : Z) : Z := fpos s + SKIP * 61 + n + 12288.

(** The file can be created: in a live directory, under a fresh name, with room. *)
Record creatable (s : Formatter) (ps : list (list Z)) (name : list Z) (chunks : list (list Z)) : Prop := {
  ct_inv : fmt_inv s;
  ct_names : Forall name_ok (ps ++ [name]);
  ct_parent : exists p np pinode, leads s (root (fm_tree s)) ps p /\ live_dir s p /\ nodes (fm_tree s) !! p = Some np /\
    fm_inodes s !! inode_index (n_inode np) = Some pinode /\ i_links_count pinode < MAX_LINKS;
  ct_fresh : forall j, ~ twalk s (ps ++ [name]) j;
  ct_bs : fm_block_size s = BLOCK_SIZE;
  ct_pos : 0 <= fpos s;
  ct_size : 1 <= fm_size s <= MAX_IMAGE;
  ct_inodes : zlen (fm_inodes s) < u32_max;
  ct_chunks : Forall (fun c => c <> []) chunks /\ 0 < zlen (concat chunks) <= 17179869184;
  ct_room : file_end s (zlen (concat chunks)) <= DATA_MAX;
  ct_area : group_descriptor_blocks BLOCK_SIZE (Z.max (fm_size s) (file_end s (zlen (concat chunks)))) = group_descriptor_blocks BLOCK_SIZE (fm_size s)
}.

(** The call succeeds; the new entry is at the path, and its inode holds the bytes. *)
Lemma create_file_spec s ps name chunks mode ts uid gid :
  creatable s ps name chunks -> is_reg mode = true ->
  exists s1 j x inode, create (abs_path (ps ++ [name])) mode None ts (Some (chunk_reader chunks)) uid gid None s = (Ok tt, s1) /\
    leads s1 (root (fm_tree s1)) (ps ++ [name]) j /\ nodes (fm_tree s1) !! j = Some x /\
    fm_inodes s1 !! inode_index (node_number x) = Some inode /\ i_mode inode = mode /\
    holds_file (group_descriptor_blocks BLOCK_SIZE (fm_size s1)) (fpos s1) (fm_file s1) inode (concat chunks).
Proof.
  intros [Hinv Hnames (p & np & pinode & Hleads & Hlive & Hnp & Hpi & Hlinks) Hfresh Hbs Hpos Hsize Hmany [Hne Hn] Hroom Harea] Hreg.
  set (area := group_descriptor_blocks BLOCK_SIZE (fm_size s)) in *. set (limit := file_end s (zlen (concat chunks))) in *.
  assert (MAX_IMAGE <= LIMIT /\ DATA_MAX <= MAX_IMAGE) as [Hml Hdm] by (split; by vm_compute).
  destruct (live_inode s p np pinode Hlive Hnp Hpi) as [_ Hdir].
  pose proof (leads_walk s _ _ _ Hleads) as Hp. pose proof (reach_pos area (fpos s)) as Hr.
  destruct (create_node_spec s ps name p np pinode Hinv Hnames Hp Hnp Hpi Hfresh area limit mode ts chunks uid gid) as (s1 & inode & Hrun & Hmade);
    try done; try lia.
  { pose proof (group_descriptor_blocks_bounds (fm_size s)). unfold area. lia. }
  { unfold LIMIT, u32_max, DATA_MAX in *. lia. }
  { apply area_until_intro; [done|lia|done]. }
  { unfold limit, file_end. lia. }
  destruct (fc_tree _ _ _ _ _ _ _ _ _ Hmade) as (node & Ht & Ename & Enum & Elink & Hch). pose proof (fc_inodes _ _ _ _ _ _ _ _ _ Hmade) as Ei.
  destruct (fc_inode _ _ _ _ _ _ _ _ _ Hmade) as [Emode Elc].
  exists s1, (length (nodes (fm_tree s))), (set_n_parent node (Some p)), inode.
  assert (node_number (set_n_parent node (Some p)) = zlen (fm_inodes s) + 1) as Ek by (unfold node_number; destruct node; cbn in *; by rewrite Elink).
  assert (nodes (fm_tree s1) !! length (nodes (fm_tree s)) = Some (set_n_parent node (Some p))) as Hnew by (rewrite Ht; by apply added_new).
  assert (fm_inodes s1 !! inode_index (zlen (fm_inodes s) + 1) = Some inode) as Hi.
  { rewrite Ei. unfold inode_index, zlen in *. rewrite u32_small by (unfold_ranges; unfold u32_max in *; lia).
    replace (Z.to_nat (Z.of_nat (length (fm_inodes s)) + 1 - 1)) with (length (fm_inodes s)) by lia. by rewrite lookup_app_r, Nat.sub_diag by lia. }
  split; [|split; [|split; [exact Hnew|split; [by rewrite Ek|split; [done|]]]]].
  - by rewrite (create_in_directory s ps name p np pinode).
  - assert (name = n_name (set_n_parent node (Some p))) as -> by (by destruct node).
    assert (root (fm_tree s1) = root (fm_tree s)) as -> by (by rewrite Ht).
    apply (leads_snoc s1 _ _ p _ _ (mode, 1)); [eapply (created_leads s s1 _ p np inode); eassumption|eapply (created_live s s1 _ p np inode); eassumption| |exact Hnew| |done].
    + rewrite Ht. apply (child_of_added (fm_tree s) p np node); [done..|]. by left.
    + rewrite Ek. unfold meta_at. rewrite Hi. cbn. by rewrite Emode, Elc.
  - rewrite (fc_area _ _ _ _ _ _ _ _ _ Hmade). apply Hmade.
Qed.
