(* ===== verification/CloseSpec.v ===== *)
(** What [close] promises: the properties of a finished image, and a builder
    that shows they can be had. *)

From stdpp Require Import gmap.
From S2P Require Import Prelude Bytes Types Layout RustStr RustPath RustSort Errors Disk Tables Dir FileTree Extent.
From S2P Require Import Geometry Flex Formatter Payload FormatterTree BuilderInv.
From S2P Require Import ImageReader ReaderFacts ReaderTree ReaderQueries.
From S2P Require Import Close CloseBitmaps CloseWrites CloseSkips ClosePlan CloseImage CloseOrder CloseDirs FileCreate CloseReads CloseTree.

(** ** Properties *)

(** C1: What is written is what is read: a regular file of any content between
    one byte and 16 GiB, given in non-empty chunks, can be created under a fresh
    name in a directory of the builder, as long as image, inode numbers, the
    directory's link count and the descriptor area have room for it; when the builder is then closed, reading that path from the
    image returns the bytes, from any offset on and as many as asked for. *)
Theorem file_round_trip (s : Formatter) (ps : list (list Z)) (name : list Z) (chunks : list (list Z)) (mode : Z)
    (ts : option FileTimestamps) (uid gid : option Z)
    (Hcreate : creatable s ps name chunks) (Hmode : is_reg mode = true) :
  exists s1, create (abs_path (ps ++ [name])) mode None ts (Some (chunk_reader chunks)) uid gid None s = (Ok tt, s1) /\
    forall s2 r offset count, closable s1 -> close s1 = (Ok tt, s2) ->
      on_image (fm_file s2) (superblock_of (fm_file s2)) r -> 0 <= offset -> 0 <= default 0 count ->
      (read_file (abs_path (ps ++ [name])) offset count r).1 =
        Ok (take (Z.to_nat (default (zlen (concat chunks)) count)) (drop (Z.to_nat offset) (concat chunks))).
Proof.
  destruct (create_file_spec s ps name chunks mode ts uid gid Hcreate Hmode) as (s1 & j & x & inode & Hrun & Hleads & Hx & Hi & Em & Hh).
  exists s1. split; [exact Hrun|]. intros s2 r offset count Hcl Hclose Himg Ho Hc.
  apply (closed_file s1 s2 Hcl Hclose r _ j x inode); try done; [|by rewrite Em].
  apply names_parts, Hcreate.
Qed.

(** C4: The image has the builder's tree: a path that leads through live
    directories of the builder to an entry resolves on the image to the inode
    number of that entry, or of the target of a hard link; the inode has the
    builder's mode and links, and a file's inode is the builder's. *)
Theorem close_paths_resolve (s s' : Formatter) (r : ImageReader.Reader) (names : list (list Z)) (j : nat) (x : FileTreeNode) (inode : Inode)
    (Hcl : closable s) (Hclose : close s = (Ok tt, s')) (Himg : on_image (fm_file s') (superblock_of (fm_file s')) r)
    (Hnames : Forall part_ok names) (Hleads : leads s (root (fm_tree s)) names j)
    (Hx : nodes (fm_tree s) !! j = Some x) (Hi : fm_inodes s !! inode_index (node_number x) = Some inode) :
  exists inode', i_mode inode' = i_mode inode /\ i_links_count inode' = i_links_count inode /\
    (is_dir (i_mode inode) = false -> inode' = inode) /\
    (stat_no_follow (abs_path names) r).1 = Ok (node_number x, inode') /\
    (is_link (i_mode inode) = false -> (stat (abs_path names) r).1 = Ok (node_number x, inode')).
Proof.
  destruct (closed_resolves s s' Hcl Hclose r names j x inode Himg Hnames Hleads Hx Hi) as (inode' & _ & H). by exists inode'.
Qed.

(** C14: Every live directory of the builder's tree is on the image with exactly
    its entries: itself, its parent, and each child whose inode has links,
    under the child's name with the child's inode number or the target of its
    hard link. *)
Theorem close_directories_listed (s s' : Formatter) (i : nat) (x : FileTreeNode)
    (Hcl : closable s) (Hclose : close s = (Ok tt, s')) (Hv : visited (fm_tree s) i) (Hlive : live_dir s i)
    (Hx : nodes (fm_tree s) !! i = Some x) :
  exists p es, ((p = None /\ i = root (fm_tree s)) \/ exists q, p = Some q /\ i ∈ kids (fm_tree s) q) /\
    dirents s p i = Some es /\
    disk_entries (fm_file s') (superblock_of (fm_file s')) (n_inode x) = Ok (sort_by entry_cmp (map dirent_view es)).
Proof.
  destruct (closed_dir s s' Hcl Hclose i (shape_of x) Hv Hlive) as (p & es & inode & Hp & Hes & _ & _ & Hd).
  { unfold shape_at. by rewrite Hx. }
  by exists p, es.
Qed.

(** C11: Closing a builder that is [closable] ends with one of two outcomes and
    never panics: the image, or InsufficientSpaceForGroupDescriptorBlocks.  It
    is the error exactly when the finished image needs a larger descriptor area
    than the size the builder has at the call of [close]; an area outgrown by
    payload written before the call is not noticed, since that has already
    raised the size.  Closable asks for room, up to the largest image, for the
    directories, for directories that leave the descriptor area as it is, and
    for at most 4,000,000 nodes with names that fit. *)
Theorem close_outcome (s : Formatter) (Hcl : closable s) :
  exists s', fm_size s <= fm_size s' <= MAX_IMAGE /\
    close s =
      (if group_descriptor_blocks BLOCK_SIZE (fm_size s) =? group_descriptor_blocks BLOCK_SIZE (fm_size s')
       then Ok tt else Err InsufficientSpaceForGroupDescriptorBlocks, s').
Proof.
  destruct (commit_directories_spec s Hcl) as (s1 & Hdirs & Hd). destruct (dd_moved _ _ Hd) as [cost Hmv]. pose proof (mv_size _ _ _ _ Hmv).
  destruct (image_outcome s1 (dd_ready _ _ Hd)) as (s' & Hs' & Hw). exists s'. split; [lia|].
  unfold close. rewrite (run_bind _ _ _ _ _ Hdirs), Hw. by rewrite (dd_area _ _ Hd).
Qed.

(** C17: The bitmaps of the finished image are exact.  The image has one
    descriptor [gds] for every 128 MiB, each read back from its descriptor
    table.  The bitmap a descriptor points at marks exactly the blocks in use:
    the superblock copies and descriptor areas for the image's size, the blocks
    up to and including the resize inode's double-indirect block (the first free
    block behind the payload and the directories), and the bitmaps and inode
    tables the descriptors name, but not, in a group that holds data, the blocks
    the builder deleted; its inode bitmap marks the slots past the group's
    inodes, the reserved inodes and those with links; and its free counts are
    what the bitmaps leave.  What the descriptors name lies behind the payload
    and outside the superblock copies and descriptor areas. *)
Theorem close_bitmaps_exact (s s' : Formatter) (Hcl : closable s) (Hclose : close s = (Ok tt, s'))
    (sb := superblock_of (fm_file s')) (table := sb_inodes_per_group sb / 16)
    (area := group_descriptor_blocks BLOCK_SIZE (fm_size s')) (start := dind_pos (commit_directories s).2 / 4096 + 1) :
  exists gds, zlen gds * 134217728 = fm_size s' /\
    (forall g gd, gds !! g = Some gd -> disk_group (fm_file s') sb (Z.of_nat g) = Ok gd /\
      group_exact s' (image_use area start table gds (fm_deleted_blocks s)) (sb_inodes_per_group sb) (Z.of_nat g) gd) /\
    (forall b, 0 <= b < fm_size s' / 4096 -> existsb (names table b) gds = true -> reserved_block area b = false /\ start <= b).
Proof.
  destruct (commit_directories_spec s Hcl) as (s1 & Hdirs & Hd). destruct (dd_moved _ _ Hd) as [cost Hmv].
  assert (fm_deleted_blocks s1 = fm_deleted_blocks s) as Hdel by (rewrite (mv_state _ _ _ _ Hmv); by destruct s).
  unfold close in Hclose. rewrite (run_bind _ _ _ _ _ Hdirs) in Hclose. subst start. rewrite Hdirs, <- Hdel.
  exact (image_bitmaps_exact s1 s' (dd_ready _ _ Hd) Hclose).
Qed.

(** C18: The books of the finished image balance: the superblock's counts of
    blocks and inodes cover all groups, and its free counts are the sums of the
    free counts of the descriptors. *)
Theorem close_counts_agree (s s' : Formatter) (Hcl : closable s) (Hclose : close s = (Ok tt, s'))
    (sb := superblock_of (fm_file s')) (groups := fm_size s' / 134217728) :
  sb_blocks_count_lo sb * 4096 = fm_size s' /\ sb_inodes_count sb = groups * sb_inodes_per_group sb /\
  sb_free_blocks_count_lo sb = sum_groups (group_free_blocks (fm_file s') sb) groups /\
  sb_free_inodes_count sb = sum_groups (group_free_inodes (fm_file s') sb) groups.
Proof.
  destruct (close_inv s s' Hcl Hclose) as (s1 & Hd & Hw). exact (image_counts_agree s1 s' (dd_ready _ _ Hd) Hw).
Qed.

(** ** A builder to close *)

(** Closing succeeds when the planned descriptor area fits. *)
Lemma close_succeeds s :
  closable s ->
  match (plan_layout (commit_directories s).2).1 with
  | Ok pl => fl_gd_area_blocks (pn_layout pl) <=? pn_allocated pl
  | _ => false
  end = true -> exists s', close s = (Ok tt, s').
Proof.
  intros Hcl. destruct (commit_directories_spec s Hcl) as (s1 & Hdirs & Hd). rewrite Hdirs. cbn [snd].
  destruct (plan_layout_spec s1 (dd_ready _ _ Hd)) as (pl & s2 & Hplan & Hmade). rewrite Hplan. cbn [fst]. intros Hle%Z.leb_le.
  destruct (write_image_spec s1 pl s2 (dd_ready _ _ Hd) Hmade Hplan Hle) as (_ & _ & _ & _ & s' & Hw & _).
  exists s'. unfold close. by rewrite (run_bind _ _ _ _ _ Hdirs).
Qed.

#[local] Instance inode_wf_dec i : Decision (Inode_wf i).
Proof. unfold Inode_wf, is_bytes, is_u16, is_u32, is_u8. apply _. Defined.

Definition sample_mode : Z := Z.lor S_IFREG 0x1A4.
Definition sample_bytes : list Z := [104; 101; 108; 108; 111].

(** The builder with one file, [/f]. *)
Definition sample_made : res FormatError unit * Formatter :=
  create (abs_path ([] ++ [[102]])) sample_mode None None (Some (chunk_reader [sample_bytes])) None None None sample_builder.

Lemma sample_builder_inv : fmt_inv sample_builder.
Proof. apply (fmt_inv_shape (initial_formatter sample_options (zeros 16) (fun _ => (0, 0)))); [done|apply initial_inv]. Qed.

Lemma sample_tree : exists x y, fm_tree sample_made.2 = {| nodes := [x; y]; root := 0 |} /\
  shape_of x = mkShape 2 [47] [1%nat] None None /\ shape_of y = mkShape 11 [102] [] (Some 0%nat) None.
Proof. eexists _, _. split; [vm_compute; reflexivity|]. by vm_compute. Qed.

Lemma sample_numbers :
  sample_made.1 = Ok tt /\ fm_block_size sample_made.2 = 4096 /\ fpos sample_made.2 = 139264 /\ fm_size sample_made.2 = 67108864 /\
  f_len (fm_file sample_made.2) = 67108864 /\ length (fm_inodes sample_made.2) = 11%nat /\ fm_uuid sample_made.2 = zeros 16 /\
  fm_label sample_made.2 = None /\ bool_decide (Forall Inode_wf (fm_inodes sample_made.2)) = true.
Proof. by vm_compute. Qed.

Lemma sample_inv : fmt_inv sample_made.2.
Proof.
  assert (Forall part_ok [[102]]) as Hok by (repeat constructor; [by intros ?%list_elem_of_singleton|done|done]).
  pose proof (create_at_run True (S (S (length (abs_path [[102]])))) sample_builder [[102]] sample_mode None None
    (Some (chunk_reader [sample_bytes])) None None None (or_introl I) (abs_path_length _) sample_builder_inv Hok ltac:(by left) ltac:(by vm_compute)) as H.
  unfold wp in H. fold (create (abs_path [[102]]) sample_mode None None (Some (chunk_reader [sample_bytes])) None None None) in H.
  change (create (abs_path [[102]]) sample_mode None None (Some (chunk_reader [sample_bytes])) None None None sample_builder) with sample_made in H.
  pose proof (proj1 sample_numbers) as Hr. destruct sample_made as [o s1]. cbn [fst snd] in *. subst o. apply H.
Qed.

(** A builder with one file is closable. *)
Section OneFile.
Context (s : Formatter) (x y : FileTreeNode).
Hypothesis (Htree : fm_tree s = {| nodes := [x; y]; root := 0 |}).
Hypothesis (Hx : shape_of x = mkShape 2 [47] [1%nat] None None).
Hypothesis (Hy : shape_of y = mkShape 11 [102] [] (Some 0%nat) None).
Hypothesis (Hpos : fpos s = 139264).
Hypothesis (Hsize : fm_size s = 67108864).

Lemma one_file_node i n :
  nodes (fm_tree s) !! i = Some n ->
  (i = 0%nat /\ shape_of n = mkShape 2 [47] [1%nat] None None) \/ (i = 1%nat /\ shape_of n = mkShape 11 [102] [] (Some 0%nat) None).
Proof.
  rewrite Htree. cbn [nodes]. intros Hn. destruct i as [|[|i]]; cbn in Hn; [left|right|done]; injection Hn as <-; done.
Qed.

Lemma one_file_ready :
  fm_block_size s = 4096 -> f_len (fm_file s) = 67108864 -> length (fm_inodes s) = 11%nat -> fm_uuid s = zeros 16 ->
  fm_label s = None -> Forall Inode_wf (fm_inodes s) -> ready s.
Proof.
  intros Eb El Ei Eu Ela Ew. constructor; rewrite ?Eb, ?Hpos, ?Hsize, ?El, ?Eu, ?Ela; try done.
  - unfold zlen. rewrite Ei. lia.
  - split; [done|]. by apply Forall_zeros.
Qed.

Lemma one_file_closable : ready s -> fmt_inv s -> closable s.
Proof.
  intros Hr Hi. assert (dirs_end s = 256290816) as Ed by (unfold dirs_end; by rewrite Hpos, Htree). constructor.
  - done.
  - done.
  - intros p c n (m & Hm & Hc) Hn. destruct (one_file_node p m Hm) as [[-> Em]|[-> Em]]; apply (f_equal sh_children) in Em; cbn in Em; rewrite Em in Hc.
    + apply list_elem_of_singleton in Hc as ->. destruct (one_file_node 1 n Hn) as [[? _]|[_ En]]; [done|].
      apply (f_equal sh_name) in En. cbn in En. rewrite En. split; [by repeat constructor|]. split; [by apply (utf8b_sound 9)|]. by vm_compute.
    + by apply not_elem_of_nil in Hc.
  - by rewrite Htree.
  - by rewrite Ed.
  - rewrite Ed, Hsize. by vm_compute.
  - intros i j a b _ _ Ha Hb _ _ Heq. destruct (one_file_node i a Ha) as [[-> Ea]|[-> Ea]], (one_file_node j b Hb) as [[-> Eb]|[-> Eb]]; try done;
      injection Ea; injection Eb; congruence.
  - rewrite Htree. exists x. split; [done|]. by injection Hx as -> _ _ _ ->.
  - intros i n _ Hn. destruct (one_file_node i n Hn) as [[_ En]|[_ En]]; injection En as -> _ _ _ ->; done.
Qed.

Lemma one_file_leads m m' :
  meta_at s 2 = Some m' -> m'.2 <> 0 -> is_dir m'.1 = true -> meta_at s 11 = Some m -> m.2 <> 0 ->
  live_dir s 0 /\ leads s 0 [[102]] 1.
Proof.
  intros Hm' Hl' Hd' Hm Hl. assert (live_dir s 0) as Hlive.
  { exists (mkShape 2 [47] [1%nat] None None), m'. unfold shape_at. rewrite Htree. cbn. by rewrite Hx. }
  split; [done|]. assert (n_name y = [102]) as En by (by injection Hy).
  rewrite <- En. apply (leads_cons _ 0 1 y m); [exact Hlive| | | |done|constructor].
  - exists x. rewrite Htree. split; [done|]. injection Hx as _ _ -> _ _. by left.
  - by rewrite Htree.
  - unfold node_number. injection Hy as -> _ _ _ ->. done.
Qed.
End OneFile.

Lemma sample_closable : closable sample_made.2.
Proof.
  destruct sample_numbers as (_ & Eb & Ep & Es & El & Ei & Eu & Ela & Ew). destruct sample_tree as (x & y & Et & Hx & Hy).
  apply bool_decide_eq_true in Ew. apply (one_file_closable _ x y Et Hx Hy Ep Es); [|exact sample_inv].
  exact (one_file_ready _ Ep Es Eb El Ei Eu Ela Ew).
Qed.

Lemma sample_closes : exists s', close sample_made.2 = (Ok tt, s').
Proof. apply close_succeeds; [exact sample_closable|by vm_compute]. Qed.

Lemma sample_leads : live_dir sample_made.2 0 /\ leads sample_made.2 0 [[102]] 1.
Proof.
  destruct sample_tree as (x & y & Et & Hx & Hy).
  refine (one_file_leads _ x y Et Hx Hy (sample_mode, 1) (0x41ED, 2) _ _ _ _ _); [by vm_compute|done|by vm_compute|by vm_compute|done].
Qed.

Lemma sample_creatable : creatable sample_builder [] [102] [sample_bytes].
Proof.
  constructor.
  - exact sample_builder_inv.
  - repeat constructor; [by intros ?%list_elem_of_singleton|done..|by vm_compute].
  - eexists 0%nat, _, _. split; [constructor|]. split; [|split; [reflexivity|split; [reflexivity|by vm_compute]]].
    eexists _, _. split; [vm_compute; reflexivity|]. split; [done|]. split; [vm_compute; reflexivity|done].
  - intros j Hw. inversion Hw as [|? c n ? ? (m & Hm & Hc) _ _]; subst. vm_compute in Hm. injection Hm as <-. by apply not_elem_of_nil in Hc.
  - done.
  - by vm_compute.
  - by vm_compute.
  - by vm_compute.
  - split; [by repeat constructor|by vm_compute].
  - by vm_compute.
  - by vm_compute.
Qed.

(** *** Witnesses *)

(** The reader as it opens an image. *)
Definition fresh_reader (f : File) : ImageReader.Reader := opened_reader (seek f 2048) (superblock_of f).

Lemma fresh_on_image f : on_image f (superblock_of f) (fresh_reader f).
Proof. apply on_image_opened. Qed.

Lemma file_round_trip_witness : exists s2, close sample_made.2 = (Ok tt, s2) /\
  (read_file (abs_path [[102]]) 1 (Some 3) (fresh_reader (fm_file s2))).1 = Ok [101; 108; 108].
Proof.
  destruct sample_closes as [s2 H2]. exists s2. split; [exact H2|].
  destruct (file_round_trip sample_builder [] [102] [sample_bytes] sample_mode None None None sample_creatable eq_refl) as (s1 & Hrun & H).
  assert (sample_made.2 = s1) as E by (unfold sample_made; by rewrite Hrun). rewrite <- E in H.
  exact (H s2 (fresh_reader (fm_file s2)) 1 (Some 3) sample_closable H2 (fresh_on_image _) ltac:(lia) ltac:(simpl; lia)).
Defined.

Lemma close_paths_resolve_witness : exists s' inode, close sample_made.2 = (Ok tt, s') /\ i_mode inode = sample_mode /\
  (stat (abs_path [[102]]) (fresh_reader (fm_file s'))).1 = Ok (11, inode).
Proof.
  destruct sample_closes as [s' Hs']. destruct sample_tree as (x & y & Et & Hx & Hy).
  assert (node_number y = 11) as En by (unfold node_number; by injection Hy as -> _ _ _ ->).
  assert (exists inode, fm_inodes sample_made.2 !! inode_index 11 = Some inode /\ i_mode inode = sample_mode) as (inode & Hi & Em)
    by (eexists; split; vm_compute; reflexivity).
  destruct (close_paths_resolve sample_made.2 s' (fresh_reader (fm_file s')) [[102]] 1 y inode sample_closable Hs' (fresh_on_image _))
    as (inode' & Em' & _ & _ & _ & Hstat).
  - repeat constructor; [by intros ?%list_elem_of_singleton|discriminate..].
  - rewrite Et. exact (proj2 sample_leads).
  - by rewrite Et.
  - by rewrite En.
  - exists s', inode'. split; [exact Hs'|]. split; [congruence|]. rewrite <- En. apply Hstat. by rewrite Em.
Defined.

Lemma close_directories_listed_witness : exists s', close sample_made.2 = (Ok tt, s') /\
  disk_entries (fm_file s') (superblock_of (fm_file s')) 2 = Ok [([46], 2); ([46; 46], 2); ([102], 11)].
Proof.
  destruct sample_closes as [s' Hs']. exists s'. split; [exact Hs'|]. destruct sample_tree as (x & y & Et & Hx & Hy).
  destruct (close_directories_listed sample_made.2 s' 0 x sample_closable Hs') as (p & es & Hp & Hes & Hd).
  - assert (root (fm_tree sample_made.2) = 0%nat) as <- by (by rewrite Et). constructor.
  - exact (proj1 sample_leads).
  - by rewrite Et.
  - assert (p = None) as ->.
    { destruct Hp as [[-> _]|(q & _ & Hk%kids_child)]; [done|]. destruct (wf_child _ (ti_wf _ _ (proj1 sample_inv)) q 0 Hk) as (? & _ & _ & Hlt). lia. }
    assert (n_inode x = 2) as En by (by injection Hx). rewrite En in Hd. rewrite Hd.
    vm_compute in Hes. injection Hes as <-. reflexivity.
Defined.

Lemma close_outcome_witness : exists s', fm_size sample_made.2 <= fm_size s' <= MAX_IMAGE /\
  (close sample_made.2).1 = if 32 =? group_descriptor_blocks BLOCK_SIZE (fm_size s') then Ok tt else Err InsufficientSpaceForGroupDescriptorBlocks.
Proof.
  destruct (close_outcome sample_made.2 sample_closable) as (s' & Hs & Hc). exists s'. split; [exact Hs|]. rewrite Hc. cbn [fst].
  replace (group_descriptor_blocks BLOCK_SIZE (fm_size sample_made.2)) with 32 by (vm_compute; reflexivity). reflexivity.
Defined.

Lemma close_bitmaps_exact_witness : exists s' gds, close sample_made.2 = (Ok tt, s') /\ zlen gds * 134217728 = fm_size s' /\
  forall g gd, gds !! g = Some gd -> disk_group (fm_file s') (superblock_of (fm_file s')) (Z.of_nat g) = Ok gd /\
    group_exact s' (image_use (group_descriptor_blocks BLOCK_SIZE (fm_size s')) (dind_pos (commit_directories sample_made.2).2 / 4096 + 1)
      (sb_inodes_per_group (superblock_of (fm_file s')) / 16) gds (fm_deleted_blocks sample_made.2))
      (sb_inodes_per_group (superblock_of (fm_file s'))) (Z.of_nat g) gd.
Proof.
  destruct sample_closes as [s' Hs']. destruct (close_bitmaps_exact sample_made.2 s' sample_closable Hs') as (gds & Hsize & H & _).
  exists s', gds. split; [exact Hs'|]. split; [exact Hsize|exact H].
Defined.

Lemma close_counts_agree_witness : exists s', close sample_made.2 = (Ok tt, s') /\
  sb_blocks_count_lo (superblock_of (fm_file s')) * 4096 = fm_size s' /\
  sb_free_blocks_count_lo (superblock_of (fm_file s')) =
    sum_groups (group_free_blocks (fm_file s') (superblock_of (fm_file s'))) (fm_size s' / 134217728).
Proof.
  destruct sample_closes as [s' Hs']. exists s'. split; [exact Hs'|].
  destruct (close_counts_agree sample_made.2 s' sample_closable Hs') as (H1 & _ & H3 & _). split; [exact H1|exact H3].
Defined.
