(* ===== verification/Canonical.v ===== *)
(** Records whose fields cover all their bytes: what [read_from] takes from a
    buffer, [write_to] puts back byte for byte, so that rewriting a record with
    some fields changed changes exactly the bytes of these fields. *)

From S2P Require Import Prelude Bytes Types.

(** The fields lie end to end from [a] to [b]. *)
Fixpoint tiles (a : Z) (fs : list field) (b : Z) : bool :=
  match fs with
  | [] => a =? b
  | f :: fs => (field_off f =? a) && (0 <=? field_len f) && tiles (a + field_len f) fs b
  end.

Lemma tiles_le fs : forall a b, tiles a fs b = true -> a <= b.
Proof.
  induction fs as [|f fs IH]; intros a b; cbn [tiles]; [rewrite Z.eqb_eq; lia|].
  rewrite !andb_true_iff, Z.eqb_eq, Z.leb_le. intros [[_ Hf] H%IH]. lia.
Qed.

(** Buffers that agree on every tile agree. *)
Lemma tiles_eq (x y : list Z) fs : forall a b,
  tiles a fs b = true -> 0 <= a -> b <= zlen x -> b <= zlen y ->
  Forall (fun f => sub_bytes x (field_off f) (field_len f) = sub_bytes y (field_off f) (field_len f)) fs ->
  sub_bytes x a (b - a) = sub_bytes y a (b - a).
Proof.
  induction fs as [|f fs IH]; intros a b; cbn [tiles].
  - rewrite Z.eqb_eq. intros -> _ _ _ _. by rewrite Z.sub_diag.
  - rewrite !andb_true_iff, Z.eqb_eq, Z.leb_le. intros [[Ho Hl] Ht] Ha Hx Hy Hf.
    apply Forall_cons_1 in Hf as [Hf Hfs]. pose proof (tiles_le _ _ _ Ht) as Hle.
    replace (b - a) with (field_len f + (b - (a + field_len f))) by lia.
    rewrite !sub_app_split by lia. subst a. rewrite Hf. f_equal. apply IH; try done. lia.
Qed.

(** A field that holds what the buffer [buf] has at its place. *)
Definition taken_from (buf : list Z) (f : field) : Prop :=
  field_bytes f = sub_bytes buf (field_off f) (field_len f).

Section Taken.
Context (buf : list Z) (Hb : Forall is_u8 buf).

Lemma le_bytes_val bs : Forall is_u8 bs -> le_bytes (length bs) (le_val bs) = bs.
Proof.
  induction 1 as [|b bs Hu _ IH]; [done|]. cbn [length le_bytes le_val]. unfold is_u8 in Hu.
  replace ((b + 256 * le_val bs) mod 256) with b; [f_equal|].
  - transitivity (le_bytes (length bs) (le_val bs)); [f_equal|exact IH].
    rewrite Z.mul_comm, Z.div_add, Z.div_small by lia. lia.
  - rewrite Z.mul_comm, Z.mod_add, Z.mod_small by lia. done.
Qed.

Lemma le_bytes_sub (n : nat) o :
  0 <= o -> o + Z.of_nat n <= zlen buf -> le_bytes n (le_val (sub_bytes buf o (Z.of_nat n))) = sub_bytes buf o (Z.of_nat n).
Proof.
  intros Ho Hl. pose proof (zlen_sub buf o (Z.of_nat n) Ho ltac:(lia) Hl) as Hz. unfold zlen in Hz.
  assert (length (sub_bytes buf o (Z.of_nat n)) = n) as Hn by lia. rewrite <- Hn at 1. apply le_bytes_val. by apply Forall_sub.
Qed.

Lemma taken_u16 o : 0 <= o -> o + 2 <= zlen buf -> taken_from buf (U16 o (get_u16 buf o)).
Proof. intros. by apply (le_bytes_sub 2). Qed.
Lemma taken_u32 o : 0 <= o -> o + 4 <= zlen buf -> taken_from buf (U32 o (get_u32 buf o)).
Proof. intros. by apply (le_bytes_sub 4). Qed.
Lemma taken_u64 o : 0 <= o -> o + 8 <= zlen buf -> taken_from buf (U64 o (get_u64 buf o)).
Proof. intros. by apply (le_bytes_sub 8). Qed.
Lemma taken_raw o n : taken_from buf (Raw o n (get_bytes n buf o)).
Proof. done. Qed.

Lemma taken_u8 o : 0 <= o -> o + 1 <= zlen buf -> taken_from buf (U8 o (get_u8 buf o)).
Proof.
  intros Ho Hl. unfold taken_from, get_u8. cbn [field_bytes field_off field_len]. apply list_eq. intros i.
  rewrite lookup_sub by lia. case_decide as Hi.
  - assert (i = 0%nat) as -> by lia. rewrite Nat.add_0_r. cbn [lookup list_lookup].
    destruct (nth_lookup_or_length buf (Z.to_nat o) 0) as [->|Hge]; [done|]. unfold zlen in Hl. lia.
  - destruct i; [lia|done].
Qed.

Lemma taken_array o n : 0 <= o -> o + 4 * n <= zlen buf -> Forall (taken_from buf) (u32_array o n (get_u32_array n buf o)).
Proof.
  intros Ho Hl. unfold u32_array, get_u32_array. apply Forall_fmap, list.Forall_forall. intros i Hi%elem_of_seqZ. cbn.
  assert (nth (Z.to_nat i) (map (fun j => get_u32 buf (o + j * 4)) (seqZ 0 n)) 0 = get_u32 buf (o + i * 4)) as ->.
  { apply nth_lookup_Some. rewrite list_lookup_fmap, lookup_seqZ_lt by lia. cbn. do 2 f_equal. lia. }
  apply taken_u32; lia.
Qed.
End Taken.

Ltac taken Hb :=
  repeat (apply Forall_app; split);
  first [ apply (taken_array _ Hb); [lia|lia]
        | repeat apply List.Forall_cons; [..|apply List.Forall_nil];
          first [ apply (taken_u8 _); [lia|lia] | apply (taken_u16 _ Hb); [lia|lia]
                | apply (taken_u32 _ Hb); [lia|lia] | apply (taken_u64 _ Hb); [lia|lia] | apply taken_raw ] ].

Section Rewrite.
Context (fs : list field) (size : Z) (buf z : list Z).
Context (Hok : layout_ok size fs = true) (Hsz : Forall field_sized fs) (Hz : zlen z = size).

(** A tiled run of fields taken from a buffer is copied. *)
Lemma put_fields_taken part a b :
  (forall f, f ∈ part -> f ∈ fs) -> Forall (taken_from buf) part -> tiles a part b = true ->
  0 <= a -> b <= size -> b <= zlen buf ->
  sub_bytes (put_fields fs z) a (b - a) = sub_bytes buf a (b - a).
Proof.
  intros Hin Ht Htile Ha Hb Hl. apply (tiles_eq _ _ part); try done; [by rewrite zlen_put_fields, Hz|].
  apply list.Forall_forall. intros f Hf. rewrite (sub_put_fields_eq fs z size f); try done; [|lia|apply list_elem_of_In, Hin, Hf].
  rewrite list.Forall_forall in Ht. by apply Ht.
Qed.

(** Two records with a common tiled run of fields agree there. *)
Lemma put_fields_common fs' z' part a b :
  layout_ok size fs' = true -> Forall field_sized fs' -> zlen z' = size ->
  (forall f, f ∈ part -> f ∈ fs) -> (forall f, f ∈ part -> f ∈ fs') -> tiles a part b = true ->
  0 <= a -> b <= size ->
  sub_bytes (put_fields fs z) a (b - a) = sub_bytes (put_fields fs' z') a (b - a).
Proof.
  intros Hok' Hsz' Hz' Hin Hin' Htile Ha Hb.
  apply (tiles_eq _ _ part); try done; [by rewrite zlen_put_fields, Hz|by rewrite zlen_put_fields, Hz'|].
  apply list.Forall_forall. intros f Hf.
  rewrite (sub_put_fields_eq fs z size f), (sub_put_fields_eq fs' z' size f); try done; try lia;
    apply list_elem_of_In; [by apply Hin'|by apply Hin].
Qed.
End Rewrite.

Lemma SuperBlock_layout s : layout_ok 1024 (SuperBlock_fields s) = true.
Proof. vm_compute. reflexivity. Qed.

Lemma SuperBlock_sized s : SuperBlock_wf s -> Forall field_sized (SuperBlock_fields s).
Proof. intros Hwf. unfold SuperBlock_wf in Hwf. destruct_and? Hwf. unfold SuperBlock_fields. sized_fields. Qed.

Lemma superblock_canonical buf z :
  Forall is_u8 buf -> zlen buf = 1024 -> zlen z = 1024 -> SuperBlock_write_to (SuperBlock_read_from buf) z = buf.
Proof.
  intros Hb Hl Hz. unfold SuperBlock_write_to.
  assert (SuperBlock_wf (SuperBlock_read_from buf)) as Hwf.
  { assert (rec_size SuperBlock <= zlen buf) as Hr by (rewrite Hl; done). exact (read_from_wf (A := SuperBlock) buf Hb Hr). }
  set (fs := SuperBlock_fields _). set (z' := put_bytes z 0 (zeros 1024)).
  assert (zlen z' = 1024) as Hz' by (unfold z'; by rewrite zlen_put).
  pose proof (put_fields_taken fs 1024 buf z' (SuperBlock_layout _) (SuperBlock_sized _ Hwf) Hz' fs 0 1024) as H.
  rewrite <- (sub_all buf), <- (sub_all (put_fields fs z')), Hl, zlen_put_fields, Hz'.
  apply H; try done; [|lia]. unfold fs, SuperBlock_fields, SuperBlock_read_from.
  taken Hb.
Qed.

(** The laws of the records by their own names. *)

Lemma Inode_read_write s buf : Inode_wf s -> 256 <= zlen buf -> Inode_read_from (Inode_write_to s buf) = s.
Proof. intros Hwf Hl. change (read_from (write_to s buf) = s). by apply read_write. Qed.

Lemma zlen_Inode_write s buf : zlen (Inode_write_to s buf) = zlen buf.
Proof. change (zlen (write_to s buf) = zlen buf). apply zlen_write_to. Qed.
