(* ===== verification/Resizer.v ===== *)
(** Offline growth of an image: [common/disk-image/src/ext4/resizer.rs].

    [grow_image] reads and checks the image ([parse_image]), computes all new
    metadata in memory ([plan_grow]) and writes it ([apply_plan]).  Every access
    seeks first, so reads are functions of the file.  The writing part is the
    list of operations it issues, in order, with its [sync_all] calls: the
    theorems on crashes speak about that order.  Since all errors are returned
    before the first operation, a failed call issues none. *)

From stdpp Require Import strings.
From S2P Require Import Prelude Bytes Types Checksum Layout Errors Disk Tables Extent Geometry.

Open Scope string_scope.
Open Scope list_scope.
Open Scope Z_scope.

Definition BLOCK_SIZE : Z := 4096.
Definition BLOCKS_PER_GROUP : Z := 4096 * 8.
Definition DESCRIPTOR_SIZE : Z := 32.
Definition SUPERBLOCK_SIZE : Z := 1024.
Definition RESIZE_INODE_NUMBER : Z := 7.
Definition EXT2_DIND_BLOCK : Z := 13.
Definition EXT4_VALID_FS : Z := 0x0001.
Definition EXT4_ERROR_FS : Z := 0x0002.

Definition EXPECTED_COMPAT : Z :=
  Z.lor (Z.lor compat_HAS_JOURNAL compat_EXT_ATTR) compat_RESIZE_INODE.
Definition EXPECTED_INCOMPAT : Z :=
  Z.lor (Z.lor incompat_FILETYPE incompat_EXTENTS) incompat_FLEX_BG.
Definition EXPECTED_RO_COMPAT : Z :=
  Z.lor (Z.lor (Z.lor (Z.lor ro_compat_SPARSE_SUPER ro_compat_LARGE_FILE) ro_compat_HUGE_FILE)
    ro_compat_GDT_CSUM) ro_compat_EXTRA_ISIZE.

(** ** Data *)

Record GrowOutcome : Type := mkGrowOutcome {
  old_blocks : Z; new_blocks : Z; old_groups : Z; new_groups : Z
}.

Definition changed (o : GrowOutcome) : bool := negb (old_blocks o =? new_blocks o).

Record ParsedImage : Type := mkParsedImage {
  pi_superblock : SuperBlock;
  pi_descriptors : list GroupDescriptor;
  pi_descriptor_span : Z;
  pi_groups : Z;
  pi_blocks : Z;
  pi_inode_table_blocks : Z;
  pi_resize_inode : Inode;
  pi_resize_inode_offset : Z;
  pi_resize_dind_block : Z
}.

Record BitmapWrite : Type := mkBitmapWrite { bw_block : Z; bw_bytes : list Z }.

Record GrowPlan : Type := mkGrowPlan {
  gp_outcome : GrowOutcome;
  gp_backing_size : Z;
  gp_error_superblock : SuperBlock;
  gp_final_superblock : SuperBlock;
  gp_gdt : list Z;
  gp_bitmap_writes : list BitmapWrite;
  gp_resize_inode : Inode;
  gp_resize_inode_offset : Z;
  gp_resize_dind_block : Z;
  gp_resize_dind : list Z;
  gp_reserved_gdt_writes : list BitmapWrite;
  gp_backup_groups : list Z
}.

Definition set_gd_free_blocks (v : Z) (gd : GroupDescriptor) : GroupDescriptor :=
  let 'mkGroupDescriptor bb ib it _ fi ud fl eb bc ic iu cs := gd in
  mkGroupDescriptor bb ib it v fi ud fl eb bc ic iu cs.

(** ** Arithmetic, buffers and the file *)

Definition checked_add (limit a b : Z) : option Z := if a + b <=? limit then Some (a + b) else None.
Definition checked_mul (limit a b : Z) : option Z := if a * b <=? limit then Some (a * b) else None.
Definition u16_max : Z := 65535.
Definition u64_max : Z := 18446744073709551615.

Section Effects.
Context {E : Type}.

(** [if refuse { return Err(error); }]. *)
Definition refuse (b : bool) (error : E) : res E unit := if b then Err error else Ok tt.

Definition get_le32 (buf : list Z) (offset : Z) : res E Z :=
  if offset + 4 <=? zlen buf then Ok (get_u32 buf offset) else Panic.
Definition put_le32 (buf : list Z) (offset value : Z) : res E (list Z) :=
  if offset + 4 <=? zlen buf then Ok (put_u32 buf offset value) else Panic.
Definition get_be32 (buf : list Z) (offset : Z) : res E Z :=
  if offset + 4 <=? zlen buf then Ok (be_val (sub_bytes buf offset 4)) else Panic.

Definition set_bit (bitmap : list Z) (bit : Z) : res E (list Z) :=
  if zlen bitmap <=? bit / 8 then Panic
  else Ok (put_u8 bitmap (bit / 8) (Z.lor (get_u8 bitmap (bit / 8)) (Z.shiftl 1 (bit mod 8)))).
Definition clear_bit (bitmap : list Z) (bit : Z) : res E (list Z) :=
  if zlen bitmap <=? bit / 8 then Panic else Ok (Geometry.clear_bit bitmap bit).
End Effects.

Definition file_read_at (file : File) (offset n : Z) : res ResizeError (list Z) :=
  out ← map_err ResizeIo (read_exact (seek file offset) n); Ok (out.1).
Definition read_block (file : File) (block : Z) : res ResizeError (list Z) :=
  file_read_at file (block * BLOCK_SIZE) BLOCK_SIZE.

Definition read_inode_at (file : File) (offset : Z) : res ResizeError Inode :=
  buf ← file_read_at file offset 256; Ok (Inode_read_from buf).

Definition backup_groups (groups : Z) : list Z := List.filter has_sparse_super (seqZ 1 (groups - 1)).

(** Division by zero panics. *)
Definition inode_offset (descriptors : list GroupDescriptor) (superblock : SuperBlock)
    (inode_number : Z) : res ResizeError Z :=
  if sb_inodes_per_group superblock =? 0 then Panic
  else
    let group := (inode_number - 1) / sb_inodes_per_group superblock in
    let index := (inode_number - 1) mod sb_inodes_per_group superblock in
    descriptor ← ok_or (descriptors !! Z.to_nat group) (Corrupt "inode group descriptor is missing");
    Ok (gd_inode_table_lo descriptor * BLOCK_SIZE + index * sb_inode_size superblock).

(** ** Parsing and validation *)

Definition validate_descriptor (descriptor : GroupDescriptor) (blocks inodes_per_group : Z) :
    res ResizeError unit :=
  let inode_table_blocks := inodes_per_group * 256 / BLOCK_SIZE in
  refuse ((blocks <=? gd_block_bitmap_lo descriptor) || (blocks <=? gd_inode_bitmap_lo descriptor)
          || (blocks <=? gd_inode_table_lo descriptor)
          || (blocks <? gd_inode_table_lo descriptor + inode_table_blocks))
    (Corrupt "group metadata lies outside the filesystem").

(** The pointer to the copy of a GDT block in a backup group. *)
Definition backup_pointer (primary group : Z) : res ResizeError Z :=
  ok_or (checked_add u32_max primary (Z.min u32_max (group * BLOCKS_PER_GROUP)))
    (Corrupt "backup GDT pointer overflows").

(** The inner loop over the backup groups, with [enumerate]. *)
Definition validate_backup_pointers (pointers : list Z) (expected : Z) (groups : list Z) :
    res ResizeError unit :=
  foldM (fun _ (entry : nat * Z) =>
    expected_backup ← backup_pointer expected entry.2;
    found ← get_le32 pointers (Z.of_nat entry.1 * 4);
    refuse (negb (found =? expected_backup)) (Corrupt "resize inode backup pointer mismatch"))
    tt (imap pair groups).

Definition validate_resize_inode (file : File) (superblock : SuperBlock)
    (descriptor_blocks descriptor_span groups : Z) (inode : Inode) : res ResizeError Z :=
  _ ← refuse (negb (Z.land (i_mode inode) TYPE_MASK =? S_IFREG) || negb (i_links_count inode =? 1)
              || negb (i_flags inode =? 0)) (Corrupt "invalid resize inode");
  let dind_block := get_u32 (i_block inode) (EXT2_DIND_BLOCK * 4) in
  _ ← refuse ((dind_block =? 0) || (sb_blocks_count_lo superblock <=? dind_block))
        (Corrupt "invalid resize inode double-indirect block");
  dind ← read_block file dind_block;
  let backup_groups := backup_groups groups in
  _ ← foldM (fun _ index =>
        let expected := 1 + index in
        found ← get_le32 dind (index * 4);
        _ ← refuse (negb (found =? expected)) (Corrupt "resize inode GDT pointer mismatch");
        pointers ← read_block file expected;
        validate_backup_pointers pointers expected backup_groups)
      tt (seqZ descriptor_blocks (descriptor_span - descriptor_blocks));
  Ok dind_block.

(** [ranges.iter().map(|(start, end)| (end - start) as u64).sum()]. *)
Definition mapped_blocks (ranges : list (Z * Z)) : Z :=
  fold_left (fun n (r : Z * Z) => u64 (n + u32 (r.2 - r.1))) ranges 0.

(** The checks on the JBD2 superblock, the first block of the journal. *)
Definition validate_journal_block (block : list Z) (journal_blocks : Z) (uuid : list Z) :
    res ResizeError unit :=
  maximum_journal_blocks ← get_be32 block 0x10;
  first_journal_block ← get_be32 block 0x14;
  magic ← get_be32 block 0x00;
  kind ← get_be32 block 0x04;
  size ← get_be32 block 0x0C;
  users ← get_be32 block 0x40;
  _ ← refuse (negb (magic =? 0xC03B3998) || negb (kind =? 4) || negb (size =? BLOCK_SIZE)
              || (maximum_journal_blocks <? 1024) || (journal_blocks <? maximum_journal_blocks)
              || (first_journal_block =? 0) || (maximum_journal_blocks <=? first_journal_block)
              || negb (users =? 1) || negb (bool_decide (sub_bytes block 0x30 16 = uuid)))
        (Corrupt "invalid JBD2 superblock");
  errno ← get_be32 block 0x20;
  _ ← refuse (negb (errno =? 0)) (Corrupt "journal records an aborted transaction");
  start ← get_be32 block 0x1C;
  _ ← refuse (negb (start =? 0)) RequiresRecovery;
  compat_features ← get_be32 block 0x24;
  incompat_features ← get_be32 block 0x28;
  ro_features ← get_be32 block 0x2C;
  refuse (negb (compat_features =? 0) || negb (Z.land incompat_features (Z.lxor u32_max 0x1) =? 0)
          || negb (ro_features =? 0)) (Unsupported "unsupported JBD2 feature set").

Definition validate_clean_journal (file : File) (descriptors : list GroupDescriptor)
    (superblock : SuperBlock) : res ResizeError unit :=
  offset ← inode_offset descriptors superblock JOURNAL_INODE_NUMBER;
  inode ← read_inode_at file offset;
  _ ← refuse (negb (Z.land (i_mode inode) TYPE_MASK =? S_IFREG) || (i_links_count inode =? 0)
              || (Z.land (i_flags inode) inode_flag_EXTENTS =? 0)) (Corrupt "invalid journal inode");
  ranges ← map_err (fun _ => Corrupt "invalid journal extents") (parse_extents inode BLOCK_SIZE file);
  let mapped := mapped_blocks ranges in
  let journal_blocks := file_size inode / BLOCK_SIZE in
  _ ← refuse ((journal_blocks <? 1024) || (mapped <? journal_blocks))
        (Corrupt "journal is not fully allocated");
  first ← ok_or (head ranges) (Corrupt "journal has no blocks");
  block ← read_block file first.1;
  validate_journal_block block journal_blocks (sb_uuid superblock).

(** The checks of [parse_image] on the superblock alone, up to the block count. *)
Definition check_superblock (superblock : SuperBlock) : res ResizeError unit :=
  _ ← refuse (negb (sb_magic superblock =? SUPERBLOCK_MAGIC)) (Corrupt "invalid superblock magic");
  _ ← refuse (negb (sb_log_block_size superblock =? 2) || negb (sb_first_data_block superblock =? 0)
              || negb (sb_blocks_per_group superblock =? BLOCKS_PER_GROUP)
              || negb (sb_clusters_per_group superblock =? BLOCKS_PER_GROUP)
              || negb (sb_inode_size superblock =? 256))
        (Unsupported "unsupported filesystem geometry");
  _ ← refuse (negb (sb_feature_compat superblock =? EXPECTED_COMPAT))
        (Unsupported "unexpected compatible feature set");
  _ ← refuse (negb (Z.land (sb_feature_incompat superblock) incompat_RECOVER =? 0)) RequiresRecovery;
  _ ← refuse (negb (sb_feature_incompat superblock =? EXPECTED_INCOMPAT))
        (Unsupported "unexpected incompatible feature set");
  _ ← refuse (negb (sb_feature_ro_compat superblock =? EXPECTED_RO_COMPAT))
        (Unsupported "unexpected read-only compatible feature set");
  _ ← refuse ((Z.land (sb_state superblock) EXT4_VALID_FS =? 0)
              || negb (Z.land (sb_state superblock) EXT4_ERROR_FS =? 0))
        (Corrupt "filesystem is not clean");
  _ ← refuse (negb (sb_last_orphan superblock =? 0)) RequiresRecovery;
  _ ← refuse (negb (sb_journal_inum superblock =? JOURNAL_INODE_NUMBER)
              || negb (sb_journal_dev superblock =? 0)) (Unsupported "unsupported journal location");
  _ ← refuse (sb_reserved_gdt_blocks superblock =? 0)
        (Unsupported "filesystem has no reserved GDT capacity");
  refuse (negb (sb_blocks_count_hi superblock =? 0) || (sb_blocks_count_lo superblock =? 0))
    (Unsupported "64-bit block counts are unsupported").

(** One turn of the loop that reads and checks the group descriptors. *)
Definition parse_descriptor (gdt : list Z) (superblock : SuperBlock) (blocks group : Z) :
    res ResizeError GroupDescriptor :=
  let offset := group * 32 in
  if zlen gdt <? offset + 32 then Panic
  else
    let descriptor := GroupDescriptor_read_from (sub_bytes gdt offset 32) in
    _ ← refuse (negb (group_descriptor (sb_uuid superblock) group descriptor =? gd_checksum descriptor))
          (Corrupt "group descriptor checksum mismatch");
    _ ← validate_descriptor descriptor blocks (sb_inodes_per_group superblock);
    Ok descriptor.

Definition parse_descriptors (gdt : list Z) (superblock : SuperBlock) (groups blocks : Z) :
    res ResizeError (list GroupDescriptor) :=
  foldM (fun descriptors group =>
    descriptor ← parse_descriptor gdt superblock blocks group;
    Ok (descriptors ++ [descriptor])) [] (seqZ 0 groups).

Definition parse_image (file : File) : res ResizeError ParsedImage :=
  sb_buf ← file_read_at file SUPERBLOCK_OFFSET SUPERBLOCK_SIZE;
  let superblock := SuperBlock_read_from sb_buf in
  _ ← check_superblock superblock;
  let blocks := sb_blocks_count_lo superblock in
  filesystem_bytes ← ok_or (checked_mul u64_max blocks BLOCK_SIZE)
                       (Corrupt "filesystem size overflows u64");
  _ ← refuse (f_len file <? filesystem_bytes) (Corrupt "backing file is shorter than the filesystem");
  let groups := group_count blocks 0 BLOCKS_PER_GROUP in
  _ ← (if groups =? 0 then Err (Corrupt "inconsistent group or inode count")
       else
         inodes ← ok_or (checked_mul u32_max groups (sb_inodes_per_group superblock))
                    (Corrupt "inode count overflows");
         refuse (negb (inodes =? sb_inodes_count superblock)) (Corrupt "inconsistent group or inode count"));
  let descriptor_blocks := descriptor_blocks groups BLOCK_SIZE DESCRIPTOR_SIZE in
  descriptor_span ← ok_or (checked_add u32_max descriptor_blocks (sb_reserved_gdt_blocks superblock))
                      (Corrupt "resize inode GDT span overflows");
  _ ← refuse (BLOCK_SIZE / 4 <? descriptor_span)
        (Corrupt "resize inode GDT span exceeds double-indirect block");
  gdt ← file_read_at file BLOCK_SIZE (descriptor_blocks * BLOCK_SIZE);
  descriptors ← parse_descriptors gdt superblock groups blocks;
  inode_table_bytes ← ok_or (checked_mul u32_max (sb_inodes_per_group superblock) (sb_inode_size superblock))
                        (Corrupt "inode table size overflows");
  let inode_table_blocks := inode_table_bytes / BLOCK_SIZE in
  _ ← refuse (inode_table_blocks =? 0) (Corrupt "inode table is empty");
  resize_inode_offset ← inode_offset descriptors superblock RESIZE_INODE_NUMBER;
  resize_inode ← read_inode_at file resize_inode_offset;
  resize_dind_block ← validate_resize_inode file superblock descriptor_blocks descriptor_span groups
                        resize_inode;
  _ ← validate_clean_journal file descriptors superblock;
  Ok {| pi_superblock := superblock; pi_descriptors := descriptors;
        pi_descriptor_span := descriptor_span; pi_groups := groups; pi_blocks := blocks;
        pi_inode_table_blocks := inode_table_blocks; pi_resize_inode := resize_inode;
        pi_resize_inode_offset := resize_inode_offset; pi_resize_dind_block := resize_dind_block |}.

(** ** Planning *)

Definition system_blocks (group descriptor_span : Z) : Z :=
  if has_sparse_super group then u32 (1 + descriptor_span) else 0.

(** The size the file system gets: a final group too small for its metadata is
    left out. *)
Definition usable_size (image : ParsedImage) (requested_blocks : Z) : Z * Z :=
  let new_groups := group_count requested_blocks 0 BLOCKS_PER_GROUP in
  if pi_groups image <? new_groups then
    let last_group := new_groups - 1 in
    let blocks_in_last := requested_blocks - last_group * BLOCKS_PER_GROUP in
    if negb (blocks_in_last =? BLOCKS_PER_GROUP) then
      let minimum :=
        u32 (system_blocks last_group (pi_descriptor_span image) + 2 + pi_inode_table_blocks image + 1) in
      if blocks_in_last <=? minimum then (last_group * BLOCKS_PER_GROUP, new_groups - 1)
      else (requested_blocks, new_groups)
    else (requested_blocks, new_groups)
  else (requested_blocks, new_groups).

(** The bitmaps written, the descriptors and the blocks gained so far. *)
Record Growth : Type := mkGrowth {
  gr_writes : list BitmapWrite; gr_descriptors : list GroupDescriptor; gr_added : Z
}.

(** The old last group takes up the blocks up to its end. *)
Definition expand_last_group (file : File) (image : ParsedImage) (new_blocks : Z) :
    res ResizeError Growth :=
  let same := {| gr_writes := []; gr_descriptors := pi_descriptors image; gr_added := 0 |} in
  if negb (pi_blocks image mod BLOCKS_PER_GROUP =? 0) then
    let old_last_group := pi_groups image - 1 in
    let group_end := (old_last_group + 1) * BLOCKS_PER_GROUP in
    let expanded_end := Z.min new_blocks group_end in
    if pi_blocks image <? expanded_end then
      descriptor ← ok_or (pi_descriptors image !! Z.to_nat old_last_group)
                     (Corrupt "missing final group descriptor");
      _ ← refuse (negb (Z.land (gd_flags descriptor) bg_BLOCK_UNINIT =? 0))
            (Corrupt "partial group has uninitialized bitmap");
      bitmap ← read_block file (gd_block_bitmap_lo descriptor);
      let group_start := old_last_group * BLOCKS_PER_GROUP in
      bitmap ← foldM (fun bm block => clear_bit bm (u32 (block - group_start))) bitmap
                 (seqZ (pi_blocks image) (expanded_end - pi_blocks image));
      let added := expanded_end - pi_blocks image in
      free ← ok_or (checked_add u16_max (gd_free_blocks_count_lo descriptor) (u16 added))
               (Corrupt "free block count overflows");
      Ok {| gr_writes := [ {| bw_block := gd_block_bitmap_lo descriptor; bw_bytes := bitmap |} ];
            gr_descriptors :=
              <[Z.to_nat old_last_group := set_gd_free_blocks free descriptor]> (pi_descriptors image);
            gr_added := added |}
    else Ok same
  else Ok same.

(** One turn of the loop over the new groups. *)
Definition add_group (image : ParsedImage) (new_blocks new_groups : Z) (growth : Growth) (group : Z) :
    res ResizeError Growth :=
  let inodes_per_group := sb_inodes_per_group (pi_superblock image) in
  let group_start := group * BLOCKS_PER_GROUP in
  let blocks_in_group := u32 (Z.min (new_blocks - group_start) BLOCKS_PER_GROUP) in
  let system_blocks := system_blocks group (pi_descriptor_span image) in
  let inode_table := u32 (u32 group_start + system_blocks) in
  let block_bitmap := u32 (inode_table + pi_inode_table_blocks image) in
  let inode_bitmap := u32 (block_bitmap + 1) in
  let used_blocks := u32 (system_blocks + pi_inode_table_blocks image + 2) in
  _ ← refuse (blocks_in_group <=? used_blocks) (Corrupt "new group is too small for metadata");
  block_bitmap_bytes ← foldM set_bit (zeros BLOCK_SIZE) (seqZ 0 used_blocks);
  block_bitmap_bytes ← foldM set_bit block_bitmap_bytes
                         (seqZ blocks_in_group (BLOCKS_PER_GROUP - blocks_in_group));
  inode_bitmap_bytes ← foldM set_bit (zeros BLOCK_SIZE)
                         (seqZ inodes_per_group (BLOCKS_PER_GROUP - inodes_per_group));
  let free_blocks := blocks_in_group - used_blocks in
  let flags := if negb (group =? new_groups - 1) then Z.lor bg_INODE_UNINIT bg_BLOCK_UNINIT
               else bg_INODE_UNINIT in
  let descriptor :=
    {| gd_block_bitmap_lo := block_bitmap; gd_inode_bitmap_lo := inode_bitmap;
       gd_inode_table_lo := inode_table; gd_free_blocks_count_lo := u16 free_blocks;
       gd_free_inodes_count_lo := u16 inodes_per_group; gd_used_dirs_count_lo := 0;
       gd_flags := flags; gd_exclude_bitmap_lo := 0; gd_block_bitmap_csum_lo := 0;
       gd_inode_bitmap_csum_lo := 0; gd_itable_unused_lo := u16 inodes_per_group;
       gd_checksum := 0 |} in
  Ok {| gr_writes := gr_writes growth ++
          [ {| bw_block := block_bitmap; bw_bytes := block_bitmap_bytes |};
            {| bw_block := inode_bitmap; bw_bytes := inode_bitmap_bytes |} ];
        gr_descriptors := gr_descriptors growth ++ [descriptor];
        gr_added := gr_added growth + free_blocks |}.

(** The block of pointers from a reserved GDT block to its copies. *)
Definition reserved_pointers (primary : Z) (groups : list Z) : res ResizeError (list Z) :=
  foldM (fun pointers (entry : nat * Z) =>
    backup ← backup_pointer primary entry.2;
    put_le32 pointers (Z.of_nat entry.1 * 4) backup)
    (zeros BLOCK_SIZE) (imap pair groups).

(** The double-indirect block and the pointer blocks of the resize inode. *)
Definition resize_blocks (new_descriptor_blocks descriptor_span : Z) (groups : list Z) :
    res ResizeError (list Z * list BitmapWrite) :=
  foldM (fun (st : list Z * list BitmapWrite) index =>
    let primary := 1 + index in
    resize_dind ← put_le32 st.1 (index * 4) primary;
    pointers ← reserved_pointers primary groups;
    Ok (resize_dind, st.2 ++ [ {| bw_block := primary; bw_bytes := pointers |} ]))
    (zeros BLOCK_SIZE, []) (seqZ new_descriptor_blocks (descriptor_span - new_descriptor_blocks)).

(** A descriptor with its checksum. *)
Definition stamp (uuid : list Z) (group : nat) (descriptor : GroupDescriptor) : GroupDescriptor :=
  set_gd_checksum (group_descriptor uuid (Z.of_nat group) descriptor) descriptor.

Definition plan_grow (file : File) (image : ParsedImage) (backing_size : Z) : res ResizeError GrowPlan :=
  let superblock := pi_superblock image in
  let requested_blocks := backing_size / BLOCK_SIZE in
  if u32_max <? requested_blocks then Err (TooLarge requested_blocks u32_max)
  else if requested_blocks <? pi_blocks image
  then Err (ShrinkUnsupported (pi_blocks image) requested_blocks)
  else
    let '(new_blocks, new_groups) := usable_size image requested_blocks in
    let outcome := {| old_blocks := pi_blocks image; new_blocks := new_blocks;
                      old_groups := pi_groups image; new_groups := new_groups |} in
    let error_superblock := set_sb_state (Z.lor EXT4_VALID_FS EXT4_ERROR_FS) superblock in
    if negb (changed outcome) then
      Ok {| gp_outcome := outcome; gp_backing_size := backing_size;
            gp_error_superblock := error_superblock; gp_final_superblock := superblock;
            gp_gdt := []; gp_bitmap_writes := []; gp_resize_inode := pi_resize_inode image;
            gp_resize_inode_offset := pi_resize_inode_offset image;
            gp_resize_dind_block := pi_resize_dind_block image; gp_resize_dind := [];
            gp_reserved_gdt_writes := []; gp_backup_groups := [] |}
    else
      let new_descriptor_blocks := descriptor_blocks new_groups BLOCK_SIZE DESCRIPTOR_SIZE in
      let descriptor_span := pi_descriptor_span image in
      if descriptor_span <? new_descriptor_blocks
      then Err (GdtCapacityExceeded new_descriptor_blocks descriptor_span)
      else
        let new_reserved_gdt := descriptor_span - new_descriptor_blocks in
        growth ← expand_last_group file image new_blocks;
        growth ← foldM (add_group image new_blocks new_groups) growth
                   (seqZ (pi_groups image) (new_groups - pi_groups image));
        let inode_count := new_groups * sb_inodes_per_group superblock in
        if u32_max <? inode_count then Err TooManyInodes
        else
          let final_backup_groups := backup_groups new_groups in
          blocks ← resize_blocks new_descriptor_blocks descriptor_span final_backup_groups;
          let '(resize_dind, reserved_gdt_writes) := (blocks : list Z * list BitmapWrite) in
          let resize_owned_blocks := 1 + new_reserved_gdt * (1 + zlen final_backup_groups) in
          blocks_lo ← ok_or (checked_mul u32_max resize_owned_blocks (BLOCK_SIZE / 512))
                        (Corrupt "resize inode block count overflows");
          let resize_inode := set_i_blocks_lo blocks_lo (pi_resize_inode image) in
          free_blocks ← ok_or (checked_add u32_max (sb_free_blocks_count_lo superblock) (u32 (gr_added growth)))
                          (Corrupt "superblock free block count overflows");
          free_inodes ← ok_or (checked_add u32_max (sb_free_inodes_count superblock)
                            (u32 ((new_groups - pi_groups image) * sb_inodes_per_group superblock)))
                          (Corrupt "superblock free inode count overflows");
          let final_superblock :=
            sb_put (u32 inode_count) (u32 new_blocks) free_blocks free_inodes EXT4_VALID_FS
              (sb_block_group_nr superblock) (u16 new_reserved_gdt) superblock in
          gdt ← put_table 0 (imap (stamp (sb_uuid final_superblock)) (gr_descriptors growth))
                  (zeros (new_descriptor_blocks * BLOCK_SIZE));
          Ok {| gp_outcome := outcome; gp_backing_size := backing_size;
                gp_error_superblock := error_superblock; gp_final_superblock := final_superblock;
                gp_gdt := gdt; gp_bitmap_writes := gr_writes growth; gp_resize_inode := resize_inode;
                gp_resize_inode_offset := pi_resize_inode_offset image;
                gp_resize_dind_block := pi_resize_dind_block image; gp_resize_dind := resize_dind;
                gp_reserved_gdt_writes := reserved_gdt_writes;
                gp_backup_groups := final_backup_groups |}.

(** ** Writing *)

(** What the resizer does to the file, in program order. *)
Inductive DiskOp : Type :=
| SetLen (n : Z)
| WriteAt (offset : Z) (bytes : list Z)
| SyncAll.

Definition run_op (file : File) (op : DiskOp) : File :=
  match op with
  | SetLen n => set_len file n
  | WriteAt offset bytes => write_all (seek file offset) bytes
  | SyncAll => file
  end.

Definition run_ops (file : File) (ops : list DiskOp) : File := fold_left run_op ops file.

Definition write_block (block : Z) (bytes : list Z) : DiskOp := WriteAt (block * BLOCK_SIZE) bytes.

Definition write_superblock (group_start : Z) (superblock : SuperBlock) : DiskOp :=
  let sb := set_sb_block_group_nr (u16 (group_start / BLOCKS_PER_GROUP)) superblock in
  let buf := SuperBlock_write_to sb (zeros SUPERBLOCK_SIZE) in
  let offset := if group_start =? 0 then SUPERBLOCK_OFFSET else group_start * BLOCK_SIZE in
  WriteAt offset buf.

Definition write_bitmap (w : BitmapWrite) : DiskOp := write_block (bw_block w) (bw_bytes w).

Definition apply_plan (file : File) (plan : GrowPlan) : list DiskOp :=
  (if f_len file <? gp_backing_size plan then [SetLen (gp_backing_size plan)] else []) ++
  [write_superblock 0 (gp_error_superblock plan); SyncAll] ++
  map write_bitmap (gp_bitmap_writes plan) ++
  [write_block (gp_resize_dind_block plan) (gp_resize_dind plan)] ++
  map write_bitmap (gp_reserved_gdt_writes plan) ++
  [WriteAt (gp_resize_inode_offset plan) (Inode_write_to (gp_resize_inode plan) (zeros 256));
   WriteAt BLOCK_SIZE (gp_gdt plan)] ++
  concat (map (fun group =>
    let group_start := group * BLOCKS_PER_GROUP in
    [WriteAt ((group_start + 1) * BLOCK_SIZE) (gp_gdt plan);
     write_superblock group_start (gp_final_superblock plan)]) (gp_backup_groups plan)) ++
  [SyncAll; write_superblock 0 (gp_final_superblock plan); SyncAll].

(** The outcome and the operations issued. *)
Definition grow_image (file : File) (new_size_bytes : Z) : res ResizeError (GrowOutcome * list DiskOp) :=
  if negb (new_size_bytes mod BLOCK_SIZE =? 0) then Err (UnalignedSize new_size_bytes)
  else
    image ← parse_image file;
    plan ← plan_grow file image new_size_bytes;
    if negb (changed (gp_outcome plan)) then
      Ok (gp_outcome plan,
          if f_len file <? gp_backing_size plan then [SetLen (gp_backing_size plan)] else [])
    else Ok (gp_outcome plan, apply_plan file plan).
