(* ===== verification/ResizerFacts.v ===== *)
(** What a successful [parse_image] and [plan_grow] have established, and that
    neither ever panics. *)

From stdpp Require Import strings.
From S2P Require Import Prelude Bytes Types Checksum Layout Errors Disk Tables Extent Geometry Resizer.

Open Scope string_scope.
Open Scope list_scope.
Open Scope Z_scope.

(** ** Inverting the checks *)

Section Inversion.
Context {E A : Type}.

Lemma refuse_ok b (e : E) u : refuse b e = Ok u <-> b = false.
Proof. unfold refuse. destruct b; split; try done. by destruct u. Qed.

Lemma ok_or_ok (o : option A) (e : E) a : ok_or o e = Ok a <-> o = Some a.
Proof. destruct o; simpl; split; intros H; simplify_eq; done. Qed.
End Inversion.

Lemma checked_add_some l a b c : checked_add l a b = Some c <-> c = a + b /\ a + b <= l.
Proof. unfold checked_add. destruct (Z.leb_spec (a + b) l); split; intros; simplify_eq; lia || (f_equal; lia). Qed.

Lemma checked_mul_some l a b c : checked_mul l a b = Some c <-> c = a * b /\ a * b <= l.
Proof. unfold checked_mul. destruct (Z.leb_spec (a * b) l); split; intros; simplify_eq; lia || (f_equal; lia). Qed.

Lemma file_read_ok f off n bs :
  file_read_at f off n = Ok bs <-> off + n <= f_len f /\ bs = bytes_at f off n.
Proof.
  unfold file_read_at, read_exact. cbn [f_pos f_len seek].
  destruct (Z.leb_spec (off + n) (f_len f)); cbn [map_err mbind res_bind fst]; split.
  - intros [= <-]. by split.
  - by intros [_ ->].
  - done.
  - intros [? _]. lia.
Qed.

Lemma read_block_ok f b bs :
  read_block f b = Ok bs <-> b * 4096 + 4096 <= f_len f /\ bs = bytes_at f (b * 4096) 4096.
Proof. apply file_read_ok. Qed.

Lemma zlen_read_block f b bs : read_block f b = Ok bs -> zlen bs = 4096.
Proof. intros [_ ->]%read_block_ok. by apply zlen_bytes_at. Qed.

(** ** No panics *)

Lemma np_refuse {E} b (e : E) : refuse b e <> Panic.
Proof. unfold refuse. by case_match. Qed.

Lemma np_read f off n : file_read_at f off n <> Panic.
Proof. unfold file_read_at, read_exact. by case_match. Qed.

Lemma np_get_le32 {E} buf o : o + 4 <= zlen buf -> get_le32 (E := E) buf o <> Panic.
Proof. intros. unfold get_le32. by replace (o + 4 <=? zlen buf) with true by lia. Qed.

Lemma np_get_be32 {E} buf o : o + 4 <= zlen buf -> get_be32 (E := E) buf o <> Panic.
Proof. intros. unfold get_be32. by replace (o + 4 <=? zlen buf) with true by lia. Qed.

(** [np_step] passes a step that cannot panic and keeps what its success says. *)
Ltac np := first [ apply np_refuse | apply np_ok_or | apply np_read | discriminate | assumption ].
Ltac np_step := apply np_bind; [np|intros ? ?].

(** ** Backup groups *)

Lemma backup_groups_prefix g h : 0 <= g <= h -> exists rest, backup_groups h = backup_groups g ++ rest.
Proof.
  intros Hg. unfold backup_groups. destruct (decide (g = 0)) as [->|Hne]; [by eexists|].
  exists (List.filter has_sparse_super (seqZ g (h - g))).
  rewrite <- filter_app. f_equal. replace (h - 1) with ((g - 1) + (h - g)) by lia.
  rewrite seqZ_split by lia. by replace (1 + (g - 1)) with g by lia.
Qed.

Lemma backup_groups_elem g x : x ∈ backup_groups g <-> 1 <= x < g /\ has_sparse_super x = true.
Proof.
  unfold backup_groups. rewrite list_elem_of_In, List.filter_In, <- list_elem_of_In, elem_of_seqZ.
  split; intros [? ?]; (split; [lia|done]).
Qed.

Lemma backup_groups_short g : g <= 131072 -> zlen (backup_groups g) <= 1024.
Proof.
  intros Hg. pose proof (sparse_groups_few (backup_groups g)) as H. etransitivity; [apply H|lia].
  - unfold backup_groups. apply NoDup_ListNoDup, List.NoDup_filter, NoDup_ListNoDup, NoDup_seqZ.
  - intros x [Hx Hs]%backup_groups_elem. split; [lia|done].
Qed.

Lemma imap_pair_elem {A} (l : list A) i a : (i, a) ∈ imap pair l -> l !! i = Some a.
Proof. intros (j & x & [= -> ->] & H)%elem_of_lookup_imap. done. Qed.

(** ** The superblock *)

Record sb_good (sb : SuperBlock) : Prop := mk_sb_good {
  good_magic : sb_magic sb = SUPERBLOCK_MAGIC;
  good_block_size : sb_log_block_size sb = 2;
  good_first : sb_first_data_block sb = 0;
  good_per_group : sb_blocks_per_group sb = BLOCKS_PER_GROUP;
  good_clusters : sb_clusters_per_group sb = BLOCKS_PER_GROUP;
  good_inode_size : sb_inode_size sb = 256;
  good_compat : sb_feature_compat sb = EXPECTED_COMPAT;
  good_incompat : sb_feature_incompat sb = EXPECTED_INCOMPAT;
  good_ro : sb_feature_ro_compat sb = EXPECTED_RO_COMPAT;
  good_valid : Z.land (sb_state sb) EXT4_VALID_FS <> 0;
  good_no_error : Z.land (sb_state sb) EXT4_ERROR_FS = 0;
  good_orphan : sb_last_orphan sb = 0;
  good_journal : sb_journal_inum sb = JOURNAL_INODE_NUMBER;
  good_journal_dev : sb_journal_dev sb = 0;
  good_reserved : sb_reserved_gdt_blocks sb <> 0;
  good_blocks_hi : sb_blocks_count_hi sb = 0;
  good_blocks : sb_blocks_count_lo sb <> 0
}.

Lemma refuse_bind {E B} b (e : E) (k : unit -> res E B) c :
  (refuse b e ≫= k) = Ok c <-> b = false /\ k tt = Ok c.
Proof. destruct b; simpl; split; [done|by intros [? _]|done|by intros [_ ?]]. Qed.

Lemma check_superblock_good sb : check_superblock sb = Ok tt <-> sb_good sb.
Proof.
  unfold check_superblock. rewrite !refuse_bind, refuse_ok.
  rewrite !orb_false_iff, !negb_false_iff, !Z.eqb_eq, !Z.eqb_neq. split.
  - intros H. destruct_and! H. by constructor.
  - intros []. split_and!; try done. by rewrite good_incompat0.
Qed.

(** ** A parsed image *)

Record parsed (f : File) (img : ParsedImage) : Prop := mk_parsed {
  pd_len : 2048 <= f_len f;
  pd_superblock : pi_superblock img = SuperBlock_read_from (bytes_at f 1024 1024);
  pd_good : sb_good (pi_superblock img);
  pd_blocks : pi_blocks img = sb_blocks_count_lo (pi_superblock img);
  pd_bytes : pi_blocks img * 4096 <= f_len f /\ pi_blocks img * 4096 <= u64_max;
  pd_groups : pi_groups img = group_count (pi_blocks img) 0 BLOCKS_PER_GROUP /\ pi_groups img <> 0;
  pd_inodes :
    pi_groups img * sb_inodes_per_group (pi_superblock img) = sb_inodes_count (pi_superblock img) /\
    pi_groups img * sb_inodes_per_group (pi_superblock img) <= u32_max;
  pd_span :
    pi_descriptor_span img =
      descriptor_blocks (pi_groups img) 4096 32 + sb_reserved_gdt_blocks (pi_superblock img) /\
    pi_descriptor_span img <= 1024;
  pd_gdt : 4096 + descriptor_blocks (pi_groups img) 4096 32 * 4096 <= f_len f;
  pd_descriptors :
    parse_descriptors (bytes_at f 4096 (descriptor_blocks (pi_groups img) 4096 32 * 4096))
      (pi_superblock img) (pi_groups img) (pi_blocks img) = Ok (pi_descriptors img);
  pd_table :
    pi_inode_table_blocks img = sb_inodes_per_group (pi_superblock img) * 256 / 4096 /\
    pi_inode_table_blocks img <> 0 /\ sb_inodes_per_group (pi_superblock img) * 256 <= u32_max;
  pd_inode_offset :
    inode_offset (pi_descriptors img) (pi_superblock img) RESIZE_INODE_NUMBER = Ok (pi_resize_inode_offset img);
  pd_inode : read_inode_at f (pi_resize_inode_offset img) = Ok (pi_resize_inode img);
  pd_resize :
    validate_resize_inode f (pi_superblock img) (descriptor_blocks (pi_groups img) 4096 32)
      (pi_descriptor_span img) (pi_groups img) (pi_resize_inode img) = Ok (pi_resize_dind_block img);
  pd_journal : validate_clean_journal f (pi_descriptors img) (pi_superblock img) = Ok tt
}.

Lemma bind_ok_or {E A B} (o : option A) (e : E) (k : A -> res E B) c :
  (ok_or o e ≫= k) = Ok c <-> exists a, o = Some a /\ k a = Ok c.
Proof. rewrite res_bind_ok. by setoid_rewrite ok_or_ok. Qed.

Lemma parse_image_parsed f img : parse_image f = Ok img -> parsed f img.
Proof.
  unfold parse_image. intros H. apply res_bind_ok in H as (sbb & [Hlen ->]%file_read_ok & H).
  apply res_bind_ok in H as ([] & Hgood & H). apply check_superblock_good in Hgood.
  apply bind_ok_or in H as (fsb & [-> Hfs]%checked_mul_some & H). apply refuse_bind in H as [Hshort%Z.ltb_ge H].
  apply res_bind_ok in H as ([] & Hinodes & H).
  apply bind_ok_or in H as (span & [-> Hspan]%checked_add_some & H).
  apply refuse_bind in H as [Hspan'%Z.ltb_ge H]. apply res_bind_ok in H as (gdt & [Hgdt ->]%file_read_ok & H).
  apply res_bind_ok in H as (ds & Hds & H). apply bind_ok_or in H as (itb & [-> Hitb]%checked_mul_some & H).
  rewrite (good_inode_size _ Hgood) in *. apply refuse_bind in H as [Hitb'%Z.eqb_neq H].
  apply res_bind_ok in H as (off & Hoff & H). apply res_bind_ok in H as (ino & Hino & H).
  apply res_bind_ok in H as (dind & Hdind & H). apply res_bind_ok in H as ([] & Hj & H).
  injection H as <-. case_match eqn:Hz; [done|]. apply Z.eqb_neq in Hz. apply bind_ok_or in Hinodes as (n & [-> Hn]%checked_mul_some & Hinodes%refuse_ok).
  apply negb_false_iff, Z.eqb_eq in Hinodes. constructor; try done.
Qed.

Lemma parsed_parse_image f img : parsed f img -> parse_image f = Ok img.
Proof.
  intros [Hlen Hsb Hgood Hb [Hbl Hbm] [Hg Hgn] [Hi Him] [Hs Hsm] Hgdt Hds (Ht & Htn & Htm) Hio Hin Hr Hj].
  unfold parse_image. apply res_bind_ok. eexists. split; [apply file_read_ok; by split|].
  cbv zeta. unfold SUPERBLOCK_OFFSET, SUPERBLOCK_SIZE. rewrite <- Hsb.
  apply res_bind_ok. exists tt. split; [by apply check_superblock_good|]. rewrite <- Hb, <- Hg.
  apply bind_ok_or. eexists. split; [apply checked_mul_some; by split|].
  apply refuse_bind. split; [by apply Z.ltb_ge|]. apply res_bind_ok. exists tt. split.
  { destruct (Z.eqb_spec (pi_groups img) 0); [done|]. apply bind_ok_or. eexists.
    split; [apply checked_mul_some; by split|]. apply refuse_ok. by rewrite Z.eqb_refl. }
  apply bind_ok_or. exists (pi_descriptor_span img).
  split; [apply checked_add_some; split; [done|unfold BLOCK_SIZE, DESCRIPTOR_SIZE, u32_max; lia]|].
  apply refuse_bind. split; [by apply Z.ltb_ge|].
  apply res_bind_ok. eexists. split; [apply file_read_ok; by split|].
  apply res_bind_ok. eexists. split; [exact Hds|]. rewrite (good_inode_size _ Hgood).
  apply bind_ok_or. eexists. split; [apply checked_mul_some; by split|].
  change (_ * 256 / BLOCK_SIZE) with (sb_inodes_per_group (pi_superblock img) * 256 / 4096). rewrite <- Ht.
  apply refuse_bind. split; [by apply Z.eqb_neq|].
  apply res_bind_ok. eexists. split; [exact Hio|]. apply res_bind_ok. eexists. split; [exact Hin|].
  apply res_bind_ok. eexists. split; [exact Hr|]. apply res_bind_ok. eexists. split; [exact Hj|].
  by destruct img.
Qed.

(** ** Geometry *)

(** A loop that collects results. *)
Lemma foldM_snoc {E A B} (g : A -> res E B) l : forall acc out,
  foldM (fun acc x => y ← g x; Ok (acc ++ [y])) acc l = Ok out <->
  exists ys, out = acc ++ ys /\ Forall2 (fun x y => g x = Ok y) l ys.
Proof.
  induction l as [|x l IH]; intros acc out; simpl.
  - split.
    + intros [= <-]. exists []. by rewrite app_nil_r.
    + intros (ys & -> & H). inversion H; subst. by rewrite app_nil_r.
  - split.
    + intros H. apply res_bind_ok in H as (acc' & H1 & H). apply res_bind_ok in H1 as (y & Hy & [= <-]).
      apply IH in H as (ys & -> & Hys). exists (y :: ys). rewrite <- app_assoc. by split; [|constructor].
    + intros (ys & -> & H). inversion H as [|? y ? ys' Hy Hys]; subst. rewrite Hy. simpl. apply IH.
      exists ys'. by rewrite <- app_assoc.
Qed.

Lemma validate_descriptor_ok d blocks ipg :
  validate_descriptor d blocks ipg = Ok tt <->
  gd_block_bitmap_lo d < blocks /\ gd_inode_bitmap_lo d < blocks /\ gd_inode_table_lo d < blocks /\
  gd_inode_table_lo d + ipg * 256 / 4096 <= blocks.
Proof.
  unfold validate_descriptor. cbv zeta. rewrite refuse_ok, !orb_false_iff, !Z.leb_gt, Z.ltb_ge.
  change (ipg * 256 / BLOCK_SIZE) with (ipg * 256 / 4096). tauto.
Qed.

(** What the loop establishes of the [i]-th descriptor. *)
Record descriptor_good (sb : SuperBlock) (blocks : Z) (i : nat) (d : GroupDescriptor) : Prop := mk_descriptor_good {
  dg_checksum : group_descriptor (sb_uuid sb) (Z.of_nat i) d = gd_checksum d;
  dg_valid : validate_descriptor d blocks (sb_inodes_per_group sb) = Ok tt
}.

Lemma parse_descriptor_ok gdt sb blocks g d :
  parse_descriptor gdt sb blocks g = Ok d <->
  g * 32 + 32 <= zlen gdt /\ d = GroupDescriptor_read_from (sub_bytes gdt (g * 32) 32) /\
  group_descriptor (sb_uuid sb) g d = gd_checksum d /\
  validate_descriptor d blocks (sb_inodes_per_group sb) = Ok tt.
Proof.
  unfold parse_descriptor. cbv zeta. destruct (Z.ltb_spec (zlen gdt) (g * 32 + 32)) as [Hl|Hl].
  { split; [done|]. intros (? & _). lia. }
  rewrite refuse_bind, negb_false_iff, Z.eqb_eq. split.
  - intros [Hc H]. apply res_bind_ok in H as ([] & Hv & [= <-]). done.
  - intros (_ & -> & Hc & Hv). split; [done|]. by rewrite Hv.
Qed.

Lemma parse_descriptors_ok gdt sb groups blocks ds :
  0 <= groups -> groups * 32 <= zlen gdt ->
  parse_descriptors gdt sb groups blocks = Ok ds <->
  zlen ds = groups /\ forall i d, ds !! i = Some d ->
    d = GroupDescriptor_read_from (sub_bytes gdt (Z.of_nat i * 32) 32) /\ descriptor_good sb blocks i d.
Proof.
  intros H0 Hl. unfold parse_descriptors. rewrite foldM_snoc. split.
  - intros (ys & -> & H). simpl. pose proof (list.Forall2_length _ _ _ H) as Hlen. rewrite length_seqZ in Hlen.
    split; [unfold zlen; lia|]. intros i d Hd. pose proof (lookup_lt_Some _ _ _ Hd).
    destruct (Forall2_lookup_r _ _ _ _ _ H Hd) as (g & Hg & Hp). apply lookup_seqZ in Hg as [-> _].
    apply parse_descriptor_ok in Hp as (_ & -> & Hc & Hv). rewrite Z.add_0_l in *. by split.
  - intros [Hlen H]. exists ds. split; [done|]. apply Forall2_same_length_lookup_2.
    { rewrite length_seqZ. unfold zlen in Hlen. lia. }
    intros i g d [-> Hi]%lookup_seqZ Hd. destruct (H i d Hd) as [-> [Hc Hv]]. apply parse_descriptor_ok.
    rewrite Z.add_0_l. split; [lia|]. by split.
Qed.

Lemma group_count_bounds blocks :
  0 < blocks <= u32_max ->
  (group_count blocks 0 BLOCKS_PER_GROUP - 1) * 32768 < blocks <= group_count blocks 0 BLOCKS_PER_GROUP * 32768 /\
  1 <= group_count blocks 0 BLOCKS_PER_GROUP <= 131072.
Proof.
  intros Hb. pose proof (group_count_spec blocks 0 BLOCKS_PER_GROUP) as H.
  unfold BLOCKS_PER_GROUP in *. unfold is_u64, u32_max in *. specialize (H ltac:(lia) ltac:(lia) ltac:(lia) ltac:(lia) ltac:(lia)).
  lia.
Qed.

Lemma descriptor_blocks_bounds groups :
  0 < groups -> descriptor_blocks groups 4096 32 * 128 - 128 < groups <= descriptor_blocks groups 4096 32 * 128.
Proof. intros Hg. unfold descriptor_blocks. change (4096 / 32) with 128. pose proof (div_ceil_spec groups 128). lia. Qed.

Lemma superblock_wf f off : byte_file f -> SuperBlock_wf (SuperBlock_read_from (bytes_at f off 1024)).
Proof.
  intros Hf. assert (rec_size SuperBlock <= zlen (bytes_at f off 1024)) as Hl by by rewrite zlen_bytes_at.
  exact (read_from_wf (A := SuperBlock) _ (byte_file_at f off 1024 Hf) Hl).
Qed.

Lemma inode_wf f off : byte_file f -> Inode_wf (Inode_read_from (bytes_at f off 256)).
Proof.
  intros Hf. assert (rec_size Inode <= zlen (bytes_at f off 256)) as Hl by by rewrite zlen_bytes_at.
  exact (read_from_wf (A := Inode) _ (byte_file_at f off 256 Hf) Hl).
Qed.

Lemma sb_wf_ranges sb : SuperBlock_wf sb ->
  is_u32 (sb_blocks_count_lo sb) /\ is_u32 (sb_inodes_per_group sb) /\ is_u16 (sb_reserved_gdt_blocks sb) /\
  is_u32 (sb_free_blocks_count_lo sb) /\ is_u32 (sb_free_inodes_count sb) /\ is_bytes 16 (sb_uuid sb) /\
  is_u32 (sb_inodes_count sb).
Proof. unfold SuperBlock_wf. intros H. destruct_and! H. by split_and!. Qed.

Lemma np_validate_backup_pointers pointers expected groups :
  zlen pointers = 4096 -> zlen groups <= 1024 -> validate_backup_pointers pointers expected groups <> Panic.
Proof.
  intros Hp Hg. unfold validate_backup_pointers. apply (np_foldM (fun _ => True)); [done|]. intros [] [i g] _ Hin.
  split; [|done]. apply imap_pair_elem in Hin. apply lookup_lt_Some in Hin. unfold zlen in Hg.
  apply np_bind; [apply np_ok_or|]. intros eb _. apply np_bind; [apply np_get_le32; simpl; lia|]. intros. apply np_refuse.
Qed.

Lemma np_validate_resize_inode f sb db span groups inode :
  0 <= db -> span <= 1024 -> groups <= 131072 -> validate_resize_inode f sb db span groups inode <> Panic.
Proof.
  intros Hdb Hspan Hg. unfold validate_resize_inode. np_step. np_step. apply np_bind; [apply np_read|].
  intros dind Hd%zlen_read_block. apply np_bind; [|done]. apply (np_foldM (fun _ => True)); [done|].
  intros [] i _ Hi%elem_of_seqZ. split; [|done]. apply np_bind; [apply np_get_le32; lia|]. intros found _. np_step.
  apply np_bind; [apply np_read|]. intros ps Hps%zlen_read_block.
  apply np_validate_backup_pointers; [done|by apply backup_groups_short].
Qed.

Lemma np_inode_offset ds sb n : sb_inodes_per_group sb <> 0 -> inode_offset ds sb n <> Panic.
Proof.
  intros H. unfold inode_offset. destruct (Z.eqb_spec (sb_inodes_per_group sb) 0); [done|]. by np_step.
Qed.

Lemma np_validate_journal_block block jb uuid : zlen block = 4096 -> validate_journal_block block jb uuid <> Panic.
Proof.
  intros Hb. unfold validate_journal_block.
  repeat (apply np_bind; [first [apply np_get_be32; lia|apply np_refuse]|intros ? _]). apply np_refuse.
Qed.

Lemma np_validate_clean_journal f ds sb : sb_inodes_per_group sb <> 0 -> validate_clean_journal f ds sb <> Panic.
Proof.
  intros Hn. unfold validate_clean_journal. apply np_bind; [by apply np_inode_offset|]. intros off _.
  apply np_bind; [by apply np_bind; [apply np_read|]|]. intros ino _. np_step. apply np_bind.
  { pose proof (np_parse_extents ino BLOCK_SIZE f ltac:(by compute)). by destruct (parse_extents _ _ _). }
  intros rs _. np_step. np_step. apply np_bind; [apply np_read|]. intros b Hb%zlen_read_block.
  by apply np_validate_journal_block.
Qed.

Lemma np_parse_image f : byte_file f -> parse_image f <> Panic.
Proof.
  intros Hf. unfold parse_image. np_step. match goal with H : file_read_at _ _ _ = Ok _ |- _ => apply file_read_ok in H as [_ ->] end.
  cbv zeta. set (sb := SuperBlock_read_from _).
  destruct (sb_wf_ranges sb (superblock_wf f SUPERBLOCK_OFFSET Hf)) as (Hb & Hi & Hr & _ & _ & Hu & _). unfold_ranges.
  apply np_bind; [unfold check_superblock; repeat np_step; np|]. intros [] Hgood%check_superblock_good.
  pose proof (good_blocks _ Hgood).
  destruct (group_count_bounds (sb_blocks_count_lo sb)) as [Hgc1 Hgc2]; [unfold u32_max; lia|].
  set (groups := group_count _ _ _) in *. np_step. np_step. apply np_bind.
  { case_match; [done|]. np_step. np. }
  intros [] _. pose proof (descriptor_blocks_bounds groups ltac:(lia)) as Hdb.
  set (db := descriptor_blocks groups BLOCK_SIZE DESCRIPTOR_SIZE).
  change (descriptor_blocks groups 4096 32) with db in Hdb.
  apply np_bind; [np|]. intros span Hsp. apply np_bind; [np|]. intros [] Hs%refuse_ok%Z.ltb_ge.
  change (BLOCK_SIZE / 4) with 1024 in Hs. np_step.
  match goal with H : file_read_at _ _ _ = Ok _ |- _ => apply file_read_ok in H as [_ ->] end. apply np_bind.
  { unfold parse_descriptors. apply (np_foldM (fun _ => True)); [done|]. intros ds g _ Hg%elem_of_seqZ. split; [|done].
    apply np_bind; [|done]. unfold parse_descriptor. rewrite zlen_bytes_at by (unfold BLOCK_SIZE; lia).
    replace (db * BLOCK_SIZE <? g * 32 + 32) with false by (unfold BLOCK_SIZE; lia). np_step. apply np_bind; [np|done]. }
  intros ds _. apply np_bind; [np|]. intros itb [-> _]%ok_or_ok%checked_mul_some. apply np_bind; [np|].
  intros [] Hz%refuse_ok%Z.eqb_neq. assert (sb_inodes_per_group sb <> 0) as Hne.
  { intros Hipg. by rewrite Hipg in Hz. }
  apply np_bind; [by apply np_inode_offset|]. intros off _. apply np_bind; [by apply np_bind; [apply np_read|]|].
  intros ino _. apply np_bind; [apply np_validate_resize_inode; lia|]. intros d _.
  apply np_bind; [by apply np_validate_clean_journal|done].
Qed.
