(* ===== verification/ResizerSample.v ===== *)
(** A small image the resizer accepts: one group of 32668 blocks with 32000
    inodes, three reserved descriptor blocks and a clean journal of 1024
    blocks. *)

From stdpp Require Import strings.
From S2P Require Import Prelude Bytes Types Checksum Layout Errors Disk Tables FileTree Extent Geometry Resizer ResizerFacts.

Open Scope list_scope.
Open Scope Z_scope.

Definition sample_uuid : list Z := seqZ 1 16.

Definition set_sb_geometry (s : SuperBlock) : SuperBlock :=
  sb_put 32000 32668 29000 31989 EXT4_VALID_FS 0 3 s.

(** The superblock, assembled as bytes: the fields the resizer does not assign
    are zero but for the ones it checks. *)
Definition sample_sb_bytes : list Z :=
  let buf := SuperBlock_write_to (set_sb_geometry SuperBlock_default) (zeros 1024) in
  let buf := put_u32 buf 0x18 2 in
  let buf := put_u32 buf 0x20 BLOCKS_PER_GROUP in
  let buf := put_u32 buf 0x24 BLOCKS_PER_GROUP in
  let buf := put_u32 buf 0x28 32000 in
  let buf := put_u16 buf 0x38 SUPERBLOCK_MAGIC in
  let buf := put_u16 buf 0x58 256 in
  let buf := put_u32 buf 0x5C EXPECTED_COMPAT in
  let buf := put_u32 buf 0x60 EXPECTED_INCOMPAT in
  let buf := put_u32 buf 0x64 EXPECTED_RO_COMPAT in
  let buf := put_bytes buf 0x68 sample_uuid in
  put_u32 buf 0xE0 JOURNAL_INODE_NUMBER.

Definition sample_descriptor : GroupDescriptor :=
  stamp sample_uuid 0
    {| gd_block_bitmap_lo := 6; gd_inode_bitmap_lo := 7; gd_inode_table_lo := 8;
       gd_free_blocks_count_lo := 29000; gd_free_inodes_count_lo := 31989; gd_used_dirs_count_lo := 2;
       gd_flags := 0; gd_exclude_bitmap_lo := 0; gd_block_bitmap_csum_lo := 0;
       gd_inode_bitmap_csum_lo := 0; gd_itable_unused_lo := 0; gd_checksum := 0 |}.

Definition sample_dind : list Z :=
  fold_left (fun buf i => put_u32 buf (i * 4) (1 + i)) [1; 2; 3] (zeros 4096).

Definition sample_resize_inode : Inode :=
  set_i_block (put_u32 (zeros 60) 52 5) (set_i_links_count 1 (set_i_mode S_IFREG Inode_default)).

(** The journal occupies blocks 3000 to 4023, one inline extent. *)
Definition sample_journal_inode : Inode :=
  let inode := set_file_size (1024 * 4096) (set_i_links_count 1 (set_i_mode S_IFREG Inode_default)) in
  match write_inline_extents (E := unit) inode 1024
          (fill_extent_leaves_from_ranges [ {| br_start := 3000; br_end := 4024 |} ]) 4096 with
  | Ok inode => inode
  | _ => inode
  end.

(** The block with inodes 1 to 16. *)
Definition sample_inodes : list Z :=
  let buf := put_bytes (zeros 4096) (6 * 256) (Inode_write_to sample_resize_inode (zeros 256)) in
  put_bytes buf (7 * 256) (Inode_write_to sample_journal_inode (zeros 256)).

(** All of the bitmap's blocks in use. *)
Definition sample_bitmap : list Z := replicate 4096 255.

Definition sample_blocks : list (Z * list Z) :=
  [(0, put_bytes (zeros 4096) 1024 sample_sb_bytes);
   (1, put_bytes (zeros 4096) 0 (GroupDescriptor_write_to sample_descriptor (zeros 32)));
   (5, sample_dind); (6, sample_bitmap); (8, sample_inodes);
   (3000, journal_superblock 4096 1024 sample_uuid)].

Definition sample_disk : File := block_image (32668 * 4096) sample_blocks.

Lemma sample_disk_bytes : byte_file sample_disk.
Proof. apply block_image_bytes. vm_compute. reflexivity. Qed.

(** Growing it by 100 blocks and a whole group. *)
Definition sample_target : Z := 2 * BLOCKS_PER_GROUP * BLOCK_SIZE.

(** The facts the examples use. *)
Definition sample_facts (img : ParsedImage) (plan : GrowPlan) : Prop :=
  pi_blocks img = 32668 /\ pi_groups img = 1 /\ pi_descriptor_span img = 4 /\ pi_resize_dind_block img = 5 /\
  pi_resize_inode_offset img = 8 * 4096 + 6 * 256 /\ sb_inodes_per_group (pi_superblock img) = 32000 /\
  map (fun d => (gd_block_bitmap_lo d, gd_inode_table_lo d)) (pi_descriptors img) = [(6, 8)] /\
  gp_outcome plan = {| old_blocks := 32668; new_blocks := 65536; old_groups := 1; new_groups := 2 |}.

#[global] Instance GrowOutcome_eq_dec : EqDecision GrowOutcome.
Proof. solve_decision. Defined.

#[global] Instance sample_facts_dec img plan : Decision (sample_facts img plan).
Proof. unfold sample_facts. apply _. Defined.

Lemma sample_grows :
  exists img plan, parse_image sample_disk = Ok img /\ plan_grow sample_disk img sample_target = Ok plan /\
    sample_facts img plan.
Proof.
  assert (match parse_image sample_disk with
          | Ok img => match plan_grow sample_disk img sample_target with
                      | Ok plan => bool_decide (sample_facts img plan)
                      | _ => false end
          | _ => false end = true) as H by (vm_compute; reflexivity).
  destruct (parse_image sample_disk) as [img| |]; [|done..]. destruct (plan_grow _ _ _) as [plan| |] eqn:Hplan; [|done..].
  apply bool_decide_eq_true in H. by exists img, plan.
Qed.
