(* ===== verification/ResizerPlan.v ===== *)
(** What [plan_grow] computes: the size of the grown file system, the groups it
    adds, the bitmaps, the block accounting and the resize inode. *)

From stdpp Require Import strings.
From S2P Require Import Prelude Bytes Types Checksum Layout Errors Disk Tables Extent Geometry Resizer ResizerFacts ResizerSample.

Open Scope string_scope.
Open Scope list_scope.
Open Scope Z_scope.

(** ** Bitmaps *)

Section Bitmaps.
Context {E : Type}.
Implicit Types bm : list Z.

Lemma set_bit_spec bm o bm' :
  0 <= o -> set_bit (E := E) bm o = Ok bm' ->
  zlen bm' = zlen bm /\ forall o', 0 <= o' -> bit_at bm' o' = bit_at bm o' || (o' =? o).
Proof.
  intros Ho. unfold set_bit. destruct (Z.leb_spec (zlen bm) (o / 8)) as [|Hl]; [done|]. intros [= <-].
  split; [apply zlen_put|]. intros o' Ho'. unfold bit_at.
  pose proof (Z.mod_pos_bound o 8 ltac:(lia)). pose proof (Z.mod_pos_bound o' 8 ltac:(lia)).
  pose proof (Z.div_mod o 8 ltac:(lia)). pose proof (Z.div_mod o' 8 ltac:(lia)).
  rewrite get_put_u8 by (split || idtac; try apply Z.div_pos; lia).
  destruct (Z.eqb_spec (o' / 8) (o / 8)) as [Eq|].
  - rewrite Z.lor_spec, Z.shiftl_1_l, Z.pow2_bits_eqb, Eq by lia. f_equal. lia.
  - replace (o' =? o) with false; [by rewrite orb_false_r|]. symmetry. apply Z.eqb_neq. congruence.
Qed.

Lemma set_bits_spec bm a n :
  0 <= a -> (a + n + 7) / 8 <= zlen bm ->
  exists bm', foldM set_bit bm (seqZ a n) = Ok (E := E) bm' /\ zlen bm' = zlen bm /\
    forall o, 0 <= o -> bit_at bm' o = bit_at bm o || ((a <=? o) && (o <? a + n)).
Proof.
  intros Ha Hl. destruct (decide (n <= 0)) as [Hn|Hn].
  { rewrite seqZ_nil by lia. exists bm. repeat split. intros o Ho.
    replace ((a <=? o) && (o <? a + n)) with false by lia. by rewrite orb_false_r. }
  rewrite <- (Z2Nat.id n) in * by lia. clear Hn. revert a bm Ha Hl. induction (Z.to_nat n) as [|k IH]; intros a bm Ha Hl.
  { exists bm. repeat split. intros o Ho. rewrite Z.add_0_r. replace ((a <=? o) && (o <? a)) with false by (clear; lia). by rewrite orb_false_r. }
  rewrite seqZ_cons by lia. cbn [foldM].
  assert (a / 8 < zlen bm) as Hin.
  { eapply Z.lt_le_trans; [|exact Hl]. apply Z.lt_le_trans with ((a + 8) / 8); [|apply Z.div_le_mono; lia].
    replace (a + 8) with (a + 1 * 8) by lia. rewrite Z.div_add by lia. lia. }
  destruct (set_bit (E := E) bm a) as [bm1| |] eqn:Hs;
    [|by unfold set_bit in Hs; replace (zlen bm <=? a / 8) with false in Hs by lia..].
  apply set_bit_spec in Hs as [Hz Hb]; [|done]. cbn [mbind res_bind].
  replace (Z.pred (Z.of_nat (S k))) with (Z.of_nat k) by lia.
  destruct (IH (Z.succ a) bm1) as (bm' & -> & Hz' & Hb'); [lia|rewrite Hz; etransitivity; [|exact Hl]; apply Z.div_le_mono; lia|].
  exists bm'. split; [done|]. split; [lia|]. intros o Ho. rewrite Hb', Hb by done.
  rewrite <- orb_assoc. f_equal. rewrite Nat2Z.inj_succ. clear - Ho. zbool.
Qed.

Lemma clear_bits_spec bm a n gs :
  0 <= gs <= a -> a + n - gs <= u32_max -> (a + n - gs + 7) / 8 <= zlen bm ->
  exists bm', foldM (fun bm b => clear_bit bm (u32 (b - gs))) bm (seqZ a n) = Ok (E := E) bm' /\ zlen bm' = zlen bm /\
    forall o, 0 <= o -> bit_at bm' o = bit_at bm o && negb ((a - gs <=? o) && (o <? a + n - gs)).
Proof.
  intros Ha Hu Hl. destruct (decide (n <= 0)) as [Hn|Hn].
  { rewrite seqZ_nil by lia. exists bm. repeat split. intros o Ho.
    replace ((a - gs <=? o) && (o <? a + n - gs)) with false by lia. by rewrite andb_true_r. }
  rewrite <- (Z2Nat.id n) in * by lia. clear Hn. revert a bm Ha Hu Hl. induction (Z.to_nat n) as [|k IH]; intros a bm Ha Hu Hl.
  { exists bm. repeat split. intros o Ho.
    rewrite Z.add_0_r. replace ((a - gs <=? o) && (o <? a - gs)) with false by (clear; lia). by rewrite andb_true_r. }
  rewrite seqZ_cons by lia. cbn [foldM]. rewrite (u32_small (a - gs)) by (unfold_ranges; lia).
  assert ((a - gs) / 8 < zlen bm) as Hin.
  { eapply Z.lt_le_trans; [|exact Hl]. apply Z.lt_le_trans with ((a - gs + 8) / 8); [|apply Z.div_le_mono; lia].
    replace (a - gs + 8) with (a - gs + 1 * 8) by lia. rewrite Z.div_add by lia. lia. }
  assert (clear_bit (E := E) bm (a - gs) = Ok (Geometry.clear_bit bm (a - gs))) as ->
    by (unfold clear_bit; by replace (zlen bm <=? (a - gs) / 8) with false by lia).
  cbn [mbind res_bind].
  replace (Z.pred (Z.of_nat (S k))) with (Z.of_nat k) by lia.
  destruct (IH (Z.succ a) (Geometry.clear_bit bm (a - gs))) as (bm' & -> & Hz' & Hb'); [lia..|rewrite zlen_clear_bit; etransitivity; [|exact Hl]; apply Z.div_le_mono; lia|].
  exists bm'. split; [done|]. split; [by rewrite Hz', zlen_clear_bit|]. intros o Ho.
  rewrite Hb', clear_bit_spec by lia. rewrite <- andb_assoc, <- negb_orb. do 2 f_equal. rewrite Nat2Z.inj_succ. clear - Ho. zbool.
Qed.

(** Counting bits given by intervals. *)
Lemma count_set_split bm lo a b : 0 <= a -> 0 <= b -> count_set bm lo (a + b) = count_set bm lo a + count_set bm (lo + a) b.
Proof. intros. unfold count_set. by rewrite seqZ_split, filter_app, zlen_app by lia. Qed.

Lemma count_set_all bm lo n v :
  0 <= n -> (forall o, lo <= o < lo + n -> bit_at bm o = v) -> count_set bm lo n = if v then n else 0.
Proof.
  intros Hn Hv. unfold count_set. assert (List.filter (bit_at bm) (seqZ lo n) = if v then seqZ lo n else []) as ->.
  { assert (Forall (fun o => bit_at bm o = v) (seqZ lo n)) as H
      by (apply list.Forall_forall; intros o Ho%elem_of_seqZ; apply Hv; lia).
    induction H as [|o l Ho _ IH]; simpl; [by destruct v|]. rewrite Ho. destruct v; [by rewrite IH|done]. }
  destruct v; [|done]. unfold zlen. rewrite length_seqZ. lia.
Qed.

Lemma bit_at_zeros n o : 0 <= o -> bit_at (zeros n) o = false.
Proof.
  intros Ho. unfold bit_at, get_u8. replace (nth (Z.to_nat (o / 8)) (zeros n) 0) with 0; [apply Z.bits_0|].
  unfold zeros. rewrite nth_lookup. destruct (replicate _ 0 !! _) eqn:H; [apply lookup_replicate in H as [-> _]|]; done.
Qed.
End Bitmaps.

(** ** The geometry of a parsed image *)

Record image_bounds (img : ParsedImage) : Prop := mk_image_bounds {
  ib_blocks : 1 <= pi_blocks img <= u32_max;
  ib_groups : 1 <= pi_groups img <= 131072;
  ib_last : (pi_groups img - 1) * 32768 < pi_blocks img <= pi_groups img * 32768;
  ib_span : 1 <= pi_descriptor_span img <= 1024;
  ib_table : 1 <= pi_inode_table_blocks img <= 1048576;
  ib_per_group : 0 < sb_inodes_per_group (pi_superblock img) <= u32_max;
  ib_descriptors : zlen (pi_descriptors img) = pi_groups img
}.

Section Image.
Context (f : File) (img : ParsedImage) (Hf : byte_file f) (Hp : parsed f img).

Lemma parsed_sb_wf : SuperBlock_wf (pi_superblock img).
Proof. rewrite (pd_superblock _ _ Hp). by apply superblock_wf. Qed.

Lemma parsed_descriptors :
  zlen (pi_descriptors img) = pi_groups img /\ forall i d, pi_descriptors img !! i = Some d ->
    d = GroupDescriptor_read_from (bytes_at f (4096 + Z.of_nat i * 32) 32) /\
    descriptor_good (pi_superblock img) (pi_blocks img) i d.
Proof.
  destruct (sb_wf_ranges _ parsed_sb_wf) as (Hb & _). pose proof (good_blocks _ (pd_good _ _ Hp)) as Hnz.
  destruct (pd_groups _ _ Hp) as [Hg _]. rewrite (pd_blocks _ _ Hp) in Hg.
  destruct (group_count_bounds (sb_blocks_count_lo (pi_superblock img))) as [_ Hgc]; [unfold_ranges; lia|].
  rewrite <- Hg in Hgc. pose proof (descriptor_blocks_bounds (pi_groups img) ltac:(lia)) as Hdb.
  pose proof (pd_descriptors _ _ Hp) as H. apply parse_descriptors_ok in H as [Hl H]; [| |rewrite zlen_bytes_at]; [|lia..].
  split; [done|]. intros i d Hd. destruct (H i d Hd) as [-> Hgood]. split; [|done].
  apply lookup_lt_Some in Hd. unfold zlen in Hl. rewrite sub_bytes_at by lia. done.
Qed.

Lemma parsed_bounds : image_bounds img.
Proof.
  destruct (sb_wf_ranges _ parsed_sb_wf) as (Hb & Hi & Hr & _). unfold_ranges.
  pose proof (good_blocks _ (pd_good _ _ Hp)) as Hnz. pose proof (good_reserved _ (pd_good _ _ Hp)) as Hrz.
  destruct (pd_groups _ _ Hp) as [Hg _]. pose proof (pd_blocks _ _ Hp) as Hpb.
  destruct (group_count_bounds (pi_blocks img)) as [Hg1 Hg2]; [unfold u32_max; lia|]. rewrite <- Hg in *.
  pose proof (descriptor_blocks_bounds (pi_groups img) ltac:(lia)) as Hdb. destruct (pd_span _ _ Hp) as [Hs1 Hs2].
  destruct (pd_table _ _ Hp) as (Ht & Hnt & Hlt). unfold u32_max in *.
  pose proof (Z.div_mod (sb_inodes_per_group (pi_superblock img) * 256) 4096 ltac:(lia)).
  pose proof (Z.mod_pos_bound (sb_inodes_per_group (pi_superblock img) * 256) 4096 ltac:(lia)).
  rewrite <- Ht in *. constructor; unfold u32_max; try lia. apply parsed_descriptors.
Qed.

Lemma parsed_descriptor_wf i d : pi_descriptors img !! i = Some d -> GroupDescriptor_wf d.
Proof.
  intros Hd. destruct (proj2 parsed_descriptors i d Hd) as [-> _].
  assert (rec_size GroupDescriptor <= zlen (bytes_at f (4096 + Z.of_nat i * 32) 32)) as Hl by by rewrite zlen_bytes_at.
  exact (read_from_wf (A := GroupDescriptor) _ (byte_file_at f _ 32 Hf) Hl).
Qed.
End Image.

(** ** The new size *)

Section Planning.
Context (img : ParsedImage) (Hib : image_bounds img).

(** The space the metadata of a new group takes. *)
Definition group_used (g : Z) : Z := system_blocks g (pi_descriptor_span img) + pi_inode_table_blocks img + 2.

Lemma system_blocks_bounds g : 0 <= system_blocks g (pi_descriptor_span img) <= 1025.
Proof.
  destruct Hib as [_ _ _ Hs _ _ _]. unfold system_blocks. case_match; [|lia].
  rewrite u32_small by (unfold is_u32; lia). lia.
Qed.

Lemma usable_size_spec req nb ng :
  pi_blocks img <= req <= u32_max -> usable_size img req = (nb, ng) ->
  pi_blocks img <= nb <= req /\ pi_groups img <= ng <= 131072 /\ (ng - 1) * 32768 < nb <= ng * 32768 /\
  (nb = req \/ nb = ng * 32768 /\ 0 < req - nb <= group_used ng + 1) /\
  (forall g, pi_groups img <= g < ng -> nb - g * 32768 < 32768 -> group_used g + 1 < nb - g * 32768).
Proof.
  destruct Hib as [Hb Hg Hl Hs Ht _ _]. intros Hreq Hu. unfold usable_size in Hu.
  destruct (group_count_bounds req) as [Hc1 Hc2]; [lia|]. set (gc := group_count req 0 BLOCKS_PER_GROUP) in *.
  pose proof (system_blocks_bounds (gc - 1)) as Hsys. unfold group_used. unfold BLOCKS_PER_GROUP in *.
  assert (pi_groups img <= gc) by lia. change (4096 * 8) with 32768 in *.
  rewrite (u32_small (system_blocks (gc - 1) (pi_descriptor_span img) + 2 + pi_inode_table_blocks img + 1)) in Hu
    by (unfold is_u32; lia).
  clearbody gc. destruct (Z.ltb_spec (pi_groups img) gc);
    [destruct (Z.eqb_spec (req - (gc - 1) * 32768) 32768); cbn [negb] in Hu; [|destruct (Z.leb_spec (req - (gc - 1) * 32768)
       (system_blocks (gc - 1) (pi_descriptor_span img) + 2 + pi_inode_table_blocks img + 1))]|];
    injection Hu as <- <-; (split_and!; [lia..| |]).
  - left. lia.
  - intros g Hgg Hpart. lia.
  - right. lia.
  - intros g Hgg Hpart. lia.
  - left. lia.
  - intros g Hgg Hpart. assert (g = gc - 1) as -> by lia. lia.
  - left. lia.
  - intros g Hgg Hpart. lia.
Qed.

(** ** New groups *)

Context (nb ng : Z).

Definition group_blocks (g : Z) : Z := Z.min (nb - g * 32768) 32768.
Definition group_table (g : Z) : Z := g * 32768 + system_blocks g (pi_descriptor_span img).
Definition group_free (g : Z) : Z := group_blocks g - group_used g.

(** Inode table, block bitmap and inode bitmap follow the copies in this order. *)
Definition new_descriptor (g : Z) : GroupDescriptor :=
  {| gd_block_bitmap_lo := group_table g + pi_inode_table_blocks img;
     gd_inode_bitmap_lo := group_table g + pi_inode_table_blocks img + 1;
     gd_inode_table_lo := group_table g; gd_free_blocks_count_lo := group_free g;
     gd_free_inodes_count_lo := u16 (sb_inodes_per_group (pi_superblock img));
     gd_used_dirs_count_lo := 0;
     gd_flags := if g =? ng - 1 then bg_INODE_UNINIT else Z.lor bg_INODE_UNINIT bg_BLOCK_UNINIT;
     gd_exclude_bitmap_lo := 0; gd_block_bitmap_csum_lo := 0; gd_inode_bitmap_csum_lo := 0;
     gd_itable_unused_lo := u16 (sb_inodes_per_group (pi_superblock img)); gd_checksum := 0 |}.

Record group_bitmaps (g : Z) (bm : list Z * list Z) : Prop := mk_group_bitmaps {
  gb_fits : group_used g < group_blocks g;
  gb_block_len : zlen bm.1 = 4096;
  gb_blocks : forall o, 0 <= o < 32768 -> bit_at bm.1 o = (o <? group_used g) || (group_blocks g <=? o);
  gb_inode_len : zlen bm.2 = 4096;
  gb_inodes : forall o, 0 <= o < 32768 ->
    bit_at bm.2 o = (sb_inodes_per_group (pi_superblock img) <=? o)
}.

Definition group_writes (g : Z) (bm : list Z * list Z) : list BitmapWrite :=
  [ {| bw_block := group_table g + pi_inode_table_blocks img; bw_bytes := bm.1 |};
    {| bw_block := group_table g + pi_inode_table_blocks img + 1; bw_bytes := bm.2 |} ].

Definition add_groups (gs : list Z) (gr gr' : Growth) : Prop :=
  exists bms, Forall2 group_bitmaps gs bms /\
    gr' = {| gr_writes := gr_writes gr ++ concat (zip_with group_writes gs bms);
             gr_descriptors := gr_descriptors gr ++ map new_descriptor gs;
             gr_added := gr_added gr + zsum (map group_free gs) |}.

Context (Hnb : nb <= u32_max) (Hng : (ng - 1) * 32768 < nb).

Lemma group_bounds g : pi_groups img <= g < ng -> 1 <= group_blocks g <= 32768 /\ 0 <= g * 32768 /\
  3 <= group_used g <= 1049603 /\ g * 32768 + group_blocks g <= nb.
Proof.
  destruct Hib as [_ Hg _ _ Ht _ _]. intros Hgg. unfold group_blocks, group_used.
  pose proof (system_blocks_bounds g). lia.
Qed.

Lemma add_group_run gr g :
  pi_groups img <= g < ng ->
  (exists e, add_group img nb ng gr g = Err e) \/
  (exists gr', add_group img nb ng gr g = Ok gr' /\ add_groups [g] gr gr').
Proof.
  intros Hgg. destruct (group_bounds g Hgg) as (Hgb & Hg0 & Hgu & Hin). pose proof (system_blocks_bounds g) as Hsys.
  destruct Hib as [_ _ _ _ Ht Hi _]. unfold add_group. cbv zeta. change (Z.min _ BLOCKS_PER_GROUP) with (group_blocks g).
  change (g * BLOCKS_PER_GROUP) with (g * 32768). unfold u32_max in *.
  replace (system_blocks g (pi_descriptor_span img) + pi_inode_table_blocks img + 2) with (group_used g) by done.
  rewrite (u32_small (group_blocks g)), (u32_small (group_used g)) by (unfold is_u32; lia).
  unfold refuse. destruct (Z.leb_spec (group_blocks g) (group_used g)) as [|Hfit]; [left; by eexists|].
  cbn [mbind res_bind]. unfold group_used in Hfit.
  rewrite (u32_small (g * 32768)) by (unfold is_u32; lia). fold (group_table g).
  assert (group_table g + pi_inode_table_blocks img + 2 <= nb) as Htab by (unfold group_table; lia).
  assert (0 <= group_table g) by (unfold group_table; lia).
  rewrite (u32_small (group_table g)), (u32_small (group_table g + _)), (u32_small (group_table g + _ + 1)) by (unfold is_u32; lia).
  change BLOCKS_PER_GROUP with 32768.
  destruct (set_bits_spec (E := ResizeError) (zeros BLOCK_SIZE) 0 (group_used g)) as (b1 & E1 & Hz1 & Hb1);
    [lia|rewrite zlen_zeros by done; apply Z.lt_succ_r, Z.div_lt_upper_bound; unfold BLOCK_SIZE, group_used; lia|].
  rewrite E1. cbn [mbind res_bind]. rewrite zlen_zeros in Hz1 by done.
  destruct (set_bits_spec (E := ResizeError) b1 (group_blocks g) (32768 - group_blocks g)) as (b2 & E2 & Hz2 & Hb2);
    [lia|rewrite Hz1; apply Z.lt_succ_r, Z.div_lt_upper_bound; unfold BLOCK_SIZE; lia|].
  rewrite E2. cbn [mbind res_bind].
  destruct (set_bits_spec (E := ResizeError) (zeros BLOCK_SIZE) (sb_inodes_per_group (pi_superblock img))
    (32768 - sb_inodes_per_group (pi_superblock img))) as (b3 & E3 & Hz3 & Hb3);
    [lia|rewrite zlen_zeros by done; apply Z.lt_succ_r, Z.div_lt_upper_bound; unfold BLOCK_SIZE; lia|].
  rewrite E3. cbn [mbind res_bind]. rewrite zlen_zeros in Hz3 by done.
  right. eexists. split; [done|]. exists [(b2, b3)]. split.
  - constructor; [|done]. constructor; [exact Hfit|cbn [fst]; by rewrite Hz2, Hz1| |done|]; intros o Ho; cbn [fst snd].
    + rewrite Hb2, Hb1, bit_at_zeros by lia. clear - Ho. zbool.
    + rewrite Hb3, bit_at_zeros by lia. clear - Ho. zbool.
  - cbn [zip_with concat map zsum fold_right app]. rewrite Z.add_0_r. unfold group_writes, new_descriptor, group_free.
    rewrite (u16_small (group_blocks g - group_used g)) by (unfold is_u16; unfold group_used in *; lia).
    by destruct (g =? ng - 1).
Qed.

Lemma add_groups_cons g gs gr gr1 gr2 :
  add_groups [g] gr gr1 -> add_groups gs gr1 gr2 -> add_groups (g :: gs) gr gr2.
Proof.
  intros (bms1 & H1 & ->) (bms2 & H2 & ->). inversion H1 as [|? bm ? ? Hg Hnil]; subst. inversion Hnil; subst.
  exists (bm :: bms2). split; [by constructor|]. cbn [gr_writes gr_descriptors gr_added zip_with concat map zsum fold_right app].
  rewrite <- !app_assoc. cbn [app]. unfold zsum. f_equal. lia.
Qed.

Lemma add_group_loop gs : forall gr,
  Forall (fun g => pi_groups img <= g < ng) gs ->
  (exists e, foldM (add_group img nb ng) gr gs = Err e) \/
  (exists gr', foldM (add_group img nb ng) gr gs = Ok gr' /\ add_groups gs gr gr').
Proof.
  induction gs as [|g gs IH]; intros gr Hgs; cbn [foldM].
  - right. exists gr. split; [done|]. exists []. split; [done|]. destruct gr. cbn. by rewrite !app_nil_r, Z.add_0_r.
  - apply Forall_cons_1 in Hgs as [Hg Hgs]. destruct (add_group_run gr g Hg) as [[e ->]|(gr1 & -> & H1)]; [left; by eexists|].
    cbn [mbind res_bind]. destruct (IH gr1 Hgs) as [|(gr2 & Hr & H2)]; [by left|]. right. exists gr2.
    split; [done|]. by eapply add_groups_cons.
Qed.

(** ** The old last group *)

Definition expanded_end : Z := Z.min nb (pi_groups img * 32768).
Definition last_start : Z := (pi_groups img - 1) * 32768.

Inductive expansion (f : File) : Growth -> Prop :=
| expansion_none :
    expanded_end = pi_blocks img ->
    expansion f {| gr_writes := []; gr_descriptors := pi_descriptors img; gr_added := 0 |}
| expansion_some d bm' :
    pi_blocks img < expanded_end ->
    pi_descriptors img !! Z.to_nat (pi_groups img - 1) = Some d ->
    gd_free_blocks_count_lo d + (expanded_end - pi_blocks img) <= u16_max ->
    zlen bm' = 4096 ->
    (forall o, 0 <= o ->
       bit_at bm' o = bit_at (bytes_at f (gd_block_bitmap_lo d * 4096) 4096) o &&
         negb ((pi_blocks img - last_start <=? o) && (o <? expanded_end - last_start))) ->
    expansion f {| gr_writes := [ {| bw_block := gd_block_bitmap_lo d; bw_bytes := bm' |} ];
                   gr_descriptors :=
                     <[Z.to_nat (pi_groups img - 1) :=
                       set_gd_free_blocks (gd_free_blocks_count_lo d + (expanded_end - pi_blocks img)) d]>
                     (pi_descriptors img);
                   gr_added := expanded_end - pi_blocks img |}.

Lemma expand_run f :
  pi_blocks img <= nb ->
  (exists e, expand_last_group f img nb = Err e) \/
  (exists gr, expand_last_group f img nb = Ok gr /\ expansion f gr).
Proof.
  destruct Hib as [Hb Hg Hl _ _ _ _]. intros Hge. unfold expand_last_group. cbv zeta. change BLOCKS_PER_GROUP with 32768.
  replace (pi_groups img - 1 + 1) with (pi_groups img) by lia. fold expanded_end. fold last_start.
  destruct (Z.ltb_spec (pi_blocks img) expanded_end) as [Hlt|Hle].
  2:{ right. eexists. split; [by case_match|]. constructor. unfold expanded_end in *. lia. }
  assert ((pi_blocks img mod 32768 =? 0) = false) as ->.
  { apply Z.eqb_neq. intros H0. apply Z.mod_divide in H0 as [k Hk]; [|done]. unfold expanded_end in Hlt. nia. }
  cbn [negb]. destruct (pi_descriptors img !! _) as [d|] eqn:Hd; [|left; by eexists]. cbn [ok_or mbind res_bind].
  unfold refuse. case_match; [left; by eexists|]. cbn [mbind res_bind].
  destruct (read_block f (gd_block_bitmap_lo d)) as [bm|e|] eqn:Hr; [|left; by eexists|by apply np_read in Hr].
  apply read_block_ok in Hr as [_ ->]. cbn [mbind res_bind].
  destruct (clear_bits_spec (E := ResizeError) (bytes_at f (gd_block_bitmap_lo d * 4096) 4096) (pi_blocks img)
    (expanded_end - pi_blocks img) last_start) as (bm' & -> & Hz & Hbits).
  { unfold last_start. lia. }
  { unfold expanded_end, last_start. lia. }
  { rewrite zlen_bytes_at by done. apply Z.lt_succ_r, Z.div_lt_upper_bound; unfold expanded_end, last_start; lia. }
  cbn [mbind res_bind]. rewrite u16_small by (unfold is_u16, expanded_end; lia).
  destruct (checked_add u16_max _ _) as [fr|] eqn:Hc; [|left; by eexists]. apply checked_add_some in Hc as [-> Hc].
  right. eexists. split; [done|]. rewrite zlen_bytes_at in Hz by done.
  replace (pi_blocks img + (expanded_end - pi_blocks img)) with expanded_end in Hbits by lia.
  by apply expansion_some.
Qed.
End Planning.

(** ** The resize inode *)

Lemma put_le32_spec {E} buf o v :
  0 <= o -> o + 4 <= zlen buf -> is_u32 v ->
  exists buf', put_le32 (E := E) buf o v = Ok buf' /\ zlen buf' = zlen buf /\ get_u32 buf' o = v /\
    forall o', 0 <= o' -> o' + 4 <= o \/ o + 4 <= o' -> get_u32 buf' o' = get_u32 buf o'.
Proof.
  intros Ho Hl Hv. unfold put_le32. replace (o + 4 <=? zlen buf) with true by lia. eexists. split; [done|].
  by apply put_u32_spec.
Qed.

Lemma backup_pointer_ok p g b : 0 <= g -> 0 <= p -> backup_pointer p g = Ok b ->
  g * 32768 <= u32_max -> b = p + g * 32768 /\ is_u32 b.
Proof.
  unfold backup_pointer. intros Hg Hp [-> Hl]%ok_or_ok%checked_add_some Hu.
  change BLOCKS_PER_GROUP with 32768 in *. rewrite Z.min_r in * by lia. split; [done|]. unfold is_u32, u32_max in *. lia.
Qed.

(** [pointers] holds the copies of GDT block [primary] in the backup groups. *)
Definition points (primary : Z) (gs pointers : list Z) : Prop :=
  forall j g, gs !! j = Some g -> get_u32 pointers (Z.of_nat j * 4) = primary + g * 32768.

Lemma reserved_pointers_run primary gs :
  0 <= primary -> zlen gs <= 1024 -> Forall (fun g => 0 <= g /\ g * 32768 <= u32_max) gs ->
  (exists e, reserved_pointers primary gs = Err e) \/
  (exists ps, reserved_pointers primary gs = Ok ps /\ zlen ps = 4096 /\ points primary gs ps).
Proof.
  intros Hp Hl Hgs. unfold reserved_pointers.
  assert (forall l done buf, gs = done ++ l -> zlen buf = 4096 ->
    points primary done buf ->
    let loop := foldM (fun pointers (entry : nat * Z) => backup ← backup_pointer primary entry.2;
        put_le32 pointers (Z.of_nat entry.1 * 4) backup) buf
        (imap (fun i g => ((length done + i)%nat, g)) l) in
    (exists e, loop = Err e) \/ (exists ps, loop = Ok ps /\ zlen ps = 4096 /\ points primary gs ps)) as H.
  { induction l as [|g l IH]; intros dn buf Hsplit Hz Hpt; cbv zeta; cbn [imap foldM].
    - right. exists buf. rewrite Hsplit, app_nil_r. done.
    - destruct (backup_pointer primary g) as [b|e|] eqn:Hb;
        [|left; cbn [snd mbind res_bind]; rewrite Hb; by eexists|by apply np_ok_or in Hb].
      rewrite Hsplit in Hgs. apply Forall_app in Hgs as [_ [[Hg0 Hg] _]%Forall_cons_1].
      apply backup_pointer_ok in Hb as Hb'; [|done..]. destruct Hb' as [-> Hu].
      rewrite Hsplit, zlen_app, zlen_cons in Hl. pose proof (zlen_nonneg l).
      destruct (put_le32_spec (E := ResizeError) buf (Z.of_nat (length dn) * 4) (primary + g * 32768))
        as (buf' & Hput & Hz' & Hget & Hfr); [lia|unfold zlen in *; lia|done|].
      cbn [fst snd]. rewrite Hb, Nat.add_0_r. cbn [mbind res_bind]. rewrite Hput. cbn [mbind res_bind].
      specialize (IH (dn ++ [g]) buf' ltac:(by rewrite Hsplit, <- app_assoc) ltac:(lia)). cbv zeta in IH.
      rewrite length_app in IH. cbn [length] in IH.
      rewrite (imap_ext _ (fun i g0 => ((length dn + 1 + i)%nat, g0))) by (intros i x _; unfold compose; f_equal; lia). apply IH.
      intros j g' Hj. destruct (decide (j = length dn)) as [->|Hne].
      + rewrite lookup_app_r, Nat.sub_diag in Hj by done. injection Hj as <-. done.
      + apply lookup_lt_Some in Hj as Hlt. rewrite length_app in Hlt. cbn [length] in Hlt.
        rewrite lookup_app_l in Hj by lia. rewrite Hfr by lia. by apply Hpt. }
  apply (H gs [] (zeros BLOCK_SIZE)); [done|by apply zlen_zeros|]. intros j g Hj. done.
Qed.

(** The pointer block of the reserved GDT block after index [i]. *)
Definition reserved_write (gs : list Z) (i : Z) (w : BitmapWrite) : Prop :=
  bw_block w = 1 + i /\ zlen (bw_bytes w) = 4096 /\ points (1 + i) gs (bw_bytes w).

Lemma resize_blocks_loop gs (n : nat) : forall a dind ws,
  0 <= a -> a + Z.of_nat n <= 1024 -> zlen dind = 4096 ->
  zlen gs <= 1024 -> Forall (fun g => 0 <= g /\ g * 32768 <= u32_max) gs ->
  let loop := foldM (fun (st : list Z * list BitmapWrite) index =>
    resize_dind ← put_le32 st.1 (index * 4) (1 + index);
    pointers ← reserved_pointers (1 + index) gs;
    Ok (resize_dind, st.2 ++ [ {| bw_block := 1 + index; bw_bytes := pointers |} ]))
    (dind, ws) (seqZ a (Z.of_nat n)) in
  (exists e, loop = Err e) \/
  (exists dind' ws', loop = Ok (dind', ws ++ ws') /\ zlen dind' = 4096 /\
     (forall i, a <= i < a + Z.of_nat n -> get_u32 dind' (i * 4) = 1 + i) /\
     (forall i, 0 <= i < a -> get_u32 dind' (i * 4) = get_u32 dind (i * 4)) /\
     Forall2 (reserved_write gs) (seqZ a (Z.of_nat n)) ws').
Proof.
  induction n as [|n IH]; intros a dind ws Ha Hn Hz Hl Hgs; cbv zeta.
  - right. exists dind, []. rewrite app_nil_r. split; [done|]. split; [done|]. split; [intros; lia|]. by split.
  - rewrite seqZ_cons by lia. replace (Z.pred (Z.of_nat (S n))) with (Z.of_nat n) by lia. cbn [foldM fst snd].
    destruct (put_le32_spec (E := ResizeError) dind (a * 4) (1 + a)) as (d1 & -> & Hz1 & Hg1 & Hf1);
      [lia|lia|unfold is_u32; lia|]. cbn [mbind res_bind].
    destruct (reserved_pointers_run (1 + a) gs) as [[e ->]|(ps & -> & Hzp & Hps)]; [lia|done..|left; by eexists|].
    cbn [mbind res_bind].
    destruct (IH (Z.succ a) d1 (ws ++ [ {| bw_block := 1 + a; bw_bytes := ps |} ])) as [He|(d2 & ws2 & Hr & Hz2 & Hin & Hout & Hws)];
      [lia|lia|lia|done|done|by left|]. right. exists d2, ({| bw_block := 1 + a; bw_bytes := ps |} :: ws2).
    split; [rewrite <- app_assoc in Hr; exact Hr|]. split; [done|]. split.
    { intros i Hi. destruct (decide (i = a)) as [->|]; [rewrite Hout by lia; done|]. apply Hin. lia. }
    split; [intros i Hi; rewrite Hout by lia; apply Hf1; lia|]. by constructor.
Qed.

Lemma resize_blocks_run ndb span gs :
  0 <= ndb <= span -> span <= 1024 ->
  zlen gs <= 1024 -> Forall (fun g => 0 <= g /\ g * 32768 <= u32_max) gs ->
  (exists e, resize_blocks ndb span gs = Err e) \/
  (exists dind ws, resize_blocks ndb span gs = Ok (dind, ws) /\ zlen dind = 4096 /\
     (forall i, ndb <= i < span -> get_u32 dind (i * 4) = 1 + i) /\
     Forall2 (reserved_write gs) (seqZ ndb (span - ndb)) ws).
Proof.
  intros Hn Hs Hl Hgs. pose proof (resize_blocks_loop gs (Z.to_nat (span - ndb)) ndb (zeros BLOCK_SIZE) []) as H.
  rewrite Z2Nat.id in H by lia. cbv zeta in H. replace (ndb + (span - ndb)) with span in H by lia.
  destruct H as [|(d & ws & Hr & Hz & Hin & _ & Hws)]; [lia|done|by apply zlen_zeros|done|done|by left|].
  right. by exists d, ws.
Qed.

Lemma backup_groups_in_range ng : 0 <= ng <= 131072 ->
  Forall (fun g => 0 <= g /\ g * 32768 <= u32_max) (backup_groups ng).
Proof. intros H. apply list.Forall_forall. intros g [Hg _]%backup_groups_elem. unfold u32_max. lia. Qed.

(** ** The plan *)

Definition descriptors_wf (ds : list GroupDescriptor) : Prop := Forall GroupDescriptor_wf ds.

Lemma set_gd_free_blocks_wf v d : is_u16 v -> GroupDescriptor_wf d -> GroupDescriptor_wf (set_gd_free_blocks v d).
Proof. destruct d. unfold GroupDescriptor_wf. simpl. intros Hc Hwf. destruct_and! Hwf. by split_and!. Qed.

Section Growing.
Context (img : ParsedImage) (Hib : image_bounds img) (nb ng : Z).
Context (Hnb : nb <= u32_max) (Hng : (ng - 1) * 32768 < nb).

Lemma new_descriptor_wf g : pi_groups img <= g < ng -> group_used img g < group_blocks nb g ->
  GroupDescriptor_wf (new_descriptor img nb ng g).
Proof.
  intros Hg Hfit. destruct (group_bounds img Hib nb ng Hng g Hg) as (Hb & Hg0 & Hu & Hin).
  pose proof (system_blocks_bounds img Hib g) as Hs. destruct Hib as [_ _ _ _ Ht _ _].
  unfold GroupDescriptor_wf, new_descriptor, group_free, group_table, group_used, u32_max in *. cbn.
  assert (is_u16 (if g =? ng - 1 then bg_INODE_UNINIT else Z.lor bg_INODE_UNINIT bg_BLOCK_UNINIT)) by by case_match.
  split_and!; try apply u16_range; try done; unfold is_u32, is_u16; lia.
Qed.

Lemma group_frees gs bms :
  Forall2 (group_bitmaps img nb) gs bms -> Forall (fun g => pi_groups img <= g < ng) gs ->
  0 <= zsum (map (group_free img nb) gs) <= 32765 * Z.of_nat (length gs).
Proof.
  induction 1 as [|g bm gs bms Hbm _ IH]; intros Hgs; [cbn; lia|]. apply Forall_cons_1 in Hgs as [Hg Hgs].
  specialize (IH Hgs). destruct (group_bounds img Hib nb ng Hng g Hg) as (Hb & _ & Hu & _).
  pose proof (gb_fits _ _ _ _ Hbm) as Hfit. cbn [map zsum fold_right length]. unfold zsum in IH. unfold group_free at 1 3. lia.
Qed.

(** The descriptors and the gain of a complete growth. *)
Lemma growth_facts f gr0 gr :
  byte_file f -> parsed f img -> pi_blocks img <= nb -> pi_groups img <= ng <= 131072 ->
  expansion img nb f gr0 -> add_groups img nb ng (seqZ (pi_groups img) (ng - pi_groups img)) gr0 gr ->
  zlen (gr_descriptors gr) = ng /\ descriptors_wf (gr_descriptors gr) /\ 0 <= gr_added gr <= u32_max.
Proof.
  intros Hf Hp Hge Hngs He (bms & Hbms & ->). cbn [gr_descriptors gr_added].
  assert (Forall (fun g => pi_groups img <= g < ng) (seqZ (pi_groups img) (ng - pi_groups img))) as Hgs
    by (apply list.Forall_forall; intros g Hg%elem_of_seqZ; lia).
  assert (zlen (gr_descriptors gr0) = pi_groups img /\ descriptors_wf (gr_descriptors gr0) /\ 0 <= gr_added gr0 <= 32767)
    as (Hl0 & Hwf0 & Ha0).
  { pose proof (ib_descriptors _ Hib) as Hl. assert (descriptors_wf (pi_descriptors img)) as Hwf.
    { apply Forall_lookup. intros i d Hd. by eapply parsed_descriptor_wf. }
    destruct Hib as [Hb Hg Hlast _ _ _ _]. destruct He as [He|d bm' Hlt Hd Hfr Hz Hbits]; cbn [gr_descriptors gr_added].
    - split; [done|]. split; [done|lia].
    - unfold zlen in *. rewrite length_insert. split; [done|]. split.
      + apply Forall_insert; [done|]. assert (GroupDescriptor_wf d) as Hd' by by eapply Forall_lookup_1.
        apply set_gd_free_blocks_wf; [|done]. unfold GroupDescriptor_wf in Hd'. destruct_and! Hd'.
        unfold is_u16, u16_max in *. lia.
      + unfold expanded_end. lia. }
  pose proof (group_frees _ _ Hbms Hgs) as Hfree. rewrite length_seqZ in Hfree. destruct Hib as [_ Hg _ _ _ _ _].
  split; [unfold zlen in *; rewrite length_app, length_map, length_seqZ; lia|]. split; [|unfold u32_max; lia].
  apply Forall_app. split; [done|]. apply Forall_fmap, Forall_lookup. intros i g Hgi.
  assert (pi_groups img <= g < ng) as Hgr by by eapply (Forall_lookup_1 _ _ _ _ Hgs).
  destruct (Forall2_lookup_l _ _ _ _ _ Hbms Hgi) as (bm & _ & Hbm). by apply new_descriptor_wf; [|eapply gb_fits].
Qed.
End Growing.

Section Plan.
Context (f : File) (img : ParsedImage) (Hf : byte_file f) (Hp : parsed f img).
Context (size : Z) (plan : GrowPlan).

(** The descriptors of the grown file system, before their checksums. *)
Definition grown_descriptors (gr : Growth) : list GroupDescriptor :=
  imap (stamp (sb_uuid (pi_superblock img))) (gr_descriptors gr).

Record planned (nb ng : Z) (gr : Growth) : Prop := mk_planned {
  pl_request : pi_blocks img <= size / 4096 <= u32_max;
  pl_usable : usable_size img (size / 4096) = (nb, ng);
  pl_changed : pi_blocks img < nb;
  pl_capacity : descriptor_blocks ng 4096 32 <= pi_descriptor_span img;
  pl_growth : exists gr0, expansion img nb f gr0 /\ add_groups img nb ng (seqZ (pi_groups img) (ng - pi_groups img)) gr0 gr;
  pl_inodes : ng * sb_inodes_per_group (pi_superblock img) <= u32_max;
  pl_free_blocks : sb_free_blocks_count_lo (pi_superblock img) + gr_added gr <= u32_max;
  pl_free_inodes : sb_free_inodes_count (pi_superblock img) +
    (ng - pi_groups img) * sb_inodes_per_group (pi_superblock img) <= u32_max;
  pl_outcome : gp_outcome plan = {| old_blocks := pi_blocks img; new_blocks := nb; old_groups := pi_groups img; new_groups := ng |};
  pl_backing : gp_backing_size plan = size;
  pl_error : gp_error_superblock plan = set_sb_state 3 (pi_superblock img);
  pl_final : gp_final_superblock plan =
    sb_put (ng * sb_inodes_per_group (pi_superblock img)) nb
      (sb_free_blocks_count_lo (pi_superblock img) + gr_added gr)
      (sb_free_inodes_count (pi_superblock img) + (ng - pi_groups img) * sb_inodes_per_group (pi_superblock img))
      EXT4_VALID_FS (sb_block_group_nr (pi_superblock img))
      (pi_descriptor_span img - descriptor_blocks ng 4096 32) (pi_superblock img);
  pl_gdt : put_table (E := ResizeError) 0 (grown_descriptors gr) (zeros (descriptor_blocks ng 4096 32 * 4096)) = Ok (gp_gdt plan);
  pl_writes : gp_bitmap_writes plan = gr_writes gr;
  pl_resize_inode : exists n, is_u32 n /\ gp_resize_inode plan = set_i_blocks_lo n (pi_resize_inode img);
  pl_resize_offset : gp_resize_inode_offset plan = pi_resize_inode_offset img;
  pl_dind_block : gp_resize_dind_block plan = pi_resize_dind_block img;
  pl_dind : zlen (gp_resize_dind plan) = 4096 /\
    forall i, descriptor_blocks ng 4096 32 <= i < pi_descriptor_span img -> get_u32 (gp_resize_dind plan) (i * 4) = 1 + i;
  pl_reserved : Forall2 (reserved_write (backup_groups ng))
    (seqZ (descriptor_blocks ng 4096 32) (pi_descriptor_span img - descriptor_blocks ng 4096 32)) (gp_reserved_gdt_writes plan);
  pl_backups : gp_backup_groups plan = backup_groups ng
}.

Lemma stamped_wf uuid gds : is_bytes 16 uuid -> descriptors_wf gds -> Forall rec_wf (imap (stamp uuid) gds).
Proof.
  intros Hu Hwf. apply Forall_lookup. intros i d Hd. rewrite list_lookup_imap in Hd.
  destruct (gds !! i) as [d0|] eqn:Hd0; [|done]. injection Hd as <-.
  assert (GroupDescriptor_wf d0) as Hd by by eapply Forall_lookup_1.
  apply set_gd_checksum_wf; [|done]. apply group_descriptor_range; [apply Hu|done].
Qed.
End Plan.

Lemma plan_grow_run f img size :
  byte_file f -> parsed f img ->
  (exists e, plan_grow f img size = Err e) \/
  (exists p nb ng, plan_grow f img size = Ok p /\ changed (gp_outcome p) = false /\ gp_backing_size p = size /\
     pi_blocks img <= size / 4096 <= u32_max /\ usable_size img (size / 4096) = (nb, ng) /\
     gp_outcome p = {| old_blocks := pi_blocks img; new_blocks := nb; old_groups := pi_groups img; new_groups := ng |}) \/
  (exists p nb ng gr, plan_grow f img size = Ok p /\ changed (gp_outcome p) = true /\ planned f img size p nb ng gr).
Proof.
  intros Hf Hp. pose proof (parsed_bounds f img Hf Hp) as Hib.
  destruct (sb_wf_ranges _ (parsed_sb_wf f img Hf Hp)) as (Hb & Hi & Hr & Hfb & Hfi & Hu & Hic).
  unfold plan_grow. cbv zeta. change BLOCK_SIZE with 4096. change DESCRIPTOR_SIZE with 32.
  destruct (Z.ltb_spec u32_max (size / 4096)); [left; by eexists|].
  destruct (Z.ltb_spec (size / 4096) (pi_blocks img)); [left; by eexists|].
  assert (pi_blocks img <= size / 4096 <= u32_max) as Hreq by lia.
  destruct (usable_size img (size / 4096)) as [nb ng] eqn:Hus.
  destruct (usable_size_spec img Hib _ _ _ Hreq Hus) as (Hnb & Hngs & Hng & _ & _).
  destruct (changed _) eqn:Hch; cbn [negb].
  2:{ right; left. eexists _, nb, ng. split; [done|]. cbn [gp_outcome gp_backing_size]. by split_and!. }
  destruct (Z.ltb_spec (pi_descriptor_span img) (descriptor_blocks ng 4096 32)) as [|Hcap]; [left; by eexists|].
  destruct (expand_run img Hib nb ltac:(lia) f ltac:(lia)) as [[e ->]|(gr0 & -> & He)]; [left; by eexists|].
  cbn [mbind res_bind].
  destruct (add_group_loop img Hib nb ng ltac:(lia) ltac:(lia) (seqZ (pi_groups img) (ng - pi_groups img)) gr0)
    as [[e ->]|(gr & -> & Hgr)]; [apply list.Forall_forall; intros g Hg%elem_of_seqZ; lia|left; by eexists|].
  cbn [mbind res_bind].
  destruct (growth_facts img Hib nb ng ltac:(lia) ltac:(lia) f gr0 gr Hf Hp ltac:(lia) ltac:(lia) He Hgr) as (Hlen & Hwf & Hadd).
  destruct (Z.ltb_spec u32_max (ng * sb_inodes_per_group (pi_superblock img))) as [|Hino]; [left; by eexists|].
  pose proof (ib_span _ Hib) as Hspan. pose proof (ib_groups _ Hib) as Hgrp. pose proof (ib_per_group _ Hib) as Hipg.
  pose proof (descriptor_blocks_bounds ng ltac:(lia)) as Hdb.
  destruct (resize_blocks_run (descriptor_blocks ng 4096 32) (pi_descriptor_span img) (backup_groups ng))
    as [[e ->]|(dind & ws & -> & Hzd & Hdind & Hws)];
    [lia|lia|apply backup_groups_short; lia|apply backup_groups_in_range; lia|left; by eexists|].
  cbn [mbind res_bind].
  destruct (checked_mul u32_max _ (4096 / 512)) as [bl|] eqn:Hbl; [|left; by eexists].
  apply checked_mul_some in Hbl as [-> Hbl]. cbn [ok_or mbind res_bind].
  rewrite (u32_small (gr_added gr)) by (unfold is_u32, u32_max in *; lia).
  destruct (checked_add u32_max _ (gr_added gr)) as [fb|] eqn:Hfb'; [|left; by eexists].
  apply checked_add_some in Hfb' as [-> Hfb']. cbn [ok_or mbind res_bind].
  rewrite (u32_small ((ng - pi_groups img) * _)) by (unfold is_u32, u32_max in *; nia).
  destruct (checked_add u32_max _ ((ng - pi_groups img) * _)) as [fi|] eqn:Hfi'; [|left; by eexists].
  apply checked_add_some in Hfi' as [-> Hfi']. cbn [ok_or mbind res_bind].
  rewrite (u32_small (ng * _)), (u32_small nb), (u16_small (_ - _)) by (unfold is_u32, is_u16, u32_max in *; nia).
  cbn [sb_uuid sb_put].
  assert (zlen (zeros (descriptor_blocks ng 4096 32 * 4096)) = descriptor_blocks ng 4096 32 * 4096) as Hzz by (apply zlen_zeros; lia).
  destruct (put_table_spec (E := ResizeError) (imap (stamp (sb_uuid (pi_superblock img))) (gr_descriptors gr)) 0
    (zeros (descriptor_blocks ng 4096 32 * 4096))) as (gdt & Hgdt & _); [by apply stamped_wf|done| |].
  { rewrite Hzz, length_imap. unfold zlen in Hlen. cbn. lia. }
  rewrite Hgdt. cbn [mbind res_bind]. right; right. eexists _, nb, ng, gr. split; [done|].
  split; [exact Hch|]. unfold changed in Hch. cbn [old_blocks new_blocks] in Hch.
  apply negb_true_iff, Z.eqb_neq in Hch.
  constructor; cbn [gp_outcome gp_backing_size gp_error_superblock gp_final_superblock gp_gdt gp_bitmap_writes
    gp_resize_inode gp_resize_inode_offset gp_resize_dind_block gp_resize_dind gp_reserved_gdt_writes gp_backup_groups]; try done.
  - lia.
  - by exists gr0.
  - eexists. split; [|done]. pose proof (zlen_nonneg (backup_groups ng)). unfold is_u32, u32_max in *. split; [|lia].
    apply Z.mul_nonneg_nonneg; [|done]. apply Z.add_nonneg_nonneg; [lia|]. apply Z.mul_nonneg_nonneg; lia.
Qed.

Lemma plan_grow_planned f img size p :
  byte_file f -> parse_image f = Ok img -> plan_grow f img size = Ok p -> changed (gp_outcome p) = true ->
  parsed f img /\ image_bounds img /\ exists nb ng gr, planned f img size p nb ng gr.
Proof.
  intros Hf Himg Hplan Hch. apply parse_image_parsed in Himg as Hp. split; [done|]. split; [by eapply parsed_bounds|].
  destruct (plan_grow_run f img size Hf Hp) as [[e He]|[(p' & nb & ng & Hp' & Hc & _)|(p' & nb & ng & gr & Hp' & _ & Hpl)]];
    [congruence|assert (p' = p) by congruence; subst; congruence|]. assert (p' = p) by congruence. subst.
  by exists nb, ng, gr.
Qed.

Section Planned.
Context (f : File) (img : ParsedImage) (size : Z) (p : GrowPlan) (nb ng : Z) (gr : Growth).
Context (Hf : byte_file f) (Hp : parsed f img) (Hpl : planned f img size p nb ng gr).

Lemma planned_sizes :
  pi_blocks img < nb <= size / 4096 /\ nb <= u32_max /\ pi_groups img <= ng <= 131072 /\
  (ng - 1) * 32768 < nb <= ng * 32768.
Proof.
  destruct (usable_size_spec img (parsed_bounds f img Hf Hp) _ _ _ (pl_request _ _ _ _ _ _ _ Hpl) (pl_usable _ _ _ _ _ _ _ Hpl))
    as (Hnb & Hngs & Hng & _ & _).
  pose proof (pl_request _ _ _ _ _ _ _ Hpl). pose proof (pl_changed _ _ _ _ _ _ _ Hpl). lia.
Qed.

Lemma planned_growth :
  zlen (gr_descriptors gr) = ng /\ descriptors_wf (gr_descriptors gr) /\ 0 <= gr_added gr <= u32_max.
Proof.
  destruct planned_sizes as (Hnb & Hu & Hngs & Hng). destruct (pl_growth _ _ _ _ _ _ _ Hpl) as (gr0 & He & Hgr).
  apply (growth_facts img (parsed_bounds f img Hf Hp) nb ng Hu ltac:(lia) f gr0 gr); try done; lia.
Qed.

(** The table the plan writes: one valid descriptor per group. *)
Lemma planned_gdt :
  zlen (gp_gdt p) = descriptor_blocks ng 4096 32 * 4096 /\ zlen (grown_descriptors img gr) = ng /\
  holds (gp_gdt p) 0 (grown_descriptors img gr) /\ Forall rec_wf (grown_descriptors img gr) /\
  (forall g d, grown_descriptors img gr !! g = Some d ->
     group_descriptor (sb_uuid (pi_superblock img)) (Z.of_nat g) d = gd_checksum d).
Proof.
  destruct planned_sizes as (_ & _ & Hngs & _). destruct planned_growth as (Hlen & Hwf & _).
  pose proof (ib_groups _ (parsed_bounds f img Hf Hp)). pose proof (descriptor_blocks_bounds ng ltac:(lia)) as Hdb.
  destruct (sb_wf_ranges _ (parsed_sb_wf f img Hf Hp)) as (_ & _ & _ & _ & _ & Hu & _).
  assert (Forall rec_wf (grown_descriptors img gr)) as Hwf' by by apply stamped_wf.
  assert (zlen (zeros (descriptor_blocks ng 4096 32 * 4096)) = descriptor_blocks ng 4096 32 * 4096) as Hz by (apply zlen_zeros; lia).
  assert (zlen (grown_descriptors img gr) = ng) as Hlen' by (unfold grown_descriptors, zlen in *; by rewrite length_imap).
  destruct (put_table_spec (E := ResizeError) (grown_descriptors img gr) 0 (zeros (descriptor_blocks ng 4096 32 * 4096)))
    as (gdt & Hgdt & Hzg & Hh & _); [done|done|rewrite Hz; unfold zlen in Hlen'; cbn; lia|].
  pose proof (pl_gdt _ _ _ _ _ _ _ Hpl) as Hgdt'. rewrite Hgdt in Hgdt'. injection Hgdt' as <-.
  split; [lia|]. split; [done|]. split; [done|]. split; [done|].
  intros g d Hd. unfold grown_descriptors in Hd. rewrite list_lookup_imap in Hd.
  destruct (gr_descriptors gr !! g); [|done]. injection Hd as <-.
  unfold stamp. by rewrite group_descriptor_set_checksum, gd_checksum_set.
Qed.
End Planned.

(** ** Accounting *)

(** Free counts of a list of descriptors. *)
Definition free_blocks (ds : list GroupDescriptor) : Z := zsum (map gd_free_blocks_count_lo ds).
Definition free_inodes (ds : list GroupDescriptor) : Z := zsum (map gd_free_inodes_count_lo ds).

Lemma zsum_insert (i : nat) (l : list Z) v x : l !! i = Some x -> zsum (<[i := v]> l) = zsum l + (v - x).
Proof.
  revert i. induction l as [|y l IH]; intros [|i] Hi; simplify_eq/=; [lia|]. rewrite (IH i Hi). lia.
Qed.

Lemma imap_free st (ds : list GroupDescriptor) :
  (forall i d, gd_free_blocks_count_lo (st i d) = gd_free_blocks_count_lo d /\
               gd_free_inodes_count_lo (st i d) = gd_free_inodes_count_lo d) ->
  free_blocks (imap st ds) = free_blocks ds /\ free_inodes (imap st ds) = free_inodes ds.
Proof.
  unfold free_blocks, free_inodes. revert st. induction ds as [|d ds IH]; intros st Hst; [done|].
  cbn [imap map zsum fold_right]. destruct (Hst 0%nat d) as [-> ->].
  destruct (IH (st ∘ S)) as [H1 H2]; [intros i d'; apply Hst|]. unfold zsum in *. by rewrite H1, H2.
Qed.

Lemma expansion_free img nb f gr0 :
  expansion img nb f gr0 ->
  free_blocks (gr_descriptors gr0) = free_blocks (pi_descriptors img) + gr_added gr0 /\
  free_inodes (gr_descriptors gr0) = free_inodes (pi_descriptors img).
Proof.
  unfold free_blocks, free_inodes. intros [He|d bm' Hlt Hd Hfr Hz Hbits]; cbn [gr_descriptors gr_added]; [split; lia|].
  change (@map GroupDescriptor Z) with (@fmap list list_fmap GroupDescriptor Z).
  rewrite !list_fmap_insert. split.
  - rewrite (zsum_insert _ _ _ (gd_free_blocks_count_lo d)) by by rewrite list_lookup_fmap, Hd. destruct d. cbn. lia.
  - rewrite (zsum_insert _ _ _ (gd_free_inodes_count_lo d)) by by rewrite list_lookup_fmap, Hd. destruct d. cbn. lia.
Qed.

Lemma add_groups_free img nb ng gs gr0 gr :
  add_groups img nb ng gs gr0 gr -> is_u16 (sb_inodes_per_group (pi_superblock img)) ->
  free_blocks (gr_descriptors gr) = free_blocks (gr_descriptors gr0) + (gr_added gr - gr_added gr0) /\
  free_inodes (gr_descriptors gr) =
    free_inodes (gr_descriptors gr0) + zlen gs * sb_inodes_per_group (pi_superblock img).
Proof.
  intros (bms & _ & ->) Hu. unfold free_blocks, free_inodes. cbn [gr_descriptors gr_added].
  rewrite !map_app, !zsum_app, !map_map. split.
  { change (map (fun x => gd_free_blocks_count_lo (new_descriptor img nb ng x)) gs) with (map (group_free img nb) gs). lia. }
  f_equal. cbn. rewrite u16_small by done. induction gs as [|g gs IH]; [done|]. rewrite zlen_cons. cbn. unfold zsum in IH.
  rewrite IH. lia.
Qed.

(** The descriptor [d] of a new group [g] and the bitmaps written for it agree:
    its metadata follows the copies of the superblock and descriptors and ends
    inside the group, exactly these blocks and the ones past the end are marked
    used, and the free counts are those of the bitmaps. *)
Definition consistent_group (img : ParsedImage) (nb : Z) (writes : list BitmapWrite) (g : Z)
    (d : GroupDescriptor) : Prop :=
  let used := system_blocks g (pi_descriptor_span img) + pi_inode_table_blocks img + 2 in
  gd_inode_table_lo d = g * BLOCKS_PER_GROUP + system_blocks g (pi_descriptor_span img) /\
  gd_block_bitmap_lo d = gd_inode_table_lo d + pi_inode_table_blocks img /\
  gd_inode_bitmap_lo d = gd_block_bitmap_lo d + 1 /\ gd_inode_bitmap_lo d < Z.min nb ((g + 1) * BLOCKS_PER_GROUP) /\
  exists blocks inodes,
    {| bw_block := gd_block_bitmap_lo d; bw_bytes := blocks |} ∈ writes /\
    {| bw_block := gd_inode_bitmap_lo d; bw_bytes := inodes |} ∈ writes /\
    (forall o, 0 <= o < BLOCKS_PER_GROUP ->
       bit_at blocks o = true <-> o < used \/ nb <= g * BLOCKS_PER_GROUP + o) /\
    gd_free_blocks_count_lo d = BLOCKS_PER_GROUP - count_set blocks 0 BLOCKS_PER_GROUP /\
    (sb_inodes_per_group (pi_superblock img) <= BLOCKS_PER_GROUP ->
     gd_free_inodes_count_lo d = BLOCKS_PER_GROUP - count_set inodes 0 BLOCKS_PER_GROUP).

Lemma elem_of_group_writes (gs : list Z) bms img w g bm i :
  gs !! i = Some g -> bms !! i = Some bm -> w ∈ group_writes img g bm ->
  w ∈ concat (zip_with (group_writes img) gs bms).
Proof.
  intros Hg Hb Hw. apply list_elem_of_In, in_concat. exists (group_writes img g bm).
  split; [|by apply list_elem_of_In]. apply list_elem_of_In, list_elem_of_lookup. exists i.
  by rewrite lookup_zip_with, Hg, Hb.
Qed.

Lemma group_consistent img nb ng g bm writes (uuid : list Z) (i : nat) :
  image_bounds img -> nb <= u32_max -> (ng - 1) * 32768 < nb -> pi_groups img <= g < ng ->
  group_bitmaps img nb g bm -> (forall w, w ∈ group_writes img g bm -> w ∈ writes) ->
  consistent_group img nb writes g (stamp uuid i (new_descriptor img nb ng g)).
Proof.
  intros Hib Hnb Hng Hg [Hfit Hl1 Hb1 Hl2 Hb2] Hw. destruct (group_bounds img Hib nb ng Hng g Hg) as (Hgb & Hg0 & Hgu & Hin).
  pose proof (system_blocks_bounds img Hib g) as Hs. pose proof (ib_per_group _ Hib) as Hi.
  unfold consistent_group, stamp, new_descriptor, set_gd_checksum. cbv zeta.
  cbn [gd_inode_table_lo gd_block_bitmap_lo gd_inode_bitmap_lo gd_free_blocks_count_lo gd_free_inodes_count_lo].
  change BLOCKS_PER_GROUP with 32768. unfold group_table, group_used, group_blocks in *.
  split; [done|]. split; [done|]. split; [done|]. split; [lia|]. exists bm.1, bm.2.
  split; [apply Hw; left|]. split; [apply Hw; right; left|]. split; [|split].
  - intros o Ho. rewrite Hb1, orb_true_iff, Z.ltb_lt, Z.leb_le by done. lia.
  - unfold group_free, group_blocks, group_used. set (used := _ + _ + 2) in *. set (len := Z.min _ _) in *.
    replace 32768 with (used + ((len - used) + (32768 - len))) at 2 by lia.
    rewrite !count_set_split by lia. rewrite (count_set_all _ 0 used true), (count_set_all _ (0 + used) (len - used) false),
      (count_set_all _ (0 + used + (len - used)) (32768 - len) true); try lia;
      intros o Ho; rewrite Hb1 by lia; clear - Ho Hfit; zbool.
  - intros Hsmall. rewrite u16_small by (unfold is_u16; lia). set (n := sb_inodes_per_group _) in *.
    replace 32768 with (n + (32768 - n)) at 2 by lia. rewrite count_set_split by lia.
    rewrite (count_set_all _ 0 n false), (count_set_all _ (0 + n) (32768 - n) true); try lia;
      intros o Ho; rewrite Hb2 by lia; clear - Ho; zbool.
Qed.

(** ** Properties *)

(** C31: Growing never panics, on any file and for any size: no index is out of
    range and no division is by zero, whatever the image contains. *)
Theorem grow_never_panics (f : File) (size : Z) (Hf : byte_file f) : grow_image f size <> Panic.
Proof.
  unfold grow_image. case_match; [done|]. apply np_bind; [by apply np_parse_image|].
  intros img Himg%parse_image_parsed. apply np_bind.
  - destruct (plan_grow_run f img size Hf Himg) as [[e ->]|[(p & nb & ng & -> & _)|(p & nb & ng & gr & -> & _)]]; done.
  - intros p _. by case_match.
Qed.


(** C19: Growing keeps the books, for images with at most 65,535 inodes per
    group; above that the 16-bit counts of the new descriptors truncate.  The descriptor table it writes has one valid
    descriptor per group; the free blocks and inodes of the superblock rise by
    exactly what the descriptors gain; every new group keeps its metadata inside
    itself, and its bitmaps mark exactly the metadata and the blocks past the
    end, in agreement with its free counts. *)
Theorem grow_accounting (f : File) (size : Z) (img : ParsedImage) (plan : GrowPlan)
    (Hf : byte_file f) (Himg : parse_image f = Ok img) (Hplan : plan_grow f img size = Ok plan)
    (Hchanged : changed (gp_outcome plan) = true)
    (Hinodes : sb_inodes_per_group (pi_superblock img) <= u16_max) :
  exists ds,
    zlen ds = new_groups (gp_outcome plan) /\ holds (gp_gdt plan) 0 ds /\
    (forall g d, ds !! g = Some d ->
       group_descriptor (sb_uuid (gp_final_superblock plan)) (Z.of_nat g) d = gd_checksum d) /\
    free_blocks ds - free_blocks (pi_descriptors img) =
      sb_free_blocks_count_lo (gp_final_superblock plan) - sb_free_blocks_count_lo (pi_superblock img) /\
    free_inodes ds - free_inodes (pi_descriptors img) =
      sb_free_inodes_count (gp_final_superblock plan) - sb_free_inodes_count (pi_superblock img) /\
    forall g d, pi_groups img <= Z.of_nat g -> ds !! g = Some d ->
      consistent_group img (new_blocks (gp_outcome plan)) (gp_bitmap_writes plan) (Z.of_nat g) d.
Proof.
  destruct (plan_grow_planned f img size plan Hf Himg Hplan Hchanged) as (Hp & Hib & nb & ng & gr & Hpl).
  destruct (planned_sizes _ _ _ _ _ _ _ Hf Hp Hpl) as (Hnb & Hu & Hngs & Hng).
  destruct (planned_gdt _ _ _ _ _ _ _ Hf Hp Hpl) as (_ & Hlen & Hholds & _ & Hsum).
  destruct (planned_growth _ _ _ _ _ _ _ Hf Hp Hpl) as (Hlen0 & _).
  rewrite (pl_outcome _ _ _ _ _ _ _ Hpl), (pl_final _ _ _ _ _ _ _ Hpl), (pl_writes _ _ _ _ _ _ _ Hpl).
  cbn [new_groups new_blocks sb_uuid sb_free_blocks_count_lo sb_free_inodes_count sb_put].
  exists (grown_descriptors img gr). split; [done|]. split; [done|]. split; [done|]. unfold grown_descriptors in *.
  destruct (imap_free (stamp (sb_uuid (pi_superblock img))) (gr_descriptors gr)) as [-> ->]; [by intros i []|].
  destruct (pl_growth _ _ _ _ _ _ _ Hpl) as (gr0 & He & Hgr). destruct (expansion_free _ _ _ _ He) as [Heb Hei].
  destruct (add_groups_free _ _ _ _ _ _ Hgr) as [Hab Hai];
    [pose proof (ib_per_group _ Hib); unfold is_u16, u16_max in *; lia|].
  assert (zlen (seqZ (pi_groups img) (ng - pi_groups img)) = ng - pi_groups img) as Hz by (unfold zlen; rewrite length_seqZ; lia).
  rewrite Hz in Hai. split; [lia|]. split; [lia|]. intros g d Hg Hd. rewrite list_lookup_imap in Hd.
  destruct (gr_descriptors gr !! g) as [d0|] eqn:Hd0; [|done]. injection Hd as <-.
  apply lookup_lt_Some in Hd0 as Hlt. destruct Hgr as (bms & Hbms & ->). cbn [gr_descriptors gr_writes] in *.
  assert (zlen (gr_descriptors gr0) = pi_groups img) as Hl0.
  { unfold zlen in *. rewrite length_app, length_map, length_seqZ in Hlen0. lia. }
  unfold zlen in Hl0, Hlen0. rewrite lookup_app_r in Hd0 by lia. apply list_lookup_fmap_Some in Hd0 as (g' & -> & Hg').
  apply lookup_seqZ in Hg' as Hg''. destruct Hg'' as [-> Hg'']. destruct (Forall2_lookup_l _ _ _ _ _ Hbms Hg') as (bm & Hbm & Hgood).
  replace (pi_groups img + Z.of_nat (g - length (gr_descriptors gr0))) with (Z.of_nat g) in * by lia.
  apply (group_consistent img nb ng _ bm); try done; [lia..|].
  intros w Hw. apply elem_of_app. right. by eapply elem_of_group_writes.
Qed.

(** *** Witnesses *)

Lemma grow_never_panics_witness : grow_image sample_disk sample_target <> Panic.
Proof. apply (grow_never_panics sample_disk sample_target). exact sample_disk_bytes. Defined.

(** A grown image is the result of a plan. *)
Lemma grow_image_plan f size img plan :
  size mod 4096 = 0 -> parse_image f = Ok img -> plan_grow f img size = Ok plan -> changed (gp_outcome plan) = true ->
  grow_image f size = Ok (gp_outcome plan, apply_plan f plan).
Proof.
  intros Hs Himg Hplan Hch. unfold grow_image. change BLOCK_SIZE with 4096. rewrite Hs. cbn [Z.eqb negb].
  apply res_bind_ok. exists img. split; [done|]. apply res_bind_ok. exists plan. split; [done|]. by rewrite Hch.
Qed.

Lemma sample_grown :
  exists img plan, parse_image sample_disk = Ok img /\ plan_grow sample_disk img sample_target = Ok plan /\
    sample_facts img plan /\ changed (gp_outcome plan) = true /\
    grow_image sample_disk sample_target = Ok (gp_outcome plan, apply_plan sample_disk plan).
Proof.
  destruct sample_grows as (img & plan & Himg & Hplan & Hfacts). exists img, plan. split; [done|]. split; [done|]. split; [done|].
  assert (changed (gp_outcome plan) = true) as Hch.
  { destruct Hfacts as (_ & _ & _ & _ & _ & _ & _ & Ho). by rewrite Ho. }
  split; [done|]. by apply (grow_image_plan _ _ img).
Qed.


Lemma grow_accounting_witness :
  exists img plan ds, parse_image sample_disk = Ok img /\ plan_grow sample_disk img sample_target = Ok plan /\
    zlen ds = 2 /\ holds (gp_gdt plan) 0 ds /\
    free_blocks ds - free_blocks (pi_descriptors img) =
      sb_free_blocks_count_lo (gp_final_superblock plan) - sb_free_blocks_count_lo (pi_superblock img).
Proof.
  destruct sample_grown as (img & plan & Himg & Hplan & Hfacts & Hch & _).
  destruct (grow_accounting sample_disk sample_target img plan sample_disk_bytes Himg Hplan Hch) as (ds & Hl & Hh & _ & Hfb & _).
  - destruct Hfacts as (_ & _ & _ & _ & _ & Hi & _). rewrite Hi. vm_compute. discriminate.
  - exists img, plan, ds. split; [done|]. split; [done|]. split; [|by split].
    destruct Hfacts as (_ & _ & _ & _ & _ & _ & _ & Ho). by rewrite Hl, Ho.
Defined.
