(* ===== verification/ResizerCrash.v ===== *)
(** Growing and crashes: which bytes the operations of [apply_plan] touch, and
    what a crash at any point leaves behind.

    The disk writes sectors of 512 bytes as a whole.  Between two [sync_all]
    calls the host may write them in any order and at any time, so after a crash
    every sector holds one of the contents it has had since the last sync. *)

From stdpp Require Import strings.
From S2P Require Import Prelude Bytes Types Checksum Layout Errors Disk Tables Extent Geometry Canonical Resizer ResizerFacts ResizerSample ResizerPlan.

Open Scope string_scope.
Open Scope list_scope.
Open Scope Z_scope.

(** ** Crashes *)

Definition SECTOR : Z := 512.

(** [g] is a possible content of the disk when [pending] was issued after
    [durable] had been synced. *)
Definition crash_image (durable : File) (pending : list DiskOp) (g : File) : Prop :=
  (forall k, exists n, forall x, k * SECTOR <= x < (k + 1) * SECTOR ->
     f_data g x = f_data (run_ops durable (take n pending)) x) /\
  (exists n, f_len g = f_len (run_ops durable (take n pending))).

(** [crashes durable pending todo g]: with [todo] still to be issued, a crash
    can leave [g]. *)
Inductive crashes : File -> list DiskOp -> list DiskOp -> File -> Prop :=
| crash_now d p t g : crash_image d p g -> crashes d p t g
| crash_later d p op t g : op <> SyncAll -> crashes d (p ++ [op]) t g -> crashes d p (op :: t) g
| crash_synced d p t g : crashes (run_ops d p) [] t g -> crashes d p (SyncAll :: t) g.

Lemma run_ops_app d p q : run_ops d (p ++ q) = run_ops (run_ops d p) q.
Proof. apply fold_left_app. Qed.

(** A crash happens before the next sync, with part of the pending operations
    on disk, or after it. *)
Lemma crashes_until_sync ops : forall d p t g,
  SyncAll ∉ ops -> crashes d p (ops ++ SyncAll :: t) g ->
  (exists n, crash_image d (p ++ take n ops) g) \/ crashes (run_ops d (p ++ ops)) [] t g.
Proof.
  induction ops as [|op ops IH]; intros d p t g Hns H; cbn [app] in H.
  - rewrite !app_nil_r. inversion H; subst; [left; exists 0%nat; by rewrite app_nil_r|done|by right].
  - rewrite elem_of_cons in Hns. inversion H as [? ? ? ? Hi|? ? ? ? ? Hne Hc|? ? ? ? Hc]; subst.
    + left. exists 0%nat. by rewrite app_nil_r.
    + destruct (IH _ _ _ _ ltac:(intros ?; apply Hns; by right) Hc) as [[n Hn]|Hr].
      * left. exists (S n). by rewrite <- app_assoc in Hn.
      * right. by rewrite <- app_assoc in Hr.
    + exfalso. apply Hns. by left.
Qed.

Lemma crashes_nil d g : crashes d [] [] g -> crash_image d [] g.
Proof. intros H. by inversion H. Qed.

(** ** What operations touch *)

Definition touches (op : DiskOp) (x : Z) : Prop :=
  match op with
  | SetLen n => n <= x
  | WriteAt o bs => o <= x < o + zlen bs
  | SyncAll => False
  end.

Lemma run_op_untouched f op x : ~ touches op x -> f_data (run_op f op) x = f_data f x.
Proof.
  destruct op as [n|o bs|]; cbn; intros H; [|unfold write_all, write_at; cbn|done].
  - by replace (x <? n) with true by lia.
  - by replace ((o <=? x) && (x <? o + zlen bs)) with false by lia.
Qed.

Lemma run_ops_untouched ops : forall f x,
  Forall (fun op => ~ touches op x) ops -> f_data (run_ops f ops) x = f_data f x.
Proof.
  induction ops as [|op ops IH]; intros f x H; [done|]. apply Forall_cons_1 in H as [Hop Hops].
  change (run_ops f (op :: ops)) with (run_ops (run_op f op) ops). rewrite IH by done. by apply run_op_untouched.
Qed.

(** Lengths only grow. *)
Definition grows (f : File) (op : DiskOp) : Prop := match op with SetLen n => f_len f <= n | _ => True end.

Lemma run_op_len f op : grows f op -> f_len f <= f_len (run_op f op).
Proof.
  destruct op as [n|o bs|]; cbn; intros; try lia. unfold write_all, write_at. cbn. case_match; lia.
Qed.

Lemma run_ops_len ops f : Forall (fun op => match op with SetLen _ => False | _ => True end) ops ->
  f_len f <= f_len (run_ops f ops).
Proof.
  revert f. induction ops as [|op ops IH]; intros f H; [done|]. apply Forall_cons_1 in H as [Hop Hops].
  etransitivity; [|apply (IH (run_op f op) Hops)]. apply run_op_len. by destruct op.
Qed.

Lemma bytes_at_op f o bs : bytes_at (run_op f (WriteAt o bs)) o (zlen bs) = bs.
Proof.
  transitivity (bytes_at (write_at f o bs) o (zlen bs)); [|apply bytes_at_write]. by apply bytes_at_ext.
Qed.

(** ** The superblock and its sectors *)

Definition sb_bytes (sb : SuperBlock) : list Z := SuperBlock_write_to sb (zeros 1024).

Lemma zlen_sb_bytes sb : zlen (sb_bytes sb) = 1024.
Proof. unfold sb_bytes. rewrite zlen_SuperBlock_write. by apply zlen_zeros. Qed.

Lemma read_sb_bytes sb : SuperBlock_wf sb -> SuperBlock_read_from (sb_bytes sb) = sb.
Proof. intros. unfold sb_bytes. apply SuperBlock_read_write; [done|]. rewrite zlen_zeros; lia. Qed.

(** The fields of the second sector. *)
Definition sb_tail (sb : SuperBlock) : list field := List.filter (fun f => 512 <=? field_off f) (SuperBlock_fields sb).

Lemma sb_tail_put ic bl fb fi st gn rg sb : sb_tail (sb_put ic bl fb fi st gn rg sb) = sb_tail sb.
Proof. unfold sb_tail. vm_compute. reflexivity. Qed.

(** The resizer's updates stay in the first sector. *)
Lemma sb_put_second_sector ic bl fb fi st gn rg sb :
  SuperBlock_wf sb -> SuperBlock_wf (sb_put ic bl fb fi st gn rg sb) ->
  sub_bytes (sb_bytes (sb_put ic bl fb fi st gn rg sb)) 512 512 = sub_bytes (sb_bytes sb) 512 512.
Proof.
  intros Hwf Hwf'. unfold sb_bytes, SuperBlock_write_to. set (z := put_bytes (zeros 1024) 0 (zeros 1024)).
  assert (zlen z = 1024) as Hz by (unfold z; rewrite zlen_put; by apply zlen_zeros).
  assert (tiles 512 (sb_tail sb) 1024 = true) as Ht by (unfold sb_tail; vm_compute; reflexivity).
  change 512 with (1024 - 512) at 2 4.
  apply (put_fields_common _ 1024 z (SuperBlock_layout _) (SuperBlock_sized _ Hwf') Hz _ z (sb_tail sb) 512 1024
    (SuperBlock_layout _) (SuperBlock_sized _ Hwf) Hz); [| |exact Ht|lia|lia].
  - intros f Hf. rewrite <- (sb_tail_put ic bl fb fi st gn rg) in Hf. unfold sb_tail in Hf.
    apply list_elem_of_In, filter_In in Hf as [Hf _]. by apply list_elem_of_In.
  - intros f Hf. unfold sb_tail in Hf. apply list_elem_of_In, filter_In in Hf as [Hf _]. by apply list_elem_of_In.
Qed.

Section FirstSector.
Context (buf buf' : list Z).
Hypothesis (Hhead : sub_bytes buf 0 512 = sub_bytes buf' 0 512).

Lemma head_sub o n : 0 <= o -> 0 <= n -> o + n <= 512 -> sub_bytes buf o n = sub_bytes buf' o n.
Proof.
  intros. transitivity (sub_bytes (sub_bytes buf 0 512) o n); [symmetry; apply sub_sub; lia|].
  rewrite Hhead. apply sub_sub; lia.
Qed.

Lemma head_u32 o : 0 <= o -> o + 4 <= 512 -> get_u32 buf o = get_u32 buf' o.
Proof. intros. unfold get_u32. by rewrite head_sub by lia. Qed.
Lemma head_u16 o : 0 <= o -> o + 2 <= 512 -> get_u16 buf o = get_u16 buf' o.
Proof. intros. unfold get_u16. by rewrite head_sub by lia. Qed.
End FirstSector.

Definition not_clean : ResizeError := Corrupt "filesystem is not clean".

(** The superblock written before anything else: clean and erroneous at once. *)
Definition error_superblock (sb : SuperBlock) : SuperBlock := set_sb_block_group_nr 0 (set_sb_state 3 sb).

Lemma error_superblock_wf sb : SuperBlock_wf sb -> SuperBlock_wf (error_superblock sb).
Proof.
  intros Hwf. unfold error_superblock, set_sb_block_group_nr, set_sb_state.
  apply sb_put_wf; [..|apply sb_put_wf]; try done; unfold SuperBlock_wf in Hwf; destruct_and! Hwf; done.
Qed.

(** The fields [check_superblock] looks at first are in the first sector. *)
Record same_head (sb sb' : SuperBlock) : Prop := mk_same_head {
  sh_magic : sb_magic sb = sb_magic sb';
  sh_block_size : sb_log_block_size sb = sb_log_block_size sb';
  sh_first : sb_first_data_block sb = sb_first_data_block sb';
  sh_per_group : sb_blocks_per_group sb = sb_blocks_per_group sb';
  sh_clusters : sb_clusters_per_group sb = sb_clusters_per_group sb';
  sh_inode_size : sb_inode_size sb = sb_inode_size sb';
  sh_compat : sb_feature_compat sb = sb_feature_compat sb';
  sh_incompat : sb_feature_incompat sb = sb_feature_incompat sb';
  sh_ro : sb_feature_ro_compat sb = sb_feature_ro_compat sb';
  sh_state : sb_state sb = sb_state sb'
}.

Lemma head_fields buf buf' :
  sub_bytes buf 0 512 = sub_bytes buf' 0 512 -> same_head (SuperBlock_read_from buf) (SuperBlock_read_from buf').
Proof.
  intros Hhead. pose proof (head_u32 _ _ Hhead) as H32. pose proof (head_u16 _ _ Hhead) as H16. constructor.
  - apply (H16 0x38); lia.
  - apply (H32 0x18); lia.
  - apply (H32 0x14); lia.
  - apply (H32 0x20); lia.
  - apply (H32 0x24); lia.
  - apply (H16 0x58); lia.
  - apply (H32 0x5C); lia.
  - apply (H32 0x60); lia.
  - apply (H32 0x64); lia.
  - apply (H16 0x3A); lia.
Qed.

Lemma check_marked sb' sb : sb_good sb -> same_head sb' (error_superblock sb) -> check_superblock sb' = Err not_clean.
Proof.
  intros [Hm Hbs Hfi Hpg Hcl Hin Hco Hic Hro _ _ _ _ _ _ _ _] [E1 E2 E3 E4 E5 E6 E7 E8 E9 E10].
  unfold check_superblock. rewrite E1, E2, E3, E4, E5, E6, E7, E8, E9, E10. unfold error_superblock.
  cbn [sb_magic sb_log_block_size sb_first_data_block sb_blocks_per_group sb_clusters_per_group sb_inode_size
    sb_feature_compat sb_feature_incompat sb_feature_ro_compat sb_state set_sb_block_group_nr set_sb_state sb_put].
  by rewrite Hm, Hbs, Hfi, Hpg, Hcl, Hin, Hco, Hic, Hro.
Qed.

Lemma bind_ok_eq {E A B} (m : res E A) a (k : A -> res E B) : m = Ok a -> (m ≫= k) = k a.
Proof. by intros ->. Qed.
Lemma bind_err_eq {E A B} (m : res E A) e (k : A -> res E B) : m = Err e -> (m ≫= k) = Err e.
Proof. by intros ->. Qed.

Lemma parse_image_refused g e :
  2048 <= f_len g -> check_superblock (SuperBlock_read_from (bytes_at g SUPERBLOCK_OFFSET SUPERBLOCK_SIZE)) = Err e ->
  parse_image g = Err e.
Proof.
  intros Hlen He. unfold parse_image.
  rewrite (bind_ok_eq _ (bytes_at g SUPERBLOCK_OFFSET SUPERBLOCK_SIZE)) by by apply file_read_ok. cbv zeta.
  by apply bind_err_eq.
Qed.

(** An image whose first superblock sector is the marked one is refused. *)
Lemma marked_image_refused g sb bs :
  sb_good sb -> SuperBlock_read_from bs = error_superblock sb -> 2048 <= f_len g ->
  bytes_at g 1024 512 = sub_bytes bs 0 512 -> parse_image g = Err not_clean.
Proof.
  intros Hgood Hbs Hlen Hs. apply parse_image_refused; [done|]. apply (check_marked _ sb Hgood).
  rewrite <- Hbs. apply head_fields. by rewrite sub_bytes_at.
Qed.

(** ** The footprint of a plan *)

(** The operations between the two marks. *)
Definition body_ops (plan : GrowPlan) : list DiskOp :=
  map write_bitmap (gp_bitmap_writes plan) ++
  [write_block (gp_resize_dind_block plan) (gp_resize_dind plan)] ++
  map write_bitmap (gp_reserved_gdt_writes plan) ++
  [WriteAt (gp_resize_inode_offset plan) (Inode_write_to (gp_resize_inode plan) (zeros 256));
   WriteAt BLOCK_SIZE (gp_gdt plan)] ++
  concat (map (fun group =>
    let group_start := group * BLOCKS_PER_GROUP in
    [WriteAt ((group_start + 1) * BLOCK_SIZE) (gp_gdt plan);
     write_superblock group_start (gp_final_superblock plan)]) (gp_backup_groups plan)).

Definition mark_ops (f : File) (plan : GrowPlan) : list DiskOp :=
  (if f_len f <? gp_backing_size plan then [SetLen (gp_backing_size plan)] else []) ++
  [write_superblock 0 (gp_error_superblock plan)].

Lemma apply_plan_phases f plan :
  apply_plan f plan =
  mark_ops f plan ++ SyncAll :: (body_ops plan ++ SyncAll :: ([write_superblock 0 (gp_final_superblock plan)] ++ [SyncAll])).
Proof. unfold apply_plan, mark_ops, body_ops. by rewrite <- !app_assoc. Qed.

(** The bytes of the old file system that the body rewrites: the descriptor
    tables and their copies, the bitmap of the last group, the resize inode and
    its double-indirect block. *)
Definition body_byte (img : ParsedImage) (x : Z) : Prop :=
  4096 <= x < (1 + pi_descriptor_span img) * 4096 \/
  (exists d, pi_descriptors img !! Z.to_nat (pi_groups img - 1) = Some d /\
     gd_block_bitmap_lo d * 4096 <= x < (gd_block_bitmap_lo d + 1) * 4096) \/
  pi_resize_dind_block img * 4096 <= x < (pi_resize_dind_block img + 1) * 4096 \/
  pi_resize_inode_offset img <= x < pi_resize_inode_offset img + 256 \/
  (exists g, 1 <= g < pi_groups img /\ has_sparse_super g = true /\
     g * BLOCKS_PER_GROUP * 4096 <= x < (g * BLOCKS_PER_GROUP + 1 + pi_descriptor_span img) * 4096).

Section Footprint.
Context (f : File) (img : ParsedImage) (size : Z) (p : GrowPlan) (nb ng : Z) (gr : Growth).
Context (Hf : byte_file f) (Hp : parsed f img) (Hpl : planned f img size p nb ng gr).

Lemma bitmap_writes_place w :
  w ∈ gp_bitmap_writes p -> zlen (bw_bytes w) = 4096 /\
  (pi_groups img * 32768 <= bw_block w \/
   exists d, pi_descriptors img !! Z.to_nat (pi_groups img - 1) = Some d /\ bw_block w = gd_block_bitmap_lo d).
Proof.
  rewrite (pl_writes _ _ _ _ _ _ _ Hpl). destruct (pl_growth _ _ _ _ _ _ _ Hpl) as (gr0 & He & (bms & Hbms & ->)).
  cbn [gr_writes]. intros [Hw|Hw]%elem_of_app.
  - destruct He as [|d bm' Hlt Hd Hfr Hz Hbits]; cbn [gr_writes] in Hw; [by apply not_elem_of_nil in Hw|].
    apply list_elem_of_singleton in Hw as ->. cbn. split; [done|]. right. by exists d.
  - apply list_elem_of_In, in_concat in Hw as (ws & Hws & Hw). apply list_elem_of_In, list_elem_of_lookup in Hws as (i & Hi).
    apply lookup_zip_with_Some in Hi as (g & bm & -> & Hg & Hbm). destruct (Forall2_lookup_lr _ _ _ _ _ _ Hbms Hg Hbm) as [_ Hl1 _ Hl2 _].
    apply lookup_seqZ in Hg as [-> Hg]. pose proof (parsed_bounds f img Hf Hp) as Hib.
    pose proof (system_blocks_bounds img Hib (pi_groups img + Z.of_nat i)). pose proof (ib_table _ Hib).
    unfold group_writes in Hw. apply list_elem_of_In in Hw. apply elem_of_cons in Hw as [->|Hw%list_elem_of_singleton];
      [|subst w]; cbn [bw_block bw_bytes]; (split; [done|]); left; unfold group_table; lia.
Qed.

Lemma final_superblock_len g : zlen (SuperBlock_write_to g (zeros SUPERBLOCK_SIZE)) = 1024.
Proof. apply zlen_sb_bytes. Qed.

Lemma touch_bitmaps op x : op ∈ map write_bitmap (gp_bitmap_writes p) -> touches op x ->
  pi_groups img * 32768 * 4096 <= x \/
  exists d, pi_descriptors img !! Z.to_nat (pi_groups img - 1) = Some d /\
    gd_block_bitmap_lo d * 4096 <= x < (gd_block_bitmap_lo d + 1) * 4096.
Proof.
  intros (w & -> & Hw)%list_elem_of_fmap Hx. destruct (bitmap_writes_place w Hw) as [Hz Hw'].
  unfold write_bitmap, write_block in Hx. cbn [touches] in Hx. rewrite Hz in Hx. unfold BLOCK_SIZE in Hx.
  destruct Hw' as [Hw'|(d & Hd & Hw')]; [left; lia|]. right. exists d. split; [done|]. lia.
Qed.

Lemma touch_dind x : touches (write_block (gp_resize_dind_block p) (gp_resize_dind p)) x ->
  pi_resize_dind_block img * 4096 <= x < (pi_resize_dind_block img + 1) * 4096.
Proof.
  unfold write_block. cbn [touches]. destruct (pl_dind _ _ _ _ _ _ _ Hpl) as [Hz _].
  rewrite Hz, (pl_dind_block _ _ _ _ _ _ _ Hpl). unfold BLOCK_SIZE. lia.
Qed.

Lemma touch_reserved op x : op ∈ map write_bitmap (gp_reserved_gdt_writes p) -> touches op x ->
  (1 + descriptor_blocks ng 4096 32) * 4096 <= x < (1 + pi_descriptor_span img) * 4096.
Proof.
  intros (w & -> & Hw)%list_elem_of_fmap Hx. apply list_elem_of_lookup in Hw as (i & Hw).
  destruct (Forall2_lookup_r _ _ _ _ _ (pl_reserved _ _ _ _ _ _ _ Hpl) Hw) as (k & [-> Hk]%lookup_seqZ & Hbw & Hz & _).
  unfold write_bitmap, write_block in Hx. cbn [touches] in Hx. rewrite Hz, Hbw in Hx. unfold BLOCK_SIZE in Hx. lia.
Qed.

Lemma touch_inode x :
  touches (WriteAt (gp_resize_inode_offset p) (Inode_write_to (gp_resize_inode p) (zeros 256))) x ->
  pi_resize_inode_offset img <= x < pi_resize_inode_offset img + 256.
Proof.
  cbn [touches]. rewrite zlen_Inode_write, zlen_zeros, (pl_resize_offset _ _ _ _ _ _ _ Hpl); lia.
Qed.

Lemma touch_gdt x : touches (WriteAt BLOCK_SIZE (gp_gdt p)) x -> 4096 <= x < (1 + descriptor_blocks ng 4096 32) * 4096.
Proof.
  cbn [touches]. destruct (planned_gdt _ _ _ _ _ _ _ Hf Hp Hpl) as (Hz & _). rewrite Hz. unfold BLOCK_SIZE. lia.
Qed.

Definition backup_ops : list DiskOp :=
  concat (map (fun group =>
    let group_start := group * BLOCKS_PER_GROUP in
    [WriteAt ((group_start + 1) * BLOCK_SIZE) (gp_gdt p);
     write_superblock group_start (gp_final_superblock p)]) (gp_backup_groups p)).

Lemma touch_backups op x : op ∈ backup_ops -> touches op x ->
  exists g, 1 <= g < ng /\ has_sparse_super g = true /\
    g * 32768 * 4096 <= x < (g * 32768 + 1 + pi_descriptor_span img) * 4096.
Proof.
  pose proof (ib_span _ (parsed_bounds f img Hf Hp)) as Hs. intros Hop Hx.
  apply list_elem_of_In, in_concat in Hop as (ops & Hops & Hop%list_elem_of_In).
  apply list_elem_of_In, list_elem_of_fmap in Hops as (g & -> & Hgb). rewrite (pl_backups _ _ _ _ _ _ _ Hpl) in Hgb.
  apply backup_groups_elem in Hgb as [Hg1 Hsp]. destruct (planned_gdt _ _ _ _ _ _ _ Hf Hp Hpl) as (Hz & _).
  pose proof (pl_capacity _ _ _ _ _ _ _ Hpl) as Hcap. cbv zeta in Hop. change BLOCKS_PER_GROUP with 32768 in *.
  exists g. split; [done|]. split; [done|].
  apply elem_of_cons in Hop as [->|Hop]; [|apply list_elem_of_singleton in Hop as ->]; cbn [touches] in Hx.
  - rewrite Hz in Hx. unfold BLOCK_SIZE in Hx. lia.
  - unfold write_superblock in Hx. cbn [touches] in Hx. rewrite final_superblock_len in Hx.
    replace (g * 32768 =? 0) with false in Hx by lia. unfold BLOCK_SIZE in Hx. lia.
Qed.

Lemma body_touches op x : op ∈ body_ops p -> touches op x -> pi_blocks img * 4096 <= x \/ body_byte img x.
Proof.
  pose proof (parsed_bounds f img Hf Hp) as [Hb Hg Hl Hs Ht _ _]. destruct (planned_sizes _ _ _ _ _ _ _ Hf Hp Hpl) as (_ & _ & Hng & _).
  pose proof (descriptor_blocks_bounds ng ltac:(lia)). pose proof (pl_capacity _ _ _ _ _ _ _ Hpl) as Hcap.
  unfold body_ops. fold backup_ops. rewrite !elem_of_app. intros [Hop|[Hop|[Hop|[Hop|Hop]]]] Hx.
  - destruct (touch_bitmaps op x Hop Hx) as [|Hd]; [left; lia|]. right; right; left. exact Hd.
  - apply list_elem_of_singleton in Hop as ->. right; right; right; left. by apply touch_dind.
  - apply (touch_reserved op) in Hx; [|done]. right; left. lia.
  - apply elem_of_cons in Hop as [->|Hop]; [|apply list_elem_of_singleton in Hop as ->].
    + right; right; right; right; left. by apply touch_inode.
    + apply touch_gdt in Hx. right; left. lia.
  - destruct (touch_backups op x Hop Hx) as (g & Hg1 & Hsp & Hin).
    destruct (decide (g < pi_groups img)); [|left; lia]. right; right; right; right; right. exists g.
    split; [lia|]. split; [done|]. exact Hin.
Qed.
End Footprint.

(** ** The three phases *)

(** The metadata the resizer rewrites lies outside the first block. *)
Definition placed (img : ParsedImage) : Prop :=
  Forall (fun d => 0 < gd_block_bitmap_lo d /\ 0 < gd_inode_table_lo d) (pi_descriptors img).

Lemma resize_inode_dind f sb db span groups ino d :
  validate_resize_inode f sb db span groups ino = Ok d -> d = get_u32 (i_block ino) 52 /\ d <> 0.
Proof.
  unfold validate_resize_inode. intros [_ H]%refuse_bind. apply refuse_bind in H as [Hd H].
  apply orb_false_iff in Hd as [Hd%Z.eqb_neq _]. apply res_bind_ok in H as (b & _ & H). apply res_bind_ok in H as ([] & _ & H).
  cbv zeta in *. injection H as <-. split; [done|exact Hd].
Qed.

Section Phases.
Context (f : File) (img : ParsedImage) (size : Z) (p : GrowPlan) (nb ng : Z) (gr : Growth).
Context (Hf : byte_file f) (Hp : parsed f img) (Hpl : planned f img size p nb ng gr) (Hplaced : placed img).

Lemma resize_offset_placed : 4096 <= pi_resize_inode_offset img.
Proof.
  pose proof (pd_inode_offset _ _ Hp) as H. unfold inode_offset in H. case_match; [done|].
  apply bind_ok_or in H as (d & Hd & [= <-]). destruct (Forall_lookup_1 _ _ _ _ Hplaced Hd) as [_ Ht].
  pose proof (ib_per_group _ (parsed_bounds f img Hf Hp)). rewrite (good_inode_size _ (pd_good _ _ Hp)).
  pose proof (Z.mod_pos_bound (RESIZE_INODE_NUMBER - 1) (sb_inodes_per_group (pi_superblock img)) ltac:(lia)).
  unfold BLOCK_SIZE. lia.
Qed.

Lemma dind_placed : 1 <= pi_resize_dind_block img.
Proof.
  destruct (resize_inode_dind _ _ _ _ _ _ _ (pd_resize _ _ Hp)) as [Hd Hnz]. enough (is_u32 (pi_resize_dind_block img)) as [? _] by lia.
  rewrite Hd. pose proof (pd_inode _ _ Hp) as Hi. unfold read_inode_at in Hi. apply res_bind_ok in Hi as (buf & [_ ->]%file_read_ok & [= <-]).
  pose proof (inode_wf f (pi_resize_inode_offset img) Hf) as Hwf. unfold Inode_wf in Hwf. destruct_and! Hwf.
  match goal with H : is_bytes 60 _ |- _ => destruct H as [Hz Hb] end. apply get_u32_range; [done|lia|lia].
Qed.

Lemma body_past_first_block x : body_byte img x -> 4096 <= x.
Proof.
  pose proof dind_placed. pose proof resize_offset_placed. pose proof (parsed_bounds f img Hf Hp) as [_ Hg _ Hs _ _ _].
  intros [H1|[(d & Hd & H1)|[H1|[H1|(g & Hg1 & _ & H1)]]]]; try lia.
  - destruct (Forall_lookup_1 _ _ _ _ Hplaced Hd) as [Hb _]. lia.
  - unfold BLOCKS_PER_GROUP in H1. lia.
Qed.

Lemma body_keeps_superblock n x : 0 <= x < 2048 -> Forall (fun op => ~ touches op x) (take n (body_ops p)).
Proof.
  intros Hx. apply Forall_take, list.Forall_forall. intros op Hop Ht. pose proof (ib_blocks _ (parsed_bounds f img Hf Hp)).
  destruct (body_touches _ _ _ _ _ _ _ Hf Hp Hpl op x Hop Ht) as [|Hb%body_past_first_block]; lia.
Qed.

Lemma body_no_resize n : Forall (fun op => match op with SetLen _ => False | _ => True end) (take n (body_ops p)).
Proof.
  apply Forall_take. unfold body_ops. rewrite !Forall_app. split_and!.
  - by apply Forall_fmap, Forall_true.
  - by repeat constructor.
  - by apply Forall_fmap, Forall_true.
  - by repeat constructor.
  - apply Forall_concat, Forall_fmap, Forall_true. intros g. by repeat constructor.
Qed.

Lemma body_no_sync : SyncAll ∉ body_ops p.
Proof.
  unfold body_ops. rewrite !elem_of_app. intros [Hop|[Hop|[Hop|[Hop|Hop]]]].
  - by apply list_elem_of_fmap in Hop as (w & ? & _).
  - by apply list_elem_of_singleton in Hop.
  - by apply list_elem_of_fmap in Hop as (w & ? & _).
  - by apply elem_of_cons in Hop as [|Hop%list_elem_of_singleton].
  - apply list_elem_of_In, in_concat in Hop as (ops & Hops & Hop%list_elem_of_In).
    apply list_elem_of_In, list_elem_of_fmap in Hops as (g & -> & _).
    by apply elem_of_cons in Hop as [|Hop%list_elem_of_singleton].
Qed.

(** *** The mark *)

Definition marked_bytes : list Z := sb_bytes (error_superblock (pi_superblock img)).
Definition final_bytes : list Z := sb_bytes (set_sb_block_group_nr 0 (gp_final_superblock p)).

Lemma primary_write sb : write_superblock 0 sb = WriteAt 1024 (sb_bytes (set_sb_block_group_nr 0 sb)).
Proof.
  unfold write_superblock. cbv zeta. change (u16 (0 / BLOCKS_PER_GROUP)) with 0. change (0 =? 0) with true. reflexivity.
Qed.

Lemma mark_write : write_superblock 0 (gp_error_superblock p) = WriteAt 1024 marked_bytes.
Proof. rewrite (pl_error _ _ _ _ _ _ _ Hpl). apply primary_write. Qed.

Lemma final_write : write_superblock 0 (gp_final_superblock p) = WriteAt 1024 final_bytes.
Proof. apply primary_write. Qed.

Lemma superblock_on_disk : sb_bytes (pi_superblock img) = bytes_at f 1024 1024.
Proof.
  rewrite (pd_superblock _ _ Hp). unfold sb_bytes. apply superblock_canonical; [by apply byte_file_at|by apply zlen_bytes_at|by apply zlen_zeros].
Qed.

Lemma marked_tail : sub_bytes marked_bytes 512 512 = bytes_at f 1536 512.
Proof.
  pose proof (parsed_sb_wf f img Hf Hp) as Hwf. pose proof (error_superblock_wf _ Hwf) as Hwf'. unfold marked_bytes, error_superblock.
  unfold set_sb_block_group_nr. rewrite sb_put_second_sector; [|unfold set_sb_state; apply sb_put_wf; try done; unfold SuperBlock_wf in Hwf; destruct_and! Hwf; done|exact Hwf'].
  unfold set_sb_state. rewrite sb_put_second_sector; [|done|apply sb_put_wf; try done; unfold SuperBlock_wf in Hwf; destruct_and! Hwf; done].
  rewrite superblock_on_disk. apply sub_bytes_at; lia.
Qed.

Lemma final_superblock_wf : SuperBlock_wf (gp_final_superblock p).
Proof.
  pose proof (parsed_sb_wf f img Hf Hp) as Hwf. destruct (sb_wf_ranges _ Hwf) as (_ & Hi & _ & Hfb & Hfi & _).
  destruct (planned_sizes _ _ _ _ _ _ _ Hf Hp Hpl) as (Hnb & Hu & Hng & _). pose proof (parsed_bounds f img Hf Hp) as Hib.
  pose proof (ib_groups _ Hib). pose proof (ib_blocks _ Hib). pose proof (ib_span _ Hib). pose proof (ib_per_group _ Hib).
  destruct (planned_growth _ _ _ _ _ _ _ Hf Hp Hpl) as (_ & _ & Hadd).
  pose proof (pl_inodes _ _ _ _ _ _ _ Hpl). pose proof (pl_free_blocks _ _ _ _ _ _ _ Hpl).
  pose proof (pl_free_inodes _ _ _ _ _ _ _ Hpl). pose proof (pl_capacity _ _ _ _ _ _ _ Hpl).
  pose proof (descriptor_blocks_bounds ng ltac:(lia)). rewrite (pl_final _ _ _ _ _ _ _ Hpl). unfold is_u32, u32_max in *.
  pose proof (Z.mul_nonneg_nonneg ng (sb_inodes_per_group (pi_superblock img)) ltac:(lia) ltac:(lia)).
  pose proof (Z.mul_nonneg_nonneg (ng - pi_groups img) (sb_inodes_per_group (pi_superblock img)) ltac:(lia) ltac:(lia)).
  assert (is_u16 (sb_block_group_nr (pi_superblock img))) by (unfold SuperBlock_wf in Hwf; destruct_and! Hwf; done).
  apply sb_put_wf; try done; unfold is_u32, is_u16; lia.
Qed.

Lemma final_tail : sub_bytes final_bytes 512 512 = sub_bytes marked_bytes 512 512.
Proof.
  pose proof (parsed_sb_wf f img Hf Hp) as Hwf. pose proof final_superblock_wf as Hwf'. rewrite marked_tail.
  unfold final_bytes, set_sb_block_group_nr. rewrite sb_put_second_sector; [|done|].
  2:{ apply sb_put_wf; try done; unfold SuperBlock_wf in Hwf'; destruct_and! Hwf'; done. }
  rewrite (pl_final _ _ _ _ _ _ _ Hpl) in *. rewrite sb_put_second_sector by done.
  rewrite superblock_on_disk. apply sub_bytes_at; lia.
Qed.

(** A superblock written at its place, byte by byte. *)
Lemma written_head h bs : zlen bs = 1024 -> bytes_at (run_op h (WriteAt 1024 bs)) 1024 512 = sub_bytes bs 0 512.
Proof.
  intros Hz. pose proof (bytes_at_op h 1024 bs) as Hop. rewrite Hz in Hop.
  transitivity (sub_bytes (bytes_at (run_op h (WriteAt 1024 bs)) 1024 1024) 0 512); [|by rewrite Hop].
  rewrite sub_bytes_at by lia. f_equal.
Qed.

Lemma written_tail h bs x : zlen bs = 1024 -> 1536 <= x < 2048 ->
  f_data (run_op h (WriteAt 1024 bs)) x = nth (Z.to_nat (x - 1536)) (sub_bytes bs 512 512) 0.
Proof.
  intros Hz Hx. cbn. unfold write_all, write_at. cbn [f_data seek f_pos].
  replace ((1024 <=? x) && (x <? 1024 + zlen bs)) with true by lia.
  rewrite !nth_lookup. f_equal. rewrite lookup_sub by lia. rewrite decide_True by lia. f_equal. lia.
Qed.

Lemma written_other h bs x : zlen bs = 1024 -> x < 1024 \/ 2048 <= x -> f_data (run_op h (WriteAt 1024 bs)) x = f_data h x.
Proof. intros Hz Hx. apply run_op_untouched. cbn. lia. Qed.

Lemma nth_bytes_at h o n i : 0 <= i < n -> nth (Z.to_nat i) (bytes_at h o n) 0 = f_data h (o + i).
Proof. intros Hi. rewrite nth_lookup, lookup_bytes_at by lia. cbn. f_equal. lia. Qed.

Lemma zlen_marked : zlen marked_bytes = 1024.
Proof. apply zlen_sb_bytes. Qed.
Lemma zlen_final : zlen final_bytes = 1024.
Proof. apply zlen_sb_bytes. Qed.

(** The files the mark passes through: the old one, possibly extended, without
    and with the mark. *)
Definition extended (h : File) : Prop := h = f \/ (h = set_len f size /\ f_len f < size).

Lemma extended_facts h : extended h ->
  f_len f <= f_len h /\ forall x, x < f_len f -> f_data h x = f_data f x.
Proof.
  intros [->|[-> Hlt]]; [done|]. cbn. split; [lia|]. intros x Hx. by replace (x <? size) with true by lia.
Qed.

Lemma mark_states n : exists h, extended h /\
  (run_ops f (take n (mark_ops f p)) = h \/ run_ops f (take n (mark_ops f p)) = run_op h (WriteAt 1024 marked_bytes)).
Proof.
  unfold mark_ops. rewrite mark_write, (pl_backing _ _ _ _ _ _ _ Hpl). destruct (Z.ltb_spec (f_len f) size).
  - destruct n as [|[|n]]; cbn [take app run_ops fold_left].
    + exists f. split; [by left|by left].
    + exists (set_len f size). split; [by right|by left].
    + exists (set_len f size). split; [by right|]. right. by rewrite take_nil.
  - exists f. split; [by left|]. destruct n as [|n]; cbn [take app run_ops fold_left]; [by left|]. right. by rewrite take_nil.
Qed.

Lemma mark_done : exists h, extended h /\ size <= f_len h /\ run_ops f (mark_ops f p) = run_op h (WriteAt 1024 marked_bytes).
Proof.
  unfold mark_ops. rewrite mark_write, (pl_backing _ _ _ _ _ _ _ Hpl). destruct (Z.ltb_spec (f_len f) size).
  - exists (set_len f size). split; [by right|]. split; [cbn; lia|done].
  - exists f. split; [by left|]. split; [lia|done].
Qed.

Lemma marked_len h : extended h -> f_len f <= f_len (run_op h (WriteAt 1024 marked_bytes)).
Proof. intros Hh%extended_facts. etransitivity; [apply Hh|]. by apply run_op_len. Qed.

(** An image that carries the mark is refused. *)
Lemma marked_refused g h :
  f_len f <= f_len g -> (forall x, 1024 <= x < 1536 -> f_data g x = f_data (run_op h (WriteAt 1024 marked_bytes)) x) ->
  parse_image g = Err not_clean.
Proof.
  intros Hlen Hx. apply (marked_image_refused g (pi_superblock img) marked_bytes).
  - apply (pd_good _ _ Hp).
  - unfold marked_bytes. by eapply read_sb_bytes, error_superblock_wf, parsed_sb_wf.
  - pose proof (pd_len _ _ Hp). lia.
  - rewrite <- (written_head h marked_bytes zlen_marked). apply bytes_at_ext. intros x Hr. apply Hx. lia.
Qed.

Lemma marked_second_sector h x : extended h -> x < f_len f -> x < 1024 \/ 1536 <= x ->
  f_data (run_op h (WriteAt 1024 marked_bytes)) x = f_data f x.
Proof.
  intros [_ Hd]%extended_facts Hx Hs. destruct (decide (1536 <= x < 2048)) as [Hin|Hout].
  - rewrite written_tail, marked_tail, nth_bytes_at by (apply zlen_marked || lia). f_equal. lia.
  - rewrite written_other by (apply zlen_marked || lia). by apply Hd.
Qed.

(** *** Crashes in the three phases *)

Lemma crash_take d ops m g : crash_image d (take m ops) g ->
  (forall k, exists n, forall x, k * SECTOR <= x < (k + 1) * SECTOR -> f_data g x = f_data (run_ops d (take n ops)) x) /\
  (exists n, f_len g = f_len (run_ops d (take n ops))).
Proof.
  intros [Hs [n Hl]]. split; [|exists (n `min` m)%nat; by rewrite <- take_take].
  intros k. destruct (Hs k) as [n' Hn]. exists (n' `min` m)%nat. by rewrite <- take_take.
Qed.

Lemma crash_in_mark m g : crash_image f (take m (mark_ops f p)) g ->
  (forall x, 0 <= x < f_len f -> f_data g x = f_data f x) \/ parse_image g = Err not_clean.
Proof.
  intros [Hs [nl Hl]]%crash_take.
  assert (f_len f <= f_len g) as Hlen.
  { rewrite Hl. destruct (mark_states nl) as (h & Hh & [->| ->]); [by apply extended_facts|by apply marked_len]. }
  destruct (Hs 2) as [n2 H2]. destruct (mark_states n2) as (h2 & Hh2 & [E2|E2]); rewrite E2 in H2.
  - left. intros x Hx. destruct (decide (1024 <= x < 1536)) as [Hin|Hout].
    + rewrite H2 by (unfold SECTOR; lia). apply extended_facts; [done|lia].
    + destruct (Hs (x / 512)) as [n Hn].
      pose proof (Z.div_mod x 512 ltac:(lia)). pose proof (Z.mod_pos_bound x 512 ltac:(lia)).
      rewrite Hn by (unfold SECTOR; lia). destruct (mark_states n) as (h & Hh & [->| ->]); [apply extended_facts; [done|lia]|].
      apply marked_second_sector; [done|lia|lia].
  - right. apply (marked_refused g h2 Hlen). intros x Hx. apply H2. unfold SECTOR. lia.
Qed.

Lemma body_head n x h : 1024 <= x < 2048 ->
  f_data (run_ops h (take n (body_ops p))) x = f_data h x.
Proof. intros Hx. apply run_ops_untouched, body_keeps_superblock. lia. Qed.

Lemma crash_in_body h m g : extended h ->
  crash_image (run_op h (WriteAt 1024 marked_bytes)) (take m (body_ops p)) g -> parse_image g = Err not_clean.
Proof.
  intros Hh [Hs [nl Hl]]%crash_take. destruct (Hs 2) as [n2 H2]. apply (marked_refused g h).
  - rewrite Hl. etransitivity; [by apply marked_len|]. apply run_ops_len, body_no_resize.
  - intros x Hx. rewrite H2 by (unfold SECTOR; lia). apply body_head. lia.
Qed.

(** The state before the final superblock: body written, mark in place. *)
Lemma before_final h : extended h ->
  let f2 := run_ops (run_op h (WriteAt 1024 marked_bytes)) (body_ops p) in
  f_len f <= f_len f2 /\ f_len (run_op f2 (WriteAt 1024 final_bytes)) = f_len f2 /\
  (forall x, 1024 <= x < 2048 -> f_data f2 x = f_data (run_op h (WriteAt 1024 marked_bytes)) x) /\
  (forall x, x < 1024 \/ 1536 <= x -> f_data (run_op f2 (WriteAt 1024 final_bytes)) x = f_data f2 x).
Proof.
  intros Hh f2.
  assert (forall x, 1024 <= x < 2048 -> f_data f2 x = f_data (run_op h (WriteAt 1024 marked_bytes)) x) as Hhead.
  { intros x Hx. unfold f2. rewrite <- (take_ge (body_ops p) (length (body_ops p))) by done. by apply body_head. }
  assert (f_len f <= f_len f2) as Hlen.
  { unfold f2. etransitivity; [by apply marked_len|]. apply run_ops_len.
    rewrite <- (take_ge (body_ops p) (length (body_ops p))) by done. apply body_no_resize. }
  split; [done|]. split.
  { pose proof (pd_len _ _ Hp). cbn [run_op]. unfold write_all, write_at. cbn [f_len seek f_pos].
    rewrite zlen_final. cbn [Z.eqb]. lia. }
  split; [done|]. intros x Hx. destruct (decide (1536 <= x < 2048)) as [Hin|Hout].
  - rewrite Hhead by lia. rewrite !written_tail by (apply zlen_final || apply zlen_marked || lia). by rewrite final_tail.
  - apply written_other; [apply zlen_final|lia].
Qed.

Lemma crash_in_final h m g : extended h ->
  let f2 := run_ops (run_op h (WriteAt 1024 marked_bytes)) (body_ops p) in
  crash_image f2 (take m [WriteAt 1024 final_bytes]) g ->
  parse_image g = Err not_clean \/
  (f_len g = f_len (run_op f2 (WriteAt 1024 final_bytes)) /\ forall x, f_data g x = f_data (run_op f2 (WriteAt 1024 final_bytes)) x).
Proof.
  intros Hh f2 [Hs [nl Hl]]%crash_take. destruct (before_final h Hh) as (Hlen & Hfl & Hhead & Hother). fold f2 in Hlen, Hfl, Hhead, Hother.
  assert (forall n, run_ops f2 (take n [WriteAt 1024 final_bytes]) = f2 \/
    run_ops f2 (take n [WriteAt 1024 final_bytes]) = run_op f2 (WriteAt 1024 final_bytes)) as Hst.
  { intros [|n]; [by left|]. right. cbn [take]. by rewrite take_nil. }
  assert (f_len g = f_len f2) as Hlg by (rewrite Hl; destruct (Hst nl) as [->| ->]; done).
  destruct (Hs 2) as [n2 H2]. destruct (Hst n2) as [E2|E2]; rewrite E2 in H2.
  - left. apply (marked_refused g h); [lia|]. intros x Hx. rewrite H2 by (unfold SECTOR; lia). apply Hhead. lia.
  - right. split; [lia|]. intros x. destruct (decide (1024 <= x < 1536)) as [Hin|Hout]; [apply H2; unfold SECTOR; lia|].
    destruct (Hs (x / 512)) as [n Hn]. pose proof (Z.div_mod x 512 ltac:(lia)). pose proof (Z.mod_pos_bound x 512 ltac:(lia)).
    rewrite Hn by (unfold SECTOR; lia). destruct (Hst n) as [->| ->]; [|done]. symmetry. apply Hother. lia.
Qed.

Lemma mark_no_sync : SyncAll ∉ mark_ops f p.
Proof.
  unfold mark_ops. rewrite elem_of_app. intros [H|H%list_elem_of_singleton]; [|done].
  case_match; [by apply list_elem_of_singleton in H|by apply not_elem_of_nil in H].
Qed.

Lemma crash_anywhere g :
  crashes f [] (apply_plan f p) g ->
  (forall x, 0 <= x < f_len f -> f_data g x = f_data f x) \/ parse_image g = Err not_clean \/
  (f_len g = f_len (run_ops f (apply_plan f p)) /\ forall x, f_data g x = f_data (run_ops f (apply_plan f p)) x).
Proof.
  rewrite apply_plan_phases. intros H. apply (crashes_until_sync _ _ _ _ _ mark_no_sync) in H as [[m H]|H].
  { apply crash_in_mark in H as [|]; auto. }
  cbn [app] in H. destruct mark_done as (h & Hh & _ & Hm). rewrite Hm in H.
  apply (crashes_until_sync _ _ _ _ _ body_no_sync) in H as [[m H]|H]; [right; left; by eapply crash_in_body|].
  cbn [app] in H. rewrite final_write in *.
  assert (run_ops f (mark_ops f p ++ SyncAll :: (body_ops p ++ SyncAll :: ([WriteAt 1024 final_bytes] ++ [SyncAll]))) =
    run_op (run_ops (run_op h (WriteAt 1024 marked_bytes)) (body_ops p)) (WriteAt 1024 final_bytes)) as Hrun.
  { rewrite run_ops_app, Hm. change (run_ops ?d (SyncAll :: ?t)) with (run_ops d t). rewrite run_ops_app. done. }
  rewrite Hrun. set (f2 := run_ops _ (body_ops p)) in *.
  apply (crashes_until_sync [WriteAt 1024 final_bytes] _ _ []) in H as [[m H]|H]; [..|by intros ?%list_elem_of_singleton].
  - apply (crash_in_final h m g Hh) in H as [|]; auto.
  - apply crashes_nil in H as [Hs [nl Hl]]. rewrite take_nil in Hl. right; right. split; [done|]. intros x.
    destruct (Hs (x / 512)) as [n Hn]. pose proof (Z.div_mod x 512 ltac:(lia)). pose proof (Z.mod_pos_bound x 512 ltac:(lia)).
    rewrite take_nil in Hn. apply Hn. unfold SECTOR. lia.
Qed.
End Phases.

(** ** Properties *)

(** What a successful growth that changes the image consists of. *)
Lemma grow_image_inv f size o ops :
  byte_file f -> grow_image f size = Ok (o, ops) ->
  exists img, parse_image f = Ok img /\ parsed f img /\
    (changed o = false /\ ops = (if f_len f <? size then [SetLen size] else []) \/
     exists p nb ng gr, planned f img size p nb ng gr /\ ops = apply_plan f p /\ o = gp_outcome p).
Proof.
  intros Hf H. unfold grow_image in H. case_match; [done|]. apply res_bind_ok in H as (img & Himg & H).
  apply res_bind_ok in H as (p & Hplan & H). exists img. split; [done|]. apply parse_image_parsed in Himg as Hp. split; [done|].
  destruct (changed (gp_outcome p)) eqn:Hch; cbn [negb] in H; injection H as <- <-.
  - right. destruct (plan_grow_planned f img size p Hf Himg Hplan Hch) as (_ & _ & nb & ng & gr & Hpl). by exists p, nb, ng, gr.
  - left. split; [done|].
    destruct (plan_grow_run f img size Hf Hp) as [[e He]|[(p' & nb & ng & Hp' & _ & Hb & _)|(p' & nb & ng & gr & Hp' & Hc & _)]].
    + congruence.
    + assert (p' = p) as -> by congruence. by rewrite Hb.
    + assert (p' = p) as -> by congruence. congruence.
Qed.

(** C3: A crash while an image is grown never leaves a file system that looks
    clean and is not.  Whatever sectors reached the disk since the last sync,
    the image is byte for byte the old one, or the completely grown one, or it
    carries the error mark and the resizer refuses it.  The first superblock
    sector decides, and it changes only between syncs. *)
Theorem grow_crash_safe (f : File) (size : Z) (o : GrowOutcome) (ops : list DiskOp) (g : File)
    (Hf : byte_file f) (Hgrow : grow_image f size = Ok (o, ops)) (Hchanged : changed o = true)
    (Hplaced : forall img, parse_image f = Ok img -> placed img)
    (Hcrash : crashes f [] ops g) :
  (forall x, 0 <= x < f_len f -> f_data g x = f_data f x) \/
  parse_image g = Err (Corrupt "filesystem is not clean") \/
  (f_len g = f_len (run_ops f ops) /\ forall x, f_data g x = f_data (run_ops f ops) x).
Proof.
  destruct (grow_image_inv f size o ops Hf Hgrow) as (img & Himg & Hp & [[Hc _]|(p & nb & ng & gr & Hpl & -> & _)]);
    [congruence|]. by apply (crash_anywhere f img size p nb ng gr Hf Hp Hpl (Hplaced img Himg)).
Qed.

(** C20: Growing leaves every byte of the old file system alone except its
    metadata: the superblocks, the descriptor tables with their copies, the
    block bitmap of the last group, and the resize inode with its
    double-indirect block.  All file contents and directories stay. *)
Theorem grow_preserves_contents (f : File) (size : Z) (o : GrowOutcome) (ops : list DiskOp) (img : ParsedImage) (x : Z)
    (Hf : byte_file f) (Hgrow : grow_image f size = Ok (o, ops)) (Himg : parse_image f = Ok img)
    (Hin : 0 <= x < pi_blocks img * 4096) (Hsuper : ~ 1024 <= x < 2048) (Hmeta : ~ body_byte img x) :
  f_data (run_ops f ops) x = f_data f x.
Proof.
  destruct (grow_image_inv f size o ops Hf Hgrow) as (img' & Himg' & Hp & Hcase). assert (img' = img) as -> by congruence.
  pose proof (proj1 (pd_bytes _ _ Hp)) as Hlen. destruct Hcase as [[_ ->]|(p & nb & ng & gr & Hpl & -> & _)].
  - destruct (Z.ltb_spec (f_len f) size); [|done]. cbn. by replace (x <? size) with true by lia.
  - rewrite apply_plan_phases, run_ops_app. destruct (mark_done f img size p nb ng gr Hpl) as (h & Hh & _ & ->).
    change (run_ops ?d (SyncAll :: ?t)) with (run_ops d t). rewrite run_ops_app.
    change (run_ops ?d (SyncAll :: ?t)) with (run_ops d t). rewrite run_ops_app. rewrite final_write.
    change (run_ops ?d [SyncAll]) with d. change (run_ops ?d [?op]) with (run_op d op).
    rewrite written_other by (apply zlen_final || lia). rewrite run_ops_untouched.
    + rewrite written_other by (apply zlen_marked || lia). eapply extended_facts; [exact Hh|lia].
    + apply list.Forall_forall. intros op Hop Ht. destruct (body_touches f img size p nb ng gr Hf Hp Hpl op x Hop Ht); [lia|done].
Qed.

(** *** Witnesses *)

Lemma sample_placed img plan : sample_facts img plan -> placed img.
Proof.
  intros (_ & _ & _ & _ & _ & _ & Hd & _). unfold placed. apply Forall_lookup. intros i d Hi.
  apply (f_equal (fun l => l !! i)) in Hd. change (@map GroupDescriptor (Z * Z)) with (@fmap list list_fmap GroupDescriptor (Z * Z)) in Hd.
  rewrite list_lookup_fmap, Hi in Hd. destruct i; [|done]. injection Hd as -> ->. lia.
Qed.

(** A crash right after the first superblock has been written out. *)
Lemma grow_crash_safe_witness :
  exists o ops g, grow_image sample_disk sample_target = Ok (o, ops) /\ crashes sample_disk [] ops g /\
    ((forall x, 0 <= x < f_len sample_disk -> f_data g x = f_data sample_disk x) \/
     parse_image g = Err (Corrupt "filesystem is not clean") \/
     (f_len g = f_len (run_ops sample_disk ops) /\ forall x, f_data g x = f_data (run_ops sample_disk ops) x)).
Proof.
  destruct sample_grown as (img & plan & Himg & Hplan & Hfacts & Hch & Hgrow).
  assert (crashes sample_disk [] (apply_plan sample_disk plan) sample_disk) as Hcrash.
  { constructor. split; [|by exists 0%nat]. intros k. by exists 0%nat. }
  exists (gp_outcome plan), (apply_plan sample_disk plan), sample_disk. split; [done|]. split; [done|].
  apply (grow_crash_safe sample_disk sample_target _ _ sample_disk sample_disk_bytes Hgrow Hch); [|exact Hcrash].
  intros img' Himg'. assert (img' = img) as -> by congruence. by eapply sample_placed.
Defined.

(** A byte of the journal. *)
Lemma grow_preserves_contents_witness :
  exists o ops, grow_image sample_disk sample_target = Ok (o, ops) /\
    f_data (run_ops sample_disk ops) (3000 * 4096) = f_data sample_disk (3000 * 4096).
Proof.
  destruct sample_grown as (img & plan & Himg & Hplan & Hfacts & Hch & Hgrow).
  exists (gp_outcome plan), (apply_plan sample_disk plan). split; [done|].
  destruct Hfacts as (Hb & Hg & Hs & Hd & Hi & _ & Hds & _).
  apply (grow_preserves_contents sample_disk sample_target _ _ img (3000 * 4096) sample_disk_bytes Hgrow Himg); [lia|lia|].
  intros [H|[(d & Hl & H)|[H|[H|(g & Hg' & _)]]]]; [lia| |lia..].
  rewrite Hg in Hl. apply (f_equal (fun l => l !! 0%nat)) in Hds.
  change (@map GroupDescriptor (Z * Z)) with (@fmap list list_fmap GroupDescriptor (Z * Z)) in Hds.
  rewrite list_lookup_fmap in Hds. change (Z.to_nat (1 - 1)) with 0%nat in Hl. rewrite Hl in Hds.
  injection Hds as Hbb _. lia.
Defined.
