(* ===== verification/ResizerReopen.v ===== *)
(** A grown image is accepted again: [parse_image] reads back from the disk what
    [plan_grow] computed, provided the metadata of the image does not overlap. *)

From stdpp Require Import strings.
From S2P Require Import Prelude Bytes Types Checksum Layout Errors Disk Tables Extent Geometry Canonical Resizer ResizerFacts ResizerSample ResizerPlan ResizerCrash.

Open Scope string_scope.
Open Scope list_scope.
Open Scope Z_scope.

(** ** What the validation of the journal reads *)

(** The leaf blocks of a tree of depth 1. *)
Definition index_parts (ino : Inode) : list (Z * Z) :=
  let header : ExtentHeader := read_at 0 (i_block ino) in
  if eh_depth header =? 1 then
    map (fun i => (u64 (ExtentIndex_leaf (read_at (12 + 12 * Z.of_nat i) (i_block ino)) * 4096), 4096))
      (seq 0 (Z.to_nat (eh_entries header)))
  else [].

Definition journal_parts (f : File) (img : ParsedImage) : list (Z * Z) :=
  match inode_offset (pi_descriptors img) (pi_superblock img) JOURNAL_INODE_NUMBER with
  | Ok off =>
      (off, 256) ::
      match read_inode_at f off with
      | Ok ino =>
          index_parts ino ++
          match parse_extents ino BLOCK_SIZE f with
          | Ok (r :: _) => [(r.1 * 4096, 4096)]
          | _ => []
          end
      | _ => []
      end
  | _ => []
  end.

(** [h] is at least as long as [f] and agrees with it on the given parts. *)
Definition agrees (f h : File) (parts : list (Z * Z)) : Prop :=
  f_len f <= f_len h /\ forall a n x, (a, n) ∈ parts -> a <= x < a + n -> f_data h x = f_data f x.

Lemma agrees_bytes f h parts a n : agrees f h parts -> (a, n) ∈ parts -> bytes_at h a n = bytes_at f a n.
Proof. intros [_ H] Hin. apply bytes_at_ext. intros x Hx. by eapply H. Qed.

Lemma agrees_read f h parts a n bs :
  agrees f h parts -> (a, n) ∈ parts -> file_read_at f a n = Ok bs -> file_read_at h a n = Ok bs.
Proof.
  intros Ha Hin [Hl ->]%file_read_ok. apply file_read_ok. split; [destruct Ha; lia|]. symmetry. by eapply agrees_bytes.
Qed.

Lemma agrees_leaf f h parts index rs :
  agrees f h parts -> (u64 (ExtentIndex_leaf index * 4096), 4096) ∈ parts ->
  parse_leaf_block index 4096 f = Ok rs -> parse_leaf_block index 4096 h = Ok rs.
Proof.
  intros Ha Hin. unfold parse_leaf_block. cbv zeta. set (o := u64 _) in *. clearbody o.
  unfold seek_start. destruct (o <=? i64_max); [|done]. rewrite vec_capacity_small by (unfold i64_max; lia).
  cbn [map_err mbind res_bind]. destruct (Z_le_gt_dec (o + 4096) (f_len f)) as [Hl|Hl].
  - rewrite !read_exact_seek by (destruct Ha; lia). cbn [map_err mbind res_bind].
    rewrite (agrees_bytes _ _ _ _ _ Ha Hin). intros H. exact H.
  - unfold read_exact at 1. cbn [f_pos f_len seek]. by replace (o + 4096 <=? f_len f) with false by lia.
Qed.

Lemma agrees_extents f h ino rs :
  agrees f h (index_parts ino) -> parse_extents ino BLOCK_SIZE f = Ok rs -> parse_extents ino BLOCK_SIZE h = Ok rs.
Proof.
  unfold parse_extents, index_parts. cbv zeta. change BLOCK_SIZE with 4096. set (hd := read_at 0 (i_block ino) : ExtentHeader).
  destruct (negb (eh_magic hd =? EXTENT_HEADER_MAGIC)); [done|]. destruct (eh_depth hd =? 0); [done|].
  destruct (eh_depth hd =? 1); [|done]. unfold parse_depth1.
  assert (forall n k rs, agrees f h (map (fun i => (u64 (ExtentIndex_leaf (read_at (12 + 12 * Z.of_nat i) (i_block ino)) * 4096), 4096)) (seq k n)) ->
    parse_indices n (12 + 12 * Z.of_nat k) (i_block ino) 4096 f = Ok rs ->
    parse_indices n (12 + 12 * Z.of_nat k) (i_block ino) 4096 h = Ok rs) as H.
  { clear rs. induction n as [|n IH]; intros k rs Ha Hr; [done|]. cbn [parse_indices seq map] in *. case_match; [done|].
    apply res_bind_ok in Hr as (here & Hh & Hr). apply res_bind_ok in Hr as (rest & Hr & [= <-]).
    apply res_bind_ok. exists here. split; [eapply agrees_leaf; [exact Ha|left|done]|].
    replace (12 + 12 * Z.of_nat k + 12) with (12 + 12 * Z.of_nat (S k)) in * by lia.
    apply res_bind_ok. exists rest. split; [|done]. apply IH; [|done].
    destruct Ha as [Hl Ha]. split; [done|]. intros a m x Hin Hx. eapply Ha; [by right|done]. }
  intros Ha Hr. apply (H _ 0%nat rs); [exact Ha|exact Hr].
Qed.

Lemma agrees_incl f h p q : (forall y, y ∈ p -> y ∈ q) -> agrees f h q -> agrees f h p.
Proof. intros Hi [Hl Ha]. split; [done|]. intros a n x Hin. by apply Ha, Hi. Qed.

(** The journal is still accepted when the parts it was read from are the same. *)
Lemma agrees_journal f h img ds sb :
  agrees f h (journal_parts f img) ->
  inode_offset ds sb JOURNAL_INODE_NUMBER = inode_offset (pi_descriptors img) (pi_superblock img) JOURNAL_INODE_NUMBER ->
  sb_uuid sb = sb_uuid (pi_superblock img) ->
  validate_clean_journal f (pi_descriptors img) (pi_superblock img) = Ok tt -> validate_clean_journal h ds sb = Ok tt.
Proof.
  intros Ha Hoff Hu H. unfold validate_clean_journal in *. rewrite Hoff, Hu. unfold journal_parts in Ha.
  apply res_bind_ok in H as (off & Ho & H). rewrite Ho in Ha. apply res_bind_ok. exists off. split; [done|].
  apply res_bind_ok in H as (ino & Hi & H). rewrite Hi in Ha. apply res_bind_ok. exists ino. split.
  { unfold read_inode_at in *. apply res_bind_ok in Hi as (buf & Hb & [= <-]). apply res_bind_ok. exists buf. split; [|done].
    eapply agrees_read; [exact Ha|left|done]. }
  apply res_bind_ok in H as ([] & Hr & H). apply res_bind_ok. exists tt. split; [done|].
  apply res_bind_ok in H as (rs & He & H). destruct (parse_extents ino BLOCK_SIZE f) as [rs'|e|] eqn:Hp; [|done..].
  cbn [map_err] in He. injection He as ->. apply res_bind_ok. exists rs. split.
  { erewrite agrees_extents; [done| |exact Hp]. eapply agrees_incl; [|exact Ha]. intros y Hy. right. apply elem_of_app. by left. }
  apply res_bind_ok in H as ([] & Hm & H). apply res_bind_ok. exists tt. split; [done|].
  apply bind_ok_or in H as (first & Hfst & H). destruct rs as [|r rs]; [done|]. injection Hfst as ->. cbn [ok_or head mbind res_bind].
  apply res_bind_ok in H as (block & Hb & H). apply res_bind_ok. exists block. split; [|done].
  unfold read_block in *. eapply agrees_read; [exact Ha| |done]. right. apply elem_of_app. right. left.
Qed.

(** ** The resize inode *)

Lemma foldM_checks {E A} (body : A -> res E unit) l :
  (forall a, a ∈ l -> body a = Ok tt) -> foldM (fun _ a => body a) tt l = Ok tt.
Proof.
  induction l as [|a l IH]; intros H; [done|]. cbn [foldM]. rewrite H by left. apply IH. intros b Hb. apply H. by right.
Qed.

Lemma foldM_checked {E A} (body : A -> res E unit) l u :
  foldM (fun _ a => body a) u l = Ok tt -> forall a, a ∈ l -> exists v, body a = Ok v.
Proof.
  revert u. induction l as [|a l IH]; intros u H b Hb; [by apply not_elem_of_nil in Hb|]. cbn [foldM] in H.
  apply res_bind_ok in H as (v & Hv & H). apply elem_of_cons in Hb as [->|Hb]; [by exists v|]. by eapply IH.
Qed.

Lemma backup_pointer_eq primary g :
  0 <= primary <= 2048 -> 0 <= g < 131072 -> backup_pointer primary g = Ok (primary + g * 32768).
Proof.
  intros Hp Hg. unfold backup_pointer. change BLOCKS_PER_GROUP with 32768. rewrite Z.min_r by (unfold u32_max; lia).
  apply ok_or_ok, checked_add_some. unfold u32_max. lia.
Qed.

Lemma validate_backup_pointers_intro ps primary gs :
  0 <= primary <= 2048 -> zlen ps = 4096 -> zlen gs <= 1024 -> Forall (fun g => 0 <= g < 131072) gs ->
  points primary gs ps -> validate_backup_pointers ps primary gs = Ok tt.
Proof.
  intros Hp Hz Hl Hgs Hpt. unfold validate_backup_pointers.
  apply (foldM_checks (fun entry : nat * Z => expected_backup ← backup_pointer primary entry.2;
    found ← get_le32 ps (Z.of_nat entry.1 * 4);
    refuse (negb (found =? expected_backup)) (Corrupt "resize inode backup pointer mismatch"))).
  intros [i g] Hin%imap_pair_elem. cbn [fst snd]. rewrite (backup_pointer_eq primary g Hp) by by apply (Forall_lookup_1 _ _ _ _ Hgs Hin).
  cbn [mbind res_bind]. unfold get_le32. apply lookup_lt_Some in Hin as Hlt. unfold zlen in Hl.
  replace (Z.of_nat i * 4 + 4 <=? zlen ps) with true by lia. cbn [mbind res_bind].
  rewrite (Hpt i g Hin). apply refuse_ok. by rewrite Z.eqb_refl.
Qed.

Record resize_inode_good (sb : SuperBlock) (ino : Inode) (dind : Z) : Prop := mk_resize_inode_good {
  rg_mode : Z.land (i_mode ino) TYPE_MASK = S_IFREG;
  rg_links : i_links_count ino = 1;
  rg_flags : i_flags ino = 0;
  rg_dind : dind = get_u32 (i_block ino) 52;
  rg_nonzero : dind <> 0;
  rg_inside : dind < sb_blocks_count_lo sb
}.

Lemma resize_inode_inv f sb db span groups ino dind :
  validate_resize_inode f sb db span groups ino = Ok dind ->
  resize_inode_good sb ino dind /\ dind * 4096 + 4096 <= f_len f /\
  forall i, db <= i < span -> (1 + i) * 4096 + 4096 <= f_len f.
Proof.
  unfold validate_resize_inode. intros [Hi H]%refuse_bind. cbv zeta in H. apply refuse_bind in H as [Hd H].
  apply res_bind_ok in H as (b & [Hb _]%read_block_ok & H). apply res_bind_ok in H as ([] & Hloop & [= <-]).
  rewrite !orb_false_iff, !negb_false_iff, !Z.eqb_eq in Hi. rewrite orb_false_iff, Z.eqb_neq, Z.leb_gt in Hd.
  destruct Hi as [[? ?] ?], Hd as [? ?]. split; [done|]. split; [done|]. intros i Hi.
  destruct (foldM_checked _ _ _ Hloop i) as (v & Hv); [apply elem_of_seqZ; lia|].
  apply res_bind_ok in Hv as (found & _ & Hv). apply refuse_bind in Hv as [_ Hv].
  by apply res_bind_ok in Hv as (ps & [Hps _]%read_block_ok & _).
Qed.

Lemma resize_inode_intro f sb db span groups ino dind :
  resize_inode_good sb ino dind -> dind * 4096 + 4096 <= f_len f -> 0 <= db -> span <= 1024 -> groups <= 131072 ->
  (forall i, db <= i < span ->
     get_u32 (bytes_at f (dind * 4096) 4096) (i * 4) = 1 + i /\
     (1 + i) * 4096 + 4096 <= f_len f /\ points (1 + i) (backup_groups groups) (bytes_at f ((1 + i) * 4096) 4096)) ->
  validate_resize_inode f sb db span groups ino = Ok dind.
Proof.
  intros [Hm Hl Hfl Hd Hnz Hin] Hlen Hdb Hspan Hg Hpt. unfold validate_resize_inode. apply refuse_bind.
  split; [by rewrite Hm, Hl, Hfl|]. cbv zeta. change (EXT2_DIND_BLOCK * 4) with 52. rewrite <- Hd.
  apply refuse_bind. split; [rewrite orb_false_iff, Z.eqb_neq, Z.leb_gt; done|].
  apply res_bind_ok. eexists. split; [apply read_block_ok; by split|].
  apply res_bind_ok. exists tt. split; [|done].
  apply (foldM_checks (fun index => found ← get_le32 (bytes_at f (dind * 4096) 4096) (index * 4);
    _ ← refuse (negb (found =? 1 + index)) (Corrupt "resize inode GDT pointer mismatch");
    pointers ← read_block f (1 + index); validate_backup_pointers pointers (1 + index) (backup_groups groups))).
  intros i Hi%elem_of_seqZ. destruct (Hpt i ltac:(lia)) as (Hget & Hlen' & Hp).
  unfold get_le32. rewrite zlen_bytes_at by lia. replace (i * 4 + 4 <=? 4096) with true by lia. cbn [mbind res_bind].
  rewrite Hget. apply refuse_bind. split; [by rewrite Z.eqb_refl|].
  apply res_bind_ok. eexists. split; [apply read_block_ok; by split|].
  apply validate_backup_pointers_intro; [lia|by apply zlen_bytes_at|by apply backup_groups_short| |done].
  apply list.Forall_forall. intros g [Hr _]%backup_groups_elem. lia.
Qed.

(** ** The grown image on disk *)

(** Metadata that does not overlap: what a sound image satisfies. *)
Definition table_byte (img : ParsedImage) (x : Z) : Prop :=
  4096 <= x < (1 + pi_descriptor_span img) * 4096 \/
  (exists g, 1 <= g < pi_groups img /\ has_sparse_super g = true /\
     g * BLOCKS_PER_GROUP * 4096 <= x < (g * BLOCKS_PER_GROUP + 1 + pi_descriptor_span img) * 4096).

Record separate (f : File) (img : ParsedImage) : Prop := mk_separate {
  sep_placed : placed img;
  sep_inode : forall x, pi_resize_inode_offset img <= x < pi_resize_inode_offset img + 256 ->
    x < pi_blocks img * 4096 /\ ~ table_byte img x;
  sep_dind : forall x, pi_resize_dind_block img * 4096 <= x < (pi_resize_dind_block img + 1) * 4096 ->
    ~ table_byte img x /\ ~ (pi_resize_inode_offset img <= x < pi_resize_inode_offset img + 256);
  sep_journal : forall a n x, (a, n) ∈ journal_parts f img -> a <= x < a + n ->
    0 <= x < pi_blocks img * 4096 /\ ~ 1024 <= x < 2048 /\ ~ body_byte img x
}.

Section Grown.
Context (f : File) (img : ParsedImage) (size : Z) (p : GrowPlan) (nb ng : Z) (gr : Growth).
Context (Hf : byte_file f) (Hp : parsed f img) (Hpl : planned f img size p nb ng gr) (Hsep : separate f img).

Definition grown : File := run_ops f (apply_plan f p).

Lemma grown_state : exists h, extended f size h /\ size <= f_len h /\
  grown = run_op (run_ops (run_op h (WriteAt 1024 (marked_bytes img))) (body_ops p)) (WriteAt 1024 (final_bytes p)).
Proof.
  destruct (mark_done f img size p nb ng gr Hpl) as (h & Hh & Hs & Hm). exists h. split; [done|]. split; [done|].
  unfold grown. rewrite apply_plan_phases, run_ops_app, Hm. change (run_ops ?d (SyncAll :: ?t)) with (run_ops d t).
  rewrite run_ops_app, final_write. done.
Qed.

Lemma grown_len : nb * 4096 <= size /\ size <= f_len grown /\ f_len f <= f_len grown.
Proof.
  destruct grown_state as (h & Hh & Hs & ->).
  destruct (before_final f img size p nb ng gr Hf Hp Hpl (sep_placed _ _ Hsep) h Hh) as (Hl & -> & _ & _).
  destruct (planned_sizes _ _ _ _ _ _ _ Hf Hp Hpl) as (Hnb & _).
  pose proof (Z.mul_div_le size 4096 ltac:(lia)). split; [lia|]. split; [|done]. transitivity (f_len h); [lia|].
  etransitivity; [apply (run_op_len h (WriteAt 1024 (marked_bytes img))); done|]. apply run_ops_len.
  rewrite <- (take_ge (body_ops p) (length (body_ops p))) by done. apply body_no_resize.
Qed.

(** The last write to a place is what is found there. *)
Lemma written_in_body pre o bs post :
  body_ops p = pre ++ WriteAt o bs :: post -> 2048 <= o ->
  (forall op x, op ∈ post -> touches op x -> ~ o <= x < o + zlen bs) ->
  bytes_at grown o (zlen bs) = bs.
Proof.
  intros Hb Ho Hpost. destruct grown_state as (h & _ & _ & ->). rewrite Hb, run_ops_app.
  change (run_ops ?d (?op :: ?t)) with (run_ops (run_op d op) t). set (d := run_ops _ pre). clearbody d.
  rewrite <- (bytes_at_op d o bs) at 3. apply bytes_at_ext. intros x Hx.
  rewrite written_other by (apply zlen_final || lia). apply run_ops_untouched, list.Forall_forall.
  intros op Hop Ht. by apply (Hpost op x Hop Ht).
Qed.

Lemma grown_sizes : pi_blocks img < nb /\ 1 <= descriptor_blocks ng 4096 32 <= pi_descriptor_span img /\
  1 <= pi_descriptor_span img <= 1024 /\ 1 <= ng <= 131072 /\ pi_groups img <= ng.
Proof.
  destruct (planned_sizes _ _ _ _ _ _ _ Hf Hp Hpl) as (Hnb & _ & Hng & _). pose proof (parsed_bounds f img Hf Hp) as Hib.
  pose proof (ib_groups _ Hib). pose proof (ib_span _ Hib). pose proof (descriptor_blocks_bounds ng ltac:(lia)).
  pose proof (pl_capacity _ _ _ _ _ _ _ Hpl). lia.
Qed.

(** A backup area is a table of the old image or lies past its end. *)
Lemma backup_touches op x : op ∈ backup_ops p -> touches op x ->
  (1 + pi_descriptor_span img) * 4096 <= x /\ (table_byte img x \/ pi_blocks img * 4096 <= x).
Proof.
  intros Hop Hx. destruct (touch_backups f img size p nb ng gr Hf Hp Hpl op x Hop Hx) as (g & Hg & Hsp & Hin).
  destruct grown_sizes as (_ & _ & Hs & _). pose proof (ib_last _ (parsed_bounds f img Hf Hp)).
  split; [lia|]. destruct (decide (g < pi_groups img)); [|right; lia]. left. right. exists g. split; [lia|]. by split.
Qed.

Lemma gdt_on_disk : bytes_at grown 4096 (descriptor_blocks ng 4096 32 * 4096) = gp_gdt p.
Proof.
  destruct (planned_gdt _ _ _ _ _ _ _ Hf Hp Hpl) as (Hz & _). rewrite <- Hz. destruct grown_sizes as (_ & Hdb & _).
  eapply (written_in_body _ _ _ (backup_ops p)).
  - unfold body_ops. fold (backup_ops p). rewrite !app_assoc. rewrite <- (app_assoc _ _ (backup_ops p)).
    change ([?a; ?b] ++ ?l) with ([a] ++ b :: l). rewrite app_assoc. reflexivity.
  - lia.
  - intros op x Hop Hx Hin. apply backup_touches in Hx as [Hx _]; [|done]. lia.
Qed.

Lemma inode_on_disk :
  bytes_at grown (pi_resize_inode_offset img) 256 = Inode_write_to (gp_resize_inode p) (zeros 256).
Proof.
  assert (zlen (Inode_write_to (gp_resize_inode p) (zeros 256)) = 256) as Hz by (rewrite zlen_Inode_write; by apply zlen_zeros).
  rewrite <- Hz at 1. rewrite <- (pl_resize_offset _ _ _ _ _ _ _ Hpl).
  pose proof (resize_offset_placed f img Hf Hp (sep_placed _ _ Hsep)). destruct grown_sizes as (_ & Hdb & _).
  eapply (written_in_body _ _ _ (WriteAt BLOCK_SIZE (gp_gdt p) :: backup_ops p)).
  - unfold body_ops. fold (backup_ops p). rewrite !app_assoc. rewrite <- (app_assoc _ _ (backup_ops p)). reflexivity.
  - rewrite (pl_resize_offset _ _ _ _ _ _ _ Hpl). lia.
  - intros op x Hop Hx Hin. rewrite Hz, (pl_resize_offset _ _ _ _ _ _ _ Hpl) in Hin. destruct (sep_inode _ _ Hsep x Hin) as [Hb Ht].
    apply elem_of_cons in Hop as [->|Hop].
    + apply (touch_gdt f img size p nb ng gr Hf Hp Hpl) in Hx. apply Ht. left. lia.
    + apply backup_touches in Hx as [_ [?|?]]; [done|lia|done].
Qed.

(** The operations after the reserved blocks. *)
Definition after_reserved : list DiskOp :=
  WriteAt (gp_resize_inode_offset p) (Inode_write_to (gp_resize_inode p) (zeros 256)) ::
  WriteAt BLOCK_SIZE (gp_gdt p) :: backup_ops p.

Lemma after_reserved_touches op x : op ∈ after_reserved -> touches op x ->
  pi_resize_inode_offset img <= x < pi_resize_inode_offset img + 256 \/
  4096 <= x < (1 + descriptor_blocks ng 4096 32) * 4096 \/
  (1 + pi_descriptor_span img) * 4096 <= x /\ (table_byte img x \/ pi_blocks img * 4096 <= x).
Proof.
  unfold after_reserved. intros Hop Hx. apply elem_of_cons in Hop as [->|Hop]; [left; by eapply touch_inode|].
  apply elem_of_cons in Hop as [->|Hop]; [right; left; by eapply touch_gdt|]. right; right. by apply (backup_touches op).
Qed.

Lemma dind_on_disk : bytes_at grown (pi_resize_dind_block img * 4096) 4096 = gp_resize_dind p.
Proof.
  destruct (pl_dind _ _ _ _ _ _ _ Hpl) as [Hz _]. rewrite <- Hz at 2. rewrite <- (pl_dind_block _ _ _ _ _ _ _ Hpl).
  pose proof (dind_placed f img Hf Hp). destruct grown_sizes as (_ & Hdb & _).
  destruct (resize_inode_inv _ _ _ _ _ _ _ (pd_resize _ _ Hp)) as [Hgood _]. pose proof (rg_inside _ _ _ Hgood) as Hin.
  rewrite <- (pd_blocks _ _ Hp) in Hin.
  eapply (written_in_body _ _ _ (map write_bitmap (gp_reserved_gdt_writes p) ++ after_reserved)).
  - unfold body_ops, after_reserved. fold (backup_ops p). reflexivity.
  - rewrite (pl_dind_block _ _ _ _ _ _ _ Hpl). lia.
  - intros op x Hop Hx Hr. rewrite Hz, (pl_dind_block _ _ _ _ _ _ _ Hpl) in Hr.
    destruct (sep_dind _ _ Hsep x ltac:(lia)) as [Ht Hi]. apply elem_of_app in Hop as [Hop|Hop].
    + apply (touch_reserved f img size p nb ng gr Hpl op) in Hx; [|done]. apply Ht. left. lia.
    + apply after_reserved_touches in Hx as [?|[?|[_ [?|?]]]]; try done; [apply Ht; left; lia|lia].
Qed.

Lemma reserved_on_disk i : descriptor_blocks ng 4096 32 <= i < pi_descriptor_span img ->
  points (1 + i) (backup_groups ng) (bytes_at grown ((1 + i) * 4096) 4096).
Proof.
  intros Hi. destruct grown_sizes as (_ & Hdb & Hs & _).
  pose proof (pl_reserved _ _ _ _ _ _ _ Hpl) as Hres. set (db := descriptor_blocks ng 4096 32) in *.
  assert (seqZ db (pi_descriptor_span img - db) !! Z.to_nat (i - db) = Some i) as Hl.
  { rewrite lookup_seqZ_lt by lia. f_equal. lia. }
  destruct (Forall2_lookup_l _ _ _ _ _ Hres Hl) as (w & Hw & Hblk & Hz & Hpt).
  assert (bytes_at grown ((1 + i) * 4096) 4096 = bw_bytes w) as ->; [|done].
  rewrite <- Hz at 2. destruct (list_elem_of_split_length _ _ _ Hw) as (l1 & l2 & Hsplit & Hlen).
  eapply (written_in_body (map write_bitmap (gp_bitmap_writes p) ++
    [write_block (gp_resize_dind_block p) (gp_resize_dind p)] ++ map write_bitmap l1) _ _ (map write_bitmap l2 ++ after_reserved)).
  - unfold body_ops, after_reserved. fold (backup_ops p). rewrite Hsplit, map_app, <- !app_assoc. cbn [map app].
    unfold write_bitmap at 3, write_block at 2. rewrite Hblk. reflexivity.
  - lia.
  - intros op x Hop Hx Hr. rewrite Hz in Hr. apply elem_of_app in Hop as [Hop|Hop].
    + apply list_elem_of_fmap in Hop as (w' & -> & Hw'). apply list_elem_of_lookup in Hw' as (j & Hj).
      assert (gp_reserved_gdt_writes p !! (Z.to_nat (i - db) + 1 + j)%nat = Some w') as Hw'.
      { rewrite Hsplit, lookup_app_r by lia. replace (_ - length l1)%nat with (S j) by lia. done. }
      destruct (Forall2_lookup_r _ _ _ _ _ Hres Hw') as (k & [-> Hk]%lookup_seqZ & Hblk' & Hz' & _).
      unfold write_bitmap, write_block in Hx. cbn [touches] in Hx. rewrite Hz', Hblk' in Hx. unfold BLOCK_SIZE in Hx. lia.
    + destruct (after_reserved_touches op x Hop Hx) as [Hi'|[Hg|[Hg _]]]; [|fold db in Hg; lia|lia].
      destruct (sep_inode _ _ Hsep x Hi') as [_ Ht]. apply Ht. left. lia.
Qed.

Lemma superblock_written : bytes_at grown 1024 1024 = final_bytes p.
Proof.
  destruct grown_state as (h & _ & _ & ->). set (d := run_ops _ _). clearbody d.
  pose proof (bytes_at_op d 1024 (final_bytes p)) as H. by rewrite (zlen_final p) in H.
Qed.

Lemma journal_agrees : agrees f grown (journal_parts f img).
Proof.
  split; [apply grown_len|]. intros a n x Hin Hx. destruct (sep_journal _ _ Hsep a n x Hin Hx) as (Hr & Hs & Hb).
  destruct grown_state as (h & Hh & _ & ->). rewrite written_other by (apply zlen_final || lia). rewrite run_ops_untouched.
  - rewrite written_other by (apply zlen_marked || lia). eapply extended_facts; [exact Hh|].
    destruct (pd_bytes _ _ Hp). lia.
  - apply list.Forall_forall. intros op Hop Ht. destruct (body_touches f img size p nb ng gr Hf Hp Hpl op x Hop Ht); [lia|done].
Qed.

(** *** Descriptors *)

Definition same_places (d d' : GroupDescriptor) : Prop :=
  gd_block_bitmap_lo d' = gd_block_bitmap_lo d /\ gd_inode_bitmap_lo d' = gd_inode_bitmap_lo d /\
  gd_inode_table_lo d' = gd_inode_table_lo d.

Lemma grown_old_descriptor i d : pi_descriptors img !! i = Some d ->
  exists d', grown_descriptors img gr !! i = Some d' /\ same_places d d'.
Proof.
  intros Hd. destruct (pl_growth _ _ _ _ _ _ _ Hpl) as (gr0 & He & (bms & _ & ->)). unfold grown_descriptors.
  rewrite list_lookup_imap. cbn [gr_descriptors].
  assert (exists d0, gr_descriptors gr0 !! i = Some d0 /\ same_places d d0) as (d0 & Hd0 & Hs).
  { destruct He as [|dl bm' Hlt Hdl Hfr Hz Hbits]; cbn [gr_descriptors]; [by exists d|].
    destruct (decide (i = Z.to_nat (pi_groups img - 1))) as [->|Hne].
    - rewrite list_lookup_insert_eq by by eapply lookup_lt_Some. eexists. split; [done|]. assert (dl = d) as -> by congruence.
      by destruct d.
    - rewrite list_lookup_insert_ne by done. by exists d. }
  rewrite (lookup_app_l_Some _ _ _ _ Hd0). eexists. split; [done|]. destruct d0. exact Hs.
Qed.

Lemma grown_new_descriptor i d : grown_descriptors img gr !! i = Some d -> pi_groups img <= Z.of_nat i ->
  gd_block_bitmap_lo d < nb /\ gd_inode_bitmap_lo d < nb /\ gd_inode_table_lo d < nb /\
  gd_inode_table_lo d + pi_inode_table_blocks img <= nb.
Proof.
  intros Hd Hi. destruct (planned_growth _ _ _ _ _ _ _ Hf Hp Hpl) as (Hlen & _). pose proof (parsed_bounds f img Hf Hp) as Hib.
  destruct (planned_sizes _ _ _ _ _ _ _ Hf Hp Hpl) as (Hnb & Hu & Hngs & Hng).
  destruct (pl_growth _ _ _ _ _ _ _ Hpl) as (gr0 & He & (bms & Hbms & Hgr)). rewrite Hgr in *.
  unfold grown_descriptors in Hd. rewrite list_lookup_imap in Hd. cbn [gr_descriptors] in *.
  assert (zlen (gr_descriptors gr0) = pi_groups img) as Hl0.
  { unfold zlen in *. rewrite length_app, length_map, length_seqZ in Hlen. lia. }
  destruct ((gr_descriptors gr0 ++ _) !! i) as [d0|] eqn:Hd0; [|done]. injection Hd as <-. unfold zlen in Hl0.
  rewrite lookup_app_r in Hd0 by lia. apply list_lookup_fmap_Some in Hd0 as (g & -> & Hg).
  destruct (Forall2_lookup_l _ _ _ _ _ Hbms Hg) as (bm & _ & Hgood). apply lookup_seqZ in Hg as [-> Hg].
  set (g := pi_groups img + Z.of_nat _) in *. pose proof (gb_fits _ _ _ _ Hgood) as Hfit.
  destruct (group_bounds img Hib nb ng ltac:(lia) g ltac:(lia)) as (Hgb & Hg0 & Hgu & Hin).
  pose proof (system_blocks_bounds img Hib g). unfold group_used in Hfit.
  unfold stamp, new_descriptor, set_gd_checksum, group_table.
  cbn [gd_block_bitmap_lo gd_inode_bitmap_lo gd_inode_table_lo]. pose proof (ib_table _ Hib). lia.
Qed.

Lemma grown_inode_offset sb n off :
  sb_inodes_per_group sb = sb_inodes_per_group (pi_superblock img) -> sb_inode_size sb = sb_inode_size (pi_superblock img) ->
  inode_offset (pi_descriptors img) (pi_superblock img) n = Ok off -> inode_offset (grown_descriptors img gr) sb n = Ok off.
Proof.
  intros Hi Hs H. unfold inode_offset in *. rewrite Hi, Hs. case_match; [done|]. apply bind_ok_or in H as (d & Hd & [= <-]).
  destruct (grown_old_descriptor _ _ Hd) as (d' & Hd' & _ & _ & Ht). apply bind_ok_or. exists d'. split; [done|]. by rewrite Ht.
Qed.

Lemma grown_valid i d : grown_descriptors img gr !! i = Some d ->
  validate_descriptor d nb (sb_inodes_per_group (pi_superblock img)) = Ok tt.
Proof.
  intros Hd. apply validate_descriptor_ok. destruct (pd_table _ _ Hp) as (Ht & _). rewrite <- Ht.
  destruct (decide (pi_groups img <= Z.of_nat i)) as [Hi|Hi]; [by apply (grown_new_descriptor i d)|].
  destruct (parsed_descriptors f img Hf Hp) as [Hl Hds]. unfold zlen in Hl.
  destruct (lookup_lt_is_Some_2 (pi_descriptors img) i ltac:(lia)) as [d0 Hd0].
  destruct (grown_old_descriptor i d0 Hd0) as (d' & Hd' & H1 & H2 & H3). assert (d' = d) as -> by congruence.
  destruct (Hds i d0 Hd0) as [_ [_ Hv]]. apply validate_descriptor_ok in Hv. rewrite <- Ht in Hv.
  destruct grown_sizes as (Hnb & _). lia.
Qed.

(** *** The image read back *)

Definition grown_image : ParsedImage :=
  {| pi_superblock := set_sb_block_group_nr 0 (gp_final_superblock p);
     pi_descriptors := grown_descriptors img gr; pi_descriptor_span := pi_descriptor_span img;
     pi_groups := ng; pi_blocks := nb; pi_inode_table_blocks := pi_inode_table_blocks img;
     pi_resize_inode := gp_resize_inode p; pi_resize_inode_offset := pi_resize_inode_offset img;
     pi_resize_dind_block := pi_resize_dind_block img |}.

Lemma final_fields : gp_final_superblock p =
    sb_put (ng * sb_inodes_per_group (pi_superblock img)) nb
      (sb_free_blocks_count_lo (pi_superblock img) + gr_added gr)
      (sb_free_inodes_count (pi_superblock img) + (ng - pi_groups img) * sb_inodes_per_group (pi_superblock img))
      EXT4_VALID_FS (sb_block_group_nr (pi_superblock img))
      (pi_descriptor_span img - descriptor_blocks ng 4096 32) (pi_superblock img).
Proof. apply (pl_final _ _ _ _ _ _ _ Hpl). Qed.

Lemma grown_good : descriptor_blocks ng 4096 32 < pi_descriptor_span img ->
  sb_good (set_sb_block_group_nr 0 (gp_final_superblock p)).
Proof.
  intros Hres. destruct grown_sizes as (Hnb & _). pose proof (ib_blocks _ (parsed_bounds f img Hf Hp)).
  rewrite final_fields. destruct (pd_good _ _ Hp). constructor; try done; cbn; lia.
Qed.

Lemma grown_resize_inode : Inode_wf (gp_resize_inode p) /\
  resize_inode_good (set_sb_block_group_nr 0 (gp_final_superblock p)) (gp_resize_inode p) (pi_resize_dind_block img).
Proof.
  destruct (pl_resize_inode _ _ _ _ _ _ _ Hpl) as (n & Hn & ->).
  destruct (resize_inode_inv _ _ _ _ _ _ _ (pd_resize _ _ Hp)) as [[Hm Hl Hfl Hd Hnz Hin] _].
  assert (Inode_wf (pi_resize_inode img)) as Hwf.
  { pose proof (pd_inode _ _ Hp) as Hi. unfold read_inode_at in Hi. apply res_bind_ok in Hi as (buf & [_ ->]%file_read_ok & [= <-]).
    by apply inode_wf. }
  split.
  - destruct (pi_resize_inode img). unfold Inode_wf in *. cbn in *. destruct_and! Hwf. by split_and!.
  - rewrite final_fields. rewrite <- (pd_blocks _ _ Hp) in Hin. destruct grown_sizes as (Hnb & _).
    destruct (pi_resize_inode img). constructor; try done. cbn. lia.
Qed.

Lemma grown_descriptors_parsed sb :
  sb_uuid sb = sb_uuid (pi_superblock img) -> sb_inodes_per_group sb = sb_inodes_per_group (pi_superblock img) ->
  parse_descriptors (bytes_at grown 4096 (descriptor_blocks ng 4096 32 * 4096)) sb ng nb = Ok (grown_descriptors img gr).
Proof.
  intros Huu Hipg. destruct grown_sizes as (_ & _ & _ & Hng & _). pose proof (descriptor_blocks_bounds ng ltac:(lia)).
  destruct (planned_gdt _ _ _ _ _ _ _ Hf Hp Hpl) as (Hgz & Hgl & Hgh & Hgwf & Hgsum).
  rewrite gdt_on_disk. apply parse_descriptors_ok; [lia|lia|]. split; [done|]. intros i d Hd. split.
  - rewrite <- (Hgh i d Hd). rewrite read_at_sub; [|cbn; lia|].
    + change (read_from (A := GroupDescriptor)) with GroupDescriptor_read_from. f_equal. f_equal. cbn. lia.
    + apply lookup_lt_Some in Hd. unfold zlen in *. cbn. lia.
  - split; [rewrite Huu; by apply Hgsum|]. rewrite Hipg. by apply (grown_valid i).
Qed.

Lemma grown_resize_valid :
  validate_resize_inode grown (set_sb_block_group_nr 0 (gp_final_superblock p)) (descriptor_blocks ng 4096 32)
    (pi_descriptor_span img) ng (gp_resize_inode p) = Ok (pi_resize_dind_block img).
Proof.
  destruct grown_len as (_ & _ & Hlen). destruct grown_sizes as (_ & Hdb & Hspan & Hng & Hgg).
  destruct (resize_inode_inv _ _ _ _ _ _ _ (pd_resize _ _ Hp)) as (_ & Hl & Hr).
  apply resize_inode_intro; [apply grown_resize_inode|lia|lia|lia|lia|].
  intros i Hi. rewrite dind_on_disk. split; [by apply (pl_dind _ _ _ _ _ _ _ Hpl)|]. split; [|by apply reserved_on_disk].
  pose proof (ib_groups _ (parsed_bounds f img Hf Hp)). pose proof (descriptor_blocks_bounds ng ltac:(lia)).
  pose proof (descriptor_blocks_bounds (pi_groups img) ltac:(lia)). specialize (Hr i ltac:(lia)). lia.
Qed.

Lemma grown_parsed : descriptor_blocks ng 4096 32 < pi_descriptor_span img -> parsed grown grown_image.
Proof.
  intros Hres. destruct grown_len as (Hfits & Hlen & Hlen'). destruct grown_sizes as (Hnb & Hdb & Hspan & Hng & Hgg).
  destruct (planned_sizes _ _ _ _ _ _ _ Hf Hp Hpl) as (_ & Hu & _ & Hnbg). pose proof (ib_blocks _ (parsed_bounds f img Hf Hp)) as Hib.
  assert (group_count nb 0 BLOCKS_PER_GROUP = ng) as Hgc.
  { destruct (group_count_bounds nb) as [Hg1 Hg2]; [lia|]. lia. }
  assert (sb_uuid (set_sb_block_group_nr 0 (gp_final_superblock p)) = sb_uuid (pi_superblock img) /\
    sb_inodes_per_group (set_sb_block_group_nr 0 (gp_final_superblock p)) = sb_inodes_per_group (pi_superblock img) /\
    sb_inode_size (set_sb_block_group_nr 0 (gp_final_superblock p)) = sb_inode_size (pi_superblock img)) as (Huu & Hipg & Hisz)
    by (rewrite final_fields; by split_and!).
  assert ((1 + descriptor_blocks ng 4096 32) * 4096 <= nb * 4096) as Hfit.
  { pose proof (ib_last _ (parsed_bounds f img Hf Hp)). pose proof (pd_gdt _ _ Hp). 
    pose proof (descriptor_blocks_bounds ng ltac:(lia)). destruct (decide (ng = 1)) as [->|]; [|lia].
    assert (pi_groups img = 1) as Hg1 by (pose proof (ib_groups _ (parsed_bounds f img Hf Hp)); lia). lia. }
  constructor; cbn [grown_image pi_superblock pi_descriptors pi_descriptor_span pi_groups pi_blocks pi_inode_table_blocks
    pi_resize_inode pi_resize_inode_offset pi_resize_dind_block].
  - pose proof (pd_len _ _ Hp). lia.
  - rewrite superblock_written. unfold final_bytes. symmetry. apply read_sb_bytes.
    unfold set_sb_block_group_nr. pose proof (final_superblock_wf f img size p nb ng gr Hf Hp Hpl) as Hwf.
    apply sb_put_wf; try done; unfold SuperBlock_wf in Hwf; destruct_and! Hwf; done.
  - by apply grown_good.
  - by rewrite final_fields.
  - unfold u64_max, u32_max in *. lia.
  - rewrite Hgc. split; [done|lia].
  - rewrite Hipg. rewrite final_fields. pose proof (pl_inodes _ _ _ _ _ _ _ Hpl). by split.
  - rewrite final_fields. cbn. lia.
  - lia.
  - apply grown_descriptors_parsed; [by rewrite Huu|by rewrite Hipg].
  - rewrite Hipg. apply (pd_table _ _ Hp).
  - apply grown_inode_offset; [done|done|apply (pd_inode_offset _ _ Hp)].
  - unfold read_inode_at. apply res_bind_ok. eexists. split.
    + apply file_read_ok. split; [|done]. destruct (sep_inode _ _ Hsep (pi_resize_inode_offset img + 255) ltac:(lia)) as [Hin _]. lia.
    + rewrite inode_on_disk. f_equal. apply Inode_read_write; [apply grown_resize_inode|]. rewrite zlen_zeros; lia.
  - apply grown_resize_valid.
  - apply (agrees_journal f grown img); [apply journal_agrees| |done|apply (pd_journal _ _ Hp)].
    pose proof (pd_journal _ _ Hp) as Hj. unfold validate_clean_journal in Hj. apply res_bind_ok in Hj as (off & Hoff & _).
    rewrite Hoff. by apply grown_inode_offset.
Qed.
End Grown.

(** The size chosen does not change when it has been reached. *)
Lemma usable_size_stable img img' req nb ng :
  image_bounds img -> pi_blocks img <= req <= u32_max -> usable_size img req = (nb, ng) ->
  pi_groups img' = ng -> pi_descriptor_span img' = pi_descriptor_span img ->
  pi_inode_table_blocks img' = pi_inode_table_blocks img -> usable_size img' req = (nb, ng).
Proof.
  intros Hib Hreq Hu Hg Hs Ht. destruct (usable_size_spec img Hib req nb ng Hreq Hu) as (Hnb & Hngs & Hngb & _ & _).
  pose proof (ib_groups _ Hib). unfold usable_size in *. rewrite Hg, Hs, Ht. set (gc := group_count req 0 BLOCKS_PER_GROUP) in *.
  destruct (Z.ltb_spec (pi_groups img) gc) as [Hlt|Hge].
  - destruct (negb (req - (gc - 1) * BLOCKS_PER_GROUP =? BLOCKS_PER_GROUP)) eqn:Hpart.
    + destruct (req - (gc - 1) * BLOCKS_PER_GROUP <=? _) eqn:Hsmall; injection Hu as <- <-.
      * replace (gc - 1 <? gc) with true by lia. done.
      * replace (gc <? gc) with false by lia. done.
    + injection Hu as <- <-. replace (gc <? gc) with false by lia. done.
  - injection Hu as <- <-. replace (gc <? gc) with false by lia. done.
Qed.

(** ** Properties *)

(** C9: What the resizer writes, it reads back: a grown image passes all checks
    of the resizer again, with the new number of blocks and groups and the same
    descriptor area, and growing it once more to the same size changes nothing.
    The image must not overlap its own metadata, and reserved descriptor blocks
    must remain. *)
Theorem grown_image_reopens (f : File) (size : Z) (o : GrowOutcome) (ops : list DiskOp) (img : ParsedImage)
    (Hf : byte_file f) (Himg : parse_image f = Ok img) (Hgrow : grow_image f size = Ok (o, ops))
    (Hchanged : changed o = true) (Hsep : separate f img)
    (Hreserve : descriptor_blocks (new_groups o) 4096 32 < pi_descriptor_span img) :
  (exists img', parse_image (run_ops f ops) = Ok img' /\ pi_blocks img' = new_blocks o /\
     pi_groups img' = new_groups o /\ pi_descriptor_span img' = pi_descriptor_span img) /\
  grow_image (run_ops f ops) size =
    Ok ({| old_blocks := new_blocks o; new_blocks := new_blocks o; old_groups := new_groups o; new_groups := new_groups o |}, []).
Proof.
  destruct (grow_image_inv f size o ops Hf Hgrow) as (img' & Himg' & Hp & [[Hc _]|(p & nb & ng & gr & Hpl & -> & Ho)]); [congruence|].
  assert (img' = img) as -> by congruence. rewrite Ho, (pl_outcome _ _ _ _ _ _ _ Hpl) in *. cbn [new_blocks new_groups] in *.
  pose proof (parsed_parse_image _ _ (grown_parsed f img size p nb ng gr Hf Hp Hpl Hsep Hreserve)) as Hparse.
  fold (grown f p). split; [by eexists|].
  unfold grow_image in Hgrow |- *. destruct (negb (size mod BLOCK_SIZE =? 0)); [done|]. rewrite Hparse. cbn [mbind res_bind].
  unfold plan_grow. cbv zeta. pose proof (pl_request _ _ _ _ _ _ _ Hpl) as Hreq. change BLOCK_SIZE with 4096.
  destruct (planned_sizes _ _ _ _ _ _ _ Hf Hp Hpl) as (Hnb & _). cbn [pi_blocks grown_image].
  replace (u32_max <? size / 4096) with false by lia. replace (size / 4096 <? nb) with false by lia.
  rewrite (usable_size_stable img _ _ nb ng (parsed_bounds f img Hf Hp) Hreq (pl_usable _ _ _ _ _ _ _ Hpl)) by done.
  set (oc := {| old_blocks := nb; new_blocks := nb; old_groups := _; new_groups := ng |}).
  assert (changed oc = false) as Hoc by (unfold changed, oc; cbn [old_blocks new_blocks]; by rewrite Z.eqb_refl).
  rewrite Hoc. cbn [negb mbind res_bind gp_outcome gp_backing_size]. rewrite Hoc. cbn [negb].
  destruct (grown_len f img size p nb ng gr Hf Hp Hpl Hsep) as (_ & Hl & _).
  by replace (f_len (grown f p) <? size) with false by lia.
Qed.

(** *** Witness *)

Lemma sample_journal_parts img plan : parse_image sample_disk = Ok img -> sample_facts img plan ->
  journal_parts sample_disk img = [(8 * 4096 + 7 * 256, 256); (3000 * 4096, 4096)].
Proof.
  intros Himg (_ & _ & _ & _ & _ & Hi & Hds & _). unfold journal_parts. apply parse_image_parsed in Himg.
  assert (inode_offset (pi_descriptors img) (pi_superblock img) JOURNAL_INODE_NUMBER = Ok (8 * 4096 + 7 * 256)) as ->.
  { unfold inode_offset. rewrite Hi. change (32000 =? 0) with false. cbv iota zeta.
    change ((JOURNAL_INODE_NUMBER - 1) / 32000) with 0. change ((JOURNAL_INODE_NUMBER - 1) mod 32000) with 7.
    rewrite (good_inode_size _ (pd_good _ _ Himg)). destruct (pi_descriptors img) as [|d ds]; [done|].
    injection Hds as Hb Ht _. change (Z.to_nat 0) with 0%nat. cbn [lookup list_lookup ok_or mbind res_bind]. by rewrite Ht. }
  clear. vm_compute. reflexivity.
Qed.

Lemma sample_separate img plan : parse_image sample_disk = Ok img -> sample_facts img plan -> separate sample_disk img.
Proof.
  intros Himg Hfacts. pose proof (sample_journal_parts _ _ Himg Hfacts) as Hj. pose proof (sample_placed _ _ Hfacts) as Hpl.
  destruct Hfacts as (Hb & Hg & Hs & Hd & Hi & _ & Hds & _).
  assert (forall x, body_byte img x -> 4096 <= x < 8 * 4096 \/ 8 * 4096 + 6 * 256 <= x < 8 * 4096 + 7 * 256) as Hbody.
  { intros x [H|[(d & Hl & H)|[H|[H|(g & Hg' & _)]]]]; try lia. rewrite Hg in Hl. change (Z.to_nat (1 - 1)) with 0%nat in Hl.
    destruct (pi_descriptors img) as [|d0 ds]; [done|]. injection Hl as ->. injection Hds as Hbb _ _. lia. }
  assert (forall x, table_byte img x -> 4096 <= x < 5 * 4096) as Htable.
  { intros x [H|(g & Hg' & _)]; lia. }
  constructor; [done|..].
  - intros x Hx. split; [lia|]. intros Ht%Htable. lia.
  - intros x Hx. split; [|lia]. intros Ht%Htable. lia.
  - intros a n x Hin Hx. rewrite Hj in Hin. apply elem_of_cons in Hin as [[= -> ->]|Hin].
    + split; [lia|]. split; [lia|]. intros Hbb%Hbody. lia.
    + apply list_elem_of_singleton in Hin as [= -> ->]. split; [lia|]. split; [lia|]. intros Hbb%Hbody. lia.
Qed.

Lemma grown_image_reopens_witness :
  exists o ops img', grow_image sample_disk sample_target = Ok (o, ops) /\
    parse_image (run_ops sample_disk ops) = Ok img' /\ pi_blocks img' = 65536 /\
    grow_image (run_ops sample_disk ops) sample_target =
      Ok ({| old_blocks := 65536; new_blocks := 65536; old_groups := 2; new_groups := 2 |}, []).
Proof.
  destruct sample_grown as (img & plan & Himg & Hplan & Hfacts & Hch & Hgrow).
  pose proof (sample_separate _ _ Himg Hfacts) as Hsep. pose proof Hfacts as (_ & _ & Hs & _ & _ & _ & _ & Ho).
  destruct (grown_image_reopens sample_disk sample_target _ _ img sample_disk_bytes Himg Hgrow Hch Hsep)
    as [(img' & Himg' & Hb & _) Hagain].
  - rewrite Ho, Hs. vm_compute. reflexivity.
  - exists (gp_outcome plan), (apply_plan sample_disk plan), img'. rewrite Ho in *. by split_and!.
Defined.
