(* ===== verification/Transitions.v ===== *)
(** The machine lifecycle: [runtime/libvm/src/runtime/transitions.rs] with the
    state of [runtime/libvm/src/store/models/machine.rs].

    [reduce] is the pure transition function every lifecycle change of a
    machine goes through.  Machine ids, run ids and messages are strings,
    times and pids integers.  [step] and [reachable] are the induced
    transition system. *)

From stdpp Require Import strings.
From S2P Require Import Prelude.

(** ** Data *)

Inductive MachineRuntimeState : Type := Stopped | Starting | Running | Stopping | Error.

#[global] Instance MachineRuntimeState_eq_dec : EqDecision MachineRuntimeState.
Proof. solve_decision. Defined.

Definition as_str (s : MachineRuntimeState) : string :=
  match s with
  | Stopped => "stopped" | Starting => "starting" | Running => "running"
  | Stopping => "stopping" | Error => "error"
  end.

Definition parse (value : string) : option MachineRuntimeState :=
  if bool_decide (value = "stopped") then Some Stopped
  else if bool_decide (value = "starting") then Some Starting
  else if bool_decide (value = "running") then Some Running
  else if bool_decide (value = "stopping") then Some Stopping
  else if bool_decide (value = "error") then Some Error
  else None.

Record MachineState : Type := mkMachineState {
  machine_id : string;
  status : MachineRuntimeState;
  vmm_pid : option Z;
  started_at : option Z;
  run_id : option string;
  last_error : option string;
  updated_at : Z
}.

Inductive StartFailure : Type := FailStopped | FailError.

Inductive Event : Type :=
| StartRequested (run : string)
| MonitorReady (run : string) (pid started : Z)
| MonitorObserved (pid : Z) (started : option Z) (run : option string)
| StartFailed (run : string) (failure : StartFailure) (error : option string)
| StopRequested (pid : Z) (started : option Z) (run : option string)
| StopCompleted (pid : Z) (started : option Z) (run : option string) (err : option string)
| ExitObserved (clean : bool) (error : option string)
| MonitorGone (err : option string)
| StartTimedOut.

Inductive TransitionError : Type :=
| AlreadyActive
| NotRunning
| InvalidTransition (state : MachineRuntimeState) (event : string)
| StaleGeneration.

Definition START_TIMEOUT_ERROR : string := "machine start did not leave a live runtime".
Definition EXIT_ERROR : string := "machine runtime exited with an error".

(** ** Transitions *)

Definition replace_runtime (state : MachineState) (st : MachineRuntimeState) (pid started : option Z)
    (run err : option string) (now : Z) : MachineState :=
  {| machine_id := machine_id state; status := st; vmm_pid := pid; started_at := started;
     run_id := run; last_error := err; updated_at := now |}.

Definition is_active (s : MachineRuntimeState) : bool :=
  match s with Starting | Running | Stopping => true | _ => false end.

Definition require_state (actual expected : MachineRuntimeState) (event : string) :
    res TransitionError unit :=
  if bool_decide (actual = expected) then Ok tt else Err (InvalidTransition actual event).

Definition require_run_id (state : MachineState) (run : option string) : res TransitionError unit :=
  match run with
  | Some r => if bool_decide (run_id state = Some r) then Ok tt else Err StaleGeneration
  | None => Ok tt
  end.

Definition require_generation (state : MachineState) (pid : Z) (started : option Z)
    (run : option string) : res TransitionError unit :=
  _ ← require_run_id state run;
  if negb (bool_decide (vmm_pid state = Some pid)) then Err StaleGeneration
  else if bool_decide (is_Some started) && negb (bool_decide (started_at state = started))
  then Err StaleGeneration
  else Ok tt.

Definition start_requested (state : MachineState) (run : string) (now : Z) :
    res TransitionError MachineState :=
  if is_active (status state) then Err AlreadyActive
  else Ok (replace_runtime state Starting None None (Some run) None now).

Definition monitor_ready (state : MachineState) (run : string) (pid started now : Z) :
    res TransitionError MachineState :=
  _ ← require_state (status state) Starting "MonitorReady";
  _ ← require_run_id state (Some run);
  Ok (replace_runtime state Running (Some pid) (Some started) (Some run) None now).

Definition monitor_observed (state : MachineState) (pid : Z) (started : option Z)
    (run : option string) (now : Z) : res TransitionError MachineState :=
  let st := match status state with Starting => Starting | Stopping => Stopping | _ => Running end in
  Ok (replace_runtime state st (Some pid) started run None now).

Definition start_failed (state : MachineState) (run : string) (failure : StartFailure)
    (error : option string) (now : Z) : res TransitionError MachineState :=
  _ ← require_state (status state) Starting "StartFailed";
  _ ← require_run_id state (Some run);
  let st := match failure with FailStopped => Stopped | FailError => Error end in
  Ok (replace_runtime state st None None None error now).

Definition stop_requested (state : MachineState) (pid : Z) (started : option Z)
    (run : option string) (now : Z) : res TransitionError MachineState :=
  match status state with
  | Stopped | Error => Err NotRunning
  | _ =>
      _ ← require_generation state pid started run;
      Ok (replace_runtime state Stopping (Some pid) started run None now)
  end.

Definition stop_completed (state : MachineState) (pid : Z) (started : option Z)
    (run err : option string) (now : Z) : res TransitionError MachineState :=
  _ ← require_state (status state) Stopping "StopCompleted";
  _ ← require_generation state pid started run;
  Ok (replace_runtime state Stopped None None None err now).

Definition exit_observed (state : MachineState) (clean : bool) (error : option string) (now : Z) :
    res TransitionError MachineState :=
  let '(st, err) := if clean then (Stopped, None) else (Error, Some (default EXIT_ERROR error)) in
  Ok (replace_runtime state st None None None err now).

Definition monitor_gone (state : MachineState) (err : option string) (now : Z) :
    res TransitionError MachineState :=
  let st := match status state with Error => Error | _ => Stopped end in
  Ok (replace_runtime state st None None None err now).

Definition start_timed_out (state : MachineState) (now : Z) : res TransitionError MachineState :=
  _ ← require_state (status state) Starting "StartTimedOut";
  Ok (replace_runtime state Error None None None (Some START_TIMEOUT_ERROR) now).

Definition reduce (state : MachineState) (event : Event) (now : Z) : res TransitionError MachineState :=
  match event with
  | StartRequested run => start_requested state run now
  | MonitorReady run pid started => monitor_ready state run pid started now
  | MonitorObserved pid started run => monitor_observed state pid started run now
  | StartFailed run failure error => start_failed state run failure error now
  | StopRequested pid started run => stop_requested state pid started run now
  | StopCompleted pid started run err => stop_completed state pid started run err now
  | ExitObserved clean error => exit_observed state clean error now
  | MonitorGone err => monitor_gone state err now
  | StartTimedOut => start_timed_out state now
  end.

(** ** Specification *)

(** The run an event claims to belong to matches the recorded one.  Facts not
    claimed ([None]) are not compared. *)
Definition same_run (state : MachineState) (run : option string) : Prop :=
  match run with Some r => run_id state = Some r | None => True end.

Definition same_generation (state : MachineState) (pid : Z) (started : option Z) (run : option string) : Prop :=
  same_run state run /\ vmm_pid state = Some pid /\
  match started with Some t => started_at state = Some t | None => True end.

(** When each event is accepted. *)
Definition enabled (state : MachineState) (event : Event) : Prop :=
  match event with
  | StartRequested _ => status state = Stopped \/ status state = Error
  | MonitorReady run _ _ | StartFailed run _ _ => status state = Starting /\ run_id state = Some run
  | StopRequested pid started run =>
      is_active (status state) = true /\ same_generation state pid started run
  | StopCompleted pid started run _ =>
      status state = Stopping /\ same_generation state pid started run
  | StartTimedOut => status state = Starting
  | MonitorObserved _ _ _ | ExitObserved _ _ | MonitorGone _ => True
  end.

(** The record an accepted event leaves: id, status, pid, start time, run, error,
    time of the change. *)
Definition outcome (s : MachineState) (event : Event) (now : Z) : MachineState :=
  let id := machine_id s in
  match event with
  | StartRequested run => mkMachineState id Starting None None (Some run) None now
  | MonitorReady run pid started => mkMachineState id Running (Some pid) (Some started) (Some run) None now
  | MonitorObserved pid started run =>
      mkMachineState id (match status s with Starting => Starting | Stopping => Stopping | _ => Running end)
        (Some pid) started run None now
  | StartFailed _ FailStopped error => mkMachineState id Stopped None None None error now
  | StartFailed _ FailError error => mkMachineState id Error None None None error now
  | StopRequested pid started run => mkMachineState id Stopping (Some pid) started run None now
  | StopCompleted _ _ _ err => mkMachineState id Stopped None None None err now
  | ExitObserved true _ => mkMachineState id Stopped None None None None now
  | ExitObserved false error => mkMachineState id Error None None None (Some (default EXIT_ERROR error)) now
  | MonitorGone err =>
      mkMachineState id (match status s with Error => Error | _ => Stopped end) None None None err now
  | StartTimedOut => mkMachineState id Error None None None (Some START_TIMEOUT_ERROR) now
  end.

(** *** The life of a machine

    An abstract machine with just the facts that mean something in each phase: a
    machine that is down has its last error and no run; one that is up has a pid,
    and the start time and run id as far as they are known. *)
Inductive Life : Type :=
| Down (err : option string)
| Broken (err : option string)
| Launching (pid started : option Z) (run : option string)
| Up (pid : Z) (started : option Z) (run : option string)
| Closing (pid : Z) (started : option Z) (run : option string).

(** The stored record that stands for a phase. *)
Definition represents (s : MachineState) (l : Life) : Prop :=
  match l with
  | Down err => status s = Stopped /\ vmm_pid s = None /\ started_at s = None /\ run_id s = None /\ last_error s = err
  | Broken err => status s = Error /\ vmm_pid s = None /\ started_at s = None /\ run_id s = None /\ last_error s = err
  | Launching pid started run =>
      status s = Starting /\ vmm_pid s = pid /\ started_at s = started /\ run_id s = run /\ last_error s = None
  | Up pid started run =>
      status s = Running /\ vmm_pid s = Some pid /\ started_at s = started /\ run_id s = run /\ last_error s = None
  | Closing pid started run =>
      status s = Stopping /\ vmm_pid s = Some pid /\ started_at s = started /\ run_id s = run /\ last_error s = None
  end.

(** An event speaks of the recorded run: the pid agrees, and so do the start time
    and the run id where the event names them. *)
Definition speaks_of (known_pid known_started : option Z) (known_run : option string)
    (pid : Z) (started : option Z) (run : option string) : Prop :=
  known_pid = Some pid /\ (forall t, started = Some t -> known_started = Some t) /\
  (forall r, run = Some r -> known_run = Some r).

(** The pid, start time and run of a machine that is not down. *)
Definition facts (l : Life) : option (option Z * option Z * option string) :=
  match l with
  | Down _ | Broken _ => None
  | Launching pid started run => Some (pid, started, run)
  | Up pid started run | Closing pid started run => Some (Some pid, started, run)
  end.

Inductive lives : Life -> Event -> Life -> Prop :=
| lives_start_down err run : lives (Down err) (StartRequested run) (Launching None None (Some run))
| lives_start_broken err run : lives (Broken err) (StartRequested run) (Launching None None (Some run))
| lives_ready p t run pid started :
    lives (Launching p t (Some run)) (MonitorReady run pid started) (Up pid (Some started) (Some run))
| lives_observed_launching p t r pid started run :
    lives (Launching p t r) (MonitorObserved pid started run) (Launching (Some pid) started run)
| lives_observed_closing p t r pid started run :
    lives (Closing p t r) (MonitorObserved pid started run) (Closing pid started run)
| lives_observed_up p t r pid started run : lives (Up p t r) (MonitorObserved pid started run) (Up pid started run)
| lives_observed_down err pid started run : lives (Down err) (MonitorObserved pid started run) (Up pid started run)
| lives_observed_broken err pid started run : lives (Broken err) (MonitorObserved pid started run) (Up pid started run)
| lives_failed_down p t run err : lives (Launching p t (Some run)) (StartFailed run FailStopped err) (Down err)
| lives_failed_broken p t run err : lives (Launching p t (Some run)) (StartFailed run FailError err) (Broken err)
| lives_stop l p t r pid started run :
    facts l = Some (p, t, r) -> speaks_of p t r pid started run ->
    lives l (StopRequested pid started run) (Closing pid started run)
| lives_stopped p t r pid started run err :
    speaks_of (Some p) t r pid started run -> lives (Closing p t r) (StopCompleted pid started run err) (Down err)
| lives_exit_clean l err : lives l (ExitObserved true err) (Down None)
| lives_exit_error l err : lives l (ExitObserved false (Some err)) (Broken (Some err))
| lives_exit_unknown l : lives l (ExitObserved false None) (Broken (Some EXIT_ERROR))
| lives_gone_broken e err : lives (Broken e) (MonitorGone err) (Broken err)
| lives_gone l err : (forall e, l <> Broken e) -> lives l (MonitorGone err) (Down err)
| lives_timed_out p t r : lives (Launching p t r) StartTimedOut (Broken (Some START_TIMEOUT_ERROR)).

Definition phase (l : Life) : MachineRuntimeState :=
  match l with
  | Down _ => Stopped | Broken _ => Error | Launching _ _ _ => Starting | Up _ _ _ => Running | Closing _ _ _ => Stopping
  end.

(** The refusals, each with its error. *)
Inductive refused : Life -> Event -> TransitionError -> Prop :=
| refused_start l fs run : facts l = Some fs -> refused l (StartRequested run) AlreadyActive
| refused_ready l run pid started :
    phase l <> Starting -> refused l (MonitorReady run pid started) (InvalidTransition (phase l) "MonitorReady")
| refused_ready_stale p t r run pid started :
    r <> Some run -> refused (Launching p t r) (MonitorReady run pid started) StaleGeneration
| refused_failed l run failure err :
    phase l <> Starting -> refused l (StartFailed run failure err) (InvalidTransition (phase l) "StartFailed")
| refused_failed_stale p t r run failure err :
    r <> Some run -> refused (Launching p t r) (StartFailed run failure err) StaleGeneration
| refused_stop l pid started run : facts l = None -> refused l (StopRequested pid started run) NotRunning
| refused_stop_stale l p t r pid started run :
    facts l = Some (p, t, r) -> ~ speaks_of p t r pid started run ->
    refused l (StopRequested pid started run) StaleGeneration
| refused_stopped l pid started run err :
    phase l <> Stopping -> refused l (StopCompleted pid started run err) (InvalidTransition (phase l) "StopCompleted")
| refused_stopped_stale p t r pid started run err :
    ~ speaks_of (Some p) t r pid started run -> refused (Closing p t r) (StopCompleted pid started run err) StaleGeneration
| refused_timed_out l : phase l <> Starting -> refused l StartTimedOut (InvalidTransition (phase l) "StartTimedOut").

(** Facts of the record in every state: an inactive machine has no run facts,
    a running or stopping one has a pid, an active one has no error. *)
Definition state_inv (s : MachineState) : Prop :=
  match status s with
  | Stopped | Error => vmm_pid s = None /\ started_at s = None /\ run_id s = None
  | Running | Stopping => is_Some (vmm_pid s) /\ last_error s = None
  | Starting => last_error s = None
  end.

(** The transition system. *)
Inductive step : MachineState -> Event -> MachineState -> Prop :=
| step_reduce s e now s' : reduce s e now = Ok s' -> step s e s'.

Inductive run_of (s : MachineState) : list Event -> MachineState -> Prop :=
| run_nil : run_of s [] s
| run_snoc es e s1 s2 : run_of s es s1 -> step s1 e s2 -> run_of s (es ++ [e]) s2.

(** Events after which a machine may be started again. *)
Definition releases (e : Event) : Prop :=
  match e with
  | StartFailed _ _ _ | StopCompleted _ _ _ _ | ExitObserved _ _ | MonitorGone _ | StartTimedOut => True
  | _ => False
  end.

(** ** Lemmas *)

(** An equivalence both sides of which are equations and their conjunctions. *)
Ltac by_iff :=
  split; intros ?; destruct_and?; simplify_eq/=;
  first [done | congruence | repeat split; first [done | congruence]].

Section Guards.
Implicit Types s : MachineState.

Lemma require_state_ok a b ev : require_state a b ev = Ok tt <-> a = b.
Proof. unfold require_state. case_bool_decide; by_iff. Qed.

Lemma require_run_id_ok s run : require_run_id s run = Ok tt <-> same_run s run.
Proof. unfold require_run_id, same_run. destruct run; [case_bool_decide|]; by_iff. Qed.

Lemma require_generation_ok s pid started run :
  require_generation s pid started run = Ok tt <-> same_generation s pid started run.
Proof.
  unfold require_generation, same_generation. rewrite <- require_run_id_ok.
  destruct (require_run_id s run) as [[]| |]; simpl; [|by_iff..].
  case_bool_decide as Hp; simpl; [|by_iff].
  destruct started as [t|]; [|rewrite bool_decide_eq_false_2 by (by intros []); by_iff].
  rewrite bool_decide_eq_true_2 by eauto. simpl. case_bool_decide; by_iff.
Qed.

Lemma unit_bind_ok {A} (m : res TransitionError unit) (k : res TransitionError A) a :
  (_ ← m; k) = Ok a <-> m = Ok tt /\ k = Ok a.
Proof. destruct m as [[]| |]; simpl; by_iff. Qed.

(** [reduce] accepts exactly the enabled events and does what [outcome] says. *)
Lemma reduce_iff s e now s' : reduce s e now = Ok s' <-> enabled s e /\ s' = outcome s e now.
Proof.
  assert (forall x : MachineState, Ok (E := TransitionError) x = Ok s' <-> s' = x) as Hok by (intros; by_iff).
  destruct e; cbn [reduce enabled outcome].
  - unfold start_requested. destruct (status s); simpl; rewrite ?Hok; intuition congruence.
  - unfold monitor_ready. rewrite !unit_bind_ok, require_state_ok, require_run_id_ok, Hok. simpl. tauto.
  - unfold monitor_observed. rewrite Hok. tauto.
  - unfold start_failed. rewrite !unit_bind_ok, require_state_ok, require_run_id_ok, Hok. simpl.
    destruct failure; tauto.
  - unfold stop_requested. destruct (status s); simpl; rewrite ?unit_bind_ok, ?require_generation_ok, ?Hok;
      intuition congruence.
  - unfold stop_completed. rewrite !unit_bind_ok, require_state_ok, require_generation_ok, Hok. tauto.
  - unfold exit_observed. destruct clean; rewrite Hok; tauto.
  - unfold monitor_gone. rewrite Hok. tauto.
  - unfold start_timed_out. rewrite unit_bind_ok, require_state_ok, Hok. tauto.
Qed.

Lemma outcome_inv s e now : enabled s e -> state_inv s -> state_inv (outcome s e now).
Proof.
  intros He Hi. unfold state_inv in *. destruct e; simpl in *; try done; try (split; [by eexists|done]).
  - destruct (status s); simpl; first [done | split; [by eexists|done]].
  - by destruct failure.
  - by destruct clean.
  - by destruct (status s).
Qed.

(** Only a releasing event ends activity, and only it does. *)
Lemma outcome_active s e now :
  is_active (status (outcome s e now)) = true <-> ~ releases e.
Proof.
  destruct e as [| | |? [] ?| | |[] ?| |]; simpl; try destruct (status s); simpl; split; auto; done.
Qed.
End Guards.

(** ** Traces *)

Lemma run_inv s es s' : run_of s es s' -> state_inv s -> state_inv s'.
Proof.
  induction 1 as [|es e s1 s2 _ IH Hs]; [done|]. intros Hi. destruct Hs as [s1 e now s2 Hr].
  apply reduce_iff in Hr as [He ->]. auto using outcome_inv.
Qed.

Lemma run_app s es1 es2 s' : run_of s (es1 ++ es2) s' <-> exists s1, run_of s es1 s1 /\ run_of s1 es2 s'.
Proof.
  revert s'. induction es2 as [|e es2 IH] using rev_ind; intros s'.
  - rewrite app_nil_r. split; [intros; exists s'; split; [done|constructor]|].
    intros (s1 & Hr & Hn). inversion Hn as [|? ? ? ? ? ? Heq]; subst; [done|by destruct es].
  - rewrite app_assoc. split.
    + intros Hr. inversion Hr as [Heq|es' e' s2 s3 Hr' Hs Heq]; subst; [by destruct es1, es2|].
      apply app_inj_tail in Heq as [-> ->]. apply IH in Hr' as (s1 & H1 & H2).
      exists s1. split; [done|]. by econstructor.
    + intros (s1 & H1 & H2). inversion H2 as [Heq|es' e' s2 s3 Hr' Hs Heq]; subst; [by destruct es2|].
      apply app_inj_tail in Heq as [-> ->]. econstructor; [|exact Hs]. apply IH. eauto.
Qed.

Lemma run_one s e s' : run_of s [e] s' -> step s e s'.
Proof.
  intros Hr. inversion Hr as [|es' e' s2 s3 Hr' Hs Heq]; subst.
  apply (app_inj_tail es' [] e' e) in Heq as [-> ->].
  inversion Hr' as [|es'' ? ? ? ? ? Heq']; subst; [done|by destruct es''].
Qed.

(** While no releasing event happens, an active machine stays active. *)
Lemma run_stays_active s es s' :
  run_of s es s' -> is_active (status s) = true -> Forall (fun e => ~ releases e) es ->
  is_active (status s') = true.
Proof.
  induction 1 as [|es e s1 s2 _ IH Hs]; [done|]. intros Ha Hall. apply Forall_app in Hall as [_ He].
  apply Forall_cons_1 in He as [He _]. destruct Hs as [s1 e now s2 Hr].
  apply reduce_iff in Hr as [_ ->]. by apply outcome_active.
Qed.

Lemma step_iff s e s' : step s e s' <-> enabled s e /\ exists now, s' = outcome s e now.
Proof.
  split.
  - intros [s0 e0 now s1 Hr]. apply reduce_iff in Hr as [He ->]. eauto.
  - intros (He & now & ->). apply step_reduce with now. by apply reduce_iff.
Qed.

(** The event belongs to another run than the recorded one. *)
Definition stale (s : MachineState) (e : Event) : Prop :=
  match e with
  | MonitorReady run _ _ | StartFailed run _ _ => run_id s <> Some run
  | StopRequested pid started run | StopCompleted pid started run _ =>
      ~ same_generation s pid started run
  | _ => False
  end.

(** The status guard of an event, without its generation check. *)
Definition status_allows (s : MachineState) (e : Event) : Prop :=
  match e with
  | MonitorReady _ _ _ | StartFailed _ _ _ => status s = Starting
  | StopRequested _ _ _ => is_active (status s) = true
  | StopCompleted _ _ _ _ => status s = Stopping
  | _ => True
  end.

Lemma require_generation_err s pid started run :
  ~ same_generation s pid started run -> require_generation s pid started run = Err StaleGeneration.
Proof.
  rewrite <- require_generation_ok. unfold require_generation, require_run_id.
  destruct run; repeat case_bool_decide; simpl; try done; by repeat case_match.
Qed.

#[local] Instance releases_dec e : Decision (releases e).
Proof. destruct e; simpl; apply _. Defined.

(** ** The abstract machine *)

Lemma speaks_of_spec s pid started run :
  speaks_of (vmm_pid s) (started_at s) (run_id s) pid started run <-> same_generation s pid started run.
Proof.
  unfold speaks_of, same_generation, same_run.
  destruct started, run; split; intros (H1 & H2 & H3); repeat split; auto; intros ? [= <-]; auto.
Qed.

Lemma speaks_of_or p t r pid started run :
  speaks_of p t r pid started run \/ ~ speaks_of p t r pid started run.
Proof.
  pose proof (speaks_of_spec (mkMachineState "" Stopped p t r None 0) pid started run) as H.
  cbn [vmm_pid started_at run_id] in H. rewrite H, <- require_generation_ok.
  destruct (require_generation _ pid started run) as [[]| |]; auto.
Qed.

(** The consistent records are the ones that stand for a phase. *)
Lemma represents_inv s : state_inv s <-> exists l, represents s l.
Proof.
  unfold state_inv. split.
  - destruct (status s) eqn:E; intros H.
    + destruct H as (Hp & Ht & Hn). exists (Down (last_error s)). by repeat split.
    + exists (Launching (vmm_pid s) (started_at s) (run_id s)). by repeat split.
    + destruct H as [[pid Hp] He]. exists (Up pid (started_at s) (run_id s)). by repeat split.
    + destruct H as [[pid Hp] He]. exists (Closing pid (started_at s) (run_id s)). by repeat split.
    + destruct H as (Hp & Ht & Hn). exists (Broken (last_error s)). by repeat split.
  - intros [[] (-> & Hp & Ht & Hn & He)]; rewrite ?Hp; eauto.
Qed.

Lemma facts_of s l : represents s l ->
  facts l = if is_active (status s) then Some (vmm_pid s, started_at s, run_id s) else None.
Proof. destruct l; intros (-> & Hp & Ht & Hn & He); simpl; by rewrite ?Hp, ?Ht, ?Hn. Qed.

Lemma phase_of s l : represents s l -> phase l = status s.
Proof. by destruct l; intros (-> & _). Qed.

Lemma closing_of s p t r pid started run :
  represents s (Closing p t r) -> speaks_of (Some p) t r pid started run <-> same_generation s pid started run.
Proof. intros (_ & Hp & Ht & Hn & _). by rewrite <- speaks_of_spec, Hp, Ht, Hn. Qed.

Lemma lives_enabled s l e l' : represents s l -> lives l e l' -> enabled s e.
Proof.
  intros Hr H. pose proof (facts_of s l Hr) as Hf'. pose proof (phase_of s l Hr) as Hph.
  destruct H as [| | | | | | | | | |l p t r pid started run Hf Hs|p t r pid started run err Hs| | | | | |];
    cbn [phase enabled] in *; auto; try (split; [done|]; by destruct Hr as (_ & _ & _ & -> & _)).
  - rewrite Hf in Hf'. destruct (is_active (status s)); [|done]. injection Hf' as -> -> ->. split; [done|]. by apply speaks_of_spec.
  - split; [done|]. by apply (closing_of s p t r).
Qed.

Lemma lives_outcome s l e l' now : represents s l -> lives l e l' ->
  represents (outcome s e now) l' /\ machine_id (outcome s e now) = machine_id s /\ updated_at (outcome s e now) = now.
Proof.
  intros Hr H. pose proof (phase_of s l Hr) as Hph. destruct H; cbn [phase outcome represents] in *; try done; rewrite <- Hph; try done.
  destruct l as [|e| | |]; try done. by destruct (H e).
Qed.

Lemma refused_error s l e err now : represents s l -> refused l e err -> reduce s e now = Err err.
Proof.
  intros Hr H. pose proof (facts_of s l Hr) as Hf'. pose proof (phase_of s l Hr) as Hph.
  assert (forall a b ev, a <> b -> require_state a b ev = Err (InvalidTransition a ev)) as Hst.
  { intros a b ev Hab. unfold require_state. by rewrite bool_decide_eq_false_2. }
  destruct H as [l fs run Hf|l run pid started Hp|p t r run pid started Hn|l run failure err Hp|p t r run failure err Hn
    |l pid started run Hf|l p t r pid started run Hf Hs|l pid started run err Hp|p t r pid started run err Hs|l Hp]; cbn [reduce phase] in *.
  - unfold start_requested. destruct (is_active (status s)); [done|congruence].
  - unfold monitor_ready. rewrite Hst by congruence. by rewrite Hph.
  - unfold monitor_ready, require_state, require_run_id. rewrite <- Hph. destruct Hr as (_ & _ & _ & -> & _). simpl. by rewrite bool_decide_eq_false_2.
  - unfold start_failed. rewrite Hst by congruence. by rewrite Hph.
  - unfold start_failed, require_state, require_run_id. rewrite <- Hph. destruct Hr as (_ & _ & _ & -> & _). simpl. by rewrite bool_decide_eq_false_2.
  - unfold stop_requested. rewrite Hf in Hf'. by destruct (status s).
  - unfold stop_requested. rewrite Hf in Hf'. destruct (status s) eqn:E; simpl in Hf'; try done; injection Hf' as -> -> ->;
      rewrite speaks_of_spec in Hs; by rewrite require_generation_err.
  - unfold stop_completed. rewrite Hst by congruence. by rewrite Hph.
  - unfold stop_completed, require_state. rewrite <- Hph. rewrite (closing_of s p t r) in Hs by done. simpl. by rewrite require_generation_err.
  - unfold start_timed_out. rewrite Hst by congruence. by rewrite Hph.
Qed.

Lemma life_total l e : (exists l', lives l e l') \/ (exists err, refused l e err).
Proof.
  destruct e as [run|run pid started|pid started run|run failure error|pid started run|pid started run err|clean error|err|].
  - destruct l; first [left; by eauto using lives|right; eexists; by econstructor].
  - destruct (decide (phase l = Starting)) as [E|E]; [|right; eexists; by constructor]. destruct l as [| |p t r| |]; try done.
    destruct (decide (r = Some run)) as [->|]; [left|right]; eexists; by constructor.
  - destruct l; left; eauto using lives.
  - destruct (decide (phase l = Starting)) as [E|E]; [|right; eexists; by constructor]. destruct l as [| |p t r| |]; try done.
    destruct (decide (r = Some run)) as [->|]; [left; destruct failure|right]; eexists; by constructor.
  - destruct (facts l) as [[[p t] r]|] eqn:Hf; [|right; eexists; by constructor].
    destruct (speaks_of_or p t r pid started run); [left|right]; eexists; by econstructor.
  - destruct (decide (phase l = Stopping)) as [E|E]; [|right; eexists; by constructor]. destruct l as [| | | |p t r]; try done.
    destruct (speaks_of_or (Some p) t r pid started run); [left|right]; eexists; by constructor.
  - left. destruct clean, error; eauto using lives.
  - left. destruct l; eexists; first [apply lives_gone_broken|by apply lives_gone].
  - destruct (decide (phase l = Starting)) as [E|E]; [|right; eexists; by constructor]. destruct l; try done. left. eexists. by constructor.
Qed.

(** ** Properties *)

(** C36: [reduce] implements the life of a machine, an abstract machine of five
    phases that knows nothing of the stored record.  When the record stands for a
    phase, every step of the abstract machine is accepted and leaves a record that
    stands for the next phase, with the machine id kept and the time of the change
    stored; every event the abstract machine refuses is rejected with the error it
    names; and there is no third case. *)
Theorem reduce_refines_spec (s : MachineState) (l : Life) (e : Event) (now : Z) (Hr : represents s l) :
  (forall l', lives l e l' -> exists s', reduce s e now = Ok s' /\ represents s' l' /\
     machine_id s' = machine_id s /\ updated_at s' = now) /\
  (forall err, refused l e err -> reduce s e now = Err err) /\
  ((exists l', lives l e l') \/ (exists err, refused l e err)).
Proof.
  split; [|split].
  - intros l' H. exists (outcome s e now). split; [|by apply lives_outcome with l].
    apply reduce_iff. split; [by apply lives_enabled with l l'|done].
  - intros err H. by apply refused_error with l.
  - apply life_total.
Qed.

(** C7: Every state reachable from a consistent one is consistent: a stopped or
    failed machine carries no pid, start time or run id, a running or stopping
    one has a pid, and an active one has no stale error. *)
Theorem lifecycle_invariant (s : MachineState) (es : list Event) (s' : MachineState)
    (Hr : run_of s es s') (Hi : state_inv s) : state_inv s'.
Proof. exact (run_inv s es s' Hr Hi). Qed.

(** A machine is never started twice: between two accepted start requests of
    any run of the lifecycle there is an event that ended the first one (a
    failed or timed-out start, a completed stop, an observed exit or a vanished
    monitor). *)
Theorem no_double_start (s s' : MachineState) (pre mid post : list Event) (run1 run2 : string)
    (Hr : run_of s (pre ++ [StartRequested run1] ++ mid ++ [StartRequested run2] ++ post) s') :
  Exists releases mid.
Proof.
  apply run_app in Hr as (s1 & _ & Hr). apply run_app in Hr as (s2 & H1 & Hr).
  apply run_app in Hr as (s3 & Hmid & Hr). apply run_app in Hr as (s4 & H2 & _).
  apply run_one, step_iff in H1 as (_ & n1 & ->). apply run_one, step_iff in H2 as (He & _).
  destruct (decide (Exists releases mid)) as [|Hno]; [done|]. apply Forall_Exists_neg in Hno.
  assert (is_active (status s3) = true) as Ha by (by eapply run_stays_active).
  exfalso. destruct He as [He|He]; by rewrite He in Ha.
Qed.

(** An event of another run generation never changes the machine: if the run
    id, pid or start time it claims differs from the recorded one, [reduce]
    rejects it, with [StaleGeneration] whenever the status alone would have
    allowed it. *)
Theorem stale_generation_rejected (s : MachineState) (e : Event) (now : Z) (Hst : stale s e) :
  (exists err, reduce s e now = Err err) /\ (status_allows s e -> reduce s e now = Err StaleGeneration).
Proof.
  destruct e as [|run| |run| | | | |]; try done; cbn [stale status_allows reduce] in *.
  - unfold monitor_ready, require_run_id. rewrite (bool_decide_eq_false_2 (run_id s = _)) by done.
    unfold require_state. case_bool_decide; simpl; (split; [by eexists|done]).
  - unfold start_failed, require_run_id. rewrite (bool_decide_eq_false_2 (run_id s = _)) by done.
    unfold require_state. case_bool_decide; simpl; (split; [by eexists|done]).
  - unfold stop_requested. rewrite (require_generation_err s _ _ _ Hst).
    destruct (status s); simpl; (split; [by eexists|done]).
  - unfold stop_completed, require_state. rewrite (require_generation_err s _ _ _ Hst).
    case_bool_decide; simpl; (split; [by eexists|done]).
Qed.

(** A run through start, stop and restart. *)
Definition sample_machine : MachineState :=
  {| machine_id := "m"; status := Stopped; vmm_pid := None; started_at := None; run_id := None;
     last_error := None; updated_at := 0 |}.
Definition sample_events : list Event :=
  [StartRequested "r1"; MonitorReady "r1" 7 42; StopRequested 7 (Some 42) (Some "r1");
   StopCompleted 7 (Some 42) (Some "r1") None; StartRequested "r2"].
Definition sample_restarted : MachineState :=
  {| machine_id := "m"; status := Starting; vmm_pid := None; started_at := None; run_id := Some "r2";
     last_error := None; updated_at := 5 |}.

Lemma sample_run : run_of sample_machine sample_events sample_restarted.
Proof.
  apply (run_snoc _ [_; _; _; _] _ (replace_runtime sample_machine Stopped None None None None 4));
    [|by apply step_reduce with 5].
  apply (run_snoc _ [_; _; _] _ (replace_runtime sample_machine Stopping (Some 7) (Some 42) (Some "r1") None 3));
    [|by apply step_reduce with 4].
  apply (run_snoc _ [_; _] _ (replace_runtime sample_machine Running (Some 7) (Some 42) (Some "r1") None 2));
    [|by apply step_reduce with 3].
  apply (run_snoc _ [_] _ (replace_runtime sample_machine Starting None None (Some "r1") None 1));
    [|by apply step_reduce with 2].
  apply (run_snoc _ [] _ sample_machine); [constructor|by apply step_reduce with 1].
Qed.

Lemma lifecycle_invariant_witness : state_inv sample_restarted.
Proof. apply (lifecycle_invariant sample_machine sample_events); [exact sample_run|done]. Defined.

Lemma no_double_start_witness :
  Exists releases [MonitorReady "r1" 7 42; StopRequested 7 (Some 42) (Some "r1");
                   StopCompleted 7 (Some 42) (Some "r1") None].
Proof.
  apply (no_double_start sample_machine sample_restarted [] _ [] "r1" "r2"). exact sample_run.
Defined.

Lemma reduce_refines_spec_witness :
  exists s', reduce sample_restarted (MonitorReady "r2" 9 50) 6 = Ok s' /\ represents s' (Up 9 (Some 50) (Some "r2")) /\
    machine_id s' = "m" /\ updated_at s' = 6.
Proof.
  assert (represents sample_restarted (Launching None None (Some "r2"))) as Hr by (by repeat split).
  apply (proj1 (reduce_refines_spec sample_restarted _ (MonitorReady "r2" 9 50) 6 Hr)). constructor.
Defined.
