(* ===== verification/Reconcile.v ===== *)
(** Reconciliation of a machine record with the host:
    [runtime/libvm/src/runtime/core.rs] ([observe_machine_state],
    [live_monitor_identity], [reconcile_machine_runtime_locked],
    [complete_stop_locked] and their helpers).

    The host is what the code can see of it: the pid file, the processes that
    exist with their start times and liveness, the lifetime lock, and the exit
    status file.  It is an argument of the definitions.  The store is the
    machine's row, [None] when there is none. *)

From stdpp Require Import strings.
From S2P Require Import Prelude Transitions.

(** ** The host *)

(** [ProcessIdentity]: a process found under a pid, with its start time, as on
    Linux and macOS (the probe for other systems compares no start times). *)
Record ProcessIdentity : Type := mkProcessIdentity {
  pi_pid : Z; pi_started_at : option Z; pi_alive : bool
}.

Inductive VmmExitOutcome : Type := ExitClean | ExitError | ExitForced.

Record VmmExitStatus : Type := mkVmmExitStatus {
  x_machine_id : string; x_run_id : string; x_pid : Z; x_outcome : VmmExitOutcome;
  x_error : option string
}.

Record Host : Type := mkHost {
  pid_file : option Z;                       (** [read_monitor_pid], absent when there is no file *)
  for_pid : Z -> option ProcessIdentity;     (** [ProcessIdentity::for_pid] *)
  lifetime_lock_free : bool;                 (** [MachineLifetimeLock::try_acquire(..).is_some()] *)
  exit_status : option VmmExitStatus         (** [exit_status::read] *)
}.

(** A process found under a pid has that pid. *)
Definition host_ok (h : Host) : Prop := forall pid p, for_pid h pid = Some p -> pi_pid p = pid.

Definition matches_started_at (p : ProcessIdentity) (expected : option Z) : bool :=
  bool_decide (pi_started_at p = expected).

Definition identity_matches_generation (p : ProcessIdentity) (expected : option Z) : bool :=
  match expected with None => true | Some _ => matches_started_at p expected end.

(** ** Observation *)

(** The loop over the two candidate pids. *)
Fixpoint first_live (probe : Z -> option ProcessIdentity) (accept : ProcessIdentity -> bool) (last_pid : option Z) (pids : list Z) :
    option ProcessIdentity :=
  match pids with
  | [] => None
  | pid :: pids =>
      if bool_decide (last_pid = Some pid) then first_live probe accept last_pid pids
      else match probe pid with
           | Some p =>
               if pi_alive p && accept p then Some p
               else first_live probe accept (Some pid) pids
           | None => first_live probe accept (Some pid) pids
           end
  end.

Definition option_pids (a b : option Z) : list Z :=
  match a with Some x => [x] | None => [] end ++ match b with Some x => [x] | None => [] end.

Definition recovering_prearmed_start (runtime : option MachineState) : bool :=
  match runtime with
  | Some s => bool_decide (status s = Starting) &&
              (bool_decide (vmm_pid s = None) || bool_decide (started_at s = None))
  | None => false
  end.

Definition live_monitor_identity (h : Host) (runtime : option MachineState) : option ProcessIdentity :=
  let stored_pid := runtime ≫= vmm_pid in
  let expected_started_at := runtime ≫= started_at in
  first_live (for_pid h) (fun p => identity_matches_generation p expected_started_at
                         || recovering_prearmed_start runtime)
    None (option_pids (pid_file h) stored_pid).

Definition runtime_exit_matches (st : VmmExitStatus) (state : option MachineState) : bool :=
  match state with
  | None => true
  | Some s => bool_decide (x_machine_id st = machine_id s) && bool_decide (run_id s = Some (x_run_id st))
              && bool_decide (vmm_pid s = Some (x_pid st))
  end.

Definition exit_observed_event (st : VmmExitStatus) : bool * option string :=
  match x_outcome st with
  | ExitClean | ExitForced => (true, None)
  | ExitError => (false, x_error st)
  end.

Definition stopped_machine_state (id : string) (err : option string) (now : Z) : MachineState :=
  {| machine_id := id; status := Stopped; vmm_pid := None; started_at := None; run_id := None;
     last_error := err; updated_at := now |}.

Definition observe_machine_state (h : Host) (id : string) (runtime : option MachineState) (now : Z) :
    res TransitionError MachineState :=
  let live_identity := live_monitor_identity h runtime in
  let live := bool_decide (is_Some live_identity) in
  let current_state := default Stopped (status <$> runtime) in
  let abandoned_start :=
    if bool_decide (current_state = Starting) && negb live then lifetime_lock_free h else false in
  let matching_exit :=
    match exit_status h with
    | Some st => if runtime_exit_matches st runtime && negb live then Some st else None
    | None => None
    end in
  let stored_state := default (stopped_machine_state id None now) runtime in
  match matching_exit with
  | Some st => let '(clean, error) := exit_observed_event st in
               reduce stored_state (ExitObserved clean error) now
  | None =>
      match live_identity with
      | Some p => reduce stored_state (MonitorObserved (pi_pid p) (pi_started_at p) (runtime ≫= run_id)) now
      | None =>
          if abandoned_start then reduce stored_state StartTimedOut now
          else if bool_decide (current_state = Starting) then
            Ok {| machine_id := machine_id stored_state; status := status stored_state; vmm_pid := None;
                  started_at := None; run_id := run_id stored_state; last_error := None;
                  updated_at := now |}
          else reduce stored_state (MonitorGone (runtime ≫= last_error)) now
      end
  end.

Definition machine_state_needs_writeback (persisted : option MachineState) (observed : MachineState) : bool :=
  match persisted with
  | None => true
  | Some p => negb (bool_decide (status p = status observed)) ||
              negb (bool_decide (vmm_pid p = vmm_pid observed)) ||
              negb (bool_decide (started_at p = started_at observed)) ||
              negb (bool_decide (run_id p = run_id observed)) ||
              negb (bool_decide (last_error p = last_error observed))
  end.

(** [reconcile_machine_runtime_locked]: the row after reconciliation and the
    state reported to the caller. *)
Definition reconcile_machine_runtime_locked (h : Host) (id : string) (row : option MachineState) (now : Z) :
    res TransitionError (option MachineState * MachineState) :=
  observed ← observe_machine_state h id row now;
  Ok (if machine_state_needs_writeback row observed then Some observed else row, observed).

(** [machine_state]: a machine without a row is stopped. *)
Definition machine_state (id : string) (row : option MachineState) (now : Z) : MachineState :=
  default (stopped_machine_state id None now) row.

(** ** Completing a stop *)

Record VmmRunIdentity : Type := mkVmmRunIdentity {
  g_pid : Z; g_started_at : option Z; g_run_id : option string
}.

Definition vmm_run_identity_matches (s : MachineState) (g : VmmRunIdentity) : bool :=
  match g_run_id g with Some r => bool_decide (run_id s = Some r) | None => true end &&
  bool_decide (vmm_pid s = Some (g_pid g)) &&
  match g_started_at g with Some t => bool_decide (started_at s = Some t) | None => true end.

Definition vmm_run_is_alive (h : Host) (g : VmmRunIdentity) : bool :=
  match for_pid h (g_pid g) with
  | Some p => identity_matches_generation p (g_started_at g) && pi_alive p
  | None => false
  end.

(** The row after the call, whether the stop is complete, and whether the
    machine's resources are to be cleaned up. *)
Definition complete_stop_locked (h : Host) (id : string) (row : option MachineState) (g : VmmRunIdentity)
    (err : option string) (now : Z) : res TransitionError (option MachineState * bool * bool) :=
  let state := machine_state id row now in
  if negb (is_active (status state)) then Ok (row, true, false)
  else if negb (vmm_run_identity_matches state g) then Ok (row, false, false)
  else if vmm_run_is_alive h g then Ok (row, false, false)
  else match reduce state (StopCompleted (g_pid g) (g_started_at g) (g_run_id g) err) now with
       | Ok next => Ok (Some next, true, true)
       | Err StaleGeneration => Ok (row, false, false)
       | Err e => Err e
       | Panic => Panic
       end.

(** ** Live processes *)

Section Live.
Implicit Types (h : Host) (pids : list Z).

Lemma first_live_some h accept last pids p :
  first_live (for_pid h) accept last pids = Some p ->
  exists pid, pid ∈ pids /\ for_pid h pid = Some p /\ pi_alive p = true /\ accept p = true.
Proof.
  revert last. induction pids as [|pid pids IH]; intros last; simpl; [done|].
  assert (forall l, first_live (for_pid h) accept l pids = Some p -> exists pid0, pid0 ∈ pid :: pids /\
            for_pid h pid0 = Some p /\ pi_alive p = true /\ accept p = true) as Hrec.
  { intros l Hl. destruct (IH l Hl) as (q & Hq & ?). exists q. split; [by right|done]. }
  case_bool_decide; [apply Hrec|]. destruct (for_pid h pid) as [q|] eqn:Hq; [|apply Hrec].
  destruct (pi_alive q) eqn:Ha, (accept q) eqn:Hc; simpl; try apply Hrec.
  intros [= ->]. exists pid. split; [by left|done].
Qed.

(** With no candidate taken, none is alive and acceptable. *)
Lemma first_live_none h accept last pids :
  first_live (for_pid h) accept last pids = None ->
  (forall pid, last = Some pid -> forall p, for_pid h pid = Some p -> pi_alive p && accept p = false) ->
  forall pid p, pid ∈ pids -> for_pid h pid = Some p -> pi_alive p && accept p = false.
Proof.
  revert last. induction pids as [|pid pids IH]; intros last Hn Hlast q p Hq Hp;
    [by apply elem_of_nil in Hq|]. simpl in Hn. case_bool_decide as Hl.
  - subst last. apply elem_of_cons in Hq as [->|Hq]; [by apply (Hlast pid)|]. by eapply IH.
  - destruct (for_pid h pid) as [p0|] eqn:Hp0.
    + destruct (pi_alive p0 && accept p0) eqn:Hacc; [done|].
      assert (forall pid', Some pid = Some pid' -> forall p', for_pid h pid' = Some p' ->
                pi_alive p' && accept p' = false) as Hnext by (intros ? [= <-] ? ?; congruence).
      apply elem_of_cons in Hq as [->|Hq]; [congruence|]. by eapply IH.
    + assert (forall pid', Some pid = Some pid' -> forall p', for_pid h pid' = Some p' ->
                pi_alive p' && accept p' = false) as Hnext by (intros ? [= <-] ? ?; congruence).
      apply elem_of_cons in Hq as [->|Hq]; [congruence|]. by eapply IH.
Qed.

Definition accepts (runtime : option MachineState) (p : ProcessIdentity) : bool :=
  identity_matches_generation p (runtime ≫= started_at) || recovering_prearmed_start runtime.

Lemma live_some h runtime p :
  host_ok h -> live_monitor_identity h runtime = Some p ->
  for_pid h (pi_pid p) = Some p /\ pi_alive p = true /\ accepts runtime p = true /\
  (pid_file h = Some (pi_pid p) \/ runtime ≫= vmm_pid = Some (pi_pid p)).
Proof.
  intros Hh Hl. apply first_live_some in Hl as (pid & Hin & Hp & Ha & Hc).
  pose proof (Hh pid p Hp) as <-. split; [done|]. split; [done|]. split; [done|].
  unfold option_pids in Hin. apply elem_of_app in Hin as [Hin|Hin];
    [destruct (pid_file h)|destruct (runtime ≫= vmm_pid)]; apply list_elem_of_singleton in Hin || apply elem_of_nil in Hin;
    try done; subst; auto.
Qed.

Lemma live_none h runtime pid p :
  live_monitor_identity h runtime = None ->
  pid_file h = Some pid \/ runtime ≫= vmm_pid = Some pid ->
  for_pid h pid = Some p -> pi_alive p && accepts runtime p = false.
Proof.
  intros Hl Hpid Hp. eapply first_live_none; [exact Hl|done| |exact Hp].
  unfold option_pids. destruct Hpid as [-> | ->]; apply elem_of_app; [left|right]; by apply list_elem_of_singleton.
Qed.
End Live.

(** ** Observation: cases *)

(** A starting machine whose monitor has not shown up yet. *)
Definition still_starting (s : MachineState) (now : Z) : MachineState :=
  {| machine_id := machine_id s; status := status s; vmm_pid := None; started_at := None;
     run_id := run_id s; last_error := None; updated_at := now |}.

Inductive observation (h : Host) (runtime : option MachineState) (stored : MachineState) (now : Z) :
    MachineState -> Prop :=
| obs_exit st clean error :
    live_monitor_identity h runtime = None -> exit_status h = Some st ->
    runtime_exit_matches st runtime = true -> exit_observed_event st = (clean, error) ->
    observation h runtime stored now (outcome stored (ExitObserved clean error) now)
| obs_live p :
    live_monitor_identity h runtime = Some p ->
    observation h runtime stored now
      (outcome stored (MonitorObserved (pi_pid p) (pi_started_at p) (runtime ≫= run_id)) now)
| obs_abandoned :
    live_monitor_identity h runtime = None -> status stored = Starting -> lifetime_lock_free h = true ->
    observation h runtime stored now (outcome stored StartTimedOut now)
| obs_starting :
    live_monitor_identity h runtime = None -> status stored = Starting -> lifetime_lock_free h = false ->
    observation h runtime stored now (still_starting stored now)
| obs_gone :
    live_monitor_identity h runtime = None -> status stored <> Starting ->
    (forall st, exit_status h = Some st -> runtime_exit_matches st runtime = false) ->
    observation h runtime stored now (outcome stored (MonitorGone (runtime ≫= last_error)) now).

Lemma observe_spec h id runtime now :
  exists s, observe_machine_state h id runtime now = Ok s /\
    observation h runtime (machine_state id runtime now) now s.
Proof.
  unfold observe_machine_state. cbv zeta. fold (machine_state id runtime now).
  assert (default Stopped (status <$> runtime) = status (machine_state id runtime now)) as ->
    by (by destruct runtime).
  set (stored := machine_state id runtime now).
  destruct (live_monitor_identity h runtime) as [p|] eqn:Hl.
  - rewrite bool_decide_eq_true_2 by eauto. cbn [negb].
    replace (match exit_status h with Some st => if runtime_exit_matches st runtime && false then Some st else None
             | None => None end) with (@None VmmExitStatus)
      by (destruct (exit_status h); [by rewrite andb_false_r|done]).
    eexists. split; [reflexivity|]. by constructor.
  - rewrite bool_decide_eq_false_2 by (by intros []). cbn [negb]. rewrite andb_true_r.
    assert (forall P, (forall st, exit_status h = Some st -> runtime_exit_matches st runtime = true -> P) ->
              ((forall st, exit_status h = Some st -> runtime_exit_matches st runtime = false) -> P) -> P) as Hcase.
    { intros P H1 H2. destruct (exit_status h) as [st|]; [|by apply H2].
      destruct (runtime_exit_matches st runtime) eqn:Hm; [by apply (H1 st)|]. apply H2. by intros st' [= <-]. }
    apply Hcase; clear Hcase.
    + intros st Hst Hm. rewrite Hst, Hm. cbn [andb]. destruct (exit_observed_event st) as [clean error] eqn:Hev.
      eexists. split; [by apply reduce_iff; split|]. by econstructor.
    + intros Hno.
      replace (match exit_status h with Some st => if runtime_exit_matches st runtime && true then Some st else None
               | None => None end) with (@None VmmExitStatus)
        by (destruct (exit_status h); [by rewrite Hno|done]).
      case_bool_decide as Hs; [destruct (lifetime_lock_free h) eqn:Hlock|]; eexists.
      * split; [by apply reduce_iff; split|]. by constructor.
      * split; [reflexivity|]. by constructor.
      * split; [by apply reduce_iff; split|]. by constructor.
Qed.

(** ** Properties *)

Definition row_inv (row : option MachineState) : Prop := forall s, row = Some s -> state_inv s.

Lemma machine_state_inv id row now : row_inv row -> state_inv (machine_state id row now).
Proof. destruct row as [s|]; intros Hr; [by apply Hr|done]. Qed.

Lemma observation_inv h runtime stored now s :
  state_inv stored -> observation h runtime stored now s -> state_inv s.
Proof.
  intros Hi []; try (apply outcome_inv; [done|exact Hi]). unfold still_starting, state_inv. simpl.
  by rewrite H0.
Qed.

(** Reconciliation never fails and never corrupts a row: from a consistent
    row (or none) it always produces a consistent state for the same machine,
    stores it when it differs from the row in any lifecycle field, and reports
    what is then stored. *)
Theorem reconcile_total (h : Host) (id : string) (row : option MachineState) (now : Z)
    (Hr : row_inv row) :
  exists row' s, reconcile_machine_runtime_locked h id row now = Ok (row', s) /\
    state_inv s /\ row_inv row' /\ machine_id s = machine_id (machine_state id row now) /\
    exists s0, row' = Some s0 /\ status s0 = status s /\ vmm_pid s0 = vmm_pid s /\
      started_at s0 = started_at s /\ run_id s0 = run_id s /\ last_error s0 = last_error s.
Proof.
  destruct (observe_spec h id row now) as (s & Hs & Hobs). unfold reconcile_machine_runtime_locked.
  rewrite Hs. simpl. pose proof (observation_inv _ _ _ _ _ (machine_state_inv id row now Hr) Hobs) as Hi.
  eexists _, s. split; [done|]. split; [done|].
  assert (machine_id s = machine_id (machine_state id row now)) as Hid.
  { destruct Hobs; try done. by destruct clean. }
  destruct (machine_state_needs_writeback row s) eqn:Hw.
  - split; [by intros ? [= <-]|]. split; [done|]. exists s. done.
  - split; [done|]. split; [done|]. destruct row as [s0|]; [|done]. exists s0. split; [done|].
    unfold machine_state_needs_writeback in Hw. rewrite !orb_false_iff, !negb_false_iff, !bool_decide_eq_true in Hw.
    tauto.
Qed.

(** A machine reported as running or stopping really has a live monitor: the
    reported pid belongs to an existing live process with the reported start
    time, and if the row recorded a start time for a run that was past its
    start, it is that very process and not one that reused the pid. *)
Theorem observed_running_is_live (h : Host) (id : string) (row : option MachineState) (now : Z)
    (s : MachineState)
    (Hh : host_ok h) (Hr : row_inv row) (Ho : observe_machine_state h id row now = Ok s)
    (Hs : status s = Running \/ status s = Stopping) :
  exists pid p, vmm_pid s = Some pid /\ for_pid h pid = Some p /\ pi_alive p = true /\
    started_at s = pi_started_at p /\
    (forall s0 t, row = Some s0 -> status s0 <> Starting -> started_at s0 = Some t ->
       pi_started_at p = Some t).
Proof.
  destruct (observe_spec h id row now) as (s1 & Hs1 & Hobs). rewrite Ho in Hs1. injection Hs1 as <-.
  destruct Hobs as [st clean error Hl Hst Hm Hev|p Hl|Hl Hst Hf|Hl Hst Hf|Hl Hst Hno].
  - destruct clean; simpl in Hs; destruct Hs; done.
  - destruct (live_some h row p Hh Hl) as (Hp & Ha & Hacc & _). exists (pi_pid p), p.
    split; [done|]. split; [done|]. split; [done|]. split; [done|]. intros s0 t -> Hst Ht.
    unfold accepts in Hacc. simpl in Hacc. rewrite Ht in Hacc. rewrite bool_decide_eq_false_2 in Hacc by done.
    simpl in Hacc. rewrite orb_false_r in Hacc. by apply bool_decide_eq_true in Hacc.
  - destruct Hs; done.
  - simpl in Hs. rewrite Hst in Hs. by destruct Hs.
  - simpl in Hs. destruct (status (machine_state id row now)); by destruct Hs.
Qed.

(** When no process of the recorded generation is alive any more, a running
    or stopping machine is observed as stopped or failed. *)
Theorem dead_monitor_is_observed (h : Host) (id : string) (s0 : MachineState) (now : Z) (s : MachineState)
    (Hh : host_ok h) (Hs0 : status s0 = Running \/ status s0 = Stopping)
    (Hdead : forall pid p, pid_file h = Some pid \/ vmm_pid s0 = Some pid -> for_pid h pid = Some p ->
       pi_alive p = true -> identity_matches_generation p (started_at s0) = false)
    (Ho : observe_machine_state h id (Some s0) now = Ok s) :
  (status s = Stopped \/ status s = Error) /\ vmm_pid s = None /\ run_id s = None.
Proof.
  destruct (observe_spec h id (Some s0) now) as (s1 & Hs1 & Hobs). rewrite Ho in Hs1. injection Hs1 as <-.
  destruct Hobs as [st clean error Hl Hst Hm Hev|p Hl|Hl Hst Hf|Hl Hst Hf|Hl Hst Hno]; simpl in *.
  - destruct clean; simpl; auto.
  - exfalso. destruct (live_some h _ p Hh Hl) as (Hp & Ha & Hacc & Hpid).
    unfold accepts in Hacc. simpl in Hacc. rewrite (Hdead (pi_pid p) p Hpid Hp Ha) in Hacc.
    rewrite bool_decide_eq_false_2 in Hacc; [done|]. by destruct Hs0 as [-> | ->].
  - exfalso. rewrite Hst in Hs0. by destruct Hs0.
  - exfalso. rewrite Hst in Hs0. by destruct Hs0.
  - destruct Hs0 as [-> | ->]; auto.
Qed.

(** An exit record that does not name the recorded machine, run and pid has
    no influence on what is observed. *)
Theorem foreign_exit_record_ignored (h : Host) (id : string) (row : option MachineState) (now : Z)
    (st : VmmExitStatus)
    (Hst : exit_status h = Some st) (Hm : runtime_exit_matches st row = false) :
  observe_machine_state h id row now =
  observe_machine_state {| pid_file := pid_file h; for_pid := for_pid h;
                           lifetime_lock_free := lifetime_lock_free h; exit_status := None |} id row now.
Proof. unfold observe_machine_state, live_monitor_identity. simpl. rewrite Hst, Hm. simpl. done. Qed.

(** The pid file does not name a live process of another generation. *)
Definition no_foreign_pid (h : Host) (row : option MachineState) : Prop :=
  forall pid p, pid_file h = Some pid -> for_pid h pid = Some p -> pi_alive p = true ->
    accepts row p = true.

Lemma matches_self p : identity_matches_generation p (pi_started_at p) = true.
Proof.
  unfold identity_matches_generation, matches_started_at.
  destruct (pi_started_at p); [by apply bool_decide_eq_true|done].
Qed.

(** The process found in the first round is the one found in the next. *)
Lemma live_again_some h row s p :
  host_ok h -> no_foreign_pid h row -> live_monitor_identity h row = Some p ->
  vmm_pid s = Some (pi_pid p) -> started_at s = pi_started_at p ->
  live_monitor_identity h (Some s) = Some p.
Proof.
  intros Hh Hf Hl Hpid Hst. destruct (live_some h row p Hh Hl) as (Hp & Ha & _ & _).
  unfold live_monitor_identity. simpl. rewrite Hpid, Hst.
  assert (forall b, pi_alive p && (identity_matches_generation p (pi_started_at p) || b) = true) as Hok
    by (intros b; by rewrite Ha, matches_self).
  destruct (pid_file h) as [k|] eqn:Hk; simpl; [|by rewrite Hp, Hok].
  destruct (for_pid h k) as [q|] eqn:Hq.
  - destruct (pi_alive q) eqn:Haq.
    + assert (q = p) as ->.
      { pose proof (Hf k q Hk Hq Haq) as Hacc. unfold live_monitor_identity in Hl. rewrite Hk in Hl.
        simpl in Hl. rewrite Hq, Haq in Hl. fold (accepts row q) in Hl. rewrite Hacc in Hl. by injection Hl. }
      by rewrite matches_self.
    + simpl. case_bool_decide as Heq; [congruence|]. by rewrite Hp, Hok.
  - case_bool_decide as Heq; [congruence|]. by rewrite Hp, Hok.
Qed.

Lemma live_again_none h row s :
  no_foreign_pid h row -> live_monitor_identity h row = None -> vmm_pid s = None ->
  live_monitor_identity h (Some s) = None.
Proof.
  intros Hf Hl Hpid. unfold live_monitor_identity. simpl. rewrite Hpid.
  destruct (pid_file h) as [k|] eqn:Hk; [|done]. simpl. destruct (for_pid h k) as [q|] eqn:Hq; [|done].
  destruct (pi_alive q) eqn:Ha; [|done].
  pose proof (live_none h row k q Hl (or_introl Hk) Hq) as Hno.
  by rewrite Ha, (Hf k q Hk Hq Ha) in Hno.
Qed.

(** With no pid or no run recorded, no exit record matches. *)
Lemma exit_needs_generation st s :
  vmm_pid s = None \/ run_id s = None -> runtime_exit_matches st (Some s) = false.
Proof.
  intros Hn. simpl. destruct Hn as [-> | ->]; rewrite !andb_false_iff; [right|left; right]; by apply bool_decide_eq_false.
Qed.

(** The lifecycle fields of two states agree. *)
Definition same_fields (a b : MachineState) : Prop :=
  status a = status b /\ vmm_pid a = vmm_pid b /\ started_at a = started_at b /\
  run_id a = run_id b /\ last_error a = last_error b.

Lemma inactive_stable h s now s' :
  is_active (status s) = false -> state_inv s -> live_monitor_identity h (Some s) = None ->
  observation h (Some s) s now s' -> same_fields s s'.
Proof.
  intros Ha Hi Hl Hobs.
  assert (vmm_pid s = None /\ started_at s = None /\ run_id s = None) as (Hp & Ht & Hr)
    by (unfold state_inv in Hi; by destruct (status s)).
  destruct Hobs as [st clean error _ _ Hm _|p Hp'|_ Hst _|_ Hst _|_ _ _]; try congruence.
  - rewrite exit_needs_generation in Hm by auto. done.
  - by rewrite Hst in Ha.
  - by rewrite Hst in Ha.
  - unfold same_fields. simpl. rewrite Hp, Ht, Hr. by destruct (status s).
Qed.

Lemma observation_stable h row stored now s now' s' :
  host_ok h -> no_foreign_pid h row -> state_inv stored ->
  observation h row stored now s -> observation h (Some s) s now' s' -> same_fields s s'.
Proof.
  intros Hh Hf Hi Hobs Hobs'. pose proof (observation_inv _ _ _ _ _ Hi Hobs) as Hi'.
  assert (live_monitor_identity h row = None -> vmm_pid s = None ->
          live_monitor_identity h (Some s) = None) as Hnone by (intros; by eapply live_again_none).
  destruct Hobs as [st clean error Hl Hst Hm Hev|p Hl|Hl Hst Hlk|Hl Hst Hlk|Hl Hst Hno].
  - destruct clean; (eapply inactive_stable; [done|exact Hi'|by apply Hnone|exact Hobs']).
  - assert (live_monitor_identity h (Some (outcome stored (MonitorObserved (pi_pid p) (pi_started_at p)
      (row ≫= run_id)) now)) = Some p) as Hl2 by (by eapply live_again_some).
    destruct Hobs' as [? ? ? Hx|q Hx|Hx|Hx|Hx]; rewrite Hl2 in Hx; try discriminate Hx.
    injection Hx as <-. unfold same_fields. simpl. by destruct (status stored).
  - eapply inactive_stable; [done|exact Hi'|by apply Hnone|exact Hobs'].
  - specialize (Hnone Hl eq_refl).
    destruct Hobs' as [st ? ? _ _ Hm _|q Hx|_ _ Hx|_ _ Hx|_ Hx _]; try congruence.
    + by rewrite exit_needs_generation in Hm by auto.
    + done.
    + exfalso. apply Hx. exact Hst.
  - assert (is_active (status (outcome stored (MonitorGone (row ≫= last_error)) now)) = false) as Ha
      by (simpl; by destruct (status stored)).
    eapply inactive_stable; [exact Ha|exact Hi'|by apply Hnone|exact Hobs'].
Qed.

Lemma same_fields_no_writeback a b : same_fields a b -> machine_state_needs_writeback (Some a) b = false.
Proof.
  intros (H1 & H2 & H3 & H4 & H5). unfold machine_state_needs_writeback.
  by rewrite !orb_false_iff, !negb_false_iff, !bool_decide_eq_true.
Qed.

(** C27: Reconciliation settles: as long as the pid file does not name a live
    process of another generation, once an observation has been written a second
    reconciliation of the same host finds nothing to write and reports the same
    lifecycle fields. *)
Theorem reconcile_settles (h : Host) (id : string) (row : option MachineState) (now now' : Z)
    (row' : option MachineState) (s : MachineState)
    (Hh : host_ok h) (Hr : row_inv row) (Hf : no_foreign_pid h row)
    (H1 : reconcile_machine_runtime_locked h id row now = Ok (row', s))
    (Hw : row' = Some s) :
  exists s', reconcile_machine_runtime_locked h id row' now' = Ok (row', s') /\ same_fields s s'.
Proof.
  destruct (observe_spec h id row now) as (s1 & Hs1 & Hobs).
  unfold reconcile_machine_runtime_locked in H1. rewrite Hs1 in H1. simpl in H1. injection H1 as Hrow <-.
  subst row'. destruct (observe_spec h id (Some s1) now') as (s2 & Hs2 & Hobs2). exists s2.
  assert (same_fields s1 s2) as Hsame.
  { eapply observation_stable; [done|done| |exact Hobs|exact Hobs2]. by apply machine_state_inv. }
  unfold reconcile_machine_runtime_locked. rewrite Hw, Hs2. cbn [mbind res_bind].
  by rewrite same_fields_no_writeback.
Qed.

(** Without that hypothesis it does not settle.  A running machine whose monitor
    died and whose pid was taken by another process is first observed as
    stopped; the row then has no start time left to compare, and the next
    reconciliation takes the foreign process from the stale pid file for the
    machine's monitor. *)
Theorem reused_pid_is_adopted (h : Host) (id : string) (s0 : MachineState) (pid t t' now now' : Z)
    (Hpf : pid_file h = Some pid)
    (Hp : for_pid h pid = Some {| pi_pid := pid; pi_started_at := Some t'; pi_alive := true |})
    (Hx : exit_status h = None) (Hne : t <> t')
    (Hs : status s0 = Running) (Hpid : vmm_pid s0 = Some pid) (Ht : started_at s0 = Some t) :
  exists s1 s2,
    reconcile_machine_runtime_locked h id (Some s0) now = Ok (Some s1, s1) /\ status s1 = Stopped /\
    reconcile_machine_runtime_locked h id (Some s1) now' = Ok (Some s2, s2) /\
    status s2 = Running /\ vmm_pid s2 = Some pid /\ started_at s2 = Some t'.
Proof.
  assert (live_monitor_identity h (Some s0) = None) as Hl1.
  { unfold live_monitor_identity. simpl. rewrite Hpf, Hpid, Ht, Hs. simpl. rewrite Hp. simpl.
    unfold matches_started_at. simpl. rewrite bool_decide_eq_false_2 by congruence. simpl.
    by rewrite bool_decide_eq_true_2. }
  destruct (observe_spec h id (Some s0) now) as (s1 & Hs1 & Hobs1).
  assert (s1 = outcome s0 (MonitorGone (last_error s0)) now) as Es1.
  { destruct Hobs1 as [? ? ? ? Hx'|? Hq|? Hq|? Hq|]; [congruence|congruence|simpl in Hq..|done]; congruence. }
  assert (status s1 = Stopped /\ started_at s1 = None /\ vmm_pid s1 = None) as (Hst1 & Ht1 & Hp1)
    by (subst s1; simpl; by rewrite Hs).
  destruct (observe_spec h id (Some s1) now') as (s2 & Hs2 & Hobs2).
  assert (live_monitor_identity h (Some s1) =
            Some {| pi_pid := pid; pi_started_at := Some t'; pi_alive := true |}) as Hl2.
  { unfold live_monitor_identity. simpl. rewrite Hpf, Ht1, Hp1. simpl. by rewrite Hp. }
  assert (s2 = outcome s1 (MonitorObserved pid (Some t') (run_id s1)) now') as Es2.
  { destruct Hobs2 as [? ? ? Hq|q Hq|Hq|Hq|Hq]; rewrite Hl2 in Hq; try discriminate Hq. by injection Hq as <-. }
  exists s1, s2. unfold reconcile_machine_runtime_locked. rewrite Hs1, Hs2. cbn [mbind res_bind].
  assert (forall a b, status a <> status b -> machine_state_needs_writeback (Some a) b = true) as Hw.
  { intros a b Hab. unfold machine_state_needs_writeback. by rewrite bool_decide_eq_false_2. }
  assert (status s2 = Running) as Hst2 by (subst s2; simpl; by rewrite Hst1).
  rewrite !Hw by congruence. by subst s2.
Qed.

(** Completing a stop acts on its own generation only: the row changes and
    the machine's resources are released exactly when the machine was stopping,
    the recorded run, pid and start time are those of the stop, and that process
    is dead; the row is then the stopped record with the given error.  In every
    other case the row is untouched, and an inactive machine counts as stopped. *)
Theorem complete_stop_generation (h : Host) (id : string) (row row' : option MachineState)
    (g : VmmRunIdentity) (err : option string) (now : Z) (complete cleanup : bool)
    (Hc : complete_stop_locked h id row g err now = Ok (row', complete, cleanup)) :
  let s := machine_state id row now in
  if cleanup then
    status s = Stopping /\ same_generation s (g_pid g) (g_started_at g) (g_run_id g) /\
    vmm_run_is_alive h g = false /\ complete = true /\
    row' = Some (replace_runtime s Stopped None None None err now)
  else row' = row /\ (complete = true <-> is_active (status s) = false).
Proof.
  cbv zeta. unfold complete_stop_locked in Hc. set (s := machine_state id row now) in *.
  destruct (is_active (status s)) eqn:Ha; simpl in Hc; [|by injection Hc as <- <- <-].
  destruct (vmm_run_identity_matches s g) eqn:Hm; simpl in Hc; [|by injection Hc as <- <- <-].
  destruct (vmm_run_is_alive h g) eqn:Hal; [by injection Hc as <- <- <-|].
  destruct (stop_completed s _ _ _ err now) as [next|e|] eqn:Hr; [| |done].
  - injection Hc as <- <- <-. apply (reduce_iff s (StopCompleted _ _ _ err)) in Hr as [[Hs Hg] ->]. done.
  - destruct e; try discriminate Hc. by injection Hc as <- <- <-.
Qed.

(** A host with a live monitor, pid 7 started at 42, and one where it is gone
    and left an exit record. *)
Definition live_host : Host :=
  {| pid_file := Some 7;
     for_pid := fun pid => if pid =? 7 then Some {| pi_pid := 7; pi_started_at := Some 42; pi_alive := true |}
                           else None;
     lifetime_lock_free := false; exit_status := None |}.
Definition gone_host : Host :=
  {| pid_file := Some 7; for_pid := fun _ => None; lifetime_lock_free := true;
     exit_status := Some {| x_machine_id := "m"; x_run_id := "old"; x_pid := 7; x_outcome := ExitError;
                            x_error := None |} |}.
Definition running_row : MachineState :=
  {| machine_id := "m"; status := Running; vmm_pid := Some 7; started_at := Some 42; run_id := Some "r1";
     last_error := None; updated_at := 1 |}.
Definition stopping_row : MachineState :=
  {| machine_id := "m"; status := Stopping; vmm_pid := Some 7; started_at := Some 42; run_id := Some "r1";
     last_error := None; updated_at := 1 |}.

Lemma live_host_ok : host_ok live_host.
Proof. intros pid p. simpl. destruct (Z.eqb_spec pid 7) as [->|]; [by intros [= <-]|done]. Qed.

Lemma running_row_inv : row_inv (Some running_row).
Proof. intros s [= <-]. split; [by eexists|done]. Qed.

Lemma reconcile_total_witness :
  exists row' s, reconcile_machine_runtime_locked gone_host "m" (Some running_row) 9 = Ok (row', s) /\
    state_inv s /\ row_inv row' /\ machine_id s = machine_id (machine_state "m" (Some running_row) 9) /\
    exists s0, row' = Some s0 /\ status s0 = status s /\ vmm_pid s0 = vmm_pid s /\
      started_at s0 = started_at s /\ run_id s0 = run_id s /\ last_error s0 = last_error s.
Proof. exact (reconcile_total gone_host "m" (Some running_row) 9 running_row_inv). Defined.

Lemma observed_running_is_live_witness :
  exists pid p, vmm_pid (outcome running_row (MonitorObserved 7 (Some 42) (Some "r1")) 9) = Some pid /\
    for_pid live_host pid = Some p /\ pi_alive p = true /\
    started_at (outcome running_row (MonitorObserved 7 (Some 42) (Some "r1")) 9) = pi_started_at p /\
    (forall s0 t, Some running_row = Some s0 -> status s0 <> Starting -> started_at s0 = Some t ->
       pi_started_at p = Some t).
Proof.
  apply (observed_running_is_live live_host "m" (Some running_row) 9);
    [exact live_host_ok|exact running_row_inv|reflexivity|by left].
Defined.

Lemma dead_monitor_is_observed_witness :
  let s := outcome running_row (MonitorGone None) 9 in
  (status s = Stopped \/ status s = Error) /\ vmm_pid s = None /\ run_id s = None.
Proof.
  apply (dead_monitor_is_observed gone_host "m" running_row 9);
    [by intros pid p|by left|by intros pid p _|reflexivity].
Defined.

Lemma foreign_exit_record_ignored_witness :
  observe_machine_state gone_host "m" (Some running_row) 9 =
  observe_machine_state {| pid_file := pid_file gone_host; for_pid := for_pid gone_host;
                           lifetime_lock_free := lifetime_lock_free gone_host; exit_status := None |}
    "m" (Some running_row) 9.
Proof. by apply (foreign_exit_record_ignored gone_host "m" (Some running_row) 9 _ eq_refl). Defined.

Lemma reconcile_settles_witness :
  let s := outcome running_row (MonitorGone None) 9 in
  exists s', reconcile_machine_runtime_locked gone_host "m" (Some s) 10 = Ok (Some s, s') /\ same_fields s s'.
Proof.
  apply (reconcile_settles gone_host "m" (Some running_row) 9 10 _ (outcome running_row (MonitorGone None) 9));
    [by intros pid p|exact running_row_inv|by intros pid p|reflexivity|reflexivity].
Defined.

Lemma complete_stop_generation_witness :
  let s := machine_state "m" (Some stopping_row) 9 in
  status s = Stopping /\ same_generation s 7 (Some 42) (Some "r1") /\
  vmm_run_is_alive gone_host (mkVmmRunIdentity 7 (Some 42) (Some "r1")) = false /\ true = true /\
  Some (replace_runtime stopping_row Stopped None None None None 9) =
    Some (replace_runtime s Stopped None None None None 9).
Proof.
  exact (complete_stop_generation gone_host "m" (Some stopping_row)
           (Some (replace_runtime stopping_row Stopped None None None None 9))
           (mkVmmRunIdentity 7 (Some 42) (Some "r1")) None 9 true true eq_refl).
Defined.
